(* ===== verification/_CoqProject ===== *)
-Q . S2P
Prelude.v
DList.v
Queue.v
Base64.v
MqttPacket.v
MqttEncode.v
ClientTypes.v
MqttParser.v
ParserSpec.v
ParserConnect.v
ParserTypes.v
ParserSubscribe.v
Trie.v
TrieSearch.v
TrieStore.v
Subscription.v
WsParser.v
WsSpec.v
Text.v
HttpTypes.v
HttpParser.v
HttpNames.v
HttpSafe.v
HttpUrl.v
UrlSpec.v
HttpRequest.v
World.v
KeepAlive.v
WorkerQueue.v
ClientSend.v
Auth.v
Client.v
ClientTls.v
ClientWs.v
Config.v
Worker.v
Delivery.v
Messages.v
Lifecycle.v
Closing.v
Sessions.v
Broadcast.v
AuthSpec.v
Handshake.v
Upgrade.v
MqttOverWs.v
Kqueue.v
Log.v
UnitTests.v
Main.v
Kavl.v
KavlTree.v
KavlSearch.v
KavlIter.v
KavlInsert.v
KavlErase.v
KavlSpec.v
