(* ===== verification/Prelude.v ===== *)
(** * fb-broker: an event-machine MQTT broker, verified

    The broker (src/) is a C program.  [main] reads the configuration, opens
    the listening sockets and starts the workers, one thread each; the main
    thread accepts connections and gives them to the workers in turn.  A worker
    loops over its sockets: what a client sends goes, through TLS or the
    WebSocket parser if the port asks for it, to an incremental MQTT parser
    that calls a handler of client.c per packet.  A PUBLISH is put on the
    message queue of every worker; each worker searches its trie of
    subscriptions and writes to its own clients; the worker of the publisher
    frees the message when all have done so.

    ** The model

    Shallow embedding, one definition per function or loop, in the order of
    the calls.  [outcome] below is the result of C code: a value, undefined
    behaviour of a named kind, the end of the process, or the fuel of a loop
    used up.  Integers are [Z] with the conversion of each C type written out
    ([u8], [u16], [u32], [u64], [i32]; [int_chk] for signed arithmetic), arrays
    are lists whose reads and writes are checked ([arr_get], [arr_set],
    [arr_blit], [arr_read]), intrusive list nodes and queue items are cells of
    a heap ([node_heap], [item_heap]) because the same cell is reached from
    several structures.  Fields keep their C names with a prefix per record.

    What is not under src/ is a parameter: [Libc] (MqttPacket) says which
    allocations fail and what fresh memory holds; [Sys] (World) answers every
    call to the operating system, OpenSSL and MySQL as a function of the calls
    made before it; [LibConfig] (Config) is libconfig.  [MqttCallbacks]
    (MqttParser), [WsCallbacks] (WsParser) and [HttpCallbacks] (HttpParser) are
    the interfaces of the three parsers: recording instances serve to state
    what is parsed, the instances of the broker are in Client and ClientWs.

    ** Files

    - DList (list.c), Queue (queue.c), Base64 (base64.c): the data structures
      and codecs, each with its refinement of lists, or its round trip.
    - MqttPacket (message.c, mqtt_packet.c), MqttEncode (mqtt_encode.c): messages,
      [mqtt_topic_matches] and its level-by-level meaning, the encoders and the
      packets of MQTT 3.1.1 they write.
    - ClientTypes (client.h, mqtt_parser.h), MqttParser (mqtt_parser.c): the
      parser as a step per byte.  ParserSpec (PUBLISH, and splitting the input
      anywhere), ParserConnect, ParserSubscribe: what the handlers receive;
      ParserTypes: the fields keep the range of their C type and the arrays
      their size.
    - Trie, TrieSearch, TrieStore (trie_mult.c), Subscription (subscription.c):
      the trie as a map from filters to lists; a search calls back for exactly
      the matching filters; insertion and deletion.
    - WsParser, WsSpec (ws_parser.c): WebSocket frames, read back as written.
    - HttpTypes, HttpParser (http_parser.h, http_parser.c): the HTTP parser, a
      definition per case of its switch.  HttpNames: its automata for methods,
      URLs, names and options; HttpSafe: it returns on every input;
      HttpRequest: requests are read as written.  HttpUrl, UrlSpec: the fields
      of a URL, and the functions the broker does not call.
    - World: the state of the broker as one record, and its outside calls.
    - KeepAlive (keep_alive.c), WorkerQueue (worker.c: queues and collection),
      Text (formats), ClientSend (client.c, client_tls.c: sending and closing),
      Auth (auth/auth_fb.c, set.cpp), Client (client.c: handlers, delivery, new
      clients), ClientTls (client_tls.c), ClientWs (client_ws.c), Config
      (config.c), Worker (worker.c, worker_epoll.c, server.c: loops, start-up),
      Kqueue (worker_kqueue.c: the poll loop of other systems).
    - Log (log.c, debug.c): levels, formats and dates.  Main (main.c): a process
      with options, pid file, signals and exit, as a monad that keeps the state
      when the process ends; it ends in the start-up of Worker.  UnitTests
      (test/): the tests of main -t, run on the definitions they test.
    - Delivery: what reaches the sockets.  Messages, Lifecycle: the message
      queues as a transition system ([mstep]), with their invariant, and that
      messages are freed.  Closing: what is left of a client that goes.
      Sessions: the answers to PUBLISH and to a refused CONNECT.  Broadcast: from
      one client to all the others, through the queues of every worker.  AuthSpec: who
      is let in, and what an ordinary client may do.  Handshake, Upgrade: from
      the bytes of an HTTP request to the response.  MqttOverWs: what the frames
      of an upgraded client do.
    - Kavl (kavl.h): AVL trees of nodes in a heap.  KavlTree: trees and contexts
      as values, the heap that holds them, rotations; KavlSearch: search and
      freeing; KavlIter: iterators; KavlInsert and KavlErase: the loops on the
      way up; KavlSpec: sequences of operations against a sorted list, for every
      comparison that is a total preorder ([KavlOrder]).

    ** Theorems

    Functional: the packets written and read, the trie against the levels of a
    topic, [publish_reaches_everyone], [message_reaches_subscribers],
    [auth_decides], [acl_decides], [configuration_read], [request_parsed],
    [upgrade_request_answered], [mqtt_over_websocket], [log_writes_line].
    Refinement: [queue_is_fifo], [avl_is_sorted_list].  Round trips:
    [publish_roundtrip], [b64_roundtrip], [ws_frames_read], [url_roundtrip].
    Invariants and safety: [message_queues_safe], [ka_run_correct],
    [client_leaves_nothing], [parser_keeps_types], [parse_url_safe],
    [pid_file_written_and_removed].
    Termination and progress: [http_execute_safe], [send_data_whole],
    [messages_get_freed].  Errors: theorems named after what goes wrong, as
    [gc_too_early], [refused_client_used_after_free] and
    [plain_request_used_after_free], state faults of the code as it stands;
    other theorems carry the condition under which the code is right.

    ** Fuel

    Loops over arrays and lists recur on their structure or on a length.
    [search_loop] and [send_loop] get the length of their text or buffer, as do
    the loops of http_parser, whose [goto reexecute] gets 5 rounds per byte; the
    walks along lists get the size of the heap; the theorems show that this is
    enough.  [w_deliver] and [w_gc] take fuel that [messages_get_freed] bounds
    by the number of messages.  [loop_fuel] bounds loops that only an outside
    call ends (TLS records, further results of a query).  The loops of kavl.h
    that follow pointers get the size of the heap, freeing twice that; a tree of
    less than 2^32 nodes is at most 45 high, so that the arrays of 64 entries
    are never overrun.  [vformat] gets the length of the format.

    ** Not modelled

    The select variant of the poll loop, which uses fields the structures do
    not have; getopt; the log messages of the broker's own functions, which
    change nothing else; what a signal does to a system call that it interrupts.
    The limit on the header size of http_parser is a parameter ([HttpLimit]),
    which the broker leaves at its default.  Threads: a worker step is atomic in [mstep]; the
    interleaving of the steps is arbitrary, races inside a step are not
    modelled.  Arrays of the model do not alias. *)

From Stdlib Require Export ZArith Lia.
From stdpp Require Export base gmap list.

#[export] Set Default Goal Selector "1".

Declare Scope fb_scope.
Delimit Scope fb_scope with fb.
#[global] Open Scope fb_scope.
#[global] Open Scope Z_scope.

(** ** The outcome of a piece of C code

    [Ok]: it ran and returned; [Undef]: it executed something the C standard
    leaves undefined ([BadArgument]: a function of the
    standard library was called with what it does not take); [Halt]: the process stopped ([exit], a failed [ASSERT]);
    [Spin]: the fuel the model gave a loop was used up. *)

Inductive ub_kind :=
  | OutOfBounds
  | UseAfterFree
  | NullDeref
  | SignedOverflow
  | BadShift
  | Uninitialised
  | BadArgument.

Inductive outcome (A : Type) :=
  | Ok (a : A)
  | Undef (k : ub_kind)
  | Halt
  | Spin.
Arguments Ok {A} a.
Arguments Undef {A} k.
Arguments Halt {A}.
Arguments Spin {A}.

#[global] Instance ub_kind_eq_dec : EqDecision ub_kind.
Proof. solve_decision. Defined.

#[export] Instance outcome_ret : MRet outcome := @Ok.

#[export] Instance outcome_bind : MBind outcome := fun A B f m =>
  match m with
  | Ok a => f a
  | Undef k => Undef k
  | Halt => Halt
  | Spin => Spin
  end.

Lemma bind_ok {A B} (f : A -> outcome B) a : (Ok a ≫= f) = f a.
Proof. reflexivity. Qed.

Lemma bind_assoc {A B C} (m : outcome A) (f : A -> outcome B) (g : B -> outcome C) :
  (m ≫= f) ≫= g = m ≫= (fun x => f x ≫= g).
Proof. by destruct m. Qed.

Lemma bind_inv_ok {A B} (m : outcome A) (f : A -> outcome B) b :
  m ≫= f = Ok b -> exists a, m = Ok a /\ f a = Ok b.
Proof. destruct m; naive_solver. Qed.

Definition is_ok {A} (m : outcome A) : Prop := exists a, m = Ok a.

(** Pull a hypothesis [x <- m; k = Ok b] apart, bind by bind. *)
Ltac inv_bind :=
  repeat match goal with
  | H : mbind _ _ = Ok _ |- _ =>
      let a := fresh "a" in let Ha := fresh "Ha" in
      apply bind_inv_ok in H as (a & Ha & H)
  | H : mret _ = Ok _ |- _ => cbv [mret outcome_ret] in H
  | H : Ok _ = Ok _ |- _ => injection H as H; try subst
  end.

(** ** Functional update of one field of a record

    [r <| f := v |>] is [r] with the field [f] set to [v], for a record type
    with an [Eta] instance that lists its projections. *)

Class Eta (R : Type) := eta : R -> R.
Class Upd {R A : Type} (f : R -> A) := upd : A -> R -> R.

Ltac solve_upd f :=
  lazymatch type of f with
  | ?R -> ?A =>
      let body := eval hnf in (@eta R _) in
      lazymatch (eval pattern f in body) with
      | (fun _ => ?same) _ => fail
      | ?rebuild _ => exact (fun (v : A) (r : R) => rebuild (fun _ => v) r)
      end
  end.
#[export] Hint Extern 1 (Upd ?f) => solve_upd f : typeclass_instances.

Notation "r <| f := v |>" := (upd (f:=f) v r)
  (at level 1, f at level 10, v at level 200, left associativity) : fb_scope.

(** ** Machine integers *)

Definition u8 (z : Z) : Z := z mod 2 ^ 8.
Definition u16 (z : Z) : Z := z mod 2 ^ 16.
Definition u32 (z : Z) : Z := z mod 2 ^ 32.
Definition u64 (z : Z) : Z := z mod 2 ^ 64.

(** Conversion of an integer to a 32-bit [int] (two's complement). *)
Definition i32 (z : Z) : Z := (z + 2 ^ 31) mod 2 ^ 32 - 2 ^ 31.

Definition int_min : Z := - 2 ^ 31.
Definition int_max : Z := 2 ^ 31 - 1.

(** The result of a signed [int] operation: undefined on overflow. *)
Definition int_chk (z : Z) : outcome Z :=
  if (int_min <=? z) && (z <=? int_max) then Ok z else Undef SignedOverflow.

Definition is_byte (b : Z) : Prop := 0 <= b < 256.
Definition bytes (l : list Z) : Prop := Forall is_byte l.

#[global] Instance is_byte_dec b : Decision (is_byte b).
Proof. unfold is_byte. apply _. Defined.

(** C truth values. *)
Definition c_bool (b : bool) : Z := if b then 1 else 0.
Definition truthy (z : Z) : bool := negb (z =? 0).

Definition zlen {A} (l : list A) : Z := Z.of_nat (length l).

(** ** Arrays *)

Definition arr_get {A} (l : list A) (i : Z) : outcome A :=
  if i <? 0 then Undef OutOfBounds
  else match l !! Z.to_nat i with
       | Some x => Ok x
       | None => Undef OutOfBounds
       end.

Definition arr_set {A} (l : list A) (i : Z) (v : A) : outcome (list A) :=
  if (0 <=? i) && (i <? zlen l) then Ok (<[Z.to_nat i := v]> l)
  else Undef OutOfBounds.

(** [memcpy (l + off, src, n)] with [n] the length of [src]. *)
Definition arr_blit {A} (l : list A) (off : Z) (src : list A) : outcome (list A) :=
  if (0 <=? off) && (off + zlen src <=? zlen l)
  then Ok (take (Z.to_nat off) l ++ src ++ drop (Z.to_nat off + length src) l)
  else Undef OutOfBounds.

(** The first [n] elements of an array, as [memcpy] reads them. *)
Definition arr_read {A} (l : list A) (n : Z) : outcome (list A) :=
  if (0 <=? n) && (n <=? zlen l) then Ok (take (Z.to_nat n) l) else Undef OutOfBounds.

(** [*ptr++ = v] on a buffer [buf] with [ptr] at the offset [off]. *)
Definition put_byte (buf : list Z) (off v : Z) : outcome (list Z * Z) :=
  buf ← arr_set buf off (u8 v); mret (buf, off + 1).

(** A C string held in an array: the bytes before the first NUL. *)
Fixpoint c_str (l : list Z) : list Z :=
  match l with
  | [] => []
  | b :: l' => if b =? 0 then [] else b :: c_str l'
  end.

(** The array holds a NUL, so that the string functions stay inside it. *)
Definition has_nul (l : list Z) : bool := existsb (fun b => b =? 0) l.

(** ** Generic lemmas *)

Lemma int_chk_ok z : int_min <= z <= int_max -> int_chk z = Ok z.
Proof.
  intros [H1 H2]. unfold int_chk.
  apply Z.leb_le in H1, H2. by rewrite H1, H2.
Qed.

Lemma u8_small z : 0 <= z < 256 -> u8 z = z.
Proof. intros. unfold u8. apply Z.mod_small. lia. Qed.

Lemma u16_small z : 0 <= z < 65536 -> u16 z = z.
Proof. intros. unfold u16. apply Z.mod_small. lia. Qed.

Lemma u32_small z : 0 <= z < 2 ^ 32 -> u32 z = z.
Proof. intros. unfold u32. by apply Z.mod_small. Qed.

Lemma u64_small z : 0 <= z < 2 ^ 64 -> u64 z = z.
Proof. intros. unfold u64. by apply Z.mod_small. Qed.

Lemma i32_small z : int_min <= z <= int_max -> i32 z = z.
Proof. unfold int_min, int_max, i32. intros. rewrite Z.mod_small; lia. Qed.

Lemma u8_byte z : is_byte (u8 z).
Proof. unfold is_byte, u8. apply (Z.mod_pos_bound z (2 ^ 8)). lia. Qed.

Lemma u16_range z : 0 <= u16 z < 65536.
Proof. unfold u16. apply (Z.mod_pos_bound z (2 ^ 16)). lia. Qed.

Lemma u32_range z : 0 <= u32 z < 2 ^ 32.
Proof. unfold u32. apply Z.mod_pos_bound. lia. Qed.

Lemma zlen_nonneg {A} (l : list A) : 0 <= zlen l.
Proof. unfold zlen. lia. Qed.

Lemma zlen_app {A} (l k : list A) : zlen (l ++ k) = zlen l + zlen k.
Proof. unfold zlen. rewrite length_app. lia. Qed.

Lemma zlen_cons {A} (x : A) l : zlen (x :: l) = zlen l + 1.
Proof. unfold zlen. simpl. lia. Qed.

Lemma zlen_nil {A} : zlen (@nil A) = 0.
Proof. reflexivity. Qed.

Create Rewrite HintDb fb.
#[export] Hint Rewrite @zlen_app @zlen_cons @zlen_nil : fb.

Lemma lor_shiftl_add hi lo n :
  0 <= n -> 0 <= lo < 2 ^ n -> Z.lor (Z.shiftl hi n) lo = hi * 2 ^ n + lo.
Proof.
  intros Hn Hlo. rewrite <- Z.shiftl_mul_pow2 by done.
  assert (Hl : Z.land (Z.shiftl hi n) lo = 0).
  { apply Z.bits_inj'. intros i Hi. rewrite Z.land_spec, Z.bits_0.
    destruct (decide (i < n)).
    - by rewrite Z.shiftl_spec_low by lia.
    - rewrite <- (Z.mod_small lo (2 ^ n)) by done.
      rewrite Z.mod_pow2_bits_high by lia. apply andb_false_r. }
  rewrite Z.add_nocarry_lxor by done. by rewrite <- Z.lxor_lor.
Qed.

Lemma arr_get_ok {A} (l : list A) i x :
  0 <= i -> l !! Z.to_nat i = Some x -> arr_get l i = Ok x.
Proof.
  intros Hi Hx. unfold arr_get.
  destruct (Z.ltb_spec i 0); [lia | by rewrite Hx].
Qed.

Lemma arr_set_ok {A} (l : list A) i v :
  0 <= i < zlen l -> arr_set l i v = Ok (<[Z.to_nat i := v]> l).
Proof.
  intros [H1 H2]. unfold arr_set.
  apply Z.leb_le in H1. apply Z.ltb_lt in H2. by rewrite H1, H2.
Qed.

Lemma arr_set_undef {A} (l : list A) i v :
  ~ (0 <= i < zlen l) -> arr_set l i v = Undef OutOfBounds.
Proof.
  intros H. unfold arr_set.
  destruct (Z.leb_spec 0 i), (Z.ltb_spec i (zlen l)); simpl; auto; lia.
Qed.

Lemma arr_set_app_mid {A} (l k : list A) x v :
  arr_set (l ++ x :: k) (zlen l) v = Ok (l ++ v :: k).
Proof.
  rewrite arr_set_ok.
  - f_equal. unfold zlen. rewrite Nat2Z.id.
    rewrite insert_app_r_alt by lia. by rewrite Nat.sub_diag.
  - unfold zlen. rewrite length_app. simpl. lia.
Qed.

Lemma put_byte_ok front x rest v :
  put_byte (front ++ x :: rest) (zlen front) v
  = Ok ((front ++ [u8 v]) ++ rest, zlen (front ++ [u8 v])).
Proof.
  unfold put_byte. rewrite arr_set_app_mid. cbn.
  by rewrite <- app_assoc, zlen_app.
Qed.

Lemma put_byte_0 x rest v : put_byte (x :: rest) 0 v = Ok ([u8 v] ++ rest, zlen [u8 v]).
Proof. apply (put_byte_ok []). Qed.

Lemma arr_blit_ok {A} (front out rest src : list A) :
  length out = length src ->
  arr_blit (front ++ out ++ rest) (zlen front) src = Ok (front ++ src ++ rest).
Proof.
  intros Hl. unfold arr_blit. pose proof (zlen_nonneg front). pose proof (zlen_nonneg rest).
  assert (zlen out = zlen src) as Ho by (unfold zlen; by rewrite Hl).
  autorewrite with fb.
  destruct (Z.leb_spec 0 (zlen front)); [|lia].
  destruct (Z.leb_spec (zlen front + zlen src) (zlen front + (zlen out + zlen rest))); [|lia].
  cbn [andb]. f_equal. unfold zlen at 1 2. rewrite Nat2Z.id.
  rewrite take_app_length. f_equal. f_equal.
  rewrite <- Hl, app_assoc, <- length_app, drop_app_length. done.
Qed.

Lemma arr_read_ok {A} (l k : list A) n :
  n = zlen l -> arr_read (l ++ k) n = Ok l.
Proof.
  intros ->. unfold arr_read. pose proof (zlen_nonneg l). pose proof (zlen_nonneg k).
  autorewrite with fb.
  destruct (Z.leb_spec 0 (zlen l)); [|lia].
  destruct (Z.leb_spec (zlen l) (zlen l + zlen k)); [|lia].
  cbn. unfold zlen. by rewrite Nat2Z.id, take_app_length.
Qed.

Lemma lookup_app_zlen {A} (l k : list A) i :
  0 <= i -> (l ++ k) !! Z.to_nat (zlen l + i) = k !! Z.to_nat i.
Proof.
  intros Hi. unfold zlen. rewrite lookup_app_r by lia. f_equal. lia.
Qed.

Lemma arr_get_app {A} (l k : list A) i x :
  0 <= i -> k !! Z.to_nat i = Some x -> arr_get (l ++ k) (zlen l + i) = Ok x.
Proof.
  intros Hi Hx. pose proof (zlen_nonneg l).
  apply arr_get_ok; [lia|]. by rewrite lookup_app_zlen.
Qed.

Lemma bytes_app l k : bytes (l ++ k) <-> bytes l /\ bytes k.
Proof. apply Forall_app. Qed.

Lemma bytes_cons b l : bytes (b :: l) <-> is_byte b /\ bytes l.
Proof. apply Forall_cons. Qed.

(** A decidable property of one byte holds when it holds at the 256 values. *)
Lemma byte_forall (P : Z -> bool) b :
  forallb P (seqZ 0 256) = true -> is_byte b -> P b = true.
Proof.
  intros H Hb. rewrite forallb_forall in H. apply H.
  apply list_elem_of_In, elem_of_seqZ. unfold is_byte in Hb. lia.
Qed.


Lemma has_nul_app_cons l k : has_nul (l ++ 0 :: k) = true.
Proof. unfold has_nul. rewrite existsb_app. simpl. apply orb_true_r. Qed.

Lemma c_str_app_nul l k : Forall (fun b => b <> 0) l -> c_str (l ++ 0 :: k) = l.
Proof.
  induction 1 as [|b l Hb Hl IH]; [done|].
  simpl. rewrite IH. by destruct (Z.eqb_spec b 0).
Qed.

(** ** Lists of lists *)

Lemma concat_lookup {A} (bs : list (list A)) x :
  x ∈ concat bs <-> exists i xs, bs !! i = Some xs /\ x ∈ xs.
Proof.
  induction bs as [|ys bs IH]; cbn [concat].
  - split; [by intros ?%not_elem_of_nil|]. intros (i & xs & Hi & _). done.
  - rewrite elem_of_app, IH. split.
    + intros [Hx|(i & xs & Hi & Hx)]; [by exists 0%nat, ys|by exists (S i), xs].
    + intros ([|i] & xs & Hi & Hx); cbn in Hi; simplify_eq; [by left|right; eauto].
Qed.

Lemma concat_disjoint {A} (bs : list (list A)) i j xs ys x :
  NoDup (concat bs) -> bs !! i = Some xs -> bs !! j = Some ys -> x ∈ xs -> x ∈ ys -> i = j.
Proof.
  revert i j. induction bs as [|zs bs IH]; intros i j Hnd Hi Hj Hx Hy; [done|]. cbn [concat] in Hnd.
  apply NoDup_app in Hnd as (_ & Hd & Hnd).
  destruct i as [|i], j as [|j]; cbn in Hi, Hj; simplify_eq; [done| | |by f_equal; eapply IH].
  - exfalso. eapply Hd; [exact Hx|]. apply concat_lookup. eauto.
  - exfalso. eapply Hd; [exact Hy|]. apply concat_lookup. eauto.
Qed.

Lemma concat_take_drop {A} (bs : list (list A)) i xs :
  bs !! i = Some xs -> concat bs = concat (take i bs) ++ xs ++ concat (drop (S i) bs).
Proof. intros Hi. rewrite <- (take_drop_middle bs i xs) at 1 by done. by rewrite concat_app. Qed.

Lemma concat_insert {A} (bs : list (list A)) i xs ys :
  bs !! i = Some xs -> concat (<[i := ys]> bs) = concat (take i bs) ++ ys ++ concat (drop (S i) bs).
Proof.
  intros Hi. rewrite insert_take_drop by (by eapply lookup_lt_Some). by rewrite concat_app.
Qed.

Lemma filter_all {A} (P : A -> Prop) `{forall x, Decision (P x)} l : Forall P l -> filter P l = l.
Proof.
  induction 1 as [|x l Hx Hl IH]; [done|]. rewrite filter_cons_True by done. by rewrite IH.
Qed.
