(* ===== verification/DList.v ===== *)
(** * Doubly linked lists (src/list.c, src/list.h)

    The nodes live in a heap; a list is the pointer to its first node.
    Each function of list.c is a definition over that heap, an access to a
    node the heap does not hold is [Undef].  [dll h head xs] says the nodes
    [xs], in order, are the list at [head]; the [prev] link of the first node
    is left unconstrained because [dllist_remove_ref] does not maintain it. *)

From S2P Require Import Prelude.

Record dllist_node_st (L V : Type) := mk_dllist_node {
  nd_p : option V;
  nd_prev : option L;
  nd_next : option L
}.
Arguments mk_dllist_node {L V} _ _ _.
Arguments nd_p {L V} _.
Arguments nd_prev {L V} _.
Arguments nd_next {L V} _.

#[export] Instance eta_dllist_node {L V} : Eta (dllist_node_st L V) :=
  fun n => mk_dllist_node (nd_p n) (nd_prev n) (nd_next n).

Section dlist.
Context {L : Type} `{Countable L} {V : Type}.

Abbreviation heap := (gmap L (dllist_node_st L V)).
Implicit Types (h : heap) (l item : L) (xs : list L).

Definition node_get h l : outcome (dllist_node_st L V) :=
  match h !! l with
  | Some n => Ok n
  | None => Undef UseAfterFree
  end.

Definition set_prev h l (v : option L) : outcome heap :=
  n ← node_get h l; mret (<[l := n <| nd_prev := v |>]> h).

Definition set_next h l (v : option L) : outcome heap :=
  n ← node_get h l; mret (<[l := n <| nd_next := v |>]> h).

(** ** The functions of list.c *)

Definition ddlist_init : option L := None.

Fixpoint count_loop (fuel : nat) h (lp : option L) (rv : Z) : outcome Z :=
  match lp with
  | None => mret rv
  | Some l =>
      match fuel with
      | O => Spin
      | S fuel =>
          rv ← int_chk (rv + 1);
          n ← node_get h l;
          count_loop fuel h (nd_next n) rv
      end
  end.

Definition dllist_count h (head : option L) : outcome Z :=
  count_loop (size h) h head 0.

Definition dllist_insert_head h (head : option L) item : outcome (heap * option L) :=
  h ← set_prev h item None;
  h ← match head with
      | Some hd => set_prev h hd (Some item)
      | None => mret h
      end;
  h ← set_next h item head;
  mret (h, Some item).

(** The [while (1)] loop of [dllist_insert_tail_unique]. *)
Fixpoint insert_tail_loop (fuel : nat) h (p item : L) : outcome heap :=
  if decide (p = item) then mret h
  else
    n ← node_get h p;
    match nd_next n with
    | None =>
        h ← set_next h item None;
        h ← set_prev h item (Some p);
        set_next h p (Some item)
    | Some q =>
        match fuel with
        | O => Spin
        | S fuel => insert_tail_loop fuel h q item
        end
    end.

Definition dllist_insert_tail_unique h (head : option L) item
  : outcome (heap * option L) :=
  match head with
  | None =>
      h ← set_prev h item None;
      h ← set_next h item None;
      mret (h, Some item)
  | Some p =>
      h ← insert_tail_loop (size h) h p item;
      mret (h, Some p)
  end.

Definition dllist_remove_ref h (head : option L) (p : L) : outcome (heap * option L) :=
  match head with
  | None => mret (h, None)
  | Some hd =>
      n ← node_get h p;
      if decide (hd = p) then mret (h, nd_next n)
      else
        h ← match nd_prev n with
            | Some a => set_next h a (nd_next n)
            | None => mret h
            end;
        n ← node_get h p;
        h ← match nd_next n with
            | Some b => set_prev h b (nd_prev n)
            | None => mret h
            end;
        mret (h, Some hd)
  end.

(** The loop of [dllist_remove_val]: the new heap and head, and the node found. *)
Fixpoint remove_val_loop `{EqDecision V} (fuel : nat) h (head lp : option L) (vp : option V)
  : outcome (heap * option L * option L) :=
  match lp with
  | None => mret (h, head, None)
  | Some l =>
      match fuel with
      | O => Spin
      | S fuel =>
          n ← node_get h l;
          if decide (nd_p n = vp) then
            if decide (lp = head) then mret (h, nd_next n, Some l)
            else match nd_prev n with
                 | None => Undef NullDeref
                 | Some a =>
                     h ← set_next h a (nd_next n);
                     mret (h, head, Some l)
                 end
          else remove_val_loop fuel h head (nd_next n) vp
      end
  end.

Definition dllist_remove_val `{EqDecision V} h (head : option L) (vp : option V)
  : outcome (heap * option L * option L) :=
  remove_val_loop (S (size h)) h head head vp.

(** ** Representation *)

(** [dseg h pp p xs q]: following [next] from [p] visits [xs] and arrives at
    [q]; every node visited has its predecessor in [prev], the first one has
    [pp] there ([None] leaves it unconstrained). *)
Fixpoint dseg h (pp p : option L) xs (q : option L) : Prop :=
  match xs with
  | [] => p = q
  | x :: xs' =>
      p = Some x /\
      exists n, h !! x = Some n /\
        match pp with Some a => nd_prev n = Some a | None => True end /\
        dseg h (Some x) (nd_next n) xs' q
  end.

Definition dll h (head : option L) xs : Prop := dseg h None head xs None.

(** [h'] differs from [h] at most in the links of the nodes [xs]. *)
Record links_changed h h' xs : Prop := {
  lc_payload l : nd_p <$> h' !! l = nd_p <$> h !! l;
  lc_frame l : l ∉ xs -> h' !! l = h !! l
}.

(** The last element of [xs], or [pp] when there is none. *)
Definition last_or (pp : option L) xs : option L :=
  match last xs with Some x => Some x | None => pp end.

(** ** Lemmas about segments *)

Lemma node_get_ok h l n : h !! l = Some n -> node_get h l = Ok n.
Proof. unfold node_get. by intros ->. Qed.

Lemma last_or_cons pp x xs : last_or pp (x :: xs) = last_or (Some x) xs.
Proof. unfold last_or. rewrite last_cons. by destruct (last xs). Qed.

Lemma last_or_snoc pp xs x : last_or pp (xs ++ [x]) = Some x.
Proof. unfold last_or. by rewrite last_snoc. Qed.

Lemma dseg_app h pp p xs ys q :
  dseg h pp p (xs ++ ys) q <->
  exists m, dseg h pp p xs m /\ dseg h (last_or pp xs) m ys q.
Proof.
  revert pp p. induction xs as [|x xs IH]; intros pp p.
  - simpl. unfold last_or. simpl. naive_solver.
  - rewrite last_or_cons. cbn [app dseg]. setoid_rewrite IH. naive_solver.
Qed.

Lemma dseg_frame h h' pp p xs q :
  (forall x, x ∈ xs -> h' !! x = h !! x) ->
  dseg h pp p xs q -> dseg h' pp p xs q.
Proof.
  revert pp p. induction xs as [|x xs IH]; intros pp p Hf; [done|].
  intros (-> & n & Hn & Hp & Hs). split; [done|]. exists n.
  rewrite Hf by set_solver. split_and!; [done..|].
  apply IH; [set_solver|done].
Qed.

Lemma dseg_mem h pp p xs q x : dseg h pp p xs q -> x ∈ xs -> is_Some (h !! x).
Proof.
  revert pp p. induction xs as [|y xs IH]; intros pp p; [set_solver|].
  intros (-> & n & Hn & _ & Hs) Hx.
  apply elem_of_cons in Hx as [->|Hx]; [by eexists|eauto].
Qed.

(** A segment is determined by where it starts and where it stops. *)
Lemma dseg_det h pp pp' p xs ys :
  dseg h pp p xs None -> dseg h pp' p ys None -> xs = ys.
Proof.
  revert pp pp' p ys. induction xs as [|x xs IH]; intros pp pp' p [|y ys]; simpl.
  - done.
  - intros -> (? & _). done.
  - intros (-> & _) ?. done.
  - intros (-> & n & Hn & _ & Hs) ([= ->] & n' & Hn' & _ & Hs').
    simplify_eq. f_equal. eauto.
Qed.

Lemma dseg_NoDup h pp p xs : dseg h pp p xs None -> NoDup xs.
Proof.
  revert pp p. induction xs as [|x xs IH]; intros pp p Hd; [constructor|].
  constructor.
  - intros Hx. apply list_elem_of_split in Hx as (l1 & l2 & ->).
    pose proof Hd as Hd0. destruct Hd as (-> & n & Hn & _ & Hs).
    apply dseg_app in Hs as (m & _ & Hs2).
    destruct Hs2 as (-> & n' & Hn' & Hp' & Hs2).
    assert (x :: l2 = x :: l1 ++ x :: l2) as Heq.
    { eapply (dseg_det h None pp (Some x)); [|exact Hd0].
      split; [done|]. exists n'. auto. }
    apply (f_equal length) in Heq. simpl in Heq.
    rewrite length_app in Heq. simpl in Heq. lia.
  - destruct Hd as (_ & n & _ & _ & Hs). eauto.
Qed.

Lemma dll_NoDup h head xs : dll h head xs -> NoDup xs.
Proof. apply dseg_NoDup. Qed.

Lemma dll_size h head xs : dll h head xs -> (length xs <= size h)%nat.
Proof.
  intros Hd. rewrite <- (size_list_to_set (C:=gset L)) by (by eapply dll_NoDup).
  rewrite <- size_dom. apply subseteq_size. intros x Hx.
  apply elem_of_list_to_set in Hx. apply elem_of_dom.
  by eapply dseg_mem.
Qed.

Lemma dll_nil h head : dll h head [] <-> head = None.
Proof. done. Qed.

Lemma dll_head h head xs : dll h head xs -> head = xs !! 0%nat.
Proof. destruct xs; [done|]. by intros (-> & _). Qed.

(** The [prev] link of the first node may be anything. *)
Lemma dll_weaken h pp p xs : dseg h pp p xs None -> dll h p xs.
Proof. destruct xs; [done|]. intros (-> & n & Hn & _ & Hs). split; eauto. Qed.

(** ** Lemmas about heap updates *)

Lemma links_changed_refl h xs : links_changed h h xs.
Proof. done. Qed.

Lemma links_changed_trans h1 h2 h3 xs :
  links_changed h1 h2 xs -> links_changed h2 h3 xs -> links_changed h1 h3 xs.
Proof.
  intros [Hp1 Hf1] [Hp2 Hf2]. split; intros l.
  - by rewrite Hp2, Hp1.
  - intros Hl. by rewrite Hf2, Hf1.
Qed.

Lemma links_changed_mono h h' xs ys :
  (forall x, x ∈ xs -> x ∈ ys) -> links_changed h h' xs -> links_changed h h' ys.
Proof. intros Hsub [Hp Hf]. split; [done|]. naive_solver. Qed.

Lemma links_changed_is_Some h h' xs l :
  links_changed h h' xs -> is_Some (h' !! l) <-> is_Some (h !! l).
Proof.
  intros [Hp _]. specialize (Hp l).
  rewrite <- !(fmap_is_Some (nd_p (L:=L) (V:=V))). by rewrite Hp.
Qed.

Lemma links_changed_upd h l n n' :
  h !! l = Some n -> nd_p n' = nd_p n -> links_changed h (<[l := n']> h) [l].
Proof.
  intros Hl Hp. split; intros k.
  - destruct (decide (k = l)) as [->|]; simplify_map_eq; [by rewrite Hp|done].
  - intros Hk. rewrite lookup_insert_ne; set_solver.
Qed.

Lemma links_changed_prev h l n v ys :
  h !! l = Some n -> l ∈ ys -> links_changed h (<[l := n <| nd_prev := v |>]> h) ys.
Proof.
  intros Hl Hy. eapply links_changed_mono, links_changed_upd; [set_solver|done..].
Qed.

Lemma links_changed_next h l n v ys :
  h !! l = Some n -> l ∈ ys -> links_changed h (<[l := n <| nd_next := v |>]> h) ys.
Proof.
  intros Hl Hy. eapply links_changed_mono, links_changed_upd; [set_solver|done..].
Qed.

(** Chain the updates of [set_prev] and [set_next], last one first. *)
Ltac links_solve :=
  repeat first
    [ eapply links_changed_trans;
      [|first [apply links_changed_next | apply links_changed_prev];
        [by simplify_map_eq|set_solver]]
    | apply links_changed_refl ].

Lemma links_changed_dseg h h' ys pp p xs q :
  links_changed h h' ys -> (forall x, x ∈ xs -> x ∉ ys) ->
  dseg h pp p xs q -> dseg h' pp p xs q.
Proof. intros [_ Hf] Hd. apply dseg_frame. naive_solver. Qed.

Lemma set_prev_ok h l v n :
  h !! l = Some n -> set_prev h l v = Ok (<[l := n <| nd_prev := v |>]> h).
Proof. intros Hl. unfold set_prev, node_get. by rewrite Hl. Qed.

Lemma set_next_ok h l v n :
  h !! l = Some n -> set_next h l v = Ok (<[l := n <| nd_next := v |>]> h).
Proof. intros Hl. unfold set_next, node_get. by rewrite Hl. Qed.


(** ** What the functions do to a well-formed list *)

Lemma count_loop_spec h xs pp p fuel rv :
  dseg h pp p xs None -> (length xs <= fuel)%nat ->
  0 <= rv -> rv + zlen xs <= int_max ->
  count_loop fuel h p rv = Ok (rv + zlen xs).
Proof.
  revert pp p fuel rv. induction xs as [|x xs IH]; intros pp p fuel rv Hd Hf Hr Hm.
  - simpl in Hd. subst. destruct fuel; simpl; rewrite zlen_nil, Z.add_0_r; done.
  - destruct Hd as (-> & n & Hn & _ & Hs). destruct fuel as [|fuel]; simpl in Hf; [lia|].
    rewrite zlen_cons in *. pose proof (zlen_nonneg xs).
    simpl. rewrite int_chk_ok by (unfold int_min, int_max in *; lia). simpl.
    unfold node_get. rewrite Hn. simpl.
    rewrite (IH (Some x)) by (done || lia). f_equal. lia.
Qed.

Lemma dllist_count_ok h head xs :
  dll h head xs -> zlen xs <= int_max -> dllist_count h head = Ok (zlen xs).
Proof.
  intros Hd Hm. unfold dllist_count.
  rewrite (count_loop_spec h xs None) by (done || lia || by eapply dll_size). done.
Qed.

Lemma insert_head_ok h head xs item :
  dll h head xs -> item ∉ xs -> is_Some (h !! item) ->
  exists h', dllist_insert_head h head item = Ok (h', Some item) /\
    dll h' (Some item) (item :: xs) /\ links_changed h h' (item :: xs).
Proof.
  intros Hd Hi [n Hn]. unfold dllist_insert_head.
  erewrite set_prev_ok by done. cbn [mbind outcome_bind].
  destruct xs as [|x xs].
  - apply dll_nil in Hd as ->. cbn [mbind outcome_bind mret outcome_ret].
    erewrite set_next_ok by (by simplify_map_eq). cbn. 
    eexists. split; [done|]. split; [|links_solve].
    split; [done|]. eexists. split; [by simplify_map_eq|done].
  - destruct Hd as (-> & m & Hm & _ & Hs).
    assert (x <> item) by set_solver.
    erewrite set_prev_ok by (by simplify_map_eq). cbn [mbind outcome_bind].
    erewrite set_next_ok by (by simplify_map_eq). cbn.
    eexists. split; [done|]. split.
    + split; [done|]. eexists. split; [by simplify_map_eq|]. split; [done|].
      split; [done|].
      eexists. split; [by simplify_map_eq|]. split; [done|].
      eapply dseg_frame; [|exact Hs]. intros y Hy.
      assert (NoDup (x :: xs)) as Hnd%NoDup_cons.
      { eapply (dseg_NoDup _ None (Some x)). simpl. eauto. }
      rewrite !lookup_insert_ne by set_solver. done.
    + links_solve.
Qed.

(** The loop of [dllist_insert_tail_unique] on the rest [xs] of the list. *)
Lemma insert_tail_loop_in h xs pp p item fuel :
  dseg h pp (Some p) (p :: xs) None -> (length xs <= fuel)%nat -> item ∈ p :: xs ->
  insert_tail_loop fuel h p item = Ok h.
Proof.
  revert pp p fuel. induction xs as [|x xs IH]; intros pp p fuel (_ & n & Hn & _ & Hs) Hf Hi.
  - assert (p = item) as -> by set_solver. destruct fuel; simpl; by case_decide.
  - pose proof Hs as Hs0. destruct Hs0 as (Hx & _). destruct fuel as [|fuel]; simpl in Hf; [lia|].
    rewrite Hx in Hs.
    simpl. case_decide; [done|]. unfold node_get. rewrite Hn. simpl. rewrite Hx.
    eapply (IH (Some p)); [exact Hs|lia|set_solver].
Qed.

Lemma insert_tail_loop_out h xs pp p item fuel :
  dseg h pp (Some p) (p :: xs) None -> (length xs <= fuel)%nat ->
  item ∉ p :: xs -> is_Some (h !! item) ->
  exists h', insert_tail_loop fuel h p item = Ok h' /\
    dseg h' pp (Some p) ((p :: xs) ++ [item]) None /\
    links_changed h h' ((p :: xs) ++ [item]).
Proof.
  revert pp p fuel. induction xs as [|x xs IH]; intros pp p fuel (_ & n & Hn & Hp & Hs) Hf Hi [m Hm];
    assert (p <> item) by set_solver.
  - simpl in Hs. exists (<[p := n <| nd_next := Some item |>]>
      (<[item := m <| nd_next := None |> <| nd_prev := Some p |>]>
        (<[item := m <| nd_next := None |>]> h))).
    split; [|split].
    + destruct fuel; simpl; (case_decide; [done|]); unfold node_get; rewrite Hn; simpl; rewrite Hs;
        erewrite set_next_ok by done; simpl; erewrite set_prev_ok by (by simplify_map_eq); simpl;
        erewrite set_next_ok by (by simplify_map_eq); done.
    + split; [done|]. eexists. split; [by simplify_map_eq|]. split; [done|].
      split; [done|]. eexists. split; [by simplify_map_eq|done].
    + links_solve.
  - pose proof Hs as Hs0. destruct Hs0 as (Hx & _). destruct fuel as [|fuel]; simpl in Hf; [lia|].
    rewrite Hx in Hs.
    edestruct (IH (Some p) x fuel Hs) as (h' & Hr & Hd & Hl); [lia|set_solver|by eexists|].
    assert (p ∉ (x :: xs) ++ [item]) as Hpn.
    { assert (NoDup (p :: x :: xs)) as Hnd%NoDup_cons; [|set_solver].
      eapply (dseg_NoDup h pp (Some p)). split; [done|]. exists n. by rewrite Hx. }
    exists h'. split; [|split].
    + simpl. case_decide; [done|]. unfold node_get. rewrite Hn. simpl. by rewrite Hx.
    + split; [done|]. exists n. split; [|split; [done|by rewrite Hx]].
      by rewrite (lc_frame _ _ _ Hl).
    + eapply links_changed_mono; [|done]. set_solver.
Qed.

Lemma insert_tail_unique_in h head xs item :
  dll h head xs -> item ∈ xs -> dllist_insert_tail_unique h head item = Ok (h, head).
Proof.
  intros Hd Hi. pose proof (dll_size _ _ _ Hd). destruct xs as [|x xs]; [set_solver|].
  pose proof Hd as (-> & _). simpl in *.
  erewrite (insert_tail_loop_in _ xs None); [done|exact Hd|lia|done].
Qed.

Lemma insert_tail_unique_out h head xs item :
  dll h head xs -> item ∉ xs -> is_Some (h !! item) ->
  exists h' head', dllist_insert_tail_unique h head item = Ok (h', head') /\
    dll h' head' (xs ++ [item]) /\ links_changed h h' (xs ++ [item]).
Proof.
  intros Hd Hi Hs. pose proof (dll_size _ _ _ Hd). destruct xs as [|x xs].
  - apply dll_nil in Hd as ->. destruct Hs as [n Hn]. simpl.
    erewrite set_prev_ok by done. simpl. erewrite set_next_ok by (by simplify_map_eq).
    simpl. do 2 eexists. split; [done|]. split.
    + split; [done|]. eexists. split; [by simplify_map_eq|done].
    + links_solve.
  - pose proof Hd as (-> & _). simpl in *.
    edestruct (insert_tail_loop_out h xs None) as (h' & -> & Hd' & Hl); [exact Hd|lia|done|done|].
    simpl. by do 2 eexists.
Qed.

(** [dllist_remove_ref] takes out the first node... *)
Lemma remove_ref_first h x xs :
  dll h (Some x) (x :: xs) ->
  exists head', dllist_remove_ref h (Some x) x = Ok (h, head') /\ dll h head' xs.
Proof.
  intros (_ & n & Hn & _ & Hs). exists (nd_next n). split.
  - simpl. unfold node_get. rewrite Hn. simpl. by rewrite decide_True.
  - by eapply dll_weaken.
Qed.

(** ... or a node [b] that follows a node [a]. *)
Lemma remove_ref_after h hd (l1 : list L) a b (l2 : list L) :
  dll h (Some hd) (l1 ++ a :: b :: l2) -> hd <> b ->
  exists h', dllist_remove_ref h (Some hd) b = Ok (h', Some hd) /\
    dll h' (Some hd) (l1 ++ a :: l2) /\
    links_changed h h' (l1 ++ a :: l2) /\ h' !! b = h !! b.
Proof.
  intros Hd Hne. pose proof (dll_NoDup _ _ _ Hd) as Hnd.
  apply NoDup_app in Hnd as (_ & Hdis & (Ha & (Hb & _)%NoDup_cons)%NoDup_cons).
  apply dseg_app in Hd as (m & Hs1 & Hm & na & Hna & Hpa & Hs2). subst m.
  pose proof Hs2 as (Hnab & nb & Hnb & Hpb & Hs3).
  assert (Hab : a <> b) by set_solver.
  unfold dllist_remove_ref, node_get. rewrite Hnb. cbn [mbind outcome_bind].
  rewrite decide_False by done. rewrite Hpb.
  erewrite set_next_ok by done. cbn [mbind outcome_bind mret outcome_ret].
  rewrite lookup_insert_ne, Hnb by done. cbn [mbind outcome_bind].
  destruct l2 as [|c l2].
  - rewrite Hs3. cbn. eexists. split; [done|]. split; [|split; [links_solve|by simplify_map_eq]].
    apply dseg_app. exists (Some a). split.
    + eapply dseg_frame; [|done]. intros y Hy. rewrite lookup_insert_ne; set_solver.
    + split; [done|]. eexists. split; [by simplify_map_eq|done].
  - destruct Hs3 as (Hc & nc & Hnc & Hpc & Hs4). rewrite Hc.
    assert (a <> c) by set_solver.
    erewrite set_prev_ok by (by simplify_map_eq). cbn. rewrite Hpb.
    eexists. split; [done|]. split; [|split; [links_solve|rewrite !lookup_insert_ne; set_solver]].
    assert (NoDup (c :: l2)) as [Hcl _]%NoDup_cons.
    { apply (dseg_NoDup h (Some b) (Some c)). split; eauto. }
    apply dseg_app. exists (Some a). split.
    + eapply dseg_frame; [|done]. intros y Hy. rewrite !lookup_insert_ne; set_solver.
    + split; [done|]. eexists. split; [by simplify_map_eq|]. split; [done|].
      split; [done|]. eexists. split; [by simplify_map_eq|]. split; [done|].
      eapply dseg_frame; [|done]. intros y Hy. rewrite !lookup_insert_ne; set_solver.
Qed.

(** Removing any node of the list. *)
Lemma remove_ref_ok h head (l1 : list L) b (l2 : list L) :
  dll h head (l1 ++ b :: l2) ->
  exists h' head', dllist_remove_ref h head b = Ok (h', head') /\
    dll h' head' (l1 ++ l2) /\
    links_changed h h' (l1 ++ l2) /\ h' !! b = h !! b.
Proof.
  intros Hd. destruct (decide (head = Some b)) as [->|Hne].
  - assert (l1 = []) as ->.
    { pose proof (dll_head _ _ _ Hd) as Hh. pose proof (dll_NoDup _ _ _ Hd) as Hnd.
      destruct l1 as [|x l1]; [done|]. simpl in *. simplify_eq.
      apply NoDup_cons in Hnd. set_solver. }
    destruct (remove_ref_first _ _ _ Hd) as (head' & Hr & Hd').
    exists h, head'. split; [done|]. split; [done|]. split; [apply links_changed_refl|done].
  - destruct (exists_last (l:=l1)) as (l1' & a & ->).
    { intros ->. apply Hne. apply (dll_head _ _ _ Hd). }
    destruct head as [hd|]; [|by destruct l1' as [|? ?]; destruct Hd].
    rewrite <- !app_assoc in *. simpl in *.
    destruct (remove_ref_after h hd l1' a b l2) as (h' & Hr & Hd' & Hl & Hb); [done|congruence|].
    by exists h', (Some hd).
Qed.

(** Removing from an empty list only logs. *)
Lemma remove_ref_empty h b : dllist_remove_ref h None b = Ok (h, None).
Proof. done. Qed.

End dlist.
