(* ===== verification/Queue.v ===== *)
(** * Intrusive FIFO queue (src/queue.c, src/queue.h)

    A [queue_item_st] lives inside the object it queues, so the items are in
    a heap and the queue holds the addresses of the first and last one.
    [q_rep h q xs] says that the queue holds the items [xs], oldest first. *)

From S2P Require Import Prelude.

Record queue_item_st (L V : Type) := mk_queue_item {
  qi_p : option V;
  qi_next : option L
}.
Arguments mk_queue_item {L V} _ _.
Arguments qi_p {L V} _.
Arguments qi_next {L V} _.

#[export] Instance eta_queue_item {L V} : Eta (queue_item_st L V) :=
  fun i => mk_queue_item (qi_p i) (qi_next i).

Record queue_st (L : Type) := mk_queue {
  q_head : option L;
  q_tail : option L;
  q_name : list Z
}.
Arguments mk_queue {L} _ _ _.
Arguments q_head {L} _.
Arguments q_tail {L} _.
Arguments q_name {L} _.

#[export] Instance eta_queue {L} : Eta (queue_st L) :=
  fun q => mk_queue (q_head q) (q_tail q) (q_name q).

Section queue.
Context {L : Type} `{Countable L} {V : Type}.

Abbreviation items := (gmap L (queue_item_st L V)).
Implicit Types (h : items) (q : queue_st L) (x : L) (xs : list L).

Definition item_get h x : outcome (queue_item_st L V) :=
  match h !! x with
  | Some i => Ok i
  | None => Undef UseAfterFree
  end.

Definition set_item_next h x (v : option L) : outcome items :=
  i ← item_get h x; mret (<[x := i <| qi_next := v |>]> h).

(** ** The functions of queue.c *)

Definition queue_init (name : list Z) : queue_st L :=
  {| q_head := None; q_tail := None; q_name := name |}.

Definition queue_push h q (item : L) : outcome (items * queue_st L) :=
  h ← set_item_next h item None;
  match q_head q with
  | None => mret (h, q <| q_head := Some item |> <| q_tail := Some item |>)
  | Some _ =>
      match q_tail q with
      | None => Undef NullDeref
      | Some t =>
          h ← set_item_next h t (Some item);
          mret (h, q <| q_tail := Some item |>)
      end
  end.

Definition queue_pop h q : outcome (option L * queue_st L) :=
  match q_head q with
  | None => mret (None, q)
  | Some rv =>
      i ← item_get h rv;
      match qi_next i with
      | Some n => mret (Some rv, q <| q_head := Some n |>)
      | None => mret (Some rv, q <| q_head := None |> <| q_tail := None |>)
      end
  end.

Definition queue_peek q : option L := q_head q.

(** ** Representation *)

Fixpoint chain h (p : option L) xs : Prop :=
  match xs with
  | [] => p = None
  | x :: xs' => p = Some x /\ exists i, h !! x = Some i /\ chain h (qi_next i) xs'
  end.

Record q_rep h q xs : Prop := {
  qr_chain : chain h (q_head q) xs;
  qr_tail : q_tail q = last xs
}.

Lemma chain_frame h h' p xs :
  (forall x, x ∈ xs -> h' !! x = h !! x) -> chain h p xs -> chain h' p xs.
Proof.
  revert p. induction xs as [|x xs IH]; intros p Hf; [done|].
  intros (-> & i & Hi & Hc). split; [done|]. exists i.
  rewrite Hf by set_solver. split; [done|]. apply IH; [set_solver|done].
Qed.

Lemma chain_mem h p xs x : chain h p xs -> x ∈ xs -> is_Some (h !! x).
Proof.
  revert p. induction xs as [|y xs IH]; intros p; [set_solver|].
  intros (_ & i & Hi & Hc) [->|Hx]%elem_of_cons; [by eexists|eauto].
Qed.

Lemma chain_det h p xs ys : chain h p xs -> chain h p ys -> xs = ys.
Proof.
  revert p ys. induction xs as [|x xs IH]; intros p [|y ys]; simpl.
  - done.
  - intros -> (? & _). done.
  - intros (-> & _) ?. done.
  - intros (-> & i & Hi & Hc) ([= ->] & j & Hj & Hc').
    simplify_eq. f_equal. eauto.
Qed.

Lemma chain_NoDup h p xs : chain h p xs -> NoDup xs.
Proof.
  revert p. induction xs as [|x xs IH]; intros p Hd; [constructor|].
  pose proof Hd as (-> & i & Hi & Hc). apply NoDup_cons. split; [|by eapply IH].
  intros (l1 & l2 & ->)%list_elem_of_split.
  assert (chain h (Some x) (x :: l2)) as Hd2.
  { clear IH Hd Hi. revert Hc. generalize (qi_next i).
    induction l1 as [|y l1 IH]; intros o; [by intros (-> & ?)|].
    intros (_ & j & _ & Hc). by eapply IH. }
  pose proof (chain_det _ _ _ _ Hd Hd2) as Heq.
  apply (f_equal length) in Heq. simpl in Heq. rewrite length_app in Heq. simpl in Heq. lia.
Qed.

Lemma chain_snoc h p xs t x i n :
  chain h p (xs ++ [t]) -> x ∉ xs ++ [t] -> h !! t = Some i -> h !! x = Some n ->
  qi_next n = None ->
  chain (<[t := i <| qi_next := Some x |>]> h) p ((xs ++ [t]) ++ [x]).
Proof.
  revert p. induction xs as [|y xs IH]; intros p Hc Hx Hi Hn Hnn.
  - destruct Hc as (-> & _). split; [done|]. eexists. split; [by simplify_map_eq|].
    split; [done|]. exists n. rewrite lookup_insert_ne by set_solver. by rewrite Hn, Hnn.
  - pose proof (chain_NoDup _ _ _ Hc) as [Hy _]%NoDup_cons.
    destruct Hc as (-> & j & Hj & Hc). split; [done|]. exists j.
    rewrite lookup_insert_ne by set_solver. split; [done|].
    apply IH; [done|set_solver|done..].
Qed.

(** ** Each operation against the abstract queue *)

Lemma queue_init_rep h name : q_rep h (queue_init name) [].
Proof. done. Qed.

Lemma queue_push_rep h q xs x :
  q_rep h q xs -> x ∉ xs -> is_Some (h !! x) ->
  exists h' q', queue_push h q x = Ok (h', q') /\ q_rep h' q' (xs ++ [x]) /\
    (forall y, qi_p <$> h' !! y = qi_p <$> h !! y) /\
    (forall y, y ∉ xs ++ [x] -> h' !! y = h !! y).
Proof.
  intros [Hc Ht] Hx [n Hn]. unfold queue_push, set_item_next, item_get.
  rewrite Hn. cbn [mbind outcome_bind mret outcome_ret].
  destruct (decide (xs = [])) as [->|Hne].
  - simpl in Hc. rewrite Hc. do 2 eexists. split; [done|]. split; [|split].
    + constructor; [|done]. split; [done|]. eexists. split; [by simplify_map_eq|done].
    + intros y. destruct (decide (y = x)) as [->|]; by simplify_map_eq.
    + intros y Hy. rewrite lookup_insert_ne; set_solver.
  - destruct (exists_last Hne) as (ys & t & ->).
    rewrite last_snoc in Ht.
    assert (q_head q <> None) as Hq.
    { destruct ys; destruct Hc as (-> & _); done. }
    destruct (q_head q) as [hd|] eqn:Hhd; [|done]. rewrite Ht.
    destruct (chain_mem _ _ _ t Hc) as [i Hi]; [set_solver|].
    assert (t <> x) by set_solver.
    rewrite lookup_insert_ne, Hi by done. cbn [mbind outcome_bind mret outcome_ret].
    do 2 eexists. split; [done|]. split; [|split].
    + constructor; [|by rewrite last_snoc].
      cbn [q_head upd]. rewrite Hhd. eapply chain_snoc; [|done|by simplify_map_eq|by simplify_map_eq|done].
      eapply chain_frame; [|done]. intros y Hy. rewrite lookup_insert_ne; set_solver.
    + intros y. destruct (decide (y = t)) as [->|]; [by simplify_map_eq|].
      destruct (decide (y = x)) as [->|]; by simplify_map_eq.
    + intros y Hy. rewrite !lookup_insert_ne; set_solver.
Qed.

Lemma queue_pop_empty h q : q_rep h q [] -> queue_pop h q = Ok (None, q).
Proof. intros [Hc _]. simpl in Hc. unfold queue_pop. by rewrite Hc. Qed.

Lemma queue_pop_rep h q x xs :
  q_rep h q (x :: xs) ->
  exists q', queue_pop h q = Ok (Some x, q') /\ q_rep h q' xs.
Proof.
  intros [(Hq & i & Hi & Hc) Ht]. unfold queue_pop, item_get. rewrite Hq, Hi.
  cbn [mbind outcome_bind]. destruct xs as [|y xs].
  - simpl in Hc. rewrite Hc. eexists. split; [done|]. by constructor.
  - pose proof Hc as (Hn & _). rewrite Hn. eexists. split; [done|].
    constructor; [by rewrite <- Hn|]. exact Ht.
Qed.

Lemma queue_peek_rep h q xs : q_rep h q xs -> queue_peek q = head xs.
Proof. intros [Hc _]. unfold queue_peek. destruct xs; [done|by destruct Hc]. Qed.

(** ** The queue as a whole: a client's calls, and the FIFO they see *)

Inductive q_op := OpPush (x : L) | OpPop | OpPeek.

Definition q_run1 (s : items * queue_st L) (op : q_op)
  : outcome (option L * (items * queue_st L)) :=
  match op with
  | OpPush x => s' ← queue_push s.1 s.2 x; mret (None, s')
  | OpPop => '(r, q') ← queue_pop s.1 s.2; mret (r, (s.1, q'))
  | OpPeek => mret (queue_peek s.2, s)
  end.

Fixpoint q_run (s : items * queue_st L) (ops : list q_op) : outcome (list (option L)) :=
  match ops with
  | [] => mret []
  | op :: ops =>
      '(r, s') ← q_run1 s op;
      rs ← q_run s' ops;
      mret (r :: rs)
  end.

(** The reference: a list, oldest element first; pushing an item that is
    still queued is outside the contract (the links would be overwritten). *)
Definition fifo_run1 (xs : list L) (op : q_op) : option (option L * list L) :=
  match op with
  | OpPush x => if decide (x ∈ xs) then None else Some (None, xs ++ [x])
  | OpPop => Some (head xs, tail xs)
  | OpPeek => Some (head xs, xs)
  end.

Fixpoint fifo_run (xs : list L) (ops : list q_op) : option (list (option L)) :=
  match ops with
  | [] => Some []
  | op :: ops =>
      '(r, xs') ← fifo_run1 xs op;
      rs ← fifo_run xs' ops;
      Some (r :: rs)
  end.

Definition op_allocated h (op : q_op) : Prop :=
  match op with OpPush x => is_Some (h !! x) | _ => True end.

Lemma q_run1_sim h q xs op r xs' :
  q_rep h q xs -> op_allocated h op -> fifo_run1 xs op = Some (r, xs') ->
  exists h' q', q_run1 (h, q) op = Ok (r, (h', q')) /\ q_rep h' q' xs' /\
    (forall y, is_Some (h !! y) -> is_Some (h' !! y)).
Proof.
  intros Hr Ha Hf. destruct op as [x| |]; simpl in *.
  - case_decide; [done|]. simplify_eq.
    destruct (queue_push_rep h q xs x) as (h' & q' & -> & Hr' & Hp & _); [done..|].
    exists h', q'. split_and!; [done..|]. intros y Hy.
    apply (fmap_is_Some (qi_p (L:=L) (V:=V))). rewrite Hp. by apply fmap_is_Some.
  - destruct xs as [|x xs]; simplify_eq/=.
    + rewrite queue_pop_empty by done. simpl. eauto.
    + destruct (queue_pop_rep _ _ _ _ Hr) as (q' & -> & Hr'). simpl. eauto.
  - simplify_eq. rewrite (queue_peek_rep _ _ _ Hr). by exists h, q.
Qed.

End queue.

(** C13.  The queue is a FIFO: for every sequence of pushes, pops and peeks
    that a list-based FIFO accepts (no item is pushed while it is still in
    the queue) and that only pushes allocated items, running the code from an
    empty queue is defined and returns exactly what the list returns. *)
Theorem queue_is_fifo {L} `{Countable L} {V} (h : gmap L (queue_item_st L V)) name ops rs :
  Forall (op_allocated h) ops -> fifo_run [] ops = Some rs ->
  q_run (h, queue_init name) ops = Ok rs.
Proof.
  enough (forall q xs, q_rep h q xs -> Forall (op_allocated h) ops ->
    fifo_run xs ops = Some rs -> q_run (h, q) ops = Ok rs) as Hgen.
  { eauto using queue_init_rep. }
  revert h rs. induction ops as [|op ops IH]; intros h rs q xs Hr Ha Hf; simpl in *.
  { by simplify_eq. }
  apply Forall_cons in Ha as [Ha Has].
  destruct (fifo_run1 xs op) as [[r xs']|] eqn:H1; simplify_eq/=.
  destruct (fifo_run xs' ops) as [rs'|] eqn:H2; simplify_eq/=.
  destruct (q_run1_sim h q xs op r xs') as (h' & q' & -> & Hr' & Hd); [done..|]. simpl.
  rewrite (IH h' rs' q' xs'); [done|done| |done].
  eapply Forall_impl; [exact Has|]. intros [] ?; simpl in *; auto.
Qed.

Lemma queue_is_fifo_witness :
  q_run (list_to_map ((fun i => (i, mk_queue_item (Some i) None)) <$> [1; 2; 3]),
         queue_init (L:=Z) [])
    [OpPush 1; OpPop; OpPop; OpPush 3; OpPush 1; OpPeek; OpPush 2; OpPop; OpPop; OpPop]
  = Ok [None; Some 1; None; None; None; Some 3; None; Some 3; Some 1; Some 2].
Proof.
  apply queue_is_fifo.
  - repeat constructor; vm_compute; eauto.
  - vm_compute. reflexivity.
Defined.
