(* ===== verification/Base64.v ===== *)
(** * Base64 (src/base64.c, src/base64.h)

    [b64_encode] and [b64_decode] write into a buffer of the caller; the model
    returns the buffer after the call, every read and write is checked against
    the bounds of its array.  [b64] is the reference encoding of a byte list. *)

From S2P Require Import Prelude.

(** ** The tables *)

Definition encoding_table : list Z :=
  seqZ 65 26 ++ seqZ 97 26 ++ seqZ 48 10 ++ [43; 47].

Definition mod_table : list Z := [0; 2; 1].

(** The static [decoding_table] before [b64_init] runs. *)
Definition decoding_table_zero : list Z := replicate 256 0.

Fixpoint b64_init_loop (i : Z) (chars : list Z) (table : list Z) : outcome (list Z) :=
  match chars with
  | [] => mret table
  | c :: chars =>
      table ← arr_set table (u8 c) (u8 i);
      b64_init_loop (i + 1) chars table
  end.

Definition b64_init (table : list Z) : outcome (list Z) :=
  b64_init_loop 0 encoding_table table.

(** ** Encoding *)

Definition BASE64_OUTPUT_LEN (len : Z) : Z := u32 (4 * (u32 (len + 2) / 3)).

(** [i < input_length ? data[i++] : 0] *)
Definition next_octet (data : list Z) (input_length i : Z) : outcome (Z * Z) :=
  if i <? input_length
  then x ← arr_get data i; mret (x, u32 (i + 1))
  else mret (0, i).

(** [encoded_data[j++] = encoding_table[(triple >> sh) & 0x3F]] *)
Definition put_sextet (triple sh : Z) (out : list Z) (j : Z) : outcome (list Z * Z) :=
  c ← arr_get encoding_table (Z.land (Z.shiftr triple sh) 63);
  out ← arr_set out j c;
  mret (out, u32 (j + 1)).

Fixpoint encode_loop (fuel : nat) (data : list Z) (input_length i j : Z) (out : list Z)
  : outcome (list Z) :=
  if negb (i <? input_length) then mret out
  else match fuel with
  | O => Spin
  | S fuel =>
      '(octet_a, i) ← next_octet data input_length i;
      '(octet_b, i) ← next_octet data input_length i;
      '(octet_c, i) ← next_octet data input_length i;
      let triple := u32 (u32 (u32 (Z.shiftl octet_a 16) + u32 (Z.shiftl octet_b 8)) + octet_c) in
      '(out, j) ← put_sextet triple 18 out j;
      '(out, j) ← put_sextet triple 12 out j;
      '(out, j) ← put_sextet triple 6 out j;
      '(out, j) ← put_sextet triple 0 out j;
      encode_loop fuel data input_length i j out
  end.

(** [for (i = 0; i < pad; i++) encoded_data[output_len - 1 - i] = '='] *)
Fixpoint pad_loop (n : nat) (output_len i : Z) (out : list Z) : outcome (list Z) :=
  match n with
  | O => mret out
  | S n =>
      out ← arr_set out (output_len - 1 - i) 61;
      pad_loop n output_len (i + 1) out
  end.

Definition b64_encode (data : list Z) (input_length : Z) (encoded_data : list Z)
  : outcome (list Z) :=
  let output_len := u32 (4 * (u32 (input_length + 2) / 3)) in
  out ← encode_loop (Z.to_nat input_length) data input_length 0 0 encoded_data;
  pad ← arr_get mod_table (input_length mod 3);
  out ← pad_loop (Z.to_nat pad) output_len 0 out;
  arr_set out output_len 0.

(** ** Decoding *)

(** The value of a plain [char] (signed) read from a buffer of bytes. *)
Definition char_val (b : Z) : Z := if b <? 128 then b else b - 256.

(** [data[i] == '=' ? 0 & i++ : decoding_table[(int)data[i++]]] *)
Definition next_sextet (table data : list Z) (i : Z) : outcome (Z * Z) :=
  c ← arr_get data i;
  if c =? 61 then mret (0, u32 (i + 1))
  else s ← arr_get table (char_val c); mret (s, u32 (i + 1)).

(** [if (j < len) decoded_data[j++] = (triple >> sh) & 0xFF] *)
Definition put_octet (triple sh len : Z) (out : list Z) (j : Z) : outcome (list Z * Z) :=
  if j <? len
  then out ← arr_set out j (Z.land (Z.shiftr triple sh) 255); mret (out, u32 (j + 1))
  else mret (out, j).

Fixpoint decode_loop (fuel : nat) (table data : list Z) (input_length len i j : Z)
    (out : list Z) : outcome (list Z) :=
  if negb (i <? input_length) then mret out
  else match fuel with
  | O => Spin
  | S fuel =>
      '(sextet_a, i) ← next_sextet table data i;
      '(sextet_b, i) ← next_sextet table data i;
      '(sextet_c, i) ← next_sextet table data i;
      '(sextet_d, i) ← next_sextet table data i;
      let triple := u32 (u32 (u32 (u32 (Z.shiftl sextet_a 18) + u32 (Z.shiftl sextet_b 12))
                     + u32 (Z.shiftl sextet_c 6)) + sextet_d) in
      '(out, j) ← put_octet triple 16 len out j;
      '(out, j) ← put_octet triple 8 len out j;
      '(out, j) ← put_octet triple 0 len out j;
      decode_loop fuel table data input_length len i j out
  end.

(** Returns (rv, decoded_data, *poutput_len). *)
Definition b64_decode (table data : list Z) (input_length : Z) (decoded_data : list Z)
    (output_len : Z) : outcome (Z * list Z * Z) :=
  if (input_length =? 0) || negb (input_length mod 4 =? 0)
  then mret (1, decoded_data, output_len)
  else
    let len := u32 (input_length / 4 * 3) in
    c1 ← arr_get data (input_length - 1);
    let len := if c1 =? 61 then u32 (len - 1) else len in
    c2 ← arr_get data (input_length - 2);
    let len := if c2 =? 61 then u32 (len - 1) else len in
    if output_len <? len then mret (1, decoded_data, output_len)
    else
      out ← decode_loop (Z.to_nat input_length) table data input_length len 0 0 decoded_data;
      mret (0, out, len).

(** ** Reference encoding *)

Definition enc_char (s : Z) : Z := default 0 (encoding_table !! Z.to_nat s).

(** The four characters of each group of octets, [pad] filling up the last one. *)
Fixpoint b64_with (pad : Z) (data : list Z) : list Z :=
  match data with
  | [] => []
  | [a] => [enc_char (a / 4); enc_char (a mod 4 * 16); pad; pad]
  | [a; b] =>
      [enc_char (a / 4); enc_char (a mod 4 * 16 + b / 16); enc_char (b mod 16 * 4); pad]
  | a :: b :: c :: data =>
      enc_char (a / 4) :: enc_char (a mod 4 * 16 + b / 16) ::
      enc_char (b mod 16 * 4 + c / 64) :: enc_char (c mod 64) :: b64_with pad data
  end.

Definition b64 : list Z -> list Z := b64_with 61.

(** ** Lemmas *)

Lemma list_ind3 {A} (P : list A -> Prop) :
  P [] -> (forall a, P [a]) -> (forall a b, P [a; b]) ->
  (forall a b c l, P l -> P (a :: b :: c :: l)) -> forall l, P l.
Proof.
  intros H0 H1 H2 H3.
  refine (fix rec l := match l with
    | [] => H0 | [a] => H1 a | [a; b] => H2 a b | a :: b :: c :: l => H3 a b c l (rec l)
    end).
Qed.

Lemma length_b64_with pad data :
  zlen (b64_with pad data) = 4 * ((zlen data + 2) / 3).
Proof.
  induction data as [|a|a b|a b c l IH] using list_ind3; [done..|].
  cbn [b64_with]. rewrite !zlen_cons, IH. Z.div_mod_to_equations. lia.
Qed.

(** The last group ends in as many pad characters as [mod_table] says. *)
Lemma b64_with_split data :
  exists front k, (k <= 2)%nat /\ arr_get mod_table (zlen data mod 3) = Ok (Z.of_nat k) /\
    forall pad, b64_with pad data = front ++ replicate k pad.
Proof.
  induction data as [|a|a b|a b c l (front & k & Hk & Ht & IH)] using list_ind3.
  - exists [], 0%nat. split; [lia|done].
  - exists [enc_char (a / 4); enc_char (a mod 4 * 16)], 2%nat. split; [lia|done].
  - eexists [_; _; _], 1%nat. split; [lia|]. split; [done|]. intros pad. cbn. done.
  - eexists (_ :: _ :: _ :: _ :: front), k. split; [done|]. split.
    + rewrite !zlen_cons.
      replace (zlen l + 1 + 1 + 1) with (zlen l + 1 * 3) by lia.
      by rewrite Z_mod_plus_full.
    + intros pad. cbn [b64_with]. by rewrite IH.
Qed.

Lemma pad_loop_spec n front x rest i0 :
  0 <= i0 ->
  pad_loop n (zlen front + Z.of_nat n + i0) i0 (front ++ replicate n x ++ rest)
  = Ok (front ++ replicate n 61 ++ rest).
Proof.
  intros Hi. revert i0 Hi rest. induction n as [|n IH]; intros i0 Hi rest; [done|].
  rewrite !replicate_S_end, <- !app_assoc, (app_assoc front (replicate n x)).
  cbn [pad_loop app].
  replace (zlen front + Z.of_nat (S n) + i0 - 1 - i0) with (zlen (front ++ replicate n x))
    by (unfold zlen; rewrite length_app, length_replicate; lia).
  rewrite arr_set_app_mid. cbn [mbind outcome_bind]. rewrite <- app_assoc.
  replace (zlen front + Z.of_nat (S n) + i0) with (zlen front + Z.of_nat n + (i0 + 1)) by lia.
  by rewrite IH by lia.
Qed.

Lemma enc_char_get s : 0 <= s < 64 -> arr_get encoding_table s = Ok (enc_char s).
Proof.
  intros Hs. unfold enc_char. destruct (encoding_table !! Z.to_nat s) as [c|] eqn:E.
  - apply arr_get_ok; [lia|done].
  - apply lookup_ge_None in E. change (length encoding_table) with 64%nat in E. lia.
Qed.

Lemma land_63 z : Z.land z 63 = z mod 64.
Proof. apply (Z.land_ones z 6). lia. Qed.

Lemma land_255 z : Z.land z 255 = z mod 256.
Proof. apply (Z.land_ones z 8). lia. Qed.

Lemma triple_val a b c :
  is_byte a -> is_byte b -> is_byte c ->
  u32 (u32 (u32 (Z.shiftl a 16) + u32 (Z.shiftl b 8)) + c) = a * 65536 + b * 256 + c.
Proof.
  unfold is_byte. intros. rewrite !Z.shiftl_mul_pow2 by lia.
  change (2 ^ 16) with 65536. change (2 ^ 8) with 256.
  rewrite (u32_small (a * 65536)), (u32_small (b * 256)) by lia.
  by rewrite !u32_small by (rewrite ?u32_small; lia).
Qed.

Lemma put_sextet_ok triple sh front x rest :
  0 <= sh -> zlen front + 1 < 2 ^ 32 ->
  put_sextet triple sh (front ++ x :: rest) (zlen front)
  = Ok ((front ++ [enc_char (triple / 2 ^ sh mod 64)]) ++ rest,
        zlen (front ++ [enc_char (triple / 2 ^ sh mod 64)])).
Proof.
  intros Hsh Hl. unfold put_sextet. rewrite land_63, Z.shiftr_div_pow2 by done.
  rewrite enc_char_get by (apply Z.mod_pos_bound; lia). cbn [mbind outcome_bind].
  rewrite arr_set_app_mid. cbn. pose proof (zlen_nonneg front).
  rewrite u32_small, <- app_assoc by lia. by rewrite zlen_app.
Qed.

(** The characters of one group in terms of its triple. *)
Lemma group_chars a b c :
  is_byte a -> is_byte b -> is_byte c ->
  let t := a * 65536 + b * 256 + c in
  t / 2 ^ 18 mod 64 = a / 4 /\ t / 2 ^ 12 mod 64 = a mod 4 * 16 + b / 16 /\
  t / 2 ^ 6 mod 64 = b mod 16 * 4 + c / 64 /\ t / 2 ^ 0 mod 64 = c mod 64.
Proof.
  unfold is_byte. intros Ha Hb Hc. cbn zeta.
  change (2 ^ 18) with 262144. change (2 ^ 12) with 4096.
  change (2 ^ 6) with 64. change (2 ^ 0) with 1.
  Z.div_mod_to_equations. lia.
Qed.

Definition group a b c : list Z :=
  [enc_char (a / 4); enc_char (a mod 4 * 16 + b / 16);
   enc_char (b mod 16 * 4 + c / 64); enc_char (c mod 64)].

(** The four writes of one round of the encoding loop. *)
Lemma put_group_ok {B} a b c front out rest (k : list Z -> Z -> outcome B) :
  is_byte a -> is_byte b -> is_byte c -> zlen front + 4 < 2 ^ 32 ->
  length out = 4%nat ->
  let triple := u32 (u32 (u32 (Z.shiftl a 16) + u32 (Z.shiftl b 8)) + c) in
  ('(out, j) ← put_sextet triple 18 (front ++ out ++ rest) (zlen front);
   '(out, j) ← put_sextet triple 12 out j;
   '(out, j) ← put_sextet triple 6 out j;
   '(out, j) ← put_sextet triple 0 out j;
   k out j)
  = k ((front ++ group a b c) ++ rest) (zlen (front ++ group a b c)).
Proof.
  intros Ha Hb Hc Hl Ho. cbn zeta. rewrite triple_val by done.
  destruct (group_chars a b c) as (H1 & H2 & H3 & H4); [done..|].
  destruct out as [|x0 [|x1 [|x2 [|x3 [|]]]]]; try done. cbn [app].
  do 4 (rewrite put_sextet_ok by (autorewrite with fb; lia);
        cbn [mbind outcome_bind]).
  rewrite H1, H2, H3, H4. unfold group. by rewrite <- !app_assoc.
Qed.

Lemma next_octet_in pre data k x i :
  0 <= k -> data !! Z.to_nat k = Some x -> i = zlen pre + k ->
  zlen (pre ++ data) < 2 ^ 32 ->
  next_octet (pre ++ data) (zlen (pre ++ data)) i = Ok (x, i + 1).
Proof.
  intros Hk Hx -> Hn. unfold next_octet. rewrite zlen_app in *.
  pose proof (zlen_nonneg pre). apply lookup_lt_Some in Hx as Hlt.
  assert (k < zlen data) by (unfold zlen; lia).
  destruct (Z.ltb_spec (zlen pre + k) (zlen pre + zlen data)); [|lia].
  rewrite (arr_get_app _ _ _ x) by done. cbn. by rewrite u32_small by lia.
Qed.

Lemma next_octet_out data n i : n = i -> next_octet data n i = Ok (0, i).
Proof. intros ->. unfold next_octet. by rewrite Z.ltb_irrefl. Qed.

Lemma encode_loop_done fuel data n i j out :
  n = i -> encode_loop fuel data n i j out = Ok out.
Proof. intros ->. destruct fuel; cbn [encode_loop]; by rewrite Z.ltb_irrefl. Qed.

(** One round of the loop, whatever the three octets were read as. *)
Lemma encode_round fuel data n i i1 i2 i3 a b c front out rest :
  i < n -> next_octet data n i = Ok (a, i1) -> next_octet data n i1 = Ok (b, i2) ->
  next_octet data n i2 = Ok (c, i3) ->
  is_byte a -> is_byte b -> is_byte c ->
  zlen front + 4 < 2 ^ 32 -> length out = 4%nat ->
  encode_loop (S fuel) data n i (zlen front) (front ++ out ++ rest)
  = encode_loop fuel data n i3 (zlen (front ++ group a b c))
      ((front ++ group a b c) ++ rest).
Proof.
  intros Hi H1 H2 H3 Ha Hb Hc Hl Ho. cbn [encode_loop].
  apply Z.ltb_lt in Hi. rewrite Hi. cbn [negb].
  rewrite H1. cbn [mbind outcome_bind]. rewrite H2. cbn [mbind outcome_bind].
  rewrite H3. cbn [mbind outcome_bind].
  by apply (put_group_ok a b c front out rest).
Qed.

Lemma b64_with_65_group1 a : b64_with 65 [a] = group a 0 0.
Proof. cbn. unfold group. by rewrite Z.add_0_r. Qed.

Lemma b64_with_65_group2 a b : b64_with 65 [a; b] = group a b 0.
Proof. cbn. unfold group. by rewrite Z.add_0_r. Qed.

(** The loop writes the reference encoding, with 'A' for the missing characters. *)
Lemma encode_loop_ok fuel pre data front out rest :
  bytes data -> (length data <= fuel)%nat ->
  zlen (pre ++ data) < 2 ^ 32 -> zlen front + zlen out < 2 ^ 32 ->
  length out = length (b64_with 65 data) ->
  encode_loop fuel (pre ++ data) (zlen (pre ++ data)) (zlen pre) (zlen front)
    (front ++ out ++ rest)
  = Ok (front ++ b64_with 65 data ++ rest).
Proof.
  assert (is_byte 0) by (unfold is_byte; lia).
  revert fuel pre front out. induction data as [|a|a b|a b c l IH] using list_ind3;
    intros fuel pre front out Hb Hf Hn Hj Ho.
  - destruct out; [|done]. apply encode_loop_done. by rewrite app_nil_r.
  - destruct fuel as [|fuel]; [simpl in Hf; lia|].
    apply bytes_cons in Hb as [Ha _]. assert (zlen out = 4) by (unfold zlen; by rewrite Ho).
    rewrite (encode_round _ _ _ _ (zlen pre + 1) (zlen pre + 1) (zlen pre + 1) a 0 0);
      [|autorewrite with fb; lia|by apply (next_octet_in _ _ 0); [| |lia|]
       |apply next_octet_out; autorewrite with fb; lia
       |apply next_octet_out; autorewrite with fb; lia|done..|lia|done].
    rewrite encode_loop_done by (by autorewrite with fb).
    by rewrite b64_with_65_group1, <- app_assoc.
  - destruct fuel as [|fuel]; [simpl in Hf; lia|].
    apply bytes_cons in Hb as [Ha [Hb _]%bytes_cons]. assert (zlen out = 4) by (unfold zlen; by rewrite Ho).
    rewrite (encode_round _ _ _ _ (zlen pre + 1) (zlen pre + 1 + 1) (zlen pre + 1 + 1) a b 0);
      [|autorewrite with fb; lia|by apply (next_octet_in _ _ 0); [| |lia|]
       |by apply (next_octet_in _ _ 1)
       |apply next_octet_out; autorewrite with fb; lia|done..|lia|done].
    rewrite encode_loop_done by (autorewrite with fb; lia).
    by rewrite b64_with_65_group2, <- app_assoc.
  - destruct fuel as [|fuel]; [simpl in Hf; lia|].
    apply bytes_cons in Hb as [Ha [Hb [Hc Hl]%bytes_cons]%bytes_cons].
    destruct out as [|x0 [|x1 [|x2 [|x3 out]]]]; try done.
    change (front ++ (x0 :: x1 :: x2 :: x3 :: out) ++ rest)
      with (front ++ [x0; x1; x2; x3] ++ out ++ rest).
    autorewrite with fb in Hj. pose proof (zlen_nonneg out). pose proof (zlen_nonneg l).
    rewrite (encode_round _ _ _ _ (zlen pre + 1) (zlen pre + 1 + 1) (zlen pre + 1 + 1 + 1) a b c);
      [|autorewrite with fb; lia|by apply (next_octet_in _ _ 0); [| |lia|]
       |by apply (next_octet_in _ _ 1)|by apply (next_octet_in _ _ 2); [| |lia|]
       |done..|lia|done].
    change (a :: b :: c :: l) with ([a; b; c] ++ l) in *. rewrite app_assoc in *.
    replace (zlen pre + 1 + 1 + 1) with (zlen (pre ++ [a; b; c])) by (autorewrite with fb; lia).
    rewrite IH; [by rewrite <- app_assoc|done|simpl in Hf; lia|done| |by simplify_eq/=].
    unfold group. autorewrite with fb. lia.
Qed.

(** What [b64_encode] leaves in its buffer. *)
Lemma b64_encode_ok data out rest :
  bytes data -> zlen data <= 3 * 2 ^ 30 - 3 ->
  length out = S (length (b64 data)) ->
  b64_encode data (zlen data) (out ++ rest) = Ok (b64 data ++ 0 :: rest).
Proof.
  intros Hb Hn Ho. unfold b64_encode.
  pose proof (zlen_nonneg data) as Hpos. pose proof (length_b64_with 61 data) as Hlen.
  rewrite (u32_small (zlen data + 2)) by lia.
  rewrite u32_small by (Z.div_mod_to_equations; lia). rewrite <- Hlen.
  destruct (b64_with_split data) as (front & k & Hk & Ht & Hs).
  destruct (exists_last (l:=out)) as (out' & z & ->); [by destruct out|].
  rewrite length_app, Nat.add_comm in Ho. injection Ho as Ho.
  assert (length out' = length (b64_with 65 data)) as Ho'.
  { rewrite Ho. unfold b64. rewrite !Hs, !length_app, !length_replicate. done. }
  rewrite <- app_assoc. cbn [app].
  rewrite (encode_loop_ok _ [] data [] out' (z :: rest)); [|done|unfold zlen; lia| | |done].
  2: { cbn [app]. lia. }
  2: { assert (zlen out' = zlen (b64_with 61 data)) as -> by (unfold zlen; by rewrite Ho).
       rewrite zlen_nil, Hlen. Z.div_mod_to_equations. lia. }
  cbn [mbind outcome_bind app]. rewrite Ht. cbn [mbind outcome_bind].
  rewrite Nat2Z.id, (Hs 65), <- app_assoc.
  replace (zlen (b64_with 61 data)) with (zlen front + Z.of_nat k + 0).
  2: { rewrite Hs. unfold zlen. rewrite length_app, length_replicate. lia. }
  rewrite pad_loop_spec by lia. cbn [mbind outcome_bind].
  rewrite app_assoc, <- (Hs 61).
  replace (zlen front + Z.of_nat k + 0) with (zlen (b64_with 61 data)).
  2: { rewrite Hs. unfold zlen. rewrite length_app, length_replicate. lia. }
  by rewrite arr_set_app_mid.
Qed.

(** ** Decoding what was encoded *)

Definition dec_ok (table : list Z) : Prop :=
  forall s, 0 <= s < 64 -> table !! Z.to_nat (enc_char s) = Some s.

Lemma sextet_forall (P : Z -> bool) s :
  forallb P (seqZ 0 64) = true -> 0 <= s < 64 -> P s = true.
Proof.
  intros H Hs. rewrite forallb_forall in H. apply H.
  apply list_elem_of_In, elem_of_seqZ. lia.
Qed.

Lemma enc_char_range s : 0 <= s < 64 -> 0 <= enc_char s < 128 /\ enc_char s <> 61.
Proof.
  intros Hs.
  pose proof (sextet_forall (fun s =>
    (0 <=? enc_char s) && (enc_char s <? 128) && negb (enc_char s =? 61)) s
    ltac:(vm_compute; reflexivity) Hs) as Hc.
  apply andb_prop in Hc as [[H1%Z.leb_le H2%Z.ltb_lt]%andb_prop H3].
  destruct (Z.eqb_spec (enc_char s) 61); [done|lia].
Qed.

Definition table_inverts (table : list Z) : bool :=
  forallb (fun s => match table !! Z.to_nat (enc_char s) with
                    | Some t => t =? s
                    | None => false
                    end) (seqZ 0 64).

Lemma table_inverts_ok table : table_inverts table = true -> dec_ok table.
Proof.
  intros Ht s Hs. pose proof (sextet_forall _ s Ht Hs) as Hc. cbv beta in Hc.
  destruct (table !! _) as [t|]; [|done]. by apply Z.eqb_eq in Hc as ->.
Qed.

(** [b64_init] turns the zero table into the inverse of [encoding_table]. *)
Lemma b64_init_ok : exists table, b64_init decoding_table_zero = Ok table /\ dec_ok table.
Proof.
  eexists. split; [vm_compute; reflexivity|].
  apply table_inverts_ok. vm_compute. reflexivity.
Qed.

(** [ch] is read as the sextet [s]. *)
Definition reads_as (ch s : Z) : Prop :=
  (ch = 61 /\ s = 0) \/ (0 <= s < 64 /\ ch = enc_char s).

Lemma next_sextet_at table pre data i k ch s :
  dec_ok table -> i = zlen pre + k -> 0 <= k -> data !! Z.to_nat k = Some ch ->
  reads_as ch s -> zlen (pre ++ data) < 2 ^ 32 ->
  next_sextet table (pre ++ data) i = Ok (s, i + 1).
Proof.
  intros Ht -> Hk Hx Hs Hn. pose proof (zlen_nonneg pre). unfold next_sextet.
  apply lookup_lt_Some in Hx as Hlt. rewrite zlen_app in Hn.
  assert (k < zlen data) by (unfold zlen; lia).
  rewrite (arr_get_app _ _ _ ch) by done. cbn [mbind outcome_bind].
  destruct Hs as [[-> ->]|[Hs ->]]; [cbn; by rewrite u32_small by lia|].
  destruct (enc_char_range s Hs) as [Hr Hne].
  destruct (Z.eqb_spec (enc_char s) 61); [done|].
  unfold char_val. destruct (Z.ltb_spec (enc_char s) 128); [|lia].
  rewrite (arr_get_ok _ _ s) by (lia || by apply Ht). cbn. by rewrite u32_small by lia.
Qed.

Lemma dec_triple a b c :
  is_byte a -> is_byte b -> is_byte c ->
  u32 (u32 (u32 (u32 (Z.shiftl (a / 4) 18) + u32 (Z.shiftl (a mod 4 * 16 + b / 16) 12))
       + u32 (Z.shiftl (b mod 16 * 4 + c / 64) 6)) + c mod 64)
  = a * 65536 + b * 256 + c.
Proof.
  unfold is_byte. intros. rewrite !Z.shiftl_mul_pow2 by lia.
  change (2 ^ 18) with 262144. change (2 ^ 12) with 4096. change (2 ^ 6) with 64.
  assert (0 <= a / 4 < 64 /\ 0 <= a mod 4 * 16 + b / 16 < 64 /\
          0 <= b mod 16 * 4 + c / 64 < 64 /\ 0 <= c mod 64 < 64) as (Hx & Hy & Hz & Hw)
    by (Z.div_mod_to_equations; lia).
  transitivity (a / 4 * 262144 + (a mod 4 * 16 + b / 16) * 4096
                + (b mod 16 * 4 + c / 64) * 64 + c mod 64);
    [|Z.div_mod_to_equations; lia].
  revert Hx Hy Hz Hw. generalize (a / 4) (a mod 4 * 16 + b / 16)
    (b mod 16 * 4 + c / 64) (c mod 64). intros x y z w ????.
  rewrite (u32_small (x * _)), (u32_small (y * _)), (u32_small (z * _)) by lia.
  rewrite (u32_small (x * _ + _)) by lia.
  rewrite (u32_small (x * _ + _ + _)) by lia. by rewrite u32_small by lia.
Qed.

Lemma put_octet_in triple sh len front x rest :
  0 <= sh -> zlen front < len -> len < 2 ^ 32 ->
  put_octet triple sh len (front ++ x :: rest) (zlen front)
  = Ok ((front ++ [triple / 2 ^ sh mod 256]) ++ rest, zlen (front ++ [triple / 2 ^ sh mod 256])).
Proof.
  intros Hsh Hj Hl. unfold put_octet. pose proof (zlen_nonneg front).
  apply Z.ltb_lt in Hj as Hj'. rewrite Hj', land_255, Z.shiftr_div_pow2 by done.
  rewrite arr_set_app_mid. cbn. rewrite u32_small by lia. by rewrite <- app_assoc, zlen_app.
Qed.

Lemma put_octet_out triple sh len out j :
  len <= j -> put_octet triple sh len out j = Ok (out, j).
Proof. intros Hj. unfold put_octet. by destruct (Z.ltb_spec j len); [lia|]. Qed.

Lemma triple_octets a b c :
  is_byte a -> is_byte b -> is_byte c ->
  let t := a * 65536 + b * 256 + c in
  t / 2 ^ 16 mod 256 = a /\ t / 2 ^ 8 mod 256 = b /\ t / 2 ^ 0 mod 256 = c.
Proof.
  unfold is_byte. intros Ha Hb Hc. cbn zeta.
  change (2 ^ 16) with 65536. change (2 ^ 8) with 256. change (2 ^ 0) with 1.
  Z.div_mod_to_equations. lia.
Qed.

(** One round of the decoding loop, whatever the four sextets were read from. *)
Lemma decode_round fuel table data n len i i1 i2 i3 i4 a b c j out :
  i < n ->
  next_sextet table data i = Ok (a / 4, i1) ->
  next_sextet table data i1 = Ok (a mod 4 * 16 + b / 16, i2) ->
  next_sextet table data i2 = Ok (b mod 16 * 4 + c / 64, i3) ->
  next_sextet table data i3 = Ok (c mod 64, i4) ->
  is_byte a -> is_byte b -> is_byte c ->
  decode_loop (S fuel) table data n len i j out =
  let t := a * 65536 + b * 256 + c in
  '(out, j) ← put_octet t 16 len out j;
  '(out, j) ← put_octet t 8 len out j;
  '(out, j) ← put_octet t 0 len out j;
  decode_loop fuel table data n len i4 j out.
Proof.
  intros Hi H1 H2 H3 H4 Ha Hb Hc. cbn [decode_loop].
  apply Z.ltb_lt in Hi. rewrite Hi. cbn [negb].
  do 1 (rewrite H1; cbn [mbind outcome_bind]). rewrite H2. cbn [mbind outcome_bind].
  rewrite H3. cbn [mbind outcome_bind]. rewrite H4. cbn [mbind outcome_bind].
  by rewrite dec_triple.
Qed.

Lemma decode_loop_done fuel table data n len i j out :
  n = i -> decode_loop fuel table data n len i j out = Ok out.
Proof. intros ->. destruct fuel; cbn [decode_loop]; by rewrite Z.ltb_irrefl. Qed.

Lemma put_octets_ok a b c front out rest len :
  is_byte a -> is_byte b -> is_byte c -> zlen front + 3 <= len -> len < 2 ^ 32 ->
  length out = 3%nat ->
  forall B (k : list Z -> Z -> outcome B),
  (let t := a * 65536 + b * 256 + c in
   '(out, j) ← put_octet t 16 len (front ++ out ++ rest) (zlen front);
   '(out, j) ← put_octet t 8 len out j;
   '(out, j) ← put_octet t 0 len out j; k out j)
  = k ((front ++ [a; b; c]) ++ rest) (zlen (front ++ [a; b; c])).
Proof.
  intros Ha Hb Hc Hl Hm Ho B k. cbn zeta.
  destruct (triple_octets a b c) as (H1 & H2 & H3); [done..|].
  destruct out as [|x0 [|x1 [|x2 [|]]]]; try done. cbn [app].
  do 3 (rewrite put_octet_in by (autorewrite with fb; lia); cbn [mbind outcome_bind]).
  rewrite H1, H2, H3. by rewrite <- !app_assoc.
Qed.

Lemma app_cons4 (pre : list Z) c1 c2 c3 c4 r :
  pre ++ c1 :: c2 :: c3 :: c4 :: r = (pre ++ [c1; c2; c3; c4]) ++ r.
Proof. by rewrite <- app_assoc. Qed.

(** One round on a group [data] of four characters standing for [a], [b], [c]. *)
Lemma decode_group fuel table pre c1 c2 c3 c4 data n len a b c j out :
  dec_ok table -> zlen pre < n -> zlen (pre ++ c1 :: c2 :: c3 :: c4 :: data) < 2 ^ 32 ->
  is_byte a -> is_byte b -> is_byte c ->
  reads_as c1 (a / 4) -> reads_as c2 (a mod 4 * 16 + b / 16) ->
  reads_as c3 (b mod 16 * 4 + c / 64) -> reads_as c4 (c mod 64) ->
  let chars := pre ++ c1 :: c2 :: c3 :: c4 :: data in
  decode_loop (S fuel) table chars n len (zlen pre) j out =
  let t := a * 65536 + b * 256 + c in
  '(out, j) ← put_octet t 16 len out j;
  '(out, j) ← put_octet t 8 len out j;
  '(out, j) ← put_octet t 0 len out j;
  decode_loop fuel table chars n len (zlen pre + 1 + 1 + 1 + 1) j out.
Proof.
  intros Ht Hi Hn Ha Hb Hc H1 H2 H3 H4. cbn zeta.
  eapply decode_round; [|eapply (next_sextet_at _ _ _ _ 0)|eapply (next_sextet_at _ _ _ _ 1)
    |eapply (next_sextet_at _ _ _ _ 2)|eapply (next_sextet_at _ _ _ _ 3)|done..];
    done || lia || (try done).
Qed.

Ltac reads_as_enc := right; split; [Z.div_mod_to_equations; lia|first [done|f_equal; Z.div_mod_to_equations; lia]].

(** The decoding loop on the reference encoding. *)
Lemma decode_loop_ok fuel table pre data tl front out rest :
  dec_ok table -> bytes data -> (length (b64 data) <= fuel)%nat ->
  zlen (pre ++ b64 data ++ tl) < 2 ^ 32 -> zlen front + zlen data < 2 ^ 32 ->
  length out = length data ->
  decode_loop fuel table (pre ++ b64 data ++ tl) (zlen (pre ++ b64 data)) (zlen front + zlen data)
    (zlen pre) (zlen front) (front ++ out ++ rest)
  = Ok (front ++ data ++ rest).
Proof.
  intros Ht. assert (is_byte 0) as H0 by (unfold is_byte; lia). unfold b64.
  revert fuel pre front out. induction data as [|a|a b|a b c l IH] using list_ind3;
    intros fuel pre front out Hb Hf Hn Hj Ho; pose proof (zlen_nonneg front) as Hfr.
  - destruct out; [|done]. apply decode_loop_done. by rewrite app_nil_r.
  - destruct fuel as [|fuel]; [simpl in Hf; lia|]. apply bytes_cons in Hb as [Ha _].
    destruct out as [|x0 [|]]; try done. pose proof Ha as Ha'. unfold is_byte in Ha'.
    cbn [b64_with app] in *. autorewrite with fb in Hj.
    rewrite (decode_group _ _ _ _ _ _ _ _ _ _ a 0 0); [|done|autorewrite with fb; lia|done..|reads_as_enc|reads_as_enc|by left|by left].
    cbn zeta. cbn [app]. rewrite put_octet_in by (autorewrite with fb; lia). cbn [mbind outcome_bind].
    do 2 (rewrite put_octet_out by (autorewrite with fb; lia); cbn [mbind outcome_bind]).
    destruct (triple_octets a 0 0) as (-> & _); [done..|].
    rewrite decode_loop_done by (autorewrite with fb; lia). by rewrite <- app_assoc.
  - destruct fuel as [|fuel]; [simpl in Hf; lia|]. apply bytes_cons in Hb as [Ha [Hb _]%bytes_cons].
    destruct out as [|x0 [|x1 [|]]]; try done. pose proof Ha as Ha'. pose proof Hb as Hb'. unfold is_byte in Ha', Hb'.
    cbn [b64_with app] in *. autorewrite with fb in Hj.
    rewrite (decode_group _ _ _ _ _ _ _ _ _ _ a b 0); [|done|autorewrite with fb; lia|done..|reads_as_enc|reads_as_enc|reads_as_enc|by left].
    cbn zeta. cbn [app].
    do 2 (rewrite put_octet_in by (autorewrite with fb; lia); cbn [mbind outcome_bind]).
    rewrite put_octet_out by (autorewrite with fb; lia). cbn [mbind outcome_bind].
    destruct (triple_octets a b 0) as (-> & -> & _); [done..|].
    rewrite decode_loop_done by (autorewrite with fb; lia). by rewrite <- !app_assoc.
  - destruct fuel as [|fuel]; [simpl in Hf; lia|].
    apply bytes_cons in Hb as [Ha [Hb [Hc Hl]%bytes_cons]%bytes_cons].
    destruct out as [|x0 [|x1 [|x2 out]]]; try done.
    pose proof Ha as Ha'. pose proof Hb as Hb'. pose proof Hc as Hc'. unfold is_byte in Ha', Hb', Hc'.
    cbn [b64_with app] in *. autorewrite with fb in Hj. pose proof (zlen_nonneg l).
    rewrite (decode_group _ _ _ _ _ _ _ _ _ _ a b c); [|done|autorewrite with fb; pose proof (zlen_nonneg (b64_with 61 l)); lia|done..|reads_as_enc|reads_as_enc|reads_as_enc|reads_as_enc].
    change (front ++ x0 :: x1 :: x2 :: out ++ rest) with (front ++ [x0; x1; x2] ++ out ++ rest).
    rewrite put_octets_ok by (done || autorewrite with fb; lia).
    rewrite (app_cons4 pre _ _ _ _ (b64_with 61 l)), (app_cons4 pre _ _ _ _ (_ ++ tl)).
    rewrite (app_cons4 pre) in Hn.
    match goal with |- context [pre ++ [?c1; ?c2; ?c3; ?c4]] =>
      replace (zlen pre + 1 + 1 + 1 + 1) with (zlen (pre ++ [c1; c2; c3; c4]))
        by (autorewrite with fb; lia)
    end.
    replace (zlen front + zlen (a :: b :: c :: l)) with (zlen (front ++ [a; b; c]) + zlen l)
      by (autorewrite with fb; lia).
    rewrite IH; [by rewrite <- app_assoc|done|simpl in Hf; lia|done|autorewrite with fb; lia|by simplify_eq/=].
Qed.

(** The last two characters tell how many octets the encoding stands for. *)
Lemma b64_tail data :
  bytes data -> data <> [] ->
  exists front c2 c1, b64 data = front ++ [c2; c1] /\
    zlen (b64 data) / 4 * 3 - c_bool (c1 =? 61) - c_bool (c2 =? 61) = zlen data.
Proof.
  assert (forall s, 0 <= s < 64 -> (enc_char s =? 61) = false) as He.
  { intros s Hs. apply Z.eqb_neq. by apply enc_char_range. }
  unfold b64. induction data as [|a|a b|a b c l IH] using list_ind3; intros Hb Hne; [done|..].
  - eexists [_; _], _, _. split; [done|done].
  - apply bytes_cons in Hb as [Ha [Hb _]%bytes_cons]. unfold is_byte in *.
    eexists [_; _], _, _. split; [done|]. cbn. rewrite He; [done|]. Z.div_mod_to_equations; lia.
  - apply bytes_cons in Hb as [Ha [Hb [Hc Hl]%bytes_cons]%bytes_cons]. unfold is_byte in *.
    destruct l as [|x l].
    + eexists [_; _], _, _. split; [done|]. cbn.
      rewrite !He; [done|Z.div_mod_to_equations; lia..].
    + destruct IH as (front & c2 & c1 & IH & Hz); [done..|].
      cbn [b64_with] in *. rewrite IH. eexists (_ :: _ :: _ :: _ :: front), c2, c1.
      split; [done|]. rewrite (zlen_cons a), (zlen_cons b), (zlen_cons c), <- Hz, IH.
      rewrite !zlen_cons. Z.div_mod_to_equations. lia.
Qed.

(** What [b64_decode] makes of an encoding, followed by anything. *)
Lemma b64_decode_ok table data tl buf outlen :
  dec_ok table -> bytes data -> data <> [] ->
  zlen (b64 data ++ tl) < 2 ^ 32 -> zlen data <= outlen -> zlen data <= zlen buf ->
  b64_decode table (b64 data ++ tl) (zlen (b64 data)) buf outlen
  = Ok (0, data ++ drop (length data) buf, zlen data).
Proof.
  intros Ht Hb Hne Hn Ho Hbuf. pose proof (length_b64_with 61 data) as Hlen.
  fold b64 in Hlen. change (b64_with 61) with b64 in Hlen.
  destruct (b64_tail data Hb Hne) as (front & c2 & c1 & Hs & Hz).
  pose proof (zlen_nonneg data). pose proof (zlen_nonneg tl). pose proof (zlen_nonneg front).
  assert (Hf : zlen (b64 data) = zlen front + 2) by (rewrite Hs; autorewrite with fb; lia).
  rewrite zlen_app in Hn. unfold b64_decode.
  destruct (Z.eqb_spec (zlen (b64 data)) 0); [lia|].
  replace (zlen (b64 data) mod 4) with 0 by (rewrite Hlen; Z.div_mod_to_equations; lia).
  cbn [orb negb Z.eqb].
  rewrite (arr_get_ok _ (zlen (b64 data) - 1) c1), (arr_get_ok _ (zlen (b64 data) - 2) c2);
    [|lia| |lia|].
  2: { rewrite Hs, <- app_assoc. replace (zlen _ - 2) with (zlen front + 0)
         by (autorewrite with fb; lia). by rewrite lookup_app_zlen by lia. }
  2: { rewrite Hs, <- app_assoc. replace (zlen _ - 1) with (zlen front + 1)
         by (autorewrite with fb; lia). by rewrite lookup_app_zlen by lia. }
  cbn [mbind outcome_bind].
  assert (u32 (zlen (b64 data) / 4 * 3) = zlen (b64 data) / 4 * 3) as ->.
  { apply u32_small. Z.div_mod_to_equations. lia. }
  assert ((if c2 =? 61 then u32 ((if c1 =? 61 then u32 (zlen (b64 data) / 4 * 3 - 1)
             else zlen (b64 data) / 4 * 3) - 1)
           else if c1 =? 61 then u32 (zlen (b64 data) / 4 * 3 - 1)
             else zlen (b64 data) / 4 * 3) = zlen data) as ->.
  { rewrite <- Hz. unfold c_bool in *. clear Hs.
    destruct (c1 =? 61), (c2 =? 61); rewrite ?u32_small; rewrite ?u32_small; try lia;
      Z.div_mod_to_equations; lia. }
  destruct (Z.ltb_spec outlen (zlen data)); [lia|].
  rewrite <- (take_drop (length data) buf) at 1.
  pose proof (decode_loop_ok (Z.to_nat (zlen (b64 data))) table [] data tl []
    (take (length data) buf) (drop (length data) buf)) as Hdec.
  cbn [app] in Hdec. rewrite zlen_nil, Z.add_0_l in Hdec.
  rewrite Hdec; [done|done|done|unfold zlen; lia|by rewrite zlen_app| |].
  - rewrite Hlen in Hn. Z.div_mod_to_equations. lia.
  - rewrite length_take. unfold zlen in *. lia.
Qed.

(** C16.  Round trip: what [b64_encode] writes, [b64_decode] (with the table
    [b64_init] builds) reads back exactly, for every non-empty octet string,
    provided both buffers are large enough; nothing outside the two outputs
    is touched and the length stored is the length encoded. *)
Theorem b64_roundtrip data ebuf rest dbuf outlen :
  bytes data -> data <> [] -> zlen (ebuf ++ rest) < 2 ^ 32 ->
  zlen ebuf = BASE64_OUTPUT_LEN (zlen data) + 1 -> zlen data < 2 ^ 31 ->
  zlen data <= outlen -> zlen data <= zlen dbuf ->
  (table ← b64_init decoding_table_zero;
   enc ← b64_encode data (zlen data) (ebuf ++ rest);
   b64_decode table enc (BASE64_OUTPUT_LEN (zlen data)) dbuf outlen)
  = Ok (0, data ++ drop (length data) dbuf, zlen data).
Proof.
  intros Hb Hne Hr He Hd Ho Hbuf. destruct b64_init_ok as (table & -> & Ht).
  pose proof (zlen_nonneg data). pose proof (length_b64_with 61 data) as Hlen.
  assert (BASE64_OUTPUT_LEN (zlen data) = zlen (b64 data)) as HB.
  { unfold BASE64_OUTPUT_LEN. rewrite (u32_small (zlen data + 2)) by lia.
    rewrite u32_small; [done|]. Z.div_mod_to_equations. lia. }
  rewrite HB in *. cbn [mbind outcome_bind].
  rewrite b64_encode_ok; [|done|lia|unfold zlen in *; lia]. cbn [mbind outcome_bind].
  apply b64_decode_ok; try done. autorewrite with fb in *. lia.
Qed.

Lemma b64_roundtrip_witness :
  (table ← b64_init decoding_table_zero;
   enc ← b64_encode [0; 255; 16; 77] (zlen [0; 255; 16; 77]) (replicate 9 7 ++ [7]);
   b64_decode table enc (BASE64_OUTPUT_LEN (zlen [0; 255; 16; 77])) [9; 9; 9; 9; 9; 9] 6)
  = Ok (0, [0; 255; 16; 77] ++ drop 4 [9; 9; 9; 9; 9; 9], zlen [0; 255; 16; 77]).
Proof.
  apply (b64_roundtrip [0; 255; 16; 77]); try (vm_compute; congruence).
  - repeat constructor; vm_compute; congruence.
Defined.
