(* ===== verification/MqttPacket.v ===== *)
(** * MQTT packets: types, messages, topic filters
    (src/mqtt_packet.c, src/mqtt_packet.h, src/message.c)

    The message structure with [message_create], the packet type names and
    [mqtt_topic_matches], with the level-by-level meaning of a topic filter
    that both matchers of the broker are compared with. *)

From S2P Require Import Prelude.
From Stdlib Require String.
Import String.StringSyntax.
Delimit Scope string_scope with str.

(** ** C library calls the model leaves open

    Whether an allocation fails, and what fresh memory holds. *)
Class Libc := {
  malloc_fails : Z -> bool;
  junk : nat -> Z
}.

Section libc.
Context `{Libc}.

Definition junk_bytes (n : Z) : list Z := junk <$> seq 0 (Z.to_nat n).

Definition malloc (n : Z) : option (list Z) :=
  if malloc_fails n then None else Some (junk_bytes n).

Lemma length_junk_bytes n : length (junk_bytes n) = Z.to_nat n.
Proof. unfold junk_bytes. by rewrite length_fmap, length_seq. Qed.

Lemma zlen_junk_bytes n : 0 <= n -> zlen (junk_bytes n) = n.
Proof. intros. unfold zlen. rewrite length_junk_bytes. lia. Qed.
End libc.

(** A C library whose allocations succeed and return zeroed memory. *)
Definition calm_libc : Libc := {| malloc_fails := fun _ => false; junk := fun _ => 0 |}.

(** ** Packet types *)

Inductive msg_type_t :=
  | NONE | CONNECT | CONNACK | PUBLISH | PUBACK | PUBREC | PUBREL
  | PUBCOMP | SUBSCRIBE | SUBACK | UNSUBSCRIBE | UNSUBACK
  | PINGREQ | PINGRESP | DISCONNECT | MQTT_NUM_TYPES.

#[export] Instance msg_type_eq_dec : EqDecision msg_type_t.
Proof. solve_decision. Defined.

Definition all_msg_types : list msg_type_t :=
  [NONE; CONNECT; CONNACK; PUBLISH; PUBACK; PUBREC; PUBREL; PUBCOMP; SUBSCRIBE;
   SUBACK; UNSUBSCRIBE; UNSUBACK; PINGREQ; PINGRESP; DISCONNECT; MQTT_NUM_TYPES].

(** The value of the enumeration constant. *)
Definition msg_type_code (t : msg_type_t) : Z :=
  match t with
  | NONE => 0 | CONNECT => 1 | CONNACK => 2 | PUBLISH => 3 | PUBACK => 4
  | PUBREC => 5 | PUBREL => 6 | PUBCOMP => 7 | SUBSCRIBE => 8 | SUBACK => 9
  | UNSUBSCRIBE => 10 | UNSUBACK => 11 | PINGREQ => 12 | PINGRESP => 13
  | DISCONNECT => 14 | MQTT_NUM_TYPES => 15
  end.

Definition msg_type_names : list String.string :=
  ["NONE"; "CONNECT"; "CONNACK"; "PUBLISH"; "PUBACK"; "PUBREC"; "PUBREL";
   "PUBCOMP"; "SUBSCRIBE"; "SUBACK"; "UNSUBSCRIBE"; "UNSUBACK"; "PINGREQ";
   "PINGRESP"; "DISCONNECT"; "MQTT_NUM_TYPES"]%str.

(** [type] is an unsigned enumeration, so only the upper bound is tested. *)
Definition mqtt_msg_type_name (type : Z) : outcome String.string :=
  if type <? msg_type_code MQTT_NUM_TYPES
  then arr_get msg_type_names type
  else mret "unknown"%str.

Record header_byte_t := mk_header {
  h_msg_type : Z;
  h_dup : Z;
  h_qos : Z;
  h_retain : Z
}.
#[export] Instance eta_header : Eta header_byte_t :=
  fun h => mk_header (h_msg_type h) (h_dup h) (h_qos h) (h_retain h).

(** ** Messages *)

Definition MAX_NUM_WORKERS : Z := 64.

Inductive message_state_et := M_STATE_UNKNOWN | M_STATE_IN_USE | M_STATE_FREE.

#[export] Instance message_state_eq_dec : EqDecision message_state_et.
Proof. solve_decision. Defined.

(** The queue items [gc_node] and [nodes] embedded in the structure live in
    the item heap of the workers; [m_client] is the index of the client. *)
Record message_st := mk_message {
  m_state : message_state_et;
  m_dup : Z;
  m_orig_qos : Z;
  m_retain : Z;
  m_packet_id : Z;
  m_topic_len : Z;
  m_payload_len : Z;
  m_topic : list Z;
  m_payload : list Z;
  m_client : Z;
  m_not_done : list Z
}.
#[export] Instance eta_message : Eta message_st :=
  fun m => mk_message (m_state m) (m_dup m) (m_orig_qos m) (m_retain m) (m_packet_id m)
    (m_topic_len m) (m_payload_len m) (m_topic m) (m_payload m) (m_client m) (m_not_done m).

(** [sizeof(message_st)] on LP64. *)
Definition sizeof_message_st : Z := 1336.

Definition MESSAGE_SIZE (topic_len payload_len : Z) : Z :=
  u64 (sizeof_message_st + topic_len + payload_len + 2).

(** One allocation holds the structure, the topic and the payload, each of
    the two strings followed by a NUL. *)
Definition message_create `{Libc} (client topic_len payload_len dup orig_qos retain packet_id : Z)
  : outcome (option message_st) :=
  if malloc_fails (MESSAGE_SIZE topic_len payload_len) then mret None
  else
    topic ← arr_set (junk_bytes (topic_len + 1)) topic_len 0;
    payload ← arr_set (junk_bytes (payload_len + 1)) payload_len 0;
    mret (Some {|
      m_state := M_STATE_IN_USE;
      m_dup := u8 dup;
      m_orig_qos := u8 orig_qos;
      m_retain := u8 retain;
      m_packet_id := u16 packet_id;
      m_topic_len := topic_len;
      m_payload_len := payload_len;
      m_topic := topic;
      m_payload := payload;
      m_client := client;
      m_not_done := junk_bytes MAX_NUM_WORKERS
    |}).

(** A message whose two buffers have the advertised lengths. *)
Record message_wf (m : message_st) : Prop := {
  mw_topic : zlen (m_topic m) = m_topic_len m + 1;
  mw_payload : zlen (m_payload m) = m_payload_len m + 1;
  mw_topic_len : 0 <= m_topic_len m < 65536;
  mw_payload_len : 0 <= m_payload_len m < 2 ^ 32;
  mw_not_done : zlen (m_not_done m) = MAX_NUM_WORKERS
}.

Lemma message_create_ok `{Libc} client topic_len payload_len dup qos retain pid :
  0 <= topic_len < 65536 -> 0 <= payload_len < 2 ^ 32 ->
  malloc_fails (MESSAGE_SIZE topic_len payload_len) = false ->
  exists m, message_create client topic_len payload_len dup qos retain pid = Ok (Some m) /\
    message_wf m /\ m_state m = M_STATE_IN_USE /\ m_topic_len m = topic_len /\
    m_payload_len m = payload_len /\ m_client m = client /\ m_dup m = u8 dup /\
    m_orig_qos m = u8 qos /\ m_retain m = u8 retain /\ m_packet_id m = u16 pid /\
    m_topic m = take (Z.to_nat topic_len) (junk_bytes (topic_len + 1)) ++ [0] /\
    m_payload m = take (Z.to_nat payload_len) (junk_bytes (payload_len + 1)) ++ [0] /\
    m_not_done m = junk_bytes MAX_NUM_WORKERS.
Proof.
  intros Ht Hp Hm. unfold message_create. rewrite Hm.
  rewrite !arr_set_ok by (rewrite zlen_junk_bytes; lia). cbn [mbind outcome_bind mret outcome_ret].
  eexists. split; [done|]. cbn.
  assert (forall n, 0 <= n -> <[Z.to_nat n := 0]> (junk_bytes (n + 1))
    = take (Z.to_nat n) (junk_bytes (n + 1)) ++ [0]) as Hi.
  { intros n Hn. rewrite insert_take_drop by (rewrite length_junk_bytes; lia).
    rewrite drop_ge by (rewrite length_junk_bytes; lia). done. }
  split_and!; try done; [|by rewrite Hi by lia|by rewrite Hi by lia].
  constructor; cbn; try done; rewrite ?zlen_junk_bytes by (unfold MAX_NUM_WORKERS; lia); try done;
    unfold zlen; rewrite length_insert; rewrite length_junk_bytes; lia.
Qed.

(** ** Topic filters *)

Definition c_slash : Z := 47.
Definition c_plus : Z := 43.
Definition c_hash : Z := 35.

(** "$local/" *)
Definition local_prefix : list Z := [36; 108; 111; 99; 97; 108; 47].

(** [strncmp(s, lit, strlen(lit)) == 0] for a literal [lit] without NUL. *)
Fixpoint strncmp_eq (s lit : list Z) {struct lit} : outcome bool :=
  match lit with
  | [] => mret true
  | c :: lit' =>
      match s with
      | [] => Undef OutOfBounds
      | b :: s' => if b =? c then strncmp_eq s' lit' else mret false
      end
  end.

(** [while (nextpos < curn_end && *nextpos != '/') nextpos = ++curn + 1],
    and the [curn++] after it: the rest of the name from the next separator. *)
Fixpoint skip_level (name : list Z) : list Z :=
  match name with
  | [] => []
  | c :: name' => if c =? c_slash then name else skip_level name'
  end.

(** The loop over [curf] and [curn]; [name] is what lies between [curn] and
    [curn_end].  The result is [curn == curn_end && *curf == 0] at its exit. *)
Fixpoint match_loop (curf name : list Z) : outcome bool :=
  match curf with
  | [] => Undef OutOfBounds
  | f :: curf' =>
      if f =? 0 then mret (match name with [] => true | _ => false end)
      else match name with
      | [] => mret false
      | n :: name' =>
          if (n =? c_slash) && negb (f =? c_slash) then mret false
          else if negb (f =? c_plus) && negb (f =? c_hash) && negb (f =? n) then mret false
          else if f =? c_plus then match_loop curf' (skip_level name')
          else if f =? c_hash then match_loop curf' []
          else match_loop curf' name'
      end
  end.

Definition mqtt_topic_matches (topicFilter topicName : list Z) (topicLen : Z) : outcome Z :=
  local ← strncmp_eq topicName local_prefix;
  let topicName := if (local : bool) then drop 7 topicName else topicName in
  let topicLen := if (local : bool) then topicLen - 7 else topicLen in
  if topicLen <? 0 then mret 0
  else if zlen topicName <? topicLen then Undef OutOfBounds
  else r ← match_loop topicFilter (take (Z.to_nat topicLen) topicName); mret (c_bool r).

(** ** The meaning of a filter, level by level *)

(** The text with the given levels. *)
Fixpoint join (ls : list (list Z)) : list Z :=
  match ls with
  | [] => []
  | [l] => l
  | l :: ls => l ++ c_slash :: join ls
  end.

(** The levels of a text; there is always at least one. *)
Fixpoint levels (s : list Z) : list (list Z) :=
  match s with
  | [] => [[]]
  | c :: s' =>
      if c =? c_slash then [] :: levels s'
      else match levels s' with
           | l :: ls => (c :: l) :: ls
           | [] => [[c]]
           end
  end.

(** A level of a filter without wildcard. *)
Definition literal (l : list Z) : Prop :=
  Forall (fun c => c <> 0 /\ c <> c_slash /\ c <> c_plus /\ c <> c_hash) l.

(** Well-formed filters: '+' and '#' fill their level, '#' is the last level. *)
Fixpoint filter_wf (fl : list (list Z)) : Prop :=
  match fl with
  | [] => False
  | [l] => literal l \/ l = [c_plus] \/ l = [c_hash]
  | l :: fl => (literal l \/ l = [c_plus]) /\ filter_wf fl
  end.

(** [eps] says whether '+' and '#' accept an empty level. *)
Fixpoint levels_match (eps : bool) (fl tl : list (list Z)) : bool :=
  match fl, tl with
  | [], [] => true
  | f :: fl', t :: tl' =>
      if decide (f = [c_hash]) then eps || negb (bool_decide (t = []))
      else (if decide (f = [c_plus]) then eps || negb (bool_decide (t = []))
            else bool_decide (f = t))
           && levels_match eps fl' tl'
  | _, _ => false
  end.

Definition slash_free (l : list Z) : Prop := Forall (fun c => c <> c_slash) l.

Lemma join_cons l ls : ls <> [] -> join (l :: ls) = l ++ c_slash :: join ls.
Proof. by destruct ls. Qed.

Lemma levels_nonempty s : levels s <> [].
Proof. destruct s as [|c s]; simpl; [done|]. by destruct (c =? _), (levels s). Qed.

Lemma join_levels s : join (levels s) = s.
Proof.
  induction s as [|c s IH]; [done|]. cbn [levels].
  destruct (Z.eqb_spec c c_slash) as [->|Hc].
  - rewrite join_cons by apply levels_nonempty. by rewrite IH.
  - pose proof (levels_nonempty s). destruct (levels s) as [|l ls]; [done|].
    destruct ls; simpl in *; by rewrite <- IH.
Qed.

Lemma levels_slash_free s : Forall slash_free (levels s).
Proof.
  induction s as [|c s IH]; [repeat constructor|]. cbn [levels].
  destruct (Z.eqb_spec c c_slash); [by constructor; [constructor|]|].
  destruct (levels s) as [|l ls]; [repeat constructor; done|].
  apply Forall_cons in IH as [Hl Hls]. by repeat constructor.
Qed.

Lemma levels_join ls : ls <> [] -> Forall slash_free ls -> levels (join ls) = ls.
Proof.
  intros Hne Hs. induction ls as [|l ls IH]; [done|].
  apply Forall_cons in Hs as [Hl Hls].
  assert (forall l rest lsr, slash_free l -> levels rest = [] :: lsr ->
    levels (l ++ rest) = l :: lsr) as Hlev.
  { clear. intros l rest lsr Hl Hr. induction Hl as [|c l Hc Hl IH]; [done|].
    cbn [app levels]. rewrite IH. by destruct (Z.eqb_spec c c_slash). }
  destruct ls as [|l' ls].
  - cbn [join]. rewrite <- (app_nil_r l) at 1. by apply Hlev.
  - rewrite join_cons by done. apply Hlev; [done|]. cbn [levels].
    destruct (Z.eqb_spec c_slash c_slash); [|done].
    by rewrite IH.
Qed.

(** ** [mqtt_topic_matches] against the levels *)

Lemma skip_level_join t tl :
  slash_free t -> skip_level (join (t :: tl)) =
    match tl with [] => [] | _ => c_slash :: join tl end.
Proof.
  intros Ht. destruct tl as [|t' tl].
  - cbn [join]. induction Ht as [|c t Hc Ht IH]; [done|]. simpl.
    by destruct (Z.eqb_spec c c_slash).
  - rewrite join_cons by done. induction Ht as [|c t Hc Ht IH]; [done|]. cbn [app skip_level].
    by destruct (Z.eqb_spec c c_slash).
Qed.

(** What follows a level of the filter: its end or a separator. *)
Definition filter_rest (fl : list (list Z)) (tl : list Z) : list Z :=
  match fl with [] => 0 :: tl | _ => c_slash :: join fl ++ 0 :: tl end.

Definition name_rest (tl : list (list Z)) : list Z :=
  match tl with [] => [] | _ => c_slash :: join tl end.

Lemma join_filter_rest f fl junk :
  join (f :: fl) ++ 0 :: junk = f ++ filter_rest fl junk.
Proof.
  destruct fl; [done|]. rewrite join_cons by done. by rewrite <- app_assoc.
Qed.

Lemma join_name_rest t tl : join (t :: tl) = t ++ name_rest tl.
Proof. destruct tl; simpl; by rewrite ?app_nil_r. Qed.

Lemma match_loop_end fl junk :
  match_loop (filter_rest fl junk) [] = Ok (match fl with [] => true | _ => false end).
Proof. by destruct fl. Qed.

(** Entering the next level on both sides, or stopping. *)
Lemma match_loop_rest fl tl junk :
  match_loop (filter_rest fl junk) (name_rest tl) =
    match fl, tl with
    | [], [] => Ok true
    | _ :: _, _ :: _ => match_loop (join fl ++ 0 :: junk) (join tl)
    | _, _ => Ok false
    end.
Proof. by destruct fl, tl. Qed.

Lemma match_loop_literal f t fl tl junk :
  literal f -> slash_free t ->
  match_loop (f ++ filter_rest fl junk) (t ++ name_rest tl) =
    if bool_decide (f = t) then match_loop (filter_rest fl junk) (name_rest tl) else Ok false.
Proof.
  intros Hf Ht. revert t Ht. induction Hf as [|a f (H0 & H1 & H2 & H3) Hf IH]; intros t Ht.
  - destruct Ht as [|b t Hb Ht]; [done|]. cbn [app].
    rewrite bool_decide_eq_false_2 by done.
    destruct fl as [|fl1 fl]; [done|]. cbn [filter_rest match_loop].
    apply Z.eqb_neq in Hb as Hb1. apply Z.neq_sym, Z.eqb_neq in Hb as Hb2.
    by rewrite Hb1, Hb2.
  - apply Z.eqb_neq in H0, H1, H2, H3. cbn [app match_loop]. rewrite H0.
    destruct Ht as [|b t Hb Ht].
    + rewrite bool_decide_eq_false_2 by done. destruct tl as [|t' tl]; [done|].
      cbn [app name_rest]. by rewrite Z.eqb_refl, H1.
    + cbn [app]. apply Z.eqb_neq in Hb. rewrite Hb, H2, H3. cbn [andb negb].
      destruct (Z.eqb_spec a b) as [->|Hab]; cbn [negb].
      * rewrite IH by done.
        destruct (decide (f = t)) as [->|Hft].
        { by rewrite !bool_decide_eq_true_2. }
        { by rewrite !bool_decide_eq_false_2 by congruence. }
      * by rewrite bool_decide_eq_false_2 by congruence.
Qed.

Lemma literal_not_wild l c : literal l -> l = [c] -> c <> c_plus /\ c <> c_hash.
Proof. intros Hl ->. apply Forall_cons in Hl as [(? & ? & ? & ?) _]. done. Qed.

Lemma skip_level_rest t tl :
  slash_free t -> skip_level (t ++ name_rest tl) = name_rest tl.
Proof.
  induction 1 as [|c t Hc Ht IH]; [by destruct tl|]. cbn [app skip_level].
  by destruct (Z.eqb_spec c c_slash).
Qed.

Lemma match_loop_plus t fl tl junk :
  slash_free t ->
  match_loop ([c_plus] ++ filter_rest fl junk) (t ++ name_rest tl) =
    if bool_decide (t = []) then Ok false else match_loop (filter_rest fl junk) (name_rest tl).
Proof.
  intros Ht. destruct Ht as [|b t Hb Ht].
  - by destruct tl.
  - rewrite bool_decide_eq_false_2 by done. apply Z.eqb_neq in Hb.
    cbn [app match_loop]. rewrite Hb. cbn. by rewrite skip_level_rest.
Qed.

Lemma match_loop_hash t tl junk :
  slash_free t ->
  match_loop ([c_hash] ++ 0 :: junk) (t ++ name_rest tl) = Ok (negb (bool_decide (t = []))).
Proof.
  intros Ht. destruct Ht as [|b t Hb Ht].
  - by destruct tl.
  - rewrite bool_decide_eq_false_2 by done. apply Z.eqb_neq in Hb.
    cbn [app match_loop]. by rewrite Hb.
Qed.

Lemma match_loop_levels fl tl junk :
  filter_wf fl -> tl <> [] -> Forall slash_free tl ->
  match_loop (join fl ++ 0 :: junk) (join tl) = Ok (levels_match false fl tl).
Proof.
  revert tl. induction fl as [|f fl IH]; intros tl Hf Hne Ht; [done|].
  destruct tl as [|t tl]; [done|]. apply Forall_cons in Ht as [Ht Htl].
  rewrite join_filter_rest, join_name_rest. cbn [levels_match].
  assert (Hlit : literal f -> f <> [c_plus] /\ f <> [c_hash]).
  { intros Hl. split; intros ->; by destruct (literal_not_wild _ _ Hl eq_refl). }
  assert (Hrest : f <> [c_hash] ->
    match_loop (filter_rest fl junk) (name_rest tl) = Ok (levels_match false fl tl)).
  { intros Hh. rewrite match_loop_rest. destruct fl as [|f' fl], tl as [|t' tl]; try done.
    destruct Hf as [_ Hf]. by apply IH. }
  assert (Hc : literal f \/ f = [c_plus] \/ (f = [c_hash] /\ fl = [])).
  { destruct fl; simpl in Hf; naive_solver. }
  destruct Hc as [Hl|[->|[-> ->]]].
  - destruct (Hlit Hl) as [H1 H2]. rewrite decide_False, decide_False by done.
    rewrite match_loop_literal, Hrest by done. by case_bool_decide.
  - rewrite decide_False, decide_True by done. cbn [orb].
    rewrite match_loop_plus, Hrest by done. by case_bool_decide.
  - rewrite decide_True by done. by apply match_loop_hash.
Qed.

Lemma strncmp_eq_spec s junk lit :
  Forall (fun c => c <> 0) lit ->
  strncmp_eq (s ++ 0 :: junk) lit = Ok (bool_decide (lit `prefix_of` s)).
Proof.
  intros Hl. revert s. induction Hl as [|c lit Hc Hl IH]; intros s; cbn [strncmp_eq].
  - rewrite bool_decide_eq_true_2; [done|apply prefix_nil].
  - destruct s as [|b s]; cbn [app].
    + destruct (Z.eqb_spec 0 c); [congruence|].
      rewrite bool_decide_eq_false_2; [done|]. by intros ?%prefix_nil_inv.
    + destruct (Z.eqb_spec b c) as [->|Hb].
      * rewrite IH. f_equal. apply bool_decide_ext. split; [apply prefix_cons|apply prefix_cons_inv_2].
      * rewrite bool_decide_eq_false_2; [done|]. intros ?%prefix_cons_inv_1. congruence.
Qed.

(** The name the filter is compared with: "$local/" is ignored. *)
Definition strip_local (s : list Z) : list Z :=
  if decide (local_prefix `prefix_of` s) then drop 7 s else s.

Lemma local_prefix_nonzero : Forall (fun c => c <> 0) local_prefix.
Proof. repeat constructor; done. Qed.

(** The function after its prologue. *)
Lemma mqtt_topic_matches_strip filter s junk :
  mqtt_topic_matches filter (s ++ 0 :: junk) (zlen s) =
  r ← match_loop filter (strip_local s); mret (c_bool r).
Proof.
  unfold mqtt_topic_matches, strip_local.
  rewrite strncmp_eq_spec by apply local_prefix_nonzero. cbn [mbind outcome_bind].
  case_decide as Hp.
  - rewrite bool_decide_eq_true_2 by done. destruct Hp as [s' ->].
    rewrite <- app_assoc. change (drop 7 (local_prefix ++ ?x)) with x.
    rewrite zlen_app. change (zlen local_prefix) with 7. pose proof (zlen_nonneg s').
    destruct (Z.ltb_spec (7 + zlen s' - 7) 0); [lia|].
    destruct (Z.ltb_spec (zlen (s' ++ 0 :: junk)) (7 + zlen s' - 7)).
    { autorewrite with fb in *. pose proof (zlen_nonneg junk). lia. }
    replace (Z.to_nat (7 + zlen s' - 7)) with (length s') by (unfold zlen; lia).
    by rewrite take_app_length.
  - rewrite bool_decide_eq_false_2 by done. pose proof (zlen_nonneg s).
    destruct (Z.ltb_spec (zlen s) 0); [lia|].
    destruct (Z.ltb_spec (zlen (s ++ 0 :: junk)) (zlen s)).
    { autorewrite with fb in *. pose proof (zlen_nonneg junk). lia. }
    replace (Z.to_nat (zlen s)) with (length s) by (unfold zlen; lia).
    by rewrite take_app_length.
Qed.

Lemma match_loop_total curf name : has_nul curf = true -> is_ok (match_loop curf name).
Proof.
  revert name. induction curf as [|f curf IH]; intros name Hn; [done|].
  cbn [match_loop]. destruct (f =? 0) eqn:Hf; [by eexists|].
  assert (Hn' : has_nul curf = true) by (unfold has_nul in *; simpl in Hn; by rewrite Hf in Hn).
  destruct name as [|n name]; [by eexists|].
  destruct ((n =? c_slash) && _); [by eexists|]. destruct (_ && _); [by eexists|].
  destruct (f =? c_plus); [by apply IH|]. destruct (f =? c_hash); by apply IH.
Qed.

Lemma topic_matches_ok fl s fjunk sjunk :
  filter_wf fl ->
  mqtt_topic_matches (join fl ++ 0 :: fjunk) (s ++ 0 :: sjunk) (zlen s)
  = Ok (c_bool (levels_match false fl (levels (strip_local s)))).
Proof.
  intros Hf. rewrite mqtt_topic_matches_strip.
  rewrite <- (join_levels (strip_local s)) at 1.
  by rewrite match_loop_levels by auto using levels_nonempty, levels_slash_free.
Qed.

(** C28.  For a well-formed filter, [mqtt_topic_matches] decides the level by
    level meaning of the filter: literal levels are equal, '+' stands for one
    non-empty level, a final '#' for everything from a non-empty level on; a
    leading "$local/" of the name is ignored. *)
Theorem mqtt_topic_matches_levels fl s fjunk sjunk :
  filter_wf fl ->
  mqtt_topic_matches (join fl ++ 0 :: fjunk) (s ++ 0 :: sjunk) (zlen s)
  = Ok (c_bool (levels_match false fl (levels (strip_local s)))).
Proof. apply topic_matches_ok. Qed.

Lemma mqtt_topic_matches_levels_witness :
  mqtt_topic_matches (join [[97]; [43]; [35]] ++ 0 :: [])
    ([97; 47; 98; 99; 47; 100; 47; 101] ++ 0 :: []) (zlen [97; 47; 98; 99; 47; 100; 47; 101])
  = Ok (c_bool (levels_match false [[97]; [43]; [35]]
      (levels (strip_local [97; 47; 98; 99; 47; 100; 47; 101])))).
Proof.
  apply mqtt_topic_matches_levels. simpl. split; [|split; [|auto]].
  - left. repeat constructor; discriminate.
  - by right.
Defined.

(**  [mqtt_topic_matches] is memory-safe and total on every filter, well
    formed or not, that is NUL-terminated, and every name whose buffer holds
    [topicLen] bytes and a NUL: it terminates, reads inside the two buffers
    only, and returns 0 or 1. *)
Theorem mqtt_topic_matches_safe filter s sjunk :
  has_nul filter = true ->
  mqtt_topic_matches filter (s ++ 0 :: sjunk) (zlen s) = Ok 0 \/
  mqtt_topic_matches filter (s ++ 0 :: sjunk) (zlen s) = Ok 1.
Proof.
  intros Hf. rewrite mqtt_topic_matches_strip.
  destruct (match_loop_total filter (strip_local s) Hf) as [[] ->]; [by right|by left].
Qed.

Lemma mqtt_topic_matches_safe_witness :
  mqtt_topic_matches [35; 35; 0] ([36; 108] ++ 0 :: []) (zlen [36; 108]) = Ok 0 \/
  mqtt_topic_matches [35; 35; 0] ([36; 108] ++ 0 :: []) (zlen [36; 108]) = Ok 1.
Proof. apply mqtt_topic_matches_safe. reflexivity. Defined.
