(* ===== verification/MqttEncode.v ===== *)
(** * Encoding of MQTT packets (src/mqtt_encode.c)

    Each encoder writes at the start of a buffer and returns the number of
    bytes written; the model returns the buffer after the call and that
    number.  [publish_packet] and its companions are the packets of the
    MQTT 3.1.1 text, as lists of bytes. *)

From S2P Require Import Prelude MqttPacket.

(** ** The functions of mqtt_encode.c *)

Definition mqtt_ping_response : list Z := [u8 (Z.shiftl (msg_type_code PINGRESP) 4); 0].

Definition packet_len (rem_len : Z) : outcome Z :=
  rem_len ← int_chk (rem_len + 1);
  rem_len ← int_chk (rem_len + (if rem_len <? 128 then 1
                                else if rem_len <? 16384 then 2
                                else if rem_len <? 2097151 then 3
                                else 4));
  mret (u32 rem_len).

Definition encode_header_byte (type dup qos retain : Z) : Z :=
  u8 (Z.lor (Z.lor (Z.lor (Z.shiftl type 4) (Z.shiftl dup 3)) (Z.shiftl qos 1)) retain).

(** The [do ... while (length > 0)] loop; [rc] counts the bytes written.
    Five rounds are enough for any [int]. *)
Fixpoint encode_rem_len_loop (fuel : nat) (buf : list Z) (off length rc : Z)
  : outcome (list Z * Z) :=
  match fuel with
  | O => Spin
  | S fuel =>
      let d := u8 (Z.rem length 128) in
      let length := Z.quot length 128 in
      let d := if 0 <? length then u8 (Z.lor d 128) else d in
      buf ← arr_set buf (off + rc) d;
      let rc := rc + 1 in
      if 0 <? length then encode_rem_len_loop fuel buf off length rc else mret (buf, rc)
  end.

Definition encode_rem_len (buf : list Z) (off length : Z) : outcome (list Z * Z) :=
  encode_rem_len_loop 5 buf off length 0.

Definition encode_short (buf : list Z) (off anInt : Z) : outcome (list Z * Z) :=
  let anInt := u16 anInt in
  '(buf, off) ← put_byte buf off (anInt / 256);
  put_byte buf off (anInt mod 256).

Definition encode_string (buf : list Z) (off : Z) (string : list Z) (len : Z)
  : outcome (list Z * Z) :=
  '(buf, off) ← encode_short buf off len;
  if 0 <? len
  then src ← arr_read string len;
       buf ← arr_blit buf off src;
       mret (buf, off + len)
  else mret (buf, off).

(** A buffer that is too short is only logged here. *)
Definition encode_conack (buf : list Z) (len session_present rc : Z) : outcome (list Z * Z) :=
  '(buf, ptr) ← put_byte buf 0 (encode_header_byte (msg_type_code CONNACK) 0 0 0);
  '(buf, n) ← encode_rem_len buf ptr 2;
  let ptr := ptr + n in
  '(buf, ptr) ← put_byte buf ptr session_present;
  put_byte buf ptr rc.

Definition encode_ack (buf : list Z) (len packettype dup packetid : Z) : outcome (list Z * Z) :=
  if len <? 4 then mret (buf, 0)
  else
    '(buf, ptr) ← put_byte buf 0
      (encode_header_byte packettype dup (c_bool (packettype =? msg_type_code PUBREL)) 0);
    '(buf, n) ← encode_rem_len buf ptr 2;
    encode_short buf (ptr + n) packetid.

(** A buffer that is too short is only logged here. *)
Definition encode_zero (buf : list Z) (len packettype : Z) : outcome (list Z * Z) :=
  '(buf, ptr) ← put_byte buf 0 (encode_header_byte packettype 0 0 0);
  '(buf, n) ← encode_rem_len buf ptr 0;
  mret (buf, ptr + n).

(** The parameters are [int]: the callers' unsigned lengths are converted. *)
Definition publish_len (qos topic_len payload_len : Z) : outcome Z :=
  len ← int_chk (2 + i32 topic_len);
  len ← int_chk (len + i32 payload_len);
  len ← (if 0 <? qos then int_chk (len + 2) else mret len);
  mret (u32 len).

Definition encode_publish (buf : list Z) (len : Z) (mp : message_st) (qos msg_id : Z)
  : outcome (list Z * Z) :=
  rem_len ← publish_len qos (m_topic_len mp) (m_payload_len mp);
  plen ← packet_len (i32 rem_len);
  if len <? plen then mret (buf, 0)
  else
    '(buf, ptr) ← put_byte buf 0
      (encode_header_byte (msg_type_code PUBLISH) (m_dup mp) qos (m_retain mp));
    '(buf, n) ← encode_rem_len buf ptr (i32 rem_len);
    let ptr := ptr + n in
    '(buf, ptr) ← encode_string buf ptr (m_topic mp) (m_topic_len mp);
    '(buf, ptr) ← (if 0 <? qos then encode_short buf ptr msg_id else mret (buf, ptr));
    src ← arr_read (m_payload mp) (m_payload_len mp);
    buf ← arr_blit buf ptr src;
    mret (buf, ptr + m_payload_len mp).

(** [for (i = 0; i < count; ++i) *ptr++ = grantedQoSs[i]] *)
Fixpoint put_qoss (n : nat) (i : Z) (grantedQoSs buf : list Z) (off : Z)
  : outcome (list Z * Z) :=
  match n with
  | O => mret (buf, off)
  | S n =>
      q ← arr_get grantedQoSs i;
      '(buf, off) ← put_byte buf off q;
      put_qoss n (i + 1) grantedQoSs buf off
  end.

Definition encode_suback (buf : list Z) (buflen packetid count : Z) (grantedQoSs : list Z)
  : outcome (list Z * Z) :=
  if buflen <? 2 + count then mret (buf, 0)
  else
    '(buf, ptr) ← put_byte buf 0 (Z.shiftl (msg_type_code SUBACK) 4);
    '(buf, n) ← encode_rem_len buf ptr (2 + count);
    '(buf, ptr) ← encode_short buf (ptr + n) packetid;
    put_qoss (Z.to_nat count) 0 grantedQoSs buf ptr.

Definition encode_unsuback (buf : list Z) (buflen packetid : Z) : outcome (list Z * Z) :=
  if buflen <? 4 then Halt
  else
    '(buf, ptr) ← put_byte buf 0 (Z.shiftl (msg_type_code UNSUBACK) 4);
    '(buf, n) ← encode_rem_len buf ptr 2;
    encode_short buf (ptr + n) packetid.

(** ** The packets *)

(** The variable-length encoding of the remaining length, least significant
    group of seven bits first. *)
Fixpoint var_int (fuel : nat) (n : Z) : list Z :=
  match fuel with
  | O => []
  | S fuel => if n / 128 =? 0 then [n mod 128]
              else (n mod 128 + 128) :: var_int fuel (n / 128)
  end.

Definition rem_len_bytes (n : Z) : list Z := var_int 5 n.

Definition be16 (n : Z) : list Z := [n / 256; n mod 256].

Definition msg_topic (m : message_st) : list Z := take (Z.to_nat (m_topic_len m)) (m_topic m).
Definition msg_payload (m : message_st) : list Z :=
  take (Z.to_nat (m_payload_len m)) (m_payload m).

Definition publish_body (m : message_st) (qos msg_id : Z) : list Z :=
  be16 (m_topic_len m) ++ msg_topic m ++
  (if 0 <? qos then be16 msg_id else []) ++ msg_payload m.

Definition publish_packet (m : message_st) (qos msg_id : Z) : list Z :=
  encode_header_byte 3 (m_dup m) qos (m_retain m) ::
  rem_len_bytes (zlen (publish_body m qos msg_id)) ++ publish_body m qos msg_id.

(** ** Lemmas *)

Lemma lor_128 d : 0 <= d < 128 -> Z.lor d 128 = d + 128.
Proof.
  intros Hd. rewrite Z.lor_comm. change 128 with (Z.shiftl 1 7) at 1.
  rewrite lor_shiftl_add by lia. lia.
Qed.

Lemma var_int_unfold fuel n :
  var_int (S fuel) n =
    if n / 128 =? 0 then [n mod 128] else (n mod 128 + 128) :: var_int fuel (n / 128).
Proof. done. Qed.

Lemma length_var_int_pos fuel n : (0 < fuel)%nat -> 1 <= zlen (var_int fuel n).
Proof.
  destruct fuel; [lia|]. intros _. rewrite var_int_unfold.
  destruct (_ =? _); autorewrite with fb; [lia|]. pose proof (zlen_nonneg (var_int fuel (n / 128))). lia.
Qed.

Lemma var_int_bytes fuel n : 0 <= n -> bytes (var_int fuel n).
Proof.
  revert n. induction fuel as [|fuel IH]; intros n Hn; [constructor|].
  rewrite var_int_unfold. unfold bytes.
  destruct (_ =? _); repeat constructor; try (unfold is_byte; Z.div_mod_to_equations; lia).
  apply IH. apply Z.div_pos; lia.
Qed.

Lemma encode_rem_len_loop_ok fuel front done out rest n :
  0 <= n < 128 ^ Z.of_nat fuel -> (0 < fuel)%nat -> length out = length (var_int fuel n) ->
  encode_rem_len_loop fuel (front ++ done ++ out ++ rest) (zlen front) n (zlen done)
  = Ok (front ++ done ++ var_int fuel n ++ rest, zlen done + zlen (var_int fuel n)).
Proof.
  revert n done out. induction fuel as [|fuel IH]; intros n done out Hn Hf Ho; [lia|].
  rewrite Nat2Z.inj_succ, Z.pow_succ_r in Hn by lia.
  cbn [encode_rem_len_loop]. rewrite var_int_unfold in *.
  rewrite Z.rem_mod_nonneg, Z.quot_div_nonneg by lia.
  assert (0 <= n mod 128 < 128) by (Z.div_mod_to_equations; lia).
  rewrite (u8_small (n mod 128)) by lia.
  rewrite app_assoc, <- zlen_app.
  assert (0 <= n / 128) by (apply Z.div_pos; lia).
  destruct (Z.eqb_spec (n / 128) 0) as [Hz|Hz].
  - rewrite Hz. change (0 <? 0) with false. cbv iota.
    destruct out as [|x [|]]; try done. cbn [app].
    rewrite arr_set_app_mid. cbn. by rewrite <- app_assoc.
  - destruct (Z.ltb_spec 0 (n / 128)); [|lia].
    rewrite lor_128, u8_small by lia.
    destruct out as [|x out]; [done|]. cbn [app]. rewrite arr_set_app_mid.
    cbn [mbind outcome_bind]. destruct fuel as [|fuel].
    { simpl in Hn. Z.div_mod_to_equations. lia. }
    replace (zlen done + 1) with (zlen (done ++ [n mod 128 + 128])) by (by autorewrite with fb).
    rewrite cons_middle, <- !app_assoc, (app_assoc done), IH.
    + autorewrite with fb. rewrite <- !app_assoc. do 2 f_equal. lia.
    + split; [lia|]. apply Z.div_lt_upper_bound; lia.
    + lia.
    + by simplify_eq/=.
Qed.

Lemma encode_rem_len_ok front out rest n :
  0 <= n <= int_max -> length out = length (rem_len_bytes n) ->
  encode_rem_len (front ++ out ++ rest) (zlen front) n
  = Ok (front ++ rem_len_bytes n ++ rest, zlen (rem_len_bytes n)).
Proof.
  intros Hn Ho. unfold encode_rem_len.
  pose proof (encode_rem_len_loop_ok 5 front [] out rest n) as He.
  change (zlen (@nil Z)) with 0 in He. apply He; [|lia|done].
  unfold int_max in Hn. change (128 ^ Z.of_nat 5) with (2 ^ 35). lia.
Qed.

Lemma zlen_rem_len_bytes n :
  0 <= n < 2 ^ 28 ->
  zlen (rem_len_bytes n) =
    if n <? 128 then 1 else if n <? 16384 then 2 else if n <? 2097152 then 3 else 4.
Proof.
  intros Hn. unfold rem_len_bytes.
  repeat match goal with |- context [?a <? ?b] => destruct (Z.ltb_spec a b) end;
    repeat (rewrite var_int_unfold;
      match goal with |- context [?x / 128 =? 0] =>
        destruct (Z.eqb_spec (x / 128) 0); [try reflexivity; Z.div_mod_to_equations; lia|]
      end; autorewrite with fb);
    try (Z.div_mod_to_equations; lia).
Qed.

Lemma u8_u16_div v : u8 (u16 v / 256) = u16 v / 256.
Proof. pose proof (u16_range v). apply u8_small. Z.div_mod_to_equations. lia. Qed.

Lemma u8_mod_256 v : u8 (v mod 256) = v mod 256.
Proof. apply u8_small. Z.div_mod_to_equations. lia. Qed.

Lemma zlen_be16 v : zlen (be16 v) = 2.
Proof. done. Qed.
#[export] Hint Rewrite zlen_be16 : fb.

Lemma encode_short_ok front x y rest v :
  encode_short (front ++ x :: y :: rest) (zlen front) v
  = Ok ((front ++ be16 (u16 v)) ++ rest, zlen (front ++ be16 (u16 v))).
Proof.
  unfold encode_short. rewrite put_byte_ok. cbn [mbind outcome_bind].
  rewrite put_byte_ok, u8_u16_div, u8_mod_256. unfold be16. by rewrite <- !app_assoc.
Qed.

Lemma encode_string_ok front out rest s k len :
  zlen s = len -> len < 65536 -> length out = S (S (length s)) ->
  encode_string (front ++ out ++ rest) (zlen front) (s ++ k) len
  = Ok ((front ++ be16 len ++ s) ++ rest, zlen (front ++ be16 len ++ s)).
Proof.
  intros Hs Hl Ho. pose proof (zlen_nonneg s). unfold encode_string.
  destruct out as [|x [|y out]]; try done. cbn [app].
  rewrite encode_short_ok, u16_small by lia. cbn [mbind outcome_bind].
  destruct (Z.ltb_spec 0 len).
  - rewrite arr_read_ok by done. cbn [mbind outcome_bind].
    rewrite arr_blit_ok by (by simplify_eq/=). cbn.
    rewrite <- !app_assoc. repeat f_equal. autorewrite with fb. lia.
  - assert (length s = 0%nat) as Hs0 by (unfold zlen in *; lia).
    destruct s; [|done]. destruct out; [|done]. by rewrite app_nil_r.
Qed.

Lemma u8_header t d q r : u8 (encode_header_byte t d q r) = encode_header_byte t d q r.
Proof. apply Z.mod_mod. lia. Qed.

(** A piece of buffer of the size of [l] can be cut off a long enough one. *)
Lemma split_len {A} (l r : list A) :
  (length l <= length r)%nat ->
  exists out rest, r = out ++ rest /\ length out = length l.
Proof.
  intros Hl. exists (take (length l) r), (drop (length l) r).
  rewrite take_drop, length_take. split; [done|lia].
Qed.

Lemma message_topic_split m :
  message_wf m -> exists k, m_topic m = msg_topic m ++ k /\ zlen (msg_topic m) = m_topic_len m.
Proof.
  intros [Ht _ Htl _ _]. exists (drop (Z.to_nat (m_topic_len m)) (m_topic m)).
  unfold msg_topic. rewrite take_drop. split; [done|].
  unfold zlen in *. rewrite length_take. lia.
Qed.

Lemma message_payload_split m :
  message_wf m ->
  exists k, m_payload m = msg_payload m ++ k /\ zlen (msg_payload m) = m_payload_len m.
Proof.
  intros [_ Hp _ Hpl _]. exists (drop (Z.to_nat (m_payload_len m)) (m_payload m)).
  unfold msg_payload. rewrite take_drop. split; [done|].
  unfold zlen in *. rewrite length_take. lia.
Qed.

Lemma zlen_publish_body m qos msg_id :
  message_wf m ->
  zlen (publish_body m qos msg_id)
  = 2 + m_topic_len m + m_payload_len m + (if 0 <? qos then 2 else 0).
Proof.
  intros Hm. destruct (message_topic_split m Hm) as (? & _ & Ht).
  destruct (message_payload_split m Hm) as (? & _ & Hp).
  unfold publish_body, be16. destruct (0 <? qos); autorewrite with fb; lia.
Qed.

Lemma publish_len_ok m qos msg_id :
  message_wf m -> m_payload_len m < 2 ^ 27 ->
  publish_len qos (m_topic_len m) (m_payload_len m) = Ok (zlen (publish_body m qos msg_id)).
Proof.
  intros Hm Hp. rewrite zlen_publish_body by done.
  pose proof (mw_topic_len m Hm). pose proof (mw_payload_len m Hm). unfold publish_len.
  rewrite !i32_small by (unfold int_min, int_max; lia).
  do 2 (rewrite int_chk_ok by (unfold int_min, int_max; lia); cbn [mbind outcome_bind]).
  destruct (0 <? qos); cbn [mbind outcome_bind].
  - rewrite int_chk_ok by (unfold int_min, int_max; lia). cbn. f_equal. rewrite u32_small; lia.
  - cbn. f_equal. rewrite u32_small; lia.
Qed.

(** [packet_len] is the length of the packet, or one more. *)
Lemma packet_len_ok n :
  0 <= n < 2 ^ 28 - 1 ->
  exists p, packet_len n = Ok p /\
    1 + zlen (rem_len_bytes n) + n <= p <= 2 + zlen (rem_len_bytes n) + n /\ 0 <= p < 2 ^ 31.
Proof.
  intros Hn. rewrite zlen_rem_len_bytes by lia. unfold packet_len.
  rewrite int_chk_ok by (unfold int_min, int_max; lia). cbn [mbind outcome_bind].
  repeat match goal with |- context [?a <? ?b] => destruct (Z.ltb_spec a b) end; try lia;
    (rewrite int_chk_ok by (unfold int_min, int_max; lia); cbn [mbind outcome_bind];
     eexists; split; [done|]; rewrite u32_small; lia).
Qed.

(** [encode_publish] writes the packet. *)
Lemma encode_publish_ok m qos msg_id out rest :
  message_wf m -> m_payload_len m < 2 ^ 27 -> 0 <= msg_id < 65536 ->
  length out = length (publish_packet m qos msg_id) ->
  forall len p, packet_len (zlen (publish_body m qos msg_id)) = Ok p -> p <= len ->
  encode_publish (out ++ rest) len m qos msg_id
  = Ok (publish_packet m qos msg_id ++ rest, zlen (publish_packet m qos msg_id)).
Proof.
  intros Hm Hpl Hid Ho len p Hp Hlen. unfold encode_publish.
  rewrite (publish_len_ok m qos msg_id) by done. cbn [mbind outcome_bind].
  pose proof (zlen_publish_body m qos msg_id Hm) as Hb.
  pose proof (mw_topic_len m Hm). pose proof (mw_payload_len m Hm).
  assert (0 <= zlen (publish_body m qos msg_id) < 2 ^ 28) by (destruct (0 <? qos); lia).
  rewrite i32_small by (unfold int_min, int_max; lia). rewrite Hp. cbn [mbind outcome_bind].
  destruct (Z.ltb_spec len p); [lia|].
  unfold publish_packet, publish_body in Ho |- *.
  destruct (message_topic_split m Hm) as (tk & Ht & Htl).
  destruct (message_payload_split m Hm) as (pk & Hpk & Hpkl).
  set (pid := if 0 <? qos then be16 msg_id else []) in *.
  set (body := be16 (m_topic_len m) ++ msg_topic m ++ pid ++ msg_payload m) in *.
  change (publish_body m qos msg_id) with body in *.
  destruct out as [|x out]; [done|]. cbn [length app] in Ho. injection Ho as Ho.
  rewrite length_app in Ho.
  assert (length body = length (be16 (m_topic_len m) ++ msg_topic m) + length pid
    + length (msg_payload m))%nat as Hbl by (unfold body; rewrite !length_app; lia).
  destruct (split_len (rem_len_bytes (zlen body)) out) as (o1 & out' & -> & Ho1); [lia|].
  rewrite length_app in Ho.
  destruct (split_len (be16 (m_topic_len m) ++ msg_topic m) out') as (o2 & out'' & -> & Ho2).
  { lia. }
  rewrite length_app in Ho.
  destruct (split_len pid out'') as (o3 & o4 & -> & Ho3).
  { lia. }
  rewrite length_app in Ho.
  assert (length o4 = length (msg_payload m)) as Ho4.
  { lia. }
  cbn [app]. rewrite put_byte_0, u8_header. cbn [mbind outcome_bind].
  change (msg_type_code PUBLISH) with 3. set (h := encode_header_byte _ _ _ _).
  rewrite <- !app_assoc, encode_rem_len_ok by (done || unfold int_max; lia).
  cbn [mbind outcome_bind]. rewrite <- zlen_app, app_assoc, Ht.
  rewrite encode_string_ok; [|done|lia|by rewrite length_app in Ho2]. cbn [mbind outcome_bind].
  set (f := (([h] ++ rem_len_bytes _) ++ _)).
  assert ((if 0 <? qos then encode_short (f ++ o3 ++ o4 ++ rest) (zlen f) msg_id
           else mret (f ++ o3 ++ o4 ++ rest, zlen f))
          = Ok ((f ++ pid) ++ o4 ++ rest, zlen (f ++ pid))) as ->.
  { unfold pid in *. destruct (0 <? qos).
    - destruct o3 as [|x1 [|x2 [|]]]; try done. cbn [app].
      by rewrite encode_short_ok, u16_small by lia.
    - destruct o3; [|done]. by rewrite app_nil_r. }
  cbn [mbind outcome_bind]. rewrite Hpk, arr_read_ok by done. cbn [mbind outcome_bind].
  rewrite arr_blit_ok by done. cbn [mbind outcome_bind mret outcome_ret].
  unfold f, body. rewrite <- Hpkl. autorewrite with fb. rewrite <- !app_assoc. cbn [app].
  do 2 f_equal. lia.
Qed.

Lemma put_qoss_ok n i pre qs front out rest :
  length out = n -> length qs = n -> i = zlen pre ->
  put_qoss n i (pre ++ qs) (front ++ out ++ rest) (zlen front)
  = Ok ((front ++ (u8 <$> qs)) ++ rest, zlen (front ++ (u8 <$> qs))).
Proof.
  revert i pre qs front out. induction n as [|n IH]; intros i pre qs front out Ho Hq ->.
  - destruct out, qs; try done. change (u8 <$> []) with (@nil Z). by rewrite !app_nil_r.
  - destruct out as [|x out], qs as [|q qs]; try done. cbn [put_qoss app].
    replace (zlen pre) with (zlen pre + 0) at 1 by lia.
    rewrite (arr_get_app _ _ _ q) by (done || lia). cbn [mbind outcome_bind].
    rewrite put_byte_ok. cbn [mbind outcome_bind].
    rewrite (cons_middle q), app_assoc, (IH _ (pre ++ [q]) qs _ out);
      [|by injection Ho|by injection Hq|autorewrite with fb; lia].
    by rewrite <- !app_assoc.
Qed.

(** C15.  [encode_publish] is correct and never writes outside its buffer: for
    a well-formed message it either leaves the buffer alone and returns 0,
    and then the packet does not fit or fills the buffer exactly, or it
    writes exactly the PUBLISH packet at the start of the buffer, leaves the
    rest as it was, and returns the length of the packet. *)
Theorem encode_publish_correct m qos msg_id buf :
  message_wf m -> m_payload_len m < 2 ^ 27 -> 0 <= msg_id < 65536 ->
  (encode_publish buf (zlen buf) m qos msg_id = Ok (buf, 0) /\
   zlen buf <= zlen (publish_packet m qos msg_id)) \/
  (encode_publish buf (zlen buf) m qos msg_id
   = Ok (publish_packet m qos msg_id ++ drop (length (publish_packet m qos msg_id)) buf,
         zlen (publish_packet m qos msg_id)) /\
   zlen (publish_packet m qos msg_id) <= zlen buf).
Proof.
  intros Hm Hpl Hid. pose proof (zlen_publish_body m qos msg_id Hm) as Hb.
  pose proof (mw_topic_len m Hm). pose proof (mw_payload_len m Hm).
  assert (0 <= zlen (publish_body m qos msg_id) < 2 ^ 28 - 1) as Hr
    by (destruct (0 <? qos); lia).
  assert (zlen (publish_packet m qos msg_id) = 1 + zlen (rem_len_bytes
    (zlen (publish_body m qos msg_id))) + zlen (publish_body m qos msg_id)) as Hz.
  { unfold publish_packet. autorewrite with fb. lia. }
  destruct (packet_len_ok _ Hr) as (p & Hp & Hpb & _).
  destruct (Z.ltb_spec (zlen buf) p) as [Hlt|Hge].
  - left. split; [|lia]. unfold encode_publish.
    rewrite (publish_len_ok m qos msg_id) by done. cbn [mbind outcome_bind].
    rewrite i32_small by (unfold int_min, int_max; lia). rewrite Hp. cbn [mbind outcome_bind].
    by destruct (Z.ltb_spec (zlen buf) p); [|lia].
  - right. split; [|lia].
    destruct (split_len (publish_packet m qos msg_id) buf) as (out & rest & Hbuf & Ho).
    { unfold zlen in *. lia. }
    subst buf. rewrite <- Ho, drop_app_length. by eapply encode_publish_ok.
Qed.

Definition example_message : message_st :=
  {| m_state := M_STATE_IN_USE; m_dup := 0; m_orig_qos := 1; m_retain := 0;
     m_packet_id := 7; m_topic_len := 3; m_payload_len := 2;
     m_topic := [97; 47; 98; 0]; m_payload := [104; 105; 0]; m_client := 0;
     m_not_done := replicate 64 0 |}.

Lemma encode_publish_correct_witness :
  encode_publish (replicate 20 0) (zlen (replicate 20 0)) example_message 1 258
  = Ok ([50; 9; 0; 3; 97; 47; 98; 1; 2; 104; 105] ++ drop 11 (replicate 20 0), 11).
Proof.
  destruct (encode_publish_correct example_message 1 258 (replicate 20 0))
    as [[_ Hx]|[H _]].
  - by constructor; vm_compute.
  - by vm_compute.
  - by vm_compute.
  - exfalso. vm_compute in Hx. congruence.
  - exact H.
Defined.

(** The packets of fixed size. *)
Lemma encode_fixed_ok buf len type dup pid session rc a b c d rest :
  buf = a :: b :: c :: d :: rest ->
  0 <= type < 16 -> 0 <= dup <= 1 -> 0 <= pid < 65536 -> is_byte session -> is_byte rc ->
  encode_ack buf len type dup pid =
    (if len <? 4 then Ok (buf, 0)
     else Ok ([type * 16 + dup * 8 + (if type =? 6 then 2 else 0); 2; pid / 256; pid mod 256]
              ++ rest, 4)) /\
  encode_conack buf len session rc = Ok ([32; 2; session; rc] ++ rest, 4) /\
  encode_zero buf len type = Ok ([type * 16; 0] ++ c :: d :: rest, 2) /\
  (4 <= len -> encode_unsuback buf len pid = Ok ([176; 2; pid / 256; pid mod 256] ++ rest, 4)).
Proof.
  intros -> Ht Hd Hp Hs Hr.
  assert (forall h q r, encode_rem_len (h :: q :: r) 1 2 = Ok (h :: 2 :: r, 1)) as H2.
  { intros. by apply (encode_rem_len_ok [h] [q] r 2). }
  assert (forall h q r, encode_rem_len (h :: q :: r) 1 0 = Ok (h :: 0 :: r, 1)) as H0.
  { intros. by apply (encode_rem_len_ok [h] [q] r 0). }
  assert (forall h1 h2 x y r, encode_short (h1 :: h2 :: x :: y :: r) 2 pid
    = Ok (h1 :: h2 :: pid / 256 :: pid mod 256 :: r, 4)) as Hsh.
  { intros. pose proof (encode_short_ok [h1; h2] x y r pid) as Hx.
    rewrite u16_small in Hx by lia. exact Hx. }
  assert (forall q, 0 <= q <= 1 -> encode_header_byte type dup q 0 = type * 16 + dup * 8 + 2 * q) as Hh.
  { intros q Hq. unfold encode_header_byte. rewrite Z.lor_0_r.
    assert (dup = 0 \/ dup = 1) as [-> | ->] by lia; assert (q = 0 \/ q = 1) as [-> | ->] by lia;
      rewrite <- !Z.lor_assoc;
      match goal with |- context [Z.lor (Z.shiftl type 4) ?lo] =>
        let v := eval vm_compute in lo in change lo with v end;
      rewrite lor_shiftl_add by lia; rewrite u8_small; lia. }
  split_and!.
  - unfold encode_ack. destruct (len <? 4); [done|].
    rewrite put_byte_0, u8_header. cbn [mbind outcome_bind app].
    change (zlen [?z]) with 1.
    rewrite H2. cbn [mbind outcome_bind]. rewrite Hsh, Hh.
    + change (msg_type_code PUBREL) with 6. by destruct (type =? 6).
    + unfold c_bool. destruct (_ =? _); lia.
  - unfold encode_conack. rewrite put_byte_0, u8_header. cbn [mbind outcome_bind app].
    rewrite H2. cbn [mbind outcome_bind]. change (zlen [_] + 1) with 2.
    pose proof (put_byte_ok [encode_header_byte (msg_type_code CONNACK) 0 0 0; 2] c (d :: rest) session) as Hc.
    cbn [app] in Hc. change (zlen [_; _]) with 2 in Hc. change (zlen [_; _; _]) with 3 in Hc. rewrite Hc. cbn [mbind outcome_bind app].
    pose proof (put_byte_ok [encode_header_byte (msg_type_code CONNACK) 0 0 0; 2; u8 session] d rest rc) as Hc'.
    cbn [app] in Hc'. change (zlen [_; _; _]) with 3 in Hc'. rewrite Hc'.
    unfold is_byte in *. by rewrite !u8_small by lia.
  - unfold encode_zero. rewrite put_byte_0, u8_header. cbn [mbind outcome_bind app].
    change (zlen [_]) with 1. rewrite H0. cbn. unfold encode_header_byte.
    rewrite !Z.lor_0_r, Z.shiftl_mul_pow2, u8_small by lia. done.
  - intros Hl. unfold encode_unsuback. destruct (Z.ltb_spec len 4); [lia|].
    rewrite put_byte_0. cbn [mbind outcome_bind app].
    change (zlen [?z]) with 1.
    rewrite H2. cbn [mbind outcome_bind]. by rewrite Hsh.
Qed.

(**  The packets of fixed size: on a buffer of at least four bytes the
    acknowledgements, CONNACK and UNSUBACK write exactly their four bytes and
    [encode_zero] its two, with the flag bits MQTT prescribes (PUBREL carries
    QoS 1), and return that number; [encode_ack] refuses a shorter buffer. *)
Theorem encode_fixed_correct buf len type dup pid session rc a b c d rest :
  buf = a :: b :: c :: d :: rest ->
  0 <= type < 16 -> 0 <= dup <= 1 -> 0 <= pid < 65536 -> is_byte session -> is_byte rc ->
  encode_ack buf len type dup pid =
    (if len <? 4 then Ok (buf, 0)
     else Ok ([type * 16 + dup * 8 + (if type =? 6 then 2 else 0); 2; pid / 256; pid mod 256]
              ++ rest, 4)) /\
  encode_conack buf len session rc = Ok ([32; 2; session; rc] ++ rest, 4) /\
  encode_zero buf len type = Ok ([type * 16; 0] ++ c :: d :: rest, 2) /\
  (4 <= len -> encode_unsuback buf len pid = Ok ([176; 2; pid / 256; pid mod 256] ++ rest, 4)).
Proof. apply encode_fixed_ok. Qed.

Lemma encode_fixed_correct_witness :
  encode_ack (replicate 8 0) 8 6 0 513 =
    Ok ([6 * 16 + 0 * 8 + 2; 2; 513 / 256; 513 mod 256] ++ replicate 4 0, 4).
Proof.
  destruct (encode_fixed_correct (replicate 8 0) 8 6 0 513 0 5 0 0 0 0 (replicate 4 0))
    as (H & _); try (unfold is_byte; lia); [reflexivity|exact H].
Defined.

Lemma encode_suback_ok x y out rest len pid qs :
  length out = S (S (length qs)) -> zlen qs <= 125 -> 0 <= pid < 65536 -> 2 + zlen qs <= len ->
  bytes qs ->
  encode_suback (x :: y :: out ++ rest) len pid (zlen qs) qs
  = Ok ([144; 2 + zlen qs] ++ (be16 pid ++ qs) ++ rest, 4 + zlen qs).
Proof.
  intros Ho Hq Hp Hl Hb. pose proof (zlen_nonneg qs). unfold encode_suback.
  destruct (Z.ltb_spec len (2 + zlen qs)); [lia|].
  rewrite put_byte_0. cbn [mbind outcome_bind app].
  assert (rem_len_bytes (2 + zlen qs) = [2 + zlen qs]) as Hr.
  { unfold rem_len_bytes. rewrite var_int_unfold.
    destruct (Z.eqb_spec ((2 + zlen qs) / 128) 0); [|Z.div_mod_to_equations; lia].
    f_equal. Z.div_mod_to_equations; lia. }
  pose proof (encode_rem_len_ok [u8 (Z.shiftl (msg_type_code SUBACK) 4)] [y] (out ++ rest)
    (2 + zlen qs)) as He.
  rewrite Hr in He. cbn [app] in He. rewrite He by (done || unfold int_max; lia).
  cbn [mbind outcome_bind]. change (zlen [_] + zlen [_]) with 2.
  destruct out as [|p1 [|p2 out]]; try done.
  pose proof (encode_short_ok [u8 (Z.shiftl (msg_type_code SUBACK) 4); 2 + zlen qs] p1 p2
    (out ++ rest) pid) as Hs.
  rewrite u16_small in Hs by lia. cbn [app] in Hs |- *. change (zlen [_; _]) with 2 in Hs.
  rewrite Hs. cbn [mbind outcome_bind].
  pose proof (put_qoss_ok (length qs) 0 [] qs
    (u8 (Z.shiftl (msg_type_code SUBACK) 4) :: 2 + zlen qs :: be16 pid) out rest) as Hput.
  assert (u8 <$> qs = qs) as Hu.
  { clear - Hb. induction Hb as [|q qs Hq Hb IH]; [done|]. rewrite fmap_cons, IH.
    by rewrite u8_small by (unfold is_byte in Hq; lia). }
  rewrite Hu in Hput. replace (Z.to_nat (zlen qs)) with (length qs) by (unfold zlen; lia).
  cbn [app] in Hput. rewrite Hput; [|by simplify_eq/=|done|done].
  do 2 f_equal; autorewrite with fb; lia.
Qed.

(** On a buffer of at least [4 + count] bytes, for up to 125 filters,
    [encode_suback] writes exactly the SUBACK packet with the granted QoS
    values in order.  Its own length test is two bytes short of that: with a
    buffer of exactly [2 + count] bytes it passes the test and writes outside
    the buffer. *)
Theorem encode_suback_correct buf pid qs :
  bytes qs -> zlen qs <= 125 -> 0 <= pid < 65536 ->
  (4 + zlen qs <= zlen buf ->
   encode_suback buf (zlen buf) pid (zlen qs) qs
   = Ok ([144; 2 + zlen qs] ++ (be16 pid ++ qs) ++ drop (4 + length qs) buf, 4 + zlen qs)) /\
  (zlen buf < 2 + zlen qs -> encode_suback buf (zlen buf) pid (zlen qs) qs = Ok (buf, 0)) /\
  encode_suback [0; 0; 0] 3 pid 1 [0] = Undef OutOfBounds.
Proof.
  intros Hb Hq Hp. split_and!.
  - intros Hl. destruct buf as [|x [|y buf]]; autorewrite with fb in Hl;
      pose proof (zlen_nonneg qs); try lia.
    destruct (split_len (0 :: 0 :: qs) buf) as (out & rest & -> & Ho).
    { unfold zlen in *. simpl. lia. }
    replace (drop _ _) with rest.
    { apply encode_suback_ok; try done. autorewrite with fb. pose proof (zlen_nonneg rest).
      unfold zlen in *. simpl in Ho. lia. }
    simpl in Ho. change (4 + length qs)%nat with (2 + S (S (length qs)))%nat.
    rewrite <- Ho. cbn [plus drop]. by rewrite drop_app_length.
  - intros Hl. unfold encode_suback. by destruct (Z.ltb_spec (zlen buf) (2 + zlen qs)); [|lia].
  - unfold encode_suback. cbn. unfold encode_short. cbn.
    destruct (decide (u16 pid = 0)); reflexivity.
Qed.

Lemma encode_suback_correct_witness :
  encode_suback (replicate 8 9) (zlen (replicate 8 9)) 258 (zlen [0; 1]) [0; 1]
  = Ok ([144; 2 + zlen [0; 1]] ++ (be16 258 ++ [0; 1]) ++ drop (4 + length [0; 1]) (replicate 8 9),
        4 + zlen [0; 1]).
Proof.
  apply (encode_suback_correct (replicate 8 9) 258 [0; 1]);
    [repeat constructor; vm_compute; congruence|vm_compute; congruence|lia|vm_compute; congruence].
Defined.
