(* ===== verification/ClientTypes.v ===== *)
(** * Structures of the parser and of a client session
    (src/mqtt_parser.h, src/client.h, src/subscription.h)

    A client embeds its MQTT parser.  Objects reached through pointers are
    named by an index: [c_addr] stands for the address of the structure
    itself, [c_worker] and [c_server] for the worker and server it belongs
    to.  The list nodes embedded in a client ([clients_node], [ka_node], the
    [sub_node] of each subscription) are cells of a node heap, addressed by
    [node_addr]. *)

From S2P Require Import Prelude MqttPacket.

Definition MAX_ID_LEN : Z := 127.
Definition MAX_TOPIC_LEN : Z := 127.
Definition MAX_PAYLOAD_LEN : Z := 4096.
Definition MAX_NUM_TOPICS : Z := 10.
Definition MAX_SUBS : Z := 12.

(** ** mqtt_parser.h *)

Record flags_s := mk_flags {
  f_will : Z;
  f_will_qos : Z;
  f_will_retain : Z;
  f_cleansession : Z;
  f_username_present : Z;
  f_password_present : Z
}.
#[export] Instance eta_flags : Eta flags_s := fun f =>
  mk_flags (f_will f) (f_will_qos f) (f_will_retain f) (f_cleansession f)
    (f_username_present f) (f_password_present f).

Record connect_st := mk_connect {
  co_flags : flags_s;
  co_protocol : list Z;
  co_u16 : Z;
  co_will_topic_len : Z;
  co_will_topic : list Z;
  co_password : list Z
}.
#[export] Instance eta_connect : Eta connect_st := fun c =>
  mk_connect (co_flags c) (co_protocol c) (co_u16 c) (co_will_topic_len c)
    (co_will_topic c) (co_password c).

Record subscribe_st := mk_subscribe {
  su_packet_id : Z;
  su_u16 : Z;
  su_num_filters : Z;
  su_filter_lengths : list Z;
  su_filters : list (option (list Z));
  su_qos : list Z
}.
#[export] Instance eta_subscribe : Eta subscribe_st := fun s =>
  mk_subscribe (su_packet_id s) (su_u16 s) (su_num_filters s) (su_filter_lengths s)
    (su_filters s) (su_qos s).

Record publish_s := mk_publish {
  pu_topic_len : Z;
  pu_payload_len : Z;
  pu_topic : list Z;
  pu_mp : option message_st
}.
#[export] Instance eta_publish : Eta publish_s := fun p =>
  mk_publish (pu_topic_len p) (pu_payload_len p) (pu_topic p) (pu_mp p).

(** The union [u] holds one of its members at a time. *)
Inductive parser_u :=
  | U_connect (c : connect_st)
  | U_subscribe (s : subscribe_st)
  | U_publish (p : publish_s).

Inductive pstate :=
  | S_HEADER
  | S_REM_LEN
  | S_CONNECT_PACKET_ID_0
  | S_CONNECT_PACKET_ID_1
  | S_CONNECT_PROTOCOL_0
  | S_CONNECT_PROTOCOL_1
  | S_CONNECT_PROTOCOL_2
  | S_CONNECT_VERSION
  | S_CONNECT_FLAGS
  | S_CONNECT_KEEP_ALIVE_0
  | S_CONNECT_KEEP_ALIVE_1
  | S_CONNECT_CLIENT_ID_0
  | S_CONNECT_CLIENT_ID_1
  | S_CONNECT_CLIENT_ID_2
  | S_CONNECT_WILL_TOPIC_0
  | S_CONNECT_WILL_TOPIC_1
  | S_CONNECT_WILL_TOPIC_2
  | S_CONNECT_WILL_PAYLOAD_0
  | S_CONNECT_WILL_PAYLOAD_1
  | S_CONNECT_WILL_PAYLOAD_2
  | S_CONNECT_USERNAME_0
  | S_CONNECT_USERNAME_1
  | S_CONNECT_USERNAME_2
  | S_CONNECT_PASSWORD_0
  | S_CONNECT_PASSWORD_1
  | S_CONNECT_PASSWORD_2
  | S_SUBSCRIBE_PACKET_ID_0
  | S_SUBSCRIBE_PACKET_ID_1
  | S_SUBSCRIBE_TOPIC_0
  | S_SUBSCRIBE_TOPIC_1
  | S_SUBSCRIBE_TOPIC_2
  | S_SUBSCRIBE_TOPIC_QOS
  | S_UNSUBSCRIBE_PACKET_ID_0
  | S_UNSUBSCRIBE_PACKET_ID_1
  | S_UNSUBSCRIBE_TOPIC_0
  | S_UNSUBSCRIBE_TOPIC_1
  | S_UNSUBSCRIBE_TOPIC_2
  | S_PUBLISH_TOPIC_0
  | S_PUBLISH_TOPIC_1
  | S_PUBLISH_TOPIC_2
  | S_PUBLISH_PACKET_ID_0
  | S_PUBLISH_PACKET_ID_1
  | S_PUBLISH_PAYLOAD.

#[export] Instance pstate_eq_dec : EqDecision pstate.
Proof. solve_decision. Defined.

Record mqtt_parser := mk_parser {
  ps_header : header_byte_t;
  ps_rem_len : Z;
  ps_i : Z;
  ps_state : pstate;
  ps_multiplier : Z;
  ps_u : parser_u
}.
#[export] Instance eta_parser : Eta mqtt_parser := fun p =>
  mk_parser (ps_header p) (ps_rem_len p) (ps_i p) (ps_state p) (ps_multiplier p) (ps_u p).

(** ** subscription.h *)

(** [filter] points to an allocated string, [sub_node] is a cell of the heap. *)
Record subscription_st := mk_subscription {
  sb_client : Z;
  sb_qos : Z;
  sb_filter : option (list Z)
}.
#[export] Instance eta_subscription : Eta subscription_st := fun s =>
  mk_subscription (sb_client s) (sb_qos s) (sb_filter s).

(** ** client.h *)

Inductive client_state_et := CLIENT_OPEN | CLIENT_CONNECTED | CLIENT_CLOSING.

#[export] Instance client_state_eq_dec : EqDecision client_state_et.
Proof. solve_decision. Defined.

Record client_st := mk_client {
  c_addr : Z;
  c_state : client_state_et;
  c_sd : Z;
  c_keep_alive : Z;
  c_will_mp : option message_st;
  c_will_topic : list Z;
  c_is_tls : Z;
  c_is_ws : Z;
  c_ws : option Z;
  c_parser : mqtt_parser;
  c_is_super : Z;
  c_msg_id : Z;
  c_recv_ready : Z;
  c_ip_address : list Z;
  c_user_id_str : list Z;
  c_username_len : Z;
  c_username : list Z;
  c_num_subs : Z;
  c_subscriptions : list subscription_st;
  c_client_id : list Z;
  c_auth_info : option (list Z);
  c_client_id_len : Z;
  c_recv_at : Z;
  c_worker : Z;
  c_server : Z;
  c_last_ka_update_at : Z;
  c_expires_at : Z
}.
#[export] Instance eta_client : Eta client_st := fun c =>
  mk_client (c_addr c) (c_state c) (c_sd c) (c_keep_alive c) (c_will_mp c) (c_will_topic c)
    (c_is_tls c) (c_is_ws c) (c_ws c) (c_parser c) (c_is_super c) (c_msg_id c)
    (c_recv_ready c) (c_ip_address c) (c_user_id_str c) (c_username_len c) (c_username c)
    (c_num_subs c) (c_subscriptions c) (c_client_id c) (c_auth_info c) (c_client_id_len c)
    (c_recv_at c) (c_worker c) (c_server c) (c_last_ka_update_at c) (c_expires_at c).

(** The addresses of the list nodes embedded in clients. *)
Inductive node_addr :=
  | ClientsNode (client : Z)
  | KaNode (client : Z)
  | SubNode (client index : Z).

#[export] Instance node_addr_eq_dec : EqDecision node_addr.
Proof. solve_decision. Defined.

#[export] Instance node_addr_countable : Countable node_addr.
Proof.
  refine (inj_countable'
    (fun a => match a with
       | ClientsNode c => inl (inl c) | KaNode c => inl (inr c) | SubNode c i => inr (c, i)
     end)
    (fun a => match a with
       | inl (inl c) => ClientsNode c | inl (inr c) => KaNode c | inr (c, i) => SubNode c i
     end) _).
  by intros [].
Defined.

(** What the [p] field of such a node points to. *)
Inductive node_obj :=
  | PClient (client : Z)
  | PSub (client index : Z).

#[export] Instance node_obj_eq_dec : EqDecision node_obj.
Proof. solve_decision. Defined.

(** *** Example values *)

Definition example_parser : mqtt_parser :=
  mk_parser (mk_header 0 0 0 0) 0 0 S_HEADER 1
    (U_publish (mk_publish 0 0 (replicate 128 0) None)).

(** A client as [c_new] leaves it. *)
Definition example_client : client_st :=
  mk_client 5 CLIENT_OPEN 9 0 None (replicate 128 0) 0 0 None example_parser 0 0 0
    (replicate 20 0) (replicate 20 0) 0 (replicate 128 0) 0
    (replicate 12 (mk_subscription 0 0 None)) (replicate 128 0) None 0 0 0 0 0 0.
