(* ===== verification/MqttParser.v ===== *)
(** * The incremental MQTT parser (src/mqtt_parser.c)

    [mqtt_parser_execute] is a state machine that consumes a buffer byte by
    byte; its state survives between buffers.  The callbacks it makes are the
    interface [MqttCallbacks]: an instance for recording calls is used to
    state what is parsed, the one of client.c is in Client.v.  A callback may
    release the client the parser is embedded in; it then returns [None] in
    place of the client, and a later access to the parser is [Undef]. *)

From S2P Require Import Prelude MqttPacket MqttEncode ClientTypes.

(** What the parser calls, over a state [W] of the rest of the broker. *)
Class MqttCallbacks (W : Type) := {
  on_recv_connect : W -> client_st -> connect_st -> outcome (Z * W * option client_st);
  on_recv_subscribe : W -> client_st -> subscribe_st -> outcome (Z * W * option client_st);
  on_recv_unsubscribe : W -> client_st -> subscribe_st -> outcome (Z * W * option client_st);
  on_recv_publish : W -> client_st -> message_st -> outcome (Z * W * option client_st);
  on_recv_ping : W -> client_st -> outcome (Z * W * option client_st);
  c_disconnect_normal : W -> client_st -> outcome (W * option client_st)
}.

(** One round of the loop: go on with the next byte, or return. *)
Inductive step_res (W : Type) :=
  | Next (w : W) (c : client_st)
  | Return (rv : Z) (w : W) (c : option client_st).
Arguments Next {W} w c.
Arguments Return {W} rv w c.

Section parser.
Context `{Libc} {W : Type} `{MqttCallbacks W}.

Definition with_parser (c : client_st) (p : mqtt_parser) : client_st := c <| c_parser := p |>.

Definition set_state (c : client_st) (s : pstate) : client_st :=
  with_parser c ((c_parser c) <| ps_state := s |>).

(** [++parser->state] for the states the code increments; the states without
    a case in the switch make the loop spin. *)
Definition succ_state (s : pstate) : pstate :=
  match s with
  | S_HEADER => S_REM_LEN
  | S_REM_LEN => S_CONNECT_PACKET_ID_0
  | S_CONNECT_PACKET_ID_0 => S_CONNECT_PACKET_ID_1
  | S_CONNECT_PACKET_ID_1 => S_CONNECT_PROTOCOL_0
  | S_CONNECT_PROTOCOL_0 => S_CONNECT_PROTOCOL_1
  | S_CONNECT_PROTOCOL_1 => S_CONNECT_PROTOCOL_2
  | S_CONNECT_PROTOCOL_2 => S_CONNECT_VERSION
  | S_CONNECT_VERSION => S_CONNECT_FLAGS
  | S_CONNECT_FLAGS => S_CONNECT_KEEP_ALIVE_0
  | S_CONNECT_KEEP_ALIVE_0 => S_CONNECT_KEEP_ALIVE_1
  | S_CONNECT_KEEP_ALIVE_1 => S_CONNECT_CLIENT_ID_0
  | S_CONNECT_CLIENT_ID_0 => S_CONNECT_CLIENT_ID_1
  | S_CONNECT_CLIENT_ID_1 => S_CONNECT_CLIENT_ID_2
  | S_CONNECT_CLIENT_ID_2 => S_CONNECT_WILL_TOPIC_0
  | S_CONNECT_WILL_TOPIC_0 => S_CONNECT_WILL_TOPIC_1
  | S_CONNECT_WILL_TOPIC_1 => S_CONNECT_WILL_TOPIC_2
  | S_CONNECT_WILL_TOPIC_2 => S_CONNECT_WILL_PAYLOAD_0
  | S_CONNECT_WILL_PAYLOAD_0 => S_CONNECT_WILL_PAYLOAD_1
  | S_CONNECT_WILL_PAYLOAD_1 => S_CONNECT_WILL_PAYLOAD_2
  | S_CONNECT_WILL_PAYLOAD_2 => S_CONNECT_USERNAME_0
  | S_CONNECT_USERNAME_0 => S_CONNECT_USERNAME_1
  | S_CONNECT_USERNAME_1 => S_CONNECT_USERNAME_2
  | S_CONNECT_USERNAME_2 => S_CONNECT_PASSWORD_0
  | S_CONNECT_PASSWORD_0 => S_CONNECT_PASSWORD_1
  | S_CONNECT_PASSWORD_1 => S_CONNECT_PASSWORD_2
  | S_CONNECT_PASSWORD_2 => S_SUBSCRIBE_PACKET_ID_0
  | S_SUBSCRIBE_PACKET_ID_0 => S_SUBSCRIBE_PACKET_ID_1
  | S_SUBSCRIBE_PACKET_ID_1 => S_SUBSCRIBE_TOPIC_0
  | S_SUBSCRIBE_TOPIC_0 => S_SUBSCRIBE_TOPIC_1
  | S_SUBSCRIBE_TOPIC_1 => S_SUBSCRIBE_TOPIC_2
  | S_SUBSCRIBE_TOPIC_2 => S_SUBSCRIBE_TOPIC_QOS
  | S_SUBSCRIBE_TOPIC_QOS => S_UNSUBSCRIBE_PACKET_ID_0
  | S_UNSUBSCRIBE_PACKET_ID_0 => S_UNSUBSCRIBE_PACKET_ID_1
  | S_UNSUBSCRIBE_PACKET_ID_1 => S_UNSUBSCRIBE_TOPIC_0
  | S_UNSUBSCRIBE_TOPIC_0 => S_UNSUBSCRIBE_TOPIC_1
  | S_UNSUBSCRIBE_TOPIC_1 => S_UNSUBSCRIBE_TOPIC_2
  | S_UNSUBSCRIBE_TOPIC_2 => S_PUBLISH_TOPIC_0
  | S_PUBLISH_TOPIC_0 => S_PUBLISH_TOPIC_1
  | S_PUBLISH_TOPIC_1 => S_PUBLISH_TOPIC_2
  | S_PUBLISH_TOPIC_2 => S_PUBLISH_PACKET_ID_0
  | S_PUBLISH_PACKET_ID_0 => S_PUBLISH_PACKET_ID_1
  | S_PUBLISH_PACKET_ID_1 => S_PUBLISH_PAYLOAD
  | S_PUBLISH_PAYLOAD => S_PUBLISH_PAYLOAD
  end.

Definition next_state (c : client_st) : client_st :=
  set_state c (succ_state (ps_state (c_parser c))).

(** Reading the union as another member than the one stored gives bytes the
    model says nothing about. *)
Definition junk_flags : flags_s :=
  mk_flags (u8 (junk 0)) (u8 (junk 1)) (u8 (junk 2)) (u8 (junk 3)) (u8 (junk 4)) (u8 (junk 5)).

Definition as_connect (u : parser_u) : connect_st :=
  match u with
  | U_connect c => c
  | _ => mk_connect junk_flags (junk_bytes 7) (u16 (junk 0)) (u16 (junk 0))
           (junk_bytes (MAX_TOPIC_LEN + 1)) (junk_bytes (MAX_ID_LEN + 1))
  end.

Definition as_subscribe (u : parser_u) : subscribe_st :=
  match u with
  | U_subscribe s => s
  | _ => mk_subscribe (u16 (junk 0)) (u16 (junk 0)) (i32 (junk 0))
           (junk_bytes MAX_NUM_TOPICS) (replicate 10 None) (junk_bytes MAX_NUM_TOPICS)
  end.

Definition as_publish (u : parser_u) : publish_s :=
  match u with
  | U_publish p => p
  | _ => mk_publish (u16 (junk 0)) (u32 (junk 0)) (junk_bytes (MAX_TOPIC_LEN + 1)) None
  end.

Definition get_connect (c : client_st) : connect_st := as_connect (ps_u (c_parser c)).
Definition get_subscribe (c : client_st) : subscribe_st := as_subscribe (ps_u (c_parser c)).
Definition get_publish (c : client_st) : publish_s := as_publish (ps_u (c_parser c)).

Definition put_connect (c : client_st) (x : connect_st) : client_st :=
  with_parser c ((c_parser c) <| ps_u := U_connect x |>).
Definition put_subscribe (c : client_st) (x : subscribe_st) : client_st :=
  with_parser c ((c_parser c) <| ps_u := U_subscribe x |>).
Definition put_publish (c : client_st) (x : publish_s) : client_st :=
  with_parser c ((c_parser c) <| ps_u := U_publish x |>).

Definition set_i (c : client_st) (i : Z) : client_st :=
  with_parser c ((c_parser c) <| ps_i := u16 i |>).
Definition set_rem_len (c : client_st) (n : Z) : client_st :=
  with_parser c ((c_parser c) <| ps_rem_len := u32 n |>).

(** [if (callback(...)) return 1; parser->state = S_HEADER;] *)
Definition finish (r : outcome (Z * W * option client_st)) : outcome (step_res W) :=
  '(rc, w, oc) ← r;
  if truthy rc then mret (Return 1 w oc)
  else match oc with
       | Some c => mret (Next w (set_state c S_HEADER))
       | None => Undef UseAfterFree
       end.

(** ** The cases of the switch *)

Definition step_header (w : W) (c : client_st) (b : Z) : outcome (step_res W) :=
  let h := {| h_msg_type := Z.shiftr b 4;
              h_dup := c_bool (truthy (Z.land b (Z.shiftl 1 3)));
              h_qos := Z.land (Z.shiftr b 1) 3;
              h_retain := c_bool (Z.land b 1 =? 1) |} in
  let c := with_parser c ((c_parser c) <| ps_header := h |>) in
  if (h_msg_type h =? msg_type_code NONE) || (msg_type_code MQTT_NUM_TYPES <=? h_msg_type h)
  then mret (Return 1 w (Some c))
  else if truthy (h_retain h) then mret (Return 1 w (Some c))
  else
    let c := with_parser c ((c_parser c) <| ps_rem_len := 0 |> <| ps_multiplier := 1 |>) in
    mret (Next w (next_state c)).

Definition step_rem_len (w : W) (c : client_st) (b : Z) : outcome (step_res W) :=
  d ← int_chk (Z.land b 127 * ps_multiplier (c_parser c));
  let c := set_rem_len c (ps_rem_len (c_parser c) + d) in
  m ← int_chk (ps_multiplier (c_parser c) * 128);
  let c := with_parser c ((c_parser c) <| ps_multiplier := m |>) in
  if Z.land b 128 =? 0 then
    let t := h_msg_type (ps_header (c_parser c)) in
    if t =? msg_type_code CONNECT then mret (Next w (set_state c S_CONNECT_PROTOCOL_0))
    else if t =? msg_type_code DISCONNECT then
      '(w, oc) ← c_disconnect_normal w c;
      match oc with
      | Some c => mret (Return 0 w (Some (set_state c S_HEADER)))
      | None => Undef UseAfterFree
      end
    else if t =? msg_type_code PINGREQ then finish (on_recv_ping w c)
    else if t =? msg_type_code SUBSCRIBE then mret (Next w (set_state c S_SUBSCRIBE_PACKET_ID_0))
    else if t =? msg_type_code UNSUBSCRIBE then
      mret (Next w (set_state c S_UNSUBSCRIBE_PACKET_ID_0))
    else if t =? msg_type_code PUBLISH then mret (Next w (set_state c S_PUBLISH_TOPIC_0))
    else mret (Return 1 w (Some c))
  else mret (Next w c).

(** "MQTT" and "MQIsdp" *)
Definition name_MQTT : list Z := [77; 81; 84; 84].
Definition name_MQIsdp : list Z := [77; 81; 73; 115; 100; 112].

(** CONNECT up to the keep-alive interval. *)
Definition step_connect_1 (w : W) (c : client_st) (b : Z) : outcome (step_res W) :=
  let p := c_parser c in
  let co := get_connect c in
  match ps_state p with
  | S_CONNECT_PROTOCOL_0 =>
      mret (Next w (next_state (put_connect c (co <| co_u16 := u16 (Z.shiftl b 8) |>))))
  | S_CONNECT_PROTOCOL_1 =>
      let co := co <| co_u16 := Z.lor (co_u16 co) b |> in
      let c := put_connect c co in
      if 7 - 1 <? co_u16 co then mret (Return 1 w (Some c))
      else mret (Next w (next_state (set_i c 0)))
  | S_CONNECT_PROTOCOL_2 =>
      protocol ← arr_set (co_protocol co) (ps_i p) b;
      let c := set_i (put_connect c (co <| co_protocol := protocol |>)) (ps_i p + 1) in
      mret (Next w (if ps_i (c_parser c) =? co_u16 co then next_state c else c))
  | S_CONNECT_VERSION =>
      if ((co_u16 co =? 4) && (b =? 4) && bool_decide (take 4 (co_protocol co) = name_MQTT))
         || ((co_u16 co =? 6) && (b =? 3) && bool_decide (take 6 (co_protocol co) = name_MQIsdp))
      then mret (Next w (next_state c))
      else mret (Return 1 w (Some c))
  | S_CONNECT_FLAGS =>
      let f := {| f_cleansession := Z.land (Z.shiftr b 1) 1;
                  f_will := Z.land (Z.shiftr b 2) 1;
                  f_will_qos := Z.land (Z.shiftr b 3) 3;
                  f_will_retain := Z.land (Z.shiftr b 5) 1;
                  f_password_present := Z.land (Z.shiftr b 6) 1;
                  f_username_present := Z.shiftr b 7 |} in
      mret (Next w (next_state (put_connect c (co <| co_flags := f |>))))
  | S_CONNECT_KEEP_ALIVE_0 =>
      mret (Next w (next_state (c <| c_keep_alive := u16 (Z.shiftl b 8) |>)))
  | S_CONNECT_KEEP_ALIVE_1 =>
      mret (Next w (next_state (c <| c_keep_alive := Z.lor (c_keep_alive c) b |>)))
  | _ => Spin
  end.

(** The client identifier, after which a CONNECT without will, user name and
    password is complete. *)
Definition step_connect_client_id (allow_anonymous : Z) (w : W) (c : client_st) (b : Z)
  : outcome (step_res W) :=
  let p := c_parser c in
  match ps_state p with
  | S_CONNECT_CLIENT_ID_0 =>
      mret (Next w (next_state (c <| c_client_id_len := Z.shiftl b 8 |>)))
  | S_CONNECT_CLIENT_ID_1 =>
      let c := c <| c_client_id_len := Z.lor (c_client_id_len c) b |> in
      if (c_client_id_len c =? 0) || (MAX_ID_LEN <? c_client_id_len c)
      then mret (Return 1 w (Some c))
      else mret (Next w (next_state (set_i c 0)))
  | S_CONNECT_CLIENT_ID_2 =>
      id ← arr_set (c_client_id c) (ps_i p) b;
      let c := set_i (c <| c_client_id := id |>) (ps_i p + 1) in
      if ps_i (c_parser c) =? c_client_id_len c then
        id ← arr_set id (ps_i (c_parser c)) 0;
        let c := c <| c_client_id := id |> in
        let f := co_flags (get_connect c) in
        if truthy (f_will f) then mret (Next w (next_state c))
        else if truthy (f_username_present f) then mret (Next w (set_state c S_CONNECT_USERNAME_0))
        else if truthy (f_password_present f) then mret (Return 1 w (Some c))
        else if negb (truthy allow_anonymous) then mret (Return 1 w (Some c))
        else finish (on_recv_connect w c (get_connect c))
      else mret (Next w c)
  | _ => Spin
  end.

(** The will.  Its topic goes to [p->will_topic], while the message is built
    from [parser->u.connect.will_topic]. *)
Definition step_connect_will (w : W) (c : client_st) (b : Z) : outcome (step_res W) :=
  let p := c_parser c in
  let co := get_connect c in
  match ps_state p with
  | S_CONNECT_WILL_TOPIC_0 =>
      mret (Next w (next_state (put_connect c (co <| co_will_topic_len := u16 (Z.shiftl b 8) |>))))
  | S_CONNECT_WILL_TOPIC_1 =>
      let co := co <| co_will_topic_len := Z.lor (co_will_topic_len co) b |> in
      let c := put_connect c co in
      if (co_will_topic_len co =? 0) || (MAX_TOPIC_LEN + 1 <? co_will_topic_len co)
      then mret (Return 1 w (Some c))
      else mret (Next w (next_state (set_i c 0)))
  | S_CONNECT_WILL_TOPIC_2 =>
      t ← arr_set (c_will_topic c) (ps_i p) b;
      let c := set_i (c <| c_will_topic := t |>) (ps_i p + 1) in
      mret (Next w (if ps_i (c_parser c) =? co_will_topic_len co then next_state c else c))
  | S_CONNECT_WILL_PAYLOAD_0 =>
      mret (Next w (next_state (put_connect c (co <| co_u16 := u16 (Z.shiftl b 8) |>))))
  | S_CONNECT_WILL_PAYLOAD_1 =>
      let co := co <| co_u16 := Z.lor (co_u16 co) b |> in
      let c := put_connect c co in
      if (co_u16 co =? 0) || (MAX_PAYLOAD_LEN <? co_u16 co)
      then mret (Return (-1) w (Some c))
      else
        let c := set_i c 0 in
        mp ← message_create (c_addr c) (co_will_topic_len co) (co_u16 co) 0
               (h_qos (ps_header (c_parser c))) (h_retain (ps_header (c_parser c))) 0;
        match mp with
        | None => mret (Return 1 w (Some c))
        | Some mp =>
            src ← arr_read (co_will_topic co) (co_will_topic_len co);
            t ← arr_blit (m_topic mp) 0 src;
            mret (Next w (next_state (c <| c_will_mp := Some (mp <| m_topic := t |>) |>)))
        end
  | S_CONNECT_WILL_PAYLOAD_2 =>
      match c_will_mp c with
      | None => Undef NullDeref
      | Some mp =>
          t ← arr_set (m_payload mp) (ps_i p) b;
          let c := set_i (c <| c_will_mp := Some (mp <| m_payload := t |>) |>) (ps_i p + 1) in
          if ps_i (c_parser c) =? co_u16 co then
            if truthy (f_username_present (co_flags co)) then mret (Next w (next_state c))
            else mret (Return (-1) w (Some c))
          else mret (Next w c)
      end
  | _ => Spin
  end.

(** User name and password, with which a CONNECT is complete. *)
Definition step_connect_auth (w : W) (c : client_st) (b : Z) : outcome (step_res W) :=
  let p := c_parser c in
  let co := get_connect c in
  match ps_state p with
  | S_CONNECT_USERNAME_0 =>
      mret (Next w (next_state (c <| c_username_len := Z.shiftl b 8 |>)))
  | S_CONNECT_USERNAME_1 =>
      let c := c <| c_username_len := Z.lor (c_username_len c) b |> in
      if (c_username_len c =? 0) || (MAX_ID_LEN <? c_username_len c)
      then mret (Return 1 w (Some c))
      else mret (Next w (next_state (set_i c 0)))
  | S_CONNECT_USERNAME_2 =>
      t ← arr_set (c_username c) (ps_i p) b;
      let c := set_i (c <| c_username := t |>) (ps_i p + 1) in
      if ps_i (c_parser c) =? c_username_len c then
        t ← arr_set t (ps_i (c_parser c)) 0;
        mret (Next w (next_state (c <| c_username := t |>)))
      else mret (Next w c)
  | S_CONNECT_PASSWORD_0 =>
      mret (Next w (next_state (put_connect c (co <| co_u16 := u16 (Z.shiftl b 8) |>))))
  | S_CONNECT_PASSWORD_1 =>
      let co := co <| co_u16 := Z.lor (co_u16 co) b |> in
      let c := put_connect c co in
      if (co_u16 co =? 0) || (MAX_ID_LEN <? co_u16 co) then mret (Return 1 w (Some c))
      else mret (Next w (next_state (set_i c 0)))
  | S_CONNECT_PASSWORD_2 =>
      t ← arr_set (co_password co) (ps_i p) b;
      let c := set_i (put_connect c (co <| co_password := t |>)) (ps_i p + 1) in
      if ps_i (c_parser c) =? co_u16 co then
        t ← arr_set t (ps_i (c_parser c)) 0;
        let co := co <| co_password := t |> in
        let c := put_connect c co in
        finish (on_recv_connect w c co)
      else mret (Next w c)
  | _ => Spin
  end.

(** The two bytes of a filter length, common to SUBSCRIBE and UNSUBSCRIBE: a
    string of that size is allocated for the filter. *)
Definition filter_start (w : W) (c : client_st) (b : Z) : outcome (step_res W) :=
  let su := get_subscribe c in
  let su := su <| su_u16 := Z.lor (su_u16 su) b |> in
  let c := put_subscribe c su in
  if ps_rem_len (c_parser c) <? u32 (su_u16 su + 3) then mret (Return 1 w (Some c))
  else match malloc (su_u16 su + 1) with
  | None => mret (Return 1 w (Some c))
  | Some vp =>
      lens ← arr_set (su_filter_lengths su) (su_num_filters su) (su_u16 su);
      _ ← arr_set (su_filters su) (su_num_filters su) (Some vp);
      vp ← arr_set vp (su_u16 su) 0;
      filters ← arr_set (su_filters su) (su_num_filters su) (Some vp);
      let c := next_state (put_subscribe c
                 (su <| su_filter_lengths := lens |> <| su_filters := filters |>)) in
      mret (Next w (put_subscribe c ((get_subscribe c) <| su_u16 := 0 |>)))
  end.

(** [filters[num_filters][u16] = *buf; ++u16] *)
Definition filter_byte (su : subscribe_st) (b : Z) : outcome subscribe_st :=
  f ← arr_get (su_filters su) (su_num_filters su);
  match f with
  | None => Undef NullDeref
  | Some f =>
      f ← arr_set f (su_u16 su) b;
      filters ← arr_set (su_filters su) (su_num_filters su) (Some f);
      mret (su <| su_filters := filters |> <| su_u16 := u16 (su_u16 su + 1) |>)
  end.

Definition step_subscribe (w : W) (c : client_st) (b : Z) : outcome (step_res W) :=
  let p := c_parser c in
  let su := get_subscribe c in
  match ps_state p with
  | S_SUBSCRIBE_PACKET_ID_0 =>
      mret (Next w (next_state (put_subscribe c (su <| su_packet_id := u16 (Z.shiftl b 8) |>))))
  | S_SUBSCRIBE_PACKET_ID_1 =>
      let su := su <| su_packet_id := Z.lor (su_packet_id su) b |> <| su_num_filters := 0 |> in
      mret (Next w (set_rem_len (next_state (put_subscribe c su)) (ps_rem_len p - 2)))
  | S_SUBSCRIBE_TOPIC_0 =>
      mret (Next w (next_state (put_subscribe c (su <| su_u16 := u16 (Z.shiftl b 8) |>))))
  | S_SUBSCRIBE_TOPIC_1 => filter_start w c b
  | S_SUBSCRIBE_TOPIC_2 =>
      su ← filter_byte su b;
      len ← arr_get (su_filter_lengths su) (su_num_filters su);
      let c := put_subscribe c su in
      mret (Next w (if su_u16 su =? len then set_state c S_SUBSCRIBE_TOPIC_QOS else c))
  | S_SUBSCRIBE_TOPIC_QOS =>
      if 2 <? b then mret (Return 1 w (Some c))
      else
        qos ← arr_set (su_qos su) (su_num_filters su) b;
        len ← arr_get (su_filter_lengths su) (su_num_filters su);
        n ← int_chk (su_num_filters su + 1);
        let su := su <| su_qos := qos |> <| su_num_filters := n |> in
        let c := set_rem_len (put_subscribe c su) (ps_rem_len p - (len + 3)) in
        if 0 <? ps_rem_len (c_parser c) then mret (Next w (set_state c S_SUBSCRIBE_TOPIC_0))
        else finish (on_recv_subscribe w c su)
  | _ => Spin
  end.

Definition step_unsubscribe (w : W) (c : client_st) (b : Z) : outcome (step_res W) :=
  let p := c_parser c in
  let su := get_subscribe c in
  match ps_state p with
  | S_UNSUBSCRIBE_PACKET_ID_0 =>
      mret (Next w (next_state (put_subscribe c (su <| su_packet_id := u16 (Z.shiftl b 8) |>))))
  | S_UNSUBSCRIBE_PACKET_ID_1 =>
      let su := su <| su_packet_id := Z.lor (su_packet_id su) b |> <| su_num_filters := 0 |> in
      mret (Next w (set_rem_len (next_state (put_subscribe c su)) (ps_rem_len p - 2)))
  | S_UNSUBSCRIBE_TOPIC_0 =>
      mret (Next w (next_state (put_subscribe c (su <| su_u16 := u16 (Z.shiftl b 8) |>))))
  | S_UNSUBSCRIBE_TOPIC_1 => filter_start w c b
  | S_UNSUBSCRIBE_TOPIC_2 =>
      su ← filter_byte su b;
      len ← arr_get (su_filter_lengths su) (su_num_filters su);
      let c := put_subscribe c su in
      if su_u16 su =? len then
        n ← int_chk (su_num_filters su + 1);
        let su := su <| su_num_filters := n |> in
        let c := set_rem_len (put_subscribe c su) (ps_rem_len p - (len + 2)) in
        if 0 <? ps_rem_len (c_parser c) then mret (Next w (set_state c S_UNSUBSCRIBE_TOPIC_0))
        else finish (on_recv_unsubscribe w c su)
      else mret (Next w c)
  | _ => Spin
  end.

(** The topic of a PUBLISH is complete: the message is created and the topic
    copied into it. *)
Definition publish_topic_done (w : W) (c : client_st) : outcome (step_res W) :=
  let h := ps_header (c_parser c) in
  let rem_len := ps_rem_len (c_parser c) in
  let pu := get_publish c in
  topic ← arr_set (pu_topic pu) (ps_i (c_parser c)) 0;
  let pu := pu <| pu_topic := topic |> in
  let '(pu, st) :=
    if truthy (h_qos h)
    then (pu <| pu_payload_len := u32 (rem_len - pu_topic_len pu - 4) |>,
          succ_state (ps_state (c_parser c)))
    else (pu <| pu_payload_len := u32 (rem_len - pu_topic_len pu - 2) |>, S_PUBLISH_PAYLOAD) in
  let c := set_state (put_publish c pu) st in
  if pu_payload_len pu =? 0 then mret (Return 1 w (Some c))
  else
    let c := set_i c 0 in
    mp ← message_create (c_addr c) (pu_topic_len pu) (pu_payload_len pu)
           (h_dup h) (h_qos h) (h_retain h) 0;
    match mp with
    | None => mret (Return 1 w (Some c))
    | Some mp =>
        src ← arr_read (pu_topic pu) (pu_topic_len pu);
        t ← arr_blit (m_topic mp) 0 src;
        mret (Next w (put_publish c (pu <| pu_mp := Some (mp <| m_topic := t |>) |>)))
    end.

Definition step_publish (w : W) (c : client_st) (b : Z) : outcome (step_res W) :=
  let p := c_parser c in
  let pu := get_publish c in
  match ps_state p with
  | S_PUBLISH_TOPIC_0 =>
      mret (Next w (next_state (put_publish c (pu <| pu_topic_len := u16 (Z.shiftl b 8) |>))))
  | S_PUBLISH_TOPIC_1 =>
      let pu := pu <| pu_topic_len := Z.lor (pu_topic_len pu) b |> in
      let c := put_publish c pu in
      if (pu_topic_len pu =? 0) || (MAX_TOPIC_LEN <? pu_topic_len pu)
      then mret (Return 1 w (Some c))
      else mret (Next w (next_state (set_i c 0)))
  | S_PUBLISH_TOPIC_2 =>
      t ← arr_set (pu_topic pu) (ps_i p) b;
      let c := set_i (put_publish c (pu <| pu_topic := t |>)) (ps_i p + 1) in
      if ps_i (c_parser c) =? pu_topic_len pu then publish_topic_done w c
      else mret (Next w c)
  | S_PUBLISH_PACKET_ID_0 =>
      match pu_mp pu with
      | None => Undef NullDeref
      | Some mp =>
          mret (Next w (next_state (put_publish c
            (pu <| pu_mp := Some (mp <| m_packet_id := u16 (Z.shiftl b 8) |>) |>))))
      end
  | S_PUBLISH_PACKET_ID_1 =>
      match pu_mp pu with
      | None => Undef NullDeref
      | Some mp =>
          mret (Next w (next_state (put_publish c
            (pu <| pu_mp := Some (mp <| m_packet_id := Z.lor (m_packet_id mp) b |>) |>))))
      end
  | S_PUBLISH_PAYLOAD =>
      match pu_mp pu with
      | None => Undef NullDeref
      | Some mp =>
          t ← arr_set (m_payload mp) (ps_i p) b;
          let c := set_i c (ps_i p + 1) in
          if ps_i (c_parser c) =? pu_payload_len pu then
            t ← arr_set t (ps_i (c_parser c)) 0;
            let mp := mp <| m_payload := t |> in
            finish (on_recv_publish w (put_publish c (pu <| pu_mp := Some mp |>)) mp)
          else mret (Next w (put_publish c (pu <| pu_mp := Some (mp <| m_payload := t |>) |>)))
      end
  | _ => Spin
  end.

(** [switch (parser->state)] on the byte [b]. *)
Definition mqtt_parser_step (allow_anonymous : Z) (w : W) (c : client_st) (b : Z)
  : outcome (step_res W) :=
  match ps_state (c_parser c) with
  | S_HEADER => step_header w c b
  | S_REM_LEN => step_rem_len w c b
  | S_CONNECT_PROTOCOL_0 | S_CONNECT_PROTOCOL_1 | S_CONNECT_PROTOCOL_2
  | S_CONNECT_VERSION | S_CONNECT_FLAGS
  | S_CONNECT_KEEP_ALIVE_0 | S_CONNECT_KEEP_ALIVE_1 => step_connect_1 w c b
  | S_CONNECT_CLIENT_ID_0 | S_CONNECT_CLIENT_ID_1 | S_CONNECT_CLIENT_ID_2 =>
      step_connect_client_id allow_anonymous w c b
  | S_CONNECT_WILL_TOPIC_0 | S_CONNECT_WILL_TOPIC_1 | S_CONNECT_WILL_TOPIC_2
  | S_CONNECT_WILL_PAYLOAD_0 | S_CONNECT_WILL_PAYLOAD_1 | S_CONNECT_WILL_PAYLOAD_2 =>
      step_connect_will w c b
  | S_CONNECT_USERNAME_0 | S_CONNECT_USERNAME_1 | S_CONNECT_USERNAME_2
  | S_CONNECT_PASSWORD_0 | S_CONNECT_PASSWORD_1 | S_CONNECT_PASSWORD_2 =>
      step_connect_auth w c b
  | S_SUBSCRIBE_PACKET_ID_0 | S_SUBSCRIBE_PACKET_ID_1
  | S_SUBSCRIBE_TOPIC_0 | S_SUBSCRIBE_TOPIC_1 | S_SUBSCRIBE_TOPIC_2
  | S_SUBSCRIBE_TOPIC_QOS => step_subscribe w c b
  | S_UNSUBSCRIBE_PACKET_ID_0 | S_UNSUBSCRIBE_PACKET_ID_1
  | S_UNSUBSCRIBE_TOPIC_0 | S_UNSUBSCRIBE_TOPIC_1 | S_UNSUBSCRIBE_TOPIC_2 =>
      step_unsubscribe w c b
  | S_PUBLISH_TOPIC_0 | S_PUBLISH_TOPIC_1 | S_PUBLISH_TOPIC_2
  | S_PUBLISH_PACKET_ID_0 | S_PUBLISH_PACKET_ID_1 | S_PUBLISH_PAYLOAD => step_publish w c b
  | S_CONNECT_PACKET_ID_0 | S_CONNECT_PACKET_ID_1 => Spin
  end.

(** [while (len) switch ...]: [Next] when the buffer is used up. *)
Fixpoint parse_loop (allow_anonymous : Z) (w : W) (c : client_st) (buf : list Z)
  : outcome (step_res W) :=
  match buf with
  | [] => mret (Next w c)
  | b :: buf =>
      r ← mqtt_parser_step allow_anonymous w c b;
      match r with
      | Next w c => parse_loop allow_anonymous w c buf
      | Return rv w oc => mret (Return rv w oc)
      end
  end.

(** The result code, and the client when it has survived the callbacks. *)
Definition mqtt_parser_execute (allow_anonymous : Z) (w : W) (c : client_st) (buf : list Z)
  : outcome (Z * W * option client_st) :=
  r ← parse_loop allow_anonymous w c buf;
  match r with
  | Next w c => mret (0, w, Some c)
  | Return rv w oc => mret (rv, w, oc)
  end.

End parser.

Definition mqtt_parser_init (p : mqtt_parser) : mqtt_parser := p <| ps_state := S_HEADER |>.
