(* ===== verification/ParserSpec.v ===== *)
(** * What the MQTT parser recognises

    Theorems about [mqtt_parser_execute] of MqttParser.v: it does not matter
    how the input is cut into buffers; the packets that mqtt_encode.c writes
    are read back; CONNECT, SUBSCRIBE and UNSUBSCRIBE packets reach their
    callbacks with the fields of the packet; and exactly which inputs make
    the parser leave its buffers. *)

From S2P Require Import Prelude MqttPacket MqttEncode ClientTypes MqttParser.

Section spec.
Context `{Libc} {W : Type} `{MqttCallbacks W} (anon : Z).

Notation run := (parse_loop anon).
Notation step := (mqtt_parser_step anon).

Definition cont (rest : list Z) (r : step_res W) : outcome (step_res W) :=
  match r with
  | Next w c => run w c rest
  | Return rv w oc => mret (Return rv w oc)
  end.

Lemma run_cons w c b rest : run w c (b :: rest) = step w c b ≫= cont rest.
Proof. done. Qed.

Lemma run_next w c b rest w' c' :
  step w c b = Ok (Next w' c') -> run w c (b :: rest) = run w' c' rest.
Proof. intros Hs. by rewrite run_cons, Hs. Qed.

Lemma run_app w c a b : run w c (a ++ b) = run w c a ≫= cont b.
Proof.
  revert w c. induction a as [|x a IH]; intros w c; [done|].
  change ((x :: a) ++ b) with (x :: (a ++ b)). rewrite !run_cons, bind_assoc.
  destruct (step w c x) as [[]| | |]; try done. apply IH.
Qed.

(** Feeding buffers one after the other, as c_recv does, until the parser
    returns something else than 0 or releases the client. *)
Fixpoint feed (w : W) (c : client_st) (bufs : list (list Z))
  : outcome (Z * W * option client_st) :=
  match bufs with
  | [] => mret (0, w, Some c)
  | buf :: bufs =>
      '(rc, w, oc) ← mqtt_parser_execute anon w c buf;
      match oc with
      | Some c => if truthy rc then mret (rc, w, Some c) else feed w c bufs
      | None => mret (rc, w, None)
      end
  end.

(** The only return with 0 before the end of the buffer is that of
    DISCONNECT. *)
Definition disconnect_frees : Prop :=
  forall w c w' c', c_disconnect_normal w c <> Ok (w', Some c').

Lemma finish_return (r : outcome (Z * W * option client_st)) rv w oc :
  finish r = Ok (Return rv w oc) -> truthy rv = true.
Proof.
  unfold finish. intros Hf. inv_bind. destruct a as [[rc w0] oc0].
  cbn in Hf. destruct (truthy rc); inv_bind; simplify_eq/=; [done|]. by destruct oc0.
Qed.

Lemma step_return (w : W) c b rv w' oc :
  disconnect_frees -> step w c b = Ok (Return rv w' oc) -> truthy rv = true.
Proof.
  intros Hd Hs. unfold mqtt_parser_step, step_header, step_rem_len, step_connect_1,
    step_connect_client_id, step_connect_will, step_connect_auth, step_subscribe,
    step_unsubscribe, step_publish, publish_topic_done, filter_start in Hs.
  destruct (ps_state (c_parser c)); inv_bind;
    repeat (case_match; inv_bind; simplify_eq); try done;
    try by eapply finish_return.
  exfalso. by eapply Hd.
Qed.

Lemma run_return (w : W) c buf rv w' oc :
  disconnect_frees -> run w c buf = Ok (Return rv w' oc) -> truthy rv = true.
Proof.
  intros Hd. revert w c. induction buf as [|b buf IH]; intros w c Hr; [by inv_bind|].
  rewrite run_cons in Hr. inv_bind. destruct a as [w1 c1|]; [by eapply IH|].
  cbn in Hr. inv_bind. by simplify_eq; eapply step_return.
Qed.

(** One-byte rounds compose; the other lemmas describe runs over a whole
    field.  [fill_run]: a state that stores byte after byte in an array, up to
    the last one. *)
Lemma fill_run (w : W) (f : list Z -> list Z -> client_st) n bs out k rest :
  (forall pre b x post, zlen pre + 1 < n ->
     step w (f pre (x :: post)) b = Ok (Next w (f (pre ++ [b]) post))) ->
  zlen bs = n -> 1 <= n -> length out = length bs ->
  exists pre b x, bs = pre ++ [b] /\ zlen pre = n - 1 /\
    run w (f [] (out ++ k)) (bs ++ rest) = step w (f pre (x :: k)) b ≫= cont rest.
Proof.
  intros Hs Hn H1 Ho.
  assert (forall todo out pre, length out = length todo -> zlen pre + zlen todo = n ->
    1 <= zlen todo -> exists p b x, pre ++ todo = p ++ [b] /\
    run w (f pre (out ++ k)) (todo ++ rest) = step w (f p (x :: k)) b ≫= cont rest) as Hg.
  { clear out bs Hn Ho. induction todo as [|b todo IH]; intros out pre Ho Hn Ht; [by cbn in Ht|].
    destruct out as [|x out]; [done|]. destruct todo as [|b' todo].
    - destruct out; [|done]. exists pre, b, x. done.
    - destruct (IH out (pre ++ [b])) as (p & b1 & x1 & Hp & Hr).
      + by simplify_eq/=.
      + autorewrite with fb in *. lia.
      + autorewrite with fb in *. pose proof (zlen_nonneg todo). lia.
      + exists p, b1, x1. split; [by rewrite <- Hp, <- app_assoc|].
        rewrite <- Hr. cbn [app]. apply run_next, Hs.
        autorewrite with fb in *. pose proof (zlen_nonneg todo). lia. }
  destruct (Hg bs out []) as (p & b & x & Hp & Hr); [done|by cbn|lia|].
  exists p, b, x. cbn [app] in Hp. split_and!; [done| |done].
  subst bs. autorewrite with fb in Hn. lia.
Qed.

(** The two bytes of a 16-bit field. *)
Lemma be16_decode n : 0 <= n < 65536 -> Z.lor (u16 (Z.shiftl (n / 256) 8)) (n mod 256) = n.
Proof.
  intros Hn. rewrite u16_small by (rewrite Z.shiftl_mul_pow2 by lia; Z.div_mod_to_equations; lia).
  rewrite lor_shiftl_add by (Z.div_mod_to_equations; lia).
  change (2 ^ 8) with 256. Z.div_mod_to_equations. lia.
Qed.

Lemma be16_decode_int n : 0 <= n < 65536 -> Z.lor (Z.shiftl (n / 256) 8) (n mod 256) = n.
Proof.
  intros Hn. rewrite lor_shiftl_add by (Z.div_mod_to_equations; lia).
  change (2 ^ 8) with 256. Z.div_mod_to_equations. lia.
Qed.

(** The client [c] with the given parser. *)
Definition at_ (c : client_st) h rem i st mult u : client_st :=
  c <| c_parser := mk_parser h rem i st mult u |>.

Definition dispatch (t : Z) : option pstate :=
  if t =? msg_type_code CONNECT then Some S_CONNECT_PROTOCOL_0
  else if t =? msg_type_code SUBSCRIBE then Some S_SUBSCRIBE_PACKET_ID_0
  else if t =? msg_type_code UNSUBSCRIBE then Some S_UNSUBSCRIBE_PACKET_ID_0
  else if t =? msg_type_code PUBLISH then Some S_PUBLISH_TOPIC_0
  else None.

Lemma step_rem_len_more w c h rem i mult u d :
  128 <= d < 256 -> 0 < mult <= 128 ^ 3 ->
  step w (at_ c h rem i S_REM_LEN mult u) d
  = Ok (Next w (at_ c h (u32 (rem + (d - 128) * mult)) i S_REM_LEN (mult * 128) u)).
Proof.
  intros Hd Hm. change (step_rem_len w (at_ c h rem i S_REM_LEN mult u) d
    = Ok (Next w (at_ c h (u32 (rem + (d - 128) * mult)) i S_REM_LEN (mult * 128) u))).
  assert (Z.land d 127 = d - 128) as H127.
  { change 127 with (Z.ones 7). rewrite Z.land_ones by lia. change (2 ^ 7) with 128.
    Z.div_mod_to_equations. lia. }
  assert (Z.land d 128 =? 0 = false) as H128.
  { pose (P := fun d => if 128 <=? d then negb (Z.land d 128 =? 0) else true).
    assert (P d = true) as HP by (apply byte_forall; [by vm_compute|unfold is_byte; lia]).
    unfold P in HP. destruct (Z.leb_spec 128 d); [|lia]. by apply negb_true_iff. }
  unfold step_rem_len. rewrite H127, H128.
  change (ps_multiplier (c_parser (at_ c h rem i S_REM_LEN mult u))) with mult.
  change (128 ^ 3) with 2097152 in Hm.
  rewrite int_chk_ok by (unfold int_min, int_max; nia). cbn [mbind outcome_bind].
  change (ps_multiplier (c_parser (set_rem_len _ _))) with mult.
  rewrite int_chk_ok by (unfold int_min, int_max; nia). done.
Qed.

Lemma step_rem_len_last w c h rem i mult u d st :
  0 <= d < 128 -> 0 < mult <= 128 ^ 3 -> dispatch (h_msg_type h) = Some st ->
  step w (at_ c h rem i S_REM_LEN mult u) d
  = Ok (Next w (at_ c h (u32 (rem + d * mult)) i st (mult * 128) u)).
Proof.
  intros Hd Hm Ht. change (step_rem_len w (at_ c h rem i S_REM_LEN mult u) d
    = Ok (Next w (at_ c h (u32 (rem + d * mult)) i st (mult * 128) u))).
  assert (Z.land d 127 = d) as H127.
  { change 127 with (Z.ones 7). rewrite Z.land_ones by lia. apply Z.mod_small. lia. }
  assert (Z.land d 128 =? 0 = true) as H128.
  { pose (P := fun d => if 128 <=? d then true else Z.land d 128 =? 0).
    assert (P d = true) as HP by (apply byte_forall; [by vm_compute|unfold is_byte; lia]).
    unfold P in HP. by destruct (Z.leb_spec 128 d); [lia|]. }
  unfold step_rem_len. rewrite H127, H128.
  change (ps_multiplier (c_parser (at_ c h rem i S_REM_LEN mult u))) with mult.
  change (128 ^ 3) with 2097152 in Hm.
  rewrite int_chk_ok by (unfold int_min, int_max; nia). cbn [mbind outcome_bind].
  change (ps_multiplier (c_parser (set_rem_len _ _))) with mult.
  rewrite int_chk_ok by (unfold int_min, int_max; nia). cbn [mbind outcome_bind].
  unfold dispatch in Ht. change (h_msg_type (ps_header _)) with (h_msg_type h). cbv zeta.
  destruct (Z.eqb_spec (h_msg_type h) (msg_type_code CONNECT)); [by simplify_eq|].
  destruct (Z.eqb_spec (h_msg_type h) (msg_type_code DISCONNECT)) as [E|];
    [by rewrite E in Ht|].
  destruct (Z.eqb_spec (h_msg_type h) (msg_type_code PINGREQ)) as [E|];
    [by rewrite E in Ht|].
  repeat (case_match; simplify_eq; try done).
Qed.

(** The remaining length is read back from its encoding. *)
Lemma rem_len_run w c h i u st fuel rem mult n rest :
  dispatch (h_msg_type h) = Some st -> 0 <= n < 128 ^ Z.of_nat fuel -> (0 < fuel)%nat ->
  0 <= rem -> 0 < mult -> mult * 128 ^ Z.of_nat fuel <= 128 ^ 4 -> rem + n * mult < 2 ^ 32 ->
  exists mult', run w (at_ c h rem i S_REM_LEN mult u) (var_int fuel n ++ rest)
  = run w (at_ c h (rem + n * mult) i st mult' u) rest.
Proof.
  intros Ht. revert rem mult n.
  induction fuel as [|fuel IH]; intros rem mult n Hn Hf Hr Hm Hb Hs; [lia|].
  rewrite Nat2Z.inj_succ, Z.pow_succ_r in * by lia.
  assert (1 <= 128 ^ Z.of_nat fuel) by (apply (Z.pow_le_mono_r 128 0); lia).
  change (128 ^ 4) with (128 * 2097152) in Hb.
  rewrite var_int_unfold. destruct (Z.eqb_spec (n / 128) 0) as [Hz|Hz]; cbn [app].
  - assert (n mod 128 = n) as -> by (Z.div_mod_to_equations; lia).
    eexists. rewrite (run_next _ _ _ _ w (at_ c h (u32 (rem + n * mult)) i st (mult * 128) u)).
    + by rewrite u32_small by nia.
    + apply step_rem_len_last; [Z.div_mod_to_equations; lia|nia|done].
  - assert (n / 128 < 128 ^ Z.of_nat fuel) by (apply Z.div_lt_upper_bound; lia).
    assert (0 <= n / 128) by (apply Z.div_pos; lia).
    assert (n = 128 * (n / 128) + n mod 128) as Hdiv by (apply Z.div_mod; lia).
    assert (0 <= n mod 128 < 128) by (apply Z.mod_pos_bound; lia).
    destruct fuel as [|fuel]; [change (128 ^ Z.of_nat 0) with 1 in *; lia|].
    destruct (IH (rem + n mod 128 * mult) (mult * 128) (n / 128)) as [mult' Hx];
      [lia|lia|nia|lia|change (128 ^ 4) with (128 * 2097152); nia|nia|].
    exists mult'. rewrite (run_next _ _ _ _ w
      (at_ c h (u32 (rem + (n mod 128 + 128 - 128) * mult)) i S_REM_LEN (mult * 128) u)).
    + rewrite u32_small by nia.
      replace (rem + (n mod 128 + 128 - 128) * mult) with (rem + n mod 128 * mult) by lia.
      rewrite Hx. by replace (rem + n mod 128 * mult + n / 128 * (mult * 128))
        with (rem + n * mult) by nia.
    + apply step_rem_len_more; [lia|]. change (128 ^ 3) with 2097152.
      rewrite Nat2Z.inj_succ, Z.pow_succ_r in * by lia.
      assert (1 <= 128 ^ Z.of_nat fuel) by (apply (Z.pow_le_mono_r 128 0); lia). nia.
Qed.

Lemma var_int_more fuel n :
  0 <= n < 128 ^ Z.of_nat fuel -> (0 < fuel)%nat -> var_int (S fuel) n = var_int fuel n.
Proof.
  revert n. induction fuel as [|fuel IH]; intros n Hn Hf; [lia|].
  rewrite var_int_unfold, (var_int_unfold fuel n).
  rewrite Nat2Z.inj_succ, Z.pow_succ_r in Hn by lia.
  assert (n / 128 < 128 ^ Z.of_nat fuel) by (apply Z.div_lt_upper_bound; lia).
  assert (0 <= n / 128) by (apply Z.div_pos; lia).
  destruct (Z.eqb_spec (n / 128) 0); [done|]. destruct fuel as [|fuel].
  - change (128 ^ Z.of_nat 0) with 1 in *. lia.
  - by rewrite IH by lia.
Qed.

Lemma header_byte_value type dup qos :
  0 <= type < 16 -> 0 <= dup <= 1 -> 0 <= qos <= 3 ->
  encode_header_byte type dup qos 0 = type * 16 + dup * 8 + qos * 2.
Proof.
  intros Ht Hd Hq. unfold encode_header_byte. rewrite Z.lor_0_r, <- Z.lor_assoc.
  assert (Z.lor (Z.shiftl dup 3) (Z.shiftl qos 1) = dup * 8 + qos * 2) as Hl.
  { assert (dup = 0 \/ dup = 1) as [-> | ->] by lia;
    assert (qos = 0 \/ qos = 1 \/ qos = 2 \/ qos = 3) as [-> | [-> | [-> | ->]]] by lia; done. }
  rewrite Hl, lor_shiftl_add by lia. change (2 ^ 4) with 16. rewrite u8_small; lia.
Qed.

Definition header_of (b : Z) : header_byte_t :=
  mk_header (Z.shiftr b 4) (c_bool (truthy (Z.land b (Z.shiftl 1 3))))
    (Z.land (Z.shiftr b 1) 3) (c_bool (Z.land b 1 =? 1)).

Lemma header_decode type dup qos :
  0 <= type < 16 -> 0 <= dup <= 1 -> 0 <= qos <= 3 ->
  header_of (encode_header_byte type dup qos 0) = mk_header type dup qos 0.
Proof.
  intros Ht Hd Hq. rewrite header_byte_value by done.
  pose (P := fun b =>
    (h_msg_type (header_of b) =? b / 16) && (h_dup (header_of b) =? b / 8 mod 2)
    && (h_qos (header_of b) =? b / 2 mod 4) && (h_retain (header_of b) =? b mod 2)).
  set (b := type * 16 + dup * 8 + qos * 2).
  assert (P b = true) as HP.
  { apply byte_forall; [by vm_compute|]. unfold is_byte, b. lia. }
  unfold P in HP. rewrite !andb_true_iff, !Z.eqb_eq in HP. destruct HP as [[[H1 H2] H3] H4].
  destruct (header_of b) as [t d q r]. cbn [h_msg_type h_dup h_qos h_retain] in *. subst.
  assert (dup = 0 \/ dup = 1) as [-> | ->] by lia; unfold b;
  assert (qos = 0 \/ qos = 1 \/ qos = 2 \/ qos = 3) as [-> | [-> | [-> | ->]]] by lia;
  f_equal; Z.div_mod_to_equations; lia.
Qed.

Lemma header_run w c h0 rem i mult u type dup qos rest :
  0 < type < 15 -> 0 <= dup <= 1 -> 0 <= qos <= 3 ->
  run w (at_ c h0 rem i S_HEADER mult u) (encode_header_byte type dup qos 0 :: rest)
  = run w (at_ c (mk_header type dup qos 0) 0 i S_REM_LEN 1 u) rest.
Proof.
  intros Ht Hd Hq. apply run_next.
  set (b := encode_header_byte type dup qos 0).
  change (step_header w (at_ c h0 rem i S_HEADER mult u) b
    = Ok (Next w (at_ c (mk_header type dup qos 0) 0 i S_REM_LEN 1 u))).
  unfold step_header. fold (header_of b). unfold b. rewrite header_decode by lia.
  cbn [h_msg_type h_retain]. change (msg_type_code NONE) with 0.
  change (msg_type_code MQTT_NUM_TYPES) with 15.
  destruct (Z.eqb_spec type 0); [lia|]. destruct (Z.leb_spec 15 type); [lia|]. done.
Qed.

(** The fixed header of a packet. *)
Lemma fixed_header_run w c h0 rem i mult u type dup qos n st rest :
  dispatch type = Some st -> 0 < type < 15 -> 0 <= dup <= 1 -> 0 <= qos <= 3 -> 0 <= n < 2 ^ 28 ->
  exists mult', run w (at_ c h0 rem i S_HEADER mult u)
    (encode_header_byte type dup qos 0 :: rem_len_bytes n ++ rest)
  = run w (at_ c (mk_header type dup qos 0) n i st mult' u) rest.
Proof.
  intros Hst Ht Hd Hq Hn. rewrite header_run by done. unfold rem_len_bytes.
  rewrite var_int_more by (change (128 ^ Z.of_nat 4) with (2 ^ 28); lia).
  destruct (rem_len_run w c (mk_header type dup qos 0) i u st 4 0 1 n rest) as [mult' Hr];
    try done; try lia.
  exists mult'. rewrite Hr. by replace (0 + n * 1) with n by lia.
Qed.

(** ** PUBLISH *)

(** The message made for a PUBLISH packet: the fields of the packet in
    buffers of the right size. *)
Definition received (client : Z) (m : message_st) (qos msg_id : Z) : message_st :=
  {| m_state := M_STATE_IN_USE; m_dup := m_dup m; m_orig_qos := qos; m_retain := 0;
     m_packet_id := if 0 <? qos then msg_id else 0;
     m_topic_len := m_topic_len m; m_payload_len := m_payload_len m;
     m_topic := msg_topic m ++ [0]; m_payload := msg_payload m ++ [0];
     m_client := client; m_not_done := junk_bytes MAX_NUM_WORKERS |}.

(** The array [topic] of the union has its declared size. *)
Definition union_wf (u : parser_u) : Prop :=
  match u with
  | U_connect co => zlen (co_protocol co) = 7 /\ zlen (co_will_topic co) = MAX_TOPIC_LEN + 1 /\
                    zlen (co_password co) = MAX_ID_LEN + 1
  | U_subscribe su => zlen (su_filter_lengths su) = MAX_NUM_TOPICS /\
                      zlen (su_filters su) = MAX_NUM_TOPICS /\ zlen (su_qos su) = MAX_NUM_TOPICS
  | U_publish pu => zlen (pu_topic pu) = MAX_TOPIC_LEN + 1
  end.

Lemma as_publish_wf u : union_wf u -> union_wf (U_publish (as_publish u)).
Proof. destruct u; try done; intros _; cbn; by rewrite zlen_junk_bytes. Qed.

Lemma as_subscribe_wf u : union_wf u -> union_wf (U_subscribe (as_subscribe u)).
Proof. destruct u; try done; intros _; cbn; by rewrite !zlen_junk_bytes. Qed.

Lemma as_connect_wf u : union_wf u -> union_wf (U_connect (as_connect u)).
Proof. destruct u; try done; intros _; cbn; by rewrite !zlen_junk_bytes. Qed.

(** What a PUBLISH packet for [m] has to satisfy for the parser to take it. *)
Record publishable (m : message_st) (qos msg_id : Z) : Prop := {
  pb_wf : message_wf m;
  pb_topic : 1 <= m_topic_len m <= MAX_TOPIC_LEN;
  pb_payload : 1 <= m_payload_len m < 65536;
  pb_retain : m_retain m = 0;
  pb_dup : 0 <= m_dup m <= 1;
  pb_qos : 0 <= qos <= 3;
  pb_id : 0 <= msg_id < 65536;
  pb_malloc : malloc_fails (MESSAGE_SIZE (m_topic_len m) (m_payload_len m)) = false
}.

(** The rounds, on a client given by the fields of its parser. *)
Lemma step_publish_topic_0 w c h rem i mult u b :
  step w (at_ c h rem i S_PUBLISH_TOPIC_0 mult u) b
  = Ok (Next w (at_ c h rem i S_PUBLISH_TOPIC_1 mult
      (U_publish ((as_publish u) <| pu_topic_len := u16 (Z.shiftl b 8) |>)))).
Proof. reflexivity. Qed.

Lemma step_publish_topic_1 w c h rem i mult pu b tl :
  Z.lor (pu_topic_len pu) b = tl -> 1 <= tl <= MAX_TOPIC_LEN ->
  step w (at_ c h rem i S_PUBLISH_TOPIC_1 mult (U_publish pu)) b
  = Ok (Next w (at_ c h rem 0 S_PUBLISH_TOPIC_2 mult (U_publish (pu <| pu_topic_len := tl |>)))).
Proof.
  intros <- Hl.
  transitivity (if (Z.lor (pu_topic_len pu) b =? 0) || (MAX_TOPIC_LEN <? Z.lor (pu_topic_len pu) b)
    then Ok (Return 1 w (Some (at_ c h rem i S_PUBLISH_TOPIC_1 mult
      (U_publish (pu <| pu_topic_len := Z.lor (pu_topic_len pu) b |>)))))
    else Ok (Next w (at_ c h rem 0 S_PUBLISH_TOPIC_2 mult
      (U_publish (pu <| pu_topic_len := Z.lor (pu_topic_len pu) b |>))))); [reflexivity|].
  destruct (Z.eqb_spec (Z.lor (pu_topic_len pu) b) 0); [lia|].
  by destruct (Z.ltb_spec MAX_TOPIC_LEN (Z.lor (pu_topic_len pu) b)); [lia|].
Qed.

Lemma step_publish_topic_2 w c h rem mult tl pl pre x post mp b :
  zlen pre + 1 < 65536 ->
  step w (at_ c h rem (zlen pre) S_PUBLISH_TOPIC_2 mult
            (U_publish (mk_publish tl pl (pre ++ x :: post) mp))) b
  = let c' := at_ c h rem (zlen (pre ++ [b])) S_PUBLISH_TOPIC_2 mult
                (U_publish (mk_publish tl pl ((pre ++ [b]) ++ post) mp)) in
    if zlen (pre ++ [b]) =? tl then publish_topic_done w c' else Ok (Next w c').
Proof.
  intros Hl. pose proof (zlen_nonneg pre).
  transitivity (t ← arr_set (pre ++ x :: post) (zlen pre) b;
    if u16 (zlen pre + 1) =? tl
    then publish_topic_done w (at_ c h rem (u16 (zlen pre + 1)) S_PUBLISH_TOPIC_2 mult
           (U_publish (mk_publish tl pl t mp)))
    else Ok (Next w (at_ c h rem (u16 (zlen pre + 1)) S_PUBLISH_TOPIC_2 mult
           (U_publish (mk_publish tl pl t mp))))); [reflexivity|].
  rewrite arr_set_app_mid. cbn [mbind outcome_bind].
  rewrite u16_small by lia. autorewrite with fb. by rewrite <- app_assoc.
Qed.

Lemma topic_done (w : W) c h rem i mult tl pl topic k mp x :
  1 <= tl -> zlen topic = tl -> 0 <= h_qos h < 256 -> 0 <= h_dup h < 256 ->
  h_retain h = 0 -> i = tl -> tl < 65536 ->
  let pl' := u32 (rem - tl - if truthy (h_qos h) then 4 else 2) in
  pl' <> 0 -> malloc_fails (MESSAGE_SIZE tl pl') = false ->
  exists payload, zlen payload = pl' /\
  publish_topic_done w (at_ c h rem i S_PUBLISH_TOPIC_2 mult
    (U_publish (mk_publish tl pl (topic ++ x :: k) mp)))
  = Ok (Next w (at_ c h rem 0
      (if truthy (h_qos h) then S_PUBLISH_PACKET_ID_0 else S_PUBLISH_PAYLOAD) mult
      (U_publish (mk_publish tl pl' (topic ++ 0 :: k)
        (Some {| m_state := M_STATE_IN_USE; m_dup := h_dup h; m_orig_qos := h_qos h;
                 m_retain := 0; m_packet_id := 0; m_topic_len := tl; m_payload_len := pl';
                 m_topic := topic ++ [0]; m_payload := payload ++ [0];
                 m_client := c_addr c; m_not_done := junk_bytes MAX_NUM_WORKERS |}))))).
Proof.
  intros Ht Hz Hq Hd Hr -> Htl pl' Hpl Hm.
  assert (0 <= pl' < 2 ^ 32) as Hpl' by apply u32_range.
  destruct (message_create_ok (c_addr c) tl pl' (h_dup h) (h_qos h) (h_retain h) 0)
    as (m & Hc & Hwf & Hst & Hmt & Hmp & Hmc & Hmd & Hmq & Hmr & Hmi & Htop & Hpay & Hnd); [lia|done|done|].
  exists (take (Z.to_nat pl') (junk_bytes (pl' + 1))). split.
  { unfold zlen. rewrite length_take, length_junk_bytes. lia. }
  assert (zlen (take (Z.to_nat tl) (junk_bytes (tl + 1))) = tl) as Hjt.
  { unfold zlen. rewrite length_take, length_junk_bytes. lia. }
  transitivity (t ← arr_set (topic ++ x :: k) tl 0;
    if pl' =? 0 then Ok (Return 1 w (Some (at_ c h rem tl
      (if truthy (h_qos h) then S_PUBLISH_PACKET_ID_0 else S_PUBLISH_PAYLOAD) mult
      (U_publish (mk_publish tl pl' t mp)))))
    else mo ← message_create (c_addr c) tl pl' (h_dup h) (h_qos h) (h_retain h) 0;
      match mo with
      | None => Ok (Return 1 w (Some (at_ c h rem 0
          (if truthy (h_qos h) then S_PUBLISH_PACKET_ID_0 else S_PUBLISH_PAYLOAD) mult
          (U_publish (mk_publish tl pl' t mp)))))
      | Some m => src ← arr_read t tl; t' ← arr_blit (m_topic m) 0 src;
          Ok (Next w (at_ c h rem 0
            (if truthy (h_qos h) then S_PUBLISH_PACKET_ID_0 else S_PUBLISH_PAYLOAD) mult
            (U_publish (mk_publish tl pl' t (Some (m <| m_topic := t' |>))))))
      end).
  { unfold publish_topic_done, pl'. by destruct (truthy (h_qos h)) eqn:E; cbn; rewrite E. }
  rewrite <- Hz at 1. rewrite arr_set_app_mid. cbn [mbind outcome_bind].
  destruct (Z.eqb_spec pl' 0); [done|]. rewrite Hc. cbn [mbind outcome_bind].
  rewrite arr_read_ok by done. cbn [mbind outcome_bind]. rewrite Htop.
  pose proof (arr_blit_ok [] (take (Z.to_nat tl) (junk_bytes (tl + 1))) [0] topic) as Hb.
  cbn [app] in Hb. change (zlen (@nil Z)) with 0 in Hb.
  rewrite Hb by (unfold zlen in *; lia). cbn [mbind outcome_bind].
  destruct m. cbn in *. subst. rewrite (u8_small (h_dup h)), (u8_small (h_qos h)), Hr by done.
  reflexivity.
Qed.

(** The topic of a PUBLISH packet up to the creation of the message. *)
Lemma publish_topic_run w c h rem i mult u topic rest :
  union_wf u -> 1 <= zlen topic <= MAX_TOPIC_LEN ->
  0 <= h_qos h < 256 -> 0 <= h_dup h < 256 -> h_retain h = 0 ->
  let tl := zlen topic in
  let pl := u32 (rem - tl - if truthy (h_qos h) then 4 else 2) in
  pl <> 0 -> malloc_fails (MESSAGE_SIZE tl pl) = false ->
  exists buf payload, zlen buf = MAX_TOPIC_LEN + 1 /\ zlen payload = pl /\
  run w (at_ c h rem i S_PUBLISH_TOPIC_0 mult u) (be16 tl ++ topic ++ rest)
  = run w (at_ c h rem 0
      (if truthy (h_qos h) then S_PUBLISH_PACKET_ID_0 else S_PUBLISH_PAYLOAD) mult
      (U_publish (mk_publish tl pl buf
        (Some {| m_state := M_STATE_IN_USE; m_dup := h_dup h; m_orig_qos := h_qos h;
                 m_retain := 0; m_packet_id := 0; m_topic_len := tl; m_payload_len := pl;
                 m_topic := topic ++ [0]; m_payload := payload ++ [0];
                 m_client := c_addr c; m_not_done := junk_bytes MAX_NUM_WORKERS |})))) rest.
Proof.
  intros Hu Ht Hq Hd Hr tl pl Hpl Hm. apply as_publish_wf in Hu. cbn in Hu.
  unfold MAX_TOPIC_LEN in *.
  unfold be16. cbn [app].
  rewrite (run_next _ _ _ _ _ _ (step_publish_topic_0 w c h rem i mult u (tl / 256))).
  erewrite run_next; [|apply step_publish_topic_1 with (tl := tl)].
  2:{ apply be16_decode. unfold tl. lia. }
  2:{ unfold MAX_TOPIC_LEN, tl. lia. }
  destruct (as_publish u) as [tl0 pl0 arr mp0]. cbn [pu_topic] in Hu.
  destruct (split_len topic arr) as (out & k & -> & Ho).
  { unfold zlen in *. lia. }
  destruct k as [|x k].
  { rewrite app_nil_r in Hu. unfold zlen in *. lia. }
  pose (f := fun pre post => at_ c h rem (zlen pre) S_PUBLISH_TOPIC_2 mult
               (U_publish (mk_publish tl pl0 (pre ++ post) mp0))).
  match goal with |- context [run w ?c1 (topic ++ rest)] =>
    change c1 with (f [] (out ++ x :: k)) end.
  destruct (fill_run w f tl topic out (x :: k) rest) as (pre & b & y & Hp & Hz & Hrun);
    [|done|unfold tl; lia|done|].
  { intros pre b y post Hpre. unfold f. rewrite step_publish_topic_2 by (unfold tl in *; lia).
    cbv zeta. destruct (Z.eqb_spec (zlen (pre ++ [b])) tl) as [E|]; [|done].
    autorewrite with fb in E. lia. }
  rewrite Hrun. unfold f. rewrite step_publish_topic_2 by (unfold tl in *; lia).
  cbv zeta. rewrite <- Hp, Z.eqb_refl.
  destruct (topic_done w c h rem tl mult tl pl0 topic k mp0 x) as (payload & Hpay & Hdone);
    try done; [unfold tl; lia..|].
  exists (topic ++ 0 :: k), payload. split_and!; [|done|].
  - autorewrite with fb in *. unfold zlen in *. lia.
  - fold tl. rewrite Hdone. done.
Qed.

Lemma step_publish_payload_eq w c h rem i mult tl pl buf m b :
  step w (at_ c h rem i S_PUBLISH_PAYLOAD mult (U_publish (mk_publish tl pl buf (Some m)))) b
  = t ← arr_set (m_payload m) i b;
    if u16 (i + 1) =? pl
    then t ← arr_set t (u16 (i + 1)) 0;
         finish (on_recv_publish w (at_ c h rem (u16 (i + 1)) S_PUBLISH_PAYLOAD mult
          (U_publish (mk_publish tl pl buf (Some (m <| m_payload := t |>)))))
          (m <| m_payload := t |>))
    else Ok (Next w (at_ c h rem (u16 (i + 1)) S_PUBLISH_PAYLOAD mult
          (U_publish (mk_publish tl pl buf (Some (m <| m_payload := t |>)))))).
Proof. reflexivity. Qed.

Lemma step_publish_payload w c h rem mult tl pl buf m pre x post b :
  zlen pre + 1 < 65536 -> m_payload m = pre ++ x :: post -> zlen pre + 1 <> pl ->
  step w (at_ c h rem (zlen pre) S_PUBLISH_PAYLOAD mult
            (U_publish (mk_publish tl pl buf (Some m)))) b
  = Ok (Next w (at_ c h rem (zlen (pre ++ [b])) S_PUBLISH_PAYLOAD mult
          (U_publish (mk_publish tl pl buf (Some (m <| m_payload := (pre ++ [b]) ++ post |>)))))).
Proof.
  intros Hl Hm Hpl. pose proof (zlen_nonneg pre). rewrite step_publish_payload_eq.
  rewrite Hm, arr_set_app_mid. cbn [mbind outcome_bind].
  rewrite u16_small by lia. autorewrite with fb.
  destruct (Z.eqb_spec (zlen pre + 1) pl); [lia|]. by rewrite <- app_assoc.
Qed.

Lemma step_publish_payload_last w c h rem mult tl pl buf m pre x b :
  zlen pre + 1 < 65536 -> m_payload m = pre ++ [x; 0] -> zlen pre + 1 = pl ->
  exists c',
  step w (at_ c h rem (zlen pre) S_PUBLISH_PAYLOAD mult
            (U_publish (mk_publish tl pl buf (Some m)))) b
  = finish (on_recv_publish w (at_ c h rem pl S_PUBLISH_PAYLOAD mult
          (U_publish (mk_publish tl pl buf (Some c')))) c') /\
  c' = m <| m_payload := (pre ++ [b]) ++ [0] |>.
Proof.
  intros Hl Hm <-. pose proof (zlen_nonneg pre). eexists. split; [|done].
  rewrite step_publish_payload_eq, Hm, arr_set_app_mid. cbn [mbind outcome_bind].
  rewrite u16_small, Z.eqb_refl by lia.
  replace (pre ++ b :: [0]) with ((pre ++ [b]) ++ [0]) by (by rewrite <- app_assoc).
  replace (zlen pre + 1) with (zlen (pre ++ [b])) by (by autorewrite with fb).
  by rewrite arr_set_app_mid.
Qed.

Lemma message_payload_eta (m : message_st) v w' :
  (m <| m_payload := v |>) <| m_payload := w' |> = m <| m_payload := w' |>.
Proof. done. Qed.

Lemma payload_run w c h rem mult tl buf m junkp payload rest :
  m_payload m = junkp ++ [0] -> length junkp = length payload -> 1 <= zlen payload < 65536 ->
  exists m',
  run w (at_ c h rem 0 S_PUBLISH_PAYLOAD mult
    (U_publish (mk_publish tl (zlen payload) buf (Some m)))) (payload ++ rest)
  = finish (on_recv_publish w (at_ c h rem (zlen payload) S_PUBLISH_PAYLOAD mult
      (U_publish (mk_publish tl (zlen payload) buf (Some m')))) m') ≫= cont rest /\
  m' = m <| m_payload := payload ++ [0] |>.
Proof.
  intros Hm Hj Hl.
  pose (f := fun pre post => at_ c h rem (zlen pre) S_PUBLISH_PAYLOAD mult
    (U_publish (mk_publish tl (zlen payload) buf (Some (m <| m_payload := pre ++ post |>))))).
  assert (m <| m_payload := [] ++ junkp ++ [0] |> = m) as Hm0.
  { cbn [app]. rewrite <- Hm. by destruct m. }
  destruct (fill_run w f (zlen payload) payload junkp [0] rest) as (pre & b & x & Hp & Hz & Hr);
    [|done|lia|done|].
  - intros pre b x post Hpre. unfold f. by rewrite (step_publish_payload _ _ _ _ _ _ _ _ _ pre x post) by (done || lia).
  - unfold f in Hr at 1. rewrite Hm0 in Hr. change (zlen (@nil Z)) with 0 in Hr. rewrite Hr.
    destruct (step_publish_payload_last w c h rem mult tl (zlen payload) buf
      (m <| m_payload := pre ++ [x; 0] |>) pre x b) as (m' & Hs & ->); [lia|done|lia|].
    eexists. split; [unfold f; by rewrite Hs|]. by rewrite message_payload_eta, Hp.
Qed.

Lemma packet_id_run w c h rem i mult tl pl buf m id rest :
  0 <= id < 65536 ->
  run w (at_ c h rem i S_PUBLISH_PACKET_ID_0 mult (U_publish (mk_publish tl pl buf (Some m))))
    (be16 id ++ rest)
  = run w (at_ c h rem i S_PUBLISH_PAYLOAD mult
      (U_publish (mk_publish tl pl buf (Some (m <| m_packet_id := id |>))))) rest.
Proof.
  intros Hid. unfold be16. cbn [app]. erewrite run_next by reflexivity.
  erewrite run_next by reflexivity.
  match goal with |- run w ?c1 _ = _ =>
    change c1 with (at_ c h rem i S_PUBLISH_PAYLOAD mult
      (U_publish (mk_publish tl pl buf (Some (m <| m_packet_id :=
        Z.lor (u16 (Z.shiftl (id / 256) 8)) (id mod 256) |>))))) end.
  by rewrite be16_decode.
Qed.

(** A whole PUBLISH packet. *)
Lemma publish_run w c h0 rem i mult u m qos id rest :
  publishable m qos id -> union_wf u ->
  exists rem' mult' u', union_wf u' /\
  run w (at_ c h0 rem i S_HEADER mult u) (publish_packet m qos id ++ rest)
  = finish (on_recv_publish w (at_ c (mk_header 3 (m_dup m) qos 0) rem' (m_payload_len m)
      S_PUBLISH_PAYLOAD mult' u') (received (c_addr c) m qos id)) ≫= cont rest.
Proof.
  intros [Hwf Ht Hp Hr Hd Hq Hid Hm] Hu. unfold MAX_TOPIC_LEN in *.
  destruct (message_topic_split m Hwf) as (_ & _ & Hzt).
  destruct (message_payload_split m Hwf) as (_ & _ & Hzp).
  pose proof (zlen_publish_body m qos id Hwf) as Hb.
  assert (0 <= zlen (publish_body m qos id) < 2 ^ 28) by (destruct (0 <? qos); lia).
  unfold publish_packet. rewrite Hr. cbn [app]. rewrite <- app_assoc.
  destruct (fixed_header_run w c h0 rem i mult u 3 (m_dup m) qos (zlen (publish_body m qos id))
    S_PUBLISH_TOPIC_0 (publish_body m qos id ++ rest)) as [mult' ->]; [done|lia..|].
  unfold publish_body at 2. rewrite <- !app_assoc, <- Hzt.
  set (h := mk_header 3 (m_dup m) qos 0). set (rem' := zlen (publish_body m qos id)) in *.
  assert (u32 (rem' - zlen (msg_topic m) - (if truthy qos then 4 else 2)) = m_payload_len m) as Hpl.
  { rewrite Hzt, Hb. unfold truthy. destruct (Z.eqb_spec qos 0), (Z.ltb_spec 0 qos); try lia;
      cbn [negb]; rewrite u32_small by lia; lia. }
  destruct (publish_topic_run w c h rem' i mult' u (msg_topic m)
    ((if 0 <? qos then be16 id else []) ++ msg_payload m ++ rest))
    as (buf & pay & Hbuf & Hpay & Hrun); try done; cbn [h h_qos h_dup].
  1-3: unfold MAX_TOPIC_LEN; lia.
  { rewrite Hpl. lia. }
  { rewrite Hpl, Hzt. done. }
  cbn [h h_qos h_dup] in Hrun, Hpay. rewrite Hpl in Hrun, Hpay. rewrite Hrun. clear Hrun.
  set (m1 := {| m_state := _ |}).
  assert (exists m2, run w (at_ c h rem' 0 (if truthy qos then S_PUBLISH_PACKET_ID_0 else S_PUBLISH_PAYLOAD)
    mult' (U_publish (mk_publish (zlen (msg_topic m)) (m_payload_len m) buf (Some m1))))
    ((if 0 <? qos then be16 id else []) ++ msg_payload m ++ rest)
    = run w (at_ c h rem' 0 S_PUBLISH_PAYLOAD mult'
        (U_publish (mk_publish (zlen (msg_topic m)) (m_payload_len m) buf (Some m2))))
        (msg_payload m ++ rest) /\
    m_payload m2 = pay ++ [0] /\
    m2 <| m_payload := msg_payload m ++ [0] |> = received (c_addr c) m qos id)
    as (m2 & -> & Hm2 & Hrec).
  { unfold truthy, received. rewrite <- Hzt. destruct (Z.eqb_spec qos 0), (Z.ltb_spec 0 qos); try lia; cbn [negb].
    - exists m1. split_and!; try done. 
    - exists (m1 <| m_packet_id := id |>). rewrite packet_id_run by done. done. }
  rewrite <- Hzp.
  destruct (payload_run w c h rem' mult' (zlen (msg_topic m)) buf m2 pay (msg_payload m) rest)
    as (m' & -> & ->); [done|unfold zlen in *; lia|lia|].
  rewrite Hrec. eexists _, _, _. split; [|reflexivity]. exact Hbuf.
Qed.

(** ** Long payloads *)

(** The payload index is 16 bits wide, [payload_len] 32: with a payload of
    more than 65535 bytes the index never reaches it. *)
Lemma long_payload_run w c h rem mult tl pl buf bs m i :
  0 <= i < 65536 -> 65536 <= pl -> zlen (m_payload m) = pl + 1 ->
  exists i' m', run w (at_ c h rem i S_PUBLISH_PAYLOAD mult
      (U_publish (mk_publish tl pl buf (Some m)))) bs
    = Ok (Next w (at_ c h rem i' S_PUBLISH_PAYLOAD mult
        (U_publish (mk_publish tl pl buf (Some m'))))).
Proof.
  intros Hi Hpl. revert i Hi m. induction bs as [|b bs IH]; intros i Hi m Hm; [by eexists _, _|].
  pose proof (u16_range (i + 1)).
  assert (step w (at_ c h rem i S_PUBLISH_PAYLOAD mult (U_publish (mk_publish tl pl buf (Some m)))) b
    = Ok (Next w (at_ c h rem (u16 (i + 1)) S_PUBLISH_PAYLOAD mult
        (U_publish (mk_publish tl pl buf (Some (m <| m_payload := <[Z.to_nat i := b]> (m_payload m) |>)))))))
    as Hs.
  { rewrite step_publish_payload_eq, arr_set_ok by lia. cbn [mbind outcome_bind].
    by destruct (Z.eqb_spec (u16 (i + 1)) pl); [lia|]. }
  rewrite (run_next _ _ _ _ _ _ Hs).
  apply IH; [done|]. transitivity (zlen (<[Z.to_nat i:=b]> (m_payload m))); [done|].
  unfold zlen in *. by rewrite length_insert.
Qed.

Lemma client_eta (c : client_st) :
  c = at_ c (ps_header (c_parser c)) (ps_rem_len (c_parser c)) (ps_i (c_parser c))
        (ps_state (c_parser c)) (ps_multiplier (c_parser c)) (ps_u (c_parser c)).
Proof. by destruct c as [? ? ? ? ? ? ? ? ? [] ]. Qed.

Lemma execute_run w c buf :
  mqtt_parser_execute anon w c buf
  = run w c buf ≫= (fun r => match r with
      | Next w c => Ok (0, w, Some c) | Return rv w oc => Ok (rv, w, oc) end).
Proof. done. Qed.

(** What [mqtt_parser_execute] makes of a callback's result, when [rest] is
    left in the buffer. *)
Definition deliver (rest : list Z) (r : outcome (Z * W * option client_st))
  : outcome (Z * W * option client_st) :=
  '(rc, w, oc) ← r;
  if truthy rc then mret (1, w, oc)
  else match oc with
       | Some c => mqtt_parser_execute anon w (set_state c S_HEADER) rest
       | None => Undef UseAfterFree
       end.

Lemma execute_finish w c buf rest r :
  run w c buf = finish r ≫= cont rest -> mqtt_parser_execute anon w c buf = deliver rest r.
Proof.
  intros Hr. rewrite execute_run, Hr. destruct r as [[[rc w'] oc]| | |]; try done. cbn.
  destruct (truthy rc); [done|]. by destruct oc.
Qed.

Lemma feed_execute w c bufs :
  disconnect_frees -> feed w c bufs = mqtt_parser_execute anon w c (concat bufs).
Proof.
  intros Hd. revert w c. induction bufs as [|buf bufs IH]; intros w c; [done|].
  cbn [feed concat]. rewrite !execute_run, run_app, !bind_assoc.
  destruct (run w c buf) as [[w1 c1|rv w1 [c1|]]| | |] eqn:Hr; try done; cbn [mbind outcome_bind].
  - change (truthy 0) with false. cbv iota. rewrite IH. by rewrite execute_run.
  - assert (truthy rv = true) as -> by (by eapply run_return). done.
Qed.

End spec.

(** ** Recording callbacks *)

Inductive event :=
  | EvConnect (c : client_st) (co : connect_st)
  | EvSubscribe (su : subscribe_st)
  | EvUnsubscribe (su : subscribe_st)
  | EvPublish (m : message_st)
  | EvPing
  | EvDisconnect.

(** Every callback accepts, and appends to the list of events;
    [c_disconnect_normal] releases the client. *)
#[export] Instance recorder : MqttCallbacks (list event) := {|
  on_recv_connect w c co := Ok (0, w ++ [EvConnect c co], Some c);
  on_recv_subscribe w c su := Ok (0, w ++ [EvSubscribe su], Some c);
  on_recv_unsubscribe w c su := Ok (0, w ++ [EvUnsubscribe su], Some c);
  on_recv_publish w c m := Ok (0, w ++ [EvPublish m], Some c);
  on_recv_ping w c := Ok (0, w ++ [EvPing], Some c);
  c_disconnect_normal w c := Ok (w ++ [EvDisconnect], None)
|}.

Lemma recorder_disconnect_frees : @disconnect_frees (list event) recorder.
Proof. by intros w c w' c' Hx. Qed.

(** A message with the QoS and packet identifier it is sent with. *)
Record outgoing := mk_outgoing { og_message : message_st; og_qos : Z; og_id : Z }.

(** The bytes of several PUBLISH packets, each encoded in [buf]; [Halt] when
    one does not fit. *)
Fixpoint encode_all (buf : list Z) (os : list outgoing) : outcome (list Z) :=
  match os with
  | [] => mret []
  | o :: os =>
      '(out, n) ← encode_publish buf (zlen buf) (og_message o) (og_qos o) (og_id o);
      if n =? 0 then Halt
      else rest ← encode_all buf os; mret (take (Z.to_nat n) out ++ rest)
  end.

Definition og_ok `{Libc} (o : outgoing) : Prop := publishable (og_message o) (og_qos o) (og_id o).

Lemma encode_all_ok `{Libc} buf os wire :
  Forall og_ok os -> encode_all buf os = Ok wire ->
  wire = concat ((fun o => publish_packet (og_message o) (og_qos o) (og_id o)) <$> os).
Proof.
  intros Hos. revert wire. induction Hos as [|[m qos id] os Ho Hos IH]; intros wire He.
  { cbn in He. injection He as <-. done. }
  destruct Ho as [Hwf Ht Hp Hr Hd Hq Hid Hm]. cbn [encode_all og_message og_qos og_id] in *.
  pose proof (zlen_publish_body m qos id Hwf) as Hb. unfold MAX_TOPIC_LEN in *.
  assert (0 <= zlen (publish_body m qos id) < 2 ^ 28 - 1) as Hbl by (destruct (0 <? qos); lia).
  inv_bind. destruct a as [out n]. destruct (Z.eqb_spec n 0) as [|Hn]; [done|]. inv_bind.
  rewrite (IH a) by done. clear IH. rewrite fmap_cons. cbn [concat]. f_equal.
  cbn [og_message og_qos og_id].
  destruct (packet_len_ok _ Hbl) as (p & Hpl & Hpb & _).
  destruct (Z.ltb_spec (zlen buf) p) as [Hlt|Hge].
  - exfalso. apply Hn. unfold encode_publish in Ha.
    rewrite (publish_len_ok m qos id) in Ha by (done || lia). cbn [mbind outcome_bind] in Ha.
    rewrite i32_small, Hpl in Ha by (unfold int_min, int_max; lia). cbn [mbind outcome_bind] in Ha.
    destruct (Z.ltb_spec (zlen buf) p); [|lia]. by inv_bind; simplify_eq.
  - assert (zlen (publish_packet m qos id) <= zlen buf) as Hl.
    { unfold publish_packet. autorewrite with fb. lia. }
    destruct (split_len (publish_packet m qos id) buf) as (o & rest & -> & Hlo).
    { unfold zlen in *. lia. }
    rewrite (encode_publish_ok m qos id o rest) with (p := p) in Ha by (done || lia).
    assert (out = publish_packet m qos id ++ rest) as -> by congruence.
    assert (n = zlen (publish_packet m qos id)) as -> by congruence.
    unfold zlen. by rewrite Nat2Z.id, take_app_length.
Qed.

Lemma publish_stream_run `{Libc} anon evs c os :
  Forall og_ok os -> ps_state (c_parser c) = S_HEADER -> union_wf (ps_u (c_parser c)) ->
  exists p', ps_state p' = S_HEADER /\
  parse_loop anon evs c
    (concat ((fun o => publish_packet (og_message o) (og_qos o) (og_id o)) <$> os))
  = Ok (Next (evs ++ ((fun o => EvPublish (received (c_addr c) (og_message o) (og_qos o) (og_id o))) <$> os))
       (c <| c_parser := p' |>)).
Proof.
  intros Hos. revert evs c. induction Hos as [|[m qos id] os Ho Hos IH]; intros evs c Hst Hu.
  { exists (c_parser c). split; [done|]. cbn. rewrite app_nil_r. by destruct c. }
  pose proof (client_eta c) as Hc. rewrite Hst in Hc. rewrite fmap_cons. cbn [concat og_message og_qos og_id].
  destruct (publish_run anon evs c (ps_header (c_parser c)) (ps_rem_len (c_parser c)) (ps_i (c_parser c))
    (ps_multiplier (c_parser c)) (ps_u (c_parser c)) m qos id
    (concat ((fun o => publish_packet (og_message o) (og_qos o) (og_id o)) <$> os)))
    as (rem' & mult' & u' & Hu' & Hrun); [done|done|].
  rewrite <- Hc in Hrun. rewrite Hrun. cbn. set (c1 := set_state _ _).
  destruct (IH (evs ++ [EvPublish (received (c_addr c) m qos id)]) c1) as (p' & Hp' & Hr).
  { done. }
  { done. }
  exists p'. split; [done|]. rewrite Hr. by rewrite <- app_assoc.
Qed.

(** ** Theorems *)

(** C23.  How the input is cut into buffers does not matter: feeding the
    buffers one after the other, stopping when the parser returns an error or
    the client is gone, gives the same result code, broker state and client
    as one call on the concatenation, whatever the callbacks do, provided
    [c_disconnect_normal] releases the client. *)
Theorem parser_chunking `{Libc} {W : Type} `{MqttCallbacks W} anon w c bufs :
  disconnect_frees -> feed anon w c bufs = mqtt_parser_execute anon w c (concat bufs).
Proof. apply feed_execute. Qed.

(** C5.  Round trip: the bytes [encode_publish] produces for any sequence of
    messages (topics of 1 to 127 bytes, payloads of 1 to 65535) are parsed,
    from a parser between packets, as exactly those messages in that order:
    each PUBLISH callback gets a fresh message with the topic, payload, QoS,
    DUP flag and packet identifier that were encoded, the result is 0, and
    nothing but the parser of the client has changed. *)
Theorem publish_roundtrip `{Libc} anon evs c buf os wire :
  Forall og_ok os -> encode_all buf os = Ok wire ->
  ps_state (c_parser c) = S_HEADER -> union_wf (ps_u (c_parser c)) ->
  exists p', ps_state p' = S_HEADER /\
  mqtt_parser_execute anon evs c wire
  = Ok (0, evs ++ ((fun o => EvPublish (received (c_addr c) (og_message o) (og_qos o) (og_id o))) <$> os),
        Some (c <| c_parser := p' |>)).
Proof.
  intros Hos He Hst Hu. rewrite (encode_all_ok buf os wire) by done.
  destruct (publish_stream_run anon evs c os) as (p' & Hp' & Hr); try done.
  exists p'. split; [done|]. by rewrite execute_run, Hr.
Qed.

(** A PUBLISH whose payload is longer than 65535 bytes, the range of the
    parser's 16-bit index, is never delivered and never ends: whatever
    follows it on the connection is swallowed as payload. *)
Theorem long_publish_swallows `{Libc} {W : Type} `{MqttCallbacks W} anon w c topic body n :
  ps_state (c_parser c) = S_HEADER -> union_wf (ps_u (c_parser c)) ->
  1 <= zlen topic <= MAX_TOPIC_LEN -> 65536 + 2 + zlen topic <= n < 2 ^ 28 ->
  malloc_fails (MESSAGE_SIZE (zlen topic) (n - zlen topic - 2)) = false ->
  exists c', mqtt_parser_execute anon w c
    (encode_header_byte 3 0 0 0 :: rem_len_bytes n ++ be16 (zlen topic) ++ topic ++ body)
  = Ok (0, w, Some c') /\ ps_state (c_parser c') = S_PUBLISH_PAYLOAD.
Proof.
  intros Hst Hu Ht Hn Hm. pose proof (client_eta c) as Hc. rewrite Hst in Hc. unfold MAX_TOPIC_LEN in *.
  edestruct (fixed_header_run anon w c (ps_header (c_parser c)) (ps_rem_len (c_parser c))
    (ps_i (c_parser c)) (ps_multiplier (c_parser c)) (ps_u (c_parser c)) 3 0 0 n S_PUBLISH_TOPIC_0)
    as [mult' Hh]; [done|lia..|]. rewrite <- Hc in Hh. rewrite execute_run, Hh. clear Hc Hh.
  assert (u32 (n - zlen topic - 2) = n - zlen topic - 2) as Hpl by (apply u32_small; lia).
  edestruct (publish_topic_run anon w c (mk_header 3 0 0 0) n) as (buf & pay & Hbuf & Hpay & Hr);
    [exact Hu|exact Ht| | | | | |rewrite Hr; clear Hr]; cbn; rewrite ?Hpl; try done; try lia.
  edestruct (long_payload_run anon w c) as (i' & m' & Hr); [| | |rewrite Hr; clear Hr].
  { lia. }
  { lia. }
  { cbn in *. rewrite zlen_app, Hpay, Hpl. done. }
  by eexists.
Qed.

Lemma parser_chunking_witness :
  @feed calm_libc (list event) recorder 1 [] example_client [[48; 5]; [0; 1; 97]; [104; 105]]
  = mqtt_parser_execute (H := calm_libc) 1 [] example_client [48; 5; 0; 1; 97; 104; 105].
Proof.
  apply (@parser_chunking calm_libc (list event) recorder 1 [] example_client
    [[48; 5]; [0; 1; 97]; [104; 105]]).
  intros w c w' c' Hx. discriminate Hx.
Defined.

Definition example_outgoing : list outgoing :=
  [mk_outgoing example_message 1 258; mk_outgoing example_message 0 0].

Lemma publish_roundtrip_witness :
  exists p', ps_state p' = S_HEADER /\
  mqtt_parser_execute (H := calm_libc) 0 [] example_client
    [50; 9; 0; 3; 97; 47; 98; 1; 2; 104; 105; 48; 7; 0; 3; 97; 47; 98; 104; 105]
  = Ok (0, (fun o => EvPublish (received (H := calm_libc) 5 (og_message o) (og_qos o) (og_id o)))
             <$> example_outgoing,
        Some (example_client <| c_parser := p' |>)).
Proof.
  apply (publish_roundtrip (H := calm_libc) 0 [] example_client (replicate 20 0) example_outgoing).
  - assert (message_wf example_message) by (by constructor; vm_compute).
    repeat constructor; cbn; try done; vm_compute; congruence.
  - vm_compute. reflexivity.
  - reflexivity.
  - reflexivity.
Defined.

Lemma long_publish_swallows_witness :
  exists c', mqtt_parser_execute (H := calm_libc) 0 [] example_client
    (encode_header_byte 3 0 0 0 :: rem_len_bytes 65539 ++ be16 (zlen [97]) ++ [97] ++ [1; 2; 3])
  = Ok (0, [], Some c') /\ ps_state (c_parser c') = S_PUBLISH_PAYLOAD.
Proof.
  apply (long_publish_swallows (H := calm_libc) 0 [] example_client [97] [1; 2; 3] 65539);
    [reflexivity|reflexivity|vm_compute; split; congruence|vm_compute; split; congruence|reflexivity].
Defined.
