(* ===== verification/ParserConnect.v ===== *)
(** * CONNECT packets

    A CONNECT packet without a will, for both protocol names, is followed
    through the parser up to the callback, on every branch: user name and
    password present or absent, anonymous connections allowed or not. *)

From S2P Require Import Prelude MqttPacket MqttEncode ClientTypes MqttParser ParserSpec.

(** ** The packet *)

Record connect_req := mk_connect_req {
  cr_old : bool;                  (* "MQIsdp", version 3, instead of "MQTT", 4 *)
  cr_clean : Z;
  cr_keep_alive : Z;
  cr_id : list Z;
  cr_user : option (list Z);
  cr_pass : option (list Z)
}.

Definition string16 (s : list Z) : list Z := be16 (zlen s) ++ s.
Definition opt_string16 (o : option (list Z)) : list Z :=
  match o with Some s => string16 s | None => [] end.
Definition opt_bit {A} (o : option A) : Z := match o with Some _ => 1 | None => 0 end.

Definition connect_flags (r : connect_req) : Z :=
  opt_bit (cr_user r) * 128 + opt_bit (cr_pass r) * 64 + cr_clean r * 2.

Definition connect_body (r : connect_req) : list Z :=
  (if cr_old r then string16 name_MQIsdp ++ [3] else string16 name_MQTT ++ [4]) ++
  [connect_flags r] ++ be16 (cr_keep_alive r) ++ string16 (cr_id r) ++
  opt_string16 (cr_user r) ++ opt_string16 (cr_pass r).

Definition connect_packet (r : connect_req) : list Z :=
  encode_header_byte 1 0 0 0 :: rem_len_bytes (zlen (connect_body r)) ++ connect_body r.

Definition id_ok (s : list Z) : Prop := 1 <= zlen s <= MAX_ID_LEN.

Record connect_req_ok (r : connect_req) : Prop := {
  cq_clean : 0 <= cr_clean r <= 1;
  cq_keep_alive : 0 <= cr_keep_alive r < 65536;
  cq_id : id_ok (cr_id r);
  cq_user : from_option id_ok True (cr_user r);
  cq_pass : from_option id_ok True (cr_pass r)
}.

(** The fixed arrays of a client. *)
Record client_wf (c : client_st) : Prop := {
  cw_client_id : zlen (c_client_id c) = MAX_ID_LEN + 1;
  cw_username : zlen (c_username c) = MAX_ID_LEN + 1;
  cw_will_topic : zlen (c_will_topic c) = MAX_TOPIC_LEN + 1;
  cw_union : union_wf (ps_u (c_parser c))
}.

(** [arr] starts with the NUL-terminated string [s]. *)
Definition holds_string (arr s : list Z) : Prop := exists k, arr = s ++ 0 :: k.

Section connect.
Context `{Libc} {W : Type} `{MqttCallbacks W} (anon : Z).

Notation run := (parse_loop anon).
Notation step := (mqtt_parser_step anon).

Lemma step_protocol_0 w c h rem i mult u b :
  step w (at_ c h rem i S_CONNECT_PROTOCOL_0 mult u) b
  = Ok (Next w (at_ c h rem i S_CONNECT_PROTOCOL_1 mult
      (U_connect ((as_connect u) <| co_u16 := u16 (Z.shiftl b 8) |>)))).
Proof. reflexivity. Qed.

Lemma step_protocol_1 w c h rem i mult fl pr x wl wt pw b :
  Z.lor x b <= 6 ->
  step w (at_ c h rem i S_CONNECT_PROTOCOL_1 mult (U_connect (mk_connect fl pr x wl wt pw))) b
  = Ok (Next w (at_ c h rem 0 S_CONNECT_PROTOCOL_2 mult
      (U_connect (mk_connect fl pr (Z.lor x b) wl wt pw)))).
Proof.
  intros Hl.
  transitivity (if 7 - 1 <? Z.lor x b
    then Ok (Return 1 w (Some (at_ c h rem i S_CONNECT_PROTOCOL_1 mult
           (U_connect (mk_connect fl pr (Z.lor x b) wl wt pw)))))
    else Ok (Next w (at_ c h rem 0 S_CONNECT_PROTOCOL_2 mult
           (U_connect (mk_connect fl pr (Z.lor x b) wl wt pw))))); [reflexivity|].
  by destruct (Z.ltb_spec (7 - 1) (Z.lor x b)); [lia|].
Qed.

Lemma step_protocol_2 w c h rem mult fl pre x post n wl wt pw b :
  zlen pre + 1 < 65536 ->
  step w (at_ c h rem (zlen pre) S_CONNECT_PROTOCOL_2 mult
            (U_connect (mk_connect fl (pre ++ x :: post) n wl wt pw))) b
  = Ok (Next w (at_ c h rem (zlen (pre ++ [b]))
      (if zlen (pre ++ [b]) =? n then S_CONNECT_VERSION else S_CONNECT_PROTOCOL_2) mult
      (U_connect (mk_connect fl ((pre ++ [b]) ++ post) n wl wt pw)))).
Proof.
  intros Hl. pose proof (zlen_nonneg pre).
  transitivity (t ← arr_set (pre ++ x :: post) (zlen pre) b;
    Ok (Next w (if u16 (zlen pre + 1) =? n
      then at_ c h rem (u16 (zlen pre + 1)) S_CONNECT_VERSION mult
        (U_connect (mk_connect fl t n wl wt pw))
      else at_ c h rem (u16 (zlen pre + 1)) S_CONNECT_PROTOCOL_2 mult
        (U_connect (mk_connect fl t n wl wt pw))))); [reflexivity|].
  rewrite arr_set_app_mid. cbn [mbind outcome_bind]. rewrite u16_small by lia.
  autorewrite with fb. rewrite <- app_assoc. by destruct (_ =? _).
Qed.

Lemma step_version w c h rem i mult fl name k n wl wt pw b :
  name = name_MQTT /\ n = 4 /\ b = 4 \/ name = name_MQIsdp /\ n = 6 /\ b = 3 ->
  step w (at_ c h rem i S_CONNECT_VERSION mult (U_connect (mk_connect fl (name ++ k) n wl wt pw))) b
  = Ok (Next w (at_ c h rem i S_CONNECT_FLAGS mult (U_connect (mk_connect fl (name ++ k) n wl wt pw)))).
Proof.
  intros Hn.
  transitivity (if ((n =? 4) && (b =? 4) && bool_decide (take 4 (name ++ k) = name_MQTT))
      || ((n =? 6) && (b =? 3) && bool_decide (take 6 (name ++ k) = name_MQIsdp))
    then Ok (Next w (at_ c h rem i S_CONNECT_FLAGS mult
           (U_connect (mk_connect fl (name ++ k) n wl wt pw))))
    else Ok (Return 1 w (Some (at_ c h rem i S_CONNECT_VERSION mult
           (U_connect (mk_connect fl (name ++ k) n wl wt pw)))))); [reflexivity|].
  destruct Hn as [(-> & -> & ->)|(-> & -> & ->)]; reflexivity.
Qed.

(** Protocol name and version. *)
Lemma protocol_run (old : bool) w c h rem i mult u rest :
  union_wf u ->
  exists co i', union_wf (U_connect co) /\
  run w (at_ c h rem i S_CONNECT_PROTOCOL_0 mult u)
    ((if old then string16 name_MQIsdp ++ [3] else string16 name_MQTT ++ [4]) ++ rest)
  = run w (at_ c h rem i' S_CONNECT_FLAGS mult (U_connect co)) rest.
Proof.
  intros Hu. apply as_connect_wf in Hu. destruct Hu as (Hp & Ht & Hpw).
  assert (exists name v, (if old then string16 name_MQIsdp ++ [3] else string16 name_MQTT ++ [4])
      = string16 name ++ [v] /\ 1 <= zlen name <= 6 /\
      (name = name_MQTT /\ zlen name = 4 /\ v = 4 \/ name = name_MQIsdp /\ zlen name = 6 /\ v = 3))
    as (name & v & -> & Hl & Hn).
  { destruct old; [exists name_MQIsdp, 3|exists name_MQTT, 4]; (split; [done|]); split; try done; auto. }
  unfold string16, be16. cbn [app]. rewrite <- app_assoc.
  rewrite (run_next _ _ _ _ _ _ _ (step_protocol_0 w c h rem i mult u _)).
  destruct (as_connect u) as [fl pr x16 wl wt pw]. cbn in Hp, Ht, Hpw.
  rewrite (run_next _ _ _ _ _ _ _ (step_protocol_1 w c h rem i mult fl pr _ wl wt pw
    (zlen name mod 256) ltac:(rewrite be16_decode by lia; lia))).
  rewrite be16_decode by lia.
  destruct (split_len name pr) as (out & k & -> & Ho).
  { unfold zlen in *. lia. }
  pose (f := fun pre post => at_ c h rem (zlen pre) S_CONNECT_PROTOCOL_2 mult
    (U_connect (mk_connect fl (pre ++ post) (zlen name) wl wt pw))).
  change (at_ c h rem 0 _ _ _) with (f [] (out ++ k)).
  destruct (fill_run anon w f (zlen name) name out k ([v] ++ rest)) as (pre & b & y & Hp' & Hz & ->);
    [|done|lia|done|].
  { intros pre b y post Hpre. unfold f. rewrite step_protocol_2 by lia.
    destruct (Z.eqb_spec (zlen (pre ++ [b])) (zlen name)) as [E|]; [|done].
    autorewrite with fb in E. lia. }
  unfold f. rewrite step_protocol_2 by lia. rewrite <- Hp', Z.eqb_refl. cbn [mbind outcome_bind cont app].
  rewrite (run_next _ _ _ _ _ _ _ (step_version w c h rem _ mult fl name k _ wl wt pw v Hn)).
  eexists _, _. split; [|reflexivity]. split_and!; [|done|done]. cbn.
  rewrite zlen_app in *. unfold zlen in *. lia.
Qed.

Lemma step_flags w c h rem i mult co b :
  step w (at_ c h rem i S_CONNECT_FLAGS mult (U_connect co)) b
  = Ok (Next w (at_ c h rem i S_CONNECT_KEEP_ALIVE_0 mult (U_connect (co <| co_flags :=
      mk_flags (Z.land (Z.shiftr b 2) 1) (Z.land (Z.shiftr b 3) 3) (Z.land (Z.shiftr b 5) 1)
        (Z.land (Z.shiftr b 1) 1) (Z.shiftr b 7) (Z.land (Z.shiftr b 6) 1) |>)))).
Proof. reflexivity. Qed.

Lemma keep_alive_run w c h rem i mult u ka rest :
  0 <= ka < 65536 ->
  run w (at_ c h rem i S_CONNECT_KEEP_ALIVE_0 mult u) (be16 ka ++ rest)
  = run w (at_ (c <| c_keep_alive := ka |>) h rem i S_CONNECT_CLIENT_ID_0 mult u) rest.
Proof.
  intros Hka. unfold be16. cbn [app].
  erewrite run_next by reflexivity. erewrite run_next by reflexivity.
  match goal with |- run w ?c1 _ = _ =>
    change c1 with (at_ (c <| c_keep_alive := Z.lor (u16 (Z.shiftl (ka / 256) 8)) (ka mod 256) |>)
      h rem i S_CONNECT_CLIENT_ID_0 mult u) end.
  by rewrite be16_decode.
Qed.

(** A length field of 1 to 127 and the state that fills an array. *)
Lemma step_client_id_0 w c h rem i mult u b :
  step w (at_ c h rem i S_CONNECT_CLIENT_ID_0 mult u) b
  = Ok (Next w (at_ (c <| c_client_id_len := Z.shiftl b 8 |>) h rem i S_CONNECT_CLIENT_ID_1 mult u)).
Proof. reflexivity. Qed.

Lemma step_client_id_1 w c h rem i mult u b :
  1 <= Z.lor (c_client_id_len c) b <= MAX_ID_LEN ->
  step w (at_ c h rem i S_CONNECT_CLIENT_ID_1 mult u) b
  = Ok (Next w (at_ (c <| c_client_id_len := Z.lor (c_client_id_len c) b |>) h rem 0
      S_CONNECT_CLIENT_ID_2 mult u)).
Proof.
  intros Hl. set (n := Z.lor (c_client_id_len c) b) in *.
  transitivity (if (n =? 0) || (MAX_ID_LEN <? n)
    then Ok (Return 1 w (Some (at_ (c <| c_client_id_len := n |>) h rem i S_CONNECT_CLIENT_ID_1 mult u)))
    else Ok (Next w (at_ (c <| c_client_id_len := n |>) h rem 0 S_CONNECT_CLIENT_ID_2 mult u)));
    [reflexivity|].
  destruct (Z.eqb_spec n 0); [lia|]. by destruct (Z.ltb_spec MAX_ID_LEN n); [lia|].
Qed.

(** What follows the client identifier. *)
Definition after_client_id (w : W) (c : client_st) h rem i mult (u : parser_u)
  : outcome (step_res W) :=
  let f := co_flags (as_connect u) in
  let at' s := at_ c h rem i s mult u in
  if truthy (f_will f) then Ok (Next w (at' S_CONNECT_WILL_TOPIC_0))
  else if truthy (f_username_present f) then Ok (Next w (at' S_CONNECT_USERNAME_0))
  else if truthy (f_password_present f) then Ok (Return 1 w (Some (at' S_CONNECT_CLIENT_ID_2)))
  else if negb (truthy anon) then Ok (Return 1 w (Some (at' S_CONNECT_CLIENT_ID_2)))
  else finish (on_recv_connect w (at' S_CONNECT_CLIENT_ID_2) (as_connect u)).

Lemma step_client_id_2 w c h rem i mult u b :
  step w (at_ c h rem i S_CONNECT_CLIENT_ID_2 mult u) b
  = t ← arr_set (c_client_id c) i b;
    if u16 (i + 1) =? c_client_id_len c
    then t ← arr_set t (u16 (i + 1)) 0;
         after_client_id w (c <| c_client_id := t |>) h rem (u16 (i + 1)) mult u
    else Ok (Next w (at_ (c <| c_client_id := t |>) h rem (u16 (i + 1)) S_CONNECT_CLIENT_ID_2 mult u)).
Proof. reflexivity. Qed.

Lemma step_username_0 w c h rem i mult u b :
  step w (at_ c h rem i S_CONNECT_USERNAME_0 mult u) b
  = Ok (Next w (at_ (c <| c_username_len := Z.shiftl b 8 |>) h rem i S_CONNECT_USERNAME_1 mult u)).
Proof. reflexivity. Qed.

Lemma step_username_1 w c h rem i mult u b :
  1 <= Z.lor (c_username_len c) b <= MAX_ID_LEN ->
  step w (at_ c h rem i S_CONNECT_USERNAME_1 mult u) b
  = Ok (Next w (at_ (c <| c_username_len := Z.lor (c_username_len c) b |>) h rem 0
      S_CONNECT_USERNAME_2 mult u)).
Proof.
  intros Hl. set (n := Z.lor (c_username_len c) b) in *.
  transitivity (if (n =? 0) || (MAX_ID_LEN <? n)
    then Ok (Return 1 w (Some (at_ (c <| c_username_len := n |>) h rem i S_CONNECT_USERNAME_1 mult u)))
    else Ok (Next w (at_ (c <| c_username_len := n |>) h rem 0 S_CONNECT_USERNAME_2 mult u)));
    [reflexivity|].
  destruct (Z.eqb_spec n 0); [lia|]. by destruct (Z.ltb_spec MAX_ID_LEN n); [lia|].
Qed.

Lemma step_username_2 w c h rem i mult u b :
  step w (at_ c h rem i S_CONNECT_USERNAME_2 mult u) b
  = t ← arr_set (c_username c) i b;
    if u16 (i + 1) =? c_username_len c
    then t ← arr_set t (u16 (i + 1)) 0;
         Ok (Next w (at_ (c <| c_username := t |>) h rem (u16 (i + 1)) S_CONNECT_PASSWORD_0 mult u))
    else Ok (Next w (at_ (c <| c_username := t |>) h rem (u16 (i + 1)) S_CONNECT_USERNAME_2 mult u)).
Proof. reflexivity. Qed.

Lemma step_password_0 w c h rem i mult u b :
  step w (at_ c h rem i S_CONNECT_PASSWORD_0 mult u) b
  = Ok (Next w (at_ c h rem i S_CONNECT_PASSWORD_1 mult
      (U_connect ((as_connect u) <| co_u16 := u16 (Z.shiftl b 8) |>)))).
Proof. reflexivity. Qed.

Lemma step_password_1 w c h rem i mult co b :
  1 <= Z.lor (co_u16 co) b <= MAX_ID_LEN ->
  step w (at_ c h rem i S_CONNECT_PASSWORD_1 mult (U_connect co)) b
  = Ok (Next w (at_ c h rem 0 S_CONNECT_PASSWORD_2 mult
      (U_connect (co <| co_u16 := Z.lor (co_u16 co) b |>)))).
Proof.
  intros Hl. set (n := Z.lor (co_u16 co) b) in *.
  transitivity (if (n =? 0) || (MAX_ID_LEN <? n)
    then Ok (Return 1 w (Some (at_ c h rem i S_CONNECT_PASSWORD_1 mult (U_connect (co <| co_u16 := n |>)))))
    else Ok (Next w (at_ c h rem 0 S_CONNECT_PASSWORD_2 mult (U_connect (co <| co_u16 := n |>)))));
    [reflexivity|].
  destruct (Z.eqb_spec n 0); [lia|]. by destruct (Z.ltb_spec MAX_ID_LEN n); [lia|].
Qed.

Lemma step_password_2 w c h rem i mult co b :
  step w (at_ c h rem i S_CONNECT_PASSWORD_2 mult (U_connect co)) b
  = t ← arr_set (co_password co) i b;
    if u16 (i + 1) =? co_u16 co
    then t ← arr_set t (u16 (i + 1)) 0;
         finish (on_recv_connect w (at_ c h rem (u16 (i + 1)) S_CONNECT_PASSWORD_2 mult
           (U_connect (co <| co_password := t |>))) (co <| co_password := t |>))
    else Ok (Next w (at_ c h rem (u16 (i + 1)) S_CONNECT_PASSWORD_2 mult
           (U_connect (co <| co_password := t |>)))).
Proof. reflexivity. Qed.

(** Filling an array that is closed by a NUL.  [f] is the client with a given
    array and index, [last] what happens after the NUL. *)
Lemma string_run w (f : list Z -> Z -> client_st) (last : list Z -> outcome (step_res W)) s arr rest :
  id_ok s -> zlen arr = MAX_ID_LEN + 1 ->
  (forall t i b, 0 <= i < 127 -> step w (f t i) b
     = t ← arr_set t i b;
       if u16 (i + 1) =? zlen s then t ← arr_set t (u16 (i + 1)) 0; last t
       else Ok (Next w (f t (u16 (i + 1))))) ->
  exists k, run w (f arr 0) (s ++ rest) = last (s ++ 0 :: k) ≫= cont anon rest /\
    zlen (s ++ 0 :: k) = MAX_ID_LEN + 1.
Proof.
  unfold id_ok, MAX_ID_LEN. intros Hs Ha Hstep.
  destruct (split_len s arr) as (out & k & -> & Ho); [unfold zlen in *; lia|].
  destruct k as [|z k].
  { rewrite app_nil_r in Ha. unfold zlen in *. lia. }
  exists k. rewrite zlen_app, zlen_cons in *. split; [|unfold zlen in *; lia].
  destruct (fill_run anon w (fun pre post => f (pre ++ post) (zlen pre)) (zlen s) s out (z :: k) rest)
    as (pre & b & y & Hp & Hz & Hr); [|done|lia|done|].
  - intros pre b y post Hpre. pose proof (zlen_nonneg pre). rewrite Hstep by lia.
    rewrite arr_set_app_mid. cbn [mbind outcome_bind]. rewrite u16_small by lia.
    destruct (Z.eqb_spec (zlen pre + 1) (zlen s)); [lia|].
    autorewrite with fb. by rewrite <- app_assoc.
  - cbn [app] in Hr. change (zlen (@nil Z)) with 0 in Hr. rewrite Hr, Hstep by lia.
    rewrite arr_set_app_mid. cbn [mbind outcome_bind]. rewrite u16_small by lia.
    rewrite Hz, Z.sub_add, Z.eqb_refl.
    assert (pre ++ b :: z :: k = s ++ z :: k) as -> by (by rewrite Hp, <- app_assoc).
    by rewrite arr_set_app_mid.
Qed.

Lemma client_id_run w c h rem i mult u s rest :
  id_ok s -> zlen (c_client_id c) = MAX_ID_LEN + 1 ->
  exists k, zlen (s ++ 0 :: k) = MAX_ID_LEN + 1 /\
  run w (at_ c h rem i S_CONNECT_CLIENT_ID_0 mult u) (string16 s ++ rest)
  = after_client_id w (c <| c_client_id_len := zlen s |> <| c_client_id := s ++ 0 :: k |>)
      h rem (zlen s) mult u ≫= cont anon rest.
Proof.
  intros Hs Hc. unfold id_ok, MAX_ID_LEN in *. unfold string16, be16. cbn [app].
  rewrite (run_next _ _ _ _ _ _ _ (step_client_id_0 w c h rem i mult u _)).
  erewrite run_next; [|apply step_client_id_1];
    change (c_client_id_len (_ <| c_client_id_len := ?v |>)) with v.
  2:{ rewrite be16_decode_int by lia. unfold MAX_ID_LEN. lia. }
  rewrite be16_decode_int by lia.
  destruct (string_run w (fun t j => at_ (c <| c_client_id_len := zlen s |> <| c_client_id := t |>)
      h rem j S_CONNECT_CLIENT_ID_2 mult u)
    (fun t => after_client_id w (c <| c_client_id_len := zlen s |> <| c_client_id := t |>)
      h rem (zlen s) mult u) s (c_client_id c) rest) as (k & Hr & Hk); [done|done| |].
  - intros t j b Hj. rewrite step_client_id_2.
    change (c_client_id (_ <| c_client_id := t |>)) with t.
    change (c_client_id_len (_ <| c_client_id := t |>)) with (zlen s).
    destruct (arr_set t j b) as [t'| | |]; try done. cbn [mbind outcome_bind].
    destruct (Z.eqb_spec (u16 (j + 1)) (zlen s)) as [->|]; done.
  - exists k. split; [done|]. rewrite <- Hr. by destruct c.
Qed.

Lemma username_run w c h rem i mult u s rest :
  id_ok s -> zlen (c_username c) = MAX_ID_LEN + 1 ->
  exists k, zlen (s ++ 0 :: k) = MAX_ID_LEN + 1 /\
  run w (at_ c h rem i S_CONNECT_USERNAME_0 mult u) (string16 s ++ rest)
  = run w (at_ (c <| c_username_len := zlen s |> <| c_username := s ++ 0 :: k |>)
      h rem (zlen s) S_CONNECT_PASSWORD_0 mult u) rest.
Proof.
  intros Hs Hc. unfold id_ok, MAX_ID_LEN in *. unfold string16, be16. cbn [app].
  rewrite (run_next _ _ _ _ _ _ _ (step_username_0 w c h rem i mult u _)).
  erewrite run_next; [|apply step_username_1];
    change (c_username_len (_ <| c_username_len := ?v |>)) with v.
  2:{ rewrite be16_decode_int by lia. unfold MAX_ID_LEN. lia. }
  rewrite be16_decode_int by lia.
  destruct (string_run w (fun t j => at_ (c <| c_username_len := zlen s |> <| c_username := t |>)
      h rem j S_CONNECT_USERNAME_2 mult u)
    (fun t => Ok (Next w (at_ (c <| c_username_len := zlen s |> <| c_username := t |>)
      h rem (zlen s) S_CONNECT_PASSWORD_0 mult u))) s (c_username c) rest)
    as (k & Hr & Hk); [done|done| |].
  - intros t j b Hj. rewrite step_username_2.
    change (c_username (_ <| c_username := t |>)) with t.
    change (c_username_len (_ <| c_username := t |>)) with (zlen s).
    destruct (arr_set t j b) as [t'| | |]; try done. cbn [mbind outcome_bind].
    destruct (Z.eqb_spec (u16 (j + 1)) (zlen s)) as [->|]; done.
  - exists k. split; [done|]. cbn [mbind outcome_bind cont] in Hr. rewrite <- Hr. by destruct c.
Qed.

Lemma password_run w c h rem i mult co s rest :
  id_ok s -> zlen (co_password co) = MAX_ID_LEN + 1 ->
  exists k, zlen (s ++ 0 :: k) = MAX_ID_LEN + 1 /\
  let co' := co <| co_u16 := zlen s |> <| co_password := s ++ 0 :: k |> in
  run w (at_ c h rem i S_CONNECT_PASSWORD_0 mult (U_connect co)) (string16 s ++ rest)
  = finish (on_recv_connect w (at_ c h rem (zlen s) S_CONNECT_PASSWORD_2 mult (U_connect co')) co')
    ≫= cont anon rest.
Proof.
  intros Hs Hc. unfold id_ok, MAX_ID_LEN in *. unfold string16, be16. cbn [app].
  rewrite (run_next _ _ _ _ _ _ _ (step_password_0 w c h rem i mult (U_connect co) _)).
  erewrite run_next; [|apply step_password_1];
    change (co_u16 (_ <| co_u16 := ?v |>)) with v.
  2:{ rewrite be16_decode by lia. unfold MAX_ID_LEN. lia. }
  rewrite be16_decode by lia.
  destruct (string_run w (fun t j => at_ c h rem j S_CONNECT_PASSWORD_2 mult
      (U_connect (co <| co_u16 := zlen s |> <| co_password := t |>)))
    (fun t => finish (on_recv_connect w (at_ c h rem (zlen s) S_CONNECT_PASSWORD_2 mult
      (U_connect (co <| co_u16 := zlen s |> <| co_password := t |>)))
      (co <| co_u16 := zlen s |> <| co_password := t |>))) s (co_password co) rest)
    as (k & Hr & Hk); [done|done| |].
  - intros t j b Hj. rewrite step_password_2.
    change (co_password (_ <| co_password := t |>)) with t.
    change (co_u16 (_ <| co_password := t |>)) with (zlen s).
    destruct (arr_set t j b) as [t'| | |]; try done. cbn [mbind outcome_bind].
    destruct (Z.eqb_spec (u16 (j + 1)) (zlen s)) as [->|]; done.
  - exists k. split; [done|]. cbv zeta. rewrite <- Hr. by destruct co.
Qed.


Lemma connect_flags_bits r :
  connect_req_ok r ->
  let b := connect_flags r in
  mk_flags (Z.land (Z.shiftr b 2) 1) (Z.land (Z.shiftr b 3) 3) (Z.land (Z.shiftr b 5) 1)
    (Z.land (Z.shiftr b 1) 1) (Z.shiftr b 7) (Z.land (Z.shiftr b 6) 1)
  = mk_flags 0 0 0 (cr_clean r) (opt_bit (cr_user r)) (opt_bit (cr_pass r)).
Proof.
  intros [Hc _ _ _ _] b. unfold b, connect_flags. destruct r as [old cl ka id [u|] [p|]]; cbn in *;
    assert (cl = 0 \/ cl = 1) as [-> | ->] by lia; done.
Qed.

Lemma zlen_string16 s : zlen (string16 s) = zlen s + 2.
Proof. unfold string16. rewrite zlen_app, zlen_be16. lia. Qed.

Lemma zlen_connect_body r : connect_req_ok r -> 0 <= zlen (connect_body r) < 2 ^ 28.
Proof.
  intros [_ _ Hi Hu Hp]. pose proof (zlen_nonneg (connect_body r)).
  unfold connect_body, id_ok, MAX_ID_LEN in *. split; [done|].
  assert (forall o, from_option (fun s => 1 <= zlen s <= 127) True o -> zlen (opt_string16 o) <= 129) as Ho.
  { intros [s|] Hs; cbn in *; [unfold string16; autorewrite with fb; lia|done]. }
  pose proof (Ho _ Hu). pose proof (Ho _ Hp).
  set (name := if cr_old r then _ else _).
  assert (zlen name <= 9) by (unfold name; destruct (cr_old r); vm_compute; congruence).
  rewrite !zlen_app, ?zlen_string16, !zlen_be16. change (zlen [_]) with 1. lia.
Qed.

(** The client and the connect structure after the packet of [r]. *)
Record connected (c : client_st) (r : connect_req) (c' : client_st) (co : connect_st) : Prop := {
  cn_keep_alive : c_keep_alive c' = cr_keep_alive r;
  cn_id_len : c_client_id_len c' = zlen (cr_id r);
  cn_id : holds_string (c_client_id c') (cr_id r);
  cn_flags : co_flags co
    = mk_flags 0 0 0 (cr_clean r) (opt_bit (cr_user r)) (opt_bit (cr_pass r));
  cn_user : match cr_user r with
    | Some s => c_username_len c' = zlen s /\ holds_string (c_username c') s
    | None => c_username_len c' = c_username_len c /\ c_username c' = c_username c
    end;
  cn_pass : match cr_user r, cr_pass r with
    | Some _, Some s => holds_string (co_password co) s
    | _, _ => True
    end;
  cn_parser : ps_u (c_parser c') = U_connect co;
  cn_wf : client_wf c';
  cn_frame : c' = c <| c_parser := c_parser c' |> <| c_keep_alive := c_keep_alive c' |>
    <| c_client_id_len := c_client_id_len c' |> <| c_client_id := c_client_id c' |>
    <| c_username_len := c_username_len c' |> <| c_username := c_username c' |>
}.

(** The packet up to and including the client identifier. *)
Lemma connect_prefix_run w c r rest :
  connect_req_ok r -> client_wf c -> ps_state (c_parser c) = S_HEADER ->
  exists c1 h rem mult co k, zlen (cr_id r ++ 0 :: k) = MAX_ID_LEN + 1 /\
  union_wf (U_connect co) /\
  co_flags co = mk_flags 0 0 0 (cr_clean r) (opt_bit (cr_user r)) (opt_bit (cr_pass r)) /\
  c1 = c <| c_keep_alive := cr_keep_alive r |> <| c_client_id_len := zlen (cr_id r) |>
         <| c_client_id := cr_id r ++ 0 :: k |> /\
  run w c (connect_packet r ++ rest)
  = after_client_id w c1 h rem (zlen (cr_id r)) mult (U_connect co)
    ≫= cont anon (opt_string16 (cr_user r) ++ opt_string16 (cr_pass r) ++ rest).
Proof.
  intros Hr [Hcid Hcu Hcw Hu] Hst. pose proof (zlen_connect_body r Hr).
  pose proof (client_eta c) as Hc. rewrite Hst in Hc.
  pose proof Hr as [_ Hka Hid _ _].
  unfold connect_packet. cbn [app]. rewrite <- app_assoc.
  destruct (fixed_header_run anon w c (ps_header (c_parser c)) (ps_rem_len (c_parser c))
    (ps_i (c_parser c)) (ps_multiplier (c_parser c)) (ps_u (c_parser c)) 1 0 0
    (zlen (connect_body r)) S_CONNECT_PROTOCOL_0 (connect_body r ++ rest))
    as [mult Hh]; [done|lia..|].
  rewrite <- Hc in Hh. rewrite Hh. clear Hh Hc. unfold connect_body at 2. rewrite <- !app_assoc.
  destruct (protocol_run (cr_old r) w c (mk_header 1 0 0 0) (zlen (connect_body r)) (ps_i (c_parser c))
    mult (ps_u (c_parser c)) ([connect_flags r] ++ be16 (cr_keep_alive r) ++ string16 (cr_id r) ++
      opt_string16 (cr_user r) ++ opt_string16 (cr_pass r) ++ rest)) as (co & i' & Hco & Hrun); [done|].
  rewrite Hrun. clear Hrun. cbn [app].
  rewrite (run_next _ _ _ _ _ _ _ (step_flags _ _ _ _ _ _ _ _)).
  rewrite keep_alive_run by done. rewrite connect_flags_bits by done.
  destruct (client_id_run w (c <| c_keep_alive := cr_keep_alive r |>) (mk_header 1 0 0 0)
    (zlen (connect_body r)) i' mult (U_connect (co <| co_flags :=
      mk_flags 0 0 0 (cr_clean r) (opt_bit (cr_user r)) (opt_bit (cr_pass r)) |>)) (cr_id r)
    (opt_string16 (cr_user r) ++ opt_string16 (cr_pass r) ++ rest)) as (k & Hk & ->); [done|done|].
  eexists _, _, _, _, _, k. split; [done|]. split; [|split; [|split; [reflexivity|reflexivity]]]; done.
Qed.

Lemma connect_run w c r rest :
  connect_req_ok r -> client_wf c -> ps_state (c_parser c) = S_HEADER ->
  exists c' co, connected c r c' co /\
  (cr_pass r = None -> cr_user r <> None -> ps_state (c_parser c') = S_CONNECT_PASSWORD_0) /\
  mqtt_parser_execute anon w c (connect_packet r ++ rest)
  = match cr_user r, cr_pass r with
    | None, None =>
        if truthy anon then deliver anon rest (on_recv_connect w c' co) else Ok (1, w, Some c')
    | None, Some _ => Ok (1, w, Some c')
    | Some _, Some _ => deliver anon rest (on_recv_connect w c' co)
    | Some _, None => mqtt_parser_execute anon w c' rest
    end.
Proof.
  intros Hr Hwf Hst. pose proof Hwf as [Hcid Hcu Hcw Hu]. pose proof Hr as [_ _ _ Hus Hpa].
  destruct (connect_prefix_run w c r rest Hr Hwf Hst)
    as (c1 & h & rem & mult & co & k & Hk & Hco & Hfl & Hc1 & Hrun).
  unfold after_client_id in Hrun. cbn [as_connect] in Hrun. rewrite Hfl in Hrun.
  cbn [f_will f_username_present f_password_present] in Hrun.
  change (truthy 0) with false in Hrun. cbv iota in Hrun.
  assert (c_username_len c1 = c_username_len c /\ c_username c1 = c_username c /\
    c_keep_alive c1 = cr_keep_alive r /\ c_client_id_len c1 = zlen (cr_id r) /\
    c_client_id c1 = cr_id r ++ 0 :: k /\ c_will_topic c1 = c_will_topic c) as (Hf1 & Hf2 & Hf3 & Hf4 & Hf5 & Hf6)
    by (by subst c1).
  assert (forall s i, cr_user r = None ->
    connected c r (at_ c1 h rem i s mult (U_connect co)) co) as Hcon.
  { intros s i Hn. split; [done|done|by exists k|done|by rewrite Hn|by rewrite Hn|done| |by subst c1; destruct c].
    split; [by cbn; rewrite Hf5|by cbn; rewrite Hf2|by cbn; rewrite Hf6|done]. }
  destruct (cr_user r) as [us|] eqn:Hur; cbn [opt_bit] in Hrun.
  - change (truthy 1) with true in Hrun. cbn [mbind outcome_bind cont opt_string16] in Hrun.
    destruct (username_run w c1 h rem (zlen (cr_id r)) mult (U_connect co) us
      (opt_string16 (cr_pass r) ++ rest)) as (ku & Hku & Hru); [done|by rewrite Hf2|].
    rewrite Hru in Hrun. clear Hru.
    set (c2 := c1 <| c_username_len := zlen us |> <| c_username := us ++ 0 :: ku |>) in *.
    assert (forall s i co', co_flags co' = co_flags co -> union_wf (U_connect co') ->
      match cr_pass r with Some p => holds_string (co_password co') p | None => True end ->
      connected c r (at_ c2 h rem i s mult (U_connect co')) co') as Hcon2.
    { intros s i co' Hf' Hw' Hp'.
      split; [done|done|by exists k|by rewrite Hf', Hur| | | | |by unfold c2; subst c1; destruct c];
        rewrite ?Hur; try done.
      - split; [done|by exists ku].
      - split; [by cbn; rewrite Hf5|done|by cbn; rewrite Hf6|done]. }
    destruct (cr_pass r) as [pw|] eqn:Hpr; cbn [opt_string16] in Hrun.
    + destruct Hco as (Hp1 & Hp2 & Hp3).
      destruct (password_run w c2 h rem (zlen us) mult co pw rest) as (kp & Hkp & Hrp); [done|done|].
      cbv zeta in Hrp. rewrite Hrp in Hrun.
      eexists _, _. split; [|split; [done|by eapply execute_finish]].
      apply Hcon2; [done|by split_and!|by exists kp].
    + eexists _, co. split; [by apply Hcon2|]. split; [done|].
      rewrite !execute_run, Hrun. done.
  - change (truthy 0) with false in Hrun. cbv iota in Hrun. cbn [opt_string16 app] in Hrun.
    exists (at_ c1 h rem (zlen (cr_id r)) S_CONNECT_CLIENT_ID_2 mult (U_connect co)), co.
    split; [by apply Hcon|]. split; [done|].
    destruct (cr_pass r) as [pw|] eqn:Hpr; cbn [opt_bit] in Hrun.
    + rewrite execute_run, Hrun. reflexivity.
    + change (truthy 0) with false in Hrun. cbv iota in Hrun. destruct (truthy anon); cbn [negb] in Hrun.
      * by eapply execute_finish.
      * rewrite execute_run, Hrun. reflexivity.
Qed.

End connect.

(** ** Theorem *)

(** C24.  A CONNECT packet without a will, for either protocol name, is parsed
    completely: the callback gets a connect structure and a client that hold
    exactly the clean-session flag, keep-alive interval, client identifier,
    user name and password of the packet, the strings NUL-terminated, with
    every other field of the client unchanged.  Without user name and
    password the callback is made only when anonymous connections are
    allowed; a password without user name is refused before it is read.  With
    a user name and no password, which MQTT 3.1.1 allows, the packet is never
    completed: the parser goes on to take what follows for a password. *)
Theorem connect_parsed `{Libc} {W : Type} `{MqttCallbacks W} anon w c r rest user pass :
  connect_req_ok r -> client_wf c -> ps_state (c_parser c) = S_HEADER ->
  cr_user r = user -> cr_pass r = pass ->
  exists c' co, connected c r c' co /\
  (pass = None -> user <> None -> ps_state (c_parser c') = S_CONNECT_PASSWORD_0) /\
  mqtt_parser_execute anon w c (connect_packet r ++ rest)
  = match user, pass with
    | None, None =>
        if truthy anon then deliver anon rest (on_recv_connect w c' co) else Ok (1, w, Some c')
    | None, Some _ => Ok (1, w, Some c')
    | Some _, Some _ => deliver anon rest (on_recv_connect w c' co)
    | Some _, None => mqtt_parser_execute anon w c' rest
    end.
Proof. intros Hr Hw Hs <- <-. by apply connect_run. Qed.

Definition example_connect : connect_req :=
  mk_connect_req false 1 60 [100; 49] (Some [117]) (Some [112; 119]).

Lemma connect_parsed_witness :
  exists c' co, connected example_client example_connect c' co /\
  (Some [112; 119] = None -> Some [117] <> None -> ps_state (c_parser c') = S_CONNECT_PASSWORD_0) /\
  mqtt_parser_execute (H := calm_libc) 0 [] example_client (connect_packet example_connect ++ [192; 0])
  = deliver (H := calm_libc) 0 [192; 0] (on_recv_connect [] c' co).
Proof.
  apply (connect_parsed (H := calm_libc) 0 [] example_client example_connect [192; 0]
    (Some [117]) (Some [112; 119])); try reflexivity.
  - split; vm_compute; repeat split; congruence.
  - by split.
Defined.
