(* ===== verification/ParserTypes.v ===== *)
(** * The types of the parser's fields (src/mqtt_parser.h, src/client.h)

    The fields the parser writes keep the range of their C type and the arrays
    their size, whatever bytes arrive, as long as the callbacks keep those of
    the client they are given. *)

From S2P Require Import Prelude MqttPacket MqttEncode ClientTypes MqttParser ParserSpec ParserConnect.

Create HintDb typed.

Definition uint16 (z : Z) : Prop := 0 <= z < 65536.
Definition uint32 (z : Z) : Prop := 0 <= z < 2 ^ 32.
Definition int32 (z : Z) : Prop := int_min <= z <= int_max.

Record message_typed (m : message_st) : Prop := {
  mt_wf : message_wf m;
  mt_id : uint16 (m_packet_id m)
}.

Definition maybe_typed (o : option message_st) : Prop := match o with Some m => message_typed m | None => True end.

Record flags_typed (f : flags_s) : Prop := {
  ft_will : is_byte (f_will f);
  ft_will_qos : is_byte (f_will_qos f);
  ft_will_retain : is_byte (f_will_retain f);
  ft_cleansession : is_byte (f_cleansession f);
  ft_username : is_byte (f_username_present f);
  ft_password : is_byte (f_password_present f)
}.

Record connect_typed (co : connect_st) : Prop := {
  ct_flags : flags_typed (co_flags co);
  ct_u16 : uint16 (co_u16 co);
  ct_will_len : uint16 (co_will_topic_len co);
  ct_protocol : zlen (co_protocol co) = 7;
  ct_will : zlen (co_will_topic co) = MAX_TOPIC_LEN + 1;
  ct_password : zlen (co_password co) = MAX_ID_LEN + 1
}.

Record subscribe_typed (su : subscribe_st) : Prop := {
  st_id : uint16 (su_packet_id su);
  st_u16 : uint16 (su_u16 su);
  st_num : int32 (su_num_filters su);
  st_lengths : zlen (su_filter_lengths su) = MAX_NUM_TOPICS;
  st_filters : zlen (su_filters su) = MAX_NUM_TOPICS;
  st_qos : zlen (su_qos su) = MAX_NUM_TOPICS
}.

Record publish_typed (pu : publish_s) : Prop := {
  pt_topic_len : uint16 (pu_topic_len pu);
  pt_payload_len : uint32 (pu_payload_len pu);
  pt_topic : zlen (pu_topic pu) = MAX_TOPIC_LEN + 1;
  pt_mp : maybe_typed (pu_mp pu)
}.

Definition union_typed (u : parser_u) : Prop :=
  match u with
  | U_connect co => connect_typed co
  | U_subscribe su => subscribe_typed su
  | U_publish pu => publish_typed pu
  end.

Record header_typed (h : header_byte_t) : Prop := {
  ht_type : 0 <= h_msg_type h < 16;
  ht_dup : 0 <= h_dup h < 2;
  ht_qos : 0 <= h_qos h < 4;
  ht_retain : 0 <= h_retain h < 2
}.

Record parser_typed (p : mqtt_parser) : Prop := {
  pt_header : header_typed (ps_header p);
  pt_rem_len : uint32 (ps_rem_len p);
  pt_i : uint16 (ps_i p);
  pt_multiplier : int32 (ps_multiplier p);
  pt_u : union_typed (ps_u p)
}.

(** What the parser writes of a client. *)
Record client_typed (c : client_st) : Prop := {
  cl_parser : parser_typed (c_parser c);
  cl_keep_alive : uint16 (c_keep_alive c);
  cl_will_mp : maybe_typed (c_will_mp c);
  cl_will_topic : zlen (c_will_topic c) = MAX_TOPIC_LEN + 1;
  cl_client_id : zlen (c_client_id c) = MAX_ID_LEN + 1;
  cl_client_id_len : uint16 (c_client_id_len c);
  cl_username : zlen (c_username c) = MAX_ID_LEN + 1;
  cl_username_len : uint16 (c_username_len c)
}.

(** ** Integers *)

Lemma u16_typed z : uint16 (u16 z).
Proof. apply u16_range. Qed.

Lemma u32_typed z : uint32 (u32 z).
Proof. apply u32_range. Qed.

Lemma log2_small n z : 0 < n -> 0 <= z < 2 ^ n -> Z.log2 z < n.
Proof. intros Hn Hz. destruct (Z.eq_dec z 0) as [->|]; [done|]. apply Z.log2_lt_pow2; lia. Qed.

Lemma lor_range n a b : 0 < n -> 0 <= a < 2 ^ n -> 0 <= b < 2 ^ n -> 0 <= Z.lor a b < 2 ^ n.
Proof.
  intros Hn Ha Hb. assert (0 <= Z.lor a b) by (apply Z.lor_nonneg; lia). split; [done|].
  destruct (Z.eq_dec (Z.lor a b) 0) as [->|Hne]; [by apply Z.pow_pos_nonneg; lia|].
  apply Z.log2_lt_pow2; [lia|]. rewrite Z.log2_lor by lia. apply Z.max_lub_lt; by apply log2_small.
Qed.

Lemma lor_typed a b : uint16 a -> is_byte b -> uint16 (Z.lor a b).
Proof. unfold uint16, is_byte. intros Ha Hb. apply (lor_range 16); lia. Qed.

Lemma shiftl_typed b : is_byte b -> uint16 (Z.shiftl b 8).
Proof. unfold uint16, is_byte. intros Hb. rewrite Z.shiftl_mul_pow2 by lia. change (2 ^ 8) with 256. lia. Qed.

Lemma byte_uint16 b : is_byte b -> uint16 b.
Proof. unfold is_byte, uint16. lia. Qed.

(** The flags of a CONNECT packet and the fixed header, from their byte. *)
Definition flags_of (b : Z) : flags_s :=
  {| f_cleansession := Z.land (Z.shiftr b 1) 1;
     f_will := Z.land (Z.shiftr b 2) 1;
     f_will_qos := Z.land (Z.shiftr b 3) 3;
     f_will_retain := Z.land (Z.shiftr b 5) 1;
     f_password_present := Z.land (Z.shiftr b 6) 1;
     f_username_present := Z.shiftr b 7 |}.

Definition between (lo hi z : Z) : bool := (lo <=? z) && (z <? hi).

Lemma between_spec lo hi z : between lo hi z = true -> lo <= z < hi.
Proof. unfold between. intros [?%Z.leb_le ?%Z.ltb_lt]%andb_prop. lia. Qed.

Lemma flags_of_typed b : is_byte b -> flags_typed (flags_of b).
Proof.
  intros Hb. pose proof (byte_forall (fun b => let f := flags_of b in
    forallb (between 0 256) [f_will f; f_will_qos f; f_will_retain f; f_cleansession f; f_username_present f; f_password_present f])
    b ltac:(vm_compute; reflexivity) Hb) as Hf.
  cbn [forallb] in Hf. cbv zeta in Hf. rewrite !andb_true_iff in Hf. destruct Hf as (H1 & H2 & H3 & H4 & H5 & H6 & _).
  split; by apply between_spec.
Qed.

Lemma header_of_typed b : is_byte b -> header_typed (header_of b).
Proof.
  intros Hb. pose proof (byte_forall (fun b => let h := header_of b in
    between 0 16 (h_msg_type h) && between 0 2 (h_dup h) && between 0 4 (h_qos h) && between 0 2 (h_retain h))
    b ltac:(vm_compute; reflexivity) Hb) as Hf.
  cbv zeta in Hf. rewrite !andb_true_iff in Hf. destruct Hf as (((H1 & H2) & H3) & H4).
  split; by apply between_spec.
Qed.

Lemma zero_uint16 : uint16 0.
Proof. done. Qed.

Lemma zero_int32 : int32 0.
Proof. done. Qed.

Lemma int_chk_typed z r : int_chk z = Ok r -> int32 r.
Proof.
  unfold int_chk, int32. destruct (Z.leb_spec int_min z), (Z.leb_spec z int_max); cbn; [|done..].
  intros [= <-]. lia.
Qed.

#[export] Hint Resolve zero_uint16 zero_int32 u16_typed u32_typed lor_typed shiftl_typed byte_uint16 flags_of_typed header_of_typed int_chk_typed : typed.

(** ** Arrays *)

Lemma arr_set_size {A} (l l' : list A) i v n : arr_set l i v = Ok l' -> zlen l = n -> zlen l' = n.
Proof.
  unfold arr_set. destruct ((0 <=? i) && (i <? zlen l)); [|done]. intros [= <-]. unfold zlen. by rewrite length_insert.
Qed.

Lemma arr_blit_size {A} (l l' src : list A) off n : arr_blit l off src = Ok l' -> zlen l = n -> zlen l' = n.
Proof.
  unfold arr_blit. destruct (Z.leb_spec 0 off), (Z.leb_spec (off + zlen src) (zlen l)); cbn; [|done..].
  intros [= <-]. unfold zlen in *. rewrite !length_app, length_take, length_drop. lia.
Qed.

#[export] Hint Resolve arr_set_size arr_blit_size : typed.

(** ** The pieces of the code *)

Section typed.
Context `{Libc} {W : Type} `{MqttCallbacks W}.

Lemma with_parser_typed c p : client_typed c -> parser_typed p -> client_typed (with_parser c p).
Proof. intros [] Hp. by split. Qed.

Lemma set_state_typed c s : client_typed c -> client_typed (set_state c s).
Proof. intros Hc. apply with_parser_typed; [done|]. destruct Hc as [[] _ _ _ _ _ _ _]. by split. Qed.

Lemma next_state_typed c : client_typed c -> client_typed (next_state c).
Proof. apply set_state_typed. Qed.

Lemma set_i_typed c i : client_typed c -> client_typed (set_i c i).
Proof. intros Hc. apply with_parser_typed; [done|]. destruct Hc as [[] _ _ _ _ _ _ _]. split; try done. apply u16_typed. Qed.

Lemma set_rem_len_typed c n : client_typed c -> client_typed (set_rem_len c n).
Proof. intros Hc. apply with_parser_typed; [done|]. destruct Hc as [[] _ _ _ _ _ _ _]. split; try done. apply u32_typed. Qed.

Lemma put_u_typed c u : client_typed c -> union_typed u -> client_typed (with_parser c ((c_parser c) <| ps_u := u |>)).
Proof. intros Hc Hu. apply with_parser_typed; [done|]. destruct Hc as [[] _ _ _ _ _ _ _]. by split. Qed.

Lemma put_connect_typed c co : client_typed c -> connect_typed co -> client_typed (put_connect c co).
Proof. intros Hc Hu. exact (put_u_typed c (U_connect co) Hc Hu). Qed.
Lemma put_subscribe_typed c su : client_typed c -> subscribe_typed su -> client_typed (put_subscribe c su).
Proof. intros Hc Hu. exact (put_u_typed c (U_subscribe su) Hc Hu). Qed.
Lemma put_publish_typed c pu : client_typed c -> publish_typed pu -> client_typed (put_publish c pu).
Proof. intros Hc Hu. exact (put_u_typed c (U_publish pu) Hc Hu). Qed.

Lemma u8_byte_typed z : is_byte (u8 z).
Proof. apply u8_byte. Qed.

Lemma get_connect_typed c : client_typed c -> connect_typed (get_connect c).
Proof.
  intros Hc. pose proof (pt_u _ (cl_parser _ Hc)) as Hu. unfold get_connect, as_connect.
  destruct (ps_u (c_parser c)); [done| |]; split; try apply u16_typed; try (cbn; by rewrite zlen_junk_bytes);
    split; apply u8_byte_typed.
Qed.

Lemma i32_typed z : int32 (i32 z).
Proof.
  unfold int32, i32, int_min, int_max. pose proof (Z.mod_pos_bound (z + 2 ^ 31) (2 ^ 32) ltac:(lia)).
  change (2 ^ 32) with (2 * 2 ^ 31) in *. lia.
Qed.

Lemma get_subscribe_typed c : client_typed c -> subscribe_typed (get_subscribe c).
Proof.
  intros Hc. pose proof (pt_u _ (cl_parser _ Hc)) as Hu. unfold get_subscribe, as_subscribe.
  destruct (ps_u (c_parser c)); [|done|]; split; try apply u16_typed; try apply i32_typed; try (cbn; by rewrite ?zlen_junk_bytes); done.
Qed.

Lemma get_publish_typed c : client_typed c -> publish_typed (get_publish c).
Proof.
  intros Hc. pose proof (pt_u _ (cl_parser _ Hc)) as Hu. unfold get_publish, as_publish.
  destruct (ps_u (c_parser c)); [| |done]; split; try apply u16_typed; try apply u32_typed; try (cbn; by rewrite zlen_junk_bytes); done.
Qed.

(** What one round leaves. *)
Definition res_typed (r : step_res W) : Prop :=
  match r with
  | Next _ c | Return _ _ (Some c) => client_typed c
  | Return _ _ None => True
  end.

(** The callbacks keep the types of the client they leave. *)
Definition keeps_types (f : W -> client_st -> outcome (Z * W * option client_st)) : Prop :=
  forall w c rv w' c', client_typed c -> f w c = Ok (rv, w', Some c') -> client_typed c'.

Record callbacks_typed : Prop := {
  cb_connect co : keeps_types (fun w c => on_recv_connect w c co);
  cb_subscribe su : keeps_types (fun w c => on_recv_subscribe w c su);
  cb_unsubscribe su : keeps_types (fun w c => on_recv_unsubscribe w c su);
  cb_publish m : keeps_types (fun w c => on_recv_publish w c m);
  cb_ping : keeps_types (fun w c => on_recv_ping w c);
  cb_disconnect w c w' c' : client_typed c -> c_disconnect_normal w c = Ok (w', Some c') -> client_typed c'
}.

Lemma finish_typed (f : W -> client_st -> outcome (Z * W * option client_st)) w c r :
  keeps_types f -> client_typed c -> finish (f w c) = Ok r -> res_typed r.
Proof.
  intros Hf Hc E. unfold finish in E. inv_bind. destruct a as [[rc w'] [c'|]].
  - destruct (truthy rc); inv_bind; cbn [res_typed]; [by eapply Hf|apply set_state_typed; by eapply Hf].
  - destruct (truthy rc); inv_bind; done.
Qed.

Lemma message_create_typed client tl pl dup qos retain pid m :
  uint16 tl -> uint32 pl -> message_create client tl pl dup qos retain pid = Ok (Some m) -> message_typed m.
Proof.
  intros Ht Hp E. destruct (malloc_fails (MESSAGE_SIZE tl pl)) eqn:Hm.
  { unfold message_create in E. by rewrite Hm in E. }
  destruct (message_create_ok client tl pl dup qos retain pid Ht Hp Hm) as (m' & E' & Hwf & _ & _ & _ & _ & _ & _ & _ & Hid & _).
  rewrite E' in E. injection E as <-. split; [done|]. rewrite Hid. apply u16_typed.
Qed.

Lemma message_topic_typed m t : message_typed m -> zlen t = m_topic_len m + 1 -> message_typed (m <| m_topic := t |>).
Proof. intros [[] ?] Ht. split; [split|]; done. Qed.
Lemma message_payload_typed m t : message_typed m -> zlen t = m_payload_len m + 1 -> message_typed (m <| m_payload := t |>).
Proof. intros [[] ?] Ht. split; [split|]; done. Qed.
Lemma message_id_typed m i : message_typed m -> uint16 i -> message_typed (m <| m_packet_id := i |>).
Proof. intros [[] ?] Ht. split; [split|]; done. Qed.

#[local] Hint Resolve set_state_typed next_state_typed set_i_typed set_rem_len_typed put_connect_typed put_subscribe_typed
  put_publish_typed get_connect_typed get_subscribe_typed get_publish_typed message_create_typed
  message_topic_typed message_payload_typed message_id_typed : typed.

(** Follow the code to each of its results. *)
Ltac walk :=
  repeat first
    [ discriminate
    | progress inv_bind
    | match goal with
      | E : ?e = Ok _ |- _ =>
          match e with
          | context [match ?x with _ => _ end] =>
              lazymatch x with context [match _ with _ => _ end] => fail | _ => destruct x eqn:? end
          end
      end ];
  cbn [res_typed].

(** The structure is typed when the field that was written is. *)
Ltac field_of x T :=
  let Hx := fresh "Hx" in assert (T x) as Hx; [|destruct Hx; split; try assumption; unfold upd; cbn -[Z.lor Z.shiftl Z.land u16 u32]; eauto 6 with typed].

Ltac field_typed :=
  match goal with
  | |- connect_typed (upd _ ?x) => field_of x connect_typed
  | |- subscribe_typed (upd _ ?x) => field_of x subscribe_typed
  | |- publish_typed (upd _ ?x) => field_of x publish_typed
  | |- client_typed (upd _ ?x) => field_of x client_typed
  | |- parser_typed (upd _ ?x) => field_of x parser_typed
  end.

Ltac typed_done :=
  repeat first
    [ assumption
    | exact I
    | match goal with |- client_typed (if ?x then _ else _) => destruct x end
    | apply next_state_typed | apply set_state_typed | apply set_i_typed | apply set_rem_len_typed
    | apply with_parser_typed | apply cl_parser
    | apply put_connect_typed | apply put_subscribe_typed | apply put_publish_typed
    | apply get_connect_typed | apply get_subscribe_typed | apply get_publish_typed
    | field_typed ].

Context (Hcb : callbacks_typed).

Lemma step_header_typed w c b r :
  client_typed c -> is_byte b -> step_header w c b = Ok r -> res_typed r.
Proof.
  intros Hc Hb E. unfold step_header in E.
  assert (client_typed (with_parser c ((c_parser c) <| ps_header := header_of b |>))) as Hh.
  { apply with_parser_typed; [done|]. destruct Hc as [[] _ _ _ _ _ _ _]. split; try done. by apply header_of_typed. }
  fold (header_of b) in E. walk; try done.
  apply next_state_typed, with_parser_typed; [done|]. destruct Hh as [[] _ _ _ _ _ _ _]. split; try done.
Qed.

Lemma step_connect_1_typed w c b r :
  client_typed c -> is_byte b -> step_connect_1 w c b = Ok r -> res_typed r.
Proof.
  intros Hc Hb E. pose proof (get_connect_typed c Hc) as Hco. unfold step_connect_1 in E.
  destruct (ps_state (c_parser c)); try discriminate E; walk; typed_done.
Qed.

Lemma step_client_id_typed a w c b r :
  client_typed c -> is_byte b -> step_connect_client_id a w c b = Ok r -> res_typed r.
Proof.
  intros Hc Hb E. pose proof (get_connect_typed c Hc) as Hco. unfold step_connect_client_id in E.
  destruct (ps_state (c_parser c)); try discriminate E; walk; typed_done.
  all: match goal with E : finish _ = Ok _ |- _ => refine (finish_typed (fun w c => on_recv_connect w c _) _ _ _ (cb_connect Hcb _) _ E) end.
  all: typed_done.
Qed.

Lemma step_auth_typed w c b r :
  client_typed c -> is_byte b -> step_connect_auth w c b = Ok r -> res_typed r.
Proof.
  intros Hc Hb E. pose proof (get_connect_typed c Hc) as Hco. unfold step_connect_auth in E.
  destruct (ps_state (c_parser c)); try discriminate E; walk; typed_done.
  all: match goal with E : finish _ = Ok _ |- _ => refine (finish_typed (fun w c => on_recv_connect w c _) _ _ _ (cb_connect Hcb _) _ E) end.
  all: typed_done.
Qed.

Lemma filter_start_typed w c b r :
  client_typed c -> is_byte b -> filter_start w c b = Ok r -> res_typed r.
Proof.
  intros Hc Hb E. pose proof (get_subscribe_typed c Hc) as Hsu. unfold filter_start in E.
  walk; typed_done.
Qed.

Lemma filter_byte_typed su b su' : subscribe_typed su -> filter_byte su b = Ok su' -> subscribe_typed su'.
Proof. intros Hsu E. unfold filter_byte in E. walk; typed_done. Qed.

Lemma step_subscribe_typed w c b r :
  client_typed c -> is_byte b -> step_subscribe w c b = Ok r -> res_typed r.
Proof.
  intros Hc Hb E. pose proof (get_subscribe_typed c Hc) as Hsu. unfold step_subscribe in E.
  destruct (ps_state (c_parser c)); try discriminate E; try (by eapply filter_start_typed); walk; typed_done.
  all: try (by eapply filter_byte_typed).
  all: match goal with E : finish _ = Ok _ |- _ => refine (finish_typed (fun w c => on_recv_subscribe w c _) _ _ _ (cb_subscribe Hcb _) _ E) end.
  all: typed_done.
Qed.

Lemma step_unsubscribe_typed w c b r :
  client_typed c -> is_byte b -> step_unsubscribe w c b = Ok r -> res_typed r.
Proof.
  intros Hc Hb E. pose proof (get_subscribe_typed c Hc) as Hsu. unfold step_unsubscribe in E.
  destruct (ps_state (c_parser c)); try discriminate E; try (by eapply filter_start_typed); walk; typed_done.
  all: try (by eapply filter_byte_typed).
  all: match goal with E : finish _ = Ok _ |- _ => refine (finish_typed (fun w c => on_recv_unsubscribe w c _) _ _ _ (cb_unsubscribe Hcb _) _ E) end.
  all: typed_done.
  all: match goal with E : filter_byte _ _ = Ok _ |- _ => apply filter_byte_typed in E; [|done]; typed_done end.
Qed.

(** Messages. *)
Lemma maybe_some o m : maybe_typed o -> o = Some m -> message_typed m.
Proof. by intros Ho ->. Qed.

Lemma publish_mp pu m : publish_typed pu -> pu_mp pu = Some m -> message_typed m.
Proof. intros Hpu. apply maybe_some, Hpu. Qed.

Lemma will_mp c m : client_typed c -> c_will_mp c = Some m -> message_typed m.
Proof. intros Hc. apply maybe_some, Hc. Qed.

Lemma payload_size m : message_typed m -> zlen (m_payload m) = m_payload_len m + 1.
Proof. intros Hm. apply Hm. Qed.

Lemma topic_size m : message_typed m -> zlen (m_topic m) = m_topic_len m + 1.
Proof. intros Hm. apply Hm. Qed.

Lemma packet_id_typed m : message_typed m -> uint16 (m_packet_id m).
Proof. apply mt_id. Qed.

#[local] Hint Resolve publish_mp will_mp payload_size topic_size packet_id_typed : typed.

Lemma created_typed client tl pl dup qos retain pid m off src t :
  uint16 tl -> uint32 pl -> message_create client tl pl dup qos retain pid = Ok (Some m) ->
  arr_blit (m_topic m) off src = Ok t -> message_typed (m <| m_topic := t |>).
Proof.
  intros Ht Hp E Hb. apply message_create_typed in E; [|done..]. apply message_topic_typed; [done|].
  eapply arr_blit_size; [exact Hb|]. by apply topic_size.
Qed.

Lemma uint16_uint32 z : uint16 z -> uint32 z.
Proof. unfold uint16, uint32. lia. Qed.

Ltac message_done :=
  match goal with
  | E : message_create _ _ _ _ _ _ _ = Ok (Some ?m), E2 : arr_blit (m_topic ?m) _ _ = Ok _ |- _ =>
      refine (created_typed _ _ _ _ _ _ _ m _ _ _ _ _ E E2)
  | |- message_typed (mk_message (m_state ?m) _ _ _ _ _ _ _ _ _ _) =>
      first [ refine (message_topic_typed m _ _ _) | refine (message_payload_typed m _ _ _) | refine (message_id_typed m _ _ _) ];
      eauto 6 with typed
  end.

Lemma step_will_typed w c b r :
  client_typed c -> is_byte b -> step_connect_will w c b = Ok r -> res_typed r.
Proof.
  intros Hc Hb E. pose proof (get_connect_typed c Hc) as Hco. unfold step_connect_will in E.
  destruct (ps_state (c_parser c)); try discriminate E; walk; typed_done.
  all: message_done.
  all: unfold upd; cbn -[Z.lor u16 u32]; eauto using uint16_uint32, ct_will_len, ct_u16 with typed.
Qed.

Lemma publish_topic_done_typed w c r :
  client_typed c -> publish_topic_done w c = Ok r -> res_typed r.
Proof.
  intros Hc E. pose proof (get_publish_typed c Hc) as Hpu. unfold publish_topic_done in E.
  walk; typed_done.
Qed.

Lemma step_publish_typed w c b r :
  client_typed c -> is_byte b -> step_publish w c b = Ok r -> res_typed r.
Proof.
  intros Hc Hb E. pose proof (get_publish_typed c Hc) as Hpu. unfold step_publish in E.
  destruct (ps_state (c_parser c)); try discriminate E; walk; typed_done.
  all: try match goal with E : finish _ = Ok _ |- _ => refine (finish_typed (fun w c => on_recv_publish w c _) _ _ _ (cb_publish Hcb _) _ E) end.
  all: try match goal with E : publish_topic_done _ _ = Ok _ |- _ => refine (publish_topic_done_typed _ _ _ _ E) end.
  all: typed_done.
  all: message_done.
Qed.

Lemma step_rem_len_typed w c b r :
  client_typed c -> is_byte b -> step_rem_len w c b = Ok r -> res_typed r.
Proof.
  intros Hc Hb E. unfold step_rem_len in E. walk; typed_done.
  all: try match goal with E : finish _ = Ok _ |- _ => refine (finish_typed (fun w c => on_recv_ping w c) _ _ _ (cb_ping Hcb) _ E) end.
  all: typed_done.
  eapply (cb_disconnect Hcb); [|eassumption]. typed_done.
Qed.

Lemma parser_step_typed a w c b r :
  client_typed c -> is_byte b -> mqtt_parser_step a w c b = Ok r -> res_typed r.
Proof.
  intros Hc Hb E. unfold mqtt_parser_step in E.
  destruct (ps_state (c_parser c)); try discriminate E;
    eauto using step_header_typed, step_rem_len_typed, step_connect_1_typed, step_client_id_typed, step_will_typed,
      step_auth_typed, step_subscribe_typed, step_unsubscribe_typed, step_publish_typed.
Qed.

Lemma parse_loop_typed a buf : forall w c r,
  client_typed c -> bytes buf -> parse_loop a w c buf = Ok r -> res_typed r.
Proof.
  induction buf as [|b buf IH]; intros w c r Hc Hb E; cbn [parse_loop] in E; inv_bind; [done|].
  apply bytes_cons in Hb as [Hb Hbuf]. apply parser_step_typed in Ha; [|done..].
  destruct a0 as [w' c'|rv w' oc]; [by eapply IH|by inv_bind].
Qed.

End typed.


(** ** Example *)

Lemma recorder_types : @callbacks_typed (list event) recorder.
Proof.
  split; try (intros x w c rv w' c' Hc E; by injection E as _ _ <-).
  - intros w c rv w' c' Hc E. by injection E as _ _ <-.
  - intros w c w' c' _ E. discriminate E.
Qed.

Lemma example_client_typed : client_typed example_client.
Proof. repeat split; try done. Qed.

(** The client in the middle of a PUBLISH packet. *)
Definition half_way : client_st :=
  match mqtt_parser_execute (H := calm_libc) 0 [] example_client [50; 9; 0; 3; 97; 47; 98; 1; 2; 104] with
  | Ok (_, _, Some c) => c
  | _ => example_client
  end.

