(* ===== verification/ParserSubscribe.v ===== *)
(** * SUBSCRIBE and UNSUBSCRIBE packets

    A SUBSCRIBE packet with up to ten filters reaches its callback with the
    filters and QoS values of the packet, and one with more writes outside
    the arrays of the parser.  No input at all makes the parser call
    [on_recv_unsubscribe]. *)

From S2P Require Import Prelude MqttPacket MqttEncode ClientTypes MqttParser ParserSpec.
From S2P Require Import ParserConnect.

(** A filter with the requested QoS. *)
Notation topic_req := (list Z * Z)%type (only parsing).

Definition subscribe_entry (t : topic_req) : list Z := string16 t.1 ++ [t.2].

Definition subscribe_body (pid : Z) (ts : list topic_req) : list Z :=
  be16 pid ++ concat (subscribe_entry <$> ts).

Definition subscribe_packet (pid : Z) (ts : list topic_req) : list Z :=
  encode_header_byte 8 0 1 0 ::
  rem_len_bytes (zlen (subscribe_body pid ts)) ++ subscribe_body pid ts.

Definition unsubscribe_body (pid : Z) (fs : list (list Z)) : list Z :=
  be16 pid ++ concat (string16 <$> fs).

Definition unsubscribe_packet (pid : Z) (fs : list (list Z)) : list Z :=
  encode_header_byte 10 0 1 0 ::
  rem_len_bytes (zlen (unsubscribe_body pid fs)) ++ unsubscribe_body pid fs.

Section subscribe.
Context `{Libc} {W : Type} `{MqttCallbacks W} (anon : Z).

Notation run := (parse_loop anon).
Notation step := (mqtt_parser_step anon).

Definition topic_ok (t : topic_req) : Prop :=
  1 <= zlen t.1 < 65536 /\ 0 <= t.2 <= 2 /\ malloc_fails (zlen t.1 + 1) = false.

Lemma subscribe_id_run w c h rem i mult u pid rest :
  0 <= pid < 65536 -> union_wf u ->
  exists su, union_wf (U_subscribe su) /\ su_packet_id su = pid /\ su_num_filters su = 0 /\
  run w (at_ c h rem i S_SUBSCRIBE_PACKET_ID_0 mult u) (be16 pid ++ rest)
  = run w (at_ c h (u32 (rem - 2)) i S_SUBSCRIBE_TOPIC_0 mult (U_subscribe su)) rest.
Proof.
  intros Hp Hu. exists ((as_subscribe u) <| su_packet_id := pid |> <| su_num_filters := 0 |>).
  apply as_subscribe_wf in Hu. split; [exact Hu|]. split; [done|]. split; [done|].
  unfold be16. cbn [app].
  erewrite run_next by reflexivity. erewrite run_next by reflexivity.
  match goal with |- run w ?c1 _ = _ =>
    change c1 with (at_ c h (u32 (rem - 2)) i S_SUBSCRIBE_TOPIC_0 mult
      (U_subscribe ((as_subscribe u) <| su_packet_id :=
         Z.lor (u16 (Z.shiftl (pid / 256) 8)) (pid mod 256) |> <| su_num_filters := 0 |>))) end.
  by rewrite be16_decode.
Qed.

Lemma step_topic_0 w c h rem i mult su b :
  step w (at_ c h rem i S_SUBSCRIBE_TOPIC_0 mult (U_subscribe su)) b
  = Ok (Next w (at_ c h rem i S_SUBSCRIBE_TOPIC_1 mult (U_subscribe (su <| su_u16 := u16 (Z.shiftl b 8) |>)))).
Proof. reflexivity. Qed.

Lemma filter_start_eq (w : W) c h rem i st mult pid x n lens fs qs b :
  filter_start w (at_ c h rem i st mult (U_subscribe (mk_subscribe pid x n lens fs qs))) b
  = let len := Z.lor x b in
    let again := Ok (Return 1 w (Some (at_ c h rem i st mult
                   (U_subscribe (mk_subscribe pid len n lens fs qs))))) in
    if rem <? u32 (len + 3) then again
    else match malloc (len + 1) with
    | None => again
    | Some vp =>
        lens ← arr_set lens n len;
        _ ← arr_set fs n (Some vp);
        vp ← arr_set vp len 0;
        fs ← arr_set fs n (Some vp);
        Ok (Next w (at_ c h rem i (succ_state st) mult (U_subscribe (mk_subscribe pid 0 n lens fs qs))))
    end.
Proof. reflexivity. Qed.

Lemma malloc_ok n :
  0 <= n -> malloc_fails n = false -> exists vp, malloc n = Some vp /\ zlen vp = n.
Proof. intros Hn Hm. unfold malloc. rewrite Hm. eexists. split; [done|]. by apply zlen_junk_bytes. Qed.

Lemma filter_start_ok (w : W) c h rem i st mult pid x lens l0 fs f0 qs b kl kf len :
  Z.lor x b = len -> 0 <= len < 65536 -> zlen fs = zlen lens ->
  malloc_fails (len + 1) = false ->
  len + 3 <= rem ->
  exists j, zlen j = len /\
  filter_start w (at_ c h rem i st mult
    (U_subscribe (mk_subscribe pid x (zlen lens) (lens ++ l0 :: kl) (fs ++ f0 :: kf) qs))) b
  = Ok (Next w (at_ c h rem i (succ_state st) mult
    (U_subscribe (mk_subscribe pid 0 (zlen lens) (lens ++ len :: kl) (fs ++ Some (j ++ [0]) :: kf) qs)))).
Proof.
  intros <- Hl Hfl Hm Hr. rewrite filter_start_eq. cbv zeta.
  destruct (malloc_ok (Z.lor x b + 1)) as (vp & Hvp & Hz); [lia|done|].
  rewrite u32_small by lia. destruct (Z.ltb_spec rem (Z.lor x b + 3)); [lia|].
  rewrite Hvp. destruct vp as [|y vp _] using rev_ind; [change (zlen (@nil Z)) with 0 in Hz; lia|].
  autorewrite with fb in Hz. exists vp. split; [lia|].
  rewrite arr_set_app_mid. cbn [mbind outcome_bind]. rewrite <- Hfl.
  rewrite arr_set_app_mid. cbn [mbind outcome_bind].
  replace (Z.lor x b) with (zlen vp) by lia.
  rewrite arr_set_app_mid. cbn [mbind outcome_bind].
  rewrite arr_set_app_mid. done.
Qed.

Lemma filter_byte_eq pid pre x post n lens fs kf qs b :
  zlen pre + 1 < 65536 -> n = zlen fs ->
  filter_byte (mk_subscribe pid (zlen pre) n lens (fs ++ Some (pre ++ x :: post) :: kf) qs) b
  = Ok (mk_subscribe pid (zlen (pre ++ [b])) n lens (fs ++ Some ((pre ++ [b]) ++ post) :: kf) qs).
Proof.
  intros Hl ->. pose proof (zlen_nonneg pre). unfold filter_byte. cbn [su_filters su_num_filters].
  replace (zlen fs) with (zlen fs + 0) at 1 by lia.
  rewrite (arr_get_app _ _ _ (Some (pre ++ x :: post))) by (done || lia). cbn [mbind outcome_bind su_u16].
  rewrite arr_set_app_mid. cbn [mbind outcome_bind]. rewrite arr_set_app_mid. cbn [mbind outcome_bind].
  rewrite <- app_assoc. cbn [app]. rewrite u16_small by lia. autorewrite with fb. done.
Qed.

Lemma step_topic_2 w c h rem i mult su b :
  step w (at_ c h rem i S_SUBSCRIBE_TOPIC_2 mult (U_subscribe su)) b
  = su ← filter_byte su b;
    len ← arr_get (su_filter_lengths su) (su_num_filters su);
    Ok (Next w (at_ c h rem i (if su_u16 su =? len then S_SUBSCRIBE_TOPIC_QOS else S_SUBSCRIBE_TOPIC_2)
      mult (U_subscribe su))).
Proof.
  change (step w ?c b) with (step_subscribe w c b). unfold step_subscribe.
  change (ps_state _) with S_SUBSCRIBE_TOPIC_2. cbv iota.
  change (get_subscribe _) with su. destruct (filter_byte su b) as [su'| | |]; try done.
  cbn [mbind outcome_bind]. destruct (arr_get _ _) as [len| | |]; try done.
  cbn [mbind outcome_bind]. by destruct (su_u16 su' =? len).
Qed.

Lemma step_qos w c h rem i mult su b :
  step w (at_ c h rem i S_SUBSCRIBE_TOPIC_QOS mult (U_subscribe su)) b
  = if 2 <? b then Ok (Return 1 w (Some (at_ c h rem i S_SUBSCRIBE_TOPIC_QOS mult (U_subscribe su))))
    else
      qos ← arr_set (su_qos su) (su_num_filters su) b;
      len ← arr_get (su_filter_lengths su) (su_num_filters su);
      n ← int_chk (su_num_filters su + 1);
      let su := su <| su_qos := qos |> <| su_num_filters := n |> in
      let rem := u32 (rem - (len + 3)) in
      if 0 <? rem then Ok (Next w (at_ c h rem i S_SUBSCRIBE_TOPIC_0 mult (U_subscribe su)))
      else finish (on_recv_subscribe w (at_ c h rem i S_SUBSCRIBE_TOPIC_QOS mult (U_subscribe su)) su).
Proof. reflexivity. Qed.

Lemma arr_get_mid {A} (l : list A) x k : arr_get (l ++ x :: k) (zlen l) = Ok x.
Proof. replace (zlen l) with (zlen l + 0) by lia. by apply arr_get_app. Qed.

(** The bytes of one filter, from an allocated buffer to the QoS byte. *)
Lemma filter_fill_run w c h rem i mult pid lens kl fs kf qs s j rest :
  zlen fs = zlen lens -> zlen j = zlen s -> 1 <= zlen s < 65536 ->
  run w (at_ c h rem i S_SUBSCRIBE_TOPIC_2 mult (U_subscribe
      (mk_subscribe pid 0 (zlen lens) (lens ++ zlen s :: kl) (fs ++ Some (j ++ [0]) :: kf) qs)))
    (s ++ rest)
  = run w (at_ c h rem i S_SUBSCRIBE_TOPIC_QOS mult (U_subscribe
      (mk_subscribe pid (zlen s) (zlen lens) (lens ++ zlen s :: kl) (fs ++ Some (s ++ [0]) :: kf) qs)))
    rest.
Proof.
  intros Hf Hj Hs.
  pose (f := fun pre post => at_ c h rem i S_SUBSCRIBE_TOPIC_2 mult (U_subscribe
      (mk_subscribe pid (zlen pre) (zlen lens) (lens ++ zlen s :: kl)
         (fs ++ Some (pre ++ post) :: kf) qs))).
  assert (forall pre b y post, zlen pre + 1 < 65536 -> step w (f pre (y :: post)) b
    = Ok (Next w (at_ c h rem i
        (if zlen (pre ++ [b]) =? zlen s then S_SUBSCRIBE_TOPIC_QOS else S_SUBSCRIBE_TOPIC_2) mult (U_subscribe
      (mk_subscribe pid (zlen (pre ++ [b])) (zlen lens) (lens ++ zlen s :: kl)
         (fs ++ Some ((pre ++ [b]) ++ post) :: kf) qs))))) as Hstep.
  { intros pre b y post Hp. unfold f. rewrite step_topic_2, filter_byte_eq by done.
    cbn [mbind outcome_bind su_filter_lengths su_num_filters su_u16].
    by rewrite arr_get_mid. }
  destruct (fill_run anon w f (zlen s) s j [0] rest) as (pre & b & y & Hp & Hz & Hr);
    [|done|lia|unfold zlen in *; lia|].
  - intros pre b y post Hp. rewrite Hstep by lia.
    destruct (Z.eqb_spec (zlen (pre ++ [b])) (zlen s)) as [E|]; [|done].
    autorewrite with fb in E. lia.
  - change (f [] (j ++ [0])) with (at_ c h rem i S_SUBSCRIBE_TOPIC_2 mult (U_subscribe
      (mk_subscribe pid 0 (zlen lens) (lens ++ zlen s :: kl) (fs ++ Some (j ++ [0]) :: kf) qs))) in Hr.
    rewrite Hr, Hstep by lia. by rewrite <- Hp, Z.eqb_refl.
Qed.

(** The parser after the filters [done_] of a packet, with the tails [kl],
    [kf], [kq] of its arrays. *)
Definition sub_at pid x (done_ : list topic_req) kl kf kq : subscribe_st :=
  mk_subscribe pid x (zlen done_) ((zlen ∘ fst <$> done_) ++ kl)
    (((fun t => Some (t.1 ++ [0])) <$> done_) ++ kf) ((snd <$> done_) ++ kq).

Lemma entry_run w c h rem i mult pid x done_ t l0 kl f0 kf q0 kq rest :
  topic_ok t -> zlen t.1 + 3 <= rem < 2 ^ 32 -> zlen done_ < 10 ->
  run w (at_ c h rem i S_SUBSCRIBE_TOPIC_0 mult
      (U_subscribe (sub_at pid x done_ (l0 :: kl) (f0 :: kf) (q0 :: kq)))) (subscribe_entry t ++ rest)
  = (let su := sub_at pid (zlen t.1) (done_ ++ [t]) kl kf kq in
     let rem := rem - (zlen t.1 + 3) in
     if 0 <? rem then run w (at_ c h rem i S_SUBSCRIBE_TOPIC_0 mult (U_subscribe su)) rest
     else finish (on_recv_subscribe w (at_ c h rem i S_SUBSCRIBE_TOPIC_QOS mult (U_subscribe su)) su)
          ≫= cont anon rest).
Proof.
  intros (Hl & Hq & Hm) Hr Hd. destruct t as [s q]. cbn [fst snd] in *.
  unfold subscribe_entry, string16, be16. cbn [fst snd app].
  rewrite (run_next _ _ _ _ _ _ _ (step_topic_0 w c h rem i mult _ _)).
  unfold sub_at at 1. rewrite run_cons.
  change (step w ?c1 (zlen s mod 256)) with (filter_start w c1 (zlen s mod 256)).
  assert (forall A (g : topic_req -> A), zlen (g <$> done_) = zlen done_) as Hzm.
  { intros A g. unfold zlen. by rewrite length_fmap. }
  destruct (filter_start_ok w c h rem i S_SUBSCRIBE_TOPIC_1 mult pid (u16 (Z.shiftl (zlen s / 256) 8))
    (zlen ∘ fst <$> done_) l0 ((fun t => Some (t.1 ++ [0])) <$> done_) f0 ((snd <$> done_) ++ q0 :: kq)
    (zlen s mod 256) kl kf (zlen s)) as (j & Hj & Hs);
    [by apply be16_decode; lia|lia|by rewrite !Hzm|done|lia|].
  rewrite !Hzm in Hs.
  match goal with |- filter_start ?a ?b ?d ≫= _ = _ =>
    match type of Hs with ?l = ?r => change (filter_start a b d) with l end end.
  rewrite Hs. cbn [mbind outcome_bind cont succ_state].
  rewrite <- app_assoc. rewrite <- (Hzm Z (zlen ∘ fst)).
  rewrite filter_fill_run by (rewrite ?Hzm; done || lia). rewrite !Hzm.
  cbn [app]. rewrite run_cons, step_qos. destruct (Z.ltb_spec 2 q); [lia|].
  cbn [su_qos su_num_filters su_filter_lengths].
  rewrite <- (Hzm Z snd) at 1. rewrite arr_set_app_mid. cbn [mbind outcome_bind].
  rewrite <- (Hzm Z (zlen ∘ fst)) at 1. rewrite arr_get_mid. cbn [mbind outcome_bind].
  rewrite int_chk_ok by (unfold int_min, int_max; pose proof (zlen_nonneg done_); lia).
  cbn [mbind outcome_bind]. rewrite u32_small by lia.
  unfold sub_at. rewrite !fmap_app, zlen_app, <- !app_assoc. change (zlen [(s, q)]) with 1.
  by destruct (0 <? rem - (zlen s + 3)).
Qed.

Lemma zlen_entry t : zlen (subscribe_entry t) = zlen t.1 + 3.
Proof. unfold subscribe_entry, string16. rewrite !zlen_app, zlen_be16. change (zlen [_]) with 1. lia. Qed.

Lemma zlen_entries_pos ts : Forall topic_ok ts -> ts <> [] -> 0 < zlen (concat (subscribe_entry <$> ts)).
Proof.
  intros Hts Hn. destruct Hts as [|t ts Ht _]; [done|]. rewrite fmap_cons. cbn [concat].
  rewrite zlen_app, zlen_entry. pose proof (zlen_nonneg (concat (subscribe_entry <$> ts))).
  destruct Ht as (? & _). lia.
Qed.

Lemma entries_run w c h i mult pid ts : forall x done_ kl kf kq rest,
  Forall topic_ok ts -> ts <> [] -> zlen done_ + zlen ts <= 10 ->
  zlen (concat (subscribe_entry <$> ts)) < 2 ^ 32 ->
  (length ts <= length kl)%nat -> (length ts <= length kf)%nat -> (length ts <= length kq)%nat ->
  exists x' kl' kf' kq',
  (length kl = length ts + length kl')%nat /\ (length kf = length ts + length kf')%nat /\
  (length kq = length ts + length kq')%nat /\
  let su := sub_at pid x' (done_ ++ ts) kl' kf' kq' in
  run w (at_ c h (zlen (concat (subscribe_entry <$> ts))) i S_SUBSCRIBE_TOPIC_0 mult
      (U_subscribe (sub_at pid x done_ kl kf kq))) (concat (subscribe_entry <$> ts) ++ rest)
  = finish (on_recv_subscribe w (at_ c h 0 i S_SUBSCRIBE_TOPIC_QOS mult (U_subscribe su)) su)
      ≫= cont anon rest.
Proof.
  induction ts as [|t ts IH]; [done|]. intros x done_ kl kf kq rest Hts _ Hd Hz Hkl Hkf Hkq.
  apply Forall_cons in Hts as [Ht Hts]. rewrite fmap_cons in *. cbn [concat] in *.
  rewrite zlen_app, zlen_entry, zlen_cons in *.
  pose proof (zlen_nonneg (concat (subscribe_entry <$> ts))).
  pose proof (zlen_nonneg done_). pose proof (zlen_nonneg ts). pose proof (zlen_nonneg t.1).
  destruct kl as [|l0 kl], kf as [|f0 kf], kq as [|q0 kq]; cbn [length] in *; try lia.
  rewrite <- app_assoc, entry_run by (done || lia). cbv zeta.
  rewrite Z.add_simpl_l.
  destruct ts as [|t' ts].
  - exists (zlen t.1), kl, kf, kq. cbn [length]. split; [lia|]. split; [lia|]. split; [lia|]. done.
  - destruct (Z.ltb_spec 0 (zlen (concat (subscribe_entry <$> t' :: ts)))) as [_|Hx].
    + destruct (IH (zlen t.1) (done_ ++ [t]) kl kf kq rest) as (x' & kl' & kf' & kq' & H1' & H2' & H3' & Hr);
        [done|done|rewrite zlen_app; change (zlen [t]) with 1; lia|lia|lia|lia|lia|].
      exists x', kl', kf', kq'. split; [lia|]. split; [lia|]. split; [lia|].
      rewrite Hr. by rewrite <- app_assoc.
    + pose proof (zlen_entries_pos (t' :: ts) Hts ltac:(done)). lia.
Qed.

Lemma entries_overflow w c h i mult pid ts : forall x done_ kl kf kq rest,
  Forall topic_ok ts -> 10 < zlen done_ + zlen ts -> zlen done_ <= 10 ->
  zlen (concat (subscribe_entry <$> ts)) < 2 ^ 32 ->
  zlen done_ + zlen kl = 10 -> zlen done_ + zlen kf = 10 -> zlen done_ + zlen kq = 10 ->
  run w (at_ c h (zlen (concat (subscribe_entry <$> ts))) i S_SUBSCRIBE_TOPIC_0 mult
      (U_subscribe (sub_at pid x done_ kl kf kq))) (concat (subscribe_entry <$> ts) ++ rest)
  = Undef OutOfBounds.
Proof.
  induction ts as [|t ts IH]; intros x done_ kl kf kq rest Hts Hd Hd10 Hz Hkl Hkf Hkq.
  { change (zlen (@nil topic_req)) with 0 in Hd. lia. }
  apply Forall_cons in Hts as [Ht Hts]. rewrite fmap_cons in *. cbn [concat] in *.
  rewrite zlen_app, zlen_entry, zlen_cons in *.
  pose proof (zlen_nonneg (concat (subscribe_entry <$> ts))).
  pose proof (zlen_nonneg done_). pose proof (zlen_nonneg ts). pose proof (zlen_nonneg t.1).
  destruct (decide (zlen done_ = 10)) as [E|].
  - assert (kl = []) as -> by (destruct kl; [done|]; rewrite zlen_cons in Hkl; pose proof (zlen_nonneg kl); lia).
    destruct Ht as (Hl & Hq & Hm). destruct t as [s q]. cbn [fst snd] in *.
    unfold subscribe_entry, string16, be16. cbn [fst snd app].
    rewrite (run_next _ _ _ _ _ _ _ (step_topic_0 w c h _ i mult _ _)).
    unfold sub_at. rewrite run_cons.
    match goal with |- ?lhs ≫= _ = _ =>
      assert (lhs = filter_start w (at_ c h (zlen s + 3 + zlen (concat (subscribe_entry <$> ts))) i
        S_SUBSCRIBE_TOPIC_1 mult (U_subscribe (mk_subscribe pid (u16 (Z.shiftl (zlen s / 256) 8)) (zlen done_)
          ((zlen ∘ fst <$> done_) ++ []) (((fun t => Some (t.1 ++ [0])) <$> done_) ++ kf)
          ((snd <$> done_) ++ kq)))) (zlen s mod 256)) as -> by reflexivity end.
    rewrite filter_start_eq. cbv zeta. rewrite be16_decode by lia.
    destruct (malloc_ok (zlen s + 1)) as (vp & -> & _); [lia|done|].
    rewrite u32_small by lia. destruct (Z.ltb_spec (zlen s + 3 + zlen (concat (subscribe_entry <$> ts))) (zlen s + 3)); [lia|].
    rewrite (arr_set_undef ((zlen ∘ fst <$> done_) ++ [])); [done|]. rewrite app_nil_r. unfold zlen. rewrite length_fmap.
    unfold zlen in *. lia.
  - destruct kl as [|l0 kl]; [rewrite zlen_nil in Hkl; lia|]. rewrite zlen_cons in Hkl.
    destruct kf as [|f0 kf]; [rewrite zlen_nil in Hkf; lia|]. rewrite zlen_cons in Hkf.
    destruct kq as [|q0 kq]; [rewrite zlen_nil in Hkq; lia|]. rewrite zlen_cons in Hkq.
    rewrite <- app_assoc, entry_run by (done || lia). cbv zeta. rewrite Z.add_simpl_l.
    destruct ts as [|t' ts]; [change (zlen (@nil topic_req)) with 0 in Hd; lia|].
    pose proof (zlen_entries_pos (t' :: ts) Hts ltac:(done)).
    destruct (Z.ltb_spec 0 (zlen (concat (subscribe_entry <$> t' :: ts)))) as [_|Hx]; [|lia].
    apply IH; rewrite ?zlen_app; change (zlen [t]) with 1; done || lia.
Qed.

(** The packet up to its first filter. *)
Lemma subscribe_prefix_run w c pid ts rest :
  0 <= pid < 65536 -> zlen (subscribe_body pid ts) < 2 ^ 28 ->
  ps_state (c_parser c) = S_HEADER -> union_wf (ps_u (c_parser c)) ->
  exists h i mult x kl kf kq, zlen kl = 10 /\ zlen kf = 10 /\ zlen kq = 10 /\
  run w c (subscribe_packet pid ts ++ rest)
  = run w (at_ c h (zlen (concat (subscribe_entry <$> ts))) i S_SUBSCRIBE_TOPIC_0 mult
      (U_subscribe (sub_at pid x [] kl kf kq))) (concat (subscribe_entry <$> ts) ++ rest).
Proof.
  intros Hp Hz Hst Hu. pose proof (client_eta c) as Hc. rewrite Hst in Hc.
  assert (zlen (subscribe_body pid ts) = 2 + zlen (concat (subscribe_entry <$> ts))) as Hzb.
  { unfold subscribe_body. by rewrite zlen_app, zlen_be16. }
  pose proof (zlen_nonneg (concat (subscribe_entry <$> ts))).
  unfold subscribe_packet. cbn [app]. rewrite <- app_assoc.
  destruct (fixed_header_run anon w c (ps_header (c_parser c)) (ps_rem_len (c_parser c))
    (ps_i (c_parser c)) (ps_multiplier (c_parser c)) (ps_u (c_parser c)) 8 0 1
    (zlen (subscribe_body pid ts)) S_SUBSCRIBE_PACKET_ID_0 (subscribe_body pid ts ++ rest))
    as [mult Hh]; [done|lia..|]. rewrite <- Hc in Hh. rewrite Hh. clear Hh Hc.
  unfold subscribe_body at 2. rewrite <- app_assoc.
  set (h := mk_header 8 0 1 0).
  destruct (subscribe_id_run w c h (zlen (subscribe_body pid ts)) (ps_i (c_parser c)) mult
    (ps_u (c_parser c)) pid (concat (subscribe_entry <$> ts) ++ rest))
    as (su0 & (Hl & Hf & Hq) & Hid & Hn & ->); [done|done|].
  assert (su0 = sub_at pid (su_u16 su0) [] (su_filter_lengths su0) (su_filters su0) (su_qos su0)) as Hsu0.
  { destruct su0. cbn in *. by subst. }
  rewrite Hzb, u32_small by lia. replace (2 + zlen (concat (subscribe_entry <$> ts)) - 2)
    with (zlen (concat (subscribe_entry <$> ts))) by lia.
  exists h, (ps_i (c_parser c)), mult, (su_u16 su0), (su_filter_lengths su0), (su_filters su0), (su_qos su0).
  rewrite <- Hsu0. done.
Qed.

End subscribe.

(** The arrays of the structure start with the filters of the packet. *)
Record subscribed (su : subscribe_st) (pid : Z) (ts : list topic_req) : Prop := {
  sd_packet_id : su_packet_id su = pid;
  sd_num_filters : su_num_filters su = zlen ts;
  sd_lengths : take (length ts) (su_filter_lengths su) = zlen ∘ fst <$> ts;
  sd_filters : take (length ts) (su_filters su) = (fun t => Some (t.1 ++ [0])) <$> ts;
  sd_qos : take (length ts) (su_qos su) = snd <$> ts;
  sd_wf : union_wf (U_subscribe su)
}.

Lemma take_fmap_app {A B} (f : A -> B) l k : take (length l) ((f <$> l) ++ k) = f <$> l.
Proof. rewrite <- (length_fmap f). apply take_app_length. Qed.

Lemma sub_at_subscribed pid x ts kl kf kq :
  zlen ts + zlen kl = 10 -> zlen ts + zlen kf = 10 -> zlen ts + zlen kq = 10 ->
  subscribed (sub_at pid x ts kl kf kq) pid ts.
Proof.
  intros Hl Hf Hq. split; try done; cbn; try apply take_fmap_app.
  rewrite !zlen_app. unfold zlen in *. rewrite !length_fmap. unfold MAX_NUM_TOPICS. lia.
Qed.

(** C25.  A SUBSCRIBE packet with one to ten filters reaches the callback, at
    the end of the packet and not before, with the packet identifier, the
    number of filters, and for each filter its length, its bytes closed by a
    NUL and its QoS, in order; only the parser of the client has changed.  The
    number of filters is not checked: a packet with more than ten makes the
    parser write outside its arrays. *)
Theorem subscribe_parsed `{Libc} {W : Type} `{MqttCallbacks W} anon w c pid ts rest :
  0 <= pid < 65536 -> Forall topic_ok ts -> ts <> [] ->
  zlen (subscribe_body pid ts) < 2 ^ 28 ->
  ps_state (c_parser c) = S_HEADER -> union_wf (ps_u (c_parser c)) ->
  (zlen ts <= 10 ->
   exists p' su, subscribed su pid ts /\ ps_u p' = U_subscribe su /\
     mqtt_parser_execute anon w c (subscribe_packet pid ts ++ rest)
     = deliver anon rest (on_recv_subscribe w (c <| c_parser := p' |>) su)) /\
  (10 < zlen ts ->
   mqtt_parser_execute anon w c (subscribe_packet pid ts ++ rest) = Undef OutOfBounds).
Proof.
  intros Hp Hts Hne Hz Hst Hu.
  destruct (subscribe_prefix_run anon w c pid ts rest) as (h & i & mult & x & kl & kf & kq & Hl & Hf & Hq & Hr);
    [done..|].
  unfold subscribe_body in Hz. rewrite zlen_app, zlen_be16 in Hz. split; intros Hn.
  - destruct (entries_run anon w c h i mult pid ts x [] kl kf kq rest)
      as (x' & kl' & kf' & kq' & H1' & H2' & H3' & Hr');
      [done|done|done|lia|unfold zlen in *; lia..|].
    rewrite Hr' in Hr. cbn [app] in Hr.
    exists (mk_parser h 0 i S_SUBSCRIBE_TOPIC_QOS mult (U_subscribe (sub_at pid x' ts kl' kf' kq'))),
      (sub_at pid x' ts kl' kf' kq').
    split; [|split; [reflexivity|exact (execute_finish anon _ _ _ _ _ Hr)]].
    apply sub_at_subscribed; unfold zlen in *; lia.
  - rewrite execute_run, Hr, entries_overflow; rewrite ?zlen_nil; try done; lia.
Qed.

Lemma subscribe_parsed_witness :
  exists p' su, subscribed su 513 [([97; 47; 35], 1); ([98], 0)] /\ ps_u p' = U_subscribe su /\
    mqtt_parser_execute (H := calm_libc) 0 [] example_client
      (subscribe_packet 513 [([97; 47; 35], 1); ([98], 0)] ++ [192; 0])
    = deliver (H := calm_libc) 0 [192; 0]
        (on_recv_subscribe [] (example_client <| c_parser := p' |>) su).
Proof.
  apply (subscribe_parsed (H := calm_libc) 0 [] example_client 513 [([97; 47; 35], 1); ([98], 0)] [192; 0]);
    [lia|repeat constructor; vm_compute; congruence|done|vm_compute; congruence|reflexivity|reflexivity
    |vm_compute; congruence].
Defined.

(** ** UNSUBSCRIBE *)

(** The callbacks [I] with another [on_recv_unsubscribe]. *)
Definition with_unsubscribe {W} (I : MqttCallbacks W)
  (f : W -> client_st -> subscribe_st -> outcome (Z * W * option client_st)) : MqttCallbacks W :=
  {| on_recv_connect := on_recv_connect; on_recv_subscribe := on_recv_subscribe;
     on_recv_unsubscribe := f; on_recv_publish := on_recv_publish;
     on_recv_ping := on_recv_ping; c_disconnect_normal := c_disconnect_normal |}.

(** While the bytes of a filter are read, three bytes more than the filter
    are still counted in [rem_len]. *)
Definition unsub_inv (c : client_st) : Prop :=
  (ps_state (c_parser c) = S_HEADER \/ ps_rem_len (c_parser c) < 2 ^ 32) /\
  match ps_state (c_parser c) with
  | S_UNSUBSCRIBE_TOPIC_1 =>
      exists su, ps_u (c_parser c) = U_subscribe su /\ 0 <= su_u16 su < 65536
  | S_UNSUBSCRIBE_TOPIC_2 =>
      exists su len, ps_u (c_parser c) = U_subscribe su /\
        arr_get (su_filter_lengths su) (su_num_filters su) = Ok len /\
        0 <= len < 65536 /\ len + 3 <= ps_rem_len (c_parser c)
  | _ => True
  end.

Lemma lor_byte_range x b : 0 <= x < 65536 -> is_byte b -> 0 <= Z.lor x b < 65536.
Proof.
  intros Hx Hb. unfold is_byte in Hb. split; [apply Z.lor_nonneg; lia|].
  destruct (decide (Z.lor x b = 0)) as [->|Hn]; [lia|].
  apply (Z.log2_lt_pow2 _ 16); [pose proof (proj2 (Z.lor_nonneg x b)); lia|].
  rewrite Z.log2_lor by lia.
  assert (forall y, 0 <= y < 65536 -> Z.log2 y < 16) as Hl.
  { intros y Hy. destruct (decide (y = 0)) as [->|]; [done|]. apply Z.log2_lt_pow2; lia. }
  apply Z.max_lub_lt; apply Hl; lia.
Qed.

Lemma arr_set_get {A} (l l' : list A) i v : arr_set l i v = Ok l' -> arr_get l' i = Ok v.
Proof.
  unfold arr_set. destruct (Z.leb_spec 0 i), (Z.ltb_spec i (zlen l)); cbn [andb]; try done.
  intros [= <-]. apply arr_get_ok; [done|]. apply list_lookup_insert_eq. unfold zlen in *. lia.
Qed.

Section unsubscribe.
Context `{Libc} {W : Type} (I : MqttCallbacks W) (anon : Z).
Context (f g : W -> client_st -> subscribe_st -> outcome (Z * W * option client_st)).

Notation step_f := (@mqtt_parser_step _ W (with_unsubscribe I f) anon).
Notation step_g := (@mqtt_parser_step _ W (with_unsubscribe I g) anon).

Lemma finish_next (r : outcome (Z * W * option client_st)) w c :
  finish r = Ok (Next w c) -> unsub_inv c.
Proof.
  unfold finish. intros Hf. inv_bind. destruct a as [[rc w0] oc0]. cbn in Hf.
  destruct (truthy rc); [done|]. destruct oc0; [|done]. injection Hf as <- <-. split; [by left|done].
Qed.

Lemma unsub_step_topic_1 (w : W) c h rem i mult su b :
  is_byte b -> 0 <= su_u16 su < 65536 -> rem < 2 ^ 32 ->
  forall w' c', filter_start w (at_ c h rem i S_UNSUBSCRIBE_TOPIC_1 mult (U_subscribe su)) b
    = Ok (Next w' c') -> unsub_inv c'.
Proof.
  intros Hb Hu Hr w' c'. destruct su as [pid x n lens fs qs]. cbn [su_u16] in Hu.
  rewrite filter_start_eq. cbv zeta. pose proof (lor_byte_range x b Hu Hb).
  rewrite u32_small by lia. destruct (Z.ltb_spec rem (Z.lor x b + 3)); [done|].
  destruct (malloc _) as [vp|]; [|done]. intros Hs. inv_bind.
  split; [by right|]. eexists _, (Z.lor x b).
  split; [reflexivity|]. split; [by eapply arr_set_get|]. split; [done|]. cbn. lia.
Qed.

(** The round that completes a filter goes on to another one. *)
Lemma unsub_step_topic_2 (w : W) c h rem i mult su len b :
  arr_get (su_filter_lengths su) (su_num_filters su) = Ok len ->
  0 <= len < 65536 -> len + 3 <= rem < 2 ^ 32 ->
  let c0 := at_ c h rem i S_UNSUBSCRIBE_TOPIC_2 mult (U_subscribe su) in
  step_f w c0 b = step_g w c0 b /\
  forall w' c', step_f w c0 b = Ok (Next w' c') -> unsub_inv c'.
Proof.
  intros Hlen Hl Hr c0.
  assert (forall K, @mqtt_parser_step _ W (with_unsubscribe I K) anon w c0 b
    = su ← filter_byte su b;
      len ← arr_get (su_filter_lengths su) (su_num_filters su);
      if su_u16 su =? len then
        n ← int_chk (su_num_filters su + 1);
        let su := su <| su_num_filters := n |> in
        let rem := u32 (rem - (len + 2)) in
        if 0 <? rem then Ok (Next w (at_ c h rem i S_UNSUBSCRIBE_TOPIC_0 mult (U_subscribe su)))
        else finish (K w (at_ c h rem i S_UNSUBSCRIBE_TOPIC_2 mult (U_subscribe su)) su)
      else Ok (Next w (at_ c h rem i S_UNSUBSCRIBE_TOPIC_2 mult (U_subscribe su)))) as Hs
    by reflexivity.
  rewrite !Hs. clear Hs.
  destruct (filter_byte su b) as [su'| | |] eqn:Hfb; try done. cbn [mbind outcome_bind].
  assert (su_filter_lengths su' = su_filter_lengths su /\ su_num_filters su' = su_num_filters su) as [El En].
  { unfold filter_byte in Hfb. inv_bind. destruct a as [fl|]; [|done]. by inv_bind. }
  rewrite El, En, Hlen. cbn [mbind outcome_bind].
  destruct (su_u16 su' =? len).
  - destruct (int_chk _) as [n| | |]; try done. cbn [mbind outcome_bind]. cbv zeta.
    rewrite u32_small by lia. destruct (Z.ltb_spec 0 (rem - (len + 2))); [|lia].
    split; [done|]. intros w' c' [= <- <-]. split; [right; cbn; lia|done].
  - split; [done|]. intros w' c' [= <- <-]. split; [right; cbn; lia|].
    exists su', len. rewrite El, En. repeat (split; [done|]). cbn. lia.
Qed.

Lemma unsub_step (w : W) c b :
  is_byte b -> unsub_inv c ->
  step_f w c b = step_g w c b /\
  forall w' c', step_f w c b = Ok (Next w' c') -> unsub_inv c'.
Proof.
  intros Hb Hc. rewrite (client_eta c) in *. revert Hc.
  generalize (ps_header (c_parser c)) (ps_rem_len (c_parser c)) (ps_i (c_parser c))
    (ps_multiplier (c_parser c)) (ps_u (c_parser c)) (ps_state (c_parser c)).
  intros h rem i mult u st [Hrem Hst]. cbn in Hrem.
  destruct st; try (destruct Hrem as [Hrem|Hrem]; [discriminate Hrem|]).
  all: try (split; [reflexivity|]; intros w' c' Hs;
    unfold mqtt_parser_step, step_header, step_rem_len, step_connect_1,
      step_connect_client_id, step_connect_will, step_connect_auth, step_subscribe,
      step_unsubscribe, step_publish, publish_topic_done, filter_start in Hs; cbn [ps_state at_] in Hs;
    inv_bind; repeat (case_match; inv_bind; simplify_eq); try done;
    first [by eapply finish_next
          |split; [right; first [exact Hrem|apply u32_range|by cbn]|exact Logic.I]]; fail).
  - split; [reflexivity|]. intros w' c' [= <- <-]. split; [by right|]. eexists. split; [reflexivity|].
    apply u16_range.
  - destruct Hst as (su & [= ->] & Hu). split; [reflexivity|].
    by apply (unsub_step_topic_1 w c h rem i mult su b).
  - destruct Hst as (su & len & [= ->] & Hlen & Hl & Hr).
    by apply (unsub_step_topic_2 w c h rem i mult su len b).
Qed.

Lemma unsub_run (w : W) c buf :
  bytes buf -> unsub_inv c ->
  @parse_loop _ W (with_unsubscribe I f) anon w c buf
  = @parse_loop _ W (with_unsubscribe I g) anon w c buf.
Proof.
  intros Hb. revert w c. induction Hb as [|b buf Hbyte Hb IH]; intros w c Hc; [done|].
  destruct (unsub_step w c b Hbyte Hc) as [Heq Hnext].
  rewrite !run_cons, <- Heq. destruct (step_f w c b) as [[w' c'|]| | |] eqn:E; try done.
  cbn. by apply IH, (Hnext w').
Qed.
End unsubscribe.

Section unsubscribe_run.
Context `{Libc} {W : Type} `{MqttCallbacks W} (anon : Z).

Lemma unsubscribe_id_run (w : W) c h rem i mult u pid rest :
  0 <= pid < 65536 ->
  exists pid' x n lens fs qs,
  parse_loop anon w (at_ c h rem i S_UNSUBSCRIBE_PACKET_ID_0 mult u) (be16 pid ++ rest)
  = parse_loop anon w (at_ c h (u32 (rem - 2)) i S_UNSUBSCRIBE_TOPIC_0 mult
      (U_subscribe (mk_subscribe pid' x n lens fs qs))) rest.
Proof.
  intros Hp. destruct (as_subscribe u) as [pid' x n lens fs qs] eqn:E.
  exists pid, x, 0, lens, fs, qs. unfold be16. cbn [app].
  erewrite run_next by reflexivity. erewrite run_next by reflexivity.
  match goal with |- parse_loop _ w ?c1 _ = _ =>
    change c1 with (at_ c h (u32 (rem - 2)) i S_UNSUBSCRIBE_TOPIC_0 mult
      (U_subscribe ((as_subscribe u) <| su_packet_id :=
         Z.lor (u16 (Z.shiftl (pid / 256) 8)) (pid mod 256) |> <| su_num_filters := 0 |>))) end.
  rewrite be16_decode by done. by rewrite E.
Qed.

Lemma step_unsub_topic_0 (w : W) c h rem i mult su b :
  mqtt_parser_step anon w (at_ c h rem i S_UNSUBSCRIBE_TOPIC_0 mult (U_subscribe su)) b
  = Ok (Next w (at_ c h rem i S_UNSUBSCRIBE_TOPIC_1 mult
      (U_subscribe (su <| su_u16 := u16 (Z.shiftl b 8) |>)))).
Proof. reflexivity. Qed.

Lemma step_unsub_topic_1 (w : W) c h rem i mult pid x n lens fs qs v b :
  mqtt_parser_step anon w (at_ c h rem i S_UNSUBSCRIBE_TOPIC_1 mult
    (U_subscribe ((mk_subscribe pid x n lens fs qs) <| su_u16 := v |>))) b
  = filter_start w (at_ c h rem i S_UNSUBSCRIBE_TOPIC_1 mult
      (U_subscribe (mk_subscribe pid v n lens fs qs))) b.
Proof. reflexivity. Qed.
End unsubscribe_run.

(** C39.  [on_recv_unsubscribe] is never called: whatever bytes arrive, the
    parser behaves the same with any two implementations of this callback,
    even one that stops the process.  The length test of UNSUBSCRIBE asks
    for the three extra bytes a SUBSCRIBE entry has, so that a correct
    UNSUBSCRIBE packet for a single filter ends in the error return. *)
Theorem unsubscribe_never_called `{Libc} {W : Type} (I : MqttCallbacks W) anon f g w c buf pid s rest :
  bytes buf -> ps_state (c_parser c) = S_HEADER -> union_wf (ps_u (c_parser c)) ->
  0 <= pid < 65536 -> zlen s < 65536 ->
  @mqtt_parser_execute _ W (with_unsubscribe I f) anon w c buf
  = @mqtt_parser_execute _ W (with_unsubscribe I g) anon w c buf /\
  exists c', mqtt_parser_execute anon w c (unsubscribe_packet pid [s] ++ rest) = Ok (1, w, Some c').
Proof.
  intros Hb Hst Hu Hp Hs. split.
  { rewrite !execute_run, (unsub_run I anon f g); [done|done|]. unfold unsub_inv. rewrite Hst. by split; [left|]. }
  pose proof (client_eta c) as Hc. rewrite Hst in Hc. pose proof (zlen_nonneg s).
  assert (zlen (unsubscribe_body pid [s]) = zlen s + 4) as Hzb.
  { unfold unsubscribe_body. rewrite zlen_app, zlen_be16.
    change (concat (string16 <$> [s])) with (string16 s ++ []). rewrite app_nil_r, zlen_string16. lia. }
  unfold unsubscribe_packet. cbn [app]. rewrite <- app_assoc.
  destruct (fixed_header_run anon w c (ps_header (c_parser c)) (ps_rem_len (c_parser c))
    (ps_i (c_parser c)) (ps_multiplier (c_parser c)) (ps_u (c_parser c)) 10 0 1
    (zlen (unsubscribe_body pid [s])) S_UNSUBSCRIBE_PACKET_ID_0 (unsubscribe_body pid [s] ++ rest))
    as [mult Hh]; [done|lia..|]. rewrite <- Hc in Hh. rewrite execute_run, Hh. clear Hh Hc.
  rewrite Hzb. unfold unsubscribe_body.
  change (concat (string16 <$> [s])) with (string16 s ++ []). rewrite app_nil_r.
  rewrite <- app_assoc.
  destruct (unsubscribe_id_run anon w c (mk_header 10 0 1 0) (zlen s + 4) (ps_i (c_parser c)) mult
    (ps_u (c_parser c)) pid (string16 s ++ rest) Hp) as (pid' & x & n & lens & fs & qs & ->).
  unfold string16, be16. cbn [app].
  rewrite (run_next _ _ _ _ _ _ _ (step_unsub_topic_0 anon w c _ _ _ mult _ _)).
  rewrite run_cons, step_unsub_topic_1, filter_start_eq. cbv zeta. rewrite be16_decode by lia.
  rewrite !u32_small by lia. destruct (Z.ltb_spec (zlen s + 4 - 2) (zlen s + 3)); [|lia].
  by eexists.
Qed.

Lemma unsubscribe_never_called_witness :
  @mqtt_parser_execute calm_libc _ (with_unsubscribe recorder (fun _ _ _ => Halt)) 0 [] example_client [162; 5]
  = @mqtt_parser_execute calm_libc _ (with_unsubscribe recorder (fun _ _ _ => Spin)) 0 [] example_client [162; 5]
  /\ exists c', mqtt_parser_execute (H := calm_libc) 0 [] example_client
       (unsubscribe_packet 7 [[97]] ++ [192; 0]) = Ok (1, [], Some c').
Proof.
  apply (unsubscribe_never_called (H := calm_libc) recorder 0 (fun _ _ _ => Halt) (fun _ _ _ => Spin)
    [] example_client [162; 5] 7 [97] [192; 0]);
    [repeat constructor; lia|reflexivity|reflexivity|lia|vm_compute; reflexivity].
Defined.
