(* ===== verification/Trie.v ===== *)
(** * The subscription trie (src/trie_mult.c, src/trie_mult.h)

    A trie over the bytes of topic filters whose nodes hold lists of
    subscriptions.  The trie is the only owner of its nodes, so it is a tree
    value here; the lists are cells of a node heap (DList.v), because
    subscriptions are also reached through the clients they belong to.  The
    search calls back for every subscription it finds, over a state [St] of
    the broker that contains the node heap. *)

From S2P Require Import Prelude DList MqttPacket.

Inductive trie_mult_node_st (L : Type) :=
  TNode (t_list : option L) (t_children : gmap Z (trie_mult_node_st L)).
Arguments TNode {L} t_list t_children.

Definition CHAR_SIZE : Z := 256.

Section trie.
Context {L : Type} `{Countable L} {V : Type}.

Notation trie := (trie_mult_node_st L).
Notation heap := (gmap L (dllist_node_st L V)).

Definition t_list (t : trie) : option L := match t with TNode l _ => l end.
Definition t_children (t : trie) : gmap Z trie := match t with TNode _ cs => cs end.

(** ** The functions of trie_mult.c *)

Definition new_trie_mult_node : trie := TNode None ∅.

(** The node is freed, 1, when its list is empty. *)
Definition free_trie_node (curr : trie) : option trie * bool :=
  match t_list curr with
  | None => (None, true)
  | Some _ => (Some curr, false)
  end.

Definition have_children (curr : trie) : bool :=
  existsb (fun i => bool_decide (is_Some (t_children curr !! i))) (seqZ 0 CHAR_SIZE).

(** The walk of [trie_m_insert] from the node [curr]. *)
Fixpoint insert_walk (h : heap) (curr : trie) (s : list Z) (p : L) : outcome (heap * trie) :=
  match s with
  | [] => Undef OutOfBounds
  | b :: s' =>
      if b =? 0 then
        '(h, l) ← dllist_insert_tail_unique h (t_list curr) p;
        mret (h, TNode l (t_children curr))
      else
        let child := default new_trie_mult_node (t_children curr !! b) in
        '(h, child) ← insert_walk h child s' p;
        mret (h, TNode (t_list curr) (<[b := child]> (t_children curr)))
  end.

Definition trie_m_insert (h : heap) (phead : option trie) (s : list Z) (p : L)
  : outcome (heap * option trie) :=
  '(h, t) ← insert_walk h (default new_trie_mult_node phead) s p;
  mret (h, Some t).

Definition set_child (curr : trie) (b : Z) (child : option trie) : trie :=
  TNode (t_list curr) (match child with
    | Some c => <[b := c]> (t_children curr)
    | None => delete b (t_children curr)
    end).

(** A node without children is freed when its list is empty too. *)
Definition prune (h : heap) (curr : trie) : heap * option trie * bool :=
  if have_children curr then (h, Some curr, false)
  else let '(curr, rv) := free_trie_node curr in (h, curr, rv).

Fixpoint delete_r (h : heap) (curr : option trie) (s : list Z) (lp : L) {struct s}
  : outcome (heap * option trie * bool) :=
  match curr with
  | None => mret (h, None, false)
  | Some t =>
      match s with
      | [] => Undef OutOfBounds
      | b :: s' =>
          if b =? 0 then
            '(h, l) ← dllist_remove_ref h (t_list t) lp;
            mret (prune h (TNode l (t_children t)))
          else match t_children t !! b with
          | None => mret (h, Some t, false)
          | Some child =>
              '(h, child, rv) ← delete_r h (Some child) s' lp;
              let t := set_child t b child in
              if (rv : bool) then mret (prune h t) else mret (h, Some t, false)
          end
      end
  end.

Definition trie_m_delete (h : heap) (phead : option trie) (s : list Z) (lp : L)
  : outcome (heap * option trie) :=
  '(h, t, _) ← delete_r h phead s lp; mret (h, t).

(** [cp] moves to the next separator or to the end of the text. *)
Fixpoint skip_to_slash (s : list Z) : outcome (list Z) :=
  match s with
  | [] => Undef OutOfBounds
  | b :: s' => if (b =? 0) || (b =? c_slash) then mret s else skip_to_slash s'
  end.

Section search.
Context {St : Type} (nodes : St -> heap) (fp : option V -> St -> outcome St).

(** The callback for each node of the list, then the next node as the
    callback has left it. *)
Fixpoint found_list_loop (fuel : nat) (p : option L) (st : St) (found_count : Z)
  : outcome (St * Z) :=
  match p with
  | None => mret (st, found_count)
  | Some l =>
      match fuel with
      | O => Spin
      | S fuel =>
          found_count ← int_chk (found_count + 1);
          n ← node_get (nodes st) l;
          st ← fp (nd_p n) st;
          n ← node_get (nodes st) l;
          found_list_loop fuel (nd_next n) st found_count
      end
  end.

Definition found_list (p : option L) (st : St) (found_count : Z) : outcome (St * Z) :=
  found_list_loop (size (nodes st)) p st found_count.

(** The loop of [search_r_mqtt]; the recursive call, for '+', is the one on
    the text after the next separator. *)
Fixpoint search_loop (fuel : nat) (curr : trie) (s : list Z) (last_c : Z) (st : St)
  (found_count : Z) : outcome (St * Z) :=
  match fuel, s with
  | O, _ => Spin
  | _, [] => Undef OutOfBounds
  | S fuel, b :: s' =>
      if b =? 0 then
        match t_list curr with
        | Some l => found_list (Some l) st found_count
        | None => mret (st, found_count)
        end
      else
        '(st, found_count) ←
          (if (last_c =? 0) || (last_c =? c_slash) then
             '(st, found_count) ← match t_children curr !! c_hash with
               | Some t => found_list (t_list t) st found_count
               | None => mret (st, found_count)
               end;
             match t_children curr !! c_plus with
             | None => mret (st, found_count)
             | Some t =>
                 cp ← skip_to_slash s;
                 match cp with
                 | c :: cp' =>
                     if c =? 0 then found_list (t_list t) st found_count
                     else match t_children t !! c_slash with
                          | Some t => search_loop fuel t cp' 0 st found_count
                          | None => mret (st, found_count)
                          end
                 | [] => Undef OutOfBounds
                 end
             end
           else mret (st, found_count));
        match t_children curr !! b with
        | None => mret (st, found_count)
        | Some t => search_loop fuel t s' b st found_count
        end
  end.

Definition search_r_mqtt (curr : option trie) (s : list Z) (st : St) (found_count : Z)
  : outcome (St * Z) :=
  match curr with
  | None => mret (st, found_count)
  | Some t => search_loop (length s) t s 0 st found_count
  end.

(** The wildcards do not apply to the first level of a topic that starts
    with '$'. *)
Definition trie_m_search_mqtt (phead : option trie) (s : list Z) (st : St) : outcome (St * Z) :=
  match s with
  | [] => Undef OutOfBounds
  | b :: s' =>
      if b =? 36 then
        match phead with
        | None => mret (st, 0)
        | Some t => search_r_mqtt (t_children t !! 36) s' st 0
        end
      else search_r_mqtt phead s st 0
  end.
End search.
End trie.
