(* ===== verification/TrieSearch.v ===== *)
(** * What the trie search finds

    [trie_m_search_mqtt] visits the lists of exactly the filters that match
    the topic level by level, in a fixed order; where the topic has no empty
    level these are the filters [mqtt_topic_matches] accepts. *)

From S2P Require Import Prelude DList MqttPacket Trie.

(** ** The filters looked up for a topic *)

Definition lvl_hash : list Z := [c_hash].
Definition lvl_plus : list Z := [c_plus].

(** The filters, as levels, for a topic with the levels [tl], in the order in
    which the search comes to them.  The wildcards are not tried on an empty
    last level. *)
Fixpoint patterns (tl : list (list Z)) : list (list (list Z)) :=
  match tl with
  | [] => [[]]
  | t :: tl' =>
      (if bool_decide (t = [] /\ tl' = []) then []
       else [lvl_hash] :: (cons lvl_plus <$> patterns tl')) ++
      (cons t <$> patterns tl')
  end.

(** The same as a predicate on one filter. *)
Fixpoint trie_match (fl tl : list (list Z)) : bool :=
  match fl, tl with
  | [], [] => true
  | f :: fl', t :: tl' =>
      let wild := negb (bool_decide (t = [] /\ tl' = [])) in
      if decide (f = lvl_hash) then wild
      else (if decide (f = lvl_plus) then wild else bool_decide (f = t)) && trie_match fl' tl'
  | _, _ => false
  end.

(** A topic without wildcard characters. *)
Definition topic_levels (tl : list (list Z)) : Prop := Forall literal tl.

Lemma literal_neq l : literal l -> l <> lvl_hash /\ l <> lvl_plus.
Proof.
  intros Hl. split; intros ->; apply Forall_cons in Hl as [(_ & _ & H1 & H2) _]; done.
Qed.

Lemma patterns_trie_match fl tl :
  filter_wf fl -> topic_levels tl -> fl ∈ patterns tl <-> trie_match fl tl = true.
Proof.
  intros Hf Ht. revert fl Hf. induction Ht as [|t tl Hlt Ht IH]; intros fl Hf; cbn [patterns].
  { rewrite list_elem_of_singleton. by destruct fl. }
  rewrite elem_of_app, (list_elem_of_fmap (cons t)).
  assert (Hsub : forall f fl', fl = f :: fl' -> f <> lvl_hash ->
    (fl' ∈ patterns tl <-> trie_match fl' tl = true)).
  { intros f fl' -> Hh. destruct fl' as [|f' fl'].
    - cbn [trie_match]. destruct Ht as [|t' tl Hl Ht]; [cbn [patterns]; by rewrite list_elem_of_singleton|].
      split; [|done]. cbn [patterns]. rewrite elem_of_app. destruct (bool_decide _).
      + intros [[]%elem_of_nil|(y & ? & ?)%list_elem_of_fmap]; done.
      + rewrite elem_of_cons. intros [[|(y & ? & ?)%list_elem_of_fmap]|(y & ? & ?)%list_elem_of_fmap]; done.
    - apply IH. by destruct Hf as [_ Hf]. }
  destruct (literal_neq t Hlt) as [Hth Htp].
  destruct fl as [|f fl']; [done|]. cbn [trie_match].
  destruct (decide (f = lvl_hash)) as [->|Hh].
  - assert (fl' = []) as ->.
    { destruct fl' as [|f' fl']; [done|]. destruct Hf as [[Hl|Hl] _]; [|done].
      by destruct (literal_neq _ Hl). }
    case_bool_decide as Hb; cbn [negb].
    + split; [|done]. intros [[]%elem_of_nil|(y & ? & _)]. congruence.
    + split; [done|]. intros _. left. apply elem_of_cons. by left.
  - rewrite andb_true_iff, <- (Hsub f fl') by done. destruct (decide (f = lvl_plus)) as [->|Hp].
    + case_bool_decide as Hb; cbn [negb].
      * split; [|by intros []]. intros [[]%elem_of_nil|(y & ? & _)]. congruence.
      * rewrite elem_of_cons, list_elem_of_fmap. split.
        -- intros [[|(y & ? & ?)]|(y & ? & ?)]; by simplify_eq.
        -- intros [_ Hfl]. left. right. by eexists.
    + split.
      * intros [Hw|(y & ? & Hy)]; [|simplify_eq; by rewrite bool_decide_eq_true_2].
        exfalso. case_bool_decide; [by apply elem_of_nil in Hw|].
        apply elem_of_cons in Hw as [|(y & ? & ?)%list_elem_of_fmap]; by simplify_eq.
      * intros [Hb%bool_decide_eq_true Hfl]. subst. right. by eexists.
Qed.

(** On topics without empty levels the trie and [mqtt_topic_matches] mean the
    same. *)
Lemma trie_match_levels fl tl :
  Forall (fun t => t <> []) tl -> trie_match fl tl = levels_match false fl tl.
Proof.
  intros Ht. revert fl. induction Ht as [|t tl Hne Ht IH]; intros [|f fl]; try done.
  cbn [trie_match levels_match].
  rewrite (bool_decide_eq_false_2 (t = [] /\ tl = [])), (bool_decide_eq_false_2 (t = [])) by naive_solver.
  cbn [negb orb]. fold lvl_hash lvl_plus. by rewrite IH.
Qed.

Lemma patterns_NoDup tl : topic_levels tl -> NoDup (patterns tl).
Proof.
  induction 1 as [|t tl Hlt Ht IH]; cbn [patterns]; [repeat constructor; set_solver|].
  destruct (literal_neq t Hlt) as [Hth Htp]. apply NoDup_app.
  split; [|split; [|by apply NoDup_fmap_2; [intros ???; congruence|]]].
  - case_bool_decide; [constructor|]. constructor.
    + intros (y & ? & ?)%list_elem_of_fmap. done.
    + by apply NoDup_fmap_2; [intros ???; congruence|].
  - intros x Hx (y & -> & _)%list_elem_of_fmap. case_bool_decide; [by apply elem_of_nil in Hx|].
    apply elem_of_cons in Hx as [|(z & ? & _)%list_elem_of_fmap]; congruence.
Qed.

(** Every pattern of a topic has as many levels at most; none is empty. *)
Lemma patterns_nonempty tl f : tl <> [] -> f ∈ patterns tl -> f <> [].
Proof.
  destruct tl as [|t tl]; [done|]. intros _. cbn [patterns].
  rewrite elem_of_app, list_elem_of_fmap. case_bool_decide; [set_solver|].
  rewrite elem_of_cons, list_elem_of_fmap. naive_solver.
Qed.

(** ** The search visits the patterns *)

Section search.
Context {L : Type} `{Countable L} {V : Type}.
Context {St : Type} (nodes : St -> gmap L (dllist_node_st L V)) (fp : option V -> St -> outcome St).

Notation trie := (trie_mult_node_st L).
Implicit Types (t : trie) (s : list Z).

Fixpoint node_at t s : option trie :=
  match s with
  | [] => Some t
  | b :: s => t_children t !! b ≫= (fun t => node_at t s)
  end.

(** The list for the filter [s]. *)
Definition list_at (o : option trie) s : option L := (o ≫= (fun t => node_at t s)) ≫= t_list.

Lemma list_at_cons t b s : list_at (Some t) (b :: s) = list_at (t_children t !! b) s.
Proof. unfold list_at. cbn. by destruct (t_children t !! b). Qed.

(** The lists of several filters, one after the other. *)
Fixpoint visit (o : option trie) (fs : list (list Z)) (st : St) (n : Z) : outcome (St * Z) :=
  match fs with
  | [] => mret (st, n)
  | f :: fs =>
      '(st, n) ← found_list nodes fp (list_at o f) st n;
      visit o fs st n
  end.

Lemma found_list_none st n : found_list nodes fp None st n = Ok (st, n).
Proof. unfold found_list. by destruct (size (nodes st)). Qed.

Lemma visit_app o fs fs' st n :
  visit o (fs ++ fs') st n = '(st, n) ← visit o fs st n; visit o fs' st n.
Proof.
  revert st n. induction fs as [|f fs IH]; intros st n; [done|]. cbn [app visit].
  destruct (found_list _ _ _ _ _) as [[st' n']| | |]; try done. apply IH.
Qed.

Lemma visit_none fs st n : visit None fs st n = Ok (st, n).
Proof.
  revert st n. induction fs as [|f fs IH]; intros st n; [done|]. cbn [visit].
  change (list_at None f) with (@None L). rewrite found_list_none. apply IH.
Qed.

Lemma visit_child t b fs st n :
  visit (Some t) (cons b <$> fs) st n = visit (t_children t !! b) fs st n.
Proof.
  revert st n. induction fs as [|f fs IH]; intros st n; [done|].
  rewrite fmap_cons. cbn [visit]. rewrite list_at_cons.
  destruct (found_list _ _ _ _ _) as [[st' n']| | |]; try done. apply IH.
Qed.

(** Literal characters inside a level only walk down. *)
Lemma search_loop_literal fuel t c s last st n :
  c <> 0 -> last <> 0 -> last <> c_slash ->
  search_loop nodes fp (S fuel) t (c :: s) last st n
  = match t_children t !! c with
    | None => mret (st, n)
    | Some t => search_loop nodes fp fuel t s c st n
    end.
Proof.
  intros Hc Hl Hs. cbn [search_loop]. destruct (Z.eqb_spec c 0); [done|].
  destruct (Z.eqb_spec last 0); [done|]. by destruct (Z.eqb_spec last c_slash).
Qed.

(** A text without NUL up to the NUL that closes it. *)
Definition text (s : list Z) : Prop := Forall (fun c => c <> 0) s.

Lemma skip_to_slash_join l tl junk :
  slash_free l -> text l ->
  skip_to_slash (join (l :: tl) ++ 0 :: junk)
  = Ok (match tl with [] => 0 :: junk | _ => c_slash :: join tl ++ 0 :: junk end).
Proof.
  intros Hs Ht. destruct tl as [|t' tl].
  - cbn [join]. induction Hs as [|c l Hc Hs IH]; [done|].
    apply Forall_cons in Ht as [H0 Ht]. cbn [app skip_to_slash].
    destruct (Z.eqb_spec c 0); [done|]. destruct (Z.eqb_spec c c_slash); [done|]. by apply IH.
  - rewrite join_cons by done. rewrite <- app_assoc. cbn [app].
    induction Hs as [|c l Hc Hs IH]; [done|].
    apply Forall_cons in Ht as [H0 Ht]. cbn [app skip_to_slash].
    destruct (Z.eqb_spec c 0); [done|]. destruct (Z.eqb_spec c c_slash); [done|]. by apply IH.
Qed.

(** What is left of a pattern after its first level. *)
Definition rest_patterns (tl : list (list Z)) : list (list Z) :=
  match tl with [] => [[]] | _ => cons c_slash <$> (join <$> patterns tl) end.

Lemma join_level f tl :
  join <$> (cons f <$> patterns tl) = app f <$> rest_patterns tl.
Proof.
  destruct tl as [|t tl]; [cbn; by rewrite app_nil_r|]. cbn [rest_patterns].
  rewrite <- !list_fmap_compose. apply list_fmap_ext. intros i p Hp. cbn.
  apply list_elem_of_lookup_2 in Hp. apply patterns_nonempty in Hp; [|done]. by destruct p.
Qed.

Lemma visit_prefix t (f : list Z) fs st n :
  visit (Some t) (app f <$> fs) st n
  = visit (node_at t f) fs st n.
Proof.
  revert t. induction f as [|b f IH]; intros t.
  - cbn. f_equal. apply list_fmap_id.
  - assert (app (b :: f) <$> fs = cons b <$> (app f <$> fs)) as ->.
    { rewrite <- list_fmap_compose. done. }
    rewrite visit_child. cbn [node_at]. destruct (t_children t !! b) as [t'|]; [apply IH|].
    by rewrite !visit_none.
Qed.

(** Inside a level: [l] is what is left of it. *)
Lemma search_loop_level fuel t l tl junk last st n :
  (forall fuel t st n, (length (join tl) < fuel)%nat ->
     tl <> [] ->
     search_loop nodes fp fuel t (join tl ++ 0 :: junk) c_slash st n
     = visit (Some t) (join <$> patterns tl) st n) ->
  (length (join (l :: tl)) < fuel)%nat ->
  slash_free l -> text l -> last <> 0 -> last <> c_slash ->
  search_loop nodes fp fuel t (join (l :: tl) ++ 0 :: junk) last st n
  = visit (Some t) (app l <$> rest_patterns tl) st n.
Proof.
  intros Htl Hf Hs Ht. revert fuel t last st n Hf.
  induction Hs as [|c l Hc Hs IH]; intros fuel t last st n Hf Hl0 Hls.
  - destruct fuel as [|fuel]; [cbn in Hf; lia|]. destruct tl as [|t' tl].
    + cbn [join app rest_patterns fmap list_fmap visit]. unfold list_at. cbn.
      destruct (t_list t) as [l|]; [|by rewrite found_list_none].
      by destruct (found_list _ _ _ _ _) as [[]| | |].
    + rewrite join_cons in * by done. cbn [app] in *. cbn [length] in Hf.
      rewrite search_loop_literal by done.
      rewrite list_fmap_id. cbn [rest_patterns]. rewrite visit_child.
      destruct (t_children t !! c_slash) as [t1|]; [|by rewrite visit_none].
      apply Htl; [lia|done].
  - apply Forall_cons in Ht as [H0 Ht]. destruct fuel as [|fuel]; [lia|].
    assert (join ((c :: l) :: tl) = c :: join (l :: tl)) as Hj by (by destruct tl).
    assert (app (c :: l) <$> rest_patterns tl = cons c <$> (app l <$> rest_patterns tl)) as ->.
    { by rewrite <- list_fmap_compose. }
    rewrite Hj in *. cbn [app length] in *. rewrite search_loop_literal by done.
    rewrite visit_child. destruct (t_children t !! c) as [t1|]; [|by rewrite visit_none].
    apply IH; [done|lia|done|done].
Qed.

Definition levels_text (tl : list (list Z)) : Prop := Forall (fun l => slash_free l /\ text l) tl.

Lemma search_loop_patterns tl : forall fuel t junk last st n,
  tl <> [] -> levels_text tl -> (length (join tl) < fuel)%nat -> last = 0 \/ last = c_slash ->
  search_loop nodes fp fuel t (join tl ++ 0 :: junk) last st n
  = visit (Some t) (join <$> patterns tl) st n.
Proof.
  induction tl as [|l tl IH]; intros fuel t junk last st n Hne Htl Hf Hlast; [done|].
  apply Forall_cons in Htl as [[Hs Ht] Htl]. cbn [patterns]. rewrite fmap_app, visit_app.
  destruct fuel as [|fuel]; [lia|].
  pose proof (skip_to_slash_join l tl junk Hs Ht) as Hskip.
  destruct (decide (l = [] /\ tl = [])) as [[-> ->]|Hn].
  { rewrite bool_decide_eq_true_2 by done. cbn. unfold list_at. cbn.
    destruct (t_list t) as [l|]; [|by rewrite found_list_none].
    by destruct (found_list _ _ _ _ _) as [[]| | |]. }
  rewrite bool_decide_eq_false_2 by done.
  rewrite fmap_cons, !join_level. cbn [visit]. change (join [lvl_hash]) with [c_hash].
  (* the literal level, once the wildcards are done *)
  assert (forall st n, match join (l :: tl) ++ 0 :: junk with
      | b :: s' => match t_children t !! b with
          | None => mret (st, n) | Some t => search_loop nodes fp fuel t s' b st n end
      | [] => Undef OutOfBounds end
    = visit (Some t) (app l <$> rest_patterns tl) st n) as Hlit.
  { intros st1 n1. assert (forall fuel t st n, (length (join tl) < fuel)%nat -> tl <> [] ->
      search_loop nodes fp fuel t (join tl ++ 0 :: junk) c_slash st n
      = visit (Some t) (join <$> patterns tl) st n) as Hnext.
    { intros. apply IH; auto. }
    destruct l as [|c l].
    - destruct tl as [|l' tl]; [naive_solver|]. rewrite join_cons in * by done. cbn [app length] in *.
      rewrite list_fmap_id. cbn [rest_patterns]. rewrite visit_child.
      destruct (t_children t !! c_slash) as [t1|]; [|by rewrite visit_none]. apply Hnext; [lia|done].
    - apply Forall_cons in Ht as [Hc0 Ht]. apply Forall_cons in Hs as [Hcs Hs].
      assert (app (c :: l) <$> rest_patterns tl = cons c <$> (app l <$> rest_patterns tl)) as ->.
      { by rewrite <- list_fmap_compose. }
      assert (join ((c :: l) :: tl) = c :: join (l :: tl)) as Hj by (by destruct tl).
      rewrite Hj in *. cbn [app length] in *. rewrite visit_child.
      destruct (t_children t !! c) as [t1|]; [|by rewrite visit_none].
      apply search_loop_level; [done|lia|done..]. }
  (* the wildcards *)
  assert (exists c s, join (l :: tl) = c :: s /\ c <> 0) as (c & s & Hj & Hc0).
  { destruct l as [|c l]; [|apply Forall_cons in Ht as [? ?]; exists c, (join (l :: tl)); by destruct tl].
    destruct tl as [|l' tl]; [naive_solver|]. exists c_slash, (join (l' :: tl)). done. }
  rewrite Hj in *. cbn [app] in *. cbn [search_loop]. destruct (Z.eqb_spec c 0); [done|].
  assert ((last =? 0) || (last =? c_slash) = true) as ->.
  { destruct Hlast as [-> | ->]; done. }
  rewrite Hskip, list_at_cons.
  assert (list_at (t_children t !! c_hash) [] = t_children t !! c_hash ≫= t_list) as ->
    by (by destruct (t_children t !! c_hash)).
  assert (match t_children t !! c_hash with
    | Some t1 => found_list nodes fp (t_list t1) st n | None => mret (st, n) end
    = found_list nodes fp (t_children t !! c_hash ≫= t_list) st n) as ->
    by (destruct (t_children t !! c_hash); [done|by rewrite found_list_none]).
  rewrite !bind_assoc.
  destruct (found_list nodes fp (t_children t !! c_hash ≫= t_list) st n) as [[st1 n1]| | |]; try done.
  cbn [mbind outcome_bind].
  match goal with |- ?lhs ≫= _ = _ =>
    assert (lhs = visit (Some t) (app lvl_plus <$> rest_patterns tl) st1 n1) as -> end.
  { rewrite visit_prefix. cbn [node_at lvl_plus]. destruct (t_children t !! c_plus) as [t1|]; cbn [mbind option_bind outcome_bind];
      [|by rewrite visit_none].
    destruct tl as [|l' tl].
    - change (0 =? 0) with true. cbn. unfold list_at. cbn. by destruct (found_list _ _ _ _ _) as [[]| | |].
    - change (c_slash =? 0) with false. cbv iota. cbn [rest_patterns]. rewrite visit_child.
      destruct (t_children t1 !! c_slash) as [t2|]; [|by rewrite visit_none].
      apply IH; [done|done| |by left]. rewrite <- Hj in Hf. rewrite join_cons in Hf by done.
      rewrite length_app in Hf. cbn [length] in Hf. lia. }
  destruct (visit (Some t) (app lvl_plus <$> rest_patterns tl) st1 n1) as [[st2 n2]| | |]; try done.
  cbn [mbind outcome_bind]. apply Hlit.
Qed.

(** The filters looked up for a topic. *)
Definition filters_for (s : list Z) : list (list Z) :=
  match s with
  | c :: s' => if c =? 36 then cons 36 <$> (join <$> patterns (levels s'))
               else join <$> patterns (levels s)
  | [] => join <$> patterns (levels s)
  end.

Lemma levels_text_levels s : text s -> levels_text (levels s).
Proof.
  intros Ht. apply Forall_and. split; [apply levels_slash_free|].
  induction Ht as [|c s Hc Ht IH]; [repeat constructor|]. cbn [levels].
  destruct (Z.eqb_spec c c_slash); [by constructor; [constructor|]|].
  destruct (levels s) as [|l ls]; [by repeat constructor|].
  apply Forall_cons in IH as [Hl IH]. by repeat constructor.
Qed.

Lemma search_r_ok (o : option trie) s junk st n :
  text s -> search_r_mqtt nodes fp o (s ++ 0 :: junk) st n
  = visit o (join <$> patterns (levels s)) st n.
Proof.
  intros Ht. destruct o as [t|]; [|by rewrite visit_none]. unfold search_r_mqtt.
  rewrite <- (join_levels s) at 2. apply search_loop_patterns;
    [apply levels_nonempty|by apply levels_text_levels| |by left].
  rewrite join_levels, length_app. cbn. lia.
Qed.

Lemma search_ok (o : option trie) s junk st :
  text s -> trie_m_search_mqtt nodes fp o (s ++ 0 :: junk) st = visit o (filters_for s) st 0.
Proof.
  intros Ht. unfold filters_for. destruct s as [|c s].
  - cbn [app trie_m_search_mqtt]. change (0 =? 36) with false. cbv iota. by apply (search_r_ok o []).
  - cbn [app trie_m_search_mqtt]. destruct (Z.eqb_spec c 36) as [->|].
    + apply Forall_cons in Ht as [_ Ht]. destruct o as [t|]; [|by rewrite visit_none].
      by rewrite visit_child, search_r_ok.
    + by apply (search_r_ok o (c :: s)).
Qed.
End search.
