(* ===== verification/TrieStore.v ===== *)
(** * The trie as a map from filters to lists of subscriptions

    [trie_rep h o M]: in the node heap [h] the trie [o] holds, under each
    filter, the list that [M] gives.  Insertion and deletion refine the
    update of [M] at one filter and leave no useless nodes behind; the search
    calls back for the nodes of the matching filters. *)

From S2P Require Import Prelude DList MqttPacket Trie TrieSearch.

Section store.
Context {L : Type} `{Countable L} {V : Type}.

Notation trie := (trie_mult_node_st L).
Notation heap := (gmap L (dllist_node_st L V)).
Implicit Types (t : trie) (o : option trie) (s : list Z) (h : heap) (M : list Z -> list L).

Definition node_in o s : option trie := o ≫= (fun t => node_at t s).

Lemma list_at_node_in o s : list_at o s = node_in o s ≫= t_list.
Proof. done. Qed.

Lemma node_in_cons t b s : node_in (Some t) (b :: s) = node_in (t_children t !! b) s.
Proof. cbn. by destruct (t_children t !! b). Qed.

(** Every node lies on the way to a list. *)
Definition useful o : Prop :=
  forall s, is_Some (node_in o s) -> exists s', list_at o (s ++ s') <> None.

(** The children are indexed by bytes. *)
Definition byte_keys o : Prop := forall s, is_Some (node_in o s) -> bytes s.

Lemma byte_keys_child t b : byte_keys (Some t) -> byte_keys (t_children t !! b).
Proof.
  intros Hk s Hs. assert (bytes (b :: s)) as Hb by (apply Hk; by rewrite node_in_cons).
  by apply bytes_cons in Hb as [_ Hb].
Qed.

Lemma useful_child t b : useful (Some t) -> useful (t_children t !! b).
Proof.
  intros Hu s Hs. destruct (Hu (b :: s)) as [s' Hs']; [by rewrite node_in_cons|].
  exists s'. by rewrite <- list_at_cons.
Qed.

Lemma have_children_spec t :
  byte_keys (Some t) -> have_children t = false -> forall b, t_children t !! b = None.
Proof.
  intros Hk Hh b. destruct (t_children t !! b) as [c|] eqn:Hb; [|done]. exfalso.
  assert (is_byte b) as Hbb.
  { assert (bytes [b]) as Hbs by (apply Hk; rewrite node_in_cons, Hb; by eexists).
    by apply bytes_cons in Hbs as [? _]. }
  assert (have_children t = true); [|congruence]. apply existsb_exists. exists b. split.
  - apply list_elem_of_In, elem_of_seqZ. unfold is_byte, CHAR_SIZE in *. lia.
  - rewrite bool_decide_eq_true_2; [done|]. rewrite Hb. by eexists.
Qed.

Lemma have_children_true t : have_children t = true -> exists b, is_Some (t_children t !! b).
Proof.
  intros Hh. apply existsb_exists in Hh as (b & _ & Hb). exists b. by apply bool_decide_eq_true in Hb.
Qed.

(** ** Insertion *)

(** The list under [s] replaced, the nodes on the way created. *)
Fixpoint set_list t s (l : option L) : trie :=
  match s with
  | [] => TNode l (t_children t)
  | b :: s => TNode (t_list t)
      (<[b := set_list (default new_trie_mult_node (t_children t !! b)) s l]> (t_children t))
  end.

Lemma list_at_new s : list_at (Some (@new_trie_mult_node L)) s = None.
Proof. destruct s; [done|]. rewrite list_at_cons. cbn. by rewrite lookup_empty. Qed.

Lemma list_at_default (x : option trie) s :
  list_at (Some (default new_trie_mult_node x)) s = list_at x s.
Proof. destruct x; [done|]. apply list_at_new. Qed.

Lemma insert_walk_eq h t s junk p :
  text s ->
  insert_walk h t (s ++ 0 :: junk) p
  = '(h', l) ← dllist_insert_tail_unique h (list_at (Some t) s) p; mret (h', set_list t s l).
Proof.
  intros Hs. revert t. induction Hs as [|b s Hb Hs IH]; intros t; [done|].
  cbn [app insert_walk]. destruct (Z.eqb_spec b 0); [done|].
  rewrite IH, list_at_default, list_at_cons.
  by destruct (dllist_insert_tail_unique _ _ _) as [[]| | |].
Qed.

Lemma list_at_set_list t s l s' :
  list_at (Some (set_list t s l)) s' = if decide (s' = s) then l else list_at (Some t) s'.
Proof.
  revert t s'. induction s as [|b s IH]; intros t [|b' s']; cbn [set_list].
  - done.
  - rewrite !list_at_cons. done.
  - done.
  - rewrite !list_at_cons. cbn [t_children]. destruct (decide (b' = b)) as [->|Hne].
    + rewrite lookup_insert_eq, IH, list_at_default.
      destruct (decide (s' = s)), (decide (b :: s' = b :: s)); congruence.
    + rewrite lookup_insert_ne by done. destruct (decide (b' :: s' = b :: s)); congruence.
Qed.

Lemma node_in_set_list t s l s' :
  is_Some (node_in (Some (set_list t s l)) s') <-> is_Some (node_in (Some t) s') \/ s' `prefix_of` s.
Proof.
  revert t s'. induction s as [|b s IH]; intros t [|b' s']; cbn [set_list].
  - split; [by left|by eexists].
  - rewrite !node_in_cons. split; [by left|]. intros [?|?%prefix_nil_inv]; done.
  - split; [right; apply prefix_nil|by eexists].
  - rewrite !node_in_cons. cbn [t_children]. destruct (decide (b' = b)) as [->|Hne].
    + rewrite lookup_insert_eq, IH.
      assert (b :: s' `prefix_of` b :: s <-> s' `prefix_of` s) as ->.
      { split; [apply prefix_cons_inv_2|apply prefix_cons]. }
      destruct (t_children t !! b) as [c|]; [done|]. cbn.
      split; [|by intros [[? ?]|]; [|by right]]. intros [Hn|]; [|by right].
      destruct s' as [|b1 s']; [right; apply prefix_nil|]. cbn in Hn.
      rewrite lookup_empty in Hn. by destruct Hn.
    + rewrite lookup_insert_ne by done. split; [by left|].
      intros [?|?%prefix_cons_inv_1]; [done|congruence].
Qed.

(** ** Deletion *)

(** [delete_r] without the list operation: the list under [s] becomes [l]. *)
Definition pruned t : option trie * bool :=
  if have_children t then (Some t, false) else free_trie_node t.

Fixpoint del_path t s (l : option L) : option trie * bool :=
  match s with
  | [] => pruned (TNode l (t_children t))
  | b :: s =>
      match t_children t !! b with
      | None => (Some t, false)
      | Some c =>
          let '(c, rv) := del_path c s l in
          let t := set_child t b c in
          if (rv : bool) then pruned t else (Some t, false)
      end
  end.

Lemma delete_r_eq h t s junk lp :
  text s -> is_Some (node_in (Some t) s) ->
  delete_r h (Some t) (s ++ 0 :: junk) lp
  = '(h', l) ← dllist_remove_ref h (list_at (Some t) s) lp;
    mret (h', (del_path t s l).1, (del_path t s l).2).
Proof.
  intros Hs. revert t. induction Hs as [|b s Hb Hs IH]; intros t Hn.
  - cbn [app delete_r]. change (0 =? 0) with true. cbv iota. change (list_at (Some t) []) with (t_list t).
    destruct (dllist_remove_ref _ _ _) as [[h' l]| | |]; try done. cbn. unfold prune, pruned.
    destruct (have_children _); [done|]. unfold free_trie_node. cbn. by destruct l.
  - rewrite node_in_cons in Hn. cbn [app delete_r del_path]. destruct (Z.eqb_spec b 0); [done|].
    rewrite list_at_cons. destruct (t_children t !! b) as [c|]; [|by destruct Hn].
    rewrite IH by done. destruct (dllist_remove_ref _ _ _) as [[h' l]| | |]; try done. cbn.
    destruct (del_path c s l) as [c' [|]]; cbn; [|done]. unfold prune, pruned.
    destruct (have_children _); [done|]. unfold free_trie_node. by destruct (t_list _).
Qed.

Lemma pruned_freed t : (pruned t).2 = true -> (pruned t).1 = None.
Proof. unfold pruned, free_trie_node. destruct (have_children t); [done|]. by destruct (t_list t). Qed.

Lemma del_path_freed t s l : (del_path t s l).2 = true -> (del_path t s l).1 = None.
Proof.
  destruct s as [|b s]; cbn [del_path]; [apply pruned_freed|].
  destruct (t_children t !! b) as [c|]; [|done]. destruct (del_path c s l) as [c' [|]]; [|done].
  apply pruned_freed.
Qed.

Lemma pruned_kept t : (pruned t).2 = false -> (pruned t).1 = Some t.
Proof. unfold pruned, free_trie_node. destruct (have_children t); [done|]. by destruct (t_list t). Qed.

Lemma set_child_lookup t b c b' :
  t_children (set_child t b c) !! b' = if decide (b' = b) then c else t_children t !! b'.
Proof.
  unfold set_child. cbn. destruct c, (decide (b' = b)) as [->|]; by simplify_map_eq.
Qed.

(** Pruning a node changes no list. *)
Lemma list_at_pruned t s : byte_keys (Some t) -> list_at (pruned t).1 s = list_at (Some t) s.
Proof.
  intros Hk. unfold pruned. destruct (have_children t) eqn:Hc; [done|].
  unfold free_trie_node. destruct (t_list t) as [l|] eqn:Hl; [done|]. cbn [fst].
  destruct s as [|b s]; [by unfold list_at; cbn|].
  rewrite list_at_cons, (have_children_spec t) by done. done.
Qed.

Lemma useful_pruned t :
  (forall b, useful (t_children t !! b)) -> useful (pruned t).1.
Proof.
  intros Hu. assert (useful (Some t) \/ (pruned t).1 = None) as [Hx|Hx].
  - unfold pruned. destruct (have_children t) eqn:Hc.
    + left. intros [|b s] Hs.
      * apply have_children_true in Hc as [b Hb]. destruct (Hu b []) as [s' Hs'].
        { unfold node_in. destruct Hb as [c ->]. by eexists. }
        exists (b :: s'). cbn [app]. by rewrite list_at_cons.
      * rewrite node_in_cons in Hs. destruct (Hu b s Hs) as [s' Hs']. exists s'.
        cbn [app]. by rewrite list_at_cons.
    + unfold free_trie_node. destruct (t_list t) as [l|] eqn:Hl; [left|by right].
      intros [|b s] Hs.
      * exists []. unfold list_at. cbn. by rewrite Hl.
      * rewrite node_in_cons in Hs. destruct (Hu b s Hs) as [s' Hs']. exists s'.
        cbn [app]. by rewrite list_at_cons.
  - unfold pruned, free_trie_node in *.
    destruct (have_children t); [done|]. destruct (t_list t); [done|].
    intros s [? Hs]. done.
  - rewrite Hx. intros s [? Hs]. done.
Qed.

Lemma pruned_kept_or t : (pruned t).1 = Some t \/ (pruned t).1 = None.
Proof. unfold pruned, free_trie_node. destruct (have_children t); [by left|]. destruct (t_list t); auto. Qed.

Lemma byte_keys_sub t o :
  byte_keys (Some t) -> (forall s, is_Some (node_in o s) -> is_Some (node_in (Some t) s)) -> byte_keys o.
Proof. intros Hk Hs s Hn. apply Hk. by apply Hs. Qed.

Lemma node_in_set_child t b c s :
  node_in (Some (set_child t b c)) s =
    match s with
    | [] => Some (set_child t b c)
    | b' :: s' => if decide (b' = b) then node_in c s' else node_in (Some t) s
    end.
Proof.
  destruct s as [|b' s']; [done|]. rewrite !node_in_cons, set_child_lookup. by destruct (decide (b' = b)).
Qed.

(** Deletion creates no node. *)
Lemma node_in_del_path t s l s' :
  is_Some (node_in (del_path t s l).1 s') -> is_Some (node_in (Some t) s').
Proof.
  revert t s'. induction s as [|b s IH]; intros t s'; cbn [del_path].
  - destruct (pruned_kept_or (TNode l (t_children t))) as [-> | ->]; [|by intros [? ?]].
    destruct s' as [|b' s']; [done|]. by rewrite !node_in_cons.
  - destruct (t_children t !! b) as [c|] eqn:Hb; [|done].
    specialize (IH c). destruct (del_path c s l) as [c' rv]. cbn [fst] in *.
    intros Hs. assert (is_Some (node_in (Some (set_child t b c')) s')) as Hn.
    { destruct rv; [|done]. destruct (pruned_kept_or (set_child t b c')) as [E|E]; rewrite E in Hs; [done|].
      by destruct Hs. }
    rewrite node_in_set_child in Hn. destruct s' as [|b' s']; [by eexists|].
    destruct (decide (b' = b)) as [->|]; [|done]. rewrite node_in_cons, Hb. by apply IH.
Qed.

Lemma list_at_set_child t b c s :
  list_at (Some (set_child t b c)) s =
    match s with
    | [] => t_list t
    | b' :: s' => if decide (b' = b) then list_at c s' else list_at (Some t) s
    end.
Proof.
  destruct s as [|b' s']; [done|]. rewrite !list_at_cons, set_child_lookup. by destruct (decide (b' = b)).
Qed.

Lemma byte_keys_set_child t b c c' :
  byte_keys (Some t) -> t_children t !! b = Some c ->
  (forall s, is_Some (node_in c' s) -> is_Some (node_in (Some c) s)) -> byte_keys (Some (set_child t b c')).
Proof.
  intros Hk Hb Hc. apply (byte_keys_sub t); [done|]. intros s Hs. rewrite node_in_set_child in Hs.
  destruct s as [|b' s']; [by eexists|]. destruct (decide (b' = b)) as [->|]; [|done].
  rewrite node_in_cons, Hb. by apply Hc.
Qed.

Lemma list_at_del_path t s l s' :
  byte_keys (Some t) -> is_Some (node_in (Some t) s) ->
  list_at (del_path t s l).1 s' = if decide (s' = s) then l else list_at (Some t) s'.
Proof.
  revert t s'. induction s as [|b s IH]; intros t s' Hk Hs; cbn [del_path].
  - rewrite list_at_pruned.
    + destruct s' as [|b' s']; [done|]. by rewrite !list_at_cons.
    + apply (byte_keys_sub t); [done|]. intros [|b' s0]; [by eexists|]. by rewrite !node_in_cons.
  - rewrite node_in_cons in Hs. destruct (t_children t !! b) as [c|] eqn:Hb; [|by destruct Hs].
    assert (byte_keys (Some c)) as Hkc by (rewrite <- Hb; by apply byte_keys_child).
    pose proof (IH c) as IHc. pose proof (node_in_del_path c s l) as Hsub.
    destruct (del_path c s l) as [c' rv]. cbn [fst] in *.
    assert (byte_keys (Some (set_child t b c'))) as Hk' by (by eapply byte_keys_set_child).
    assert (forall o, o = Some (set_child t b c') \/ o = (pruned (set_child t b c')).1 ->
      list_at o s' = list_at (Some (set_child t b c')) s') as Ho.
    { intros o [-> | ->]; [done|]. by apply list_at_pruned. }
    rewrite Ho by (destruct rv; auto). rewrite list_at_set_child.
    destruct s' as [|b' s']; [by destruct (decide ([] = b :: s))|].
    destruct (decide (b' = b)) as [->|].
    + rewrite IHc by done. rewrite list_at_cons, Hb.
      destruct (decide (s' = s)), (decide (b :: s' = b :: s)); congruence.
    + destruct (decide (b' :: s' = b :: s)); congruence.
Qed.

Lemma del_path_kept t s l : (del_path t s l).2 = false -> is_Some (del_path t s l).1.
Proof.
  assert (forall t, (pruned t).2 = false -> is_Some (pruned t).1) as Hp.
  { intros t' Ht. rewrite pruned_kept by done. by eexists. }
  destruct s as [|b s]; cbn [del_path]; [apply Hp|].
  destruct (t_children t !! b) as [c|]; [|by eexists].
  destruct (del_path c s l) as [c' [|]]; [apply Hp|by eexists].
Qed.

Lemma useful_del_path t s l :
  useful (Some t) -> is_Some (node_in (Some t) s) -> useful (del_path t s l).1.
Proof.
  revert t. induction s as [|b s IH]; intros t Hu Hs; cbn [del_path].
  - apply useful_pruned. intros b. by apply (useful_child t b).
  - rewrite node_in_cons in Hs. destruct (t_children t !! b) as [c|] eqn:Hb; [|by destruct Hs].
    assert (useful (Some c)) as Huc by (rewrite <- Hb; by apply useful_child).
    specialize (IH c Huc Hs). pose proof (del_path_kept c s l) as Hf.
    destruct (del_path c s l) as [c' rv]. cbn [fst snd] in *.
    assert (forall b', useful (t_children (set_child t b c') !! b')) as Hall.
    { intros b'. rewrite set_child_lookup. destruct (decide (b' = b)); [done|by apply useful_child]. }
    destruct rv; [by apply useful_pruned|]. cbn [fst].
    intros [|b' s'] Hn.
    + destruct (Hf eq_refl) as [c1 ->]. destruct (IH []) as [s1 Hs1]; [by eexists|].
      exists (b :: s1). cbn [app]. rewrite list_at_cons, set_child_lookup. by rewrite decide_True.
    + rewrite node_in_cons in Hn. destruct (Hall b' s' Hn) as [s1 Hs1]. exists s1.
      cbn [app]. by rewrite list_at_cons.
Qed.

(** ** The store *)

Definition upd_at M s (xs : list L) : list Z -> list L := fun s' => if decide (s' = s) then xs else M s'.

Record trie_rep h o M : Prop := {
  tr_lists s : dll h (list_at o s) (M s);
  tr_disjoint s s' x : x ∈ M s -> x ∈ M s' -> s = s';
  tr_useful : useful o;
  tr_bytes : byte_keys o
}.

Lemma trie_rep_node h o M s x : trie_rep h o M -> x ∈ M s -> is_Some (node_in o s).
Proof.
  intros Hr Hx. pose proof (tr_lists _ _ _ Hr s) as Hl. rewrite list_at_node_in in Hl.
  destruct (node_in o s); [by eexists|]. cbn in Hl. destruct (M s); [set_solver|]. by destruct Hl.
Qed.

(** The lists of the other filters do not see changes at one of them. *)
Lemma trie_rep_others h h' o o' M s xs ys :
  trie_rep h o M ->
  (forall s', s' <> s -> list_at o' s' = list_at o s') ->
  dll h' (list_at o' s) xs -> links_changed h h' ys ->
  (forall x s', x ∈ ys -> x ∈ M s' -> s' = s) -> (forall x s', x ∈ xs -> x ∈ M s' -> s' = s) ->
  useful o' -> byte_keys o' ->
  trie_rep h' o' (upd_at M s xs).
Proof.
  intros Hr Ho Hxs Hlc Hys Hx Hu Hb. split; [| |done|done].
  - intros s'. unfold upd_at. destruct (decide (s' = s)) as [->|Hne]; [done|].
    rewrite Ho by done. eapply links_changed_dseg; [done| |by apply (tr_lists _ _ _ Hr)].
    intros x Hxm Hxy. by apply Hne, (Hys x).
  - intros s1 s2 x. unfold upd_at. destruct (decide (s1 = s)) as [->|], (decide (s2 = s)) as [->|]; try done.
    + intros H1 H2. by destruct (n (Hx _ _ H1 H2)).
    + intros H1 H2. by destruct (n (Hx _ _ H2 H1)).
    + apply (tr_disjoint _ _ _ Hr).
Qed.

Lemma insert_rep h o M s junk p :
  trie_rep h o M -> text s -> bytes s -> is_Some (h !! p) ->
  (forall s', p ∈ M s' -> s' = s) ->
  exists h' o', trie_m_insert h o (s ++ 0 :: junk) p = Ok (h', o') /\
    trie_rep h' o' (upd_at M s (if decide (p ∈ M s) then M s else M s ++ [p])) /\
    links_changed h h' (M s ++ [p]) /\ is_Some o'.
Proof.
  intros Hr Ht Hb Hp Hown. unfold trie_m_insert. rewrite insert_walk_eq by done.
  rewrite list_at_default. pose proof (tr_lists _ _ _ Hr s) as Hs.
  assert (forall l, (forall s', s' <> s -> list_at (Some (set_list (default new_trie_mult_node o) s l)) s' = list_at o s')
    /\ list_at (Some (set_list (default new_trie_mult_node o) s l)) s = l) as Hla.
  { intros l. split; [intros s' Hne|]; rewrite list_at_set_list.
    - rewrite decide_False by done. apply list_at_default.
    - by rewrite decide_True. }
  assert (forall l, byte_keys (Some (set_list (default new_trie_mult_node o) s l))) as Hbk.
  { intros l s'. rewrite node_in_set_list. intros [Hn|[k ->]].
    - destruct o as [t|]; [by apply (tr_bytes _ _ _ Hr)|]. destruct s'; [constructor|].
      cbn in Hn. rewrite lookup_empty in Hn. by destruct Hn.
    - by apply bytes_app in Hb as [? _]. }
  assert (forall l, l <> None -> useful (Some (set_list (default new_trie_mult_node o) s l))) as Huse.
  { intros l Hl s'. rewrite node_in_set_list. intros [Hn|[k ->]].
    - assert (s' = [] \/ is_Some (node_in o s')) as [->|Ho].
      { destruct o as [t|]; [by right|]. left. destruct s'; [done|].
        cbn in Hn. rewrite lookup_empty in Hn. by destruct Hn. }
      + exists s. cbn [app]. by rewrite (proj2 (Hla l)).
      + destruct (tr_useful _ _ _ Hr s' Ho) as [k Hk]. exists k.
        destruct (decide (s' ++ k = s)) as [E|E]; [rewrite E; by rewrite (proj2 (Hla l))|].
        by rewrite (proj1 (Hla l)).
    - exists k. by rewrite (proj2 (Hla l)). }
  destruct (decide (p ∈ M s)) as [Hin|Hout].
  - rewrite (insert_tail_unique_in h _ (M s)) by done. cbn [mbind outcome_bind mret outcome_ret].
    eexists _, _. split; [done|]. split; [|split; [|by eexists]].
    + eapply (trie_rep_others h h o _ M s (M s) []); [done|by apply Hla|by rewrite (proj2 (Hla _))| |set_solver|..].
      * apply links_changed_refl.
      * intros x s' H1 H2. by apply (tr_disjoint _ _ _ Hr s' s x).
      * apply Huse. intros E. rewrite E in Hs. destruct (M s); [set_solver|]. by destruct Hs.
      * apply Hbk.
    + apply links_changed_refl.
  - destruct (insert_tail_unique_out h (list_at o s) (M s) p Hs Hout Hp)
      as (h' & l' & -> & Hd & Hlc). cbn [mbind outcome_bind mret outcome_ret].
    eexists _, _. split; [done|]. split; [|split; [done|by eexists]].
    assert (forall x s', x ∈ M s ++ [p] -> x ∈ M s' -> s' = s) as Hx.
    { intros x s' [H1|[->|[]%elem_of_nil]%elem_of_cons]%elem_of_app H2;
        [by apply (tr_disjoint _ _ _ Hr s' s x)|by apply Hown]. }
    eapply (trie_rep_others h h' o _ M s _ (M s ++ [p]));
      [done|by apply Hla|by rewrite (proj2 (Hla _))|done|done|done| |apply Hbk].
    apply Huse. intros ->. by destruct (M s), Hd.
Qed.

Lemma set_child_id t b c : t_children t !! b = Some c -> set_child t b (Some c) = t.
Proof. intros Hc. unfold set_child. destruct t as [l cs]. cbn in *. by rewrite insert_id. Qed.

Lemma delete_r_absent h t s junk lp :
  text s -> node_in (Some t) s = None -> delete_r h (Some t) (s ++ 0 :: junk) lp = Ok (h, Some t, false).
Proof.
  intros Hs. revert t. induction Hs as [|b s Hb Hs IH]; intros t Hn; [done|].
  rewrite node_in_cons in Hn. cbn [app delete_r]. destruct (Z.eqb_spec b 0); [done|].
  destruct (t_children t !! b) as [c|] eqn:Hc; [|done]. rewrite IH by done. cbn.
  by rewrite set_child_id.
Qed.

(** The trie without useless nodes along [s]. *)
Lemma rep_del_path h h' t M s xs ys l :
  trie_rep h (Some t) M -> is_Some (node_in (Some t) s) ->
  dll h' l xs -> links_changed h h' ys ->
  (forall x s', x ∈ ys -> x ∈ M s' -> s' = s) -> (forall x s', x ∈ xs -> x ∈ M s' -> s' = s) ->
  trie_rep h' (del_path t s l).1 (upd_at M s xs).
Proof.
  intros Hr Hn Hd Hlc Hys Hxs. pose proof (tr_bytes _ _ _ Hr) as Hk.
  eapply (trie_rep_others h h' (Some t)); try done.
  - intros s' Hne. by rewrite list_at_del_path, decide_False.
  - by rewrite list_at_del_path, decide_True.
  - apply useful_del_path; [apply Hr|done].
  - apply (byte_keys_sub t); [done|]. intros s'. apply node_in_del_path.
Qed.

Lemma delete_rep h o M s junk l1 p l2 :
  trie_rep h o M -> text s -> M s = l1 ++ p :: l2 ->
  exists h' o', trie_m_delete h o (s ++ 0 :: junk) p = Ok (h', o') /\
    trie_rep h' o' (upd_at M s (l1 ++ l2)) /\ links_changed h h' (l1 ++ l2) /\ h' !! p = h !! p.
Proof.
  intros Hr Ht HM. assert (p ∈ M s) as Hp by (rewrite HM; set_solver).
  pose proof (trie_rep_node h o M s p Hr Hp) as Hn. destruct o as [t|]; [|by destruct Hn].
  pose proof (tr_lists _ _ _ Hr s) as Hs. rewrite HM in Hs.
  destruct (remove_ref_ok h _ l1 p l2 Hs) as (h' & l' & Hrm & Hd & Hlc & Hpp).
  unfold trie_m_delete. rewrite delete_r_eq, Hrm by done. cbn [mbind outcome_bind mret outcome_ret].
  eexists _, _. split; [done|]. split; [|done].
  assert (forall x s', x ∈ l1 ++ l2 -> x ∈ M s' -> s' = s) as Hx.
  { intros x s' H1 H2. apply (tr_disjoint _ _ _ Hr s' s x); [done|]. rewrite HM. set_solver. }
  by eapply rep_del_path.
Qed.

Lemma delete_nothing h o M s junk p :
  trie_rep h o M -> text s -> M s = [] ->
  exists o', trie_m_delete h o (s ++ 0 :: junk) p = Ok (h, o') /\ trie_rep h o' (upd_at M s []).
Proof.
  intros Hr Ht HM. unfold trie_m_delete. destruct o as [t|].
  - destruct (node_in (Some t) s) as [n|] eqn:Hn.
    + pose proof (tr_lists _ _ _ Hr s) as Hs. rewrite HM in Hs. apply dll_nil in Hs.
      rewrite delete_r_eq, Hs by (done || by eexists). rewrite remove_ref_empty. cbn.
      eexists. split; [done|]. eapply (rep_del_path h h t M s [] []); [done|by rewrite Hn; eexists|done| |set_solver..].
      apply links_changed_refl.
    + rewrite delete_r_absent by done. exists (Some t). split; [done|].
      eapply (trie_rep_others h h (Some t) _ M s [] []); [done|done| |apply links_changed_refl|set_solver|set_solver|apply Hr|apply Hr].
      rewrite <- HM. apply Hr.
  - exists None. split; [by destruct s|].
    eapply (trie_rep_others h h None _ M s [] []); [done|done|done|apply links_changed_refl|set_solver|set_solver|apply Hr|apply Hr].
Qed.

(** Nothing is kept for an empty store. *)
Lemma rep_empty h o M : trie_rep h o M -> (forall s, M s = []) -> o = None.
Proof.
  intros Hr HM. destruct o as [t|]; [|done]. destruct (tr_useful _ _ _ Hr []) as [s Hs]; [by eexists|].
  exfalso. apply Hs. pose proof (tr_lists _ _ _ Hr ([] ++ s)) as Hl. rewrite HM in Hl. by apply dll_nil in Hl.
Qed.

(** ** Search *)

Section search.
Context {St : Type} (nodes : St -> heap) (fp : option V -> St -> outcome St).

Fixpoint calls (vs : list (option V)) (st : St) : outcome St :=
  match vs with
  | [] => mret st
  | v :: vs => st ← fp v st; calls vs st
  end.

(** What the nodes [xs] point to. *)
Definition payloads h (xs : list L) : list (option V) := (fun x => h !! x ≫= nd_p) <$> xs.

(** In the states of an invariant [I] the callback leaves the nodes alone. *)
Definition keeps_nodes (I : St -> Prop) : Prop :=
  forall v st st', I st -> fp v st = Ok st' -> nodes st' = nodes st /\ I st'.

Context (I : St -> Prop).

Lemma calls_keeps vs st st' : keeps_nodes I -> I st -> calls vs st = Ok st' -> nodes st' = nodes st /\ I st'.
Proof.
  intros Hk. revert st. induction vs as [|v vs IH]; intros st HI Hc; cbn [calls] in Hc; inv_bind; [done|].
  destruct (Hk _ _ _ HI Ha) as [<- HI']. by apply IH.
Qed.

Lemma calls_app vs vs' st : calls (vs ++ vs') st = st ← calls vs st; calls vs' st.
Proof.
  revert st. induction vs as [|v vs IH]; intros st; [done|]. cbn [app calls].
  destruct (fp v st); try done. apply IH.
Qed.

Lemma found_list_loop_ok fuel pp p xs st n :
  keeps_nodes I -> I st -> dseg (nodes st) pp p xs None -> (length xs <= fuel)%nat ->
  int_min <= n -> n + zlen xs <= int_max ->
  found_list_loop nodes fp fuel p st n
  = st' ← calls (payloads (nodes st) xs) st; mret (st', n + zlen xs).
Proof.
  intros Hk. revert fuel pp p st n. induction xs as [|x xs IH]; intros fuel pp p st n HI Hd Hf Hn Hm.
  - cbn in Hd. subst p. cbn. rewrite Z.add_0_r. by destruct fuel.
  - destruct Hd as (-> & nd & Hnd & _ & Hs). destruct fuel as [|fuel]; cbn in Hf; [lia|].
    rewrite zlen_cons in *. pose proof (zlen_nonneg xs). cbn [found_list_loop].
    rewrite int_chk_ok by (unfold int_min, int_max in *; lia). cbn [mbind outcome_bind].
    rewrite (node_get_ok _ _ nd) by done. cbn [mbind outcome_bind]. unfold payloads. rewrite fmap_cons. cbn [calls]. cbn beta. rewrite ?Hnd. cbn [mbind option_bind outcome_bind].
    destruct (fp (nd_p nd) st) as [st1| | |] eqn:Hfp; try done. cbn [mbind outcome_bind].
    destruct (Hk _ _ _ HI Hfp) as [Hn1 HI1]. rewrite (node_get_ok _ _ nd) by (by rewrite Hn1). cbn [mbind outcome_bind].
    rewrite (IH fuel (Some x)) by (rewrite ?Hn1; done || lia). rewrite Hn1.
    unfold payloads. destruct (calls _ _) as [st2| | |]; try done. cbn. do 2 f_equal. lia.
Qed.

Lemma visit_ok o M fs st n :
  keeps_nodes I -> I st -> (forall s, dll (nodes st) (list_at o s) (M s)) ->
  0 <= n -> n + zlen (concat (M <$> fs)) <= int_max ->
  visit nodes fp o fs st n
  = st' ← calls (payloads (nodes st) (concat (M <$> fs))) st; mret (st', n + zlen (concat (M <$> fs))).
Proof.
  intros Hk. revert st n. induction fs as [|f fs IH]; intros st n HI HM Hn Hm.
  - cbn. by rewrite Z.add_0_r.
  - rewrite fmap_cons in *. cbn [concat visit] in *. rewrite zlen_app in *.
    pose proof (zlen_nonneg (M f)). pose proof (zlen_nonneg (concat (M <$> fs))).
    unfold found_list. rewrite (found_list_loop_ok _ None _ (M f));
      [|done|done|apply HM|by eapply dll_size|unfold int_min; lia|lia].
    unfold payloads. rewrite fmap_app, calls_app, !bind_assoc. fold (payloads (nodes st) (M f)).
    destruct (calls _ _) as [st1| | |] eqn:Hc; try done. cbn [mbind outcome_bind mret outcome_ret].
    destruct (calls_keeps _ _ _ Hk HI Hc) as [Hn1 HI1].
    rewrite IH by (rewrite ?Hn1; done || lia). rewrite Hn1. unfold payloads.
    destruct (calls _ st1); try done. cbn. do 2 f_equal. lia.
Qed.

Lemma search_rep o M s junk st :
  keeps_nodes I -> I st -> trie_rep (nodes st) o M -> text s ->
  zlen (concat (M <$> filters_for s)) <= int_max ->
  trie_m_search_mqtt nodes fp o (s ++ 0 :: junk) st
  = st' ← calls (payloads (nodes st) (concat (M <$> filters_for s))) st;
    mret (st', zlen (concat (M <$> filters_for s))).
Proof.
  intros Hk HI Hr Ht Hm. rewrite search_ok, (visit_ok o M) by (done || apply Hr || lia). done.
Qed.
End search.
End store.

(** ** Theorems *)

(** C20.  Insertion refines the map: adding a subscription under a filter
    puts it at the end of the list of that filter, or leaves the list as it is
    when it is there already; the lists of all other filters, and every node
    that is not on the list, are unchanged, and the trie still has no useless
    node. *)
Theorem trie_insert_correct {L V} `{Countable L} (h : gmap L (dllist_node_st L V)) o M s junk p :
  trie_rep h o M -> text s -> bytes s -> is_Some (h !! p) ->
  (forall s', p ∈ M s' -> s' = s) ->
  exists h' o', trie_m_insert h o (s ++ 0 :: junk) p = Ok (h', o') /\
    trie_rep h' o' (upd_at M s (if decide (p ∈ M s) then M s else M s ++ [p])) /\
    links_changed h h' (M s ++ [p]) /\ is_Some o'.
Proof. apply insert_rep. Qed.

(** C21.  Deletion refines the map: a subscription on the list of its filter
    is taken off that list, deleting under a filter without subscriptions
    changes nothing, and in both cases exactly the nodes of the trie that no
    longer lead to a subscription are freed: when none is left the trie is
    empty. *)
Theorem trie_delete_correct {L V} `{Countable L} (h : gmap L (dllist_node_st L V)) o M s junk l1 p l2 :
  trie_rep h o M -> text s -> M s = l1 ++ p :: l2 \/ M s = [] /\ l1 ++ l2 = [] ->
  exists h' o', trie_m_delete h o (s ++ 0 :: junk) p = Ok (h', o') /\
    trie_rep h' o' (upd_at M s (l1 ++ l2)) /\ links_changed h h' (l1 ++ l2) /\ h' !! p = h !! p /\
    ((forall s', upd_at M s (l1 ++ l2) s' = []) -> o' = None).
Proof.
  intros Hr Ht [HM|[HM ->]].
  - destruct (delete_rep h o M s junk l1 p l2 Hr Ht HM) as (h' & o' & Hd & Hr' & Hlc & Hp).
    exists h', o'. repeat (split; [done|]). by apply (rep_empty h').
  - destruct (delete_nothing h o M s junk p Hr Ht HM) as (o' & Hd & Hr').
    exists h, o'. split; [done|]. split; [done|]. split; [apply links_changed_refl|]. split; [done|].
    by apply (rep_empty h).
Qed.

(** C10.  The search finds what is stored: provided the callback, in the
    states of an invariant [I], leaves the lists alone, [trie_m_search_mqtt] calls it once for every subscription on
    the lists of the filters looked up for the topic, in order, and counts
    them. *)
Theorem trie_search_correct {L V} `{Countable L} {St} (nodes : St -> gmap L (dllist_node_st L V)) fp I o M s junk st :
  keeps_nodes nodes fp I -> I st -> trie_rep (nodes st) o M -> text s ->
  zlen (concat (M <$> filters_for s)) <= int_max ->
  trie_m_search_mqtt nodes fp o (s ++ 0 :: junk) st
  = st' ← calls fp (payloads (nodes st) (concat (M <$> filters_for s))) st;
    mret (st', zlen (concat (M <$> filters_for s))).
Proof. apply search_rep. Qed.

(** *** The filters looked up *)

Lemma patterns_slash_free tl p :
  Forall slash_free tl -> p ∈ patterns tl -> Forall slash_free p.
Proof.
  intros Ht. revert p. induction Ht as [|t tl Hs Ht IH]; intros p; cbn [patterns].
  - rewrite list_elem_of_singleton. by intros ->.
  - rewrite elem_of_app, list_elem_of_fmap. case_bool_decide.
    + intros [[]%elem_of_nil|(y & -> & Hy)]. constructor; [done|by apply IH].
    + rewrite elem_of_cons, list_elem_of_fmap. intros [[->|(y & -> & Hy)]|(y & -> & Hy)].
      * by repeat constructor.
      * constructor; [by repeat constructor|by apply IH].
      * constructor; [done|by apply IH].
Qed.

Lemma filter_wf_slash_free fl : filter_wf fl -> fl <> [] /\ Forall slash_free fl.
Proof.
  assert (forall l, literal l \/ l = [c_plus] \/ l = [c_hash] -> slash_free l) as Hl.
  { intros l [Hl|[-> | ->]]; [|by repeat constructor..].
    eapply Forall_impl; [exact Hl|]. by intros c (_ & ? & _). }
  induction fl as [|f fl IH]; [done|]. intros Hf. split; [done|].
  destruct fl as [|f' fl]; [constructor; [by apply Hl|done]|].
  destruct Hf as [H1 H2]. constructor; [apply Hl; naive_solver|by apply IH].
Qed.

Lemma join_in_patterns fl tl :
  Forall slash_free tl -> tl <> [] -> filter_wf fl ->
  join fl ∈ join <$> patterns tl <-> fl ∈ patterns tl.
Proof.
  intros Ht Hne Hf. rewrite list_elem_of_fmap. split; [|by eauto].
  intros (p & Hj & Hp). destruct (filter_wf_slash_free fl Hf) as [Hfn Hfs].
  assert (fl = p) as ->; [|done].
  rewrite <- (levels_join fl), <- (levels_join p), Hj; try done.
  - by apply (patterns_nonempty tl).
  - by apply (patterns_slash_free tl).
Qed.

(** The first level of the filter is not a wildcard. *)
Definition first_literal (fl : list (list Z)) : Prop :=
  match fl with f :: _ => f <> lvl_plus /\ f <> lvl_hash | [] => False end.

Lemma filters_for_plain s fl :
  match s with 36 :: _ => False | _ => True end -> topic_levels (levels s) -> filter_wf fl ->
  join fl ∈ filters_for s <-> trie_match fl (levels s) = true.
Proof.
  intros Hs Ht Hf.
  assert (filters_for s = join <$> patterns (levels s)) as ->.
  { destruct s as [|c s]; [done|]. unfold filters_for. destruct (Z.eqb_spec c 36) as [->|]; done. }
  rewrite join_in_patterns by (done || apply levels_slash_free || apply levels_nonempty).
  by apply patterns_trie_match.
Qed.

Lemma filter_wf_cons f fl :
  filter_wf (f :: fl) <->
  (literal f \/ f = lvl_plus \/ f = lvl_hash /\ fl = []) /\ (fl = [] \/ filter_wf fl).
Proof. destruct fl as [|f' fl]; cbn [filter_wf]; unfold lvl_plus, lvl_hash; naive_solver. Qed.

Lemma levels_dollar s :
  levels (36 :: s) = match levels s with l :: ls => (36 :: l) :: ls | [] => [[36]] end.
Proof. done. Qed.

Lemma join_first f fl : join (f :: fl) = f ++ join ([] :: fl).
Proof. destruct fl; [by rewrite app_nil_r|done]. Qed.

Lemma literal_dollar f : literal (36 :: f) <-> literal f.
Proof. unfold literal. rewrite Forall_cons. unfold c_slash, c_plus, c_hash. naive_solver lia. Qed.

Lemma trie_match_literal f fl t tl :
  literal f -> trie_match (f :: fl) (t :: tl) = bool_decide (f = t) && trie_match fl tl.
Proof. intros Hf. destruct (literal_neq f Hf). cbn [trie_match]. by rewrite !decide_False. Qed.

Lemma filters_for_dollar s fl :
  topic_levels (levels (36 :: s)) -> filter_wf fl ->
  join fl ∈ filters_for (36 :: s) <-> trie_match fl (levels (36 :: s)) = true /\ first_literal fl.
Proof.
  intros Ht Hf. rewrite levels_dollar in *. unfold filters_for. change (36 =? 36) with true. cbv iota.
  pose proof (levels_nonempty s) as Hne. pose proof (levels_slash_free s) as Hsf.
  destruct (levels s) as [|l ls]; [done|].
  apply Forall_cons in Ht as [Hl Hls]. apply (proj1 (literal_dollar _)) in Hl.
  destruct (filter_wf_slash_free fl Hf) as [Hfn Hfs].
  assert (topic_levels (l :: ls)) as Ht by (by constructor).
  split.
  - intros (x & Hx & (p & -> & Hp)%list_elem_of_fmap)%list_elem_of_fmap.
    destruct p as [|pf p]; [by apply patterns_nonempty in Hp|].
    assert (join ((36 :: pf) :: p) = 36 :: join (pf :: p)) as Hjp by (by destruct p).
    rewrite <- Hjp in Hx. pose proof (patterns_slash_free _ _ Hsf Hp) as Hps.
    apply Forall_cons in Hps as [Hpf Hps].
    assert (fl = (36 :: pf) :: p) as ->.
    { rewrite <- (levels_join fl), Hx, levels_join; try done. constructor; [by constructor|done]. }
    apply filter_wf_cons in Hf as [[Hlit|[|[]]] Hwf]; try done.
    apply patterns_trie_match in Hp; [|apply filter_wf_cons; split; [left; by apply literal_dollar|done]|done].
    rewrite trie_match_literal in * by (done || by apply literal_dollar).
    apply andb_true_iff in Hp as [->%bool_decide_eq_true Hp]. rewrite bool_decide_eq_true_2 by done.
    split; [done|]. by split.
  - destruct fl as [|f fl]; [done|]. intros [Hm [Hp Hh]].
    apply filter_wf_cons in Hf as [[Hlit|[|[]]] Hwf]; try done.
    rewrite trie_match_literal in Hm by done.
    apply andb_true_iff in Hm as [->%bool_decide_eq_true Hm].
    apply list_elem_of_fmap. exists (join (l :: fl)). split; [by destruct fl|].
    apply list_elem_of_fmap. exists (l :: fl). split; [done|].
    apply patterns_trie_match; [apply filter_wf_cons; by split; [left|]|done|].
    rewrite trie_match_literal by done. by rewrite bool_decide_eq_true_2.
Qed.

Lemma filters_for_NoDup s : topic_levels (levels s) -> NoDup (filters_for s).
Proof.
  assert (forall s, topic_levels (levels s) -> NoDup (join <$> patterns (levels s))) as Hnd.
  { clear. intros s Ht. apply NoDup_fmap_2_strong; [|by apply patterns_NoDup].
    intros x y Hx Hy Hj. pose proof (levels_slash_free s). pose proof (levels_nonempty s).
    rewrite <- (levels_join x), <- (levels_join y), Hj; try done;
      (by eapply patterns_nonempty) || by eapply patterns_slash_free. }
  intros Ht. destruct s as [|c s]; [by apply Hnd|]. unfold filters_for.
  destruct (Z.eqb_spec c 36) as [->|]; [|by apply Hnd].
  apply NoDup_fmap_2; [intros ???; congruence|]. apply Hnd.
  rewrite levels_dollar in Ht. pose proof (levels_nonempty s). destruct (levels s) as [|l ls]; [done|].
  apply Forall_cons in Ht as [Hl Hls]. constructor; [by apply literal_dollar|done].
Qed.

(**  The filters looked up for a topic without wildcard characters are
    exactly the well-formed filters that match it level by level, each of
    them once; the first level of a topic that starts with '$' is matched
    only by a filter that spells it out.  '+' and '#' accept an empty level,
    except as the last level of the topic. *)
Theorem filters_for_match s fl :
  topic_levels (levels s) -> filter_wf fl ->
  (join fl ∈ filters_for s <->
   trie_match fl (levels s) = true /\ (head s = Some 36 -> first_literal fl)) /\
  NoDup (filters_for s).
Proof.
  intros Ht Hf. split; [|by apply filters_for_NoDup].
  destruct (decide (head s = Some 36)) as [Hs|Hs].
  - destruct s as [|c s]; [done|]. cbn in Hs. simplify_eq. rewrite filters_for_dollar by done. naive_solver.
  - rewrite filters_for_plain; [naive_solver| |done|done]. destruct s as [|c s]; [done|].
    cbn in Hs. repeat case_match; try done; congruence.
Qed.

(** C29.  The two matchers of the broker agree: for a topic that does not
    start with '$', without wildcard characters and without empty levels, the
    trie search looks up a well-formed filter if and only if
    [mqtt_topic_matches], which the access control uses, accepts it.  They
    differ on empty levels: for the topic "a//b" and the filter "a/+/b" the
    search finds the subscription and [mqtt_topic_matches] returns 0. *)
Theorem matchers_agree s fl fjunk sjunk :
  topic_levels (levels s) -> Forall (fun l => l <> []) (levels s) -> head s <> Some 36 ->
  filter_wf fl ->
  (join fl ∈ filters_for s <->
   mqtt_topic_matches (join fl ++ 0 :: fjunk) (s ++ 0 :: sjunk) (zlen s) = Ok 1) /\
  join [[97]; [43]; [98]] ∈ filters_for [97; 47; 47; 98] /\
  mqtt_topic_matches (join [[97]; [43]; [98]] ++ [0]) ([97; 47; 47; 98] ++ [0]) 4 = Ok 0.
Proof.
  intros Ht Hne Hs Hf. split; [|split; [|reflexivity]].
  - assert (match s with 36 :: _ => False | _ => True end) as Hs'.
    { destruct s as [|c s]; [done|]. cbn in Hs. repeat case_match; try done; congruence. }
    rewrite filters_for_plain, trie_match_levels by done.
    rewrite mqtt_topic_matches_strip, <- (join_levels (strip_local s)), match_loop_levels
      by auto using levels_nonempty, levels_slash_free.
    assert (strip_local s = s) as ->.
    { unfold strip_local. rewrite decide_False; [done|]. intros [k Hk]. destruct s as [|c s]; [done|].
      cbn in Hs, Hk. congruence. }
    cbn [mbind outcome_bind mret outcome_ret]. by destruct (levels_match _ _ _).
  - apply (bool_decide_unpack _). by vm_compute.
Qed.

(** *** Instances *)

Definition example_nodes : gmap Z (dllist_node_st Z Z) :=
  <[1 := mk_dllist_node (Some 11) None None]> (<[2 := mk_dllist_node (Some 12) None None]> ∅).

Lemma trie_rep_empty {L V} `{Countable L} (h : gmap L (dllist_node_st L V)) :
  trie_rep h None (fun _ => []).
Proof. split; [done|set_solver|intros s [? Hs]; done|intros s [? Hs]; done]. Qed.

Lemma trie_insert_correct_witness :
  exists h' o', trie_m_insert example_nodes None ([97] ++ 0 :: [5]) 1 = Ok (h', o') /\
    trie_rep h' o' (upd_at (fun _ => []) [97] (if decide (1 ∈ @nil Z) then [] else [] ++ [1])) /\
    links_changed example_nodes h' ([] ++ [1]) /\ is_Some o'.
Proof.
  apply (trie_insert_correct example_nodes None (fun _ => []) [97] [5] 1).
  - apply trie_rep_empty.
  - by repeat constructor.
  - repeat constructor; lia.
  - eexists. reflexivity.
  - intros s' Hs'. by apply elem_of_nil in Hs'.
Defined.

Lemma trie_delete_correct_witness :
  exists (h : gmap Z (dllist_node_st Z Z)) o M h' o', trie_rep h o M /\
    trie_m_delete h o ([97] ++ 0 :: [5]) 1 = Ok (h', o') /\ o' = None.
Proof.
  destruct (insert_rep example_nodes None (fun _ => []) [97] [5] 1)
    as (h & o & Hi & Hr & Hlc & Ho).
  { apply trie_rep_empty. }
  { by repeat constructor. }
  { repeat constructor; lia. }
  { by eexists. }
  { set_solver. }
  rewrite decide_False in Hr by set_solver.
  destruct (trie_delete_correct h o _ [97] [5] [] 1 [] Hr) as (h' & o' & Hd & Hr' & _ & _ & Hn).
  { by repeat constructor. }
  { left. reflexivity. }
  exists h, o, (upd_at (fun _ => []) [97] ([] ++ [1])), h', o'. split; [done|]. split; [done|].
  apply Hn. intros s'. unfold upd_at. by destruct (decide (s' = [97])).
Defined.

(** A callback that records what it is called with. *)
Definition record_call (v : option Z) (st : gmap Z (dllist_node_st Z Z) * list (option Z))
  : outcome (gmap Z (dllist_node_st Z Z) * list (option Z)) := Ok (st.1, st.2 ++ [v]).

Lemma trie_search_correct_witness :
  exists h o, trie_m_search_mqtt fst record_call o ([97] ++ 0 :: []) (h, []) = Ok ((h, [Some 11]), 1).
Proof.
  destruct (insert_rep example_nodes None (fun _ => []) [97] [5] 1)
    as (h & o & Hi & Hr & Hlc & Ho).
  { apply trie_rep_empty. }
  { by repeat constructor. }
  { repeat constructor; lia. }
  { by eexists. }
  { set_solver. }
  rewrite decide_False in Hr by set_solver. exists h, o.
  rewrite (trie_search_correct fst record_call (fun _ => True) o (upd_at (fun _ => []) [97] ([] ++ [1])) [97] [] (h, [])).
  - assert ((h !! 1) ≫= nd_p = Some 11) as E.
    { pose proof (lc_payload _ _ _ Hlc 1) as Hp. destruct (h !! 1) as [n|]; [|discriminate Hp].
      by injection Hp as Hp. }
    change (concat _) with [1]. unfold payloads. cbn [fst fmap list_fmap calls]. rewrite E. reflexivity.
  - by intros v st st' _ [= <-].
  - done.
  - exact Hr.
  - by repeat constructor.
  - vm_compute. congruence.
Defined.

Lemma literal_97 : literal [97].
Proof. by repeat constructor. Qed.

Lemma filters_for_match_witness :
  (join [[97]; [43]] ∈ filters_for [97; 47; 97] <->
   trie_match [[97]; [43]] (levels [97; 47; 97]) = true /\
   (head [97; 47; 97] = Some 36 -> first_literal [[97]; [43]])) /\
  NoDup (filters_for [97; 47; 97]).
Proof.
  apply (filters_for_match [97; 47; 97] [[97]; [43]]).
  - repeat constructor; apply literal_97 || discriminate.
  - split; [left; apply literal_97|right; left; reflexivity].
Defined.

Lemma matchers_agree_witness :
  (join [[97]; [43]] ∈ filters_for [97; 47; 97] <->
   mqtt_topic_matches (join [[97]; [43]] ++ 0 :: []) ([97; 47; 97] ++ 0 :: []) (zlen [97; 47; 97]) = Ok 1) /\
  join [[97]; [43]; [98]] ∈ filters_for [97; 47; 47; 98] /\
  mqtt_topic_matches (join [[97]; [43]; [98]] ++ [0]) ([97; 47; 47; 98] ++ [0]) 4 = Ok 0.
Proof.
  apply (matchers_agree [97; 47; 97] [[97]; [43]] [] []).
  - repeat constructor; apply literal_97 || discriminate.
  - by repeat constructor.
  - discriminate.
  - split; [left; apply literal_97|right; left; reflexivity].
Defined.
