(* ===== verification/Subscription.v ===== *)
(** * Subscriptions (src/subscription.c, src/subscription.h)

    The subscriptions of all clients of a worker, in one trie; the prefix
    "$local/" of a filter is ignored.  The main theorem says to which
    subscriptions a message goes. *)

From S2P Require Import Prelude DList MqttPacket Trie TrieSearch TrieStore ClientTypes.

Abbreviation node_heap := (gmap node_addr (dllist_node_st node_addr node_obj)).
Abbreviation sub_trie := (trie_mult_node_st node_addr).

(** [psub->sub_node.p = psub] *)
Definition set_p (h : node_heap) (l : node_addr) (v : node_obj) : outcome node_heap :=
  n ← node_get h l; mret (<[l := n <| nd_p := Some v |>]> h).

(** The filter without "$local/". *)
Definition used_filter (filter : list Z) : outcome (list Z) :=
  local ← strncmp_eq filter local_prefix;
  mret (if (local : bool) then drop 7 filter else filter).

(** The subscription number [i] of the client [c], whose filter is [filter]. *)
Definition sub_insert (h : node_heap) (phead : option sub_trie) (c i : Z) (filter : option (list Z))
  : outcome (node_heap * option sub_trie) :=
  match filter with
  | None => Undef NullDeref
  | Some filter =>
      filter ← used_filter filter;
      h ← set_p h (SubNode c i) (PSub c i);
      trie_m_insert h phead filter (SubNode c i)
  end.

Definition sub_remove (h : node_heap) (phead : option sub_trie) (c i : Z) (filter : option (list Z))
  : outcome (node_heap * option sub_trie) :=
  match filter with
  | None => Undef NullDeref
  | Some filter =>
      filter ← used_filter filter;
      trie_m_delete h phead filter (SubNode c i)
  end.

Section search.
Context {St : Type} (nodes : St -> node_heap) (fp : Z * Z -> message_st -> St -> outcome St).

(** [callback]: the item is the subscription. *)
Definition sub_callback (mp : message_st) (item : option node_obj) (st : St) : outcome St :=
  match item with
  | Some (PSub c i) => fp (c, i) mp st
  | _ => Undef NullDeref
  end.

Definition sub_search (phead : option sub_trie) (mp : message_st) (st : St) : outcome (St * Z) :=
  trie_m_search_mqtt nodes (sub_callback mp) phead (m_topic mp) st.
End search.

(** ** The store of subscriptions *)

Definition sub_key : Type := Z * Z.

(** [M s] are the subscriptions under the filter [s], "$local/" removed; the
    nodes of the heap lead back to their subscriptions. *)
Record subs_rep (h : node_heap) (o : option sub_trie) (M : list Z -> list sub_key) : Prop := {
  sr_trie : trie_rep h o (fun s => uncurry SubNode <$> M s);
  sr_items s k : k ∈ M s -> (h !! uncurry SubNode k) ≫= nd_p = Some (uncurry PSub k)
}.

Global Instance SubNode_inj : Inj (=) (=) (uncurry SubNode).
Proof. intros [] []; cbn; congruence. Qed.

Lemma used_filter_ok s junk :
  used_filter (s ++ 0 :: junk) = Ok (strip_local s ++ 0 :: junk).
Proof.
  unfold used_filter, strip_local. rewrite strncmp_eq_spec by apply local_prefix_nonzero.
  cbn [mbind outcome_bind mret outcome_ret].
  destruct (decide (local_prefix `prefix_of` s)) as [[k ->]|Hn].
  - rewrite bool_decide_eq_true_2 by (by eexists). by rewrite <- app_assoc.
  - by rewrite bool_decide_eq_false_2.
Qed.

Lemma text_strip s : text s -> text (strip_local s).
Proof. unfold strip_local. case_decide; [apply Forall_drop|done]. Qed.

Lemma bytes_strip s : bytes s -> bytes (strip_local s).
Proof. unfold strip_local. case_decide; [apply Forall_drop|done]. Qed.

Lemma trie_rep_ext {L V} `{Countable L} (h : gmap L (dllist_node_st L V)) o M M' :
  (forall s, M s = M' s) -> trie_rep h o M -> trie_rep h o M'.
Proof.
  intros HM [H1 H2 H3 H4]. split; [|intros s s' x; rewrite <- !HM; apply H2|done|done].
  intros s. rewrite <- HM. apply H1.
Qed.

(** Changing what a node leads to changes no link. *)
Lemma dll_set_p (h : node_heap) l n v head xs :
  h !! l = Some n -> dll h head xs -> dll (<[l := n <| nd_p := v |>]> h) head xs.
Proof.
  intros Hl. unfold dll. generalize (@None node_addr) at 1 3. intros pp Hd. revert pp head Hd.
  induction xs as [|x xs IH]; intros pp head; [done|]. intros (-> & m & Hm & Hp & Hs). split; [done|].
  destruct (decide (x = l)) as [->|Hne].
  - eexists. rewrite lookup_insert_eq. split; [done|]. simplify_eq. split; [done|]. by apply IH.
  - exists m. rewrite lookup_insert_ne by done. split; [done|]. split; [done|]. by apply IH.
Qed.

Lemma trie_rep_set_p (h : node_heap) o M l n v :
  h !! l = Some n -> trie_rep h o M -> trie_rep (<[l := n <| nd_p := v |>]> h) o M.
Proof.
  intros Hl Hr. split; try apply Hr. intros s. apply dll_set_p; [done|]. apply Hr.
Qed.

Definition upd_subs (M : list Z -> list sub_key) s xs : list Z -> list sub_key :=
  fun s' => if decide (s' = s) then xs else M s'.

Lemma upd_subs_at M s xs s' :
  upd_at (fun s => uncurry SubNode <$> M s) s (uncurry SubNode <$> xs) s'
  = uncurry SubNode <$> upd_subs M s xs s'.
Proof. unfold upd_at, upd_subs. by destruct (decide (s' = s)). Qed.

Lemma sub_insert_rep h o M c i s junk :
  subs_rep h o M -> text s -> bytes s -> is_Some (h !! SubNode c i) ->
  (forall s', (c, i) ∉ M s') ->
  exists h' o', sub_insert h o c i (Some (s ++ 0 :: junk)) = Ok (h', o') /\
    subs_rep h' o' (upd_subs M (strip_local s) (M (strip_local s) ++ [(c, i)])) /\
    (forall l, is_Some (h' !! l) <-> is_Some (h !! l)).
Proof.
  intros [Hr Hi] Ht Hb [n Hn] Hfresh. unfold sub_insert. rewrite used_filter_ok.
  cbn [mbind outcome_bind]. unfold set_p, node_get. rewrite Hn. cbn [mbind outcome_bind mret outcome_ret].
  set (h1 := <[SubNode c i := n <| nd_p := Some (PSub c i) |>]> h).
  assert (trie_rep h1 o (fun s => uncurry SubNode <$> M s)) as Hr1 by (by apply trie_rep_set_p).
  assert (forall s', SubNode c i ∉ uncurry SubNode <$> M s') as Hf.
  { intros s' ([c' i'] & [= -> ->] & Hk)%list_elem_of_fmap. by apply (Hfresh s'). }
  destruct (insert_rep h1 o _ (strip_local s) junk (SubNode c i) Hr1) as (h' & o' & Hins & Hr' & Hlc & _).
  { by apply text_strip. }
  { by apply bytes_strip. }
  { unfold h1. rewrite lookup_insert_eq. by eexists. }
  { intros s' Hs'. by destruct (Hf s'). }
  rewrite Hins. exists h', o'. split; [done|]. rewrite decide_False in Hr' by apply Hf.
  assert (forall l, (h' !! l) ≫= nd_p = (h1 !! l) ≫= nd_p) as Hp.
  { intros l. pose proof (lc_payload _ _ _ Hlc l) as Hp.
    destruct (h' !! l), (h1 !! l); cbn in *; congruence. }
  split; [split|].
  - eapply trie_rep_ext; [|exact Hr']. intros s'. rewrite <- upd_subs_at. by rewrite fmap_app.
  - intros s' k Hk. rewrite Hp. unfold h1. unfold upd_subs in Hk.
    destruct (decide (k = (c, i))) as [->|Hne].
    + cbn. by rewrite lookup_insert_eq.
    + rewrite lookup_insert_ne.
      * apply (Hi s'). destruct (decide (s' = strip_local s)) as [->|]; [|done].
        apply elem_of_app in Hk as [?|[?|[]%elem_of_nil]%elem_of_cons]; done.
      * destruct k as [c' i']. cbn. congruence.
  - intros l. rewrite (links_changed_is_Some _ _ _ _ Hlc). unfold h1.
    destruct (decide (l = SubNode c i)) as [->|]; [rewrite lookup_insert_eq|by rewrite lookup_insert_ne].
    rewrite Hn. split; by eexists.
Qed.

Lemma sub_remove_rep h o M c i s junk l1 l2 :
  subs_rep h o M -> text s -> M (strip_local s) = l1 ++ (c, i) :: l2 ->
  exists h' o', sub_remove h o c i (Some (s ++ 0 :: junk)) = Ok (h', o') /\
    subs_rep h' o' (upd_subs M (strip_local s) (l1 ++ l2)) /\ h' !! SubNode c i = h !! SubNode c i /\
    links_changed h h' (uncurry SubNode <$> l1 ++ l2).
Proof.
  intros [Hr Hi] Ht HM. unfold sub_remove. rewrite used_filter_ok. cbn [mbind outcome_bind].
  destruct (delete_rep h o _ (strip_local s) junk (uncurry SubNode <$> l1) (SubNode c i)
    (uncurry SubNode <$> l2) Hr) as (h' & o' & Hd & Hr' & Hlc & Hp).
  { by apply text_strip. }
  { by rewrite HM, fmap_app, fmap_cons. }
  exists h', o'. split; [done|]. rewrite <- fmap_app in *. split; [split|split; [done|]].
  - eapply trie_rep_ext; [|exact Hr']. intros s'. apply upd_subs_at.
  - intros s' k Hk. assert ((h' !! uncurry SubNode k) ≫= nd_p = (h !! uncurry SubNode k) ≫= nd_p) as ->.
    { pose proof (lc_payload _ _ _ Hlc (uncurry SubNode k)) as Hq.
      destruct (h' !! uncurry SubNode k), (h !! uncurry SubNode k); cbn in *; congruence. }
    apply (Hi s'). unfold upd_subs in Hk. destruct (decide (s' = strip_local s)) as [->|]; [|done].
    rewrite HM. set_solver.
  - done.
Qed.

(** ** Where a message goes *)

(** The subscriptions called for the topic [s]. *)
Definition found_subs (M : list Z -> list sub_key) (s : list Z) : list sub_key :=
  concat (M <$> filters_for s).

Section deliver.
Context {St : Type} (nodes : St -> node_heap) (fp : sub_key -> message_st -> St -> outcome St).

Fixpoint deliver_all (mp : message_st) (ks : list sub_key) (st : St) : outcome St :=
  match ks with
  | [] => mret st
  | k :: ks => st ← fp k mp st; deliver_all mp ks st
  end.

Lemma calls_deliver mp ks st :
  calls (sub_callback fp mp) ((fun k => Some (uncurry PSub k)) <$> ks) st = deliver_all mp ks st.
Proof.
  revert st. induction ks as [|[c i] ks IH]; intros st; [done|]. cbn.
  destruct (fp (c, i) mp st); try done. apply IH.
Qed.

Lemma sub_search_ok I o M mp s junk st :
  (forall k st st', I st -> fp k mp st = Ok st' -> nodes st' = nodes st /\ I st') -> I st ->
  subs_rep (nodes st) o M -> m_topic mp = s ++ 0 :: junk -> text s ->
  zlen (found_subs M s) <= int_max ->
  sub_search nodes fp o mp st
  = st' ← deliver_all mp (found_subs M s) st; mret (st', zlen (found_subs M s)).
Proof.
  intros Hk HI [Hr Hi] Htop Ht Hm. unfold sub_search. rewrite Htop.
  assert (forall fs, concat ((fun s => uncurry SubNode <$> M s) <$> fs)
    = uncurry SubNode <$> concat (M <$> fs)) as Hc.
  { induction fs as [|f fs IH]; [done|]. rewrite !fmap_cons. cbn [concat]. by rewrite fmap_app, IH. }
  assert (keeps_nodes nodes (sub_callback fp mp) I) as Hkeep.
  { intros v st1 st2. unfold sub_callback. destruct v as [[|c i]|]; try done. apply Hk. }
  rewrite (search_rep nodes (sub_callback fp mp) I o _ s junk st Hkeep HI Hr Ht).
  - rewrite Hc. unfold zlen at 1. rewrite length_fmap. fold (found_subs M s).
    assert (payloads (nodes st) (uncurry SubNode <$> found_subs M s)
      = (fun k => Some (uncurry PSub k)) <$> found_subs M s) as ->; [|by rewrite calls_deliver].
    unfold payloads. rewrite <- list_fmap_compose. apply list_fmap_ext. intros j k Hj. cbn.
    apply list_elem_of_lookup_2, list_elem_of_In, in_concat in Hj as (xs & Hxs & Hk').
    apply list_elem_of_In, list_elem_of_fmap in Hxs as (f & -> & _). apply (Hi f). by apply list_elem_of_In.
  - rewrite Hc. unfold zlen in *. by rewrite length_fmap.
Qed.
End deliver.

Lemma concat_NoDup {A B} (M : A -> list B) (fs : list A) :
  NoDup fs -> (forall f, NoDup (M f)) -> (forall f f' x, x ∈ M f -> x ∈ M f' -> f = f') ->
  NoDup (concat (M <$> fs)).
Proof.
  intros Hfs HM Hd. induction Hfs as [|f fs Hf Hfs IH]; [constructor|]. rewrite fmap_cons. cbn [concat].
  apply NoDup_app. split; [done|]. split; [|done]. intros x Hx Hc.
  apply list_elem_of_In, in_concat in Hc as (xs & Hxs & Hx').
  apply list_elem_of_In, list_elem_of_fmap in Hxs as (f' & -> & Hf').
  apply list_elem_of_In in Hx'. by rewrite (Hd _ _ _ Hx Hx') in Hf.
Qed.

Lemma elem_of_found_subs M s k : k ∈ found_subs M s <-> exists f, f ∈ filters_for s /\ k ∈ M f.
Proof.
  unfold found_subs. rewrite list_elem_of_In, in_concat. split.
  - intros (xs & Hxs & Hk). apply list_elem_of_In, list_elem_of_fmap in Hxs as (f & -> & Hf).
    exists f. split; [done|by apply list_elem_of_In].
  - intros (f & Hf & Hk). exists (M f). rewrite <- list_elem_of_In. split; [|by apply list_elem_of_In].
    apply list_elem_of_fmap. by exists f.
Qed.

Lemma found_subs_NoDup h o M s : subs_rep h o M -> topic_levels (levels s) -> NoDup (found_subs M s).
Proof.
  intros [Htr _] Hl. apply concat_NoDup; [by apply filters_for_NoDup| |].
  - intros f. pose proof (dll_NoDup _ _ _ (tr_lists _ _ _ Htr f)) as Hnd. by apply NoDup_fmap_1 in Hnd.
  - intros f f' x Hx Hx'. apply (tr_disjoint _ _ _ Htr f f' (uncurry SubNode x)); by apply list_elem_of_fmap_2.
Qed.

(**  Subscriptions come and go as their clients ask: inserting a fresh
    subscription with the filter [s] adds it at the end of the list for [s]
    without its "$local/" prefix, removing it takes it off again, whatever
    other subscriptions are there, and every other list, as well as what each
    subscription node leads to, is unchanged. *)
Theorem sub_insert_remove h o M c i s junk junk' :
  subs_rep h o M -> text s -> bytes s -> is_Some (h !! SubNode c i) -> (forall s', (c, i) ∉ M s') ->
  exists h1 o1 h2 o2,
    sub_insert h o c i (Some (s ++ 0 :: junk)) = Ok (h1, o1) /\
    subs_rep h1 o1 (upd_subs M (strip_local s) (M (strip_local s) ++ [(c, i)])) /\
    sub_remove h1 o1 c i (Some (s ++ 0 :: junk')) = Ok (h2, o2) /\ subs_rep h2 o2 M.
Proof.
  intros Hr Ht Hb Hn Hf.
  destruct (sub_insert_rep h o M c i s junk Hr Ht Hb Hn Hf) as (h1 & o1 & Hi & Hr1 & _).
  destruct (sub_remove_rep h1 o1 _ c i s junk' (M (strip_local s)) [] Hr1 Ht) as (h2 & o2 & Hd & Hr2 & _).
  { unfold upd_subs. by rewrite decide_True. }
  exists h1, o1, h2, o2. split; [done|]. split; [done|]. split; [done|].
  destruct Hr2 as [Hr2 Hi2]. rewrite app_nil_r in *.
  assert (forall s', upd_subs (upd_subs M (strip_local s) (M (strip_local s) ++ [(c, i)])) (strip_local s)
    (M (strip_local s)) s' = M s') as He.
  { intros s'. unfold upd_subs. destruct (decide (s' = strip_local s)) as [->|]; done. }
  split.
  - eapply trie_rep_ext; [|exact Hr2]. intros s'. cbn. by rewrite He.
  - intros s' k Hk. apply (Hi2 s'). by rewrite He.
Qed.

(** C22.  A message reaches exactly the matching subscriptions: with a
    callback that, in the states of an invariant [I], leaves the node heap
    alone, [sub_search] calls it once for
    each subscription in [found_subs], in that order, and counts them; a
    subscription stored under a well-formed filter is among them if and only
    if the filter matches the topic. *)
Theorem sub_search_delivers {St} (nodes : St -> node_heap) fp I o M mp s junk st :
  (forall k st st', I st -> fp k mp st = Ok st' -> nodes st' = nodes st /\ I st') -> I st ->
  subs_rep (nodes st) o M -> m_topic mp = s ++ 0 :: junk -> text s -> topic_levels (levels s) ->
  zlen (found_subs M s) <= int_max ->
  sub_search nodes fp o mp st
  = (st' ← deliver_all fp mp (found_subs M s) st; mret (st', zlen (found_subs M s))) /\
  NoDup (found_subs M s) /\
  (forall k fl, filter_wf fl -> k ∈ M (join fl) ->
   k ∈ found_subs M s <->
   trie_match fl (levels s) = true /\ (head s = Some 36 -> first_literal fl)).
Proof.
  intros Hk HI Hr Htop Ht Hl Hm. pose proof Hr as [Htr Hi].
  assert (forall f f' x, x ∈ M f -> x ∈ M f' -> f = f') as Hdis.
  { intros f f' x Hx Hx'. apply (tr_disjoint _ _ _ Htr f f' (uncurry SubNode x)); by apply list_elem_of_fmap_2. }
  split; [by eapply sub_search_ok|]. split.
  - by eapply found_subs_NoDup.
  - intros k fl Hf Hkf. rewrite elem_of_found_subs.
    assert ((exists f, f ∈ filters_for s /\ k ∈ M f) <-> join fl ∈ filters_for s) as ->.
    { split; [|by eauto]. intros (f & Hfs & Hkf'). by rewrite (Hdis _ _ _ Hkf Hkf'). }
    destruct (decide (head s = Some 36)) as [Hs|Hs].
    + destruct s as [|c s]; [done|]. cbn in Hs. simplify_eq. rewrite filters_for_dollar by done. naive_solver.
    + rewrite filters_for_plain; [naive_solver| |done|done]. destruct s as [|c s]; [done|].
      cbn in Hs. repeat case_match; try done; congruence.
Qed.

(** *** Instances *)

Definition example_sub_nodes : node_heap :=
  <[SubNode 5 0 := mk_dllist_node None None None]>
  (<[SubNode 6 0 := mk_dllist_node None None None]> ∅).

Lemma subs_rep_empty h : subs_rep h None (fun _ => []).
Proof.
  split; [apply trie_rep_empty|]. intros s k Hk. by apply elem_of_nil in Hk.
Qed.

Lemma sub_insert_remove_witness :
  exists h1 o1 h2 o2,
    sub_insert example_sub_nodes None 5 0 (Some ([97; 47; 43] ++ 0 :: [])) = Ok (h1, o1) /\
    subs_rep h1 o1 (upd_subs (fun _ => []) (strip_local [97; 47; 43]) ([] ++ [(5, 0)])) /\
    sub_remove h1 o1 5 0 (Some ([97; 47; 43] ++ 0 :: [9])) = Ok (h2, o2) /\ subs_rep h2 o2 (fun _ => []).
Proof.
  apply (sub_insert_remove example_sub_nodes None (fun _ => []) 5 0 [97; 47; 43] [] [9]).
  - apply subs_rep_empty.
  - by repeat constructor.
  - repeat constructor; lia.
  - eexists. reflexivity.
  - intros s'. apply not_elem_of_nil.
Defined.

Definition topic_message (s : list Z) : message_st :=
  {| m_state := M_STATE_IN_USE; m_dup := 0; m_orig_qos := 0; m_retain := 0; m_packet_id := 0;
     m_topic_len := zlen s; m_payload_len := 1; m_topic := s ++ [0]; m_payload := [120; 0];
     m_client := 0; m_not_done := replicate 64 0 |}.

Lemma sub_search_delivers_witness :
  exists h o, sub_search fst (fun k _ st => Ok (st.1, st.2 ++ [k])) o (topic_message [97; 47; 98]) (h, [])
    = Ok ((h, [(5, 0)]), 1).
Proof.
  destruct (sub_insert_rep example_sub_nodes None (fun _ => []) 5 0 [97; 47; 43] [])
    as (h & o & Hi & Hr & _).
  { apply subs_rep_empty. }
  { by repeat constructor. }
  { repeat constructor; lia. }
  { by eexists. }
  { intros s'. apply not_elem_of_nil. }
  exists h, o.
  destruct (sub_search_delivers fst (fun k _ st => Ok (st.1, st.2 ++ [k])) (fun _ => True) o
    (upd_subs (fun _ => []) [97; 47; 43] [(5, 0)]) (topic_message [97; 47; 98]) [97; 47; 98] [] (h, []))
    as (He & _ & _).
  - by intros k st st' _ [= <-].
  - done.
  - exact Hr.
  - reflexivity.
  - by repeat constructor.
  - assert (forall c, 96 < c < 123 -> literal [c]) as Hlit.
    { intros c Hc. repeat constructor; unfold c_slash, c_plus, c_hash; lia. }
    repeat constructor; try (apply Hlit; lia); unfold c_slash, c_plus, c_hash; lia.
  - vm_compute. congruence.
  - exact He.
Defined.
