(* ===== verification/WsParser.v ===== *)
(** * The WebSocket frame parser (src/ws_parser.c, src/ws_parser.h)

    [ws_parser_execute] takes frames apart and hands their payload, unmasked,
    to callbacks.  The parser is part of a client; a callback may release that
    client and then says so, and a later access to the parser is [Undef].
    [ws_frame] is the frame of RFC 6455 for a given payload. *)

From S2P Require Import Prelude.

Definition WS_FRAME_TEXT : Z := 1.
Definition WS_FRAME_BINARY : Z := 2.
Definition WS_FRAME_CLOSE : Z := 8.
Definition WS_FRAME_PING : Z := 9.
Definition WS_FRAME_PONG : Z := 10.

Definition WS_OK : Z := 0.
Definition WS_RESERVED_BITS_SET : Z := -1.
Definition WS_INVALID_OPCODE : Z := -2.
Definition WS_INVALID_CONTINUATION : Z := -3.
Definition WS_CONTROL_TOO_LONG : Z := -4.
Definition WS_NON_CANONICAL_LENGTH : Z := -5.
Definition WS_FRAGMENTED_CONTROL : Z := -6.

Inductive ws_state :=
  | S_OPCODE
  | S_LENGTH
  | S_LENGTH_16_0
  | S_LENGTH_16_1
  | S_LENGTH_64_0
  | S_LENGTH_64_1
  | S_LENGTH_64_2
  | S_LENGTH_64_3
  | S_LENGTH_64_4
  | S_LENGTH_64_5
  | S_LENGTH_64_6
  | S_LENGTH_64_7
  | S_MASK_0
  | S_MASK_1
  | S_MASK_2
  | S_MASK_3
  | S_PAYLOAD.

#[export] Instance ws_state_eq_dec : EqDecision ws_state.
Proof. solve_decision. Defined.

(** [mask_pos] is a two-bit field, [fragment] to [mask_flag] are one bit wide. *)
Record ws_parser_t := mk_ws_parser {
  wp_bytes_remaining : Z;
  wp_mask : list Z;
  wp_fragment : Z;
  wp_fin : Z;
  wp_control : Z;
  wp_mask_flag : Z;
  wp_mask_pos : Z;
  wp_state : ws_state
}.
#[export] Instance eta_ws_parser : Eta ws_parser_t := fun p =>
  mk_ws_parser (wp_bytes_remaining p) (wp_mask p) (wp_fragment p) (wp_fin p) (wp_control p)
    (wp_mask_flag p) (wp_mask_pos p) (wp_state p).

(** The callbacks: the result code, the state of the broker, and whether the
    client, with the parser in it, still exists. *)
Class WsCallbacks (W : Type) := {
  on_data_begin : W -> Z -> outcome (Z * W * bool);
  on_data_payload : W -> list Z -> outcome (Z * W * bool);
  on_data_end : W -> outcome (Z * W * bool);
  on_control_begin : W -> Z -> outcome (Z * W * bool);
  on_control_payload : W -> list Z -> outcome (Z * W * bool);
  on_control_end : W -> outcome (Z * W * bool)
}.

Definition ws_parser_init (p : ws_parser_t) : ws_parser_t :=
  p <| wp_state := S_OPCODE |> <| wp_fragment := 0 |>.

(** One round of the loop: go on, or return a code; the parser is [None] when
    it is gone. *)
Inductive ws_res (W : Type) :=
  | WsNext (p : ws_parser_t) (w : W) (rest : list Z)
  | WsReturn (rc : Z) (p : option ws_parser_t) (w : W).
Arguments WsNext {W} p w rest.
Arguments WsReturn {W} rc p w.

(** [buff[i] ^= parser->mask[parser->mask_pos++]] *)
Fixpoint unmask (mask : list Z) (pos : Z) (data : list Z) : outcome (list Z * Z) :=
  match data with
  | [] => mret ([], pos)
  | b :: data =>
      m ← arr_get mask pos;
      '(out, pos) ← unmask mask ((pos + 1) mod 4) data;
      mret (Z.lxor b m :: out, pos)
  end.

Section ws.
Context {W : Type} `{WsCallbacks W}.

(** [if (rc) return rc;], and otherwise [k], which needs the parser. *)
Definition check_rc (r : outcome (Z * W * bool)) (p : ws_parser_t) (k : W -> outcome (ws_res W))
  : outcome (ws_res W) :=
  '(rc, w, alive) ← r;
  if truthy rc then mret (WsReturn rc (if (alive : bool) then Some p else None) w)
  else if (alive : bool) then k w else Undef UseAfterFree.

Definition end_of_payload (p : ws_parser_t) (w : W) (rest : list Z) : outcome (ws_res W) :=
  let done w := mret (WsNext (p <| wp_state := S_OPCODE |>) w rest) in
  if truthy (wp_control p) || truthy (wp_fin p) then
    check_rc (if truthy (wp_control p) then on_control_end w else on_data_end w) p done
  else done w.

Definition step_opcode (p : ws_parser_t) (w : W) (cur_byte : Z) (rest : list Z) : outcome (ws_res W) :=
  let opcode := Z.land cur_byte 15 in
  let next p w := mret (WsNext (p <| wp_state := S_LENGTH |>) w rest) in
  if truthy (Z.land cur_byte 112) then mret (WsReturn WS_RESERVED_BITS_SET (Some p) w)
  else
    let p := p <| wp_fin := c_bool (truthy (Z.land cur_byte 128)) |> in
    if opcode =? 0 then
      if negb (truthy (wp_fragment p)) then mret (WsReturn WS_INVALID_CONTINUATION (Some p) w)
      else next (p <| wp_control := 0 |>) w
    else if truthy (Z.land opcode 8) then
      if negb (opcode =? WS_FRAME_PING) && negb (opcode =? WS_FRAME_PONG) && negb (opcode =? WS_FRAME_CLOSE)
      then mret (WsReturn WS_INVALID_OPCODE (Some p) w)
      else if negb (truthy (wp_fin p)) then mret (WsReturn WS_FRAGMENTED_CONTROL (Some p) w)
      else
        let p := p <| wp_control := 1 |> in
        check_rc (on_control_begin w opcode) p (next p)
    else if negb (opcode =? WS_FRAME_TEXT) && negb (opcode =? WS_FRAME_BINARY)
    then mret (WsReturn WS_INVALID_OPCODE (Some p) w)
    else
      let p := p <| wp_control := 0 |> <| wp_fragment := c_bool (negb (truthy (wp_fin p))) |> in
      check_rc (on_data_begin w opcode) p (next p).

(** [parser->mask_flag ? S_MASK_0 : S_PAYLOAD] *)
Definition after_length (p : ws_parser_t) : ws_state :=
  if truthy (wp_mask_flag p) then S_MASK_0 else S_PAYLOAD.

Definition step_length (p : ws_parser_t) (w : W) (cur_byte : Z) (rest : list Z) : outcome (ws_res W) :=
  let length := Z.land cur_byte 127 in
  let p := p <| wp_mask_flag := c_bool (truthy (Z.land cur_byte 128)) |> <| wp_mask_pos := 0 |> in
  if truthy (wp_control p) && (125 <? length)
  then mret (WsReturn WS_CONTROL_TOO_LONG (Some p) w)
  else
    let p :=
      if truthy (wp_control p) || (length <? 126)
      then p <| wp_bytes_remaining := length |> <| wp_state := after_length p |>
      else if length =? 126 then p <| wp_state := S_LENGTH_16_0 |>
      else p <| wp_state := S_LENGTH_64_0 |> in
    if bool_decide (wp_state p = S_PAYLOAD) && (wp_bytes_remaining p =? 0)
    then end_of_payload p w rest
    else mret (WsNext p w rest).

(** [parser->bytes_remaining |= (uint64_t)cur_byte << shift], going to [st]. *)
Definition or_length (p : ws_parser_t) (cur_byte shift : Z) (st : ws_state) : ws_parser_t :=
  p <| wp_bytes_remaining := Z.lor (wp_bytes_remaining p) (u64 (Z.shiftl cur_byte shift)) |>
    <| wp_state := st |>.

(** The last byte of an extended length, which must be at least [least]. *)
Definition last_length (p : ws_parser_t) (w : W) (cur_byte least : Z) (rest : list Z)
  : outcome (ws_res W) :=
  let p := or_length p cur_byte 0 (after_length p) in
  if wp_bytes_remaining p <? least then mret (WsReturn WS_NON_CANONICAL_LENGTH (Some p) w)
  else mret (WsNext p w rest).

Definition step_long_length (p : ws_parser_t) (w : W) (cur_byte : Z) (rest : list Z)
  : outcome (ws_res W) :=
  let set_length shift st :=
    mret (WsNext (p <| wp_bytes_remaining := u64 (Z.shiftl cur_byte shift) |> <| wp_state := st |>) w rest) in
  match wp_state p with
  | S_LENGTH_16_0 => set_length 8 S_LENGTH_16_1
  | S_LENGTH_16_1 => last_length p w cur_byte 126 rest
  | S_LENGTH_64_0 => set_length 56 S_LENGTH_64_1
  | S_LENGTH_64_1 => mret (WsNext (or_length p cur_byte 48 S_LENGTH_64_2) w rest)
  | S_LENGTH_64_2 => mret (WsNext (or_length p cur_byte 40 S_LENGTH_64_3) w rest)
  | S_LENGTH_64_3 => mret (WsNext (or_length p cur_byte 32 S_LENGTH_64_4) w rest)
  | S_LENGTH_64_4 => mret (WsNext (or_length p cur_byte 24 S_LENGTH_64_5) w rest)
  | S_LENGTH_64_5 => mret (WsNext (or_length p cur_byte 16 S_LENGTH_64_6) w rest)
  | S_LENGTH_64_6 => mret (WsNext (or_length p cur_byte 8 S_LENGTH_64_7) w rest)
  | S_LENGTH_64_7 => last_length p w cur_byte 65536 rest
  | _ => Spin
  end.

Definition step_mask (p : ws_parser_t) (w : W) (cur_byte : Z) (rest : list Z) : outcome (ws_res W) :=
  let set_mask i st :=
    mask ← arr_set (wp_mask p) i cur_byte;
    mret (p <| wp_mask := mask |> <| wp_state := st |>) in
  match wp_state p with
  | S_MASK_0 => p ← set_mask 0 S_MASK_1; mret (WsNext p w rest)
  | S_MASK_1 => p ← set_mask 1 S_MASK_2; mret (WsNext p w rest)
  | S_MASK_2 => p ← set_mask 2 S_MASK_3; mret (WsNext p w rest)
  | S_MASK_3 =>
      p ← set_mask 3 S_PAYLOAD;
      if wp_bytes_remaining p =? 0 then end_of_payload p w rest else mret (WsNext p w rest)
  | _ => Spin
  end.

(** As much of the buffer as belongs to the payload. *)
Definition step_payload (p : ws_parser_t) (w : W) (buff : list Z) : outcome (ws_res W) :=
  let chunk_length := Z.min (zlen buff) (wp_bytes_remaining p) in
  let chunk := take (Z.to_nat chunk_length) buff in
  '(chunk, pos) ← (if truthy (wp_mask_flag p)
                   then unmask (wp_mask p) (wp_mask_pos p) chunk
                   else mret (chunk, wp_mask_pos p));
  let p := p <| wp_mask_pos := pos |> in
  check_rc (if truthy (wp_control p) then on_control_payload w chunk else on_data_payload w chunk) p
    (fun w =>
      let p := p <| wp_bytes_remaining := wp_bytes_remaining p - chunk_length |> in
      let rest := drop (Z.to_nat chunk_length) buff in
      if wp_bytes_remaining p =? 0 then end_of_payload p w rest else mret (WsNext p w rest)).

(** [switch (parser->state)] *)
Definition ws_step (p : ws_parser_t) (w : W) (cur_byte : Z) (rest : list Z) : outcome (ws_res W) :=
  match wp_state p with
  | S_OPCODE => step_opcode p w cur_byte rest
  | S_LENGTH => step_length p w cur_byte rest
  | S_LENGTH_16_0 | S_LENGTH_16_1 | S_LENGTH_64_0 | S_LENGTH_64_1 | S_LENGTH_64_2
  | S_LENGTH_64_3 | S_LENGTH_64_4 | S_LENGTH_64_5 | S_LENGTH_64_6 | S_LENGTH_64_7 =>
      step_long_length p w cur_byte rest
  | S_MASK_0 | S_MASK_1 | S_MASK_2 | S_MASK_3 => step_mask p w cur_byte rest
  | S_PAYLOAD => step_payload p w (cur_byte :: rest)
  end.

(** [while (len)].  Only a payload round with nothing left to read consumes
    no byte, and the round after it does: two rounds per byte are enough. *)
Fixpoint ws_loop (fuel : nat) (p : ws_parser_t) (w : W) (buff : list Z)
  : outcome (Z * option ws_parser_t * W) :=
  match buff with
  | [] => mret (WS_OK, Some p, w)
  | cur_byte :: rest =>
      match fuel with
      | O => Spin
      | S fuel =>
          r ← ws_step p w cur_byte rest;
          match r with
          | WsNext p w rest => ws_loop fuel p w rest
          | WsReturn rc p w => mret (rc, p, w)
          end
      end
  end.

Definition ws_parser_execute (p : ws_parser_t) (w : W) (buff : list Z)
  : outcome (Z * option ws_parser_t * W) :=
  ws_loop (2 * length buff + 1) p w buff.

End ws.
