(* ===== verification/WsSpec.v ===== *)
(** * What the WebSocket parser recognises

    Termination of [ws_parser_execute]; sequences of frames, masked or not,
    fragmented or not, are read back as the payloads they were made of; and
    cutting the input into buffers only cuts the payloads. *)

From S2P Require Import Prelude MqttEncode WsParser.

(** ** Rounds *)

Section rounds.
Context {W : Type} `{WsCallbacks W}.

(** What every round keeps: the mask is there, its position is in range, and
    a payload that is being read is not used up. *)
Record ws_wf (p : ws_parser_t) : Prop := {
  ww_mask : zlen (wp_mask p) = 4;
  ww_pos : 0 <= wp_mask_pos p < 4;
  ww_remaining : 0 <= wp_bytes_remaining p;
  ww_payload : wp_state p = S_PAYLOAD -> 0 < wp_bytes_remaining p
}.

Lemma check_rc_next r p k p' (w' : W) rest' :
  check_rc r p k = Ok (WsNext p' w' rest') -> exists rc w, r = Ok (rc, w, true) /\ k w = Ok (WsNext p' w' rest').
Proof.
  unfold check_rc. intros Hc. inv_bind. destruct a as [[rc w] alive]. cbn in Hc.
  destruct (truthy rc); [done|]. destruct alive; [|done]. by exists rc, w.
Qed.

Lemma end_of_payload_next p (w : W) rest p' w' rest' :
  end_of_payload p w rest = Ok (WsNext p' w' rest') -> p' = p <| wp_state := S_OPCODE |> /\ rest' = rest.
Proof.
  unfold end_of_payload. destruct (truthy _ || truthy _).
  - intros (rc & w1 & _ & Hk)%check_rc_next. by injection Hk as <- _ <-.
  - intros Hk. by injection Hk as <- _ <-.
Qed.

Lemma unmask_ok mask pos data out pos' :
  0 <= pos < 4 -> unmask mask pos data = Ok (out, pos') -> length out = length data /\ 0 <= pos' < 4.
Proof.
  revert pos out pos'. induction data as [|b data IH]; intros pos out pos' Hp Hu; cbn [unmask] in Hu; inv_bind.
  - simplify_eq. done.
  - destruct a0 as [out' pos'']. injection Hu as <- <-. cbn [length].
    apply IH in Ha0 as [Hl Hpos]; [by split; [rewrite Hl|]|]. Z.div_mod_to_equations. lia.
Qed.

Lemma unmask_total mask pos data :
  zlen mask = 4 -> 0 <= pos < 4 -> is_ok (unmask mask pos data).
Proof.
  intros Hm. revert pos. induction data as [|b data IH]; intros pos Hp; [by eexists|]. cbn [unmask].
  assert (exists m, arr_get mask pos = Ok m) as [m ->].
  { destruct (lookup_lt_is_Some_2 mask (Z.to_nat pos)) as [m Hmm]; [unfold zlen in Hm; lia|].
    exists m. apply arr_get_ok; [lia|done]. }
  cbn [mbind outcome_bind]. destruct (IH ((pos + 1) mod 4)) as [[out p'] ->]; [Z.div_mod_to_equations; lia|].
  by eexists.
Qed.

Lemma land_byte_range b n : is_byte b -> 0 <= n -> 0 <= Z.land b n.
Proof. intros. apply Z.land_nonneg. unfold is_byte in *. lia. Qed.

Lemma or_length_nonneg p b shift st : 0 <= wp_bytes_remaining p -> is_byte b ->
  0 <= wp_bytes_remaining (or_length p b shift st).
Proof.
  intros Hr Hb. unfold or_length. cbn. apply Z.lor_nonneg. split; [done|].
  unfold u64. apply Z.mod_pos_bound. lia.
Qed.

Lemma end_of_payload_wf p (w : W) rest p' w' rest' :
  ws_wf p -> end_of_payload p w rest = Ok (WsNext p' w' rest') -> ws_wf p' /\ rest' = rest.
Proof.
  intros Hp He. apply end_of_payload_next in He as [-> ->]. split; [|done].
  destruct Hp. by split.
Qed.

(** A round keeps the parser well formed and consumes input. *)
Definition good_round (rest : list Z) (r : outcome (ws_res W)) : Prop :=
  forall p' w' rest', r = Ok (WsNext p' w' rest') -> ws_wf p' /\ exists k, rest = k ++ rest'.

Lemma good_next p w rest : ws_wf p -> good_round rest (mret (WsNext p w rest)).
Proof. intros Hp p' w' rest' [= <- <- <-]. split; [done|]. by exists []. Qed.

Lemma good_return rc p w rest : good_round rest (mret (WsReturn rc p w)).
Proof. by intros p' w' rest'. Qed.

Lemma good_check r p k rest :
  (forall w, good_round rest (k w)) -> good_round rest (check_rc r p k).
Proof. intros Hk p' w' rest' (rc & w & _ & He)%check_rc_next. by eapply Hk. Qed.

Lemma good_end p w rest : ws_wf p -> good_round rest (end_of_payload p w rest).
Proof. intros Hp p' w' rest' He. apply end_of_payload_wf in He as [? ->]; [|done]. split; [done|]. by exists []. Qed.

Lemma good_last_length p w b least rest :
  ws_wf p -> is_byte b -> 0 < least -> good_round rest (last_length p w b least rest).
Proof.
  intros Hp Hb Hl. unfold last_length.
  pose proof (or_length_nonneg p b 0 (after_length p) (ww_remaining _ Hp) Hb) as Hn.
  destruct (Z.ltb_spec (wp_bytes_remaining (or_length p b 0 (after_length p))) least); [apply good_return|].
  apply good_next. destruct Hp. split; try done. intros _. lia.
Qed.

Lemma arr_set_zlen {A} (l l' : list A) i v : arr_set l i v = Ok l' -> zlen l' = zlen l.
Proof.
  unfold arr_set. destruct (_ && _); [|done]. intros [= <-]. unfold zlen. by rewrite length_insert.
Qed.

Lemma good_bind {A} (m : outcome A) k rest :
  (forall a, m = Ok a -> good_round rest (k a)) -> good_round rest (m ≫= k).
Proof. intros Hk. destruct m as [a| | |]; try by intros p' w' rest'. by apply Hk. Qed.

(** Storing a mask byte. *)
Lemma good_mask p w b i st rest :
  ws_wf p -> st <> S_PAYLOAD ->
  good_round rest (p ← (mask ← arr_set (wp_mask p) i b; mret (p <| wp_mask := mask |> <| wp_state := st |>));
    mret (WsNext p w rest)).
Proof.
  intros Hp Hst. apply good_bind. intros p1 Hp1. inv_bind. apply good_next.
  pose proof (arr_set_zlen _ _ _ _ Ha). destruct Hp. split; cbn; congruence || done.
Qed.

Lemma good_payload p (w : W) b rest :
  ws_wf p -> 0 < wp_bytes_remaining p -> good_round rest (step_payload p w (b :: rest)).
Proof.
  intros Hp Hr. unfold step_payload. apply good_bind. intros [chunk pos] Hu.
  assert (0 <= pos < 4) as Hpos.
  { destruct (truthy _); [by eapply unmask_ok, Hu; apply Hp|]. injection Hu as _ <-. apply Hp. }
  apply good_check. intros w1.
  set (n := Z.min (zlen (b :: rest)) (wp_bytes_remaining p)).
  assert (1 <= n) as Hn.
  { unfold n. rewrite zlen_cons. pose proof (zlen_nonneg rest). lia. }
  replace (Z.to_nat n) with (S (Z.to_nat (n - 1))) by lia. cbn [drop].
  assert (exists k, rest = k ++ drop (Z.to_nat (n - 1)) rest) as Hk.
  { exists (take (Z.to_nat (n - 1)) rest). by rewrite take_drop. }
  pose proof Hp as [H1 H2 H3 H4].
  destruct (Z.eqb_spec (wp_bytes_remaining (p <| wp_mask_pos := pos |> <| wp_bytes_remaining :=
    wp_bytes_remaining (p <| wp_mask_pos := pos |>) - n |>)) 0) as [E|E].
  - intros p' w' rest' He. apply end_of_payload_next in He as [-> ->]. split; [|done].
    cbn in E. split; cbn; try done. lia.
  - intros p' w' rest' [= <- <- <-]. split; [|done]. cbn in E. unfold n in *.
    split; cbn; try done; intros; lia.
Qed.

Lemma ws_step_good p w b rest : ws_wf p -> is_byte b -> good_round rest (ws_step p w b rest).
Proof.
  intros Hp Hb. unfold ws_step. destruct (wp_state p) eqn:Hst.
  - unfold step_opcode. destruct (truthy _); [apply good_return|].
    destruct (_ =? 0).
    { destruct (negb _); [apply good_return|]. apply good_next. by destruct Hp. }
    destruct (truthy (Z.land _ 8)).
    { destruct (_ && _); [apply good_return|]. destruct (negb _); [apply good_return|].
      apply good_check. intros w'. apply good_next. by destruct Hp. }
    destruct (_ && _); [apply good_return|]. apply good_check. intros w'. apply good_next. by destruct Hp.
  - unfold step_length. destruct (_ && _) eqn:Hc; [apply good_return|].
    pose proof (land_byte_range b 127 Hb ltac:(lia)) as Hl.
    assert (forall p1, zlen (wp_mask p1) = 4 -> 0 <= wp_mask_pos p1 < 4 -> 0 <= wp_bytes_remaining p1 ->
      good_round rest (if bool_decide (wp_state p1 = S_PAYLOAD) && (wp_bytes_remaining p1 =? 0)
        then end_of_payload p1 w rest else mret (WsNext p1 w rest))) as Hg.
    { intros p1 H1 H2 H3. case_bool_decide as Hs; cbn [andb].
      - destruct (Z.eqb_spec (wp_bytes_remaining p1) 0) as [E|E].
        + intros p' w' rest' He. apply end_of_payload_next in He as [-> ->]. split; [by split|by exists []].
        + apply good_next. split; try done. lia.
      - apply good_next. by split. }
    destruct (_ || _); [apply Hg; by destruct Hp|]. destruct (_ =? 126); apply Hg; by destruct Hp.
  - unfold step_long_length. rewrite Hst. apply good_next. destruct Hp; split; try done. cbn. unfold u64. apply Z.mod_pos_bound. lia.
  - unfold step_long_length. rewrite Hst. by apply good_last_length.
  - unfold step_long_length. rewrite Hst. apply good_next. destruct Hp; split; try done. cbn. unfold u64. apply Z.mod_pos_bound. lia.
  - unfold step_long_length. rewrite Hst. apply good_next. pose proof (or_length_nonneg p b 48 S_LENGTH_64_2 (ww_remaining _ Hp) Hb). by destruct Hp.
  - unfold step_long_length. rewrite Hst. apply good_next. pose proof (or_length_nonneg p b 40 S_LENGTH_64_3 (ww_remaining _ Hp) Hb). by destruct Hp.
  - unfold step_long_length. rewrite Hst. apply good_next. pose proof (or_length_nonneg p b 32 S_LENGTH_64_4 (ww_remaining _ Hp) Hb). by destruct Hp.
  - unfold step_long_length. rewrite Hst. apply good_next. pose proof (or_length_nonneg p b 24 S_LENGTH_64_5 (ww_remaining _ Hp) Hb). by destruct Hp.
  - unfold step_long_length. rewrite Hst. apply good_next. pose proof (or_length_nonneg p b 16 S_LENGTH_64_6 (ww_remaining _ Hp) Hb). by destruct Hp.
  - unfold step_long_length. rewrite Hst. apply good_next. pose proof (or_length_nonneg p b 8 S_LENGTH_64_7 (ww_remaining _ Hp) Hb). by destruct Hp.
  - unfold step_long_length. rewrite Hst. by apply good_last_length.
  - unfold step_mask. rewrite Hst. by apply good_mask.
  - unfold step_mask. rewrite Hst. by apply good_mask.
  - unfold step_mask. rewrite Hst. by apply good_mask.
  - unfold step_mask. rewrite Hst. apply good_bind. intros p1 Hp1. inv_bind.
    pose proof (arr_set_zlen _ _ _ _ Ha) as Hz. pose proof Hp as [H1 H2 H3 H4].
    destruct (Z.eqb_spec (wp_bytes_remaining (p <| wp_mask := a |> <| wp_state := S_PAYLOAD |>)) 0) as [E|E].
    + intros p' w' rest' He. apply end_of_payload_next in He as [-> ->]. split; [|by exists []].
      split; cbn; try done. congruence.
    + apply good_next. cbn in E. split; cbn; try done; [congruence|lia].
  - apply good_payload; [done|]. by apply Hp.
Qed.

(** ** The loop *)

(** More fuel than bytes makes no difference. *)
Lemma ws_loop_fuel f1 f2 p (w : W) buff :
  ws_wf p -> bytes buff -> (length buff <= f1)%nat -> (length buff <= f2)%nat ->
  ws_loop f1 p w buff = ws_loop f2 p w buff.
Proof.
  revert f2 p w buff. induction f1 as [|f1 IH]; intros f2 p w buff Hp Hb H1 H2.
  { destruct buff; [by destruct f2|cbn in H1; lia]. }
  destruct buff as [|b rest]; [by destruct f2|]. destruct f2 as [|f2]; [cbn in H2; lia|].
  apply bytes_cons in Hb as [Hbyte Hb]. cbn [ws_loop length] in *.
  pose proof (ws_step_good p w b rest Hp Hbyte) as Hg.
  destruct (ws_step p w b rest) as [[p' w' rest'|]| | |]; try done. cbn [mbind outcome_bind].
  destruct (Hg _ _ _ eq_refl) as (Hp' & k & ->). apply bytes_app in Hb as [_ Hb].
  rewrite length_app in *. apply IH; [done|done|lia|lia].
Qed.

Lemma ws_execute_cons p (w : W) b rest :
  ws_wf p -> bytes (b :: rest) ->
  ws_parser_execute p w (b :: rest)
  = r ← ws_step p w b rest;
    match r with
    | WsNext p w rest => ws_parser_execute p w rest
    | WsReturn rc p w => Ok (rc, p, w)
    end.
Proof.
  intros Hp Hb. pose proof Hb as [Hbyte Hb']%bytes_cons. unfold ws_parser_execute at 1.
  replace (2 * length (b :: rest) + 1)%nat with (S (2 * length (b :: rest))) by lia. cbn [ws_loop].
  pose proof (ws_step_good p w b rest Hp Hbyte) as Hg.
  destruct (ws_step p w b rest) as [[p' w' rest'|]| | |]; try done. cbn [mbind outcome_bind].
  destruct (Hg _ _ _ eq_refl) as (Hp' & k & ->). apply bytes_app in Hb' as [_ Hb'].
  apply ws_loop_fuel; [done|done| |lia]. cbn [length]. rewrite length_app. lia.
Qed.

Lemma ws_execute_nil p (w : W) : ws_parser_execute p w [] = Ok (WS_OK, Some p, w).
Proof. done. Qed.
End rounds.

(** ** Frames *)

Definition be64 (n : Z) : list Z :=
  (fun s => n / 2 ^ s mod 256) <$> [56; 48; 40; 32; 24; 16; 8; 0].

(** The length field, with the mask bit [mb]. *)
Definition ws_length (mb n : Z) : list Z :=
  if n <? 126 then [mb * 128 + n]
  else if n <? 65536 then (mb * 128 + 126) :: be16 n
  else (mb * 128 + 127) :: be64 n.

Fixpoint apply_mask (mask : list Z) (pos : Z) (data : list Z) : list Z :=
  match data with
  | [] => []
  | b :: data => Z.lxor b (default 0 (mask !! Z.to_nat pos)) :: apply_mask mask ((pos + 1) mod 4) data
  end.

Record ws_frame := mk_ws_frame {
  fr_fin : Z;
  fr_opcode : Z;
  fr_mask : option (list Z);
  fr_payload : list Z
}.

Definition frame_bytes (f : ws_frame) : list Z :=
  (fr_fin f * 128 + fr_opcode f) ::
  match fr_mask f with
  | None => ws_length 0 (zlen (fr_payload f)) ++ fr_payload f
  | Some m => ws_length 1 (zlen (fr_payload f)) ++ m ++ apply_mask m 0 (fr_payload f)
  end.

Definition is_control (op : Z) : bool := (op =? WS_FRAME_CLOSE) || (op =? WS_FRAME_PING) || (op =? WS_FRAME_PONG).
Definition is_data (op : Z) : bool := (op =? WS_FRAME_TEXT) || (op =? WS_FRAME_BINARY).

(** A frame that may come next, [frag] being the flag of the parser. *)
Record frame_ok (frag : Z) (f : ws_frame) : Prop := {
  fo_fin : 0 <= fr_fin f <= 1;
  fo_opcode : is_data (fr_opcode f) = true \/ fr_opcode f = 0 /\ frag = 1 \/
    is_control (fr_opcode f) = true /\ fr_fin f = 1 /\ zlen (fr_payload f) <= 125;
  fo_mask : match fr_mask f with Some m => zlen m = 4 /\ bytes m | None => True end;
  fo_payload : bytes (fr_payload f) /\ zlen (fr_payload f) < 2 ^ 64
}.

(** The flag after the frame: a continuation does not reset it. *)
Definition next_frag (frag : Z) (f : ws_frame) : Z :=
  if is_data (fr_opcode f) then 1 - fr_fin f else frag.

Fixpoint frames_ok (frag : Z) (fs : list ws_frame) : Prop :=
  match fs with
  | [] => True
  | f :: fs => frame_ok frag f /\ frames_ok (next_frag frag f) fs
  end.

Inductive ws_event :=
  | WsDataBegin (opcode : Z)
  | WsDataPayload (data : list Z)
  | WsDataEnd
  | WsControlBegin (opcode : Z)
  | WsControlPayload (data : list Z)
  | WsControlEnd.

#[export] Instance ws_recorder : WsCallbacks (list ws_event) := {|
  on_data_begin w op := Ok (0, w ++ [WsDataBegin op], true);
  on_data_payload w l := Ok (0, w ++ [WsDataPayload l], true);
  on_data_end w := Ok (0, w ++ [WsDataEnd], true);
  on_control_begin w op := Ok (0, w ++ [WsControlBegin op], true);
  on_control_payload w l := Ok (0, w ++ [WsControlPayload l], true);
  on_control_end w := Ok (0, w ++ [WsControlEnd], true)
|}.

Definition opt_event (e : list Z -> ws_event) (l : list Z) : list ws_event :=
  match l with [] => [] | _ => [e l] end.

(** The calls made for a frame. *)
Definition begin_events (f : ws_frame) : list ws_event :=
  if is_control (fr_opcode f) then [WsControlBegin (fr_opcode f)]
  else if fr_opcode f =? 0 then [] else [WsDataBegin (fr_opcode f)].

Definition end_events (ctl fin : Z) : list ws_event :=
  if truthy ctl then [WsControlEnd] else if truthy fin then [WsDataEnd] else [].

Definition payload_events (ctl : Z) (l : list Z) : list ws_event :=
  opt_event (if truthy ctl then WsControlPayload else WsDataPayload) l.

Definition frame_events (f : ws_frame) : list ws_event :=
  let ctl := c_bool (is_control (fr_opcode f)) in
  begin_events f ++ payload_events ctl (fr_payload f) ++ end_events ctl (fr_fin f).

Notation ws_exec := (@ws_parser_execute (list ws_event) ws_recorder).

Lemma end_of_payload_rec rem mask frag fin ctl mf pos st w rest :
  @end_of_payload _ ws_recorder (mk_ws_parser rem mask frag fin ctl mf pos st) w rest
  = Ok (WsNext (mk_ws_parser rem mask frag fin ctl mf pos S_OPCODE) (w ++ end_events ctl fin) rest).
Proof.
  unfold end_of_payload, end_events. cbn [wp_control wp_fin].
  destruct (truthy ctl); cbn [orb]; [done|]. destruct (truthy fin); [done|]. by rewrite app_nil_r.
Qed.

Lemma end_of_payload_any p (w : list ws_event) rest :
  end_of_payload p w rest
  = Ok (WsNext (p <| wp_state := S_OPCODE |>) (w ++ end_events (wp_control p) (wp_fin p)) rest).
Proof. destruct p. apply end_of_payload_rec. Qed.

Lemma mask_bit mb n :
  0 <= mb <= 1 -> 0 <= n < 128 ->
  Z.land (mb * 128 + n) 127 = n /\ c_bool (truthy (Z.land (mb * 128 + n) 128)) = mb /\ is_byte (mb * 128 + n).
Proof.
  intros Hm Hn.
  pose (P := fun b => (Z.land b 127 =? b mod 128) && (c_bool (truthy (Z.land b 128)) =? b / 128)).
  assert (P (mb * 128 + n) = true) as HP.
  { apply byte_forall; [by vm_compute|]. unfold is_byte. lia. }
  unfold P in HP. rewrite andb_true_iff, !Z.eqb_eq in HP. destruct HP as [-> ->].
  unfold is_byte. split_and!; try lia; Z.div_mod_to_equations; lia.
Qed.

Lemma be64_bytes n : bytes (be64 n).
Proof. apply Forall_fmap, Forall_true. intros s. unfold compose, is_byte. apply Z.mod_pos_bound. lia. Qed.

Lemma be16_bytes n : 0 <= n < 65536 -> bytes (be16 n).
Proof. intros Hn. repeat constructor; unfold is_byte; Z.div_mod_to_equations; lia. Qed.

Lemma ws_length_bytes mb n : 0 <= mb <= 1 -> 0 <= n -> bytes (ws_length mb n).
Proof.
  intros Hm Hn. unfold ws_length. destruct (Z.ltb_spec n 126).
  - constructor; [apply mask_bit; lia|constructor].
  - destruct (Z.ltb_spec n 65536); constructor; try apply mask_bit; try lia; [by apply be16_bytes|apply be64_bytes].
Qed.

Lemma lor_next acc b s :
  0 <= s -> 0 <= b < 256 -> s + 8 <= 64 -> acc mod 2 ^ (s + 8) = 0 ->
  Z.lor acc (u64 (Z.shiftl b s)) = acc + b * 2 ^ s.
Proof.
  intros Hs Hb Hs8 Ha. rewrite Z.shiftl_mul_pow2 by done.
  assert (b * 2 ^ s < 2 ^ (s + 8)) as Hlt.
  { rewrite Z.pow_add_r by lia. change (2 ^ 8) with 256. pose proof (Z.pow_pos_nonneg 2 s). nia. }
  assert (2 ^ (s + 8) <= 2 ^ 64) by (apply Z.pow_le_mono_r; lia).
  pose proof (Z.pow_pos_nonneg 2 s). rewrite u64_small by nia.
  assert (acc = acc / 2 ^ (s + 8) * 2 ^ (s + 8)) as Hq.
  { pose proof (Z.div_mod acc (2 ^ (s + 8))). lia. }
  rewrite Hq at 1. rewrite <- Z.shiftl_mul_pow2 by lia. rewrite lor_shiftl_add by nia. lia.
Qed.

(** ** The runs of a frame *)

Section runs.
Context (mask : list Z) (frag fin ctl : Z) (w : list ws_event).
Hypothesis (Hmask : zlen mask = 4).

Let at_ rem mf pos st := mk_ws_parser rem mask frag fin ctl mf pos st.

Lemma at_wf rem mf pos st :
  0 <= rem -> 0 <= pos < 4 -> st <> S_PAYLOAD -> ws_wf (at_ rem mf pos st).
Proof. intros. by split. Qed.

(** A round that only changes the parser. *)
Lemma ws_next p b rest p' :
  ws_wf p -> is_byte b -> bytes rest -> ws_step p w b rest = Ok (WsNext p' w rest) ->
  ws_exec p w (b :: rest) = ws_exec p' w rest.
Proof. intros Hp Hb Hr Hs. rewrite ws_execute_cons by (try done; by constructor). by rewrite Hs. Qed.

(** The state after the length and the mask: the payload, or the next frame. *)
Definition after_head rem mask mf : ws_parser_t :=
  mk_ws_parser rem mask frag fin ctl mf 0 (if rem =? 0 then S_OPCODE else S_PAYLOAD).

Definition head_events (rem : Z) : list ws_event := if rem =? 0 then end_events ctl fin else [].

Lemma last_length_run rem mf b least rest st :
  (st = S_LENGTH_16_1 /\ least = 126 \/ st = S_LENGTH_64_7 /\ least = 65536) ->
  0 <= rem -> rem mod 256 = 0 -> is_byte b -> bytes rest -> least <= rem + b -> 0 <= mf <= 1 ->
  ws_exec (at_ rem mf 0 st) w (b :: rest)
  = ws_exec (at_ (rem + b) mf 0 (if mf =? 1 then S_MASK_0 else S_PAYLOAD)) w rest.
Proof.
  intros Hst Hrem Hm Hb Hr Hl Hmf.
  assert (after_length (at_ rem mf 0 st) = if mf =? 1 then S_MASK_0 else S_PAYLOAD) as Ha.
  { unfold after_length, truthy. cbn. destruct (Z.eqb_spec mf 0), (Z.eqb_spec mf 1); try done; lia. }
  apply ws_next; [|done|done|].
  - apply at_wf; [done|lia|]. by destruct Hst as [[-> _]|[-> _]].
  - transitivity (last_length (at_ rem mf 0 st) w b least rest); [by destruct Hst as [[-> ->]|[-> ->]]|].
    unfold last_length. rewrite Ha.
    pose proof (lor_next rem b 0) as Hlor. rewrite Z.mul_1_r in Hlor.
    unfold or_length. cbn [wp_bytes_remaining upd at_]. 
    change (wp_bytes_remaining (at_ rem mf 0 st)) with rem. rewrite Hlor by (try done; lia).
    change (wp_bytes_remaining (_ <| wp_bytes_remaining := ?x |> <| wp_state := ?s |>)) with x.
    destruct (Z.ltb_spec (rem + b) least); [lia|done].
Qed.

Lemma length_16_run rem mf n rest :
  0 <= rem -> 126 <= n < 65536 -> bytes rest -> 0 <= mf <= 1 ->
  ws_exec (at_ rem mf 0 S_LENGTH_16_0) w (be16 n ++ rest)
  = ws_exec (at_ n mf 0 (if mf =? 1 then S_MASK_0 else S_PAYLOAD)) w rest.
Proof.
  intros Hrem Hn Hr Hmf. unfold be16. cbn [app].
  assert (is_byte (n / 256) /\ is_byte (n mod 256)) as [Hb1 Hb2] by (unfold is_byte; Z.div_mod_to_equations; lia).
  transitivity (ws_exec (at_ (n / 256 * 256) mf 0 S_LENGTH_16_1) w (n mod 256 :: rest)).
  - apply ws_next; [by apply at_wf|done|by constructor|].
    unfold ws_step, step_long_length. cbn. rewrite Z.shiftl_mul_pow2 by lia. rewrite u64_small; [done|].
    unfold is_byte in *. change (2 ^ 8) with 256. lia.
  - rewrite last_length_run with (least := 126); try done; try (unfold is_byte in *; Z.div_mod_to_equations; lia).
    + do 3 f_equal. Z.div_mod_to_equations. lia.
    + by left.
Qed.

(** One more byte of a 64-bit length. *)
Lemma or_length_run rem mf b s st st' rest :
  (forall p rest, wp_state p = st -> ws_step p w b rest = Ok (WsNext (or_length p b s st') w rest)) ->
  st <> S_PAYLOAD -> 0 <= rem -> 0 <= s <= 56 -> rem mod 2 ^ (s + 8) = 0 -> is_byte b -> bytes rest ->
  ws_exec (at_ rem mf 0 st) w (b :: rest) = ws_exec (at_ (rem + b * 2 ^ s) mf 0 st') w rest.
Proof.
  intros Hstep Hst Hrem Hs Hm Hb Hr. apply ws_next; [by apply at_wf|done|done|].
  rewrite Hstep by done. unfold or_length. change (wp_bytes_remaining (at_ rem mf 0 st)) with rem.
  rewrite lor_next by (try done; lia). done.
Qed.

Lemma length_64_sum n :
  0 <= n < 2 ^ 64 ->
  n / 2 ^ 56 mod 256 * 2 ^ 56 + n / 2 ^ 48 mod 256 * 2 ^ 48 + n / 2 ^ 40 mod 256 * 2 ^ 40
  + n / 2 ^ 32 mod 256 * 2 ^ 32 + n / 2 ^ 24 mod 256 * 2 ^ 24 + n / 2 ^ 16 mod 256 * 2 ^ 16
  + n / 2 ^ 8 mod 256 * 2 ^ 8 + n / 2 ^ 0 mod 256 = n.
Proof.
  intros Hn.
  assert (forall s s', 0 <= s -> s' = s + 8 -> n / 2 ^ s = 256 * (n / 2 ^ s') + n / 2 ^ s mod 256) as Hd.
  { intros s s' Hs ->. rewrite Z.pow_add_r, <- Zdiv_Zdiv by lia. apply Z.div_mod. lia. }
  assert (n / 2 ^ 64 = 0) as H64 by (by apply Z.div_small).
  pose proof (Hd 0 8 ltac:(lia) eq_refl) as H0. pose proof (Hd 8 16 ltac:(lia) eq_refl) as H1.
  pose proof (Hd 16 24 ltac:(lia) eq_refl) as H2. pose proof (Hd 24 32 ltac:(lia) eq_refl) as H3.
  pose proof (Hd 32 40 ltac:(lia) eq_refl) as H4. pose proof (Hd 40 48 ltac:(lia) eq_refl) as H5.
  pose proof (Hd 48 56 ltac:(lia) eq_refl) as H6. pose proof (Hd 56 64 ltac:(lia) eq_refl) as H7.
  clear Hd. rewrite H64 in H7. rewrite Z.pow_0_r, Z.div_1_r in *.
  revert H0 H1 H2 H3 H4 H5 H6 H7. 
  generalize (n / 2 ^ 56 mod 256) (n / 2 ^ 48 mod 256) (n / 2 ^ 40 mod 256) (n / 2 ^ 32 mod 256) (n / 2 ^ 24 mod 256)
    (n / 2 ^ 16 mod 256) (n / 2 ^ 8 mod 256) (n mod 256).
  generalize (n / 2 ^ 56) (n / 2 ^ 48) (n / 2 ^ 40) (n / 2 ^ 32) (n / 2 ^ 24) (n / 2 ^ 16) (n / 2 ^ 8).
  intros. lia.
Qed.

Ltac pow_lia :=
  cbn [Z.add Pos.add Pos.succ Z.pow Z.pow_pos Pos.iter Z.mul Pos.mul]; Z.div_mod_to_equations; lia.

Ltac solve_bytes := rewrite ?bytes_cons; split_and!; assumption.

Ltac next_length s st :=
  rewrite (or_length_run _ _ _ s _ st);
  [|by (intros [] rest' E; cbn in E; subst)|done|lia|lia|pow_lia|done|solve_bytes].

Lemma length_64_run rem mf n rest :
  0 <= rem -> 65536 <= n < 2 ^ 64 -> bytes rest -> 0 <= mf <= 1 ->
  ws_exec (at_ rem mf 0 S_LENGTH_64_0) w (be64 n ++ rest)
  = ws_exec (at_ n mf 0 (if mf =? 1 then S_MASK_0 else S_PAYLOAD)) w rest.
Proof.
  intros Hrem Hn Hr Hmf. pose proof (be64_bytes n) as Hb. pose proof (length_64_sum n ltac:(lia)) as Hsum.
  unfold be64 in *. cbn [fmap list_fmap app] in *. revert Hb Hsum.
  generalize (n / 2 ^ 56 mod 256) (n / 2 ^ 48 mod 256) (n / 2 ^ 40 mod 256) (n / 2 ^ 32 mod 256) (n / 2 ^ 24 mod 256)
    (n / 2 ^ 16 mod 256) (n / 2 ^ 8 mod 256) (n / 2 ^ 0 mod 256).
  intros b0 b1 b2 b3 b4 b5 b6 b7 Hb Hsum.
  rewrite !bytes_cons in Hb. destruct Hb as (H0 & H1 & H2 & H3 & H4 & H5 & H6 & H7 & _).
  change (2 ^ 56) with 72057594037927936 in *. change (2 ^ 48) with 281474976710656 in *.
  change (2 ^ 40) with 1099511627776 in *. change (2 ^ 32) with 4294967296 in *.
  change (2 ^ 24) with 16777216 in *. change (2 ^ 16) with 65536 in *. change (2 ^ 8) with 256 in *.
  unfold is_byte in *.
  transitivity (ws_exec (at_ (b0 * 2 ^ 56) mf 0 S_LENGTH_64_1) w (b1 :: b2 :: b3 :: b4 :: b5 :: b6 :: b7 :: rest)).
  { apply ws_next; [by apply at_wf|done|solve_bytes|].
    unfold ws_step, step_long_length. cbn [wp_state at_]. rewrite Z.shiftl_mul_pow2 by lia. rewrite u64_small; [done|].
    change (2 ^ 56) with 72057594037927936. change (2 ^ 64) with 18446744073709551616. lia. }
  next_length 48 S_LENGTH_64_2.
  next_length 40 S_LENGTH_64_3.
  next_length 32 S_LENGTH_64_4.
  next_length 24 S_LENGTH_64_5.
  next_length 16 S_LENGTH_64_6.
  next_length 8 S_LENGTH_64_7.
  rewrite (last_length_run _ _ _ 65536); [|by right|lia|pow_lia|done|done|lia|done].
  do 3 f_equal. rewrite <- Hsum. reflexivity.
Qed.

(** The second byte of a frame and the length after it. *)
Lemma length_run rem mf pos mb n rest :
  0 <= rem -> 0 <= pos < 4 -> 0 <= mb <= 1 -> 0 <= n < 2 ^ 64 -> bytes rest ->
  (truthy ctl = true -> n <= 125) ->
  ws_exec (at_ rem mf pos S_LENGTH) w (ws_length mb n ++ rest)
  = if mb =? 1 then ws_exec (at_ n 1 0 S_MASK_0) w rest
    else ws_exec (after_head n mask 0) (w ++ head_events n) rest.
Proof.
  intros Hrem Hpos Hmb Hn Hr Hctl. unfold ws_length.
  assert (mb = 0 \/ mb = 1) as Hmb' by lia.
  destruct (Z.ltb_spec n 126) as [Hs|Hs]; [|destruct (Z.ltb_spec n 65536) as [Hs2|Hs2]].
  - pose proof (mask_bit mb n Hmb ltac:(lia)) as (Hl & Hf & Hb). cbn [app].
    rewrite ws_execute_cons; [|by apply at_wf|by constructor].
    unfold ws_step, step_length. cbn [wp_state at_]. rewrite Hl, Hf. cbn zeta.
    change (wp_control (_ <| wp_mask_pos := 0 |>)) with ctl.
    destruct (Z.ltb_spec 125 n); [lia|]. rewrite andb_false_r. destruct (Z.ltb_spec n 126); [|lia].
    rewrite orb_true_r. unfold after_head, head_events.
    destruct Hmb' as [-> | ->]; cbn; [|done].
    destruct (n =? 0) eqn:E; cbn; [|by rewrite app_nil_r].
    unfold upd. cbn. by rewrite end_of_payload_rec.
  - pose proof (mask_bit mb 126 Hmb ltac:(lia)) as (Hl & Hf & Hb).
    assert (truthy ctl = false) as Hc by (destruct (truthy ctl); [lia|done]).
    transitivity (ws_exec (at_ rem mb 0 S_LENGTH_16_0) w (be16 n ++ rest)).
    + cbn [app]. apply ws_next; [by apply at_wf|done|apply bytes_app; split; [apply be16_bytes; lia|done]|].
      unfold ws_step, step_length. cbn [wp_state at_]. rewrite Hl, Hf. cbn zeta.
      change (wp_control (_ <| wp_mask_pos := 0 |>)) with ctl. rewrite Hc. done.
    + rewrite length_16_run by (done || lia). destruct Hmb' as [-> | ->]; cbn; [|done].
      unfold after_head, head_events. destruct (Z.eqb_spec n 0); [lia|]. by rewrite app_nil_r.
  - pose proof (mask_bit mb 127 Hmb ltac:(lia)) as (Hl & Hf & Hb).
    assert (truthy ctl = false) as Hc by (destruct (truthy ctl); [lia|done]).
    transitivity (ws_exec (at_ rem mb 0 S_LENGTH_64_0) w (be64 n ++ rest)).
    + cbn [app]. apply ws_next; [by apply at_wf|done|apply bytes_app; split; [apply be64_bytes|done]|].
      unfold ws_step, step_length. cbn [wp_state at_]. rewrite Hl, Hf. cbn zeta.
      change (wp_control (_ <| wp_mask_pos := 0 |>)) with ctl. rewrite Hc. done.
    + rewrite length_64_run by (done || lia). destruct Hmb' as [-> | ->]; cbn; [|done].
      unfold after_head, head_events. destruct (Z.eqb_spec n 0); [lia|]. by rewrite app_nil_r.
Qed.

Lemma mask_run n m rest :
  0 <= n -> zlen m = 4 -> bytes m -> bytes rest ->
  ws_exec (at_ n 1 0 S_MASK_0) w (m ++ rest) = ws_exec (after_head n m 1) (w ++ head_events n) rest.
Proof.
  intros Hn Hm Hb Hr. unfold at_. clear at_.
  destruct mask as [|a [|b [|c [|d []]]]]; try (by (unfold zlen in Hmask; cbn in Hmask; lia)).
  destruct m as [|a' [|b' [|c' [|d' []]]]]; try (by (unfold zlen in Hm; cbn in Hm; lia)).
  rewrite !bytes_cons in Hb. destruct Hb as (H0 & H1 & H2 & H3 & _). cbn [app].
  transitivity (ws_exec (mk_ws_parser n [a'; b; c; d] frag fin ctl 1 0 S_MASK_1) w (b' :: c' :: d' :: rest)).
  { apply ws_next; [by repeat split|done|solve_bytes|done]. }
  transitivity (ws_exec (mk_ws_parser n [a'; b'; c; d] frag fin ctl 1 0 S_MASK_2) w (c' :: d' :: rest)).
  { apply ws_next; [by repeat split|done|solve_bytes|done]. }
  transitivity (ws_exec (mk_ws_parser n [a'; b'; c'; d] frag fin ctl 1 0 S_MASK_3) w (d' :: rest)).
  { apply ws_next; [by repeat split|done|solve_bytes|done]. }
  rewrite ws_execute_cons; [|by repeat split|solve_bytes].
  transitivity (r ← (if n =? 0 then @end_of_payload _ ws_recorder (mk_ws_parser n [a'; b'; c'; d'] frag fin ctl 1 0 S_PAYLOAD) w rest
                     else Ok (WsNext (mk_ws_parser n [a'; b'; c'; d'] frag fin ctl 1 0 S_PAYLOAD) w rest));
                match r with
                | WsNext p w rest => ws_exec p w rest
                | WsReturn rc p w => Ok (rc, p, w)
                end); [done|].
  unfold after_head, head_events. destruct (n =? 0) eqn:E.
  - by rewrite end_of_payload_rec.
  - cbn. by rewrite app_nil_r.
Qed.

Lemma unmask_mask m pos data :
  zlen m = 4 -> 0 <= pos < 4 -> exists pos', unmask m pos (apply_mask m pos data) = Ok (data, pos') /\ 0 <= pos' < 4.
Proof.
  intros Hm. revert pos. induction data as [|b data IH]; intros pos Hp; [by exists pos|].
  cbn [apply_mask unmask].
  destruct (lookup_lt_is_Some_2 m (Z.to_nat pos)) as [x Hx]; [unfold zlen in Hm; lia|].
  rewrite (arr_get_ok _ _ x) by (done || lia). cbn [mbind outcome_bind].
  destruct (IH ((pos + 1) mod 4)) as (pos' & -> & Hpos'); [Z.div_mod_to_equations; lia|].
  exists pos'. cbn [mbind outcome_bind]. rewrite Hx. cbn [default].
  rewrite Z.lxor_assoc, Z.lxor_nilpotent, Z.lxor_0_r. done.
Qed.

Lemma apply_mask_length m pos data : length (apply_mask m pos data) = length data.
Proof. revert pos. induction data; intros pos; cbn; [done|by rewrite IHdata]. Qed.

Lemma lxor_byte a b : is_byte a -> is_byte b -> is_byte (Z.lxor a b).
Proof.
  intros Ha Hb. pose (P := fun x => forallb (fun y => bool_decide (is_byte (Z.lxor x y))) (seqZ 0 256)).
  assert (P a = true) as HP by (apply byte_forall; [by vm_compute|done]).
  unfold P in HP. apply (byte_forall (fun y => bool_decide (is_byte (Z.lxor a y))) b) in HP; [|done].
  by apply bool_decide_eq_true in HP.
Qed.

Lemma apply_mask_bytes m pos data : bytes m -> bytes data -> bytes (apply_mask m pos data).
Proof.
  intros Hm. revert pos. induction data as [|b data IH]; intros pos Hd; [done|].
  apply bytes_cons in Hd as [Hb Hd]. cbn [apply_mask]. apply bytes_cons. split; [|by apply IH].
  apply lxor_byte; [done|]. destruct (m !! Z.to_nat pos) as [x|] eqn:E; [|done].
  unfold bytes in Hm. rewrite Forall_lookup in Hm. by eapply Hm.
Qed.

(** The payload as it goes over the wire. *)
Definition wire_payload m mf data : list Z := if mf =? 1 then apply_mask m 0 data else data.

Lemma ws_payload_run data mf rest :
  0 <= mf <= 1 -> 0 < zlen data -> bytes mask -> bytes data -> bytes rest ->
  exists pos, 0 <= pos < 4 /\
  ws_exec (at_ (zlen data) mf 0 S_PAYLOAD) w (wire_payload mask mf data ++ rest)
  = ws_exec (at_ 0 mf pos S_OPCODE) (w ++ payload_events ctl data ++ end_events ctl fin) rest.
Proof.
  intros Hmf Hlen Hbm Hb Hr.
  assert (exists pos, (if truthy mf then unmask mask 0 (wire_payload mask mf data)
                       else mret (wire_payload mask mf data, 0)) = Ok (data, pos) /\ 0 <= pos < 4) as (pos & Hu & Hpos).
  { assert (mf = 0 \/ mf = 1) as [-> | ->] by lia; cbn; [by exists 0|]. by apply unmask_mask. }
  exists pos. split; [done|].
  assert (bytes (wire_payload mask mf data)) as Hbw.
  { unfold wire_payload. destruct (mf =? 1); [by apply apply_mask_bytes|done]. }
  assert (length (wire_payload mask mf data) = length data) as Hwl.
  { unfold wire_payload. destruct (mf =? 1); [apply apply_mask_length|done]. }
  revert Hu Hbw Hwl. generalize (wire_payload mask mf data) as wire. intros wire Hu Hbw Hwl.
  destruct wire as [|b wire]; [destruct data; [by (unfold zlen in Hlen; cbn in Hlen; lia)|done]|]. cbn [app].
  rewrite ws_execute_cons; [|split; cbn; first [done | lia | by intros _]|by apply (bytes_app (b :: wire))].
  change (ws_step (at_ (zlen data) mf 0 S_PAYLOAD) w b (wire ++ rest))
    with (step_payload (at_ (zlen data) mf 0 S_PAYLOAD) w ((b :: wire) ++ rest)).
  assert (zlen (b :: wire) = zlen data) as Hz by (unfold zlen; by rewrite Hwl).
  pose proof (zlen_nonneg rest).
  unfold step_payload. cbn [wp_bytes_remaining wp_mask_flag wp_mask wp_mask_pos at_ wp_control].
  assert (Z.min (zlen ((b :: wire) ++ rest)) (zlen data) = zlen data) as ->.
  { rewrite zlen_app, Hz. lia. }
  replace (Z.to_nat (zlen data)) with (length (b :: wire)) by (unfold zlen; lia).
  rewrite take_app_length, drop_app_length. rewrite Hu. cbn [mbind outcome_bind].
  unfold check_rc. change (wp_bytes_remaining (_ <| wp_mask_pos := pos |>)) with (zlen data).
  rewrite Z.sub_diag. change (wp_bytes_remaining (_ <| wp_bytes_remaining := 0 |>)) with 0. cbn [Z.eqb].
  change (wp_control (_ <| wp_mask_pos := pos |>)) with ctl.
  unfold payload_events, opt_event.
  destruct data as [|d data]; [by (unfold zlen in Hlen; cbn in Hlen; lia)|].
  destruct (truthy ctl) eqn:Hc; cbn [on_control_payload on_data_payload ws_recorder mbind outcome_bind truthy Z.eqb negb].
  all: by rewrite end_of_payload_any, <- app_assoc.
Qed.
End runs.

(** ** Whole frames *)

(** Between two frames. *)
Record boundary (frag : Z) (p : ws_parser_t) : Prop := {
  bd_wf : ws_wf p;
  bd_mask : bytes (wp_mask p);
  bd_state : wp_state p = S_OPCODE;
  bd_fragment : wp_fragment p = frag
}.

Lemma frame_opcode frag f :
  frame_ok frag f ->
  fr_opcode f ∈ [0; 1; 2; 8; 9; 10] /\ (fr_fin f = 0 \/ fr_fin f = 1)
  /\ (fr_opcode f = 0 -> frag = 1) /\ (is_control (fr_opcode f) = true -> fr_fin f = 1 /\ zlen (fr_payload f) <= 125).
Proof.
  intros [Hf Ho _ _]. unfold is_data, is_control, WS_FRAME_TEXT, WS_FRAME_BINARY, WS_FRAME_CLOSE, WS_FRAME_PING, WS_FRAME_PONG in *.
  assert (fr_opcode f = 0 \/ fr_opcode f = 1 \/ fr_opcode f = 2 \/ fr_opcode f = 8 \/ fr_opcode f = 9 \/ fr_opcode f = 10) as Hop by lia.
  repeat rewrite elem_of_cons. rewrite elem_of_nil. lia.
Qed.

Lemma opcode_run frag p (w : list ws_event) f rest :
  boundary frag p -> frame_ok frag f -> bytes rest ->
  exists rem mask mf pos, zlen mask = 4 /\ bytes mask /\ 0 <= rem /\ 0 <= pos < 4 /\
  ws_exec p w (fr_fin f * 128 + fr_opcode f :: rest)
  = ws_exec (mk_ws_parser rem mask (next_frag frag f) (fr_fin f) (c_bool (is_control (fr_opcode f))) mf pos S_LENGTH)
      (w ++ begin_events f) rest.
Proof.
  intros [Hwf Hbm Hst Hfr] Hf Hr. pose proof (frame_opcode _ _ Hf) as (Hop & Hfin & Hfrag & Hctl).
  destruct p as [rem mask fr fin0 ctl0 mf pos st]. cbn in Hst, Hfr, Hbm. subst st fr.
  exists rem, mask, mf, pos. destruct Hwf as [H1 H2 H3 H4]. cbn in H1, H2, H3. split_and!; try done; try lia.
  rewrite ws_execute_cons; [|by split|constructor; [|done]].
  - unfold next_frag, begin_events. clear Hf. destruct f as [fin op m data]. cbn [fr_fin fr_opcode fr_payload] in *.
    repeat rewrite elem_of_cons in Hop. rewrite elem_of_nil in Hop.
    destruct Hop as [-> | [-> | [-> | [-> | [-> | [-> | []]]]]]].
    + rewrite Hfrag by done. destruct Hfin as [-> | ->]; cbn -[app ws_parser_execute]; by rewrite app_nil_r.
    + by destruct Hfin as [-> | ->].
    + by destruct Hfin as [-> | ->].
    + by destruct (Hctl eq_refl) as [-> _].
    + by destruct (Hctl eq_refl) as [-> _].
    + by destruct (Hctl eq_refl) as [-> _].
  - unfold is_byte. clear -Hop Hfin. repeat rewrite elem_of_cons in Hop. rewrite elem_of_nil in Hop. lia.
Qed.

(** The rest of the frame after its length field. *)
Lemma body_run rem mask frag fin ctl mf pos (w : list ws_event) m data rest :
  zlen mask = 4 -> bytes mask -> 0 <= rem -> 0 <= pos < 4 ->
  match m with Some k => zlen k = 4 /\ bytes k | None => True end ->
  bytes data -> zlen data < 2 ^ 64 -> (truthy ctl = true -> zlen data <= 125) -> bytes rest ->
  exists p', boundary frag p' /\
  ws_exec (mk_ws_parser rem mask frag fin ctl mf pos S_LENGTH) w
    (match m with
     | None => ws_length 0 (zlen data) ++ data
     | Some k => ws_length 1 (zlen data) ++ k ++ apply_mask k 0 data
     end ++ rest)
  = ws_exec p' (w ++ payload_events ctl data ++ end_events ctl fin) rest.
Proof.
  intros Hm Hbm Hrem Hpos Hk Hb Hlen Hctl Hr. pose proof (zlen_nonneg data) as Hn.
  (* the payload, once the head has been read with the mask [k] in force *)
  assert (forall k b, zlen k = 4 -> bytes k -> 0 <= b <= 1 -> exists p', boundary frag p' /\
    ws_exec (after_head frag fin ctl (zlen data) k b) (w ++ head_events fin ctl (zlen data))
      (wire_payload k b data ++ rest)
    = ws_exec p' (w ++ payload_events ctl data ++ end_events ctl fin) rest) as Hbody.
  { intros k b Hk4 Hkb Hb1. destruct data as [|d data].
    - exists (mk_ws_parser 0 k frag fin ctl b 0 S_OPCODE). split; [by split; [by split|done..]|].
      unfold wire_payload. cbn [apply_mask]. by destruct (b =? 1).
    - destruct (ws_payload_run k frag fin ctl w Hk4 (d :: data) b rest) as (pos' & Hpos' & He); try done.
      exists (mk_ws_parser 0 k frag fin ctl b pos' S_OPCODE). split; [by split; [by split|done..]|].
      rewrite <- He. unfold after_head, head_events.
      destruct (Z.eqb_spec (zlen (d :: data)) 0) as [E|_].
      + rewrite zlen_cons in E. pose proof (zlen_nonneg data). lia.
      + by rewrite app_nil_r. }
  destruct m as [k|].
  - destruct Hk as [Hk4 Hkb]. destruct (Hbody k 1) as (p' & Hp' & He); try done.
    exists p'. split; [done|]. rewrite <- He. unfold wire_payload. cbn [Z.eqb Pos.eqb].
    rewrite <- !app_assoc.
    assert (bytes (k ++ apply_mask k 0 data ++ rest)) as Hbk.
    { rewrite !bytes_app. split_and!; [done|by apply apply_mask_bytes|done]. }
    rewrite length_run by (try done; lia). cbn [Z.eqb Pos.eqb].
    apply mask_run; [done..|]. by apply bytes_app in Hbk as [_ ?].
  - destruct (Hbody mask 0) as (p' & Hp' & He); try done.
    exists p'. split; [done|]. rewrite <- He. unfold wire_payload. cbn [Z.eqb].
    rewrite <- app_assoc. rewrite length_run; try done; try lia. by apply bytes_app.
Qed.

Lemma frame_bytes_bytes frag f : frame_ok frag f -> bytes (frame_bytes f).
Proof.
  intros Hf. pose proof (frame_opcode _ _ Hf) as (Hop & Hfin & _ & _). destruct Hf as [_ _ Hmask [Hpay _]].
  pose proof (zlen_nonneg (fr_payload f)). unfold frame_bytes. apply bytes_cons. split.
  - unfold is_byte. clear -Hop Hfin. repeat rewrite elem_of_cons in Hop. rewrite elem_of_nil in Hop. lia.
  - destruct (fr_mask f) as [k|]; rewrite !bytes_app.
    + destruct Hmask. split_and!; [by apply ws_length_bytes; lia|done|by apply apply_mask_bytes].
    + split_and!; [by apply ws_length_bytes; lia|done].
Qed.

Lemma frames_bytes frag fs : frames_ok frag fs -> bytes (concat (frame_bytes <$> fs)).
Proof.
  revert frag. induction fs as [|f fs IH]; intros frag Hfs; [by apply Forall_nil|]. destruct Hfs as [Hf Hfs].
  cbn [fmap list_fmap concat]. apply bytes_app. split; [by eapply frame_bytes_bytes|by eapply IH].
Qed.

Lemma frame_run frag p (w : list ws_event) f rest :
  boundary frag p -> frame_ok frag f -> bytes rest ->
  exists p', boundary (next_frag frag f) p' /\
    ws_exec p w (frame_bytes f ++ rest) = ws_exec p' (w ++ frame_events f) rest.
Proof.
  intros Hp Hf Hr. pose proof (frame_opcode _ _ Hf) as (_ & _ & _ & Hctl).
  pose proof Hf as [Hfin Hop Hmask [Hpay Hlen]].
  destruct (opcode_run frag p w f (tail (frame_bytes f) ++ rest)) as (rem & mask & mf & pos & H1 & H2 & H3 & H4 & He1); try done.
  { apply bytes_app. split; [|done]. by eapply bytes_cons, (frame_bytes_bytes frag). }
  destruct (body_run rem mask (next_frag frag f) (fr_fin f) (c_bool (is_control (fr_opcode f))) mf pos
    (w ++ begin_events f) (fr_mask f) (fr_payload f) rest) as (p' & Hp' & He); try done.
  { destruct (is_control _); [|done]. intros _. by apply Hctl. }
  exists p'. split; [done|]. rewrite <- app_assoc in He.
  transitivity (ws_exec p w (fr_fin f * 128 + fr_opcode f :: tail (frame_bytes f) ++ rest)); [done|].
  rewrite He1. exact He.
Qed.

Lemma ws_frames_run frag p (w : list ws_event) fs :
  boundary frag p -> frames_ok frag fs ->
  exists p', boundary (foldl next_frag frag fs) p' /\
    ws_exec p w (concat (frame_bytes <$> fs)) = Ok (WS_OK, Some p', w ++ concat (frame_events <$> fs)).
Proof.
  revert frag p w. induction fs as [|f fs IH]; intros frag p w Hp Hfs.
  { exists p. split; [done|]. cbn [fmap list_fmap concat]. by rewrite app_nil_r. }
  destruct Hfs as [Hf Hfs]. cbn [fmap list_fmap concat foldl].
  destruct (frame_run frag p w f (concat (frame_bytes <$> fs))) as (p1 & Hp1 & ->); [done|done|by eapply frames_bytes|].
  destruct (IH _ _ (w ++ frame_events f) Hp1 Hfs) as (p' & Hp' & ->).
  exists p'. split; [done|]. by rewrite <- app_assoc.
Qed.

(** C26. Frames are read as what they are: from the start of a frame, the bytes
    of any sequence of well-formed RFC 6455 frames (text, binary, continuation
    and control frames; masked with any key or not; payloads of 0 to 2^64-1
    bytes in the shortest length encoding) are accepted and make exactly the
    calls of the frames, in order, with the payloads unmasked, and leave the
    parser at the start of a frame. *)
Theorem ws_frames_read frag p (w : list ws_event) fs :
  boundary frag p -> frames_ok frag fs ->
  exists p', boundary (foldl next_frag frag fs) p' /\
    ws_exec p w (concat (frame_bytes <$> fs)) = Ok (WS_OK, Some p', w ++ concat (frame_events <$> fs)).
Proof. apply ws_frames_run. Qed.

Definition example_ws : ws_parser_t := mk_ws_parser 0 [0; 0; 0; 0] 0 0 0 0 0 S_OPCODE.

Definition example_frames : list ws_frame :=
  [mk_ws_frame 0 1 (Some [1; 2; 3; 4]) [72; 101; 108; 108; 111]; mk_ws_frame 1 9 None [];
   mk_ws_frame 1 0 (Some [9; 9; 9; 9]) [33]].

Example ws_frames_read_witness :
  concat (frame_bytes <$> example_frames)
  = [1; 133; 1; 2; 3; 4; 73; 103; 111; 104; 110; 137; 0; 128; 129; 9; 9; 9; 9; 40] /\
  exists p', boundary (foldl next_frag 0 example_frames) p' /\
    ws_exec example_ws [] (concat (frame_bytes <$> example_frames))
    = Ok (WS_OK, Some p', [] ++ concat (frame_events <$> example_frames)).
Proof.
  split; [by vm_compute|]. apply ws_frames_read.
  - split; [|by repeat constructor|done|done]. by split.
  - split_and!; try done; split; try done; cbn; try lia; try (split; [by repeat constructor|done]);
      first [by repeat constructor | by left | by right; left | by right; right].
Defined.

(** ** Buffers *)

(** A callback for payload that takes it in pieces: what it does with two
    pieces at once is what it does with one and then, if it did not refuse it
    and the client is still there, the other. *)
Definition piecewise {W} (cb : W -> list Z -> outcome (Z * W * bool)) : Prop :=
  forall w l1 l2, l1 <> [] -> l2 <> [] ->
  cb w (l1 ++ l2) = '(rc, w, alive) ← cb w l1; if truthy rc || negb alive then Ok (rc, w, alive) else cb w l2.

Section chunks.
Context {W : Type} `{WsCallbacks W}.

(** The same round with more input behind it. *)
Definition add_rest (k : list Z) (r : ws_res W) : ws_res W :=
  match r with
  | WsNext p w rest => WsNext p w (rest ++ k)
  | WsReturn rc p w => WsReturn rc p w
  end.

Definition add_to (k : list Z) (m : outcome (ws_res W)) : outcome (ws_res W) :=
  r ← m; Ok (add_rest k r).

Lemma add_check r p (f g : W -> outcome (ws_res W)) k :
  (forall w, g w = add_to k (f w)) -> check_rc r p g = add_to k (check_rc r p f).
Proof.
  intros Hg. unfold check_rc. destruct r as [[[rc w] alive]| | |]; try done. cbn [mbind outcome_bind].
  destruct (truthy rc); [done|]. by destruct alive.
Qed.

Lemma add_end p (w : W) rest k : end_of_payload p w (rest ++ k) = add_to k (end_of_payload p w rest).
Proof.
  unfold end_of_payload. destruct (truthy _ || truthy _); [|done]. by apply add_check.
Qed.

(** Outside a payload a round does not look at the input behind its byte. *)
Lemma ws_step_add p (w : W) b rest k :
  wp_state p <> S_PAYLOAD -> ws_step p w b (rest ++ k) = add_to k (ws_step p w b rest).
Proof.
  intros Hst. unfold ws_step. destruct (wp_state p) eqn:Hs; try done.
  - unfold step_opcode. destruct (truthy _); [done|]. destruct (_ =? 0); [by destruct (negb _)|].
    destruct (truthy _).
    + destruct (_ && _); [done|]. destruct (negb _); [done|]. by apply add_check.
    + destruct (_ && _); [done|]. by apply add_check.
  - unfold step_length. destruct (_ && _); [done|]. cbv zeta. destruct (_ && _); [apply add_end|done].
  - unfold step_long_length. by rewrite Hs.
  - unfold step_long_length, last_length. rewrite Hs. by destruct (_ <? _).
  - unfold step_long_length. by rewrite Hs.
  - unfold step_long_length. by rewrite Hs.
  - unfold step_long_length. by rewrite Hs.
  - unfold step_long_length. by rewrite Hs.
  - unfold step_long_length. by rewrite Hs.
  - unfold step_long_length. by rewrite Hs.
  - unfold step_long_length. by rewrite Hs.
  - unfold step_long_length, last_length. rewrite Hs. by destruct (_ <? _).
  - unfold step_mask. rewrite Hs. by destruct (arr_set _ _ _).
  - unfold step_mask. rewrite Hs. by destruct (arr_set _ _ _).
  - unfold step_mask. rewrite Hs. by destruct (arr_set _ _ _).
  - unfold step_mask. rewrite Hs. destruct (arr_set _ _ _); try done. cbn [mbind outcome_bind mret outcome_ret].
    destruct (_ =? 0); [apply add_end|done].
Qed.

Lemma unmask_app mask pos l1 l2 :
  unmask mask pos (l1 ++ l2)
  = '(o1, pos) ← unmask mask pos l1; '(o2, pos) ← unmask mask pos l2; Ok (o1 ++ o2, pos).
Proof.
  revert pos. induction l1 as [|b l1 IH]; intros pos; cbn [app unmask mbind outcome_bind mret outcome_ret].
  - by destruct (unmask mask pos l2) as [[]| | |].
  - destruct (arr_get mask pos); cbn [mbind outcome_bind]; try done. rewrite IH.
    destruct (unmask mask _ l1) as [[o1 p1]| | |]; cbn [mbind outcome_bind]; try done.
    by destruct (unmask mask p1 l2) as [[o2 p2]| | |] eqn:E; cbn; rewrite ?E.
Qed.

(** What follows a buffer that was read to its end. *)
Definition then_read (b : list Z) (m : outcome (Z * option ws_parser_t * W)) : outcome (Z * option ws_parser_t * W) :=
  '(rc, p, w) ← m;
  match p with
  | Some p => if truthy rc then Ok (rc, Some p, w) else ws_parser_execute p w b
  | None => Ok (rc, None, w)
  end.

(** A result, less the parser after an error code: that one is not used again. *)
Definition settled (m : outcome (Z * option ws_parser_t * W)) : outcome (Z * option ws_parser_t * W) :=
  '(rc, p, w) ← m; Ok (rc, if truthy rc then None else p, w).

Definition step_then (m : outcome (ws_res W)) : outcome (Z * option ws_parser_t * W) :=
  r ← m;
  match r with
  | WsNext p w rest => ws_parser_execute p w rest
  | WsReturn rc p w => Ok (rc, p, w)
  end.

(** A round that returns returns an error. *)
Definition only_errors (m : outcome (ws_res W)) : Prop :=
  forall rc p w, m = Ok (WsReturn rc p w) -> truthy rc = true.

Lemma errors_check r p k : (forall w, only_errors (k w)) -> only_errors (check_rc r p k).
Proof.
  intros Hk rc p' w'. unfold check_rc. destruct r as [[[rc1 w1] alive]| | |]; cbn; try done.
  destruct (truthy rc1) eqn:E; [by intros [= <- _ _]|]. destruct alive; [apply Hk|done].
Qed.

Lemma errors_end p (w : W) rest : only_errors (end_of_payload p w rest).
Proof. unfold end_of_payload. destruct (truthy _ || truthy _); [by apply errors_check|done]. Qed.

Lemma ws_step_errors p (w : W) b rest : only_errors (ws_step p w b rest).
Proof.
  assert (forall rc, truthy rc = true -> forall p (w : W), only_errors (Ok (WsReturn rc p w))) as Hrc.
  { intros rc Hrc p1 w1 rc' p' w' [= <- _ _]. done. }
  assert (forall l, only_errors (last_length p w b l rest)) as Hlast.
  { intros l. unfold last_length. destruct (_ <? _); [by apply Hrc|done]. }
  assert (forall i st, only_errors (p ← (mask ← arr_set (wp_mask p) i b;
    mret (p <| wp_mask := mask |> <| wp_state := st |>)); mret (WsNext p w rest))) as Hmask.
  { intros i st. by destruct (arr_set _ _ _). }
  unfold ws_step. destruct (wp_state p) eqn:Hst.
  - unfold step_opcode. destruct (truthy _); [by apply Hrc|]. destruct (_ =? 0); [destruct (negb _); [by apply Hrc|done]|].
    destruct (truthy _).
    + destruct (_ && _); [by apply Hrc|]. destruct (negb _); [by apply Hrc|]. by apply errors_check.
    + destruct (_ && _); [by apply Hrc|]. by apply errors_check.
  - unfold step_length. destruct (_ && _); [by apply Hrc|]. cbv zeta. destruct (_ && _); [apply errors_end|done].
  - unfold step_long_length. by rewrite Hst.
  - unfold step_long_length. by rewrite Hst.
  - unfold step_long_length. by rewrite Hst.
  - unfold step_long_length. by rewrite Hst.
  - unfold step_long_length. by rewrite Hst.
  - unfold step_long_length. by rewrite Hst.
  - unfold step_long_length. by rewrite Hst.
  - unfold step_long_length. by rewrite Hst.
  - unfold step_long_length. by rewrite Hst.
  - unfold step_long_length. by rewrite Hst.
  - unfold step_mask. by rewrite Hst.
  - unfold step_mask. by rewrite Hst.
  - unfold step_mask. by rewrite Hst.
  - unfold step_mask. rewrite Hst. destruct (arr_set _ _ _); try done. cbn [mbind outcome_bind mret outcome_ret].
    destruct (_ =? 0); [apply errors_end|done].
  - unfold step_payload. destruct (if truthy (wp_mask_flag p) then _ else _) as [[chunk pos]| | |]; try done.
    cbn [mbind outcome_bind]. apply errors_check. intros w'. destruct (_ =? 0); [apply errors_end|done].
Qed.

(** The payload ends in the first buffer. *)
Lemma payload_add p (w : W) a b :
  wp_bytes_remaining p <= zlen a -> step_payload p w (a ++ b) = add_to b (step_payload p w a).
Proof.
  intros Hle. unfold step_payload. rewrite zlen_app. pose proof (zlen_nonneg b).
  assert (Z.min (zlen a + zlen b) (wp_bytes_remaining p) = Z.min (zlen a) (wp_bytes_remaining p)) as -> by lia.
  set (n := Z.to_nat (Z.min (zlen a) (wp_bytes_remaining p))).
  assert (n <= length a)%nat by (unfold n, zlen in *; lia).
  rewrite take_app_le, drop_app_le by done.
  destruct (if truthy (wp_mask_flag p) then _ else _) as [[chunk pos]| | |]; try done.
  cbn [mbind outcome_bind]. apply add_check. intros w'.
  destruct (_ =? 0); [apply add_end|done].
Qed.

(** The payload goes on into the second buffer. *)
Lemma payload_cut p (w : W) a b :
  piecewise on_data_payload -> piecewise on_control_payload ->
  ws_wf p -> wp_state p = S_PAYLOAD -> a <> [] -> bytes b -> zlen a < wp_bytes_remaining p ->
  settled (step_then (step_payload p w (a ++ b))) = settled (then_read b (step_then (step_payload p w a))).
Proof.
  intros Hd Hc Hp Hst Ha Hbb Hlen. pose proof (ww_pos p Hp) as Hpos. pose proof (ww_mask p Hp) as Hmask.
  destruct b as [|x b].
  { rewrite app_nil_r. unfold then_read. destruct (step_then _) as [[[rc [p1|]] w1]| | |]; try done.
    cbn. destruct (truthy rc) eqn:E; cbn; rewrite ?E; [done|].
    unfold truthy in E. by destruct (Z.eqb_spec rc 0) as [->|]. }
  destruct p as [rem mask frag fin ctl mf pos st]. cbn in Hst, Hlen, Hpos, Hmask. subst st.
  pose proof (zlen_nonneg a). pose proof (zlen_nonneg b).
  set (n := Z.min (zlen (x :: b)) (rem - zlen a)).
  assert (0 < n <= zlen (x :: b)) as Hn by (unfold n; rewrite zlen_cons; lia).
  assert (take (Z.to_nat n) (x :: b) <> []) as Hne.
  { destruct (Z.to_nat n) eqn:E; [lia|done]. }
  unfold step_payload at 1 2. cbn [wp_bytes_remaining wp_mask_flag wp_mask wp_mask_pos wp_control].
  assert (Z.min (zlen (a ++ x :: b)) rem = zlen a + n) as -> by (rewrite zlen_app; unfold n; lia).
  assert (Z.min (zlen a) rem = zlen a) as -> by lia.
  replace (Z.to_nat (zlen a + n)) with (length a + Z.to_nat n)%nat by (unfold zlen; lia).
  replace (Z.to_nat (zlen a)) with (length a) by (unfold zlen; lia).
  rewrite take_app_add, drop_app_add, firstn_all, drop_all.
  assert (forall b, (if truthy mf then unmask mask pos (a ++ b) else mret (a ++ b, pos))
    = '(o1, pos) ← (if truthy mf then unmask mask pos a else mret (a, pos));
      '(o2, pos) ← (if truthy mf then unmask mask pos b else mret (b, pos)); Ok (o1 ++ o2, pos)) as Hun.
  { intros k. destruct (truthy mf); [apply unmask_app|done]. }
  rewrite Hun.
  destruct (if truthy mf then unmask mask pos a else mret (a, pos)) as [[o1 pos1]| | |] eqn:E1; try done.
  assert (0 <= pos1 < 4 /\ o1 <> []) as [Hpos1 Ho1].
  { destruct (truthy mf).
    - apply unmask_ok in E1 as [Hl ?]; [|done]. split; [done|]. by destruct o1, a.
    - by injection E1 as <- <-. }
  cbn [mbind outcome_bind].
  set (b1 := take (Z.to_nat n) (x :: b)) in *.
  assert (exists o2 pos2, (if truthy mf then unmask mask pos1 b1 else mret (b1, pos1)) = Ok (o2, pos2) /\ o2 <> [])
    as (o2 & pos2 & E2 & Ho2).
  { destruct (truthy mf); [|by eexists _, _].
    destruct (unmask_total mask pos1 b1) as [[o2 pos2] E]; [done|done|]. exists o2, pos2. split; [done|].
    apply unmask_ok in E as [Hl _]; [|done]. by destruct o2, b1. }
  rewrite E2. cbn [mbind outcome_bind].
  set (cb := if truthy ctl then on_control_payload else on_data_payload).
  assert (forall w l, (if truthy ctl then on_control_payload w l else on_data_payload w l) = cb w l) as Hcb.
  { intros. unfold cb. by destruct (truthy ctl). }
  assert (piecewise cb) as Hcbp by (unfold cb; by destruct (truthy ctl)).
  unfold upd. cbn -[Z.sub Z.eqb cb zlen n mbind]. rewrite !Hcb, Hcbp by done. unfold check_rc.
  destruct (cb w o1) as [[[rc w1] alive]| | |]; try done. cbn [mbind outcome_bind].
  destruct (truthy rc) eqn:Erc; cbn [orb].
  { cbn. rewrite Erc. by destruct alive; cbn; rewrite ?Erc; cbn; rewrite ?Erc. }
  destruct alive; [|by cbn; rewrite Erc]. cbn [orb negb].
  destruct (Z.eqb_spec (rem - zlen a) 0); [lia|].
  unfold step_then at 2. cbn [mbind outcome_bind mret outcome_ret then_read truthy Z.eqb negb ws_execute_nil].
  rewrite ws_execute_nil. cbn [mbind outcome_bind then_read truthy WS_OK Z.eqb negb].
  rewrite ws_execute_cons; [|by split; cbn; try done; lia|done].
  unfold ws_step, step_payload. cbn [wp_state wp_bytes_remaining wp_mask_flag wp_mask wp_mask_pos wp_control].
  change (Z.min (zlen (x :: b)) (rem - zlen a)) with n. change (take (Z.to_nat n) (x :: b)) with b1.
  rewrite E2. cbn [mbind outcome_bind]. rewrite Hcb. unfold check_rc, upd.
  destruct (cb w1 o2) as [[[rc2 w2] alive2]| | |]; try done. cbn -[Z.sub Z.eqb n zlen].
  destruct (truthy rc2) eqn:E3; [by destruct alive2; cbn; rewrite ?E3|]. destruct alive2; [|done].
  replace (rem - (zlen a + n)) with (rem - zlen a - n) by lia. done.
Qed.

Lemma then_read_settled m b : settled (then_read b m) = settled (then_read b (settled m)).
Proof.
  unfold settled, then_read. destruct m as [[[rc [p|]] w]| | |]; cbn; try done.
  - destruct (truthy rc) eqn:E; cbn; rewrite ?E; cbn; by rewrite ?E.
  - by destruct (truthy rc) eqn:E; cbn; rewrite ?E.
Qed.

(** C27. Cutting the stream into buffers anywhere does not change what is read:
    for callbacks that take payload in pieces, executing [a ++ b] at once and
    executing [a] and then [b] (if [a] was accepted) have the same result code,
    the same effects and leave the same parser. *)
Theorem ws_chunking p (w : W) a b :
  piecewise on_data_payload -> piecewise on_control_payload ->
  ws_wf p -> bytes a -> bytes b ->
  settled (ws_parser_execute p w (a ++ b)) = settled (then_read b (ws_parser_execute p w a)).
Proof.
  intros Hd Hc. revert p w. induction a as [a IH] using (induction_ltof1 _ length). unfold ltof in IH.
  intros p w Hp Ha Hb. destruct a as [|x a]; [done|]. cbn [app].
  rewrite !ws_execute_cons; [|done|done|done|by apply (bytes_app (x :: a))].
  change (settled (step_then (ws_step p w x (a ++ b))) = settled (then_read b (step_then (ws_step p w x a)))).
  assert (forall p' w' rest', ws_step p w x a = Ok (WsNext p' w' rest') ->
    settled (ws_parser_execute p' w' (rest' ++ b)) = settled (then_read b (ws_parser_execute p' w' rest'))) as Hnext.
  { intros p' w' rest' Hs. apply bytes_cons in Ha as [Hx Ha].
    destruct (ws_step_good p w x a Hp Hx _ _ _ Hs) as (Hp' & k & ->).
    apply IH; [cbn; rewrite length_app; lia|done|by apply bytes_app in Ha as [_ ?]|done]. }
  assert (ws_step p w x (a ++ b) = add_to b (ws_step p w x a) ->
    settled (step_then (ws_step p w x (a ++ b))) = settled (then_read b (step_then (ws_step p w x a)))) as Hadd.
  { intros ->. pose proof (ws_step_errors p w x a) as He.
    destruct (ws_step p w x a) as [[p' w' rest'|rc p' w']| | |]; try done.
    - by apply Hnext.
    - specialize (He _ _ _ eq_refl). destruct p' as [p'|]; [|done]. cbn. rewrite !He. cbn. by rewrite He. }
  destruct (decide (wp_state p = S_PAYLOAD)) as [Hst|Hst]; [|by apply Hadd, ws_step_add].
  destruct (decide (zlen (x :: a) < wp_bytes_remaining p)) as [Hl|Hl].
  - unfold ws_step. rewrite Hst. by apply (payload_cut p w (x :: a) b).
  - apply Hadd. unfold ws_step. rewrite Hst. apply (payload_add p w (x :: a) b). lia.
Qed.
End chunks.

#[local] Instance concat_callbacks : WsCallbacks (list Z) := {|
  on_data_begin w op := Ok (0, w, true);
  on_data_payload w l := Ok (0, w ++ l, true);
  on_data_end w := Ok (0, w, true);
  on_control_begin w op := Ok (0, w, true);
  on_control_payload w l := Ok (0, w, true);
  on_control_end w := Ok (0, w, true)
|}.

Example ws_chunking_witness :
  settled (ws_parser_execute example_ws [] ([130; 131; 1; 2; 3] ++ [4; 5; 6; 7; 137]))
  = settled (then_read [4; 5; 6; 7; 137] (ws_parser_execute example_ws [] [130; 131; 1; 2; 3]))
  /\ settled (ws_parser_execute example_ws [] ([130; 131; 1; 2; 3] ++ [4; 5; 6; 7; 137]))
  = Ok (0, Some (mk_ws_parser 0 [1; 2; 3; 4] 0 1 1 1 3 S_LENGTH), [4; 4; 4]).
Proof.
  split; [|by vm_compute]. apply ws_chunking.
  - intros w l1 l2 _ _. cbn. by rewrite app_assoc.
  - by intros w l1 l2 _ _.
  - by split.
  - by repeat constructor.
  - by repeat constructor.
Defined.
