(* ===== verification/Text.v ===== *)
(** * Strings and formatted output

    C strings as byte arrays, and what the source uses of printf formats:
    [%s], [%d] and [%ld]. *)

From S2P Require Import Prelude.
From Stdlib Require Import Ascii.
From Stdlib Require String.
Export String.StringSyntax.
Delimit Scope string_scope with str.

(** The bytes of a string literal, without the NUL. *)
Definition lit (s : String.string) : list Z := (fun a => Z.of_N (N_of_ascii a)) <$> String.list_ascii_of_string s.

(** A text in double quotes, and a field name of a JSON object with its colon. *)
Definition quoted (s : list Z) : list Z := [34] ++ s ++ [34].
Definition json_key (s : String.string) : list Z := quoted (lit s) ++ [58].

(** A [%s] argument, or the argument of a string function: the array must
    hold a NUL. *)
Definition c_string (l : list Z) : outcome (list Z) :=
  if has_nul l then Ok (c_str l) else Undef OutOfBounds.

(** [strcmp(a, b) == 0] *)
Definition strcmp_eq (a b : list Z) : outcome bool :=
  a ← c_string a; b ← c_string b; mret (bool_decide (a = b)).

(** Decimal digits, [fuel] of them at most. *)
Fixpoint digits (fuel : nat) (n : Z) : list Z :=
  match fuel with
  | O => []
  | S fuel => if n <? 10 then [48 + n] else digits fuel (n / 10) ++ [48 + n mod 10]
  end.

(** [%d] and [%ld]: a 64-bit number has at most 20 digits. *)
Definition dec (n : Z) : list Z := if n <? 0 then 45 :: digits 20 (- n) else digits 20 n.

(** [snprintf(buf, size, ...)] of a text: what is in [buf] after it; the
    result of the call is the length of the whole text. *)
Definition snprintf_buf (size : Z) (s : list Z) : list Z :=
  let k := take (Z.to_nat (size - 1)) s in
  k ++ replicate (Z.to_nat size - length k)%nat 0.

Lemma c_string_text s junk : Forall (fun b => b <> 0) s -> c_string (s ++ 0 :: junk) = Ok s.
Proof. intros Hs. unfold c_string. rewrite has_nul_app_cons. by rewrite c_str_app_nul. Qed.

Lemma zlen_snprintf_buf size s : 0 < size -> zlen (snprintf_buf size s) = size.
Proof.
  intros Hs. unfold snprintf_buf, zlen. rewrite length_app, length_replicate, length_take. lia.
Qed.
