(* ===== verification/HttpTypes.v ===== *)
(** * http_parser: data (src/http_parser.h, src/http_parser.c)

    The parser record, its enumerations, flags and character tables, as the
    library is compiled here: [HTTP_PARSER_STRICT] is 1 and the headers of a
    message may take 80 KiB.  A char is the unsigned byte; the library casts
    before it indexes a table, and its other comparisons are with ASCII. *)

From S2P Require Import Prelude Text.

Definition HTTP_MAX_HEADER_SIZE : Z := 80 * 1024.

(** The variable [max_header_size], a [uint32_t]: what the parser does is
    stated for every value of it. *)
Class HttpLimit := {
  max_header_size : Z;
  limit_range : 0 <= max_header_size < 2 ^ 32
}.

(** Its initial value, which nothing in the broker changes. *)
#[export] Instance default_limit : HttpLimit :=
  {| max_header_size := HTTP_MAX_HEADER_SIZE; limit_range := ltac:(unfold HTTP_MAX_HEADER_SIZE; lia) |}.

Definition http_parser_set_max_header_size (size : Z) : HttpLimit :=
  {| max_header_size := u32 size; limit_range := u32_range size |}.

Definition ULLONG_MAX : Z := 2 ^ 64 - 1.

(** ** Enumerations *)

Inductive http_state :=
  | s_dead | s_start_req_or_res | s_res_or_resp_H | s_start_res | s_res_H | s_res_HT | s_res_HTT
  | s_res_HTTP | s_res_http_major | s_res_http_dot | s_res_http_minor | s_res_http_end
  | s_res_first_status_code | s_res_status_code | s_res_status_start | s_res_status
  | s_res_line_almost_done | s_start_req | s_req_method | s_req_spaces_before_url | s_req_schema
  | s_req_schema_slash | s_req_schema_slash_slash | s_req_server_start | s_req_server
  | s_req_server_with_at | s_req_path | s_req_query_string_start | s_req_query_string
  | s_req_fragment_start | s_req_fragment | s_req_http_start | s_req_http_H | s_req_http_HT
  | s_req_http_HTT | s_req_http_HTTP | s_req_http_I | s_req_http_IC | s_req_http_major
  | s_req_http_dot | s_req_http_minor | s_req_http_end | s_req_line_almost_done
  | s_header_field_start | s_header_field | s_header_value_discard_ws
  | s_header_value_discard_ws_almost_done | s_header_value_discard_lws | s_header_value_start
  | s_header_value | s_header_value_lws | s_header_almost_done | s_chunk_size_start
  | s_chunk_size | s_chunk_parameters | s_chunk_size_almost_done | s_headers_almost_done
  | s_headers_done | s_chunk_data | s_chunk_data_almost_done | s_chunk_data_done
  | s_body_identity | s_body_identity_eof | s_message_done.

Definition state_num (x : http_state) : Z :=
  match x with
  | s_dead => 1 | s_start_req_or_res => 2 | s_res_or_resp_H => 3 | s_start_res => 4 | s_res_H => 5
  | s_res_HT => 6 | s_res_HTT => 7 | s_res_HTTP => 8 | s_res_http_major => 9
  | s_res_http_dot => 10 | s_res_http_minor => 11 | s_res_http_end => 12
  | s_res_first_status_code => 13 | s_res_status_code => 14 | s_res_status_start => 15
  | s_res_status => 16 | s_res_line_almost_done => 17 | s_start_req => 18 | s_req_method => 19
  | s_req_spaces_before_url => 20 | s_req_schema => 21 | s_req_schema_slash => 22
  | s_req_schema_slash_slash => 23 | s_req_server_start => 24 | s_req_server => 25
  | s_req_server_with_at => 26 | s_req_path => 27 | s_req_query_string_start => 28
  | s_req_query_string => 29 | s_req_fragment_start => 30 | s_req_fragment => 31
  | s_req_http_start => 32 | s_req_http_H => 33 | s_req_http_HT => 34 | s_req_http_HTT => 35
  | s_req_http_HTTP => 36 | s_req_http_I => 37 | s_req_http_IC => 38 | s_req_http_major => 39
  | s_req_http_dot => 40 | s_req_http_minor => 41 | s_req_http_end => 42
  | s_req_line_almost_done => 43 | s_header_field_start => 44 | s_header_field => 45
  | s_header_value_discard_ws => 46 | s_header_value_discard_ws_almost_done => 47
  | s_header_value_discard_lws => 48 | s_header_value_start => 49 | s_header_value => 50
  | s_header_value_lws => 51 | s_header_almost_done => 52 | s_chunk_size_start => 53
  | s_chunk_size => 54 | s_chunk_parameters => 55 | s_chunk_size_almost_done => 56
  | s_headers_almost_done => 57 | s_headers_done => 58 | s_chunk_data => 59
  | s_chunk_data_almost_done => 60 | s_chunk_data_done => 61 | s_body_identity => 62
  | s_body_identity_eof => 63 | s_message_done => 64
  end.

Lemma state_num_inj x y : state_num x = state_num y -> x = y.
Proof.
  assert (exists f : Z -> http_state, forall x, f (state_num x) = x) as [f Hf].
  { exists (fun n => nth (Z.to_nat n - 1) [
    s_dead; s_start_req_or_res; s_res_or_resp_H; s_start_res; s_res_H; s_res_HT; s_res_HTT;
    s_res_HTTP; s_res_http_major; s_res_http_dot; s_res_http_minor; s_res_http_end;
    s_res_first_status_code; s_res_status_code; s_res_status_start; s_res_status;
    s_res_line_almost_done; s_start_req; s_req_method; s_req_spaces_before_url; s_req_schema;
    s_req_schema_slash; s_req_schema_slash_slash; s_req_server_start; s_req_server;
    s_req_server_with_at; s_req_path; s_req_query_string_start; s_req_query_string;
    s_req_fragment_start; s_req_fragment; s_req_http_start; s_req_http_H; s_req_http_HT;
    s_req_http_HTT; s_req_http_HTTP; s_req_http_I; s_req_http_IC; s_req_http_major;
    s_req_http_dot; s_req_http_minor; s_req_http_end; s_req_line_almost_done;
    s_header_field_start; s_header_field; s_header_value_discard_ws;
    s_header_value_discard_ws_almost_done; s_header_value_discard_lws; s_header_value_start;
    s_header_value; s_header_value_lws; s_header_almost_done; s_chunk_size_start; s_chunk_size;
    s_chunk_parameters; s_chunk_size_almost_done; s_headers_almost_done; s_headers_done;
    s_chunk_data; s_chunk_data_almost_done; s_chunk_data_done; s_body_identity;
    s_body_identity_eof; s_message_done] s_dead).
    by intros []. }
  intros E. rewrite <- (Hf x), <- (Hf y). by rewrite E.
Qed.

#[export] Instance http_state_eq_dec : EqDecision http_state.
Proof.
  intros x y. refine (match Z.eq_dec (state_num x) (state_num y) with left E => left _ | right E => right _ end).
  - by apply state_num_inj.
  - intros ->. by apply E.
Defined.

Definition PARSING_HEADER (state : http_state) : bool := state_num state <=? state_num s_headers_done.

Inductive header_states :=
  | h_general | h_C | h_CO | h_CON | h_matching_connection | h_matching_proxy_connection
  | h_matching_content_length | h_matching_transfer_encoding | h_matching_upgrade | h_connection
  | h_content_length | h_content_length_num | h_content_length_ws | h_transfer_encoding
  | h_upgrade | h_matching_transfer_encoding_token_start | h_matching_transfer_encoding_chunked
  | h_matching_transfer_encoding_token | h_matching_connection_token_start
  | h_matching_connection_keep_alive | h_matching_connection_close
  | h_matching_connection_upgrade | h_matching_connection_token | h_transfer_encoding_chunked
  | h_connection_keep_alive | h_connection_close | h_connection_upgrade.

#[export] Instance header_states_eq_dec : EqDecision header_states.
Proof. solve_decision. Defined.

Inductive http_method :=
  | HTTP_DELETE | HTTP_GET | HTTP_HEAD | HTTP_POST | HTTP_PUT | HTTP_CONNECT | HTTP_OPTIONS
  | HTTP_TRACE | HTTP_COPY | HTTP_LOCK | HTTP_MKCOL | HTTP_MOVE | HTTP_PROPFIND | HTTP_PROPPATCH
  | HTTP_SEARCH | HTTP_UNLOCK | HTTP_BIND | HTTP_REBIND | HTTP_UNBIND | HTTP_ACL | HTTP_REPORT
  | HTTP_MKACTIVITY | HTTP_CHECKOUT | HTTP_MERGE | HTTP_MSEARCH | HTTP_NOTIFY | HTTP_SUBSCRIBE
  | HTTP_UNSUBSCRIBE | HTTP_PATCH | HTTP_PURGE | HTTP_MKCALENDAR | HTTP_LINK | HTTP_UNLINK
  | HTTP_SOURCE.

Definition method_num (x : http_method) : Z :=
  match x with
  | HTTP_DELETE => 0 | HTTP_GET => 1 | HTTP_HEAD => 2 | HTTP_POST => 3 | HTTP_PUT => 4
  | HTTP_CONNECT => 5 | HTTP_OPTIONS => 6 | HTTP_TRACE => 7 | HTTP_COPY => 8 | HTTP_LOCK => 9
  | HTTP_MKCOL => 10 | HTTP_MOVE => 11 | HTTP_PROPFIND => 12 | HTTP_PROPPATCH => 13
  | HTTP_SEARCH => 14 | HTTP_UNLOCK => 15 | HTTP_BIND => 16 | HTTP_REBIND => 17
  | HTTP_UNBIND => 18 | HTTP_ACL => 19 | HTTP_REPORT => 20 | HTTP_MKACTIVITY => 21
  | HTTP_CHECKOUT => 22 | HTTP_MERGE => 23 | HTTP_MSEARCH => 24 | HTTP_NOTIFY => 25
  | HTTP_SUBSCRIBE => 26 | HTTP_UNSUBSCRIBE => 27 | HTTP_PATCH => 28 | HTTP_PURGE => 29
  | HTTP_MKCALENDAR => 30 | HTTP_LINK => 31 | HTTP_UNLINK => 32 | HTTP_SOURCE => 33
  end.

Lemma method_num_inj x y : method_num x = method_num y -> x = y.
Proof. by destruct x, y. Qed.

#[export] Instance http_method_eq_dec : EqDecision http_method.
Proof.
  intros x y. refine (match Z.eq_dec (method_num x) (method_num y) with left E => left _ | right E => right _ end).
  - by apply method_num_inj.
  - intros ->. by apply E.
Defined.

Definition method_string (m : http_method) : String.string :=
  match m with
  | HTTP_DELETE => "DELETE"%str | HTTP_GET => "GET"%str | HTTP_HEAD => "HEAD"%str
  | HTTP_POST => "POST"%str | HTTP_PUT => "PUT"%str | HTTP_CONNECT => "CONNECT"%str
  | HTTP_OPTIONS => "OPTIONS"%str | HTTP_TRACE => "TRACE"%str | HTTP_COPY => "COPY"%str
  | HTTP_LOCK => "LOCK"%str | HTTP_MKCOL => "MKCOL"%str | HTTP_MOVE => "MOVE"%str
  | HTTP_PROPFIND => "PROPFIND"%str | HTTP_PROPPATCH => "PROPPATCH"%str
  | HTTP_SEARCH => "SEARCH"%str | HTTP_UNLOCK => "UNLOCK"%str | HTTP_BIND => "BIND"%str
  | HTTP_REBIND => "REBIND"%str | HTTP_UNBIND => "UNBIND"%str | HTTP_ACL => "ACL"%str
  | HTTP_REPORT => "REPORT"%str | HTTP_MKACTIVITY => "MKACTIVITY"%str
  | HTTP_CHECKOUT => "CHECKOUT"%str | HTTP_MERGE => "MERGE"%str | HTTP_MSEARCH => "M-SEARCH"%str
  | HTTP_NOTIFY => "NOTIFY"%str | HTTP_SUBSCRIBE => "SUBSCRIBE"%str
  | HTTP_UNSUBSCRIBE => "UNSUBSCRIBE"%str | HTTP_PATCH => "PATCH"%str | HTTP_PURGE => "PURGE"%str
  | HTTP_MKCALENDAR => "MKCALENDAR"%str | HTTP_LINK => "LINK"%str | HTTP_UNLINK => "UNLINK"%str
  | HTTP_SOURCE => "SOURCE"%str
  end.

(** [method_strings[m]], without its NUL. *)
Definition method_strings (m : http_method) : list Z := lit (method_string m).

Inductive http_errno :=
  | HPE_OK | HPE_CB_message_begin | HPE_CB_url | HPE_CB_header_field | HPE_CB_header_value
  | HPE_CB_headers_complete | HPE_CB_body | HPE_CB_message_complete | HPE_CB_status
  | HPE_CB_chunk_header | HPE_CB_chunk_complete | HPE_INVALID_EOF_STATE | HPE_HEADER_OVERFLOW
  | HPE_CLOSED_CONNECTION | HPE_INVALID_VERSION | HPE_INVALID_STATUS | HPE_INVALID_METHOD
  | HPE_INVALID_URL | HPE_INVALID_HOST | HPE_INVALID_PORT | HPE_INVALID_PATH
  | HPE_INVALID_QUERY_STRING | HPE_INVALID_FRAGMENT | HPE_LF_EXPECTED | HPE_INVALID_HEADER_TOKEN
  | HPE_INVALID_CONTENT_LENGTH | HPE_UNEXPECTED_CONTENT_LENGTH | HPE_INVALID_CHUNK_SIZE
  | HPE_INVALID_CONSTANT | HPE_INVALID_INTERNAL_STATE | HPE_STRICT | HPE_PAUSED | HPE_UNKNOWN
  | HPE_INVALID_TRANSFER_ENCODING.

#[export] Instance http_errno_eq_dec : EqDecision http_errno.
Proof. solve_decision. Defined.

Inductive http_parser_type := HTTP_REQUEST | HTTP_RESPONSE | HTTP_BOTH.

#[export] Instance http_parser_type_eq_dec : EqDecision http_parser_type.
Proof. solve_decision. Defined.

(** ** Flags *)

Definition F_CHUNKED : Z := 1.
Definition F_CONNECTION_KEEP_ALIVE : Z := 2.
Definition F_CONNECTION_CLOSE : Z := 4.
Definition F_CONNECTION_UPGRADE : Z := 8.
Definition F_TRAILING : Z := 16.
Definition F_UPGRADE : Z := 32.
Definition F_SKIPBODY : Z := 64.
Definition F_CONTENTLENGTH : Z := 128.
Definition F_TRANSFER_ENCODING : Z := 256.

(** ** The parser

    The widths of the bit fields that are counted up or computed: [index] has
    5 bits, [status_code] 16, [flags] 8, [extra_flags] 2. *)

Record http_parser := mk_http_parser {
  hp_type : http_parser_type;
  hp_flags : Z;
  hp_state : http_state;
  hp_header_state : header_states;
  hp_index : Z;
  hp_extra_flags : Z;
  hp_lenient_http_headers : Z;
  hp_nread : Z;
  hp_content_length : Z;
  hp_http_major : Z;
  hp_http_minor : Z;
  hp_status_code : Z;
  hp_method : http_method;
  hp_http_errno : http_errno;
  hp_upgrade : Z;
  hp_data : Z
}.
#[export] Instance eta_http_parser : Eta http_parser := fun p =>
  mk_http_parser (hp_type p) (hp_flags p) (hp_state p) (hp_header_state p) (hp_index p)
    (hp_extra_flags p) (hp_lenient_http_headers p) (hp_nread p) (hp_content_length p)
    (hp_http_major p) (hp_http_minor p) (hp_status_code p) (hp_method p) (hp_http_errno p)
    (hp_upgrade p) (hp_data p).

Definition start_state (parser : http_parser) : http_state :=
  if bool_decide (hp_type parser = HTTP_REQUEST) then s_start_req else s_start_res.

(** Of the parser it is given it keeps only [data]. *)
Definition http_parser_init (data : Z) (t : http_parser_type) : http_parser :=
  mk_http_parser t 0
    (match t with HTTP_REQUEST => s_start_req | HTTP_RESPONSE => s_start_res | HTTP_BOTH => s_start_req_or_res end)
    h_general 0 0 0 0 0 0 0 0 HTTP_DELETE HPE_OK 0 data.

Definition flag (parser : http_parser) (f : Z) : bool := truthy (Z.land (hp_flags parser) f).

(** [parser->extra_flags & (F_TRANSFER_ENCODING >> 8)] *)
Definition transfer_encoding_flag (parser : http_parser) : bool :=
  truthy (Z.land (hp_extra_flags parser) (Z.shiftr F_TRANSFER_ENCODING 8)).

Definition http_message_needs_eof (parser : http_parser) : bool :=
  if bool_decide (hp_type parser = HTTP_REQUEST) then false
  else if (hp_status_code parser / 100 =? 1) || (hp_status_code parser =? 204) ||
          (hp_status_code parser =? 304) || flag parser F_SKIPBODY then false
  else if transfer_encoding_flag parser && negb (flag parser F_CHUNKED) then true
  else if flag parser F_CHUNKED || negb (hp_content_length parser =? ULLONG_MAX) then false
  else true.

Definition http_should_keep_alive (parser : http_parser) : bool :=
  if (0 <? hp_http_major parser) && (0 <? hp_http_minor parser) then
    if flag parser F_CONNECTION_CLOSE then false else negb (http_message_needs_eof parser)
  else if negb (flag parser F_CONNECTION_KEEP_ALIVE) then false
  else negb (http_message_needs_eof parser).

Definition NEW_MESSAGE (parser : http_parser) : http_state :=
  if http_should_keep_alive parser then start_state parser else s_dead.

(** ** Characters *)

Definition CR : Z := 13.
Definition LF : Z := 10.

(** 256 entries; those the initialiser leaves out are 0. *)
Definition tokens : list Z :=
  [0; 0; 0; 0; 0; 0; 0; 0; 0; 0; 0; 0; 0; 0; 0; 0;
   0; 0; 0; 0; 0; 0; 0; 0; 0; 0; 0; 0; 0; 0; 0; 0;
   32; 33; 0; 35; 36; 37; 38; 39; 0; 0; 42; 43; 0; 45; 46; 0;
   48; 49; 50; 51; 52; 53; 54; 55; 56; 57; 0; 0; 0; 0; 0; 0;
   0; 97; 98; 99; 100; 101; 102; 103; 104; 105; 106; 107; 108; 109; 110; 111;
   112; 113; 114; 115; 116; 117; 118; 119; 120; 121; 122; 0; 0; 0; 94; 95;
   96; 97; 98; 99; 100; 101; 102; 103; 104; 105; 106; 107; 108; 109; 110; 111;
   112; 113; 114; 115; 116; 117; 118; 119; 120; 121; 122; 0; 124; 0; 126; 0]
  ++ replicate 128 0.

(** 256 entries; those the initialiser leaves out are 0, which is a digit. *)
Definition unhex : list Z :=
  [-1; -1; -1; -1; -1; -1; -1; -1; -1; -1; -1; -1; -1; -1; -1; -1;
   -1; -1; -1; -1; -1; -1; -1; -1; -1; -1; -1; -1; -1; -1; -1; -1;
   -1; -1; -1; -1; -1; -1; -1; -1; -1; -1; -1; -1; -1; -1; -1; -1;
   0; 1; 2; 3; 4; 5; 6; 7; 8; 9; -1; -1; -1; -1; -1; -1;
   -1; 10; 11; 12; 13; 14; 15; -1; -1; -1; -1; -1; -1; -1; -1; -1;
   -1; -1; -1; -1; -1; -1; -1; -1; -1; -1; -1; -1; -1; -1; -1; -1;
   -1; 10; 11; 12; 13; 14; 15; -1; -1; -1; -1; -1; -1; -1; -1; -1;
   -1; -1; -1; -1; -1; -1; -1; -1; -1; -1; -1; -1; -1; -1; -1; -1]
  ++ replicate 128 0.

(** One bit per character. *)
Definition normal_url_char : list Z :=
  [0; 0; 0; 0;
   2 + 4 + 16 + 32 + 64 + 128;
   1 + 2 + 4 + 8 + 16 + 32 + 64 + 128;
   1 + 2 + 4 + 8 + 16 + 32 + 64 + 128;
   1 + 2 + 4 + 8 + 16 + 32 + 64;
   1 + 2 + 4 + 8 + 16 + 32 + 64 + 128;
   1 + 2 + 4 + 8 + 16 + 32 + 64 + 128;
   1 + 2 + 4 + 8 + 16 + 32 + 64 + 128;
   1 + 2 + 4 + 8 + 16 + 32 + 64 + 128;
   1 + 2 + 4 + 8 + 16 + 32 + 64 + 128;
   1 + 2 + 4 + 8 + 16 + 32 + 64 + 128;
   1 + 2 + 4 + 8 + 16 + 32 + 64 + 128;
   1 + 2 + 4 + 8 + 16 + 32 + 64]
  ++ replicate 16 0.

(** An entry of a table with one for each unsigned char. *)
Definition entry (table : list Z) (i : Z) : Z := nth (Z.to_nat i) table 0.

Definition BIT_AT (a : list Z) (i : Z) : bool :=
  truthy (Z.land (entry a (Z.shiftr i 3)) (Z.shiftl 1 (Z.land i 7))).

Definition LOWER (c : Z) : Z := u8 (Z.lor c 32).
Definition IS_ALPHA (c : Z) : bool := (97 <=? LOWER c) && (LOWER c <=? 122).
Definition IS_NUM (c : Z) : bool := (48 <=? c) && (c <=? 57).
Definition IS_ALPHANUM (c : Z) : bool := IS_ALPHA c || IS_NUM c.
Definition IS_HEX (c : Z) : bool := IS_NUM c || ((97 <=? LOWER c) && (LOWER c <=? 102)).

(** One of the characters of a string. *)
Definition one_of (s : String.string) (c : Z) : bool := existsb (Z.eqb c) (lit s).

Definition IS_MARK (c : Z) : bool := one_of "-_.!~*'()"%str c.
Definition IS_USERINFO_CHAR (c : Z) : bool := IS_ALPHANUM c || IS_MARK c || one_of "%;:&=+$,"%str c.
Definition STRICT_TOKEN (c : Z) : Z := if c =? 32 then 0 else entry tokens (u8 c).
Definition TOKEN (c : Z) : Z := STRICT_TOKEN c.
Definition IS_URL_CHAR (c : Z) : bool := BIT_AT normal_url_char (u8 c).
Definition IS_HOST_CHAR (c : Z) : bool := IS_ALPHANUM c || one_of ".-"%str c.
Definition IS_HEADER_CHAR (c : Z) : bool :=
  (c =? CR) || (c =? LF) || (c =? 9) || ((31 <? u8 c) && negb (c =? 127)).

(** ** URLs *)

(** The state after a character of the URL; [s_dead] if it has no place there. *)
Definition parse_url_char (s : http_state) (c : Z) : http_state :=
  let server :=
    if c =? 47 (* / *) then s_req_path
    else if c =? 63 (* ? *) then s_req_query_string_start
    else if c =? 64 (* @ *) then s_req_server_with_at
    else if IS_USERINFO_CHAR c || (c =? 91) || (c =? 93) (* brackets *) then s_req_server
    else s_dead in
  if (c =? 32) || (c =? CR) || (c =? LF) then s_dead
  else if (c =? 9) || (c =? 12) then s_dead
  else
    match s with
    | s_req_spaces_before_url =>
        if (c =? 47) || (c =? 42) (* / or * *) then s_req_path
        else if IS_ALPHA c then s_req_schema else s_dead
    | s_req_schema =>
        if IS_ALPHA c then s else if c =? 58 (* : *) then s_req_schema_slash else s_dead
    | s_req_schema_slash => if c =? 47 then s_req_schema_slash_slash else s_dead
    | s_req_schema_slash_slash => if c =? 47 then s_req_server_start else s_dead
    | s_req_server_with_at => if c =? 64 then s_dead else server
    | s_req_server_start | s_req_server => server
    | s_req_path =>
        if IS_URL_CHAR c then s
        else if c =? 63 then s_req_query_string_start
        else if c =? 35 (* # *) then s_req_fragment_start else s_dead
    | s_req_query_string_start | s_req_query_string =>
        if IS_URL_CHAR c then s_req_query_string
        else if c =? 63 then s_req_query_string
        else if c =? 35 then s_req_fragment_start else s_dead
    | s_req_fragment_start =>
        if IS_URL_CHAR c then s_req_fragment
        else if c =? 63 then s_req_fragment
        else if c =? 35 then s else s_dead
    | s_req_fragment =>
        if IS_URL_CHAR c then s else if (c =? 63) || (c =? 35) then s else s_dead
    | _ => s_dead
    end.

(** ** Methods *)

(** The methods that begin like another one: the method assumed so far, the
    index and the character there, and the method it must be instead. *)
Definition method_switch : list (http_method * Z * Z * http_method) :=
  [(HTTP_POST, 1, 85 (* U *), HTTP_PUT);
   (HTTP_POST, 1, 65 (* A *), HTTP_PATCH);
   (HTTP_POST, 1, 82 (* R *), HTTP_PROPFIND);
   (HTTP_PUT, 2, 82 (* R *), HTTP_PURGE);
   (HTTP_CONNECT, 1, 72 (* H *), HTTP_CHECKOUT);
   (HTTP_CONNECT, 2, 80 (* P *), HTTP_COPY);
   (HTTP_MKCOL, 1, 79 (* O *), HTTP_MOVE);
   (HTTP_MKCOL, 1, 69 (* E *), HTTP_MERGE);
   (HTTP_MKCOL, 1, 45 (* - *), HTTP_MSEARCH);
   (HTTP_MKCOL, 2, 65 (* A *), HTTP_MKACTIVITY);
   (HTTP_MKCOL, 3, 65 (* A *), HTTP_MKCALENDAR);
   (HTTP_SUBSCRIBE, 1, 69 (* E *), HTTP_SEARCH);
   (HTTP_SUBSCRIBE, 1, 79 (* O *), HTTP_SOURCE);
   (HTTP_REPORT, 2, 66 (* B *), HTTP_REBIND);
   (HTTP_PROPFIND, 4, 80 (* P *), HTTP_PROPPATCH);
   (HTTP_LOCK, 1, 73 (* I *), HTTP_LINK);
   (HTTP_UNLOCK, 2, 83 (* S *), HTTP_UNSUBSCRIBE);
   (HTTP_UNLOCK, 2, 66 (* B *), HTTP_UNBIND);
   (HTTP_UNLOCK, 3, 73 (* I *), HTTP_UNLINK)].

Definition switch_method (m : http_method) (index c : Z) : option http_method :=
  match List.find (fun e => let '(m', i, c', _) := e in
                        bool_decide (m = m') && (index =? i) && (c =? c')) method_switch with
  | Some (_, _, _, new_meth) => Some new_meth
  | None => None
  end.

(** The method assumed from the first letter of a request. *)
Definition first_method (c : Z) : option http_method :=
  match c with
  | 65 => Some HTTP_ACL
  | 66 => Some HTTP_BIND
  | 67 => Some HTTP_CONNECT
  | 68 => Some HTTP_DELETE
  | 71 => Some HTTP_GET
  | 72 => Some HTTP_HEAD
  | 76 => Some HTTP_LOCK
  | 77 => Some HTTP_MKCOL
  | 78 => Some HTTP_NOTIFY
  | 79 => Some HTTP_OPTIONS
  | 80 => Some HTTP_POST
  | 82 => Some HTTP_REPORT
  | 83 => Some HTTP_SUBSCRIBE
  | 84 => Some HTTP_TRACE
  | 85 => Some HTTP_UNLOCK
  | _ => None
  end.
