(* ===== verification/HttpParser.v ===== *)
(** * http_parser: the parser (src/http_parser.c)

    [http_parser_execute] reads a buffer byte by byte and calls back for the
    parts of the message.  The local variables of the function are the record
    [exec]; pointers into the buffer are indices.  A case of its switch ends
    with [Next] ([break]), [Again] ([goto reexecute]) or [Done] ([return]);
    the macros that return when a callback fails take what follows them as an
    argument.  Failed assertions are [Halt]. *)

From S2P Require Import Prelude Text HttpTypes.

(** A callback returns its result, and the parser as it leaves it: it may
    pause it, or release it ([None]). *)
Definition http_cb (W : Type) : Type := W -> http_parser -> outcome (Z * W * option http_parser).
Definition http_data_cb (W : Type) : Type := W -> http_parser -> list Z -> outcome (Z * W * option http_parser).

(** [http_parser_settings]; a callback that is not set is [None]. *)
Class HttpCallbacks (W : Type) := {
  cb_message_begin : option (http_cb W);
  cb_url : option (http_data_cb W);
  cb_status : option (http_data_cb W);
  cb_header_field : option (http_data_cb W);
  cb_header_value : option (http_data_cb W);
  cb_headers_complete : option (http_cb W);
  cb_body : option (http_data_cb W);
  cb_message_complete : option (http_cb W);
  cb_chunk_header : option (http_cb W);
  cb_chunk_complete : option (http_cb W)
}.

Definition c_assert (cond : bool) : outcome unit := if cond then Ok tt else Halt.

(** The bytes of [data] from one index to another. *)
Definition span (data : list Z) (from until : Z) : outcome (list Z) :=
  if (0 <=? from) && (from <=? until) && (until <=? zlen data)
  then Ok (take (Z.to_nat (until - from)) (drop (Z.to_nat from) data))
  else Undef OutOfBounds.

(** ** Local variables *)

Inductive http_mark := M_header_field | M_header_value | M_url | M_body | M_status.

#[export] Instance http_mark_eq_dec : EqDecision http_mark.
Proof. solve_decision. Defined.

Record exec (W : Type) := mk_exec {
  x_parser : http_parser;
  x_w : W;
  x_p_state : http_state;
  x_nread : Z;
  x_p : Z;
  x_ch : Z;
  x_header_field_mark : option Z;
  x_header_value_mark : option Z;
  x_url_mark : option Z;
  x_body_mark : option Z;
  x_status_mark : option Z
}.
Arguments mk_exec {W}.
Arguments x_parser {W}.
Arguments x_w {W}.
Arguments x_p_state {W}.
Arguments x_nread {W}.
Arguments x_p {W}.
Arguments x_ch {W}.
Arguments x_header_field_mark {W}.
Arguments x_header_value_mark {W}.
Arguments x_url_mark {W}.
Arguments x_body_mark {W}.
Arguments x_status_mark {W}.
#[export] Instance eta_exec W : Eta (exec W) := fun x =>
  mk_exec (x_parser x) (x_w x) (x_p_state x) (x_nread x) (x_p x) (x_ch x) (x_header_field_mark x)
    (x_header_value_mark x) (x_url_mark x) (x_body_mark x) (x_status_mark x).

Inductive flow (W : Type) :=
  | Next (x : exec W)
  | Again (x : exec W)
  | Done (nparsed : Z) (parser : http_parser) (w : W).
Arguments Next {W} x.
Arguments Again {W} x.
Arguments Done {W} nparsed parser w.

Section execute.
Context {W : Type} `{HttpLimit} `{HttpCallbacks W}.

Definition get_mark (m : http_mark) (x : exec W) : option Z :=
  match m with
  | M_header_field => x_header_field_mark x
  | M_header_value => x_header_value_mark x
  | M_url => x_url_mark x
  | M_body => x_body_mark x
  | M_status => x_status_mark x
  end.

Definition set_mark (m : http_mark) (v : option Z) (x : exec W) : exec W :=
  match m with
  | M_header_field => x <| x_header_field_mark := v |>
  | M_header_value => x <| x_header_value_mark := v |>
  | M_url => x <| x_url_mark := v |>
  | M_body => x <| x_body_mark := v |>
  | M_status => x <| x_status_mark := v |>
  end.

(** [MARK(FOR)] *)
Definition MARK (m : http_mark) (x : exec W) : exec W :=
  match get_mark m x with None => set_mark m (Some (x_p x)) x | Some _ => x end.

(** Assignments to fields of the parser. *)
Definition set_state (st : http_state) (x : exec W) : exec W := x <| x_p_state := st |>.
Definition with_parser (f : http_parser -> http_parser) (x : exec W) : exec W :=
  x <| x_parser := f (x_parser x) |>.
Definition set_header_state (h : header_states) : exec W -> exec W :=
  with_parser (fun q => q <| hp_header_state := h |>).
Definition set_index (i : Z) : exec W -> exec W := with_parser (fun q => q <| hp_index := i |>).
Definition or_flags (f : Z) : exec W -> exec W :=
  with_parser (fun q => q <| hp_flags := Z.lor (hp_flags q) f |>).
Definition set_content_length (n : Z) : exec W -> exec W :=
  with_parser (fun q => q <| hp_content_length := n |>).

(** [parser->index++]: a field of five bits. *)
Definition inc_index (x : exec W) : exec W := set_index ((hp_index (x_parser x) + 1) mod 32) x.

(** [parser->nread = 0; nread = 0;] *)
Definition reset_nread (x : exec W) : exec W :=
  (with_parser (fun q => q <| hp_nread := 0 |>) x) <| x_nread := 0 |>.

(** ** The macros *)

(** [RETURN(V)] *)
Definition leave (n : Z) (x : exec W) : outcome (flow W) :=
  mret (Done n ((x_parser x) <| hp_nread := x_nread x |> <| hp_state := x_p_state x |>) (x_w x)).

(** [SET_ERRNO(e); goto error;] *)
Definition error (e : http_errno) (x : exec W) : outcome (flow W) :=
  leave (x_p x) (with_parser (fun q => q <| hp_http_errno := e |>) x).

Definition STRICT_CHECK (cond : bool) (x : exec W) (k : exec W -> outcome (flow W)) : outcome (flow W) :=
  if cond then error HPE_STRICT x else k x.

Definition COUNT_HEADER_SIZE (v : Z) (x : exec W) (k : exec W -> outcome (flow W)) : outcome (flow W) :=
  let x := x <| x_nread := u32 (x_nread x + u32 v) |> in
  if max_header_size <? x_nread x then error HPE_HEADER_OVERFLOW x else k x.

Definition no_error (parser : http_parser) : bool := bool_decide (hp_http_errno parser = HPE_OK).

(** What follows the call of a callback. *)
Definition after_callback (r : outcome (Z * W * option http_parser)) (e : http_errno) (er : Z)
    (x : exec W) (k : exec W -> outcome (flow W)) : outcome (flow W) :=
  '(rc, w, parser) ← r;
  match parser with
  | None => Undef UseAfterFree
  | Some parser =>
      let parser := if rc =? 0 then parser
                    else parser <| hp_nread := x_nread x |> <| hp_http_errno := e |> in
      if no_error parser
      then k (x <| x_parser := parser |> <| x_w := w |> <| x_p_state := hp_state parser |>)
      else mret (Done er parser w)
  end.

Definition CALLBACK_NOTIFY_ (cb : option (http_cb W)) (e : http_errno) (er : Z)
    (x : exec W) (k : exec W -> outcome (flow W)) : outcome (flow W) :=
  _ ← c_assert (no_error (x_parser x));
  match cb with
  | None => k x
  | Some f => after_callback (f (x_w x) ((x_parser x) <| hp_state := x_p_state x |>)) e er x k
  end.

Definition CALLBACK_NOTIFY (cb : option (http_cb W)) (e : http_errno) (x : exec W) :=
  CALLBACK_NOTIFY_ cb e (x_p x + 1) x.

Definition CALLBACK_NOTIFY_NOADVANCE (cb : option (http_cb W)) (e : http_errno) (x : exec W) :=
  CALLBACK_NOTIFY_ cb e (x_p x) x.

(** [settings->on_##FOR] and [HPE_CB_##FOR] *)
Definition data_callback (m : http_mark) : option (http_data_cb W) :=
  match m with
  | M_header_field => cb_header_field
  | M_header_value => cb_header_value
  | M_url => cb_url
  | M_body => cb_body
  | M_status => cb_status
  end.

Definition data_errno (m : http_mark) : http_errno :=
  match m with
  | M_header_field => HPE_CB_header_field
  | M_header_value => HPE_CB_header_value
  | M_url => HPE_CB_url
  | M_body => HPE_CB_body
  | M_status => HPE_CB_status
  end.

Variable data : list Z.
Variable lenient : bool.

(** [data + len] *)
#[local] Abbreviation len := (zlen data).

(** The bytes from the mark to the index [until]. *)
Definition CALLBACK_DATA_ (m : http_mark) (until er : Z) (x : exec W)
    (k : exec W -> outcome (flow W)) : outcome (flow W) :=
  _ ← c_assert (no_error (x_parser x));
  match get_mark m x with
  | None => k x
  | Some mark =>
      match data_callback m with
      | None => k (set_mark m None x)
      | Some f =>
          at_ ← span data mark until;
          after_callback (f (x_w x) ((x_parser x) <| hp_state := x_p_state x |>) at_) (data_errno m) er x
            (fun x => k (set_mark m None x))
      end
  end.

Definition CALLBACK_DATA (m : http_mark) (x : exec W) := CALLBACK_DATA_ m (x_p x) (x_p x + 1) x.
Definition CALLBACK_DATA_NOADVANCE (m : http_mark) (x : exec W) := CALLBACK_DATA_ m (x_p x) (x_p x) x.

(** [break] *)
Definition next (x : exec W) : outcome (flow W) := mret (Next x).
Definition again (x : exec W) : outcome (flow W) := mret (Again x).

(** ** The first line *)

Definition is_eol (ch : Z) : bool := (ch =? CR) || (ch =? LF).

Definition start_message : exec W -> exec W :=
  with_parser (fun q => q <| hp_flags := 0 |> <| hp_extra_flags := 0 |> <| hp_content_length := ULLONG_MAX |>).

Definition exec_dead (x : exec W) : outcome (flow W) :=
  if is_eol (x_ch x) then next x else error HPE_CLOSED_CONNECTION x.

Definition exec_start_req_or_res (x : exec W) : outcome (flow W) :=
  if is_eol (x_ch x) then next x
  else
    let x := start_message x in
    if x_ch x =? 72 (* H *) then
      CALLBACK_NOTIFY cb_message_begin HPE_CB_message_begin (set_state s_res_or_resp_H x) next
    else again (set_state s_start_req (with_parser (fun q => q <| hp_type := HTTP_REQUEST |>) x)).

Definition exec_res_or_resp_H (x : exec W) : outcome (flow W) :=
  if x_ch x =? 84 (* T *) then
    next (set_state s_res_HT (with_parser (fun q => q <| hp_type := HTTP_RESPONSE |>) x))
  else if negb (x_ch x =? 69 (* E *)) then error HPE_INVALID_CONSTANT x
  else next (set_state s_req_method (set_index 2
         (with_parser (fun q => q <| hp_type := HTTP_REQUEST |> <| hp_method := HTTP_HEAD |>) x))).

Definition exec_start_res (x : exec W) : outcome (flow W) :=
  if is_eol (x_ch x) then next x
  else
    let x := start_message x in
    if x_ch x =? 72 then
      CALLBACK_NOTIFY cb_message_begin HPE_CB_message_begin (set_state s_res_H x) next
    else error HPE_INVALID_CONSTANT x.

(** A state that takes one character only. *)
Definition expect (c : Z) (st : http_state) (x : exec W) : outcome (flow W) :=
  STRICT_CHECK (negb (x_ch x =? c)) x (fun x => next (set_state st x)).

(** The version: a digit, a point, a digit. *)
Definition exec_http_major (st : http_state) (x : exec W) : outcome (flow W) :=
  if negb (IS_NUM (x_ch x)) then error HPE_INVALID_VERSION x
  else next (set_state st (with_parser (fun q => q <| hp_http_major := x_ch x - 48 |>) x)).

Definition exec_http_dot (st : http_state) (x : exec W) : outcome (flow W) :=
  if negb (x_ch x =? 46 (* . *)) then error HPE_INVALID_VERSION x else next (set_state st x).

Definition exec_http_minor (st : http_state) (x : exec W) : outcome (flow W) :=
  if negb (IS_NUM (x_ch x)) then error HPE_INVALID_VERSION x
  else next (set_state st (with_parser (fun q => q <| hp_http_minor := x_ch x - 48 |>) x)).

Definition exec_res_http_end (x : exec W) : outcome (flow W) :=
  if negb (x_ch x =? 32) then error HPE_INVALID_VERSION x else next (set_state s_res_first_status_code x).

Definition exec_res_first_status_code (x : exec W) : outcome (flow W) :=
  if negb (IS_NUM (x_ch x)) then
    if x_ch x =? 32 then next x else error HPE_INVALID_STATUS x
  else next (set_state s_res_status_code (with_parser (fun q => q <| hp_status_code := x_ch x - 48 |>) x)).

Definition exec_res_status_code (x : exec W) : outcome (flow W) :=
  if negb (IS_NUM (x_ch x)) then
    if x_ch x =? 32 then next (set_state s_res_status_start x)
    else if is_eol (x_ch x) then again (set_state s_res_status_start x)
    else error HPE_INVALID_STATUS x
  else
    let x := with_parser (fun q => q <| hp_status_code := u16 (u16 (hp_status_code q * 10) + (x_ch x - 48)) |>) x in
    if 999 <? hp_status_code (x_parser x) then error HPE_INVALID_STATUS x else next x.

Definition exec_res_status_start (x : exec W) : outcome (flow W) :=
  let x := set_index 0 (set_state s_res_status (MARK M_status x)) in
  if is_eol (x_ch x) then again x else next x.

Definition exec_res_status (x : exec W) : outcome (flow W) :=
  if x_ch x =? CR then CALLBACK_DATA M_status (set_state s_res_line_almost_done x) next
  else if x_ch x =? LF then CALLBACK_DATA M_status (set_state s_header_field_start x) next
  else next x.

Definition exec_start_req (x : exec W) : outcome (flow W) :=
  if is_eol (x_ch x) then next x
  else
    let x := start_message x in
    if negb (IS_ALPHA (x_ch x)) then error HPE_INVALID_METHOD x
    else
      let x := set_index 1 (with_parser (fun q => q <| hp_method := HTTP_DELETE |>) x) in
      match first_method (x_ch x) with
      | None => error HPE_INVALID_METHOD x
      | Some m =>
          CALLBACK_NOTIFY cb_message_begin HPE_CB_message_begin
            (set_state s_req_method (with_parser (fun q => q <| hp_method := m |>) x)) next
      end.

Definition exec_req_method (x : exec W) : outcome (flow W) :=
  let ch := x_ch x in
  if ch =? 0 then error HPE_INVALID_METHOD x
  else
    let parser := x_parser x in
    matcher ← arr_get (method_strings (hp_method parser) ++ [0]) (hp_index parser);
    if (ch =? 32) && (matcher =? 0) then next (inc_index (set_state s_req_spaces_before_url x))
    else if ch =? matcher then next (inc_index x)
    else if ((65 <=? ch) && (ch <=? 90)) || (ch =? 45 (* - *)) then
      match switch_method (hp_method parser) (hp_index parser) ch with
      | Some m => next (inc_index (with_parser (fun q => q <| hp_method := m |>) x))
      | None => error HPE_INVALID_METHOD x
      end
    else error HPE_INVALID_METHOD x.

(** [UPDATE_STATE(parse_url_char(CURRENT_STATE(), ch))], with its check. *)
Definition url_char (x : exec W) : outcome (flow W) :=
  let x := set_state (parse_url_char (x_p_state x) (x_ch x)) x in
  if bool_decide (x_p_state x = s_dead) then error HPE_INVALID_URL x else next x.

Definition exec_req_spaces_before_url (x : exec W) : outcome (flow W) :=
  if x_ch x =? 32 then next x
  else
    let x := MARK M_url x in
    url_char (if bool_decide (hp_method (x_parser x) = HTTP_CONNECT) then set_state s_req_server_start x else x).

Definition exec_req_schema (x : exec W) : outcome (flow W) :=
  if (x_ch x =? 32) || is_eol (x_ch x) then error HPE_INVALID_URL x else url_char x.

Definition exec_req_url (x : exec W) : outcome (flow W) :=
  if x_ch x =? 32 then CALLBACK_DATA M_url (set_state s_req_http_start x) next
  else if is_eol (x_ch x) then
    let x := with_parser (fun q => q <| hp_http_major := 0 |> <| hp_http_minor := 9 |>) x in
    CALLBACK_DATA M_url
      (set_state (if x_ch x =? CR then s_req_line_almost_done else s_header_field_start) x) next
  else url_char x.

Definition exec_req_http_start (x : exec W) : outcome (flow W) :=
  if x_ch x =? 32 then next x
  else if x_ch x =? 72 (* H *) then next (set_state s_req_http_H x)
  else if (x_ch x =? 73 (* I *)) && bool_decide (hp_method (x_parser x) = HTTP_SOURCE)
  then next (set_state s_req_http_I x)
  else error HPE_INVALID_CONSTANT x.

Definition exec_req_http_end (x : exec W) : outcome (flow W) :=
  if x_ch x =? CR then next (set_state s_req_line_almost_done x)
  else if x_ch x =? LF then next (set_state s_header_field_start x)
  else error HPE_INVALID_VERSION x.

(** A state at the end of a line: LF, or an error. *)
Definition expect_LF (st : http_state) (x : exec W) : outcome (flow W) :=
  if negb (x_ch x =? LF) then error HPE_LF_EXPECTED x else next (set_state st x).

(** ** Header names *)

Definition PROXY_CONNECTION : list Z := lit "proxy-connection"%str.
Definition CONNECTION : list Z := lit "connection"%str.
Definition CONTENT_LENGTH : list Z := lit "content-length"%str.
Definition TRANSFER_ENCODING : list Z := lit "transfer-encoding"%str.
Definition UPGRADE : list Z := lit "upgrade"%str.
Definition CHUNKED : list Z := lit "chunked"%str.
Definition KEEP_ALIVE : list Z := lit "keep-alive"%str.
Definition CLOSE : list Z := lit "close"%str.

Definition exec_header_field_start (x : exec W) : outcome (flow W) :=
  if x_ch x =? CR then next (set_state s_headers_almost_done x)
  else if x_ch x =? LF then again (set_state s_headers_almost_done x)
  else
    let c := TOKEN (x_ch x) in
    if c =? 0 then error HPE_INVALID_HEADER_TOKEN x
    else
      let x := set_state s_header_field (set_index 0 (MARK M_header_field x)) in
      next (set_header_state
              (if c =? 99 (* c *) then h_C
               else if c =? 112 (* p *) then h_matching_proxy_connection
               else if c =? 116 (* t *) then h_matching_transfer_encoding
               else if c =? 117 (* u *) then h_matching_upgrade
               else h_general) x).

(** One character against a word: [fail], [found] at its last character,
    [state] in between.  The index is at most that of the NUL. *)
Definition match_word (word : list Z) (c : Z) (fail found state : header_states) (index : Z) : header_states :=
  if (zlen word <? index) || negb (c =? entry word index) then fail
  else if index =? zlen word - 1 then found
  else state.

(** [while (p+1 < pe && TOKEN(p[1])) p++;] *)
Fixpoint skip_tokens (fuel : nat) (p pe : Z) : outcome Z :=
  if p + 1 <? pe then
    match fuel with
    | O => Spin
    | S fuel => c ← arr_get data (p + 1); if TOKEN c =? 0 then mret p else skip_tokens fuel (p + 1) pe
    end
  else mret p.

(** [switch (parser->header_state)] for the character [ch] of a name, [c] in
    lower case. *)
Definition field_char (x : exec W) (ch c : Z) : outcome (exec W) :=
  let set f := let x := inc_index x in mret (set_header_state (f (hp_index (x_parser x))) x) in
  match hp_header_state (x_parser x) with
  | h_general =>
      p ← skip_tokens (length data) (x_p x) (x_p x + Z.min (len - x_p x) max_header_size);
      mret (x <| x_p := p |>)
  | h_C => set (fun _ => if c =? 111 (* o *) then h_CO else h_general)
  | h_CO => set (fun _ => if c =? 110 (* n *) then h_CON else h_general)
  | h_CON => set (fun _ => if c =? 110 then h_matching_connection
                           else if c =? 116 (* t *) then h_matching_content_length else h_general)
  | h_matching_connection => set (match_word CONNECTION c h_general h_connection h_matching_connection)
  | h_matching_proxy_connection =>
      set (match_word PROXY_CONNECTION c h_general h_connection h_matching_proxy_connection)
  | h_matching_content_length =>
      set (match_word CONTENT_LENGTH c h_general h_content_length h_matching_content_length)
  | h_matching_transfer_encoding =>
      x ← set (match_word TRANSFER_ENCODING c h_general h_transfer_encoding h_matching_transfer_encoding);
      mret (if bool_decide (hp_header_state (x_parser x) = h_transfer_encoding)
            then with_parser (fun q => q <| hp_extra_flags := Z.lor (hp_extra_flags q) (Z.shiftr F_TRANSFER_ENCODING 8) |>) x
            else x)
  | h_matching_upgrade => set (match_word UPGRADE c h_general h_upgrade h_matching_upgrade)
  | h_connection | h_content_length | h_transfer_encoding | h_upgrade =>
      mret (if negb (ch =? 32) then set_header_state h_general x else x)
  | _ => Halt
  end.

(** [for (; p != data + len; p++)] *)
Fixpoint field_loop (fuel : nat) (x : exec W) : outcome (exec W) :=
  if x_p x =? len then mret x
  else
    match fuel with
    | O => Spin
    | S fuel =>
        ch ← arr_get data (x_p x);
        let x := x <| x_ch := ch |> in
        let c := TOKEN ch in
        if c =? 0 then mret x
        else x ← field_char x ch c; field_loop fuel (x <| x_p := x_p x + 1 |>)
    end.

Definition exec_header_field (x : exec W) : outcome (flow W) :=
  let start := x_p x in
  x ← field_loop (length data) x;
  if x_p x =? len then
    let x := x <| x_p := x_p x - 1 |> in
    COUNT_HEADER_SIZE (x_p x - start) x next
  else
    COUNT_HEADER_SIZE (x_p x - start) x (fun x =>
      if x_ch x =? 58 (* : *) then CALLBACK_DATA M_header_field (set_state s_header_value_discard_ws x) next
      else error HPE_INVALID_HEADER_TOKEN x).

(** ** Header values *)

Definition exec_header_value_start (x : exec W) : outcome (flow W) :=
  let x := set_index 0 (set_state s_header_value (MARK M_header_value x)) in
  let ch := x_ch x in
  let c := LOWER ch in
  match hp_header_state (x_parser x) with
  | h_upgrade => next (set_header_state h_general (or_flags F_UPGRADE x))
  | h_transfer_encoding =>
      next (set_header_state (if 99 =? c then h_matching_transfer_encoding_chunked
                              else h_matching_transfer_encoding_token) x)
  | h_matching_transfer_encoding_token_start => next x
  | h_content_length =>
      if negb (IS_NUM ch) then error HPE_INVALID_CONTENT_LENGTH x
      else if flag (x_parser x) F_CONTENTLENGTH then error HPE_UNEXPECTED_CONTENT_LENGTH x
      else next (set_header_state h_content_length_num (set_content_length (ch - 48) (or_flags F_CONTENTLENGTH x)))
  | h_content_length_ws => next x
  | h_connection =>
      next (set_header_state (if c =? 107 (* k *) then h_matching_connection_keep_alive
                              else if c =? 99 (* c *) then h_matching_connection_close
                              else if c =? 117 (* u *) then h_matching_connection_upgrade
                              else h_matching_connection_token) x)
  | h_matching_connection_token_start => next x
  | _ => next (set_header_state h_general x)
  end.

Definition exec_header_value_discard_ws (x : exec W) : outcome (flow W) :=
  if (x_ch x =? 32) || (x_ch x =? 9) then next x
  else if x_ch x =? CR then next (set_state s_header_value_discard_ws_almost_done x)
  else if x_ch x =? LF then next (set_state s_header_value_discard_lws x)
  else exec_header_value_start x.

(** A character of a value: go on with a new [h_state], or an error. *)
Inductive value_step := Value (x : exec W) (h : header_states) | Stop (f : outcome (flow W)).

Definition bad_char (ch : Z) : bool := negb lenient && negb (IS_HEADER_CHAR ch).

(** [h_general]: to the last character before an end of line, or to [pe]. *)
Fixpoint skip_value (fuel : nat) (x : exec W) (pe : Z) : outcome value_step :=
  let at_end x := mret (Value (if x_p x =? len then x <| x_p := x_p x - 1 |> else x) h_general) in
  if x_p x =? pe then at_end x
  else
    match fuel with
    | O => Spin
    | S fuel =>
        ch ← arr_get data (x_p x);
        let x := x <| x_ch := ch |> in
        if is_eol ch then at_end (x <| x_p := x_p x - 1 |>)
        else if bad_char ch then mret (Stop (error HPE_INVALID_HEADER_TOKEN x))
        else skip_value fuel (x <| x_p := x_p x + 1 |>) pe
    end.

(** A digit of a content length. *)
Definition content_length_char (x : exec W) (ch : Z) : value_step :=
  let h_state := h_content_length_num in
  let bad := Stop (error HPE_INVALID_CONTENT_LENGTH (set_header_state h_state x)) in
  if ch =? 32 then Value x h_content_length_ws
  else if negb (IS_NUM ch) then bad
  else
    let n := hp_content_length (x_parser x) in
    let t := u64 (u64 (n * 10) + (ch - 48)) in
    if (ULLONG_MAX - 10) / 10 <? n then bad else Value (set_content_length t x) h_state.

(** A word in a value. *)
Definition value_word (x : exec W) (word : list Z) (c : Z) (fail found state : header_states) : value_step :=
  let x := inc_index x in Value x (match_word word c fail found state (hp_index (x_parser x))).

(** To the next element of a list after a comma. *)
Definition value_list (x : exec W) (ch : Z) (start state : header_states) : value_step :=
  if ch =? 44 (* , *) then Value (set_index 0 x) start else Value x state.

(** The flag for the option of a connection that has been read. *)
Definition connection_flag (h : header_states) : Z :=
  match h with
  | h_connection_keep_alive => F_CONNECTION_KEEP_ALIVE
  | h_connection_close => F_CONNECTION_CLOSE
  | h_connection_upgrade => F_CONNECTION_UPGRADE
  | _ => 0
  end.

Definition value_char (x : exec W) (h_state : header_states) (ch : Z) : outcome value_step :=
  let c := LOWER ch in
  match h_state with
  | h_general => skip_value (length data) x (x_p x + Z.min (len - x_p x) max_header_size)
  | h_connection | h_transfer_encoding => Halt
  | h_content_length =>
      mret (if ch =? 32 then Value x h_state else content_length_char x ch)
  | h_content_length_num => mret (content_length_char x ch)
  | h_content_length_ws =>
      mret (if ch =? 32 then Value x h_state
            else Stop (error HPE_INVALID_CONTENT_LENGTH (set_header_state h_state x)))
  | h_matching_transfer_encoding_token_start =>
      mret (Value x (if 99 =? c then h_matching_transfer_encoding_chunked
                     else if truthy (STRICT_TOKEN c) then h_matching_transfer_encoding_token
                     else if (c =? 32) || (c =? 9) then h_state
                     else h_general))
  | h_matching_transfer_encoding_chunked =>
      mret (value_word x CHUNKED c h_matching_transfer_encoding_token h_transfer_encoding_chunked h_state)
  | h_matching_transfer_encoding_token =>
      mret (value_list x ch h_matching_transfer_encoding_token_start h_state)
  | h_matching_connection_token_start =>
      mret (Value x (if c =? 107 (* k *) then h_matching_connection_keep_alive
                     else if c =? 99 (* c *) then h_matching_connection_close
                     else if c =? 117 (* u *) then h_matching_connection_upgrade
                     else if truthy (STRICT_TOKEN c) then h_matching_connection_token
                     else if (c =? 32) || (c =? 9) then h_state
                     else h_general))
  | h_matching_connection_keep_alive =>
      mret (value_word x KEEP_ALIVE c h_matching_connection_token h_connection_keep_alive h_state)
  | h_matching_connection_close =>
      mret (value_word x CLOSE c h_matching_connection_token h_connection_close h_state)
  | h_matching_connection_upgrade =>
      mret (value_word x UPGRADE c h_matching_connection_token h_connection_upgrade h_state)
  | h_matching_connection_token => mret (value_list x ch h_matching_connection_token_start h_state)
  | h_transfer_encoding_chunked =>
      mret (Value x (if negb (ch =? 32) then h_matching_transfer_encoding_token else h_state))
  | h_connection_keep_alive | h_connection_close | h_connection_upgrade =>
      mret (if ch =? 44 (* , *) then
              Value (set_index 0 (or_flags (connection_flag h_state) x)) h_matching_connection_token_start
            else Value x (if negb (ch =? 32) then h_matching_connection_token else h_state))
  | _ => mret (Value (set_state s_header_value x) h_general)
  end.

(** After the loop. *)
Definition value_done (start : Z) (h_state : header_states) (x : exec W) : outcome (flow W) :=
  let x := set_header_state h_state x in
  let x := if x_p x =? len then x <| x_p := x_p x - 1 |> else x in
  COUNT_HEADER_SIZE (x_p x - start) x next.

Fixpoint value_loop (fuel : nat) (start : Z) (x : exec W) (h_state : header_states) : outcome (flow W) :=
  if x_p x =? len then value_done start h_state x
  else
    match fuel with
    | O => Spin
    | S fuel =>
        ch ← arr_get data (x_p x);
        let x := x <| x_ch := ch |> in
        if ch =? CR then
          CALLBACK_DATA M_header_value (set_header_state h_state (set_state s_header_almost_done x))
            (value_done start h_state)
        else if ch =? LF then
          COUNT_HEADER_SIZE (x_p x - start) (set_state s_header_almost_done x) (fun x =>
            CALLBACK_DATA_NOADVANCE M_header_value (set_header_state h_state x) again)
        else if bad_char ch then error HPE_INVALID_HEADER_TOKEN x
        else
          r ← value_char x h_state ch;
          match r with
          | Value x h_state => value_loop fuel start (x <| x_p := x_p x + 1 |>) h_state
          | Stop f => f
          end
    end.

Definition exec_header_value (x : exec W) : outcome (flow W) :=
  value_loop (length data) (x_p x) x (hp_header_state (x_parser x)).

(** The flag that a finished header sets. *)
Definition finish_header (x : exec W) : exec W :=
  match hp_header_state (x_parser x) with
  | h_transfer_encoding_chunked => or_flags F_CHUNKED x
  | h => or_flags (connection_flag h) x
  end.

Definition exec_header_value_lws (x : exec W) : outcome (flow W) :=
  if (x_ch x =? 32) || (x_ch x =? 9) then
    let x := if bool_decide (hp_header_state (x_parser x) = h_content_length_num)
             then set_header_state h_content_length_ws x else x in
    again (set_state s_header_value_start x)
  else again (set_state s_header_field_start (finish_header x)).

Definition exec_header_value_discard_lws (x : exec W) : outcome (flow W) :=
  if (x_ch x =? 32) || (x_ch x =? 9) then next (set_state s_header_value_discard_ws x)
  else if bool_decide (hp_header_state (x_parser x) = h_content_length)
  then error HPE_INVALID_CONTENT_LENGTH x
  else
    let x := MARK M_header_value (finish_header x) in
    CALLBACK_DATA_NOADVANCE M_header_value (set_state s_header_field_start x) again.

(** ** The end of the headers *)

(** [parser->upgrade], set before [on_headers_complete]. *)
Definition upgrade_of (parser : http_parser) : bool :=
  if flag parser F_UPGRADE && flag parser F_CONNECTION_UPGRADE
  then bool_decide (hp_type parser = HTTP_REQUEST) || (hp_status_code parser =? 101)
  else bool_decide (hp_method parser = HTTP_CONNECT).

Definition headers_complete (x : exec W) (k : exec W -> outcome (flow W)) : outcome (flow W) :=
  match cb_headers_complete with
  | None => k x
  | Some f =>
      '(rc, w, parser) ← f (x_w x) (x_parser x);
      match parser with
      | None => Undef UseAfterFree
      | Some parser =>
          let x := x <| x_parser := parser |> <| x_w := w |> in
          if rc =? 0 then k x
          else if rc =? 2 then k (or_flags F_SKIPBODY (with_parser (fun q => q <| hp_upgrade := 1 |>) x))
          else if rc =? 1 then k (or_flags F_SKIPBODY x)
          else error HPE_CB_headers_complete x
      end
  end.

Definition exec_headers_almost_done (x : exec W) : outcome (flow W) :=
  STRICT_CHECK (negb (x_ch x =? LF)) x (fun x =>
    if flag (x_parser x) F_TRAILING then
      CALLBACK_NOTIFY_NOADVANCE cb_chunk_complete HPE_CB_chunk_complete (set_state s_message_done x) again
    else if transfer_encoding_flag (x_parser x) && flag (x_parser x) F_CONTENTLENGTH &&
            (negb lenient || flag (x_parser x) F_CHUNKED)
    then error HPE_UNEXPECTED_CONTENT_LENGTH x
    else
      let x := set_state s_headers_done x in
      headers_complete (with_parser (fun q => q <| hp_upgrade := c_bool (upgrade_of q) |>) x) (fun x =>
        if no_error (x_parser x) then again x else leave (x_p x) x)).

(** The end of a message. *)
Definition message_complete (x : exec W) (k : exec W -> outcome (flow W)) : outcome (flow W) :=
  CALLBACK_NOTIFY cb_message_complete HPE_CB_message_complete (set_state (NEW_MESSAGE (x_parser x)) x) k.

Definition has_body (parser : http_parser) : bool :=
  flag parser F_CHUNKED ||
  ((0 <? hp_content_length parser) && negb (hp_content_length parser =? ULLONG_MAX)).

Definition exec_headers_done (x : exec W) : outcome (flow W) :=
  STRICT_CHECK (negb (x_ch x =? LF)) x (fun x =>
    let x := reset_nread x in
    let parser := x_parser x in
    if truthy (hp_upgrade parser) &&
       (bool_decide (hp_method parser = HTTP_CONNECT) || flag parser F_SKIPBODY || negb (has_body parser))
    then message_complete x (fun x => leave (x_p x + 1) x)
    else if flag parser F_SKIPBODY then message_complete x next
    else if flag parser F_CHUNKED then next (set_state s_chunk_size_start x)
    else if transfer_encoding_flag parser then
      if bool_decide (hp_type parser = HTTP_REQUEST) && negb lenient
      then error HPE_INVALID_TRANSFER_ENCODING x
      else next (set_state s_body_identity_eof x)
    else if hp_content_length parser =? 0 then message_complete x next
    else if negb (hp_content_length parser =? ULLONG_MAX) then next (set_state s_body_identity x)
    else if negb (http_message_needs_eof parser) then message_complete x next
    else next (set_state s_body_identity_eof x)).

(** ** Bodies *)

(** As much of the body or chunk as the buffer holds; the last of its bytes is
    looked at once more. *)
Definition read_body (x : exec W) : outcome (exec W) :=
  let n := hp_content_length (x_parser x) in
  let to_read := Z.min n (u64 (len - x_p x)) in
  _ ← c_assert (negb (n =? 0) && negb (n =? ULLONG_MAX));
  let x := set_content_length (n - to_read) (MARK M_body x) in
  mret (x <| x_p := x_p x + (to_read - 1) |>).

Definition exec_body_identity (x : exec W) : outcome (flow W) :=
  x ← read_body x;
  if hp_content_length (x_parser x) =? 0 then
    CALLBACK_DATA_ M_body (x_p x + 1) (x_p x) (set_state s_message_done x) again
  else next x.

Definition exec_body_identity_eof (x : exec W) : outcome (flow W) :=
  next ((MARK M_body x) <| x_p := len - 1 |>).

Definition exec_message_done (x : exec W) : outcome (flow W) :=
  message_complete x (fun x =>
    if truthy (hp_upgrade (x_parser x)) then leave (x_p x + 1) x else next x).

Definition assert_chunked (x : exec W) : outcome unit := c_assert (flag (x_parser x) F_CHUNKED).

Definition exec_chunk_size_start (x : exec W) : outcome (flow W) :=
  _ ← c_assert (x_nread x =? 1);
  _ ← assert_chunked x;
  let unhex_val := entry unhex (u8 (x_ch x)) in
  if unhex_val =? -1 then error HPE_INVALID_CHUNK_SIZE x
  else next (set_state s_chunk_size (set_content_length unhex_val x)).

Definition exec_chunk_size (x : exec W) : outcome (flow W) :=
  _ ← assert_chunked x;
  let ch := x_ch x in
  if ch =? CR then next (set_state s_chunk_size_almost_done x)
  else
    let unhex_val := entry unhex (u8 ch) in
    if unhex_val =? -1 then
      if (ch =? 59 (* ; *)) || (ch =? 32) then next (set_state s_chunk_parameters x)
      else error HPE_INVALID_CHUNK_SIZE x
    else
      let n := hp_content_length (x_parser x) in
      let t := u64 (u64 (n * 16) + unhex_val) in
      if (ULLONG_MAX - 16) / 16 <? n then error HPE_INVALID_CONTENT_LENGTH x
      else next (set_content_length t x).

Definition exec_chunk_parameters (x : exec W) : outcome (flow W) :=
  _ ← assert_chunked x;
  if x_ch x =? CR then next (set_state s_chunk_size_almost_done x) else next x.

Definition exec_chunk_size_almost_done (x : exec W) : outcome (flow W) :=
  _ ← assert_chunked x;
  STRICT_CHECK (negb (x_ch x =? LF)) x (fun x =>
    let x := reset_nread x in
    let x := if hp_content_length (x_parser x) =? 0
             then set_state s_header_field_start (or_flags F_TRAILING x)
             else set_state s_chunk_data x in
    CALLBACK_NOTIFY cb_chunk_header HPE_CB_chunk_header x next).

Definition exec_chunk_data (x : exec W) : outcome (flow W) :=
  _ ← assert_chunked x;
  x ← read_body x;
  next (if hp_content_length (x_parser x) =? 0 then set_state s_chunk_data_almost_done x else x).

Definition exec_chunk_data_almost_done (x : exec W) : outcome (flow W) :=
  _ ← assert_chunked x;
  _ ← c_assert (hp_content_length (x_parser x) =? 0);
  STRICT_CHECK (negb (x_ch x =? CR)) x (fun x => CALLBACK_DATA M_body (set_state s_chunk_data_done x) next).

Definition exec_chunk_data_done (x : exec W) : outcome (flow W) :=
  _ ← assert_chunked x;
  STRICT_CHECK (negb (x_ch x =? LF)) x (fun x =>
    CALLBACK_NOTIFY cb_chunk_complete HPE_CB_chunk_complete (set_state s_chunk_size_start (reset_nread x)) next).

(** ** The switch and the loop *)

Definition exec_switch (x : exec W) : outcome (flow W) :=
  match x_p_state x with
  | s_dead => exec_dead x
  | s_start_req_or_res => exec_start_req_or_res x
  | s_res_or_resp_H => exec_res_or_resp_H x
  | s_start_res => exec_start_res x
  | s_res_H => expect 84 s_res_HT x
  | s_res_HT => expect 84 s_res_HTT x
  | s_res_HTT => expect 80 s_res_HTTP x
  | s_res_HTTP => expect 47 s_res_http_major x
  | s_res_http_major => exec_http_major s_res_http_dot x
  | s_res_http_dot => exec_http_dot s_res_http_minor x
  | s_res_http_minor => exec_http_minor s_res_http_end x
  | s_res_http_end => exec_res_http_end x
  | s_res_first_status_code => exec_res_first_status_code x
  | s_res_status_code => exec_res_status_code x
  | s_res_status_start => exec_res_status_start x
  | s_res_status => exec_res_status x
  | s_res_line_almost_done => expect LF s_header_field_start x
  | s_start_req => exec_start_req x
  | s_req_method => exec_req_method x
  | s_req_spaces_before_url => exec_req_spaces_before_url x
  | s_req_schema | s_req_schema_slash | s_req_schema_slash_slash | s_req_server_start => exec_req_schema x
  | s_req_server | s_req_server_with_at | s_req_path | s_req_query_string_start | s_req_query_string
  | s_req_fragment_start | s_req_fragment => exec_req_url x
  | s_req_http_start => exec_req_http_start x
  | s_req_http_H => expect 84 s_req_http_HT x
  | s_req_http_HT => expect 84 s_req_http_HTT x
  | s_req_http_HTT => expect 80 s_req_http_HTTP x
  | s_req_http_I => expect 67 s_req_http_IC x
  | s_req_http_IC => expect 69 s_req_http_HTTP x
  | s_req_http_HTTP => expect 47 s_req_http_major x
  | s_req_http_major => exec_http_major s_req_http_dot x
  | s_req_http_dot => exec_http_dot s_req_http_minor x
  | s_req_http_minor => exec_http_minor s_req_http_end x
  | s_req_http_end => exec_req_http_end x
  | s_req_line_almost_done => expect_LF s_header_field_start x
  | s_header_field_start => exec_header_field_start x
  | s_header_field => exec_header_field x
  | s_header_value_discard_ws => exec_header_value_discard_ws x
  | s_header_value_start => exec_header_value_start x
  | s_header_value => exec_header_value x
  | s_header_almost_done => expect_LF s_header_value_lws x
  | s_header_value_lws => exec_header_value_lws x
  | s_header_value_discard_ws_almost_done => expect LF s_header_value_discard_lws x
  | s_header_value_discard_lws => exec_header_value_discard_lws x
  | s_headers_almost_done => exec_headers_almost_done x
  | s_headers_done => exec_headers_done x
  | s_body_identity => exec_body_identity x
  | s_body_identity_eof => exec_body_identity_eof x
  | s_message_done => exec_message_done x
  | s_chunk_size_start => exec_chunk_size_start x
  | s_chunk_size => exec_chunk_size x
  | s_chunk_parameters => exec_chunk_parameters x
  | s_chunk_size_almost_done => exec_chunk_size_almost_done x
  | s_chunk_data => exec_chunk_data x
  | s_chunk_data_almost_done => exec_chunk_data_almost_done x
  | s_chunk_data_done => exec_chunk_data_done x
  end.

(** [reexecute:] at most four cases follow one another for one byte. *)
Fixpoint reexecute (fuel : nat) (x : exec W) : outcome (flow W) :=
  match fuel with
  | O => Spin
  | S fuel =>
      r ← exec_switch x;
      match r with Again x => reexecute fuel x | r => mret r end
  end.

(** The body of the loop. *)
Definition execute_byte (x : exec W) : outcome (flow W) :=
  ch ← arr_get data (x_p x);
  let x := x <| x_ch := ch |> in
  if PARSING_HEADER (x_p_state x) then COUNT_HEADER_SIZE 1 x (reexecute 5) else reexecute 5 x.

Definition count_marks (x : exec W) : Z :=
  let one m := c_bool (bool_decide (is_Some (get_mark m x))) in
  one M_header_field + one M_header_value + one M_url + one M_body + one M_status.

(** Out of bytes: callbacks for the mark that is left. *)
Definition execute_end (x : exec W) : outcome (flow W) :=
  _ ← c_assert (count_marks x <=? 1);
  CALLBACK_DATA_NOADVANCE M_header_field x (fun x =>
  CALLBACK_DATA_NOADVANCE M_header_value x (fun x =>
  CALLBACK_DATA_NOADVANCE M_url x (fun x =>
  CALLBACK_DATA_NOADVANCE M_body x (fun x =>
  CALLBACK_DATA_NOADVANCE M_status x (leave len))))).

(** Only [Done] comes out of [execute_end]. *)
Definition result (f : flow W) : outcome (Z * http_parser * W) :=
  match f with Done n parser w => mret (n, parser, w) | _ => Spin end.

(** [for (p=data; p != data + len; p++)] *)
Fixpoint execute_loop (fuel : nat) (x : exec W) : outcome (Z * http_parser * W) :=
  if x_p x =? len then f ← execute_end x; result f
  else
    match fuel with
    | O => Spin
    | S fuel =>
        r ← execute_byte x;
        match r with
        | Next x => execute_loop fuel (x <| x_p := x_p x + 1 |>)
        | r => result r
        end
    end.

End execute.
Arguments Value {W} x h.
Arguments Stop {W} f.

(** The marks at the start of a buffer. *)
Definition starts_in (st : http_state) : option http_mark :=
  match st with
  | s_header_field => Some M_header_field
  | s_header_value => Some M_header_value
  | s_req_path | s_req_schema | s_req_schema_slash | s_req_schema_slash_slash | s_req_server_start
  | s_req_server | s_req_server_with_at | s_req_query_string_start | s_req_query_string
  | s_req_fragment_start | s_req_fragment => Some M_url
  | s_res_status => Some M_status
  | _ => None
  end.

Definition initial_exec {W} (parser : http_parser) (w : W) : exec W :=
  let x := mk_exec parser w (hp_state parser) (hp_nread parser) 0 0 None None None None None in
  match starts_in (hp_state parser) with
  | Some m => set_mark m (Some 0) x
  | None => x
  end.

(** The end of the stream: [len == 0]. *)
Definition execute_eof {W} `{HttpCallbacks W} (parser : http_parser) (w : W) : outcome (Z * http_parser * W) :=
  match hp_state parser with
  | s_body_identity_eof =>
      f ← CALLBACK_NOTIFY_NOADVANCE cb_message_complete HPE_CB_message_complete (initial_exec parser w)
            (fun x => mret (Done 0 (x_parser x) (x_w x)));
      result f
  | s_dead | s_start_req_or_res | s_start_res | s_start_req => mret (0, parser, w)
  | _ => mret (1, parser <| hp_http_errno := HPE_INVALID_EOF_STATE |>, w)
  end.

(** The number of bytes parsed, the parser and the state of the program. *)
Definition http_parser_execute {W} `{HttpCallbacks W} (parser : http_parser) (w : W) (data : list Z)
  : outcome (Z * http_parser * W) :=
  if negb (no_error parser) then mret (0, parser, w)
  else if zlen data =? 0 then execute_eof parser w
  else execute_loop data (truthy (hp_lenient_http_headers parser)) (length data) (initial_exec parser w).
