(* ===== verification/HttpNames.v ===== *)
(** * http_parser: names and words (src/http_parser.c)

    The automata inside the parser as functions of characters: methods, URLs,
    header names and the options of a Connection header, each against the
    words it is to recognise. *)

From S2P Require Import Prelude Text HttpTypes HttpParser.

(** ** Methods *)

(** The method assumed after the character [c] at the index [i]. *)
Definition method_next (m : http_method) (i c : Z) : option http_method :=
  if zlen (method_strings m) <? i then None
  else if (c =? 0) || (c =? 32) then None
  else if c =? entry (method_strings m ++ [0]) i then Some m
  else if ((65 <=? c) && (c <=? 90)) || (c =? 45) then switch_method m i c
  else None.

Fixpoint method_run (m : http_method) (i : Z) (l : list Z) : option (http_method * Z) :=
  match l with
  | [] => Some (m, i)
  | c :: l => match method_next m i c with Some m => method_run m (i + 1) l | None => None end
  end.

(** Every method is told from the others by its characters. *)
Lemma method_recognised m :
  exists c l m1, method_strings m = c :: l /\ IS_ALPHA c = true /\ first_method c = Some m1 /\
    method_run m1 1 l = Some (m, zlen (method_strings m)).
Proof. destruct m; (eexists _, _, _; split; [reflexivity|]; split; [reflexivity|]; split; reflexivity). Qed.

Lemma zlen_method m : 3 <= zlen (method_strings m) <= 11.
Proof. destruct m; cbv; split; congruence. Qed.

Lemma arr_get_entry l i : 0 <= i < zlen l -> arr_get l i = Ok (entry l i).
Proof.
  intros [H1 H2]. unfold entry. apply arr_get_ok; [done|].
  destruct (lookup_lt_is_Some_2 l (Z.to_nat i)) as [c Hc]; [unfold zlen in H2; lia|].
  rewrite Hc. f_equal. symmetry. by apply nth_lookup_Some with (d := 0) in Hc.
Qed.

(** ** URLs *)

(** The states inside a URL, and those in which it may end. *)
Definition url_may_end (st : http_state) : bool :=
  match st with
  | s_req_server | s_req_server_with_at | s_req_path | s_req_query_string_start | s_req_query_string
  | s_req_fragment_start | s_req_fragment => true
  | _ => false
  end.

Definition in_url (st : http_state) : bool :=
  url_may_end st ||
  match st with
  | s_req_schema | s_req_schema_slash | s_req_schema_slash_slash | s_req_server_start => true
  | _ => false
  end.

Definition url_end (url : list Z) : http_state := fold_left parse_url_char url s_req_spaces_before_url.

Lemma parse_url_dead l : fold_left parse_url_char l s_dead = s_dead.
Proof.
  induction l as [|c l IH]; [done|]. cbn [fold_left]. rewrite <- IH at 2. f_equal. unfold parse_url_char.
  by destruct ((c =? 32) || (c =? CR) || (c =? LF)), ((c =? 9) || (c =? 12)).
Qed.

Lemma parse_url_not_blank s c : parse_url_char s c <> s_dead -> (c =? 32) = false /\ is_eol c = false.
Proof.
  unfold parse_url_char, is_eol. destruct (c =? 32), (c =? CR), (c =? LF); by cbn.
Qed.

(** Every character of a URL leads to a state of URLs. *)
Lemma parse_url_in_url s c : parse_url_char s c <> s_dead -> in_url (parse_url_char s c) = true.
Proof.
  unfold parse_url_char. destruct ((c =? 32) || (c =? CR) || (c =? LF)); [done|].
  destruct ((c =? 9) || (c =? 12)); [done|]. destruct s; try done;
    repeat match goal with |- context [if ?b then _ else _] => destruct b end; done.
Qed.

(** ** Header names *)

(** A name in lower case, for characters that may stand in a name. *)
Definition lower (l : list Z) : list Z := TOKEN <$> l.

Definition name_char (c : Z) : Prop := TOKEN c <> 0.

(** The states for the beginnings of a word that have at least [from] characters. *)
Definition prefix_states (word : list Z) (from : nat) (state found : header_states) : list (list Z * header_states) :=
  (fun n => (take n word, if Nat.eqb n (length word) then found else state)) <$> seq from (S (length word) - from).

Definition name_states : list (list Z * header_states) :=
  [(take 1 CONNECTION, h_C); (take 2 CONNECTION, h_CO); (take 3 CONNECTION, h_CON)]
  ++ prefix_states CONNECTION 4 h_matching_connection h_connection
  ++ prefix_states CONTENT_LENGTH 4 h_matching_content_length h_content_length
  ++ prefix_states PROXY_CONNECTION 1 h_matching_proxy_connection h_connection
  ++ prefix_states TRANSFER_ENCODING 1 h_matching_transfer_encoding h_transfer_encoding
  ++ prefix_states UPGRADE 1 h_matching_upgrade h_upgrade.

Definition state_in (table : list (list Z * header_states)) (other : header_states) (l : list Z) : header_states :=
  match List.find (fun e => bool_decide (e.1 = l)) table with Some e => e.2 | None => other end.

(** The header state of a name that begins with [l], in lower case. *)
Definition name_state (l : list Z) : header_states := state_in name_states h_general l.

(** The header state after one more character, whose index is [i]. *)
Definition name_next (h : header_states) (i c : Z) : header_states :=
  match h with
  | h_C => if c =? 111 then h_CO else h_general
  | h_CO => if c =? 110 then h_CON else h_general
  | h_CON => if c =? 110 then h_matching_connection else if c =? 116 then h_matching_content_length else h_general
  | h_matching_connection => match_word CONNECTION c h_general h_connection h_matching_connection i
  | h_matching_proxy_connection => match_word PROXY_CONNECTION c h_general h_connection h_matching_proxy_connection i
  | h_matching_content_length => match_word CONTENT_LENGTH c h_general h_content_length h_matching_content_length i
  | h_matching_transfer_encoding =>
      match_word TRANSFER_ENCODING c h_general h_transfer_encoding h_matching_transfer_encoding i
  | h_matching_upgrade => match_word UPGRADE c h_general h_upgrade h_matching_upgrade i
  | _ => h_general
  end.

(** A table whose states follow one another: for its own words by computation,
    for others because they cannot grow into one of them. *)
Definition table_next (table : list (list Z * header_states)) (other : header_states)
    (next : header_states -> Z -> Z -> header_states) (chars : list Z) : bool :=
  forallb (fun e => forallb (fun c => bool_decide (next e.2 (zlen e.1) c = state_in table other (e.1 ++ [c]))) chars) table &&
  forallb (fun e => (length e.1 <=? 1)%nat || existsb (fun e' => bool_decide (e'.1 = removelast e.1)) table) table.

Lemma state_in_spec table other l :
  (exists e, e ∈ table /\ e.1 = l /\ state_in table other l = e.2) \/
  ((forall e, e ∈ table -> e.1 <> l) /\ state_in table other l = other).
Proof.
  unfold state_in. destruct (List.find _ table) as [e|] eqn:E.
  - left. apply List.find_some in E as [He Hl]. exists e. split; [by apply list_elem_of_In|]. split; [|done].
    by apply bool_decide_eq_true in Hl.
  - right. split; [|done]. intros e He Hl. apply list_elem_of_In in He.
    pose proof (List.find_none _ _ E e He) as Hn. cbv beta in Hn. by rewrite bool_decide_true in Hn.
Qed.

Lemma state_next table other next chars l c :
  table_next table other next chars = true -> (forall i c, next other i c = other) -> l <> [] -> c ∈ chars ->
  next (state_in table other l) (zlen l) c = state_in table other (l ++ [c]).
Proof.
  intros Ht Ho Hl Hc. apply andb_true_iff in Ht as [Hin Hout]. rewrite forallb_forall in Hin, Hout.
  destruct (state_in_spec table other l) as [(e & He & <- & ->)|[Hno ->]].
  - apply list_elem_of_In in He, Hc. specialize (Hin e He). rewrite forallb_forall in Hin.
    specialize (Hin c Hc). by apply bool_decide_eq_true in Hin.
  - rewrite Ho. destruct (state_in_spec table other (l ++ [c])) as [(e & He & E & _)|[_ ->]]; [exfalso|done].
    apply list_elem_of_In in He. specialize (Hout e He). rewrite E in Hout. apply orb_true_iff in Hout as [Hlen|Hex].
    + apply Nat.leb_le in Hlen. rewrite length_app in Hlen. cbn [length] in Hlen. destruct l; [done|cbn [length] in Hlen; lia].
    + apply existsb_exists in Hex as (e' & He' & E'). apply bool_decide_eq_true in E'.
      rewrite removelast_last in E'. apply (Hno e'); [by apply list_elem_of_In|done].
Qed.

Lemma token_byte c : TOKEN c ∈ seqZ 0 256.
Proof.
  unfold TOKEN, STRICT_TOKEN. destruct (c =? 32); [by apply elem_of_seqZ|].
  assert (forall l i, Forall (fun x => x ∈ seqZ 0 256) l -> nth i l 0 ∈ seqZ 0 256) as Hn.
  { intros l i Hl. destruct (nth_in_or_default i l 0) as [Hi| ->]; [|by apply elem_of_seqZ].
    rewrite Forall_forall in Hl. apply Hl. by apply list_elem_of_In. }
  unfold entry. apply Hn. apply Forall_forall. intros x Hx. apply elem_of_seqZ.
  assert (forallb (fun x => (0 <=? x) && (x <? 256)) tokens = true) as Ht by (vm_compute; reflexivity).
  rewrite forallb_forall in Ht. apply list_elem_of_In in Hx. specialize (Ht x Hx). lia.
Qed.

Lemma name_state_next l c :
  l <> [] -> name_next (name_state l) (zlen l) (TOKEN c) = name_state (l ++ [TOKEN c]).
Proof.
  intros Hl. apply (state_next _ _ _ (seqZ 0 256)); [vm_compute; reflexivity|done|done|apply token_byte].
Qed.

(** The header states that a name can be in. *)
Definition in_name (h : header_states) : bool :=
  match h with
  | h_general | h_C | h_CO | h_CON | h_matching_connection | h_matching_proxy_connection
  | h_matching_content_length | h_matching_transfer_encoding | h_matching_upgrade | h_connection
  | h_content_length | h_transfer_encoding | h_upgrade => true
  | _ => false
  end.

Lemma state_in_forall table other (P : header_states -> bool) l :
  forallb (fun e => P e.2) table = true -> P other = true -> P (state_in table other l) = true.
Proof.
  intros Ht Ho. rewrite forallb_forall in Ht.
  destruct (state_in_spec table other l) as [(e & He & _ & ->)|[_ ->]]; [|done].
  apply Ht. by apply list_elem_of_In.
Qed.

Lemma name_state_in_name l : in_name (name_state l) = true.
Proof. apply state_in_forall; [vm_compute; reflexivity|done]. Qed.

(** The words that lead to a state. *)
Lemma state_in_words table other h (words : list (list Z)) l :
  forallb (fun e => negb (bool_decide (e.2 = h)) || bool_decide (e.1 ∈ words)) table = true -> h <> other ->
  state_in table other l = h -> l ∈ words.
Proof.
  intros Ht Ho E. rewrite forallb_forall in Ht. destruct (state_in_spec table other l) as [(e & He & <- & Est)|[_ Est]]; [|congruence].
  apply list_elem_of_In in He. specialize (Ht e He). rewrite bool_decide_true in Ht by congruence.
  by apply bool_decide_eq_true in Ht.
Qed.

Lemma name_state_word l h (words : list (list Z)) :
  forallb (fun e => negb (bool_decide (e.2 = h)) || bool_decide (e.1 ∈ words)) name_states = true ->
  forallb (fun w => bool_decide (name_state w = h)) words = true -> h <> h_general ->
  name_state l = h <-> l ∈ words.
Proof.
  intros Ht Hw Hh. split; [by apply state_in_words|]. intros Hl. rewrite forallb_forall in Hw.
  apply list_elem_of_In in Hl. specialize (Hw l Hl). by apply bool_decide_eq_true in Hw.
Qed.

Lemma name_connection l : name_state l = h_connection <-> l ∈ [CONNECTION; PROXY_CONNECTION].
Proof. apply name_state_word; [vm_compute; reflexivity..|done]. Qed.

Lemma name_content_length l : name_state l = h_content_length <-> l ∈ [CONTENT_LENGTH].
Proof. apply name_state_word; [vm_compute; reflexivity..|done]. Qed.

Lemma name_transfer_encoding l : name_state l = h_transfer_encoding <-> l ∈ [TRANSFER_ENCODING].
Proof. apply name_state_word; [vm_compute; reflexivity..|done]. Qed.

Lemma name_upgrade l : name_state l = h_upgrade <-> l ∈ [UPGRADE].
Proof. apply name_state_word; [vm_compute; reflexivity..|done]. Qed.

(** ** The options of a Connection header *)

Definition lower_option (l : list Z) : list Z := LOWER <$> l.

Definition option_char (c : Z) : bool := (0 <=? c) && (c <? 256) && (IS_ALPHANUM c || (c =? 45 (* - *))).

Definition connection_words : list (list Z) := [KEEP_ALIVE; CLOSE; UPGRADE].

Definition option_states : list (list Z * header_states) :=
  prefix_states KEEP_ALIVE 1 h_matching_connection_keep_alive h_connection_keep_alive
  ++ prefix_states CLOSE 1 h_matching_connection_close h_connection_close
  ++ prefix_states UPGRADE 1 h_matching_connection_upgrade h_connection_upgrade.

(** The header state in an option that begins with [l], in lower case. *)
Definition option_state (l : list Z) : header_states := state_in option_states h_matching_connection_token l.

Definition option_next (h : header_states) (i c : Z) : header_states :=
  match h with
  | h_matching_connection_keep_alive =>
      match_word KEEP_ALIVE c h_matching_connection_token h_connection_keep_alive h_matching_connection_keep_alive i
  | h_matching_connection_close =>
      match_word CLOSE c h_matching_connection_token h_connection_close h_matching_connection_close i
  | h_matching_connection_upgrade =>
      match_word UPGRADE c h_matching_connection_token h_connection_upgrade h_matching_connection_upgrade i
  | _ => h_matching_connection_token
  end.

(** The flag an option stands for. *)
Definition option_flag (el : list Z) : Z :=
  let l := lower_option el in
  if bool_decide (l = KEEP_ALIVE) then F_CONNECTION_KEEP_ALIVE
  else if bool_decide (l = CLOSE) then F_CONNECTION_CLOSE
  else if bool_decide (l = UPGRADE) then F_CONNECTION_UPGRADE
  else 0.

(** An option that is the beginning of one the parser knows. *)
Definition cut_short (el : list Z) : Prop :=
  exists word, word ∈ connection_words /\ lower_option el `prefix_of` word /\ lower_option el <> word.

Definition option_ok (el : list Z) : Prop :=
  el <> [] /\ forallb option_char el = true /\ ~ cut_short el.

(** The states at the end of an option from which a comma starts the next one. *)
Definition settled (h : header_states) : bool :=
  match h with
  | h_connection_keep_alive | h_connection_close | h_connection_upgrade | h_matching_connection_token => true
  | _ => false
  end.

Definition in_option (h : header_states) : bool :=
  settled h ||
  match h with
  | h_matching_connection_keep_alive | h_matching_connection_close | h_matching_connection_upgrade => true
  | _ => false
  end.

Lemma option_char_forall (P : Z -> bool) c :
  forallb (fun c => negb (option_char c) || P c) (seqZ 0 256) = true -> option_char c = true -> P c = true.
Proof.
  intros Ha Hc. assert (is_byte c) as Hb by (unfold option_char in Hc; unfold is_byte; lia).
  pose proof (byte_forall _ c Ha Hb) as HP. cbv beta in HP. by rewrite Hc in HP.
Qed.

Lemma option_state_next l c :
  l <> [] -> option_char c = true -> option_next (option_state l) (zlen l) (LOWER c) = option_state (l ++ [LOWER c]).
Proof.
  intros Hl Hc. apply (state_next _ _ _ (seqZ 0 256)); [vm_compute; reflexivity|done|done|].
  unfold LOWER. apply elem_of_seqZ. pose proof (u8_byte (Z.lor c 32)). unfold is_byte in *. lia.
Qed.

Lemma option_state_in_option l : in_option (option_state l) = true.
Proof. apply state_in_forall; [vm_compute; reflexivity|done]. Qed.

Lemma option_state_short l : option_state l <> h_matching_connection_token -> zlen l <= 10.
Proof.
  intros Hl. destruct (state_in_spec option_states h_matching_connection_token l) as [(e & He & <- & _)|[_ E]]; [|done].
  assert (forallb (fun e => zlen e.1 <=? 10) option_states = true) as Ht by (vm_compute; reflexivity).
  rewrite forallb_forall in Ht. apply list_elem_of_In in He. specialize (Ht e He). lia.
Qed.

Lemma option_settled el : ~ cut_short el -> settled (option_state (lower_option el)) = true.
Proof.
  intros Hc. unfold option_state.
  destruct (state_in_spec option_states h_matching_connection_token (lower_option el)) as [(e & He & Hel & ->)|[_ ->]]; [|done].
  assert (forallb (fun e => settled e.2 || existsb (fun w => bool_decide (e.1 `prefix_of` w) && negb (bool_decide (e.1 = w)))
    connection_words) option_states = true) as Ht by (vm_compute; reflexivity).
  rewrite forallb_forall in Ht. apply list_elem_of_In in He. specialize (Ht e He).
  apply orb_true_iff in Ht as [?|Hw]; [done|]. exfalso. apply Hc. rewrite Hel in Hw.
  apply existsb_exists in Hw as (w & Hw & [Hp Hn]%andb_true_iff). exists w. split; [by apply list_elem_of_In|].
  split; [by apply bool_decide_eq_true in Hp|]. apply negb_true_iff in Hn. by apply bool_decide_eq_false in Hn.
Qed.

Lemma option_state_flag el : connection_flag (option_state (lower_option el)) = option_flag el.
Proof.
  unfold option_state, option_flag.
  destruct (state_in_spec option_states h_matching_connection_token (lower_option el)) as [(e & He & <- & ->)|[Hno ->]].
  - assert (forallb (fun e => bool_decide (connection_flag e.2 =
      (if bool_decide (e.1 = KEEP_ALIVE) then F_CONNECTION_KEEP_ALIVE
       else if bool_decide (e.1 = CLOSE) then F_CONNECTION_CLOSE
       else if bool_decide (e.1 = UPGRADE) then F_CONNECTION_UPGRADE else 0))) option_states = true) as Ht by (vm_compute; reflexivity).
    rewrite forallb_forall in Ht. apply list_elem_of_In in He. specialize (Ht e He). by apply bool_decide_eq_true in Ht.
  - assert (forall w h, (w, h) ∈ option_states -> lower_option el <> w) as Hw by (intros w h Hin E; by apply (Hno _ Hin)).
    rewrite !bool_decide_false; [done|..].
    + apply (Hw _ h_connection_upgrade). apply list_elem_of_In. vm_compute. tauto.
    + apply (Hw _ h_connection_close). apply list_elem_of_In. vm_compute. tauto.
    + apply (Hw _ h_connection_keep_alive). apply list_elem_of_In. vm_compute. tauto.
Qed.

(** The state after the first character of an option. *)
Lemma option_first c :
  option_char c = true ->
  option_state [LOWER c] = (if LOWER c =? 107 then h_matching_connection_keep_alive
                            else if LOWER c =? 99 then h_matching_connection_close
                            else if LOWER c =? 117 then h_matching_connection_upgrade
                            else h_matching_connection_token).
Proof.
  intros Hc.
  pose proof (option_char_forall (fun c => bool_decide (option_state [LOWER c]
    = (if LOWER c =? 107 then h_matching_connection_keep_alive else if LOWER c =? 99 then h_matching_connection_close
       else if LOWER c =? 117 then h_matching_connection_upgrade else h_matching_connection_token))) c) as H.
  cbv beta in H. apply (bool_decide_eq_true_1 _). apply H; [vm_compute; reflexivity|done].
Qed.

(** The flags of a list of options. *)
Definition option_flags (els : list (list Z)) : Z := foldr (fun el f => Z.lor (option_flag el) f) 0 els.

Fixpoint join_options (els : list (list Z)) : list Z :=
  match els with
  | [] => []
  | [el] => el
  | el :: els => el ++ [44; 32] ++ join_options els
  end.

Lemma join_options_cons el els :
  join_options (el :: els) = el ++ concat ((fun e => [44; 32] ++ e) <$> els).
Proof.
  revert el. induction els as [|e els IH]; intros el; [by cbn; rewrite app_nil_r|].
  change (join_options (el :: e :: els)) with (el ++ [44; 32] ++ join_options (e :: els)). rewrite IH.
  cbn [fmap list_fmap concat]. by rewrite <- app_assoc.
Qed.

(** ** Headers

    A value is any text, or a list of options. *)

Inductive field_value := Text (v : list Z) | Options (els : list (list Z)).

Definition value_bytes (v : field_value) : list Z :=
  match v with Text v => v | Options els => join_options els end.

Definition header : Type := list Z * field_value.

Definition header_line (h : header) : list Z := h.1 ++ [58; 32] ++ value_bytes h.2 ++ [CR; LF].

Definition is_connection (name : list Z) : Prop := lower name ∈ [CONNECTION; PROXY_CONNECTION].

Lemma upgrade_not_connection name : lower name = UPGRADE -> ~ is_connection name.
Proof. unfold is_connection. by intros -> [?|?%list_elem_of_singleton]%elem_of_cons. Qed.

Definition header_flags (h : header) : Z :=
  if bool_decide (lower h.1 = UPGRADE) then F_UPGRADE
  else if bool_decide (is_connection h.1) then
    match h.2 with Options els => option_flags els | Text _ => 0 end
  else 0.

(** A character that may stand inside a value. *)
Definition value_text (c : Z) : bool := negb (is_eol c) && IS_HEADER_CHAR c.

Definition value_ok (name : list Z) (v : field_value) : Prop :=
  match v with
  | Text [] => False
  | Text (c :: t) => (c =? 32) || (c =? 9) = false /\ forallb value_text (c :: t) = true /\ ~ is_connection name
  | Options els => els <> [] /\ Forall option_ok els
  end.

(** A header that says nothing about the length of the body. *)
Definition header_ok (h : header) : Prop :=
  h.1 <> [] /\ Forall name_char h.1 /\ lower h.1 <> CONTENT_LENGTH /\
  ~ TRANSFER_ENCODING `prefix_of` lower h.1 /\ value_ok h.1 h.2.

#[export] Instance cut_short_dec el : Decision (cut_short el).
Proof.
  destruct (decide (Exists (fun word => lower_option el `prefix_of` word /\ lower_option el <> word) connection_words)) as [He|He].
  - left. apply Exists_exists in He as (w & Hw & Hp). by exists w.
  - right. intros (w & Hw & Hp). apply He. apply Exists_exists. by exists w.
Defined.

#[export] Instance name_char_dec c : Decision (name_char c).
Proof. unfold name_char. apply _. Defined.

#[export] Instance option_ok_dec el : Decision (option_ok el).
Proof. unfold option_ok. apply _. Defined.

#[export] Instance is_connection_dec name : Decision (is_connection name).
Proof. unfold is_connection. apply _. Defined.

#[export] Instance value_ok_dec name v : Decision (value_ok name v).
Proof. destruct v as [[|c t]|els]; cbn [value_ok]; apply _. Defined.

#[export] Instance header_ok_dec h : Decision (header_ok h).
Proof. unfold header_ok. apply _. Defined.

(** The first character of a value, and that the others are text. *)
Lemma value_ok_bytes name v :
  value_ok name v -> exists c t, value_bytes v = c :: t /\ (c =? 32) || (c =? 9) = false /\ forallb value_text (c :: t) = true.
Proof.
  assert (forall el, forallb option_char el = true -> forallb value_text el = true) as Htext.
  { intros el Hel. rewrite forallb_forall in Hel |- *. intros c Hc.
    apply (option_char_forall value_text); [vm_compute; reflexivity|auto]. }
  destruct v as [[|c t]|els]; [done|intros (Hb & Ht & _); by exists c, t|]. intros [Hne Hels].
  destruct els as [|el els]; [done|]. apply Forall_cons in Hels as [(Hne' & Hc & _) Hels].
  cbn [value_bytes]. rewrite join_options_cons. destruct el as [|c el]; [done|]. exists c, (el ++ concat ((fun e => [44; 32] ++ e) <$> els)).
  split; [done|]. split.
  - cbn [forallb] in Hc. apply andb_true_iff in Hc as [Hc _].
    pose proof (option_char_forall (fun c => negb ((c =? 32) || (c =? 9))) c) as H'. cbv beta in H'.
    apply negb_true_iff. apply H'; [vm_compute; reflexivity|done].
  - change (c :: el ++ concat ((fun e => [44; 32] ++ e) <$> els)) with ((c :: el) ++ concat ((fun e => [44; 32] ++ e) <$> els)).
    rewrite forallb_app, (Htext _ Hc). cbn [andb]. clear -Hels Htext.
    induction Hels as [|e els (_ & He & _) _ IH]; [done|]. cbn [fmap list_fmap concat]. rewrite forallb_app, IH, andb_true_r.
    cbn [app forallb]. by rewrite (Htext _ He).
Qed.
