(* ===== verification/HttpSafe.v ===== *)
(** * http_parser: safety (src/http_parser.c)

    For every input, [http_parser_execute] returns: no assertion fails, no
    index leaves the buffer or a table, no loop goes on for ever.  [parser_ok]
    is the invariant of the parser between two buffers, [exec_ok] that of the
    local variables before a byte is looked at. *)

From S2P Require Import Prelude Text HttpTypes HttpParser HttpNames.

(** ** Invariants *)

(** What a state says about the other fields; [n] is the number of header
    bytes counted before the size of a chunk. *)
Definition state_ok (n : Z) (st : http_state) (nread : Z) (q : http_parser) : Prop :=
  match st with
  | s_req_method => 0 <= hp_index q <= zlen (method_strings (hp_method q))
  | s_header_field => in_name (hp_header_state q) = true
  | s_header_value => hp_header_state q <> h_connection /\ hp_header_state q <> h_transfer_encoding
  | s_body_identity => 0 < hp_content_length q < ULLONG_MAX
  | s_chunk_size_start => nread = n /\ flag q F_CHUNKED = true
  | s_chunk_size | s_chunk_parameters | s_chunk_size_almost_done =>
      flag q F_CHUNKED = true /\ 0 <= hp_content_length q < ULLONG_MAX
  | s_chunk_data => flag q F_CHUNKED = true /\ 0 < hp_content_length q < ULLONG_MAX
  | s_chunk_data_almost_done => flag q F_CHUNKED = true /\ hp_content_length q = 0
  | s_chunk_data_done => flag q F_CHUNKED = true
  | _ => True
  end.

(** A parser that has failed looks at nothing any more. *)
Definition parser_ok (q : http_parser) : Prop :=
  hp_http_errno q = HPE_OK -> 0 <= hp_content_length q <= ULLONG_MAX /\ state_ok 0 (hp_state q) (hp_nread q) q.

(** The states in which a part of the message is being read. *)
Definition mark_state (m : http_mark) (st : http_state) : bool :=
  match m with
  | M_header_field => bool_decide (st = s_header_field)
  | M_header_value => bool_decide (st = s_header_value)
  | M_url => in_url st
  | M_body => bool_decide (st ∈ [s_body_identity; s_body_identity_eof; s_chunk_data; s_chunk_data_almost_done])
  | M_status => bool_decide (st = s_res_status)
  end.

(** A mark is set in its states only, and lies before the position [p]. *)
Definition mark_ok (allowed : bool) (mark : option Z) (p : Z) : Prop :=
  match mark with None => True | Some v => allowed = true /\ 0 <= v <= p end.

Lemma mark_ok_false b mark p p' : mark_ok false mark p -> mark_ok b mark p'.
Proof. by destruct mark as [v|]; [intros [? _]|]. Qed.

Lemma mark_ok_le b mark p p' : mark_ok b mark p -> p <= p' -> mark_ok b mark p'.
Proof. destruct mark as [v|]; [|done]. cbn. intros [? ?] ?. split; [done|lia]. Qed.

Record exec_ok {W} (n : Z) (x : exec W) : Prop := {
  ok_errno : hp_http_errno (x_parser x) = HPE_OK;
  ok_length : 0 <= hp_content_length (x_parser x) <= ULLONG_MAX;
  ok_state : state_ok n (x_p_state x) (x_nread x) (x_parser x);
  ok_marks m : mark_ok (mark_state m (x_p_state x)) (get_mark m x) (x_p x)
}.

(** How many cases may follow for the same byte. *)
Definition rank (st : http_state) : nat :=
  match st with
  | s_header_value_lws | s_header_value_discard_lws => 3
  | s_header_field_start | s_res_status_code => 2
  | s_headers_almost_done | s_start_req_or_res | s_res_status_start | s_body_identity | s_header_value => 1
  | _ => 0
  end.

(** Callbacks that leave the parser as it is; they may fail. *)
Definition leaves_parser {W} (r : outcome (Z * W * option http_parser)) (q : http_parser) : Prop :=
  exists rc w, r = Ok (rc, w, Some q).

Record calm {W} `{HttpCallbacks W} : Prop := {
  calm_notify f w q : Some f ∈ [cb_message_begin; cb_headers_complete; cb_message_complete; cb_chunk_header; cb_chunk_complete] ->
    leaves_parser (f w q) q;
  calm_data m f w q at_ : data_callback m = Some f -> leaves_parser (f w q at_) q
}.
Arguments calm W {_}.

Section safe.
Context {W : Type} `{HttpLimit} `{HttpCallbacks W}.
Hypothesis Hcalm : calm W.
Variable data : list Z.
Variable lenient : bool.

#[local] Abbreviation len := (zlen data).

(** A buffer is not read to its end only after an error or before an upgrade. *)
Definition stopped (n : Z) (q : http_parser) : Prop :=
  n = len \/ hp_http_errno q <> HPE_OK \/ truthy (hp_upgrade q) = true.

(** The result of a case for a byte at the position [p], in a state of rank [r]. *)
Definition fine (r : nat) (p : Z) (f : outcome (flow W)) : Prop :=
  match f with
  | Ok (Next x) => exec_ok 0 x /\ p <= x_p x < len
  | Ok (Again x) => exec_ok 1 x /\ p <= x_p x < len /\ (rank (x_p_state x) < r)%nat
  | Ok (Done n q w) => 0 <= n <= len /\ stopped n q /\ parser_ok q
  | _ => False
  end.

Lemma fine_error r p e (x : exec W) : e <> HPE_OK -> 0 <= x_p x <= len -> fine r p (error e x).
Proof. intros He Hp. split; [done|]. split; [by right; left|]. intros E. by destruct He. Qed.

Lemma fine_leave r p n (x : exec W) :
  0 <= hp_content_length (x_parser x) <= ULLONG_MAX -> state_ok 0 (x_p_state x) (x_nread x) (x_parser x) ->
  0 <= n <= len -> stopped n (x_parser x) -> fine r p (leave n x).
Proof.
  intros Hl Hs Hn Hst. split; [done|]. split; [exact Hst|]. intros _. split; [exact Hl|].
  cbn [hp_state hp_nread]. by destruct (x_p_state x).
Qed.

Lemma fine_count r p v (x : exec W) k :
  0 <= x_p x <= len -> (forall nr, fine r p (k (x <| x_nread := nr |>))) -> fine r p (COUNT_HEADER_SIZE v x k).
Proof.
  intros Hp Hk. unfold COUNT_HEADER_SIZE. cbv zeta. destruct (_ <? _); [by apply fine_error|apply Hk].
Qed.

Lemma fine_strict r p cond (x : exec W) k :
  0 <= x_p x <= len -> fine r p (k x) -> fine r p (STRICT_CHECK cond x k).
Proof. intros Hp Hk. unfold STRICT_CHECK. destruct cond; [by apply fine_error|done]. Qed.

(** A callback, and what is left of the local variables after it. *)
Definition after_notify (x : exec W) (st : http_state) (w : W) : exec W :=
  x <| x_parser := (x_parser x) <| hp_state := st |> |> <| x_w := w |>.

Lemma fine_after r p rr e er (x : exec W) k :
  hp_http_errno (x_parser x) = HPE_OK -> e <> HPE_OK -> 0 <= er <= len ->
  leaves_parser rr ((x_parser x) <| hp_state := x_p_state x |>) ->
  (forall w, fine r p (k (after_notify x (x_p_state x) w))) -> fine r p (after_callback rr e er x k).
Proof.
  intros He Hne Her (rc & w & ->) Hk. unfold after_callback. cbn [mbind outcome_bind]. cbv zeta.
  destruct (rc =? 0).
  - unfold no_error. change (hp_http_errno ((x_parser x) <| hp_state := x_p_state x |>)) with (hp_http_errno (x_parser x)).
    rewrite bool_decide_true by done. apply Hk.
  - unfold no_error. rewrite bool_decide_false by done. split; [done|]. split; [by right; left|]. intros E. by destruct Hne.
Qed.

Lemma after_notify_id (x : exec W) : after_notify x (hp_state (x_parser x)) (x_w x) = x.
Proof. by destruct x as [[]]. Qed.

Lemma fine_notify r p cb e er (x : exec W) k :
  hp_http_errno (x_parser x) = HPE_OK -> e <> HPE_OK -> 0 <= er <= len ->
  cb ∈ [cb_message_begin; cb_headers_complete; cb_message_complete; cb_chunk_header; cb_chunk_complete] ->
  (forall st w, fine r p (k (after_notify x st w))) -> fine r p (CALLBACK_NOTIFY_ cb e er x k).
Proof.
  intros He Hne Her Hcb Hk. unfold CALLBACK_NOTIFY_, no_error. rewrite bool_decide_true by done. cbn [c_assert mbind outcome_bind].
  destruct cb as [f|]; [|rewrite <- (after_notify_id x); apply Hk].
  apply fine_after; [done|done|done|by apply (calm_notify Hcalm)|auto].
Qed.

Lemma set_mark_none m (x : exec W) : get_mark m x = None -> set_mark m None x = x.
Proof. destruct m, x; cbn; by intros ->. Qed.

Lemma fine_data r p m until er (x : exec W) k b :
  hp_http_errno (x_parser x) = HPE_OK -> 0 <= er <= len -> mark_ok b (get_mark m x) until -> until <= len ->
  (forall st w, fine r p (k (set_mark m None (after_notify x st w)))) -> fine r p (CALLBACK_DATA_ data m until er x k).
Proof.
  intros He Her Hm Hu Hk. unfold CALLBACK_DATA_, no_error. rewrite bool_decide_true by done. cbn [c_assert mbind outcome_bind].
  destruct (get_mark m x) as [v|] eqn:Em.
  - destruct Hm as [_ Hv]. destruct (data_callback m) as [f|] eqn:Ef.
    + assert (exists at_, span data v until = Ok at_) as [at_ ->].
      { unfold span. rewrite !(proj2 (Z.leb_le _ _)) by lia. by eexists. }
      cbn [mbind outcome_bind]. apply fine_after; [done|by destruct m|done|by eapply (calm_data Hcalm)|].
      intros w. apply Hk.
    + rewrite <- (after_notify_id x). apply Hk.
  - rewrite <- (set_mark_none m x) by done. rewrite <- (after_notify_id x) at 1. apply Hk.
Qed.

(** ** The cases

    [x] before a case, taken apart. *)

Ltac open_exec :=
  intros Hok Hp Hst;
  match goal with x : exec W |- _ =>
    destruct x as [[t fl st' h i xf lz nr' cl maj min sc meth e up d] w st nr p ch fm vm um bm sm]
  end;
  destruct Hok as [He Hl Hs Hm]; cbn [x_parser x_p_state x_nread x_p hp_http_errno hp_content_length] in He, Hl, Hs, Hm, Hp, Hst;
  subst.

(** The marks after a case: none was set, or it has not moved. *)
Ltac marks :=
  let mk := fresh "mk" in
  intros mk; match goal with Hm : forall m, mark_ok _ _ _ |- _ => specialize (Hm mk) end;
  destruct mk; cbn in *;
  first [exact I | done | eapply mark_ok_false; eassumption | eapply mark_ok_le; [eassumption|lia] | by split; [|lia] | idtac].

Ltac fine_leaf :=
  first
  [ apply fine_error; [discriminate|cbn; lia]
  | split; [split; [reflexivity|cbn; try lia|cbn; try done; try lia|marks]|cbn; lia]
  | split; [split; [reflexivity|cbn; try lia|cbn; try done; try lia|marks]|split; [cbn; lia|cbn; lia]] ].

Ltac fine_ifs := repeat match goal with |- fine _ _ (if ?b then _ else _) => destruct b end.

Lemma fine_expect c st0 st1 (x : exec W) :
  exec_ok 1 x -> 0 <= x_p x < len -> x_p_state x = st0 ->
  (forall m, mark_state m st0 = false) -> (forall n nread q, state_ok n st1 nread q) ->
  fine (rank st0) (x_p x) (expect c st1 x).
Proof.
  open_exec. intros Hno Hst1. unfold expect. apply fine_strict; [cbn; lia|].
  split; [split; [done|cbn; lia|apply Hst1|]|cbn; lia].
  intros m. specialize (Hm m). rewrite Hno in Hm. eapply mark_ok_false. destruct m; exact Hm.
Qed.

Lemma fine_dead (x : exec W) :
  exec_ok 1 x -> 0 <= x_p x < len -> x_p_state x = s_dead -> fine (rank s_dead) (x_p x) (exec_dead x).
Proof. open_exec. unfold exec_dead. fine_ifs; fine_leaf. Qed.

Lemma fine_start_req_or_res (x : exec W) :
  exec_ok 1 x -> 0 <= x_p x < len -> x_p_state x = s_start_req_or_res ->
  fine (rank s_start_req_or_res) (x_p x) (exec_start_req_or_res x).
Proof.
  open_exec. unfold exec_start_req_or_res. cbv zeta. fine_ifs; [fine_leaf| |fine_leaf].
  apply fine_notify; [done|done|cbn; lia|by left|]. intros st w1. fine_leaf.
Qed.

Lemma fine_res_or_resp_H (x : exec W) :
  exec_ok 1 x -> 0 <= x_p x < len -> x_p_state x = s_res_or_resp_H -> fine (rank s_res_or_resp_H) (x_p x) (exec_res_or_resp_H x).
Proof. open_exec. unfold exec_res_or_resp_H. fine_ifs; fine_leaf. Qed.

Lemma fine_start_res (x : exec W) :
  exec_ok 1 x -> 0 <= x_p x < len -> x_p_state x = s_start_res -> fine (rank s_start_res) (x_p x) (exec_start_res x).
Proof.
  open_exec. unfold exec_start_res. cbv zeta. fine_ifs; [fine_leaf| |fine_leaf].
  apply fine_notify; [done|done|cbn; lia|by left|]. intros st w1. fine_leaf.
Qed.

Lemma fine_version st0 st1 (x : exec W) :
  exec_ok 1 x -> 0 <= x_p x < len -> x_p_state x = st0 ->
  (forall m, mark_state m st0 = false) -> (forall n nread q, state_ok n st1 nread q) ->
  fine (rank st0) (x_p x) (exec_http_major st1 x) /\ fine (rank st0) (x_p x) (exec_http_dot st1 x) /\
  fine (rank st0) (x_p x) (exec_http_minor st1 x) /\ fine (rank st0) (x_p x) (expect_LF st1 x).
Proof.
  open_exec. intros Hno Hst1. unfold exec_http_major, exec_http_dot, exec_http_minor, expect_LF.
  assert (forall m, mark_ok false (get_mark m (mk_exec
    (mk_http_parser t fl st' h i xf lz nr' cl maj min sc meth HPE_OK up d) w st0 nr p ch fm vm um bm sm)) p) as Hm'.
  { intros m. specialize (Hm m). by rewrite Hno in Hm. }
  split; [|split; [|split]]; fine_ifs; try (apply fine_error; [discriminate|cbn; lia]);
    (split; [split; [done|cbn; lia|apply Hst1|]|cbn; lia]);
    intros m; specialize (Hm' m); eapply mark_ok_false; destruct m; exact Hm'.
Qed.

Lemma fine_res_http_end (x : exec W) :
  exec_ok 1 x -> 0 <= x_p x < len -> x_p_state x = s_res_http_end -> fine (rank s_res_http_end) (x_p x) (exec_res_http_end x).
Proof. open_exec. unfold exec_res_http_end. fine_ifs; fine_leaf. Qed.

Lemma fine_res_first_status_code (x : exec W) :
  exec_ok 1 x -> 0 <= x_p x < len -> x_p_state x = s_res_first_status_code ->
  fine (rank s_res_first_status_code) (x_p x) (exec_res_first_status_code x).
Proof. open_exec. unfold exec_res_first_status_code. fine_ifs; fine_leaf. Qed.

Lemma fine_res_status_code (x : exec W) :
  exec_ok 1 x -> 0 <= x_p x < len -> x_p_state x = s_res_status_code -> fine (rank s_res_status_code) (x_p x) (exec_res_status_code x).
Proof. open_exec. unfold exec_res_status_code. cbv zeta. fine_ifs; fine_leaf. Qed.

Lemma fine_res_status_start (x : exec W) :
  exec_ok 1 x -> 0 <= x_p x < len -> x_p_state x = s_res_status_start -> fine (rank s_res_status_start) (x_p x) (exec_res_status_start x).
Proof.
  open_exec. unfold exec_res_status_start. cbv zeta. pose proof (Hm M_status) as Hsm. destruct sm; [by destruct Hsm|].
  fine_ifs; fine_leaf.
Qed.

Lemma fine_res_status (x : exec W) :
  exec_ok 1 x -> 0 <= x_p x < len -> x_p_state x = s_res_status -> fine (rank s_res_status) (x_p x) (exec_res_status data x).
Proof.
  open_exec. unfold exec_res_status. fine_ifs; [..|fine_leaf];
    (eapply fine_data; [done|cbn; lia|apply (Hm M_status)|cbn; lia|]; intros st w1; fine_leaf).
Qed.

Lemma fine_start_req (x : exec W) :
  exec_ok 1 x -> 0 <= x_p x < len -> x_p_state x = s_start_req -> fine (rank s_start_req) (x_p x) (exec_start_req x).
Proof.
  open_exec. unfold exec_start_req. cbv zeta. fine_ifs; [fine_leaf|fine_leaf|].
  match goal with |- fine _ _ (match ?o with _ => _ end) => destruct o as [m1|] end; [|fine_leaf].
  apply fine_notify; [done|done|cbn; lia|by left|]. intros st w1. fine_leaf. pose proof (zlen_nonneg (method_strings m1)).
  destruct m1; cbv; split; discriminate.
Qed.

(** The switched method is longer than the index at which it is told apart. *)
Lemma switch_method_length m i c m' : switch_method m i c = Some m' -> 0 <= i < 5 /\ i + 1 <= zlen (method_strings m').
Proof.
  unfold switch_method. destruct (List.find _ _) as [[[[m0 i0] c0] m1]|] eqn:E; [|done]. intros [= <-].
  apply List.find_some in E as [Hin Hb]. apply andb_true_iff in Hb as [[_ Hi]%andb_true_iff _]. apply Z.eqb_eq in Hi as ->.
  assert (forallb (fun e => let '(_, i, _, m) := e in (0 <=? i) && (i <? 5) && (i + 1 <=? zlen (method_strings m))) method_switch = true)
    as Hall by (vm_compute; reflexivity).
  rewrite forallb_forall in Hall. specialize (Hall _ Hin). cbv beta iota in Hall. lia.
Qed.

Lemma fine_req_method (x : exec W) :
  exec_ok 1 x -> 0 <= x_p x < len -> x_p_state x = s_req_method -> fine (rank s_req_method) (x_p x) (exec_req_method x).
Proof.
  open_exec. unfold exec_req_method. cbn [state_ok hp_index hp_method] in Hs. cbn [x_ch x_parser hp_method hp_index]. cbv zeta.
  pose proof (zlen_method meth) as Hlen. destruct (Z.eqb_spec ch 0) as [|Hc]; [fine_leaf|].
  rewrite arr_get_entry by (rewrite zlen_app; change (zlen [0]) with 1; lia). cbn [mbind outcome_bind].
  assert ((i + 1) mod 32 = i + 1) as Hmod by (apply Z.mod_small; lia).
  destruct ((ch =? 32) && (entry (method_strings meth ++ [0]) i =? 0)); [fine_leaf|].
  destruct (Z.eqb_spec ch (entry (method_strings meth ++ [0]) i)) as [E|].
  - assert (i <> zlen (method_strings meth)) as Hi.
    { intros ->. apply Hc. rewrite E. unfold entry, zlen. rewrite Nat2Z.id, nth_middle. done. }
    split; [split; [done|cbn; lia| |marks]|cbn; lia]. change (0 <= (i + 1) mod 32 <= zlen (method_strings meth)). lia.
  - fine_ifs; [|fine_leaf]. destruct (switch_method meth i ch) as [m'|] eqn:Esw; [|fine_leaf].
    apply switch_method_length in Esw. split; [split; [done|cbn; lia| |marks]|cbn; lia].
    change (0 <= (i + 1) mod 32 <= zlen (method_strings m')). lia.
Qed.

(** ** URLs *)

Lemma state_ok_url n st nread q : in_url st = true -> state_ok n st nread q.
Proof. by destruct st. Qed.

(** The state after a character of a URL. *)
Lemma fine_url_char r p0 (x : exec W) :
  hp_http_errno (x_parser x) = HPE_OK -> 0 <= hp_content_length (x_parser x) <= ULLONG_MAX -> p0 <= x_p x < len -> 0 <= x_p x ->
  (forall m, m <> M_url -> get_mark m x = None) -> mark_ok true (x_url_mark x) (x_p x) ->
  fine r p0 (url_char x).
Proof.
  intros He Hl Hp Hp0 Hm Hu. unfold url_char. cbv zeta. set (st := parse_url_char (x_p_state x) (x_ch x)).
  change (x_p_state (set_state st x)) with st. case_bool_decide as Hd; [by apply fine_error; [|cbn; lia]|].
  assert (in_url st = true) as Hst by (by apply parse_url_in_url).
  split; [|exact Hp]. split; [exact He|exact Hl|by apply state_ok_url|].
  intros m. destruct (decide (m = M_url)) as [->|Hne].
  - change (mark_ok (in_url st) (x_url_mark x) (x_p x)). by rewrite Hst.
  - change (mark_ok (mark_state m st) (get_mark m (set_state st x)) (x_p x)).
    replace (get_mark m (set_state st x)) with (get_mark m x) by (by destruct m). by rewrite Hm.
Qed.

Lemma mark_none mark p : mark_ok false mark p -> mark = None.
Proof. by destruct mark; [intros []|]. Qed.

Lemma no_marks n (x : exec W) m : exec_ok n x -> mark_state m (x_p_state x) = false -> get_mark m x = None.
Proof. intros Hok E. pose proof (ok_marks _ _ Hok m) as Hm. rewrite E in Hm. by eapply mark_none. Qed.

Lemma in_url_marks st m : in_url st = true -> m <> M_url -> mark_state m st = false.
Proof. by destruct st, m. Qed.

Lemma fine_req_spaces_before_url (x : exec W) :
  exec_ok 1 x -> 0 <= x_p x < len -> x_p_state x = s_req_spaces_before_url ->
  fine (rank s_req_spaces_before_url) (x_p x) (exec_req_spaces_before_url x).
Proof.
  intros Hok Hp Hst. assert (forall m, get_mark m x = None) as Hno by (intros m; eapply no_marks; [done|rewrite Hst; by destruct m]).
  unfold exec_req_spaces_before_url. destruct (x_ch x =? 32).
  { split; [|lia]. destruct Hok as [He Hl Hs _]. split; [done|done|by rewrite Hst|]. intros m. by rewrite Hno. }
  pose proof (ok_errno _ _ Hok) as He. pose proof (ok_length _ _ Hok) as Hl.
  assert (MARK M_url x = x <| x_url_mark := Some (x_p x) |>) as ->.
  { unfold MARK. by rewrite (Hno M_url). }
  cbv zeta. assert (forall m, m <> M_url -> get_mark m (x <| x_url_mark := Some (x_p x) |>) = None) as Hm.
  { intros m Hne. rewrite <- (Hno m). by destruct m. }
  case_bool_decide; apply fine_url_char; try done; try (cbn; lia); intros m Hne; rewrite <- (Hm m Hne); by destruct m.
Qed.

Lemma fine_req_schema (x : exec W) st :
  exec_ok 1 x -> 0 <= x_p x < len -> x_p_state x = st -> in_url st = true -> fine (rank st) (x_p x) (exec_req_schema x).
Proof.
  intros Hok Hp Hst Hu. unfold exec_req_schema. destruct (_ || _); [by apply fine_error; [|lia]|].
  pose proof Hok as [He Hl Hs Hm]. apply fine_url_char; [done|done|lia|lia| |].
  - intros m Hne. eapply no_marks; [exact Hok|]. rewrite Hst. by apply in_url_marks.
  - specialize (Hm M_url). rewrite Hst in Hm. cbn [mark_state] in Hm. by rewrite Hu in Hm.
Qed.

Lemma fine_req_url (x : exec W) st :
  exec_ok 1 x -> 0 <= x_p x < len -> x_p_state x = st -> in_url st = true -> fine (rank st) (x_p x) (exec_req_url data x).
Proof.
  intros Hok Hp Hst Hu. assert (forall m, m <> M_url -> get_mark m x = None) as Hno.
  { intros m Hne. eapply no_marks; [exact Hok|]. rewrite Hst. by apply in_url_marks. }
  pose proof (ok_errno _ _ Hok) as He. pose proof (ok_length _ _ Hok) as Hl. pose proof (ok_marks _ _ Hok M_url) as Hum.
  assert (forall q1 st1 stp w1, hp_http_errno q1 = HPE_OK -> 0 <= hp_content_length q1 <= ULLONG_MAX -> (forall n nread q, state_ok n st1 nread q) ->
    fine (rank st) (x_p x) (next (set_mark M_url None (after_notify (set_state st1 (x <| x_parser := q1 |>)) stp w1)))) as Hnext.
  { intros q1 st1 stp w1 He1 Hl1 Hs1. split; [|cbn; lia]. split; [exact He1|exact Hl1|apply Hs1|].
    intros m. destruct (decide (m = M_url)) as [->|Hne]; [done|].
    match goal with |- mark_ok _ (get_mark m ?y) _ => replace (get_mark m y) with (get_mark m x) by (by destruct m) end.
    by rewrite Hno. }
  unfold exec_req_url. destruct (x_ch x =? 32).
  { eapply fine_data; [done|cbn; lia|exact Hum|cbn; lia|]. intros stp w1.
    replace (set_state s_req_http_start x) with (set_state s_req_http_start (x <| x_parser := x_parser x |>)) by (by destruct x).
    by apply Hnext. }
  destruct (is_eol (x_ch x)).
  { cbv zeta. eapply fine_data; [done|cbn; lia|exact Hum|cbn; lia|]. intros stp w1. apply Hnext; [done|done|].
    intros n nread q. by destruct (_ =? CR). }
  apply fine_url_char; [done|done|lia|lia|done|]. rewrite Hst in Hum. cbn [mark_state] in Hum. by rewrite Hu in Hum.
Qed.

Lemma fine_req_http_start (x : exec W) :
  exec_ok 1 x -> 0 <= x_p x < len -> x_p_state x = s_req_http_start -> fine (rank s_req_http_start) (x_p x) (exec_req_http_start x).
Proof. open_exec. unfold exec_req_http_start. fine_ifs; fine_leaf. Qed.

Lemma fine_req_http_end (x : exec W) :
  exec_ok 1 x -> 0 <= x_p x < len -> x_p_state x = s_req_http_end -> fine (rank s_req_http_end) (x_p x) (exec_req_http_end x).
Proof. open_exec. unfold exec_req_http_end. fine_ifs; fine_leaf. Qed.

(** ** Headers *)

Lemma fine_header_field_start (x : exec W) :
  exec_ok 1 x -> 0 <= x_p x < len -> x_p_state x = s_header_field_start ->
  fine (rank s_header_field_start) (x_p x) (exec_header_field_start x).
Proof.
  open_exec. unfold exec_header_field_start. cbv zeta. pose proof (mark_none _ _ (Hm M_header_field)) as Hfm. cbn in Hfm. subst fm.
  fine_ifs; [fine_leaf|fine_leaf|fine_leaf|].
  split; [split; [done|cbn; lia| |marks]|cbn; lia].
  cbn [x_p_state set_header_state with_parser state_ok]. set (c := TOKEN _).
  change (in_name (if c =? 99 then h_C else if c =? 112 then h_matching_proxy_connection
    else if c =? 116 then h_matching_transfer_encoding else if c =? 117 then h_matching_upgrade else h_general) = true).
  by repeat match goal with |- context [if ?b then _ else _] => destruct b end.
Qed.

(** What the loops over names and values leave as it is. *)
Record same (x x' : exec W) : Prop := {
  sm_errno : hp_http_errno (x_parser x') = hp_http_errno (x_parser x);
  sm_state : x_p_state x' = x_p_state x;
  sm_marks m : get_mark m x' = get_mark m x
}.

Lemma same_refl x : same x x.
Proof. by split. Qed.

Lemma same_trans x y z : same x y -> same y z -> same x z.
Proof. intros [? ? Hm1] [? ? Hm2]. split; [congruence..|]. intros m. by rewrite Hm2, Hm1. Qed.

Lemma get_byte p : 0 <= p < len -> exists c, arr_get data p = Ok c.
Proof.
  intros Hp. destruct (lookup_lt_is_Some_2 data (Z.to_nat p)) as [c Hc]; [unfold zlen in Hp; lia|].
  exists c. apply arr_get_ok; [lia|done].
Qed.

Lemma skip_tokens_safe fuel : forall p pe,
  0 <= p -> pe <= len -> pe - p <= Z.of_nat fuel + 1 ->
  exists p', skip_tokens data fuel p pe = Ok p' /\ p <= p' /\ (p' = p \/ p' < pe).
Proof.
  induction fuel as [|fuel IH]; intros p pe Hp Hpe Hf; cbn [skip_tokens]; destruct (Z.ltb_spec (p + 1) pe); try lia; try (by exists p; split; [|lia]).
  destruct (get_byte (p + 1)) as [c ->]; [lia|]. cbn [mbind outcome_bind].
  destruct (TOKEN c =? 0); [exists p; split; [done|lia]|].
  destruct (IH (p + 1) pe) as (p' & -> & Hle & Hor); [lia..|]. exists p'. split; [done|lia].
Qed.

Lemma match_word_in_name word c found state i :
  in_name found = true -> in_name state = true -> in_name (match_word word c h_general found state i) = true.
Proof. intros Hf Hs. unfold match_word. by destruct ((zlen word <? i) || _); [|destruct (i =? zlen word - 1)]. Qed.

Lemma field_char_safe (x : exec W) ch c :
  in_name (hp_header_state (x_parser x)) = true -> 0 <= x_p x < len ->
  exists x', field_char data x ch c = Ok x' /\ same x x' /\ hp_content_length (x_parser x') = hp_content_length (x_parser x) /\
    in_name (hp_header_state (x_parser x')) = true /\ x_p x <= x_p x' < len.
Proof.
  intros Hin Hp. unfold field_char. cbv zeta.
  assert (forall h, in_name h = true -> exists x', Ok (set_header_state h (inc_index x)) = Ok x' /\ same x x' /\
    hp_content_length (x_parser x') = hp_content_length (x_parser x) /\
    in_name (hp_header_state (x_parser x')) = true /\ x_p x <= x_p x' < len) as Hset.
  { intros h Hh. eexists. split; [reflexivity|]. split; [by split; [..|by intros []]|]. split; [done|]. split; [done|cbn; lia]. }
  destruct (hp_header_state (x_parser x)) eqn:Eh; try done;
    try (apply Hset; by repeat match goal with |- context [if ?b then _ else _] => destruct b end);
    try (apply Hset; by apply match_word_in_name);
    try (eexists; split; [reflexivity|]; destruct (negb (ch =? 32)); (split; [by split; [..|by intros []]|]);
         (split; [done|]); (split; [by rewrite ?Eh|cbn; lia])).
  - destruct (skip_tokens_safe (length data) (x_p x) (x_p x + Z.min (len - x_p x) max_header_size)) as (p' & -> & Hle & Hor);
      [lia|lia|unfold zlen in *; lia|].
    cbn [mbind outcome_bind mret outcome_ret]. eexists. split; [reflexivity|]. split; [by split; [..|by intros []]|].
    split; [done|]. split; [cbn; by rewrite Eh|cbn; lia].
  - cbn [mbind outcome_bind mret outcome_ret].
    match goal with |- context [set_header_state ?h0 _] => destruct (Hset h0) as (x' & [= <-] & Hs & Hl & Hi & Hp'); [by apply match_word_in_name|] end.
    case_bool_decide; (eexists; split; [reflexivity|]); [|by split].
    split; [eapply same_trans; [exact Hs|by split; [..|by intros []]]|]. by split.
Qed.

Lemma field_loop_safe fuel : forall (x : exec W),
  in_name (hp_header_state (x_parser x)) = true -> 0 <= x_p x <= len -> len - x_p x <= Z.of_nat fuel ->
  exists x', field_loop data fuel x = Ok x' /\ same x x' /\ hp_content_length (x_parser x') = hp_content_length (x_parser x) /\
    in_name (hp_header_state (x_parser x')) = true /\ x_p x <= x_p x' <= len.
Proof.
  induction fuel as [|fuel IH]; intros x Hin Hp Hf; cbn [field_loop]; destruct (Z.eqb_spec (x_p x) len) as [E|Hne]; try lia;
    try (exists x; split; [done|]; split; [apply same_refl|]; split; [done|]; split; [done|lia]).
  destruct (get_byte (x_p x)) as [c ->]; [lia|]. cbn [mbind outcome_bind]. cbv zeta. set (x1 := x <| x_ch := c |>).
  assert (same x x1) as Hs1 by (by split; [..|by intros []]).
  destruct (TOKEN c =? 0).
  { exists x1. split; [done|]. split; [done|]. split; [done|]. split; [done|cbn; lia]. }
  destruct (field_char_safe x1 c (TOKEN c)) as (x2 & -> & Hs2 & Hl2 & Hi2 & Hp2); [done|cbn; lia|]. cbn [mbind outcome_bind].
  change (x_p x1) with (x_p x) in Hp2.
  destruct (IH (x2 <| x_p := x_p x2 + 1 |>)) as (x3 & E3 & Hs3 & Hl3 & Hi3 & Hp3); [done|cbn; lia|cbn; lia|].
  exists x3. split; [exact E3|]. split; [|split; [|split; [done|cbn in Hp3; lia]]].
  - eapply same_trans; [exact Hs1|]. eapply same_trans; [exact Hs2|]. eapply same_trans; [|exact Hs3]. by split; [..|by intros []].
  - etransitivity; [exact Hl3|exact Hl2].
Qed.

Lemma fine_header_field (x : exec W) :
  exec_ok 1 x -> 0 <= x_p x < len -> x_p_state x = s_header_field -> fine (rank s_header_field) (x_p x) (exec_header_field data x).
Proof.
  intros [He Hl Hs Hm] Hp Hst. rewrite Hst in Hs, Hm. cbn [state_ok] in Hs. unfold exec_header_field. cbv zeta.
  destruct (field_loop_safe (length data) x Hs) as (x1 & -> & [He1 Hst1 Hm1] & Hl1 & Hi1 & Hp1); [lia|unfold zlen; lia|].
  cbn [mbind outcome_bind]. rewrite Hst in Hst1. rewrite He in He1. rewrite <- Hl1 in Hl.
  destruct (Z.eqb_spec (x_p x1) len) as [E|Hne].
  - apply fine_count; [cbn; lia|]. intros nr. split; [|cbn; lia]. split; [done|done|cbn; by rewrite Hst1|].
    intros m. specialize (Hm m). rewrite <- (Hm1 m) in Hm. match goal with |- mark_ok (mark_state m ?s) _ _ => assert (s = s_header_field) as -> by exact Hst1 end.
    eapply (mark_ok_le _ _ (x_p x)); [destruct m; exact Hm|cbn; lia].
  - apply fine_count; [lia|]. intros nr. destruct (_ =? 58); [|by apply fine_error; [|cbn; lia]].
    eapply (fine_data _ _ _ _ _ _ _ true); [done|cbn; lia| |cbn; lia|].
    + change (mark_ok true (get_mark M_header_field x1) (x_p x1)). rewrite (Hm1 M_header_field).
      eapply mark_ok_le; [exact (Hm M_header_field)|lia].
    + intros stp w1. split; [|cbn; lia]. split; [done|done|done|]. intros m. specialize (Hm m). rewrite <- Hm1 in Hm.
      destruct m; [done|..]; (eapply mark_ok_false; exact Hm).
Qed.

(** Header states in which the loop over a value can be. *)
Definition in_value (h : header_states) : Prop := h <> h_connection /\ h <> h_transfer_encoding.

Lemma fine_value_start r p0 (x : exec W) :
  hp_http_errno (x_parser x) = HPE_OK -> 0 <= hp_content_length (x_parser x) <= ULLONG_MAX -> 0 <= p0 -> p0 <= x_p x < len ->
  (forall m, get_mark m x = None) -> fine r p0 (exec_header_value_start x).
Proof.
  destruct x as [[t fl st' h i xf lz nr' cl maj min sc meth e up d] w st nr p ch fm vm um bm sm].
  cbn [x_parser x_p hp_http_errno hp_content_length]. intros -> Hl Hp0 Hp Hno.
  pose proof (Hno M_header_field) as Hfm. pose proof (Hno M_header_value) as Hvm. pose proof (Hno M_url) as Hum.
  pose proof (Hno M_body) as Hbm. pose proof (Hno M_status) as Hsm. clear Hno. cbn in Hfm, Hvm, Hum, Hbm, Hsm. subst.
  unfold exec_header_value_start. cbv zeta. match goal with |- fine _ _ (match ?a with _ => _ end) => change a with h end.
  destruct (decide (h = h_content_length)) as [->|Hne].
  - destruct (negb (IS_NUM _)) eqn:En; [by apply fine_error; [|cbn; lia]|].
    destruct (flag _ _); [by apply fine_error; [|cbn; lia]|].
    split; [split; [done| |by split|by intros []; cbn; try (split; [done|lia])]|cbn; lia].
    apply negb_false_iff in En. change (IS_NUM ch = true) in En. unfold IS_NUM in En. change (0 <= ch - 48 <= ULLONG_MAX). unfold ULLONG_MAX. lia.
  - destruct h; try done; (split; [split; [done|cbn; lia| |by intros []; cbn; try (split; [done|lia])]|cbn; lia]);
      try (cbn; by split); try (split; repeat match goal with |- context [if ?b then _ else _] => destruct b end; discriminate).
Qed.

(** A character of a value: a step that stays in the loop, or an error. *)
Definition good_step (x : exec W) (o : outcome (value_step (W:=W))) : Prop :=
  match o with
  | Ok (Value x' h') => same x x' /\ 0 <= hp_content_length (x_parser x') <= ULLONG_MAX /\ in_value h' /\ x_p x <= x_p x' < len
  | Ok (Stop f) => forall r p, fine r p f
  | _ => False
  end.

Lemma skip_value_safe fuel : forall (x : exec W) lo pe,
  hp_http_errno (x_parser x) = HPE_OK -> 0 <= hp_content_length (x_parser x) <= ULLONG_MAX ->
  0 <= lo < len -> lo <= x_p x <= pe -> pe <= len -> pe - x_p x <= Z.of_nat fuel ->
  (forall c, x_p x = lo -> arr_get data lo = Ok c -> is_eol c = false) ->
  match skip_value data lenient fuel x pe with
  | Ok (Value x' h') => same x x' /\ hp_content_length (x_parser x') = hp_content_length (x_parser x) /\ h' = h_general /\ lo <= x_p x' < len
  | Ok (Stop f) => forall r p, fine r p f
  | _ => False
  end.
Proof.
  assert (forall x lo pe, x_p x = pe -> 0 <= lo < len -> lo <= x_p x <= pe -> pe <= len ->
    same x (if x_p x =? len then x <| x_p := x_p x - 1 |> else x) /\
    hp_content_length (x_parser (if x_p x =? len then x <| x_p := x_p x - 1 |> else x)) = hp_content_length (x_parser x) /\
    h_general = h_general /\ lo <= x_p (if x_p x =? len then x <| x_p := x_p x - 1 |> else x) < len) as Hend.
  { intros x lo pe E Hlo Hx Hpe. destruct (Z.eqb_spec (x_p x) len).
    - split; [by split; [..|by intros []]|]. split; [done|]. split; [done|cbn; lia].
    - split; [apply same_refl|]. split; [done|]. split; [done|lia]. }
  induction fuel as [|fuel IH]; intros x lo pe He Hl Hlo Hp Hpe Hf Hfirst; cbn [skip_value];
    destruct (Z.eqb_spec (x_p x) pe) as [E|Hne]; try lia; try (by eapply Hend).
  destruct (get_byte (x_p x)) as [c Hc]; [lia|]. rewrite Hc. cbn [mbind outcome_bind]. cbv zeta. destruct (is_eol c) eqn:Eol.
  - assert (lo < x_p x) as Hlt.
    { destruct (Z.eq_dec (x_p x) lo) as [E|?]; [|lia]. rewrite E in Hc. by rewrite (Hfirst c E Hc) in Eol. }
    change (x_p ((x <| x_ch := c |>) <| x_p := x_p (x <| x_ch := c |>) - 1 |>)) with (x_p x - 1).
    rewrite (proj2 (Z.eqb_neq _ _)) by lia. cbn [mret outcome_ret].
    split; [by split; [..|by intros []]|]. split; [done|]. split; [done|cbn; lia].
  - destruct (bad_char lenient c); [intros r p; apply fine_error; [done|cbn; lia]|].
    pose proof (IH ((x <| x_ch := c |>) <| x_p := x_p x + 1 |>) lo pe) as IH'.
    specialize (IH' He Hl Hlo). cbn [x_p] in IH'.
    assert (lo <= x_p x + 1 <= pe) as Hp1 by lia. assert (pe - (x_p x + 1) <= Z.of_nat fuel) as Hf1 by lia.
    specialize (IH' Hp1 Hpe Hf1). cbn in IH'. change (x_p (x <| x_ch := c |>)) with (x_p x).
    assert (forall c0, x_p x + 1 = lo -> arr_get data lo = Ok c0 -> is_eol c0 = false) as Hf2 by (intros; lia).
    specialize (IH' Hf2). destruct (skip_value data lenient fuel _ pe) as [[x' h'|f]| | |]; try done.
    destruct IH' as (Hs & Hl' & Hh & Hp'). split; [|done]. eapply same_trans; [|exact Hs]. by split; [..|by intros []].
Qed.

Lemma content_length_char_safe (x : exec W) ch :
  hp_http_errno (x_parser x) = HPE_OK -> 0 <= hp_content_length (x_parser x) <= ULLONG_MAX -> 0 <= x_p x < len ->
  good_step x (Ok (content_length_char x ch)).
Proof.
  intros He Hl Hp. unfold content_length_char. cbv zeta.
  destruct (ch =? 32); [split; [apply same_refl|]; split; [done|]; split; [by split|lia]|].
  destruct (negb (IS_NUM ch)); [intros r p; apply fine_error; [done|cbn; lia]|].
  destruct (_ <? _); [intros r p; apply fine_error; [done|cbn; lia]|].
  split; [by split; [..|by intros []]|]. split; [|split; [by split|cbn; lia]].
  set (t := u64 (hp_content_length (x_parser x) * 10) + (ch - 48)). change (0 <= u64 t <= ULLONG_MAX).
  unfold u64, ULLONG_MAX. pose proof (Z.mod_pos_bound t (2 ^ 64)). lia.
Qed.

Lemma match_word_in_value word c fail found state i :
  in_value fail -> in_value found -> in_value state -> in_value (match_word word c fail found state i).
Proof. intros Hf Hfo Hs. unfold match_word. by destruct ((zlen word <? i) || _); [|destruct (i =? zlen word - 1)]. Qed.

Lemma value_char_safe (x : exec W) h ch :
  hp_http_errno (x_parser x) = HPE_OK -> 0 <= hp_content_length (x_parser x) <= ULLONG_MAX -> 0 <= x_p x < len ->
  x_p_state x = s_header_value -> in_value h -> arr_get data (x_p x) = Ok ch -> is_eol ch = false ->
  good_step x (value_char data lenient x h ch).
Proof.
  intros He Hl Hp Hst [Hc Hte] Hch Heol.
  assert (forall f x' h', x' = with_parser f x -> hp_http_errno (f (x_parser x)) = HPE_OK ->
    0 <= hp_content_length (f (x_parser x)) <= ULLONG_MAX -> in_value h' -> good_step x (Ok (Value x' h'))) as Hval.
  { intros f x' h' -> Hf Hlf Hh. split; [split; [by rewrite He|done|by intros []]|]. split; [done|]. split; [done|cbn; lia]. }
  assert (forall h', in_value h' -> good_step x (Ok (Value x h'))) as Hsame.
  { intros h' Hh. split; [apply same_refl|]. split; [done|]. split; [done|lia]. }
  assert (forall word c fail found state, in_value fail -> in_value found -> in_value state ->
    good_step x (Ok (value_word x word c fail found state))) as Hword.
  { intros. eapply (Hval (fun q => q <| hp_index := _ |>)); [reflexivity|done|done|by apply match_word_in_value]. }
  assert (forall start state, in_value start -> in_value state -> good_step x (Ok (value_list x ch start state))) as Hlist.
  { intros start state H1 H2. unfold value_list. destruct (ch =? 44); [|by apply Hsame].
    by eapply (Hval (fun q => q <| hp_index := 0 |>)). }
  unfold value_char. cbv zeta. destruct h; try done; cbn [mret outcome_ret];
    try (apply Hword; by split); try (apply Hlist; by split);
    try (by apply content_length_char_safe);
    try (apply Hsame; repeat match goal with |- context [if ?b then _ else _] => destruct b end; by split);
    try (split; [by split; [..|by intros []]|]; split; [done|]; split; [by split|cbn; lia]).
  - pose proof (skip_value_safe (length data) x (x_p x) (x_p x + Z.min (len - x_p x) max_header_size) He Hl) as Hsk.
    assert (forall c, x_p x = x_p x -> arr_get data (x_p x) = Ok c -> is_eol c = false) as Hfirst by (intros c _ E; congruence).
    pose proof limit_range.
    specialize (Hsk ltac:(lia) ltac:(lia) ltac:(lia)). specialize (Hsk ltac:(unfold zlen; lia) Hfirst).
    destruct (skip_value _ _ _ _ _) as [[x' h'|f]| | |]; try done. destruct Hsk as (Hs & Hl' & -> & Hp').
    split; [done|]. split; [by rewrite Hl'|]. by split.
  - destruct (ch =? 32); [apply Hsame; by split|by apply content_length_char_safe].
  - destruct (ch =? 32); [apply Hsame; by split|]. intros r p. apply fine_error; [done|cbn; lia].
  - destruct (ch =? 44); [|apply Hsame; destruct (negb _); by split].
    by eapply (Hval (fun q => (q <| hp_flags := Z.lor (hp_flags q) _ |>) <| hp_index := 0 |>)).
  - destruct (ch =? 44); [|apply Hsame; destruct (negb _); by split].
    by eapply (Hval (fun q => (q <| hp_flags := Z.lor (hp_flags q) _ |>) <| hp_index := 0 |>)).
  - destruct (ch =? 44); [|apply Hsame; destruct (negb _); by split].
    by eapply (Hval (fun q => (q <| hp_flags := Z.lor (hp_flags q) _ |>) <| hp_index := 0 |>)).
Qed.

Lemma fine_value_done r start h (y : exec W) :
  hp_http_errno (x_parser y) = HPE_OK -> 0 <= hp_content_length (x_parser y) <= ULLONG_MAX -> 0 <= start < len ->
  start <= x_p y <= len -> x_p_state y = s_header_almost_done \/ (x_p_state y = s_header_value /\ in_value h) ->
  (forall m, mark_ok (mark_state m (x_p_state y)) (get_mark m y) start) -> fine r start (value_done data start h y).
Proof.
  intros He Hl Hs Hp Hst Hm. unfold value_done. cbv zeta.
  assert (forall nr p', start <= p' < len -> fine r start (next (((set_header_state h y) <| x_p := p' |>) <| x_nread := nr |>))) as Hnext.
  { intros nr p' Hp'. split; [|exact Hp']. split; [done|done| |].
    - cbn [x_p_state]. change (state_ok 0 (x_p_state y) nr ((x_parser y) <| hp_header_state := h |>)). by destruct Hst as [->|[-> ?]].
    - intros m. apply (mark_ok_le _ _ start); [|cbn; lia]. specialize (Hm m). destruct m; exact Hm. }
  change (x_p (set_header_state h y)) with (x_p y). destruct (Z.eqb_spec (x_p y) len) as [E|Hne].
  - apply fine_count; [cbn; lia|]. intros nr. apply Hnext. cbn. lia.
  - apply fine_count; [cbn; lia|]. intros nr.
    replace (set_header_state h y) with ((set_header_state h y) <| x_p := x_p y |>) by (by destruct y). apply Hnext. lia.
Qed.

Lemma fine_value_loop fuel : forall start (x : exec W) h,
  hp_http_errno (x_parser x) = HPE_OK -> 0 <= hp_content_length (x_parser x) <= ULLONG_MAX -> 0 <= start < len ->
  start <= x_p x <= len -> x_p_state x = s_header_value -> in_value h ->
  (forall m, mark_ok (mark_state m s_header_value) (get_mark m x) start) -> len - x_p x <= Z.of_nat fuel ->
  fine 1 start (value_loop data lenient fuel start x h).
Proof.
  induction fuel as [|fuel IH]; intros start x h He Hl Hs Hp Hst Hh Hm Hf; cbn [value_loop];
    destruct (Z.eqb_spec (x_p x) len) as [E|Hne]; try lia;
    try (apply fine_value_done; [done|done|done|lia|by right|by rewrite Hst]).
  destruct (get_byte (x_p x)) as [c Hc]; [lia|]. rewrite Hc. cbn [mbind outcome_bind]. cbv zeta.
  destruct (c =? CR) eqn:Ecr; [|destruct (c =? LF) eqn:Elf].
  - eapply (fine_data _ _ _ _ _ _ _ true); [done|cbn; lia| |cbn; lia|].
    + apply (mark_ok_le _ _ start); [exact (Hm M_header_value)|cbn; lia].
    + intros st w1. apply fine_value_done; [done|done|done|cbn; lia|by left|].
      intros m. specialize (Hm m). destruct m; [..|done| | |]; (eapply mark_ok_false; exact Hm) || done.
  - apply fine_count; [cbn; lia|]. intros nr. eapply (fine_data _ _ _ _ _ _ _ true); [done|cbn; lia| |cbn; lia|].
    + apply (mark_ok_le _ _ start); [exact (Hm M_header_value)|cbn; lia].
    + intros st w1. split; [|split; [cbn; lia|cbn; lia]]. split; [done|done|done|].
      intros m. specialize (Hm m). destruct m; [..|done| | |]; (eapply mark_ok_false; exact Hm) || done.
  - destruct (bad_char lenient c); [by apply fine_error; [|cbn; lia]|].
    match goal with |- fine _ _ (value_char _ _ ?y _ _ ≫= _) =>
      assert (same x y) as Hs0 by (by split; [..|by intros []]);
      pose proof (value_char_safe y h c He Hl ltac:(cbn; lia) Hst Hh Hc) as Hstep;
      unfold is_eol in Hstep; rewrite Ecr, Elf in Hstep; specialize (Hstep eq_refl)
    end.
    destruct (value_char _ _ _ _ _) as [[x1 h1|f]| | |]; try done.
    destruct Hstep as (Hs1 & Hl1 & Hh1 & Hp1). cbn [mbind outcome_bind].
    match type of Hp1 with ?a <= _ < _ => change a with (x_p x) in Hp1 end.
    destruct (same_trans _ _ _ Hs0 Hs1) as [He1 Hst1 Hm1]. apply IH; [|done|done|cbn; lia| |done| |cbn; lia].
    + change (hp_http_errno (x_parser x1) = HPE_OK). by rewrite He1.
    + change (x_p_state x1 = s_header_value). by rewrite Hst1.
    + intros m. specialize (Hm m). rewrite <- Hm1 in Hm. destruct m; exact Hm.
Qed.

Lemma fine_header_value (x : exec W) :
  exec_ok 1 x -> 0 <= x_p x < len -> x_p_state x = s_header_value -> fine (rank s_header_value) (x_p x) (exec_header_value data lenient x).
Proof.
  intros [He Hl Hs Hm] Hp Hst. rewrite Hst in Hs, Hm. apply fine_value_loop; try done; [lia|]. unfold zlen. lia.
Qed.

Lemma fine_header_value_discard_ws (x : exec W) st :
  exec_ok 1 x -> 0 <= x_p x < len -> x_p_state x = st -> st = s_header_value_discard_ws \/ st = s_header_value_start ->
  fine (rank st) (x_p x) (exec_header_value_discard_ws x) /\ fine (rank st) (x_p x) (exec_header_value_start x).
Proof.
  intros Hok Hp Hst Hor.
  assert (forall m, get_mark m x = None) as Hno by (intros m; eapply no_marks; [done|]; rewrite Hst; by destruct Hor as [->| ->]; destruct m).
  pose proof Hok as [He Hl Hs _].
  assert (fine (rank st) (x_p x) (exec_header_value_start x)) as Hstart by (apply fine_value_start; [done|done|lia|lia|done]).
  split; [|done]. unfold exec_header_value_discard_ws.
  assert (forall st1, (forall n nread q, state_ok n st1 nread q) -> fine (rank st) (x_p x) (next (set_state st1 x))) as Hnext.
  { intros st1 Hs1. split; [|cbn; lia]. split; [done|done|apply Hs1|]. intros m.
    replace (get_mark m (set_state st1 x)) with (get_mark m x) by (by destruct m). by rewrite Hno. }
  destruct (_ || _).
  { split; [|lia]. split; [done|done|rewrite Hst; by destruct Hor as [->| ->]|]. intros m. by rewrite Hno. }
  destruct (_ =? CR); [by apply Hnext|]. destruct (_ =? LF); [by apply Hnext|exact Hstart].
Qed.

Lemma fine_header_value_lws (x : exec W) :
  exec_ok 1 x -> 0 <= x_p x < len -> x_p_state x = s_header_value_lws -> fine (rank s_header_value_lws) (x_p x) (exec_header_value_lws x).
Proof.
  open_exec. unfold exec_header_value_lws. cbv zeta. destruct (_ || _).
  - case_bool_decide; fine_leaf.
  - destruct h; fine_leaf.
Qed.

Lemma fine_header_value_discard_lws (x : exec W) :
  exec_ok 1 x -> 0 <= x_p x < len -> x_p_state x = s_header_value_discard_lws ->
  fine (rank s_header_value_discard_lws) (x_p x) (exec_header_value_discard_lws data x).
Proof.
  open_exec. unfold exec_header_value_discard_lws. destruct (_ || _); [fine_leaf|].
  destruct (bool_decide _); [fine_leaf|]. cbv zeta. pose proof (mark_none _ _ (Hm M_header_value)) as Hvm. cbn in Hvm. subst vm.
  destruct h; (eapply (fine_data _ _ _ _ _ _ _ true); [done|cbn; lia|by split; [|cbn; lia]|cbn; lia|]; intros st w1; fine_leaf).
Qed.

(** ** The end of the headers *)

Lemma fine_message_complete r p (x : exec W) k :
  hp_http_errno (x_parser x) = HPE_OK -> 0 <= x_p x < len ->
  (forall st w, fine r p (k (after_notify (set_state (NEW_MESSAGE (x_parser x)) x) st w))) -> fine r p (message_complete x k).
Proof.
  intros He Hp Hk. unfold message_complete, CALLBACK_NOTIFY.
  apply fine_notify; [done|done|cbn; lia|by right; right; left|exact Hk].
Qed.

Lemma state_ok_new n nread q q' : state_ok n (NEW_MESSAGE q') nread q.
Proof. unfold NEW_MESSAGE, start_state. destruct (http_should_keep_alive q'); [by destruct (bool_decide _)|done]. Qed.

(** The message that follows. *)
Lemma fine_new_message r p (x : exec W) q st w :
  hp_http_errno (x_parser x) = HPE_OK -> 0 <= hp_content_length (x_parser x) <= ULLONG_MAX -> 0 <= p -> p <= x_p x < len ->
  (forall m, get_mark m x = None) ->
  fine r p (next (after_notify (set_state (NEW_MESSAGE q) x) st w)).
Proof.
  intros He Hl Hp0 Hp Hm. split; [|cbn; lia]. split; [exact He|exact Hl|apply state_ok_new|].
  intros m. match goal with |- mark_ok _ (get_mark m ?y) _ => replace (get_mark m y) with (get_mark m x) by (by destruct m) end.
  by rewrite Hm.
Qed.

Lemma fine_leave_new r p n (x : exec W) q st w :
  0 <= hp_content_length (x_parser x) <= ULLONG_MAX -> 0 <= n <= len -> truthy (hp_upgrade (x_parser x)) = true ->
  fine r p (leave n (after_notify (set_state (NEW_MESSAGE q) x) st w)).
Proof. intros Hl Hn Hu. apply fine_leave; [exact Hl|apply state_ok_new|exact Hn|right; right; exact Hu]. Qed.

Lemma headers_complete_calm r p (x : exec W) k :
  0 <= x_p x < len ->
  (forall q w, hp_http_errno q = hp_http_errno (x_parser x) -> hp_content_length q = hp_content_length (x_parser x) ->
    fine r p (k (x <| x_parser := q |> <| x_w := w |>))) ->
  fine r p (headers_complete x k).
Proof.
  intros Hp Hk. unfold headers_complete. destruct cb_headers_complete as [f|] eqn:Ef.
  - destruct (calm_notify Hcalm f (x_w x) (x_parser x)) as (rc & w & ->).
    { rewrite Ef. by right; left. }
    cbn [mbind outcome_bind]. cbv zeta. destruct (rc =? 0); [by apply Hk|].
    destruct (rc =? 2); [|destruct (rc =? 1)]; [..|by apply fine_error; [|cbn; lia]];
      match goal with |- fine _ _ (k ?y) => specialize (Hk (x_parser y) w); apply Hk; done end.
  - specialize (Hk (x_parser x) (x_w x)). replace (x <| x_parser := x_parser x |> <| x_w := x_w x |>) with x in Hk by (by destruct x).
    by apply Hk.
Qed.

Lemma fine_headers_almost_done (x : exec W) :
  exec_ok 1 x -> 0 <= x_p x < len -> x_p_state x = s_headers_almost_done ->
  fine (rank s_headers_almost_done) (x_p x) (exec_headers_almost_done lenient x).
Proof.
  open_exec. unfold exec_headers_almost_done. apply fine_strict; [cbn; lia|]. destruct (flag _ _).
  - apply fine_notify; [done|done|cbn; lia|by do 4 right; left|]. intros st w1. fine_leaf.
  - destruct (_ && _); [fine_leaf|]. cbv zeta. apply headers_complete_calm; [cbn; lia|].
    intros q w1 Eq El. unfold no_error. rewrite bool_decide_true by exact Eq.
    split; [split; [exact Eq| |done|marks]|split; [cbn; lia|cbn; lia]].
    change (0 <= hp_content_length q <= ULLONG_MAX). rewrite El. exact Hl.
Qed.

Lemma fine_headers_done (x : exec W) :
  exec_ok 1 x -> 0 <= x_p x < len -> x_p_state x = s_headers_done ->
  fine (rank s_headers_done) (x_p x) (exec_headers_done lenient x).
Proof.
  open_exec. unfold exec_headers_done. apply fine_strict; [cbn; lia|]. cbv zeta.
  set (y := reset_nread _). assert (forall m, get_mark m y = None) as Hno.
  { intros m. specialize (Hm m). by destruct m; eapply mark_none. }
  assert (hp_http_errno (x_parser y) = HPE_OK) as He by done.
  assert (0 <= hp_content_length (x_parser y) <= ULLONG_MAX) as Hly by done.
  assert (x_p y = p) as Epy by done. assert (x_nread y = 0) as Eny by done. clearbody y. subst p. cbn [x_p] in *.
  assert (forall st, state_ok 0 st 0 (x_parser y) -> fine (rank s_headers_done) (x_p y) (next (set_state st y))) as Hnext.
  { intros st Hst. split; [|cbn; lia]. split; [done|done|cbn; by rewrite Eny|]. intros m.
    match goal with |- mark_ok _ (get_mark m ?z) _ => replace (get_mark m z) with (get_mark m y) by (by destruct m) end. by rewrite Hno. }
  assert (fine (rank s_headers_done) (x_p y) (message_complete y next)) as Hmc.
  { apply fine_message_complete; [done|lia|]. intros. apply fine_new_message; [done|done|lia|lia|done]. }
  destruct (truthy (hp_upgrade (x_parser y)) && _) eqn:Eu.
  - apply andb_true_iff in Eu as [Eu _].
    apply fine_message_complete; [done|lia|]. intros. by apply fine_leave_new; [|cbn; lia|].
  - clear Eu. destruct (flag _ F_SKIPBODY); [done|]. destruct (flag _ F_CHUNKED) eqn:Ec; [by apply Hnext|].
    destruct (transfer_encoding_flag _).
    { destruct (_ && _); [apply fine_error; [done|lia]|by apply Hnext]. }
    destruct (Z.eqb_spec (hp_content_length (x_parser y)) 0); [done|].
    destruct (Z.eqb_spec (hp_content_length (x_parser y)) ULLONG_MAX); [|apply Hnext; cbn; lia].
    cbn [negb]. destruct (negb _); [done|by apply Hnext].
Qed.

(** ** Bodies *)

Hypothesis Hlen : len < 2 ^ 64.

(** Some bytes are read: all that is left of the body, or all of the buffer. *)
Lemma read_body_safe (x : exec W) :
  0 < hp_content_length (x_parser x) < ULLONG_MAX -> 0 <= x_p x < len ->
  exists k, read_body data x = Ok ((set_content_length (hp_content_length (x_parser x) - k) (MARK M_body x)) <| x_p := x_p x + (k - 1) |>) /\
    0 < k <= hp_content_length (x_parser x) /\ x_p x + k <= len.
Proof.
  intros Hn Hp. unfold read_body. cbv zeta. rewrite !(proj2 (Z.eqb_neq _ _)) by lia. cbn [negb andb c_assert mbind outcome_bind].
  replace (u64 (len - x_p x)) with (len - x_p x) by (symmetry; apply Z.mod_small; lia).
  exists (Z.min (hp_content_length (x_parser x)) (len - x_p x)). split; [|lia].
  replace (x_p (set_content_length _ _)) with (x_p x); [done|]. unfold MARK. by destruct (get_mark M_body x).
Qed.

(** After [read_body]: the body's mark is set, the others are not. *)
Lemma body_marks (x : exec W) n m :
  exec_ok n x -> (forall m, m <> M_body -> mark_state m (x_p_state x) = false) -> 0 <= x_p x ->
  mark_ok (bool_decide (m = M_body)) (get_mark m (MARK M_body x)) (x_p x).
Proof.
  intros Hok Hno Hp. destruct (decide (m = M_body)) as [->|Hne].
  - unfold MARK. pose proof (ok_marks _ _ Hok M_body) as Hm. destruct (get_mark M_body x) as [v|] eqn:Ev; [|by split; [|lia]].
    rewrite Ev. by split; [|apply Hm].
  - replace (get_mark m (MARK M_body x)) with (get_mark m x) by (unfold MARK; destruct (get_mark M_body x); by destruct m).
    by rewrite (no_marks n x m Hok (Hno m Hne)).
Qed.

Lemma mark_body_same (x : exec W) : x_parser (MARK M_body x) = x_parser x /\ x_p (MARK M_body x) = x_p x /\
  x_p_state (MARK M_body x) = x_p_state x /\ x_nread (MARK M_body x) = x_nread x.
Proof. unfold MARK. by destruct (get_mark M_body x). Qed.

Lemma fine_body_identity (x : exec W) :
  exec_ok 1 x -> 0 <= x_p x < len -> x_p_state x = s_body_identity ->
  fine (rank s_body_identity) (x_p x) (exec_body_identity data x).
Proof.
  intros Hok Hp Hst. pose proof Hok as [He Hl Hs _]. rewrite Hst in Hs. cbn in Hs.
  assert (forall m, mark_ok (bool_decide (m = M_body)) (get_mark m (MARK M_body x)) (x_p x)) as Hbm.
  { intros m. eapply body_marks; [done|rewrite Hst; by intros []|lia]. }
  destruct (mark_body_same x) as (Eq & Ep & Est & Enr).
  unfold exec_body_identity. destruct (read_body_safe x Hs Hp) as (k & -> & Hk & Hpk). cbn [mbind outcome_bind].
  set (y := MARK M_body x) in *. clearbody y.
  match goal with |- context [?a =? 0] => change a with (hp_content_length (x_parser x) - k) end.
  destruct (Z.eqb_spec (hp_content_length (x_parser x) - k) 0) as [E|Hne].
  - eapply (fine_data _ _ _ _ _ _ _ true); [cbn; by rewrite Eq|cbn; lia| |cbn; lia|].
    + apply (mark_ok_le _ _ (x_p x)); [exact (Hbm M_body)|cbn; lia].
    + intros st1 w1. split; [|split; [cbn; lia|cbn; lia]]. split; [cbn; by rewrite Eq| |done|].
      * change (0 <= hp_content_length (x_parser x) - k <= ULLONG_MAX). lia.
      * intros m. specialize (Hbm m). destruct m; [..|done|]; eapply mark_ok_false; exact Hbm.
  - split; [|cbn; lia]. split; [cbn; by rewrite Eq| | |].
    + change (0 <= hp_content_length (x_parser x) - k <= ULLONG_MAX). lia.
    + cbn [x_p_state]. match goal with |- state_ok _ ?a _ _ => change a with (x_p_state y) end. rewrite Est, Hst.
      change (0 < hp_content_length (x_parser x) - k < ULLONG_MAX). lia.
    + intros m. specialize (Hbm m). match goal with |- mark_ok (mark_state _ ?a) _ _ => change a with (x_p_state y) end. rewrite Est, Hst.
      apply (mark_ok_le _ _ (x_p x)); [|cbn; lia]. destruct m; exact Hbm.
Qed.

Lemma fine_body_identity_eof (x : exec W) :
  exec_ok 1 x -> 0 <= x_p x < len -> x_p_state x = s_body_identity_eof ->
  fine (rank s_body_identity_eof) (x_p x) (exec_body_identity_eof data x).
Proof.
  intros Hok Hp Hst. pose proof Hok as [He Hl Hs _].
  destruct (mark_body_same x) as (Eq & Ep & Est & Enr). unfold exec_body_identity_eof.
  split; [|cbn; lia]. split; [cbn; by rewrite Eq|cbn; by rewrite Eq|cbn; by rewrite Est, Hst|].
  intros m. assert (mark_ok (bool_decide (m = M_body)) (get_mark m (MARK M_body x)) (x_p x)) as Hbm.
  { eapply body_marks; [done|rewrite Hst; by intros []|lia]. }
  match goal with |- mark_ok (mark_state _ ?a) _ _ => change a with (x_p_state (MARK M_body x)) end. rewrite Est, Hst.
  apply (mark_ok_le _ _ (x_p x)); [|cbn; lia]. destruct m; exact Hbm.
Qed.

Lemma fine_message_done (x : exec W) :
  exec_ok 1 x -> 0 <= x_p x < len -> x_p_state x = s_message_done ->
  fine (rank s_message_done) (x_p x) (exec_message_done x).
Proof.
  intros Hok Hp Hst. pose proof Hok as [He Hl _ _]. unfold exec_message_done. apply fine_message_complete; [done|lia|].
  intros st w. destruct (truthy _) eqn:Eu; [by apply fine_leave_new; [|cbn; lia|]|].
  apply fine_new_message; [done|done|lia|lia|]. intros m. eapply no_marks; [done|]. rewrite Hst. by destruct m.
Qed.

(** ** Chunks *)

Lemma unhex_bounds c : -1 <= entry unhex (u8 c) <= 15.
Proof.
  assert (forallb (fun v => (-1 <=? v) && (v <=? 15)) unhex = true) as Hall by (vm_compute; reflexivity).
  rewrite forallb_forall in Hall. unfold entry. destruct (nth_in_or_default (Z.to_nat (u8 c)) unhex 0) as [Hin| ->]; [|lia].
  specialize (Hall _ Hin). lia.
Qed.

Lemma fine_chunk_size_start (x : exec W) :
  exec_ok 1 x -> 0 <= x_p x < len -> x_p_state x = s_chunk_size_start ->
  fine (rank s_chunk_size_start) (x_p x) (exec_chunk_size_start x).
Proof.
  open_exec. destruct Hs as [-> Hc]. unfold exec_chunk_size_start, assert_chunked. cbn [x_nread x_parser x_ch]. rewrite Hc.
  cbn [c_assert mbind outcome_bind]. change (1 =? 1) with true. cbn [c_assert mbind outcome_bind]. cbv zeta.
  pose proof (unhex_bounds ch). destruct (Z.eqb_spec (entry unhex (u8 ch)) (-1)); [fine_leaf|].
  split; [split; [done| | |marks]|cbn; lia].
  - change (0 <= entry unhex (u8 ch) <= ULLONG_MAX). unfold ULLONG_MAX. lia.
  - split; [exact Hc|]. change (0 <= entry unhex (u8 ch) < ULLONG_MAX). unfold ULLONG_MAX. lia.
Qed.

Lemma fine_chunk_size (x : exec W) :
  exec_ok 1 x -> 0 <= x_p x < len -> x_p_state x = s_chunk_size ->
  fine (rank s_chunk_size) (x_p x) (exec_chunk_size x).
Proof.
  open_exec. destruct Hs as [Hc Hn]. cbn in Hn. unfold exec_chunk_size, assert_chunked. cbn [x_parser x_ch]. rewrite Hc.
  cbn [c_assert mbind outcome_bind]. cbv zeta. pose proof (unhex_bounds ch).
  destruct (ch =? CR); [by split; [split; [done|done|by split|marks]|cbn; lia]|].
  destruct (Z.eqb_spec (entry unhex (u8 ch)) (-1)).
  { destruct (_ || _); [by split; [split; [done|done|by split|marks]|cbn; lia]|fine_leaf]. }
  cbn [hp_content_length]. destruct (Z.ltb_spec ((ULLONG_MAX - 16) / 16) cl); [fine_leaf|].
  assert (cl <= 1152921504606846974) as Hcl by (change ((ULLONG_MAX - 16) / 16) with 1152921504606846974 in *; lia).
  assert (u64 (u64 (cl * 16) + entry unhex (u8 ch)) = cl * 16 + entry unhex (u8 ch)) as ->.
  { unfold u64. rewrite (Z.mod_small (cl * 16)) by lia. apply Z.mod_small. lia. }
  split; [split; [done| | |marks]|cbn; lia].
  - change (0 <= cl * 16 + entry unhex (u8 ch) <= ULLONG_MAX). unfold ULLONG_MAX. lia.
  - split; [exact Hc|]. change (0 <= cl * 16 + entry unhex (u8 ch) < ULLONG_MAX). unfold ULLONG_MAX. lia.
Qed.

Lemma fine_chunk_parameters (x : exec W) :
  exec_ok 1 x -> 0 <= x_p x < len -> x_p_state x = s_chunk_parameters ->
  fine (rank s_chunk_parameters) (x_p x) (exec_chunk_parameters x).
Proof.
  open_exec. destruct Hs as [Hc Hn]. cbn in Hn. unfold exec_chunk_parameters, assert_chunked. cbn [x_parser x_ch]. rewrite Hc.
  cbn [c_assert mbind outcome_bind]. destruct (ch =? CR); by split; [split; [done|done|by split|marks]|cbn; lia].
Qed.

Lemma fine_chunk_size_almost_done (x : exec W) :
  exec_ok 1 x -> 0 <= x_p x < len -> x_p_state x = s_chunk_size_almost_done ->
  fine (rank s_chunk_size_almost_done) (x_p x) (exec_chunk_size_almost_done x).
Proof.
  open_exec. destruct Hs as [Hc Hn]. cbn in Hn. unfold exec_chunk_size_almost_done, assert_chunked. cbn [x_parser x_ch]. rewrite Hc.
  cbn [c_assert mbind outcome_bind]. apply fine_strict; [cbn; lia|]. cbv zeta.
  match goal with |- context [?a =? 0] => change a with cl end.
  destruct (Z.eqb_spec cl 0); (apply fine_notify; [done|done|cbn; lia|by do 3 right; left|]); intros st w1.
  - fine_leaf.
  - split; [split; [done|done|cbn|marks]|cbn; lia]. split; [exact Hc|lia].
Qed.

Lemma fine_chunk_data (x : exec W) :
  exec_ok 1 x -> 0 <= x_p x < len -> x_p_state x = s_chunk_data ->
  fine (rank s_chunk_data) (x_p x) (exec_chunk_data data x).
Proof.
  intros Hok Hp Hst. pose proof Hok as [He Hl Hs _]. rewrite Hst in Hs. destruct Hs as [Hc Hn].
  assert (forall m, mark_ok (bool_decide (m = M_body)) (get_mark m (MARK M_body x)) (x_p x)) as Hbm.
  { intros m. eapply body_marks; [done|rewrite Hst; by intros []|lia]. }
  destruct (mark_body_same x) as (Eq & Ep & Est & Enr). unfold exec_chunk_data, assert_chunked. rewrite Hc. cbn [c_assert mbind outcome_bind].
  destruct (read_body_safe x Hn Hp) as (k & -> & Hk & Hpk). cbn [mbind outcome_bind]. set (y := MARK M_body x) in *. clearbody y.
  match goal with |- context [?a =? 0] => change a with (hp_content_length (x_parser x) - k) end.
  assert (forall st1 z, (z = s_chunk_data_almost_done /\ hp_content_length (x_parser x) = k) \/ (z = s_chunk_data /\ k < hp_content_length (x_parser x)) ->
    st1 = (set_content_length (hp_content_length (x_parser x) - k) y) <| x_p := x_p x + (k - 1) |> ->
    fine (rank s_chunk_data) (x_p x) (next (set_state z st1))) as Hnext.
  { intros st1 z Hz ->. split; [|cbn; lia]. split; [cbn; by rewrite Eq| | |].
    - change (0 <= hp_content_length (x_parser x) - k <= ULLONG_MAX). lia.
    - assert (flag ((x_parser y) <| hp_content_length := hp_content_length (x_parser x) - k |>) F_CHUNKED = true) as Hcy by (by rewrite Eq).
      destruct Hz as [[-> Ez]|[-> Ez]]; (split; [exact Hcy|]).
      + change (hp_content_length (x_parser x) - k = 0). lia.
      + change (0 < hp_content_length (x_parser x) - k < ULLONG_MAX). lia.
    - intros m. specialize (Hbm m). apply (mark_ok_le _ _ (x_p x)); [|cbn; lia].
      destruct Hz as [[-> _]|[-> _]]; destruct m; exact Hbm. }
  destruct (Z.eqb_spec (hp_content_length (x_parser x) - k) 0) as [E|Hne].
  - apply Hnext; [left; split; [done|lia]|done].
  - match goal with |- fine _ _ (next ?z) => replace z with (set_state s_chunk_data z) end.
    + apply Hnext; [right; split; [done|lia]|done].
    + unfold set_state. rewrite <- Hst, <- Est. by destruct y.
Qed.

Lemma fine_chunk_data_almost_done (x : exec W) :
  exec_ok 1 x -> 0 <= x_p x < len -> x_p_state x = s_chunk_data_almost_done ->
  fine (rank s_chunk_data_almost_done) (x_p x) (exec_chunk_data_almost_done data x).
Proof.
  open_exec. destruct Hs as [Hc Hn]. cbn in Hn. unfold exec_chunk_data_almost_done, assert_chunked. cbn [x_parser x_ch]. rewrite Hc.
  cbn [c_assert mbind outcome_bind hp_content_length]. rewrite Hn. change (0 =? 0) with true. cbn [c_assert mbind outcome_bind].
  apply fine_strict; [cbn; lia|]. eapply fine_data; [done|cbn; lia|apply (Hm M_body)|cbn; lia|]. intros st w1.
  split; [split; [done|cbn; unfold ULLONG_MAX; lia|exact Hc|marks]|cbn; lia].
Qed.

Lemma fine_chunk_data_done (x : exec W) :
  exec_ok 1 x -> 0 <= x_p x < len -> x_p_state x = s_chunk_data_done ->
  fine (rank s_chunk_data_done) (x_p x) (exec_chunk_data_done x).
Proof.
  open_exec. unfold exec_chunk_data_done, assert_chunked. cbn [x_parser x_ch]. cbn in Hs. rewrite Hs.
  cbn [c_assert mbind outcome_bind]. apply fine_strict; [cbn; lia|].
  apply fine_notify; [done|done|cbn; lia|by do 4 right; left|]. intros st w1.
  split; [split; [done|cbn; lia|by split; [|exact Hs]|marks]|cbn; lia].
Qed.

(** ** The switch and the loop *)

Ltac expects x Hst :=
  first [ eapply (fine_expect _ _ _ x) | eapply (fine_version _ _ x) ];
  [assumption|assumption|exact Hst|by intros []|done].

Lemma fine_switch (x : exec W) :
  exec_ok 1 x -> 0 <= x_p x < len -> fine (rank (x_p_state x)) (x_p x) (exec_switch data lenient x).
Proof.
  intros Hok Hp. destruct (x_p_state x) eqn:Hst; unfold exec_switch; rewrite Hst; try (by expects x Hst);
    auto using fine_dead, fine_start_req_or_res, fine_res_or_resp_H, fine_start_res, fine_res_http_end, fine_res_first_status_code,
      fine_res_status_code, fine_res_status_start, fine_res_status, fine_start_req, fine_req_method, fine_req_spaces_before_url,
      fine_req_schema, fine_req_url, fine_req_http_start, fine_req_http_end, fine_header_field_start, fine_header_field,
      fine_header_value, fine_header_value_lws, fine_header_value_discard_lws, fine_headers_almost_done, fine_headers_done,
      fine_body_identity, fine_body_identity_eof, fine_message_done, fine_chunk_size_start, fine_chunk_size, fine_chunk_parameters,
      fine_chunk_size_almost_done, fine_chunk_data, fine_chunk_data_almost_done, fine_chunk_data_done.
  - apply (fine_header_value_discard_ws x s_header_value_discard_ws); auto.
  - apply (fine_header_value_discard_ws x s_header_value_start); auto.
Qed.

(** The cases for a byte come to an end. *)
Definition stepped (p : Z) (f : outcome (flow W)) : Prop :=
  match f with
  | Ok (Next x) => exec_ok 0 x /\ p <= x_p x < len
  | Ok (Done n q w) => 0 <= n <= len /\ stopped n q /\ parser_ok q
  | _ => False
  end.

Lemma stepped_le p p' f : stepped p' f -> p <= p' -> stepped p f.
Proof. intros Hs Hle. destruct f as [[x|x|n q w]| | |]; try done. destruct Hs as [? ?]. split; [done|lia]. Qed.

Lemma reexecute_steps fuel : forall x : exec W,
  exec_ok 1 x -> 0 <= x_p x < len -> (rank (x_p_state x) < fuel)%nat -> stepped (x_p x) (reexecute data lenient fuel x).
Proof.
  induction fuel as [|fuel IH]; intros x Hok Hp Hr; [lia|]. cbn [reexecute]. pose proof (fine_switch x Hok Hp) as Hf.
  destruct (exec_switch data lenient x) as [[y|y|n q w]| | |]; try done. cbn [mbind outcome_bind].
  destruct Hf as (Hoky & Hpy & Hry). eapply stepped_le; [apply IH; [done|lia|lia]|lia].
Qed.

Lemma rank_bound st : (rank st < 5)%nat.
Proof. destruct st; cbn; lia. Qed.

Lemma execute_byte_steps (x : exec W) :
  exec_ok 0 x -> 0 <= x_p x < len -> stepped (x_p x) (execute_byte data lenient x).
Proof.
  intros [He Hl Hs Hm] Hp. unfold execute_byte. destruct (get_byte (x_p x) Hp) as [c ->]. cbn [mbind outcome_bind]. cbv zeta.
  set (y := x <| x_ch := c |>).
  change (x_p_state y) with (x_p_state x). destruct (PARSING_HEADER (x_p_state x)) eqn:Eph.
  - unfold COUNT_HEADER_SIZE. cbv zeta. match goal with |- context [if ?b then _ else _] => destruct b end.
    { split; [cbn; lia|]. split; [by right; left|by intros E]. }
    match goal with |- stepped _ (reexecute _ _ _ ?z) => apply (reexecute_steps 5 z) end; [split|exact Hp|apply rank_bound];
      [exact He|exact Hl| |].
    + change (state_ok 1 (x_p_state x) (u32 (x_nread x + u32 1)) (x_parser x)).
      revert Hs. destruct (x_p_state x); intros Hs; try exact Hs. destruct Hs as [-> Hc]. by split; [vm_compute|].
    + intros m. specialize (Hm m). by destruct m.
  - apply (reexecute_steps 5 y); [split|exact Hp|apply rank_bound]; [exact He|exact Hl| |].
    + change (state_ok 1 (x_p_state x) (x_nread x) (x_parser x)). by destruct (x_p_state x); try exact Hs.
    + intros m. specialize (Hm m). by destruct m.
Qed.

(** At most one mark is set. *)
Lemma count_marks_le n (x : exec W) : exec_ok n x -> count_marks x <= 1.
Proof.
  intros Hok. assert (forall m, c_bool (bool_decide (is_Some (get_mark m x))) <= c_bool (mark_state m (x_p_state x))) as Hle.
  { intros m. pose proof (ok_marks _ _ Hok m) as Hm. destruct (get_mark m x); [|by destruct (mark_state _ _)].
    destruct Hm as [-> _]. by destruct (bool_decide _). }
  unfold count_marks. pose proof (Hle M_header_field). pose proof (Hle M_header_value). pose proof (Hle M_url).
  pose proof (Hle M_body). pose proof (Hle M_status).
  enough (c_bool (mark_state M_header_field (x_p_state x)) + c_bool (mark_state M_header_value (x_p_state x)) +
    c_bool (mark_state M_url (x_p_state x)) + c_bool (mark_state M_body (x_p_state x)) + c_bool (mark_state M_status (x_p_state x)) <= 1) by lia.
  by destruct (x_p_state x).
Qed.

Definition finished (f : outcome (Z * http_parser * W)) : Prop :=
  match f with
  | Ok (n, q, _) => 0 <= n <= len /\ stopped n q /\ parser_ok q
  | _ => False
  end.

Lemma execute_end_finishes (x : exec W) :
  exec_ok 0 x -> x_p x = len -> finished (f ← execute_end data x; result f).
Proof.
  intros Hok Hp. pose proof Hok as [He Hl Hs Hm]. unfold execute_end. rewrite (proj2 (Z.leb_le _ _)) by (by eapply count_marks_le).
  cbn [c_assert mbind outcome_bind]. pose proof (zlen_nonneg data) as Hnn.
  enough (fine 0 len (CALLBACK_DATA_NOADVANCE data M_header_field x (fun x => CALLBACK_DATA_NOADVANCE data M_header_value x (fun x =>
    CALLBACK_DATA_NOADVANCE data M_url x (fun x => CALLBACK_DATA_NOADVANCE data M_body x (fun x =>
    CALLBACK_DATA_NOADVANCE data M_status x (leave len))))))) as Hf.
  { match type of Hf with fine _ _ ?a => destruct a as [[y|y|n q w]| | |] end; try done; try exact Hf; cbn in Hf; lia. }
  unfold CALLBACK_DATA_NOADVANCE.
  do 5 (eapply fine_data; [done|cbn; lia| |cbn; lia|intros ? ?];
    [match goal with |- mark_ok _ (get_mark ?m _) _ => exact (Hm m) end|]).
  apply fine_leave; [exact Hl|exact Hs|lia|by left].
Qed.

Lemma execute_loop_finishes fuel : forall x : exec W,
  exec_ok 0 x -> 0 <= x_p x <= len -> len - x_p x <= Z.of_nat fuel -> finished (execute_loop data lenient fuel x).
Proof.
  induction fuel as [|fuel IH]; intros x Hok Hp Hf; cbn [execute_loop]; destruct (Z.eqb_spec (x_p x) len) as [E|Hne]; try lia;
    try (by apply execute_end_finishes).
  pose proof (execute_byte_steps x Hok ltac:(lia)) as Hstep.
  destruct (execute_byte data lenient x) as [[y|y|n q w]| | |]; try done. cbn [mbind outcome_bind]. destruct Hstep as [[He Hl Hs Hm] Hpy].
  apply IH; [|cbn; lia|cbn; lia]. split; [exact He|exact Hl|exact Hs|]. intros m. apply (mark_ok_le _ _ (x_p y)); [|cbn; lia].
  specialize (Hm m). by destruct m.
Qed.

End safe.

Lemma initial_exec_ok {W} (q : http_parser) (w : W) :
  parser_ok q -> hp_http_errno q = HPE_OK -> exec_ok 0 (initial_exec q w).
Proof.
  intros Hq He. destruct (Hq He) as [Hl Hs]. unfold initial_exec.
  destruct (hp_state q) eqn:Est; cbn [starts_in]; (split; [exact He|exact Hl|exact Hs|]); by intros [].
Qed.

Lemma init_parser_ok d t : parser_ok (http_parser_init d t).
Proof. intros _. split; [by split|by destruct t]. Qed.

(** The end of the stream. *)
Lemma execute_eof_finishes {W} `{HttpCallbacks W} (q : http_parser) (w : W) :
  calm W -> parser_ok q -> hp_http_errno q = HPE_OK ->
  exists n q' w', execute_eof q w = Ok (n, q', w') /\ 0 <= n <= 1 /\ parser_ok q'.
Proof.
  intros Hcalm Hq He. unfold execute_eof. destruct (hp_state q) eqn:Est;
    try (by eexists _, _, _; split; [reflexivity|]; split; [lia|]); try (eexists _, _, _; split; [reflexivity|]; split; [lia|]; by intros E).
  assert (initial_exec q w = mk_exec q w (hp_state q) (hp_nread q) 0 0 None None None None None) as -> by (unfold initial_exec; by rewrite Est).
  unfold CALLBACK_NOTIFY_NOADVANCE, CALLBACK_NOTIFY_, no_error. cbn [x_parser x_w x_p x_p_state]. rewrite bool_decide_true by done.
  cbn [c_assert mbind outcome_bind]. destruct cb_message_complete as [f|] eqn:Ef.
  - destruct (calm_notify Hcalm f w (q <| hp_state := hp_state q |>)) as (rc & w1 & ->); [rewrite Ef; by right; right; left|].
    unfold after_callback. cbn [mbind outcome_bind]. cbv zeta. destruct (rc =? 0); unfold no_error.
    + rewrite bool_decide_true by exact He. eexists _, _, _. split; [reflexivity|]. split; [lia|].
      replace (x_parser _) with q by (by destruct q). exact Hq.
    + rewrite bool_decide_false by done. eexists _, _, _. split; [reflexivity|]. split; [cbn; lia|]. by intros E.
  - eexists _, _, _. split; [reflexivity|]. split; [lia|exact Hq].
Qed.

(** C11. [http_parser_execute] returns, whatever the bytes: for callbacks that leave the parser
    alone, but may fail, no assertion fails, no index leaves the buffer or a table, and no loop goes
    on for ever; the parser it leaves can be given the next buffer.  A buffer that is not empty is
    read to its end unless there was an error or the connection is upgraded. *)
Theorem http_execute_safe {W} `{HttpCallbacks W} (q : http_parser) (w : W) (data : list Z) :
  calm W -> parser_ok q -> zlen data < 2 ^ 64 ->
  exists n q' w', http_parser_execute q w data = Ok (n, q', w') /\ parser_ok q' /\
    (hp_http_errno q = HPE_OK -> data <> [] -> 0 <= n <= zlen data /\ stopped data n q').
Proof.
  intros Hcalm Hq Hlen. unfold http_parser_execute, no_error. case_bool_decide as He; cbn [negb]; [|by eexists _, _, _; repeat split].
  destruct (Z.eqb_spec (zlen data) 0) as [E|Hne].
  - destruct (execute_eof_finishes q w Hcalm Hq He) as (n & q' & w' & -> & Hn & Hq'). exists n, q', w'. split; [done|]. split; [done|].
    intros _ Hd. by destruct data.
  - pose proof (zlen_nonneg data) as Hnn. assert (x_p (initial_exec q w) = 0) as Ep.
    { unfold initial_exec. by destruct (hp_state q). }
    pose proof (execute_loop_finishes Hcalm data (truthy (hp_lenient_http_headers q)) Hlen (length data) (initial_exec q w)) as Hf.
    rewrite Ep in Hf. specialize (Hf (initial_exec_ok q w Hq He) ltac:(lia) ltac:(unfold zlen; lia)).
    destruct (execute_loop _ _ _ _) as [[[n q'] w']| | |]; try done. destruct Hf as (Hn & Hs & Hq').
    by exists n, q', w'.
Qed.

(** Callbacks that count the bytes of the body and end the message with an error. *)
Definition counting : HttpCallbacks Z := {|
  cb_message_begin := None;
  cb_url := None;
  cb_status := None;
  cb_header_field := None;
  cb_header_value := None;
  cb_headers_complete := None;
  cb_body := Some (fun w q at_ => Ok (0, w + zlen at_, Some q));
  cb_message_complete := Some (fun w q => Ok (-1, w, Some q));
  cb_chunk_header := None;
  cb_chunk_complete := None
|}.

Lemma counting_calm : @calm Z counting.
Proof.
  split.
  - intros f w q Hf. rewrite !elem_of_cons in Hf. destruct Hf as [E|[E|[E|[E|[E|E]]]]]; try discriminate; [|by apply elem_of_nil in E].
    injection E as ->. by exists (-1), w.
  - intros [] f w q at_ E; try discriminate. injection E as <-. by eexists _, _.
Qed.

Example counting_counts :
  exists q, http_parser_execute (H := counting) (http_parser_init 0 HTTP_BOTH) 0 (lit "HTTP/1.1 200 OK"%str ++ [13; 10; 13; 10; 65; 66])
    = Ok (21, q, 2) /\ hp_state q = s_body_identity_eof.
Proof. eexists. split; vm_compute; reflexivity. Qed.

Lemma http_execute_safe_witness :
  exists n q' w', http_parser_execute (H := counting) (http_parser_init 0 HTTP_BOTH) 0 (lit "GET /"%str) = Ok (n, q', w') /\ parser_ok q' /\
    (hp_http_errno (http_parser_init 0 HTTP_BOTH) = HPE_OK -> lit "GET /"%str <> [] ->
      0 <= n <= zlen (lit "GET /"%str) /\ stopped (lit "GET /"%str) n q').
Proof. apply (@http_execute_safe Z counting); [exact counting_calm|apply init_parser_ok|vm_compute; reflexivity]. Defined.
