(* ===== verification/HttpUrl.v ===== *)
(** * http_parser: URLs, names and the other functions (src/http_parser.c)

    [http_parser_parse_url] cuts a URL into its fields, offsets and lengths of
    16 bits into the buffer; [http_parser_pause] and the tables of names are
    here too.  The broker calls none of them. *)

From S2P Require Import Prelude Text HttpTypes HttpParser HttpNames HttpSafe.

(** ** Names *)

(** The number and the text of each status. *)
Definition HTTP_STATUS_MAP : list (Z * String.string) :=
  [(100, "Continue"%str); (101, "Switching Protocols"%str); (102, "Processing"%str); (200, "OK"%str);
   (201, "Created"%str); (202, "Accepted"%str); (203, "Non-Authoritative Information"%str);
   (204, "No Content"%str); (205, "Reset Content"%str); (206, "Partial Content"%str);
   (207, "Multi-Status"%str); (208, "Already Reported"%str); (226, "IM Used"%str);
   (300, "Multiple Choices"%str); (301, "Moved Permanently"%str); (302, "Found"%str);
   (303, "See Other"%str); (304, "Not Modified"%str); (305, "Use Proxy"%str);
   (307, "Temporary Redirect"%str); (308, "Permanent Redirect"%str); (400, "Bad Request"%str);
   (401, "Unauthorized"%str); (402, "Payment Required"%str); (403, "Forbidden"%str);
   (404, "Not Found"%str); (405, "Method Not Allowed"%str); (406, "Not Acceptable"%str);
   (407, "Proxy Authentication Required"%str); (408, "Request Timeout"%str); (409, "Conflict"%str);
   (410, "Gone"%str); (411, "Length Required"%str); (412, "Precondition Failed"%str);
   (413, "Payload Too Large"%str); (414, "URI Too Long"%str); (415, "Unsupported Media Type"%str);
   (416, "Range Not Satisfiable"%str); (417, "Expectation Failed"%str);
   (421, "Misdirected Request"%str); (422, "Unprocessable Entity"%str); (423, "Locked"%str);
   (424, "Failed Dependency"%str); (426, "Upgrade Required"%str); (428, "Precondition Required"%str);
   (429, "Too Many Requests"%str); (431, "Request Header Fields Too Large"%str);
   (451, "Unavailable For Legal Reasons"%str); (500, "Internal Server Error"%str);
   (501, "Not Implemented"%str); (502, "Bad Gateway"%str); (503, "Service Unavailable"%str);
   (504, "Gateway Timeout"%str); (505, "HTTP Version Not Supported"%str);
   (506, "Variant Also Negotiates"%str); (507, "Insufficient Storage"%str); (508, "Loop Detected"%str);
   (510, "Not Extended"%str); (511, "Network Authentication Required"%str)].

Definition http_status_str (s : Z) : String.string :=
  match List.find (fun e => s =? e.1) HTTP_STATUS_MAP with
  | Some e => e.2
  | None => "<unknown>"%str
  end.

(** [http_strerror_tab] *)
Definition http_errno_name (err : http_errno) : String.string :=
  match err with
  | HPE_OK => "HPE_OK"%str
  | HPE_CB_message_begin => "HPE_CB_message_begin"%str
  | HPE_CB_url => "HPE_CB_url"%str
  | HPE_CB_header_field => "HPE_CB_header_field"%str
  | HPE_CB_header_value => "HPE_CB_header_value"%str
  | HPE_CB_headers_complete => "HPE_CB_headers_complete"%str
  | HPE_CB_body => "HPE_CB_body"%str
  | HPE_CB_message_complete => "HPE_CB_message_complete"%str
  | HPE_CB_status => "HPE_CB_status"%str
  | HPE_CB_chunk_header => "HPE_CB_chunk_header"%str
  | HPE_CB_chunk_complete => "HPE_CB_chunk_complete"%str
  | HPE_INVALID_EOF_STATE => "HPE_INVALID_EOF_STATE"%str
  | HPE_HEADER_OVERFLOW => "HPE_HEADER_OVERFLOW"%str
  | HPE_CLOSED_CONNECTION => "HPE_CLOSED_CONNECTION"%str
  | HPE_INVALID_VERSION => "HPE_INVALID_VERSION"%str
  | HPE_INVALID_STATUS => "HPE_INVALID_STATUS"%str
  | HPE_INVALID_METHOD => "HPE_INVALID_METHOD"%str
  | HPE_INVALID_URL => "HPE_INVALID_URL"%str
  | HPE_INVALID_HOST => "HPE_INVALID_HOST"%str
  | HPE_INVALID_PORT => "HPE_INVALID_PORT"%str
  | HPE_INVALID_PATH => "HPE_INVALID_PATH"%str
  | HPE_INVALID_QUERY_STRING => "HPE_INVALID_QUERY_STRING"%str
  | HPE_INVALID_FRAGMENT => "HPE_INVALID_FRAGMENT"%str
  | HPE_LF_EXPECTED => "HPE_LF_EXPECTED"%str
  | HPE_INVALID_HEADER_TOKEN => "HPE_INVALID_HEADER_TOKEN"%str
  | HPE_INVALID_CONTENT_LENGTH => "HPE_INVALID_CONTENT_LENGTH"%str
  | HPE_UNEXPECTED_CONTENT_LENGTH => "HPE_UNEXPECTED_CONTENT_LENGTH"%str
  | HPE_INVALID_CHUNK_SIZE => "HPE_INVALID_CHUNK_SIZE"%str
  | HPE_INVALID_CONSTANT => "HPE_INVALID_CONSTANT"%str
  | HPE_INVALID_INTERNAL_STATE => "HPE_INVALID_INTERNAL_STATE"%str
  | HPE_STRICT => "HPE_STRICT"%str
  | HPE_PAUSED => "HPE_PAUSED"%str
  | HPE_UNKNOWN => "HPE_UNKNOWN"%str
  | HPE_INVALID_TRANSFER_ENCODING => "HPE_INVALID_TRANSFER_ENCODING"%str
  end.

Definition http_errno_description (err : http_errno) : String.string :=
  match err with
  | HPE_OK => "success"%str
  | HPE_CB_message_begin => "the on_message_begin callback failed"%str
  | HPE_CB_url => "the on_url callback failed"%str
  | HPE_CB_header_field => "the on_header_field callback failed"%str
  | HPE_CB_header_value => "the on_header_value callback failed"%str
  | HPE_CB_headers_complete => "the on_headers_complete callback failed"%str
  | HPE_CB_body => "the on_body callback failed"%str
  | HPE_CB_message_complete => "the on_message_complete callback failed"%str
  | HPE_CB_status => "the on_status callback failed"%str
  | HPE_CB_chunk_header => "the on_chunk_header callback failed"%str
  | HPE_CB_chunk_complete => "the on_chunk_complete callback failed"%str
  | HPE_INVALID_EOF_STATE => "stream ended at an unexpected time"%str
  | HPE_HEADER_OVERFLOW => "too many header bytes seen; overflow detected"%str
  | HPE_CLOSED_CONNECTION => "data received after completed connection: close message"%str
  | HPE_INVALID_VERSION => "invalid HTTP version"%str
  | HPE_INVALID_STATUS => "invalid HTTP status code"%str
  | HPE_INVALID_METHOD => "invalid HTTP method"%str
  | HPE_INVALID_URL => "invalid URL"%str
  | HPE_INVALID_HOST => "invalid host"%str
  | HPE_INVALID_PORT => "invalid port"%str
  | HPE_INVALID_PATH => "invalid path"%str
  | HPE_INVALID_QUERY_STRING => "invalid query string"%str
  | HPE_INVALID_FRAGMENT => "invalid fragment"%str
  | HPE_LF_EXPECTED => "LF character expected"%str
  | HPE_INVALID_HEADER_TOKEN => "invalid character in header"%str
  | HPE_INVALID_CONTENT_LENGTH => "invalid character in content-length header"%str
  | HPE_UNEXPECTED_CONTENT_LENGTH => "unexpected content-length header"%str
  | HPE_INVALID_CHUNK_SIZE => "invalid character in chunk size header"%str
  | HPE_INVALID_CONSTANT => "invalid constant string"%str
  | HPE_INVALID_INTERNAL_STATE => "encountered unexpected internal state"%str
  | HPE_STRICT => "strict mode assertion failed"%str
  | HPE_PAUSED => "parser is paused"%str
  | HPE_UNKNOWN => "an unknown error occurred"%str
  | HPE_INVALID_TRANSFER_ENCODING => "request has invalid transfer-encoding"%str
  end.

(** ** The other functions on a parser *)

Definition http_parser_pause (parser : http_parser) (paused : Z) : outcome http_parser :=
  if bool_decide (hp_http_errno parser = HPE_OK) || bool_decide (hp_http_errno parser = HPE_PAUSED)
  then mret (parser <| hp_nread := hp_nread parser |> <| hp_http_errno := if truthy paused then HPE_PAUSED else HPE_OK |>)
  else Halt.

Definition http_body_is_final (parser : http_parser) : bool := bool_decide (hp_state parser = s_message_done).

(** [method_strings], indexed by the value of the enumeration. *)
Definition all_methods : list http_method :=
  [HTTP_DELETE; HTTP_GET; HTTP_HEAD; HTTP_POST; HTTP_PUT; HTTP_CONNECT; HTTP_OPTIONS; HTTP_TRACE; HTTP_COPY;
   HTTP_LOCK; HTTP_MKCOL; HTTP_MOVE; HTTP_PROPFIND; HTTP_PROPPATCH; HTTP_SEARCH; HTTP_UNLOCK; HTTP_BIND;
   HTTP_REBIND; HTTP_UNBIND; HTTP_ACL; HTTP_REPORT; HTTP_MKACTIVITY; HTTP_CHECKOUT; HTTP_MERGE; HTTP_MSEARCH;
   HTTP_NOTIFY; HTTP_SUBSCRIBE; HTTP_UNSUBSCRIBE; HTTP_PATCH; HTTP_PURGE; HTTP_MKCALENDAR; HTTP_LINK;
   HTTP_UNLINK; HTTP_SOURCE].

(** [m] as the unsigned int that is compared with the size of the array. *)
Definition http_method_str (m : Z) : list Z :=
  match all_methods !! Z.to_nat (u32 m) with
  | Some m => method_strings m
  | None => lit "<unknown>"%str
  end.

Lemma http_method_str_ok m : http_method_str (method_num m) = method_strings m.
Proof. by destruct m. Qed.

Lemma http_method_str_unknown m : 34 <= u32 m -> http_method_str m = lit "<unknown>"%str.
Proof. intros Hm. unfold http_method_str. rewrite lookup_ge_None_2; [done|]. cbn. lia. Qed.

(** [memset]: no callback is set. *)
Definition http_parser_settings_init {W} : HttpCallbacks W :=
  {| cb_message_begin := None; cb_url := None; cb_status := None; cb_header_field := None;
     cb_header_value := None; cb_headers_complete := None; cb_body := None; cb_message_complete := None;
     cb_chunk_header := None; cb_chunk_complete := None |}.

(** Version 2.9.4 of the library. *)
Definition http_parser_version : Z := Z.lor (Z.lor (2 * 65536) (9 * 256)) (4 * 1).

(** ** URLs *)

Definition UF_SCHEMA : Z := 0.
Definition UF_HOST : Z := 1.
Definition UF_PORT : Z := 2.
Definition UF_PATH : Z := 3.
Definition UF_QUERY : Z := 4.
Definition UF_FRAGMENT : Z := 5.
Definition UF_USERINFO : Z := 6.
Definition UF_MAX : Z := 7.

Record url_field := mk_url_field { uf_off : Z; uf_len : Z }.
#[export] Instance eta_url_field : Eta url_field := fun f => mk_url_field (uf_off f) (uf_len f).

Record http_parser_url := mk_http_parser_url {
  u_field_set : Z;
  u_port : Z;
  u_field_data : list url_field
}.
#[export] Instance eta_http_parser_url : Eta http_parser_url := fun u =>
  mk_http_parser_url (u_field_set u) (u_port u) (u_field_data u).

Definition http_parser_url_init : http_parser_url := mk_http_parser_url 0 0 (replicate 7 (mk_url_field 0 0)).

(** [u->field_set & (1 << uf)] and [u->field_set |= (1 << uf)] *)
Definition field_set (u : http_parser_url) (uf : Z) : bool := truthy (Z.land (u_field_set u) (Z.shiftl 1 uf)).
Definition add_field (u : http_parser_url) (uf : Z) : http_parser_url :=
  u <| u_field_set := Z.lor (u_field_set u) (Z.shiftl 1 uf) |>.

Definition get_field (u : http_parser_url) (uf : Z) : outcome url_field := arr_get (u_field_data u) uf.
Definition put_field (u : http_parser_url) (uf : Z) (f : url_field) : outcome http_parser_url :=
  l ← arr_set (u_field_data u) uf f; mret (u <| u_field_data := l |>).

(** [u->field_data[uf].len++] *)
Definition inc_len (u : http_parser_url) (uf : Z) : outcome http_parser_url :=
  f ← get_field u uf; put_field u uf (f <| uf_len := u16 (uf_len f + 1) |>).

Inductive http_host_state :=
  | s_http_host_dead | s_http_userinfo_start | s_http_userinfo | s_http_host_start | s_http_host_v6_start
  | s_http_host | s_http_host_v6 | s_http_host_v6_end | s_http_host_v6_zone_start | s_http_host_v6_zone
  | s_http_host_port_start | s_http_host_port.

#[export] Instance http_host_state_eq_dec : EqDecision http_host_state.
Proof. solve_decision. Defined.

Definition http_parse_host_char (s : http_host_state) (ch : Z) : http_host_state :=
  let port := if ch =? 58 (* : *) then s_http_host_port_start else s_http_host_dead in
  let v6 :=
    if IS_HEX ch || (ch =? 58) || (ch =? 46 (* . *)) then s_http_host_v6
    else if bool_decide (s = s_http_host_v6) && (ch =? 37) (* percent *) then s_http_host_v6_zone_start
    else s_http_host_dead in
  let zone := if IS_ALPHANUM ch || one_of "%.-_~"%str ch then s_http_host_v6_zone else s_http_host_dead in
  match s with
  | s_http_userinfo | s_http_userinfo_start =>
      if ch =? 64 (* @ *) then s_http_host_start
      else if IS_USERINFO_CHAR ch then s_http_userinfo else s_http_host_dead
  | s_http_host_start =>
      if ch =? 91 (* opening bracket *) then s_http_host_v6_start
      else if IS_HOST_CHAR ch then s_http_host else s_http_host_dead
  | s_http_host => if IS_HOST_CHAR ch then s_http_host else port
  | s_http_host_v6_end => port
  | s_http_host_v6 => if ch =? 93 (* closing bracket *) then s_http_host_v6_end else v6
  | s_http_host_v6_start => v6
  | s_http_host_v6_zone => if ch =? 93 then s_http_host_v6_end else zone
  | s_http_host_v6_zone_start => zone
  | s_http_host_port | s_http_host_port_start => if IS_NUM ch then s_http_host_port else s_http_host_dead
  | _ => s_http_host_dead
  end.

(** A new field at the index [p]. *)
Definition open_field (u : http_parser_url) (uf p : Z) : outcome http_parser_url :=
  u ← put_field u uf (mk_url_field (u16 p) 0); mret (add_field u uf).

(** [switch(new_s)]: the fields after a character. *)
Definition host_fields (u : http_parser_url) (s new_s : http_host_state) (p : Z) : outcome http_parser_url :=
  let host_at u := f ← get_field u UF_HOST; put_field u UF_HOST (f <| uf_off := u16 p |>) in
  let first (k : outcome http_parser_url) := if bool_decide (s = new_s) then mret u else k in
  match new_s with
  | s_http_host | s_http_host_v6 => u ← first (host_at u); inc_len u UF_HOST
  | s_http_host_v6_zone_start | s_http_host_v6_zone => inc_len u UF_HOST
  | s_http_host_port => u ← first (open_field u UF_PORT p); inc_len u UF_PORT
  | s_http_userinfo => u ← first (open_field u UF_USERINFO p); inc_len u UF_USERINFO
  | _ => mret u
  end.

Section buffer.
Variable buf : list Z.

(** The loop of [http_parse_host]; [None]: it returns 1. *)
Fixpoint host_loop (n : nat) (p : Z) (s : http_host_state) (u : http_parser_url)
  : outcome (option http_host_state * http_parser_url) :=
  match n with
  | O => mret (Some s, u)
  | S n =>
      ch ← arr_get buf p;
      let new_s := http_parse_host_char s ch in
      if bool_decide (new_s = s_http_host_dead) then mret (None, u)
      else u ← host_fields u s new_s p; host_loop n (p + 1) new_s u
  end.

(** The states in which the host must not end. *)
Definition host_cut (s : http_host_state) : bool :=
  match s with
  | s_http_host_start | s_http_host_v6_start | s_http_host_v6 | s_http_host_v6_zone_start | s_http_host_v6_zone
  | s_http_host_port_start | s_http_userinfo | s_http_userinfo_start => true
  | _ => false
  end.

Definition http_parse_host (u : http_parser_url) (found_at : bool) : outcome (Z * http_parser_url) :=
  f ← get_field u UF_HOST;
  _ ← c_assert (field_set u UF_HOST);
  u ← put_field u UF_HOST (f <| uf_len := 0 |>);
  '(s, u) ← host_loop (Z.to_nat (uf_len f)) (uf_off f) (if found_at then s_http_userinfo_start else s_http_host_start) u;
  mret (match s with None => 1 | Some s => c_bool (host_cut s) end, u).

(** The field a state belongs to. *)
Inductive url_part := Dead | Delimiter | Part (uf : Z) | Unexpected.

Definition url_part_of (s : http_state) : url_part :=
  match s with
  | s_dead => Dead
  | s_req_schema_slash | s_req_schema_slash_slash | s_req_server_start | s_req_query_string_start
  | s_req_fragment_start => Delimiter
  | s_req_schema => Part UF_SCHEMA
  | s_req_server_with_at | s_req_server => Part UF_HOST
  | s_req_path => Part UF_PATH
  | s_req_query_string => Part UF_QUERY
  | s_req_fragment => Part UF_FRAGMENT
  | _ => Unexpected
  end.

(** The loop of [http_parser_parse_url], over the rest of the buffer: whether
    there was an @; [None]: it returns 1. *)
Fixpoint url_loop (rest : list Z) (p : Z) (s : http_state) (old_uf : Z) (found_at : bool) (u : http_parser_url)
  : outcome (option bool * http_parser_url) :=
  match rest with
  | [] => mret (Some found_at, u)
  | ch :: rest =>
      let s := parse_url_char s ch in
      let found_at := found_at || bool_decide (s = s_req_server_with_at) in
      match url_part_of s with
      | Dead => mret (None, u)
      | Unexpected => Halt
      | Delimiter => url_loop rest (p + 1) s old_uf found_at u
      | Part uf =>
          if uf =? old_uf then u ← inc_len u uf; url_loop rest (p + 1) s old_uf found_at u
          else
            u ← put_field u uf (mk_url_field (u16 p) 1);
            url_loop rest (p + 1) s uf found_at (add_field u uf)
      end
  end.

(** A byte as the signed char it is. *)
Definition schar (c : Z) : Z := if c <? 128 then c else c - 256.

(** The number in the port field; [None]: more than 65535. *)
Fixpoint port_loop (n : nat) (p v : Z) : outcome (option Z) :=
  match n with
  | O => mret (Some v)
  | S n =>
      c ← arr_get buf p;
      let v := u64 (u64 (v * 10) + (schar c - 48)) in
      if 65535 <? v then mret None else port_loop n (p + 1) v
  end.

Definition url_port (u : http_parser_url) : outcome (Z * http_parser_url) :=
  if field_set u UF_PORT then
    f ← get_field u UF_PORT;
    _ ← c_assert (uf_off f + uf_len f <=? zlen buf);
    v ← port_loop (Z.to_nat (uf_len f)) (uf_off f) 0;
    mret (match v with None => (1, u) | Some v => (0, u <| u_port := u16 v |>) end)
  else mret (0, u).

Definition http_parser_parse_url (is_connect : bool) (u : http_parser_url) : outcome (Z * http_parser_url) :=
  if zlen buf =? 0 then mret (1, u)
  else
    '(r, u) ← url_loop buf 0 (if is_connect then s_req_server_start else s_req_spaces_before_url) UF_MAX false
                (u <| u_field_set := 0 |> <| u_port := 0 |>);
    match r with
    | None => mret (1, u)
    | Some found_at =>
        if field_set u UF_SCHEMA && negb (field_set u UF_HOST) then mret (1, u)
        else
          '(rc, u) ← (if field_set u UF_HOST then http_parse_host u found_at else mret (0, u));
          if negb (rc =? 0) then mret (1, u)
          else if is_connect && negb (u_field_set u =? Z.lor (Z.shiftl 1 UF_HOST) (Z.shiftl 1 UF_PORT)) then mret (1, u)
          else url_port u
    end.
End buffer.

Example parse_demo :
  http_parser_parse_url (lit "http://me:x@[fe80::1%25a]:8080/p?q#f"%str) false http_parser_url_init
  = Ok (0, mk_http_parser_url 127 8080 [mk_url_field 0 4; mk_url_field 13 11; mk_url_field 26 4; mk_url_field 30 2;
      mk_url_field 33 1; mk_url_field 35 1; mk_url_field 7 4]).
Proof. vm_compute. reflexivity. Qed.

(** ** Safety *)

Lemma truthy_testbit n k : 0 <= k -> truthy (Z.land n (Z.shiftl 1 k)) = Z.testbit n k.
Proof.
  intros Hk. unfold truthy. rewrite Z.shiftl_1_l. destruct (Z.testbit n k) eqn:Eb.
  - apply negb_true_iff, Z.eqb_neq. intros E. apply (f_equal (fun z => Z.testbit z k)) in E.
    by rewrite Z.land_spec, Eb, Z.pow2_bits_true, Z.bits_0 in E.
  - apply negb_false_iff, Z.eqb_eq. apply Z.bits_inj'. intros i Hi. rewrite Z.land_spec, Z.bits_0.
    destruct (Z.eq_dec i k) as [->|Hne]; [by rewrite Eb|]. rewrite Z.pow2_bits_false by lia. apply andb_false_r.
Qed.

Lemma field_set_add u a b : 0 <= a -> 0 <= b -> field_set (add_field u a) b = (a =? b) || field_set u b.
Proof.
  intros Ha Hb. unfold field_set, add_field. rewrite !truthy_testbit by done.
  change (u_field_set (upd _ u)) with (Z.lor (u_field_set u) (Z.shiftl 1 a)).
  rewrite Z.lor_spec, Z.shiftl_1_l, orb_comm. by rewrite Z.pow2_bits_eqb by done.
Qed.

(** A field ends before [p]. *)
Definition in_field (p : Z) (f : url_field) : Prop := 0 <= uf_off f /\ 0 <= uf_len f /\ uf_off f + uf_len f <= p.

(** The fields that are set end before [p]. *)
Record url_ok (p : Z) (u : http_parser_url) : Prop := {
  url_fields : length (u_field_data u) = 7%nat;
  url_in uf f : 0 <= uf -> field_set u uf = true -> get_field u uf = Ok f -> in_field p f
}.

Lemma in_field_le p p' f : in_field p f -> p <= p' -> in_field p' f.
Proof. unfold in_field. lia. Qed.

Lemma url_ok_le p p' u : url_ok p u -> p <= p' -> url_ok p' u.
Proof. intros [Hl Hi] Hle. split; [done|]. intros uf f H0 H1 H2. eapply in_field_le; eauto. Qed.

Lemma get_field_ok u uf : length (u_field_data u) = 7%nat -> 0 <= uf < 7 -> exists f, get_field u uf = Ok f.
Proof.
  intros Hl Hu. destruct (lookup_lt_is_Some_2 (u_field_data u) (Z.to_nat uf)) as [f Hf]; [lia|]. exists f. by apply arr_get_ok; [lia|].
Qed.

(** The fields after an assignment to one of them. *)
Lemma put_field_ok u uf f :
  length (u_field_data u) = 7%nat -> 0 <= uf < 7 ->
  exists u', put_field u uf f = Ok u' /\ u_field_set u' = u_field_set u /\ u_port u' = u_port u /\ length (u_field_data u') = 7%nat /\
    forall i, 0 <= i -> get_field u' i = if i =? uf then Ok f else get_field u i.
Proof.
  intros Hl Hu. unfold put_field. rewrite arr_set_ok by (unfold zlen; lia). cbn [mbind outcome_bind mret outcome_ret].
  eexists. split; [reflexivity|]. split; [done|]. split; [done|]. split; [cbn; by rewrite length_insert|].
  intros i Hi. unfold get_field, arr_get. cbn [u_field_data].
  change (u_field_data (upd _ u)) with (<[Z.to_nat uf:=f]> (u_field_data u)).
  destruct (Z.eqb_spec i uf) as [->|Hne].
  - rewrite list_lookup_insert_eq by lia. by rewrite (proj2 (Z.ltb_ge _ _)) by lia.
  - by rewrite list_lookup_insert_ne by lia.
Qed.

Lemma u16_le z : 0 <= z -> 0 <= u16 z <= z.
Proof. intros Hz. unfold u16. pose proof (Z.mod_pos_bound z (2 ^ 16)). pose proof (Z.mod_le z (2 ^ 16)). lia. Qed.

(** [u'] is [u] but for the field [uf], which is [f], and the set of fields. *)
Record changed (u u' : http_parser_url) (uf : Z) (f : url_field) : Prop := {
  ch_fields : length (u_field_data u') = 7%nat;
  ch_get i : 0 <= i -> get_field u' i = if i =? uf then Ok f else get_field u i;
  ch_set i : 0 <= i -> i <> uf -> field_set u' i = field_set u i
}.

Lemma changed_ok L u u' uf f : url_ok L u -> changed u u' uf f -> in_field L f -> url_ok L u'.
Proof.
  intros [Hl Hi] [Hl' Hg Hs] Hf. split; [done|]. intros i g H0 Hset Hget. rewrite Hg in Hget by done.
  destruct (Z.eqb_spec i uf) as [->|Hne]; [by simplify_eq|]. eapply Hi; [done| |done]. by rewrite <- Hs.
Qed.

Lemma put_changed u uf f : length (u_field_data u) = 7%nat -> 0 <= uf < 7 -> exists u', put_field u uf f = Ok u' /\ changed u u' uf f /\ u_field_set u' = u_field_set u.
Proof.
  intros Hl Hu. destruct (put_field_ok u uf f Hl Hu) as (u' & -> & Hs & _ & Hl' & Hg). exists u'. split; [done|]. split; [|done].
  split; [done|done|]. intros i Hi _. unfold field_set. by rewrite Hs.
Qed.

Lemma changed_add u u' uf f : 0 <= uf -> changed u u' uf f -> changed u (add_field u' uf) uf f.
Proof.
  intros Hu [Hl Hg Hs]. split; [done|done|]. intros i Hi Hne. rewrite field_set_add by lia.
  rewrite (proj2 (Z.eqb_neq uf i)) by lia. by apply Hs.
Qed.

Lemma changed_trans u u1 u2 uf f g : changed u u1 uf f -> changed u1 u2 uf g -> changed u u2 uf g.
Proof.
  intros [Hl Hg Hs] [Hl' Hg' Hs']. split; [done| |].
  - intros i Hi. rewrite Hg' by done. destruct (Z.eqb_spec i uf); [done|]. rewrite Hg by done. by rewrite (proj2 (Z.eqb_neq _ _)).
  - intros i Hi Hne. rewrite Hs' by done. by apply Hs.
Qed.

Lemma inc_changed u uf f :
  length (u_field_data u) = 7%nat -> 0 <= uf < 7 -> get_field u uf = Ok f ->
  exists u', inc_len u uf = Ok u' /\ changed u u' uf (f <| uf_len := u16 (uf_len f + 1) |>) /\ u_field_set u' = u_field_set u.
Proof. intros Hl Hu Hf. unfold inc_len. rewrite Hf. cbn [mbind outcome_bind]. by apply put_changed. Qed.

Lemma in_field_inc p f : in_field p f -> in_field (p + 1) (f <| uf_len := u16 (uf_len f + 1) |>).
Proof.
  intros (H0 & H1 & H2). pose proof (u16_le (uf_len f + 1) ltac:(lia)). unfold in_field.
  destruct f. cbn -[u16] in *. lia.
Qed.

Lemma in_field_new p n : 0 <= p -> 0 <= n -> in_field (p + n) (mk_url_field (u16 p) n).
Proof. intros Hp Hn. pose proof (u16_le p Hp). unfold in_field. cbn. lia. Qed.

Lemma url_part_cases s : in_url s = true -> url_part_of s <> Dead /\ url_part_of s <> Unexpected /\ forall uf, url_part_of s = Part uf -> 0 <= uf < 7.
Proof. destruct s; try done; intros _; (split; [done|]); (split; [done|]); intros uf [= <-]; by split. Qed.

Lemma url_loop_safe rest : forall p s old_uf found_at u,
  url_ok p u -> 0 <= p ->
  exists r u', url_loop rest p s old_uf found_at u = Ok (r, u') /\ (r <> None -> url_ok (p + zlen rest) u').
Proof.
  induction rest as [|ch rest IH]; intros p s old_uf found_at u Hu Hp; cbn [url_loop].
  - exists (Some found_at), u. split; [done|]. intros _. by rewrite zlen_nil, Z.add_0_r.
  - cbv zeta. set (s' := parse_url_char s ch). rewrite zlen_cons. replace (p + (zlen rest + 1)) with (p + 1 + zlen rest) by lia.
    destruct (decide (s' = s_dead)) as [->|Hs]; [by exists None, u|].
    assert (in_url s' = true) as Hin by (by apply parse_url_in_url). destruct (url_part_cases s' Hin) as (Hd & Hx & Hr).
    destruct (url_part_of s') as [| |uf|]; try done; [apply IH; [eapply url_ok_le; [exact Hu|lia]|lia]|]. specialize (Hr uf eq_refl).
    pose proof (url_fields _ _ Hu) as Hl. destruct (uf =? old_uf).
    + destruct (get_field_ok u uf Hl Hr) as [f Hf]. destruct (inc_changed u uf f Hl Hr Hf) as (u' & -> & Hc & Hset').
      cbn [mbind outcome_bind]. apply IH; [|lia]. split; [apply Hc|]. intros i g H0 Hset Hget.
      unfold field_set in Hset. rewrite Hset' in Hset. rewrite (ch_get _ _ _ _ Hc) in Hget by done.
      destruct (Z.eqb_spec i uf) as [->|Hne].
      * simplify_eq. apply in_field_inc. by eapply (url_in _ _ Hu).
      * eapply in_field_le; [by eapply (url_in _ _ Hu)|lia].
    + destruct (put_changed u uf (mk_url_field (u16 p) 1) Hl Hr) as (u' & -> & Hc & _). cbn [mbind outcome_bind]. apply IH; [|lia].
      eapply changed_ok; [by eapply url_ok_le; [exact Hu|lia]|apply changed_add; [lia|exact Hc]|]. apply in_field_new; lia.
Qed.

(** The states before the host, and the fields while it is read. *)
Definition before_host (s : http_host_state) : bool :=
  match s with
  | s_http_userinfo_start | s_http_userinfo | s_http_host_start | s_http_host_v6_start => true
  | _ => false
  end.

Record host_ok (L p : Z) (s : http_host_state) (u : http_parser_url) : Prop := {
  host_url : url_ok L u;
  host_host f : get_field u UF_HOST = Ok f -> in_field p f /\ (before_host s = true -> uf_len f = 0);
  host_port f : s = s_http_host_port -> get_field u UF_PORT = Ok f -> in_field p f;
  host_userinfo f : s = s_http_userinfo -> get_field u UF_USERINFO = Ok f -> in_field p f
}.

(** A field grows by the byte at [p]. *)
Lemma grow_ok L p u uf f :
  url_ok L u -> 0 <= uf < 7 -> get_field u uf = Ok f -> in_field p f -> p < L ->
  exists u' f', inc_len u uf = Ok u' /\ url_ok L u' /\ changed u u' uf f' /\ in_field (p + 1) f'.
Proof.
  intros Hu Hr Hf Hin Hp. destruct (inc_changed u uf f (url_fields _ _ Hu) Hr Hf) as (u' & E & Hc & _).
  pose proof (in_field_inc p f Hin) as Hin'. exists u', (f <| uf_len := u16 (uf_len f + 1) |>). split; [done|].
  split; [|done]. eapply changed_ok; [exact Hu|exact Hc|]. eapply in_field_le; [exact Hin'|lia].
Qed.

(** A new field holds the byte at [p]. *)
Lemma open_grow_ok L p u uf :
  url_ok L u -> 0 <= uf < 7 -> 0 <= p < L ->
  exists u' f', (u ← open_field u uf p; inc_len u uf) = Ok u' /\ url_ok L u' /\ changed u u' uf f' /\ in_field (p + 1) f'.
Proof.
  intros Hu Hr Hp. unfold open_field. pose proof (in_field_new p 0 ltac:(lia) ltac:(lia)) as Hin. rewrite Z.add_0_r in Hin.
  destruct (put_changed u uf (mk_url_field (u16 p) 0) (url_fields _ _ Hu) Hr) as (u1 & -> & Hc & _). cbn [mbind outcome_bind mret outcome_ret].
  apply changed_add in Hc; [|lia].
  assert (url_ok L (add_field u1 uf)) as Hu1 by (eapply changed_ok; [exact Hu|exact Hc|eapply in_field_le; [exact Hin|lia]]).
  destruct (grow_ok L p (add_field u1 uf) uf (mk_url_field (u16 p) 0) Hu1 Hr) as (u2 & f2 & E & Hu2 & Hc2 & Hin2);
    [by rewrite (ch_get _ _ _ _ Hc), Z.eqb_refl by lia|done|lia|].
  exists u2, f2. split; [done|]. split; [done|]. split; [by eapply changed_trans|done].
Qed.

(** The host begins at [p]. *)
Lemma host_grow_ok L p u f :
  url_ok L u -> get_field u UF_HOST = Ok f -> uf_len f = 0 -> 0 <= p < L ->
  exists u' f', (u ← (f ← get_field u UF_HOST; put_field u UF_HOST (f <| uf_off := u16 p |>)); inc_len u UF_HOST) = Ok u' /\
    url_ok L u' /\ changed u u' UF_HOST f' /\ in_field (p + 1) f'.
Proof.
  intros Hu Hf Hf0 Hp. pose proof (in_field_new p 0 ltac:(lia) ltac:(lia)) as Hin. rewrite Z.add_0_r in Hin.
  rewrite Hf. cbn [mbind outcome_bind]. replace (f <| uf_off := u16 p |>) with (mk_url_field (u16 p) 0) by (destruct f; cbn in Hf0; by subst).
  destruct (put_changed u UF_HOST (mk_url_field (u16 p) 0) (url_fields _ _ Hu)) as (u1 & -> & Hc & _); [by split|]. cbn [mbind outcome_bind].
  assert (url_ok L u1) as Hu1 by (eapply changed_ok; [exact Hu|exact Hc|eapply in_field_le; [exact Hin|lia]]).
  destruct (grow_ok L p u1 UF_HOST (mk_url_field (u16 p) 0) Hu1) as (u2 & f2 & E & Hu2 & Hc2 & Hin2);
    [by split|by rewrite (ch_get _ _ _ _ Hc)|done|lia|].
  exists u2, f2. split; [done|]. split; [done|]. split; [by eapply changed_trans|done].
Qed.

(** Which state follows which. *)
Lemma host_char_next s ch :
  match http_parse_host_char s ch with
  | s_http_host | s_http_host_v6 => before_host s = true \/ s = http_parse_host_char s ch
  | s_http_host_v6_zone_start | s_http_host_v6_zone => before_host s = false
  | s_http_userinfo | s_http_host_start | s_http_host_v6_start => before_host s = true
  | s_http_userinfo_start => False
  | _ => True
  end.
Proof.
  unfold http_parse_host_char. cbv zeta. destruct s;
    try (rewrite (bool_decide_false (s_http_host_v6_start = s_http_host_v6)) by done; cbn [andb]);
    repeat match goal with |- context [if ?b then _ else _] => destruct b end; try done; first [by left|by right].
Qed.

Lemma host_fields_safe L p s u ch :
  host_ok L p s u -> 0 <= p < L -> http_parse_host_char s ch <> s_http_host_dead ->
  exists u', host_fields u s (http_parse_host_char s ch) p = Ok u' /\ host_ok L (p + 1) (http_parse_host_char s ch) u'.
Proof.
  intros [Hu Hh Hport Hui] Hp Hd. pose proof (host_char_next s ch) as Hnext. destruct (get_field_ok u UF_HOST (url_fields _ _ Hu)) as [fh Hfh]; [by split|].
  destruct (Hh fh Hfh) as [Hin Hbefore].
  assert (forall u' f' n, url_ok L u' -> changed u u' UF_HOST f' -> in_field (p + 1) f' -> before_host n = false -> n <> s_http_host_port ->
    host_ok L (p + 1) n u') as Hhost.
  { intros u' f' n Hu' Hc Hf' Hb Hn. split; [done| |by intros g ?|by intros g ->]. intros g Hg. rewrite (ch_get _ _ _ _ Hc), Z.eqb_refl in Hg by done. injection Hg as <-.
    split; [done|]. by rewrite Hb. }
  assert (forall n, (before_host n = true -> before_host s = true) -> n <> s_http_host_port -> n <> s_http_userinfo -> host_ok L (p + 1) n u) as Hsame.
  { intros n Hn H1 H2. split; [done| |by intros g ?|by intros g ?]. intros g Hg. rewrite Hfh in Hg. injection Hg as <-. split; [eapply in_field_le; [exact Hin|lia]|]. auto. }
  assert (forall u' f' n uf, url_ok L u' -> changed u u' uf f' -> in_field (p + 1) f' -> (n, uf) = (s_http_host_port, UF_PORT) \/ (n, uf) = (s_http_userinfo, UF_USERINFO) ->
    (before_host n = true -> before_host s = true) -> host_ok L (p + 1) n u') as Hother.
  { intros u' f' n uf Hu' Hc Hf' Hn Hb. assert (uf <> UF_HOST /\ 0 <= uf) as [Hne H0] by (destruct Hn as [[= -> ->]|[= -> ->]]; by split).
    split; [done| | |].
    - intros g Hg. rewrite (ch_get _ _ _ _ Hc) in Hg by done. rewrite (proj2 (Z.eqb_neq _ _)), Hfh in Hg by done. injection Hg as <-.
      split; [eapply in_field_le; [exact Hin|lia]|auto].
    - intros g -> Hg. destruct Hn as [[= ->]|[=]]. rewrite (ch_get _ _ _ _ Hc), Z.eqb_refl in Hg by done. by injection Hg as <-.
    - intros g -> Hg. destruct Hn as [[=]|[= ->]]. rewrite (ch_get _ _ _ _ Hc), Z.eqb_refl in Hg by done. by injection Hg as <-. }
  destruct (http_parse_host_char s ch) eqn:En; cbv beta iota zeta in Hnext; unfold host_fields; try done;
    try (exists u; split; [done|]; apply Hsame; done).
  - (* userinfo *) case_bool_decide as Hs; subst.
    + destruct (get_field_ok u UF_USERINFO (url_fields _ _ Hu)) as [f Hf]; [by split|].
      destruct (grow_ok L p u UF_USERINFO f Hu) as (u' & f' & E & Hu' & Hc & Hf'); [by split|done|by apply Hui|lia|].
      exists u'. split; [exact E|]. eapply Hother; eauto.
    + destruct (open_grow_ok L p u UF_USERINFO Hu) as (u' & f' & E & Hu' & Hc & Hf'); [by split|lia|].
      exists u'. split; [exact E|]. eapply Hother; eauto.
  - (* host *) case_bool_decide as Hs; subst.
    + destruct (grow_ok L p u UF_HOST fh Hu) as (u' & f' & E & Hu' & Hc & Hf'); [by split|done|done|lia|].
      exists u'. split; [exact E|]. by eapply Hhost.
    + destruct Hnext as [Hb|E]; [|by destruct Hs].
      destruct (host_grow_ok L p u fh Hu Hfh (Hbefore Hb) Hp) as (u' & f' & E & Hu' & Hc & Hf').
      exists u'. split; [exact E|]. by eapply Hhost.
  - case_bool_decide as Hs; subst.
    + destruct (grow_ok L p u UF_HOST fh Hu) as (u' & f' & E & Hu' & Hc & Hf'); [by split|done|done|lia|].
      exists u'. split; [exact E|]. by eapply Hhost.
    + destruct Hnext as [Hb|E]; [|by destruct Hs].
      destruct (host_grow_ok L p u fh Hu Hfh (Hbefore Hb) Hp) as (u' & f' & E & Hu' & Hc & Hf').
      exists u'. split; [exact E|]. by eapply Hhost.
  - destruct (grow_ok L p u UF_HOST fh Hu) as (u' & f' & E & Hu' & Hc & Hf'); [by split|done|done|lia|].
    exists u'. split; [exact E|]. by eapply Hhost.
  - destruct (grow_ok L p u UF_HOST fh Hu) as (u' & f' & E & Hu' & Hc & Hf'); [by split|done|done|lia|].
    exists u'. split; [exact E|]. by eapply Hhost.
  - (* port *) case_bool_decide as Hs; subst.
    + destruct (get_field_ok u UF_PORT (url_fields _ _ Hu)) as [f Hf]; [by split|].
      destruct (grow_ok L p u UF_PORT f Hu) as (u' & f' & E & Hu' & Hc & Hf'); [by split|done|by apply Hport|lia|].
      exists u'. split; [exact E|]. eapply Hother; [done|exact Hc|done|by left|done].
    + destruct (open_grow_ok L p u UF_PORT Hu) as (u' & f' & E & Hu' & Hc & Hf'); [by split|lia|].
      exists u'. split; [exact E|]. eapply Hother; [done|exact Hc|done|by left|done].
Qed.

Section buffer_safe.
Variable buf : list Z.
#[local] Abbreviation L := (zlen buf).

Lemma host_loop_safe n : forall p s u,
  host_ok L p s u -> 0 <= p -> p + Z.of_nat n <= L ->
  exists r u', host_loop buf n p s u = Ok (r, u') /\ url_ok L u'.
Proof.
  induction n as [|n IH]; intros p s u Hok Hp Hn; cbn [host_loop]; [exists (Some s), u; split; [done|apply Hok]|].
  destruct (get_byte buf p ltac:(lia)) as [ch ->]. cbn [mbind outcome_bind]. cbv zeta.
  case_bool_decide as Hd; [exists None, u; split; [done|apply Hok]|].
  destruct (host_fields_safe L p s u ch Hok ltac:(lia) Hd) as (u' & -> & Hok'). cbn [mbind outcome_bind]. apply IH; [done|lia|lia].
Qed.

Lemma http_parse_host_safe u found_at :
  url_ok L u -> field_set u UF_HOST = true -> exists rc u', http_parse_host buf u found_at = Ok (rc, u') /\ url_ok L u'.
Proof.
  intros Hu Hset. unfold http_parse_host. destruct (get_field_ok u UF_HOST (url_fields _ _ Hu)) as [f Hf]; [by split|].
  rewrite Hf, Hset. cbn [c_assert mbind outcome_bind]. pose proof (url_in _ _ Hu UF_HOST f ltac:(done) Hset Hf) as Hin. unfold in_field in Hin.
  destruct (put_changed u UF_HOST (f <| uf_len := 0 |>) (url_fields _ _ Hu)) as (u1 & -> & Hc & _); [by split|]. cbn [mbind outcome_bind].
  set (s0 := if found_at then _ else _).
  assert (host_ok L (uf_off f) s0 u1) as Hok.
  { assert (forall p, uf_off f <= p -> in_field p (f <| uf_len := 0 |>)) as Hf0 by (intros p; unfold in_field; destruct f; cbn in *; lia).
    split; [eapply changed_ok; [exact Hu|exact Hc|apply Hf0; lia]| |by destruct found_at|by destruct found_at].
    intros g Hg. rewrite (ch_get _ _ _ _ Hc), Z.eqb_refl in Hg by done. injection Hg as <-. by split; [apply Hf0|]. }
  destruct (host_loop_safe (Z.to_nat (uf_len f)) (uf_off f) s0 u1 Hok) as (r & u' & -> & Hu'); [lia|lia|].
  cbn [mbind outcome_bind mret outcome_ret]. by eexists _, u'.
Qed.

Lemma port_loop_safe n : forall p v, 0 <= p -> p + Z.of_nat n <= L -> exists r, port_loop buf n p v = Ok r.
Proof.
  induction n as [|n IH]; intros p v Hp Hn; cbn [port_loop]; [by eexists|].
  destruct (get_byte buf p ltac:(lia)) as [ch ->]. cbn [mbind outcome_bind]. cbv zeta. destruct (_ <? _); [by eexists|]. apply IH; lia.
Qed.

(** C36. [http_parser_parse_url] returns for every buffer, whatever its length: no assertion fails
    and nothing is read past its end, although offsets and lengths wrap around at 16 bits; the fields
    it sets lie inside the buffer. *)
Theorem parse_url_safe (is_connect : bool) (u : http_parser_url) :
  length (u_field_data u) = 7%nat ->
  exists rc u', http_parser_parse_url buf is_connect u = Ok (rc, u') /\ (rc = 0 \/ rc = 1) /\
    (rc = 0 -> forall uf f, 0 <= uf -> field_set u' uf = true -> get_field u' uf = Ok f -> in_field (zlen buf) f).
Proof.
  intros Hl. unfold http_parser_parse_url. destruct (zlen buf =? 0); [by exists 1, u; split; [|split; [right|]]|].
  set (s0 := if is_connect then _ else _). set (u0 := upd _ (upd _ u)).
  assert (url_ok 0 u0) as Hu0 by (split; [done|intros uf f Huf Hset; unfold field_set in Hset; by rewrite Z.land_0_l in Hset]).
  destruct (url_loop_safe buf 0 s0 UF_MAX false u0 Hu0 ltac:(lia)) as (r & u1 & -> & Hu1). cbn [mbind outcome_bind].
  destruct r as [found_at|]; [|by exists 1, u1; split; [|split; [right|]]]. specialize (Hu1 ltac:(done)). rewrite Z.add_0_l in Hu1.
  destruct (_ && _); [by exists 1, u1; split; [|split; [right|]]|].
  assert (exists rc u2, (if field_set u1 UF_HOST then http_parse_host buf u1 found_at else mret (0, u1)) = Ok (rc, u2) /\ url_ok L u2)
    as (rc & u2 & -> & Hu2).
  { destruct (field_set u1 UF_HOST) eqn:Eh; [by apply http_parse_host_safe|by exists 0, u1]. }
  cbn [mbind outcome_bind]. destruct (negb _); [by exists 1, u2; split; [|split; [right|]]|].
  destruct (_ && _); [by exists 1, u2; split; [|split; [right|]]|]. unfold url_port. destruct (field_set u2 UF_PORT) eqn:Ep.
  - destruct (get_field_ok u2 UF_PORT (url_fields _ _ Hu2)) as [f Hf]; [by split|]. rewrite Hf. cbn [mbind outcome_bind].
    pose proof (url_in _ _ Hu2 UF_PORT f ltac:(done) Ep Hf) as Hin. unfold in_field in Hin. rewrite (proj2 (Z.leb_le _ _)) by lia.
    cbn [c_assert mbind outcome_bind]. destruct (port_loop_safe (Z.to_nat (uf_len f)) (uf_off f) 0) as [v ->]; [lia|lia|].
    cbn [mbind outcome_bind mret outcome_ret]. destruct v as [v|]; [|by exists 1, u2; split; [|split; [right|]]].
    eexists 0, _. split; [reflexivity|]. split; [by left|]. intros _ uf g Huf Hset Hget. by eapply (url_in _ _ Hu2).
  - exists 0, u2. split; [done|]. split; [by left|]. intros _ uf g. apply (url_in _ _ Hu2).
Qed.
End buffer_safe.

Lemma parse_url_safe_witness :
  exists rc u', http_parser_parse_url (lit "a:80"%str) true http_parser_url_init = Ok (rc, u') /\ (rc = 0 \/ rc = 1) /\
    (rc = 0 -> forall uf f, 0 <= uf -> field_set u' uf = true -> get_field u' uf = Ok f -> in_field (zlen (lit "a:80"%str)) f).
Proof. apply (parse_url_safe (lit "a:80"%str) true http_parser_url_init). reflexivity. Defined.
