(* ===== verification/UrlSpec.v ===== *)
(** * http_parser: the fields of a URL (src/http_parser.c)

    A URL put together from a schema, an optional user, a host, an optional
    port, a path, an optional query and an optional fragment is cut into the
    same parts by [http_parser_parse_url]. *)

From S2P Require Import Prelude Text HttpTypes HttpParser HttpNames HttpSafe HttpUrl.

(** ** Changes of the fields *)

(** The field [uf] is [f]. *)
Definition part (u : http_parser_url) (uf : Z) (f : url_field) : http_parser_url :=
  add_field (u <| u_field_data := <[Z.to_nat uf:=f]> (u_field_data u) |>) uf.

(** The fields that are set. *)
Definition view (u : http_parser_url) (uf : Z) : option url_field :=
  if field_set u uf then match get_field u uf with Ok f => Some f | _ => None end else None.

Definition seven (u : http_parser_url) : Prop := length (u_field_data u) = 7%nat.

Lemma seven_part u uf f : seven u -> seven (part u uf f).
Proof. intros Hl. unfold seven. cbn. by rewrite length_insert. Qed.

Lemma view_part u a f i : seven u -> 0 <= a < 7 -> 0 <= i -> view (part u a f) i = if i =? a then Some f else view u i.
Proof.
  intros Hl Ha Hi. unfold view, part. rewrite field_set_add by lia.
  change (field_set (u <| u_field_data := <[Z.to_nat a:=f]> (u_field_data u) |>) i) with (field_set u i).
  rewrite (Z.eqb_sym a i). destruct (put_field_ok u a f Hl Ha) as (u' & E & _ & _ & _ & Hg). unfold put_field in E.
  rewrite arr_set_ok in E by (unfold zlen; rewrite Hl; lia). cbn [mbind outcome_bind mret outcome_ret] in E. injection E as <-.
  change (get_field (add_field ?v a) i) with (get_field v i). rewrite Hg by done. by destruct (Z.eqb_spec i a).
Qed.

Lemma view_set u uf f : view u uf = Some f -> field_set u uf = true /\ get_field u uf = Ok f.
Proof. unfold view. destruct (field_set u uf); [|done]. by destruct (get_field u uf); [intros [= ->]|..]. Qed.

Lemma put_part u uf f : seven u -> 0 <= uf < 7 -> (u ← put_field u uf f; mret (add_field u uf)) = Ok (part u uf f).
Proof.
  intros Hl Hu. unfold put_field. rewrite arr_set_ok by (unfold zlen; rewrite Hl; lia). done.
Qed.

Lemma set_absorb n k : 0 <= k -> Z.testbit n k = true -> Z.lor n (Z.shiftl 1 k) = n.
Proof.
  intros Hk Hb. apply Z.bits_inj'. intros i Hi. rewrite Z.lor_spec, Z.shiftl_1_l, Z.pow2_bits_eqb by done.
  destruct (Z.eqb_spec k i) as [->|]; [by rewrite Hb|]. apply orb_false_r.
Qed.

(** A field that is set already. *)
Lemma put_set u uf f : seven u -> 0 <= uf < 7 -> field_set u uf = true -> put_field u uf f = Ok (part u uf f).
Proof.
  intros Hl Hu Hs. unfold put_field. rewrite arr_set_ok by (unfold zlen; rewrite Hl; lia). cbn [mbind outcome_bind mret outcome_ret].
  f_equal. unfold part, add_field. unfold field_set in Hs. rewrite truthy_testbit in Hs by lia.
  destruct u as [s p d]. cbn in *. rewrite set_absorb by (lia || exact Hs). done.
Qed.

Lemma part_part u uf f g : seven u -> 0 <= uf < 7 -> part (part u uf f) uf g = part u uf g.
Proof.
  intros Hl Hu. unfold part, add_field. destruct u as [s p d]. cbn.
  by rewrite <- Z.lor_assoc, Z.lor_diag, list_insert_insert_eq.
Qed.

Lemma part_same u uf f : seven u -> 0 <= uf < 7 -> view u uf = Some f -> part u uf f = u.
Proof.
  intros Hl Hu Hv. apply view_set in Hv as [Hs Hf]. unfold part, add_field. unfold field_set in Hs. rewrite truthy_testbit in Hs by lia.
  unfold get_field, arr_get in Hf. rewrite (proj2 (Z.ltb_ge _ _)) in Hf by lia. destruct (u_field_data u !! Z.to_nat uf) as [g|] eqn:E; [|done].
  injection Hf as ->. destruct u as [s p d]. cbn in *. rewrite set_absorb by (lia || exact Hs). by rewrite list_insert_id.
Qed.

Lemma inc_part u uf o n :
  seven u -> 0 <= uf < 7 -> view u uf = Some (mk_url_field o n) -> 0 <= n < 65535 ->
  inc_len u uf = Ok (part u uf (mk_url_field o (n + 1))).
Proof.
  intros Hl Hu Hv Hn. apply view_set in Hv as [Hs Hf]. unfold inc_len. rewrite Hf. cbn [mbind outcome_bind].
  rewrite put_set by done. replace (upd _ (mk_url_field o n)) with (mk_url_field o (n + 1)); [done|].
  cbn -[u16]. unfold u16. by rewrite Z.mod_small by lia.
Qed.

Lemma ok_inj {A} (x y : A) : Ok x = Ok y -> x = y.
Proof. by intros [=]. Qed.

(** ** Runs of characters *)

(** More of a field. *)
Lemma url_stay uf s rest l : forall p found_at u o n,
  seven u -> view u uf = Some (mk_url_field o n) -> 0 <= n -> n + zlen l < 65536 ->
  url_part_of s = Part uf -> s <> s_req_server_with_at -> 0 <= uf < 7 -> Forall (fun c => parse_url_char s c = s) l ->
  url_loop (l ++ rest) p s uf found_at u = url_loop rest (p + zlen l) s uf found_at (part u uf (mk_url_field o (n + zlen l))).
Proof.
  induction l as [|c l IH]; intros p found_at u o n Hl Hv Hn Hlen Hs Hat Hu Hall.
  - rewrite zlen_nil, !Z.add_0_r. cbn [app]. by rewrite part_same.
  - apply Forall_cons in Hall as [Hc Hall]. rewrite zlen_cons in *. cbn [app url_loop]. pose proof (zlen_nonneg l). rewrite Hc. cbv zeta.
    rewrite Hs, bool_decide_false, orb_false_r, Z.eqb_refl by done.
    rewrite (inc_part u uf o n) by (done || lia). cbn [mbind outcome_bind].
    rewrite (IH _ _ _ o (n + 1)); [|by apply seven_part|by rewrite view_part, Z.eqb_refl by (done || lia)|lia|lia|done..].
    rewrite part_part by done. f_equal; [lia|]. do 2 f_equal. lia.
Qed.

(** A new field. *)
Lemma url_enter uf s s' rest c l p old_uf found_at u :
  seven u -> 0 <= p < 65536 -> 1 + zlen l < 65536 -> parse_url_char s c = s' -> url_part_of s' = Part uf -> s' <> s_req_server_with_at ->
  0 <= uf < 7 -> uf <> old_uf -> Forall (fun c => parse_url_char s' c = s') l ->
  url_loop (c :: l ++ rest) p s old_uf found_at u
  = url_loop rest (p + zlen (c :: l)) s' uf found_at (part u uf (mk_url_field p (zlen (c :: l)))).
Proof.
  intros Hl Hp Hlen Hc Hs Hat Hu Hne Hall. cbn [url_loop]. rewrite Hc. cbv zeta.
  rewrite Hs, bool_decide_false, orb_false_r, (proj2 (Z.eqb_neq _ _)) by done. unfold u16. rewrite Z.mod_small by lia.
  pose proof (put_part u uf (mk_url_field p 1) Hl Hu) as Hput.
  destruct (put_field u uf (mk_url_field p 1)) as [u1| | |]; try done. cbn [mbind outcome_bind mret outcome_ret] in *.
  apply ok_inj in Hput. rewrite Hput.
  rewrite (url_stay uf s' rest l (p + 1) found_at _ p 1);
    [|by apply seven_part|by rewrite view_part, Z.eqb_refl by (done || lia)|lia|lia|done..].
  rewrite part_part by done. rewrite zlen_cons. f_equal; [lia|]. do 2 f_equal. lia.
Qed.

(** A delimiter. *)
Lemma url_skip s s' rest c p old_uf found_at u :
  parse_url_char s c = s' -> url_part_of s' = Delimiter ->
  url_loop (c :: rest) p s old_uf found_at u = url_loop rest (p + 1) s' old_uf found_at u.
Proof. intros Hc Hs. cbn [url_loop]. rewrite Hc. cbv zeta. rewrite Hs. rewrite bool_decide_false by (by destruct s'). by rewrite orb_false_r. Qed.

(** Another character of a field, in another state. *)
Lemma url_inc uf s s' rest c p found_at u o n :
  seven u -> 0 <= uf < 7 -> view u uf = Some (mk_url_field o n) -> 0 <= n < 65535 -> parse_url_char s c = s' -> url_part_of s' = Part uf ->
  url_loop (c :: rest) p s uf found_at u
  = url_loop rest (p + 1) s' uf (found_at || bool_decide (s' = s_req_server_with_at)) (part u uf (mk_url_field o (n + 1))).
Proof.
  intros Hl Hu Hv Hn Hc Hs. cbn [url_loop]. rewrite Hc. cbv zeta. rewrite Hs, Z.eqb_refl.
  by rewrite (inc_part u uf o n Hl Hu Hv Hn).
Qed.

(** ** The host

    [host_loop] over the bytes themselves. *)
Fixpoint host_list (l : list Z) (p : Z) (s : http_host_state) (u : http_parser_url)
  : outcome (option http_host_state * http_parser_url) :=
  match l with
  | [] => mret (Some s, u)
  | ch :: l =>
      let new_s := http_parse_host_char s ch in
      if bool_decide (new_s = s_http_host_dead) then mret (None, u)
      else u ← host_fields u s new_s p; host_list l (p + 1) new_s u
  end.

Lemma host_loop_list l : forall pre post s u,
  host_loop (pre ++ l ++ post) (length l) (zlen pre) s u = host_list l (zlen pre) s u.
Proof.
  induction l as [|c l IH]; intros pre post s u; [done|]. cbn [host_loop host_list app length].
  replace (zlen pre) with (zlen pre + 0) at 1 by lia. rewrite (arr_get_app pre (c :: l ++ post) 0 c) by done.
  cbn [mbind outcome_bind]. cbv zeta. destruct (bool_decide _); [done|].
  destruct (host_fields u s (http_parse_host_char s c) (zlen pre)) as [u'| | |]; try done. cbn [mbind outcome_bind].
  specialize (IH (pre ++ [c]) post (http_parse_host_char s c) u'). rewrite zlen_app in IH. change (zlen [c]) with 1 in IH.
  rewrite <- IH. by rewrite <- app_assoc.
Qed.

(** The field of a state that is left only by another character. *)
Definition host_part (s : http_host_state) : option Z :=
  match s with
  | s_http_userinfo => Some UF_USERINFO
  | s_http_host => Some UF_HOST
  | s_http_host_port => Some UF_PORT
  | _ => None
  end.

Lemma host_part_range s uf : host_part s = Some uf -> 0 <= uf < 7 /\ s <> s_http_host_dead.
Proof. by destruct s; intros [= <-]. Qed.

Lemma host_stay s uf rest l : forall p u o n,
  host_part s = Some uf -> seven u -> view u uf = Some (mk_url_field o n) -> 0 <= n -> n + zlen l < 65536 ->
  Forall (fun c => http_parse_host_char s c = s) l ->
  host_list (l ++ rest) p s u = host_list rest (p + zlen l) s (part u uf (mk_url_field o (n + zlen l))).
Proof.
  induction l as [|c l IH]; intros p u o n Hs Hl Hv Hn Hlen Hall; destruct (host_part_range s uf Hs) as [Hu Hd].
  - rewrite zlen_nil, !Z.add_0_r. cbn [app]. by rewrite part_same.
  - apply Forall_cons in Hall as [Hc Hall]. rewrite zlen_cons in *. cbn [app host_list]. pose proof (zlen_nonneg l). rewrite Hc. cbv zeta.
    rewrite bool_decide_false by done.
    assert (host_fields u s s p = Ok (part u uf (mk_url_field o (n + 1)))) as ->.
    { rewrite <- (inc_part u uf o n) by (done || lia). by destruct s; try done; injection Hs as <-. }
    cbn [mbind outcome_bind].
    rewrite (IH _ _ o (n + 1)); [|done|by apply seven_part|by rewrite view_part, Z.eqb_refl by (done || lia)|lia|lia|done].
    rewrite part_part by done. f_equal; [lia|]. do 2 f_equal. lia.
Qed.

(** The first character of a field. *)
Lemma host_enter s0 s uf rest c l p u :
  host_part s = Some uf -> s0 <> s -> seven u -> (uf = UF_HOST -> exists o, view u UF_HOST = Some (mk_url_field o 0)) ->
  0 <= p < 65536 -> 1 + zlen l < 65536 -> http_parse_host_char s0 c = s -> Forall (fun c => http_parse_host_char s c = s) l ->
  host_list (c :: l ++ rest) p s0 u = host_list rest (p + zlen (c :: l)) s (part u uf (mk_url_field p (zlen (c :: l)))).
Proof.
  intros Hs H0 Hl Hh Hp Hlen Hc Hall. destruct (host_part_range s uf Hs) as [Hu Hd]. cbn [host_list]. rewrite Hc. cbv zeta.
  rewrite bool_decide_false by done. pose proof (zlen_nonneg l).
  assert (host_fields u s0 s p = Ok (part u uf (mk_url_field p 1))) as ->.
  { assert (u16 p = p) as Hp16 by (apply Z.mod_small; lia).
    assert ((u ← open_field u uf p; inc_len u uf) = Ok (part u uf (mk_url_field p 1))) as Hopen.
    { unfold open_field. rewrite Hp16, put_part by done. cbn [mbind outcome_bind].
      rewrite (inc_part _ uf p 0); [by rewrite part_part|by apply seven_part|done|by rewrite view_part, Z.eqb_refl by (done || lia)|lia]. }
    destruct s; try done; injection Hs as <-; unfold host_fields; rewrite bool_decide_false by done; try exact Hopen.
    destruct (Hh eq_refl) as [o Ho]. destruct (view_set _ _ _ Ho) as [Hset Hget]. rewrite Hget. cbn [mbind outcome_bind].
    rewrite put_set by done. cbn [mbind outcome_bind]. change (upd _ (mk_url_field o 0)) with (mk_url_field (u16 p) 0). rewrite Hp16.
    rewrite (inc_part _ UF_HOST p 0); [by rewrite part_part|by apply seven_part|done|by rewrite view_part, Z.eqb_refl by (done || lia)|lia]. }
  cbn [mbind outcome_bind].
  rewrite (host_stay s uf rest l (p + 1) _ p 1); [|done|by apply seven_part|by rewrite view_part, Z.eqb_refl by (done || lia)|lia|lia|done].
  rewrite part_part by done. rewrite zlen_cons. f_equal; [lia|]. do 2 f_equal. lia.
Qed.

(** A delimiter. *)
Lemma host_skip s0 s rest c p u :
  http_parse_host_char s0 c = s -> s = s_http_host_start \/ s = s_http_host_port_start ->
  host_list (c :: rest) p s0 u = host_list rest (p + 1) s u.
Proof. intros Hc Hs. cbn [host_list]. rewrite Hc. cbv zeta. by destruct Hs as [->| ->]. Qed.

(** ** URLs *)

Record url := mk_url {
  url_schema : list Z;
  url_userinfo : option (list Z);
  url_host : list Z;
  url_port_digits : option (list Z);
  url_path : list Z;
  url_query : option (list Z);
  url_fragment : option (list Z)
}.

Definition after (c : Z) (o : option (list Z)) : list Z := match o with Some l => c :: l | None => [] end.

Definition server_text (x : url) : list Z :=
  match url_userinfo x with Some l => l ++ [64] | None => [] end ++ url_host x ++ after 58 (url_port_digits x).

Definition url_text (x : url) : list Z :=
  url_schema x ++ lit "://"%str ++ server_text x ++ url_path x ++ after 63 (url_query x) ++ after 35 (url_fragment x).

(** One or more bytes, all of them of one kind. *)
Definition word_of (P : Z -> bool) (l : list Z) : Prop := l <> [] /\ Forall (fun c => is_byte c /\ P c = true) l.

Definition opt_word (P : Z -> bool) (o : option (list Z)) : Prop := match o with Some l => word_of P l | None => True end.

Definition number (l : list Z) : Z := fold_left (fun v c => v * 10 + (c - 48)) l 0.

Definition query_char (c : Z) : bool := IS_URL_CHAR c || (c =? 63).

Record url_wf (x : url) : Prop := {
  wf_schema : word_of IS_ALPHA (url_schema x);
  wf_userinfo : opt_word IS_USERINFO_CHAR (url_userinfo x);
  wf_host : word_of IS_HOST_CHAR (url_host x);
  wf_port : opt_word IS_NUM (url_port_digits x);
  wf_number : match url_port_digits x with Some l => number l <= 65535 | None => True end;
  wf_path : url_path x = [] \/ exists l, url_path x = 47 :: l /\ Forall (fun c => is_byte c /\ IS_URL_CHAR c = true) l;
  wf_query : opt_word query_char (url_query x);
  wf_fragment : opt_word query_char (url_fragment x);
  wf_fragment_after : url_fragment x <> None -> url_path x <> [] \/ url_query x <> None;
  wf_length : zlen (url_text x) < 65536
}.

(** What each field holds. *)
Definition url_component (x : url) (uf : Z) : option (list Z) :=
  match uf with
  | 0 => Some (url_schema x)
  | 1 => Some (url_host x)
  | 2 => url_port_digits x
  | 3 => match url_path x with [] => None | l => Some l end
  | 4 => url_query x
  | 5 => url_fragment x
  | _ => url_userinfo x
  end.

Definition field_text (buf : list Z) (u : http_parser_url) (uf : Z) : option (list Z) :=
  match view u uf with
  | Some f => Some (take (Z.to_nat (uf_len f)) (drop (Z.to_nat (uf_off f)) buf))
  | None => None
  end.

(** *** Characters *)

Lemma all_bytes (P : Z -> bool) : forallb P (Z.of_nat <$> seq 0 256) = true -> forall c, is_byte c -> P c = true.
Proof.
  rewrite forallb_forall. intros Hall c Hc. apply Hall. apply list_elem_of_In, list_elem_of_fmap. exists (Z.to_nat c). unfold is_byte in Hc.
  split; [lia|]. apply elem_of_seq. lia.
Qed.

Definition implies (P Q : Z -> bool) (c : Z) : bool := negb (P c) || Q c.

Lemma implied (P Q : Z -> bool) : forallb (implies P Q) (Z.of_nat <$> seq 0 256) = true -> forall c, is_byte c /\ P c = true -> Q c = true.
Proof. intros Hall c [Hc HP]. pose proof (all_bytes _ Hall c Hc) as H. unfold implies in H. by rewrite HP in H. Qed.

(** Characters of one kind lead from [s] to [s']. *)
Definition url_leads (s s' : http_state) (c : Z) : bool := bool_decide (parse_url_char s c = s').
Definition host_leads (s s' : http_host_state) (c : Z) : bool := bool_decide (http_parse_host_char s c = s').

Lemma url_leads_from P s s' :
  forallb (implies P (url_leads s s')) (Z.of_nat <$> seq 0 256) = true -> forall c, is_byte c /\ P c = true -> parse_url_char s c = s'.
Proof. intros H c Hc. pose proof (implied P _ H c Hc) as Hb. by apply bool_decide_eq_true in Hb. Qed.

Lemma host_leads_from P s s' :
  forallb (implies P (host_leads s s')) (Z.of_nat <$> seq 0 256) = true -> forall c, is_byte c /\ P c = true -> http_parse_host_char s c = s'.
Proof. intros H c Hc. pose proof (implied P _ H c Hc) as Hb. by apply bool_decide_eq_true in Hb. Qed.

Ltac by_bytes := (apply url_leads_from || apply host_leads_from); vm_compute; reflexivity.

Lemma alpha_starts : forall c, is_byte c /\ IS_ALPHA c = true -> parse_url_char s_req_spaces_before_url c = s_req_schema.
Proof. by_bytes. Qed.

Lemma alpha_stays : forall c, is_byte c /\ IS_ALPHA c = true -> parse_url_char s_req_schema c = s_req_schema.
Proof. by_bytes. Qed.

Lemma userinfo_leads s : s = s_req_server_start \/ s = s_req_server \/ s = s_req_server_with_at ->
  forall c, is_byte c /\ IS_USERINFO_CHAR c = true -> parse_url_char s c = s_req_server.
Proof. intros [->|[->| ->]]; by_bytes. Qed.

Lemma host_userinfo c : is_byte c /\ IS_HOST_CHAR c = true -> is_byte c /\ IS_USERINFO_CHAR c = true.
Proof. intros Hc. split; [apply Hc|]. revert c Hc. apply implied. vm_compute. reflexivity. Qed.

Lemma num_userinfo c : is_byte c /\ IS_NUM c = true -> is_byte c /\ IS_USERINFO_CHAR c = true.
Proof. intros Hc. split; [apply Hc|]. revert c Hc. apply implied. vm_compute. reflexivity. Qed.

Lemma path_stays : forall c, is_byte c /\ IS_URL_CHAR c = true -> parse_url_char s_req_path c = s_req_path.
Proof. by_bytes. Qed.

Lemma query_leads s : s = s_req_query_string_start \/ s = s_req_query_string ->
  forall c, is_byte c /\ query_char c = true -> parse_url_char s c = s_req_query_string.
Proof. intros [->| ->]; by_bytes. Qed.

Lemma fragment_leads s : s = s_req_fragment_start \/ s = s_req_fragment ->
  forall c, is_byte c /\ query_char c = true -> parse_url_char s c = s_req_fragment.
Proof. intros [->| ->]; by_bytes. Qed.

Lemma userinfo_host s : s = s_http_userinfo_start \/ s = s_http_userinfo ->
  forall c, is_byte c /\ IS_USERINFO_CHAR c = true -> http_parse_host_char s c = s_http_userinfo.
Proof. intros [->| ->]; by_bytes. Qed.

Lemma host_host s : s = s_http_host_start \/ s = s_http_host ->
  forall c, is_byte c /\ IS_HOST_CHAR c = true -> http_parse_host_char s c = s_http_host.
Proof. intros [->| ->]; by_bytes. Qed.

Lemma num_host s : s = s_http_host_port_start \/ s = s_http_host_port ->
  forall c, is_byte c /\ IS_NUM c = true -> http_parse_host_char s c = s_http_host_port.
Proof. intros [->| ->]; by_bytes. Qed.

(** *** The loop *)

Definition opt_part (u : http_parser_url) (uf p : Z) (o : option (list Z)) : http_parser_url :=
  match o with Some l => part u uf (mk_url_field p (zlen l)) | None => u end.

Lemma seven_opt u uf p o : seven u -> seven (opt_part u uf p o).
Proof. intros Hu. destruct o; [by apply seven_part|done]. Qed.

Lemma view_opt u a p o i : seven u -> 0 <= a < 7 -> 0 <= i ->
  view (opt_part u a p o) i = match o with Some l => if i =? a then Some (mk_url_field p (zlen l)) else view u i | None => view u i end.
Proof. intros Hu Ha Hi. destruct o; [by apply view_part|done]. Qed.

Lemma word_cons P l : word_of P l -> exists c k, l = c :: k /\ (is_byte c /\ P c = true) /\ Forall (fun c => is_byte c /\ P c = true) k.
Proof. destruct l as [|c k]; intros [Hne Hall]; [done|]. apply Forall_cons in Hall as [Hc Hk]. by exists c, k. Qed.

Lemma leads_all {S} (step : S -> Z -> S) s s' (Q : Z -> Prop) l : (forall c, Q c -> step s c = s') -> Forall Q l -> Forall (fun c => step s c = s') l.
Proof. intros H Hl. eapply Forall_impl; [exact Hl|exact H]. Qed.

(** A word that is a field of its own, after a delimiter. *)
Lemma url_field_word P uf d s s1 s2 l rest p old_uf found_at u :
  seven u -> 0 <= p -> p + 1 + zlen l < 65536 -> word_of P l -> 0 <= uf < 7 -> uf <> old_uf ->
  parse_url_char s d = s1 -> url_part_of s1 = Delimiter -> url_part_of s2 = Part uf -> s2 <> s_req_server_with_at ->
  (forall c, is_byte c /\ P c = true -> parse_url_char s1 c = s2) -> (forall c, is_byte c /\ P c = true -> parse_url_char s2 c = s2) ->
  url_loop (d :: l ++ rest) p s old_uf found_at u
  = url_loop rest (p + 1 + zlen l) s2 uf found_at (part u uf (mk_url_field (p + 1) (zlen l))).
Proof.
  intros Hu Hp Hlen Hw Huf Hne Hd Hs1 Hs2 Hat H1 H2. rewrite (url_skip s s1) by done. pose proof (zlen_nonneg l).
  destruct (word_cons P l Hw) as (c & k & -> & Hc & Hk). rewrite zlen_cons in Hlen.
  change ((c :: k) ++ rest) with (c :: k ++ rest). pose proof (zlen_nonneg k).
  apply (url_enter uf s1 s2); [done|lia|lia|by apply H1|done..|].
  eapply leads_all; [exact H2|exact Hk].
Qed.

Lemma fragment_loop o p s old_uf found_at u :
  seven u -> 0 <= p -> p + zlen (after 35 o) < 65536 -> opt_word query_char o -> old_uf <> UF_FRAGMENT ->
  (o <> None -> s = s_req_path \/ s = s_req_query_string) ->
  url_loop (after 35 o) p s old_uf found_at u = Ok (Some found_at, opt_part u UF_FRAGMENT (p + 1) o).
Proof.
  intros Hu Hp Hlen Ho Hne Hs. destruct o as [l|]; [|done]. cbn [after opt_part opt_word] in *. rewrite zlen_cons in Hlen.
  rewrite <- (app_nil_r l) at 1.
  rewrite (url_field_word query_char UF_FRAGMENT 35 s s_req_fragment_start s_req_fragment l [] p old_uf found_at u);
    [done|done|lia|lia|done|by split|done|by destruct (Hs ltac:(done)) as [->| ->]|done|done|done|apply fragment_leads; by left|apply fragment_leads; by right].
Qed.

Lemma query_loop q o p s old_uf found_at u :
  seven u -> 0 <= p -> p + zlen (after 63 q ++ after 35 o) < 65536 -> opt_word query_char q -> opt_word query_char o ->
  old_uf <> UF_QUERY -> old_uf <> UF_FRAGMENT -> s = s_req_server \/ s = s_req_path -> (o <> None -> s = s_req_path \/ q <> None) ->
  url_loop (after 63 q ++ after 35 o) p s old_uf found_at u
  = Ok (Some found_at, opt_part (opt_part u UF_QUERY (p + 1) q) UF_FRAGMENT (p + zlen (after 63 q) + 1) o).
Proof.
  intros Hu Hp Hlen Hq Ho Hne Hne' Hs Hos. rewrite zlen_app in Hlen. pose proof (zlen_nonneg (after 35 o)). destruct q as [l|].
  - cbn [after opt_part opt_word] in *. rewrite zlen_cons in *. pose proof (zlen_nonneg l).
    change ((63 :: l) ++ after 35 o) with (63 :: l ++ after 35 o).
    rewrite (url_field_word query_char UF_QUERY 63 s s_req_query_string_start s_req_query_string l (after 35 o) p old_uf found_at u);
      [|done|lia|lia|done|by split|done|by destruct Hs as [->| ->]|done|done|done|apply query_leads; by left|apply query_leads; by right].
    rewrite fragment_loop; [|by apply seven_part|lia|lia|done|done|by right]. do 3 f_equal. lia.
  - cbn [after opt_part app] in *. rewrite zlen_nil, Z.add_0_r in *. apply fragment_loop; try done.
    intros Hn. destruct (Hos Hn); by left.
Qed.

Definition path_part (u : http_parser_url) (p : Z) (l : list Z) : http_parser_url :=
  match l with [] => u | _ => part u UF_PATH (mk_url_field p (zlen l)) end.

Lemma path_loop x p found_at u :
  url_wf x -> seven u -> 0 <= p -> p + zlen (url_path x ++ after 63 (url_query x) ++ after 35 (url_fragment x)) < 65536 ->
  url_loop (url_path x ++ after 63 (url_query x) ++ after 35 (url_fragment x)) p s_req_server UF_HOST found_at u
  = Ok (Some found_at,
        opt_part (opt_part (path_part u p (url_path x)) UF_QUERY (p + zlen (url_path x) + 1) (url_query x))
          UF_FRAGMENT (p + zlen (url_path x) + zlen (after 63 (url_query x)) + 1) (url_fragment x)).
Proof.
  intros Hx Hu Hp Hlen. rewrite zlen_app in Hlen. pose proof (zlen_nonneg (url_path x)).
  destruct (wf_path x Hx) as [E|(l & E & Hl)]; rewrite E in *.
  - cbn [app path_part]. rewrite zlen_nil, Z.add_0_r in *. apply query_loop; try done; try apply Hx; [by left|].
    intros Hn. destruct (wf_fragment_after x Hx Hn) as [Hp'|Hq]; [by rewrite E in Hp'|by right].
  - rewrite zlen_cons in *. set (rest := after 63 _ ++ _) in *. pose proof (zlen_nonneg l). pose proof (zlen_nonneg rest).
    change ((47 :: l) ++ rest) with (47 :: l ++ rest).
    rewrite (url_enter UF_PATH s_req_server s_req_path); [|done|lia|lia|done|done|done|by split|done|eapply leads_all; [exact path_stays|exact Hl]].
    rewrite zlen_cons. unfold rest in *. rewrite query_loop; [cbn [path_part]; by rewrite zlen_cons|by apply seven_part|lia|lia|apply Hx|apply Hx|done|done|by right|by left].
Qed.

(** The host with what belongs to it. *)
Lemma server_loop x rest p old_uf u :
  url_wf x -> seven u -> 0 <= p -> p + zlen (server_text x) < 65536 -> old_uf <> UF_HOST ->
  url_loop (server_text x ++ rest) p s_req_server_start old_uf false u
  = url_loop rest (p + zlen (server_text x)) s_req_server UF_HOST (bool_decide (is_Some (url_userinfo x)))
      (part u UF_HOST (mk_url_field p (zlen (server_text x)))).
Proof.
  intros Hx Hu Hp Hlen Hne. unfold server_text in *.
  set (tail := url_host x ++ after 58 (url_port_digits x)) in *.
  assert (exists c k, tail = c :: k /\ parse_url_char s_req_server_start c = s_req_server /\ parse_url_char s_req_server_with_at c = s_req_server /\
    Forall (fun c => parse_url_char s_req_server c = s_req_server) k) as (c & k & E & Hc & Hc' & Hk).
  { destruct (word_cons _ _ (wf_host x Hx)) as (c & k & E & Hc & Hk). apply host_userinfo in Hc. unfold tail. rewrite E.
    exists c, (k ++ after 58 (url_port_digits x)). split; [done|]. split; [apply userinfo_leads; [by left|done]|].
    split; [apply userinfo_leads; [by right; right|done]|]. apply Forall_app. split.
    - eapply leads_all; [|exact Hk]. intros c0 H0. apply userinfo_leads; [by right; left|by apply host_userinfo].
    - pose proof (wf_port x Hx) as Hport. destruct (url_port_digits x) as [q|]; [|by apply Forall_nil]. destruct Hport as [_ Hq].
      apply Forall_cons. split; [done|]. eapply leads_all; [|exact Hq]. intros c0 H0. apply userinfo_leads; [by right; left|by apply num_userinfo]. }
  clearbody tail. subst tail. pose proof (zlen_nonneg k) as Hk0. pose proof (wf_userinfo x Hx) as Hw. destruct (url_userinfo x) as [w|].
  - destruct (word_cons _ _ Hw) as (d & v & -> & Hd & Hv). pose proof (zlen_nonneg v) as Hv0.
    repeat rewrite ?zlen_app, ?zlen_cons, ?zlen_nil in Hlen.
    replace ((((d :: v) ++ [64]) ++ c :: k) ++ rest) with (d :: v ++ 64 :: c :: k ++ rest) by (cbn; by rewrite <- !app_assoc).
    rewrite (url_enter UF_HOST s_req_server_start s_req_server); [|done|lia|lia|by apply userinfo_leads; [left|]|done|done|by split|congruence|].
    2: { eapply leads_all; [|exact Hv]. apply userinfo_leads. by right; left. }
    rewrite (url_inc UF_HOST s_req_server s_req_server_with_at _ 64 _ _ _ p (zlen (d :: v)));
      [|by apply seven_part|by split|by rewrite view_part|rewrite zlen_cons; lia|reflexivity|done]. rewrite part_part by done.
    rewrite (url_inc UF_HOST s_req_server_with_at s_req_server _ c _ _ _ p (zlen (d :: v) + 1));
      [|by apply seven_part|by split|by rewrite view_part|rewrite zlen_cons; lia|done|done]. rewrite part_part by done.
    rewrite (url_stay UF_HOST s_req_server rest k _ _ _ p (zlen (d :: v) + 1 + 1));
      [|by apply seven_part|by rewrite view_part|rewrite zlen_cons; lia|rewrite zlen_cons; lia|done|done|by split|done]. rewrite part_part by done.
    repeat rewrite ?zlen_app, ?zlen_cons, ?zlen_nil. f_equal; [lia|]. do 2 f_equal. lia.
  - cbn [app] in *. rewrite zlen_cons in *.
    rewrite (url_enter UF_HOST s_req_server_start s_req_server); [|done|lia|lia|done|done|done|by split|congruence|done]. by rewrite zlen_cons.
Qed.

(** The fields after the loop. *)
Definition url_fields_of (x : url) (u : http_parser_url) : http_parser_url :=
  let o := zlen (url_schema x) + 3 in
  let p := o + zlen (server_text x) in
  let u := part u UF_SCHEMA (mk_url_field 0 (zlen (url_schema x))) in
  let u := path_part (part u UF_HOST (mk_url_field o (zlen (server_text x)))) p (url_path x) in
  opt_part (opt_part u UF_QUERY (p + zlen (url_path x) + 1) (url_query x))
    UF_FRAGMENT (p + zlen (url_path x) + zlen (after 63 (url_query x)) + 1) (url_fragment x).

Lemma url_text_loop x u :
  url_wf x -> seven u ->
  url_loop (url_text x) 0 s_req_spaces_before_url UF_MAX false u
  = Ok (Some (bool_decide (is_Some (url_userinfo x))), url_fields_of x u).
Proof.
  intros Hx Hu. pose proof (wf_length x Hx) as Hlen. unfold url_text in *. set (rest := url_path x ++ _) in *.
  destruct (word_cons _ _ (wf_schema x Hx)) as (c & k & E & Hc & Hk).
  rewrite !zlen_app in Hlen. change (zlen (lit "://"%str)) with 3 in Hlen.
  pose proof (zlen_nonneg k). pose proof (zlen_nonneg (server_text x)). pose proof (zlen_nonneg rest).
  unfold url_fields_of. cbv zeta. rewrite E in *. rewrite zlen_cons in Hlen.
  change ((c :: k) ++ lit "://"%str ++ server_text x ++ rest) with (c :: k ++ 58 :: 47 :: 47 :: server_text x ++ rest).
  rewrite (url_enter UF_SCHEMA s_req_spaces_before_url s_req_schema);
    [|done|lia|lia|by apply alpha_starts|done|done|by split|done|eapply leads_all; [exact alpha_stays|exact Hk]].
  rewrite (url_skip s_req_schema s_req_schema_slash) by reflexivity.
  rewrite (url_skip s_req_schema_slash s_req_schema_slash_slash) by reflexivity.
  rewrite (url_skip s_req_schema_slash_slash s_req_server_start) by reflexivity. rewrite zlen_cons.
  rewrite server_loop; [|done|by apply seven_part|lia|lia|done].
  unfold rest in *. rewrite path_loop; [|done|by do 2 apply seven_part|lia|lia].
  by replace (0 + (zlen k + 1) + 1 + 1 + 1) with (zlen k + 1 + 3) by lia.
Qed.

(** *** The host and the port *)

(** The fields after [http_parse_host], the host beginning at [o]. *)
Definition host_fields_of (x : url) (o : Z) (u : http_parser_url) : http_parser_url :=
  let p := o + match url_userinfo x with Some w => zlen w + 1 | None => 0 end in
  let u := opt_part (part u UF_HOST (mk_url_field o 0)) UF_USERINFO o (url_userinfo x) in
  opt_part (part u UF_HOST (mk_url_field p (zlen (url_host x)))) UF_PORT (p + zlen (url_host x) + 1) (url_port_digits x).

Lemma port_list x p u :
  url_wf x -> seven u -> 0 <= p -> p + zlen (after 58 (url_port_digits x)) < 65536 ->
  exists s, host_list (after 58 (url_port_digits x)) p s_http_host u = Ok (Some s, opt_part u UF_PORT (p + 1) (url_port_digits x)) /\
    host_cut s = false.
Proof.
  intros Hx Hu Hp Hlen. pose proof (wf_port x Hx) as Hport. destruct (url_port_digits x) as [q|]; [|by exists s_http_host].
  exists s_http_host_port. split; [|done]. cbn [after opt_part] in *. destruct (word_cons _ _ Hport) as (c & k & -> & Hc & Hk).
  rewrite !zlen_cons in Hlen. pose proof (zlen_nonneg k). rewrite (host_skip s_http_host s_http_host_port_start); [|done|by right].
  rewrite <- (app_nil_r k) at 1.
  rewrite (host_enter s_http_host_port_start s_http_host_port UF_PORT); [done|done|done|done|done|lia|lia|by apply num_host; [left|]|].
  eapply leads_all; [|exact Hk]. apply num_host. by right.
Qed.

Lemma host_text x s0 p u :
  url_wf x -> seven u -> (exists o, view u UF_HOST = Some (mk_url_field o 0)) -> 0 <= p ->
  p + zlen (url_host x ++ after 58 (url_port_digits x)) < 65536 -> s0 = s_http_host_start ->
  exists s, host_list (url_host x ++ after 58 (url_port_digits x)) p s0 u
    = Ok (Some s, opt_part (part u UF_HOST (mk_url_field p (zlen (url_host x)))) UF_PORT (p + zlen (url_host x) + 1) (url_port_digits x)) /\
    host_cut s = false.
Proof.
  intros Hx Hu Hv Hp Hlen ->. destruct (word_cons _ _ (wf_host x Hx)) as (c & k & E & Hc & Hk). rewrite E in *.
  rewrite zlen_app, zlen_cons in Hlen. pose proof (zlen_nonneg k). pose proof (zlen_nonneg (after 58 (url_port_digits x))).
  change ((c :: k) ++ after 58 (url_port_digits x)) with (c :: k ++ after 58 (url_port_digits x)).
  rewrite (host_enter s_http_host_start s_http_host UF_HOST); [|done|done|done|done|lia|lia|by apply host_host; [left|]|].
  2: { eapply leads_all; [|exact Hk]. apply host_host. by right. }
  apply port_list; [done|by apply seven_part|rewrite zlen_cons; lia|rewrite zlen_cons; lia].
Qed.

Lemma http_parse_host_text x pre post u :
  url_wf x -> seven u -> view u UF_HOST = Some (mk_url_field (zlen pre) (zlen (server_text x))) ->
  zlen pre + zlen (server_text x) < 65536 ->
  http_parse_host (pre ++ server_text x ++ post) u (bool_decide (is_Some (url_userinfo x))) = Ok (0, host_fields_of x (zlen pre) u).
Proof.
  intros Hx Hu Hv Hlen. pose proof (view_set _ _ _ Hv) as [Hset Hget]. unfold http_parse_host. rewrite Hget, Hset.
  cbn [c_assert mbind outcome_bind]. rewrite put_set by done. cbn [mbind outcome_bind].
  change (upd 0 (mk_url_field (zlen pre) (zlen (server_text x)))) with (mk_url_field (zlen pre) 0). cbn [uf_len uf_off].
  set (s0 := if bool_decide _ then _ else _). replace (Z.to_nat (zlen (server_text x))) with (length (server_text x)) by (unfold zlen; lia).
  rewrite host_loop_list.
  enough (exists s, host_list (server_text x) (zlen pre) s0 (part u UF_HOST (mk_url_field (zlen pre) 0)) = Ok (Some s, host_fields_of x (zlen pre) u) /\
    host_cut s = false) as (s & -> & Hs) by (cbn [mbind outcome_bind mret outcome_ret]; by rewrite Hs).
  pose proof (wf_userinfo x Hx) as Hw. pose proof (zlen_nonneg pre). unfold host_fields_of, server_text in *. cbv zeta.
  set (u1 := part u UF_HOST (mk_url_field (zlen pre) 0)). assert (seven u1) as Hu1 by (by apply seven_part).
  assert (view u1 UF_HOST = Some (mk_url_field (zlen pre) 0)) as Hv1 by (unfold u1; by rewrite view_part).
  destruct (url_userinfo x) as [w|].
  - destruct (word_cons _ _ Hw) as (c & k & -> & Hc & Hk). repeat rewrite ?zlen_app, ?zlen_cons, ?zlen_nil in Hlen. rewrite <- zlen_app in Hlen.
    set (tail := url_host x ++ after 58 (url_port_digits x)) in *. pose proof (zlen_nonneg k). pose proof (zlen_nonneg tail).
    replace (((c :: k) ++ [64]) ++ tail) with (c :: k ++ 64 :: tail) by (cbn; by rewrite <- app_assoc).
    assert (s0 = s_http_userinfo_start) as -> by (unfold s0; by rewrite bool_decide_true by (by eexists)).
    rewrite (host_enter s_http_userinfo_start s_http_userinfo UF_USERINFO); [|done|done|done|done|lia|lia|by apply userinfo_host; [left|]|].
    2: { eapply leads_all; [|exact Hk]. apply userinfo_host. by right. }
    rewrite (host_skip s_http_userinfo s_http_host_start); [|done|by left]. cbn [opt_part].
    replace (zlen pre + (zlen (c :: k) + 1)) with (zlen pre + zlen (c :: k) + 1) by lia.
    apply host_text; [done|by apply seven_part| |rewrite zlen_cons; lia|rewrite zlen_cons; fold tail; lia|done].
    exists (zlen pre). by rewrite view_part.
  - cbn [app opt_part] in *. rewrite Z.add_0_r.
    apply host_text; [done|done|by exists (zlen pre)|lia|lia|by unfold s0; rewrite bool_decide_false by (by intros [? [=]])].
Qed.

Lemma fold_number_le l : forall v, Forall (fun c => is_byte c /\ IS_NUM c = true) l -> 0 <= v -> v <= fold_left (fun v c => v * 10 + (c - 48)) l v.
Proof.
  induction l as [|c l IH]; intros v Hl Hv; cbn [fold_left]; [lia|]. apply Forall_cons in Hl as [[_ Hc] Hl].
  unfold IS_NUM in Hc. specialize (IH (v * 10 + (c - 48)) Hl). lia.
Qed.

Lemma port_loop_number l : forall pre post v,
  Forall (fun c => is_byte c /\ IS_NUM c = true) l -> 0 <= v -> fold_left (fun v c => v * 10 + (c - 48)) l v <= 65535 ->
  port_loop (pre ++ l ++ post) (length l) (zlen pre) v = Ok (Some (fold_left (fun v c => v * 10 + (c - 48)) l v)).
Proof.
  induction l as [|c l IH]; intros pre post v Hl Hv Hmax; [done|]. apply Forall_cons in Hl as [[Hb Hc] Hl]. cbn [port_loop app length fold_left] in *.
  replace (zlen pre) with (zlen pre + 0) at 1 by lia. rewrite (arr_get_app pre (c :: l ++ post) 0 c) by done. cbn [mbind outcome_bind]. cbv zeta.
  unfold IS_NUM in Hc. pose proof (fold_number_le l (v * 10 + (c - 48)) Hl ltac:(lia)) as Hle.
  assert (u64 (u64 (v * 10) + (schar c - 48)) = v * 10 + (c - 48)) as ->.
  { unfold schar. rewrite (proj2 (Z.ltb_lt c 128)) by lia. unfold u64. rewrite (Z.mod_small (v * 10)) by lia. apply Z.mod_small. lia. }
  rewrite (proj2 (Z.ltb_ge _ _)) by lia. specialize (IH (pre ++ [c]) post (v * 10 + (c - 48)) Hl ltac:(lia) Hmax).
  rewrite zlen_app in IH. change (zlen [c]) with 1 in IH. rewrite <- IH. by rewrite <- app_assoc.
Qed.

(** *** The fields *)

(** Where each field is. *)
Definition url_place (x : url) (uf : Z) : option url_field :=
  let o := zlen (url_schema x) + 3 in
  let h := o + match url_userinfo x with Some w => zlen w + 1 | None => 0 end in
  let p := o + zlen (server_text x) in
  let q := p + zlen (url_path x) in
  let opt off l := match l with Some l => Some (mk_url_field off (zlen l)) | None => None end in
  match uf with
  | 0 => Some (mk_url_field 0 (zlen (url_schema x)))
  | 1 => Some (mk_url_field h (zlen (url_host x)))
  | 2 => opt (h + zlen (url_host x) + 1) (url_port_digits x)
  | 3 => match url_path x with [] => None | l => Some (mk_url_field p (zlen l)) end
  | 4 => opt (q + 1) (url_query x)
  | 5 => opt (q + zlen (after 63 (url_query x)) + 1) (url_fragment x)
  | _ => opt o (url_userinfo x)
  end.

Lemma field_cases uf : 0 <= uf < 7 ->
  uf = UF_SCHEMA \/ uf = UF_HOST \/ uf = UF_PORT \/ uf = UF_PATH \/ uf = UF_QUERY \/ uf = UF_FRAGMENT \/ uf = UF_USERINFO.
Proof. unfold UF_SCHEMA, UF_HOST, UF_PORT, UF_PATH, UF_QUERY, UF_FRAGMENT, UF_USERINFO. lia. Qed.

Lemma seven_path u p l : seven u -> seven (path_part u p l).
Proof. intros Hu. destruct l; [done|by apply seven_part]. Qed.

Lemma view_path u p l i : seven u -> 0 <= i ->
  view (path_part u p l) i = match l with [] => view u i | _ => if i =? UF_PATH then Some (mk_url_field p (zlen l)) else view u i end.
Proof. intros Hu Hi. destruct l; [done|by apply view_part]. Qed.

Lemma seven_fields x u : seven u -> seven (url_fields_of x u).
Proof. intros Hu. unfold url_fields_of. cbv zeta. by apply seven_opt, seven_opt, seven_path, seven_part, seven_part. Qed.

Ltac sevens := repeat first [assumption | apply seven_opt | apply seven_path | apply seven_part].

Lemma view_place x u o uf :
  seven u -> (forall i, 0 <= i -> view u i = None) -> o = zlen (url_schema x) + 3 -> 0 <= uf < 7 ->
  view (host_fields_of x o (url_fields_of x u)) uf = url_place x uf.
Proof.
  intros Hu Hv -> Huf. unfold host_fields_of, url_fields_of. cbv zeta.
  rewrite !view_opt, !view_part, !view_opt, !view_part, !view_opt, !view_path, !view_part by (sevens || done || lia). rewrite Hv by lia.
  destruct (field_cases uf Huf) as [->|[->|[->|[->|[->|[->| ->]]]]]]; cbn [Z.eqb Pos.eqb UF_SCHEMA UF_HOST UF_PORT UF_PATH UF_QUERY UF_FRAGMENT UF_USERINFO url_place];
    by destruct (url_port_digits x), (url_userinfo x), (url_query x), (url_fragment x), (url_path x).
Qed.

(** A piece of a buffer. *)
Lemma piece (pre l post buf : list Z) n :
  buf = pre ++ l ++ post -> n = zlen pre -> take (Z.to_nat (zlen l)) (drop (Z.to_nat n) buf) = l.
Proof. intros -> ->. unfold zlen. rewrite !Nat2Z.id. by rewrite drop_app_length, take_app_length. Qed.

Lemma place_text x uf : 0 <= uf < 7 ->
  match url_place x uf with
  | Some f => Some (take (Z.to_nat (uf_len f)) (drop (Z.to_nat (uf_off f)) (url_text x)))
  | None => None
  end = url_component x uf.
Proof.
  intros Huf. unfold url_text, server_text.
  set (s := url_schema x). set (w := match url_userinfo x with Some l => l ++ [64] | None => [] end).
  assert (match url_userinfo x with Some w => zlen w + 1 | None => 0 end = zlen w) as Hw.
  { unfold w. destruct (url_userinfo x); [by rewrite zlen_app|done]. }
  destruct (field_cases uf Huf) as [->|[->|[->|[->|[->|[->| ->]]]]]]; unfold url_place, url_component; cbv zeta;
    cbn [UF_SCHEMA UF_HOST UF_PORT UF_PATH UF_QUERY UF_FRAGMENT UF_USERINFO]; rewrite ?Hw; unfold server_text; fold s w.
  - f_equal. by eapply (piece []).
  - f_equal. eapply (piece (s ++ lit "://"%str ++ w)); [by rewrite <- !app_assoc|]. rewrite !zlen_app. change (zlen (lit "://"%str)) with 3. cbn [uf_off]. lia.
  - destruct (url_port_digits x) as [q|]; [|done]. f_equal.
    eapply (piece (s ++ lit "://"%str ++ w ++ url_host x ++ [58])); [by rewrite <- !app_assoc|].
    rewrite !zlen_app. change (zlen (lit "://"%str)) with 3. change (zlen [58]) with 1. cbn [uf_off]. lia.
  - destruct (url_path x) as [|c l]; [done|]. f_equal.
    eapply (piece (s ++ lit "://"%str ++ w ++ url_host x ++ after 58 (url_port_digits x))); [by rewrite <- !app_assoc|].
    rewrite !zlen_app. change (zlen (lit "://"%str)) with 3. cbn [uf_off]. lia.
  - destruct (url_query x) as [q|]; [|done]. f_equal.
    eapply (piece (s ++ lit "://"%str ++ w ++ url_host x ++ after 58 (url_port_digits x) ++ url_path x ++ [63])); [by rewrite <- !app_assoc|].
    rewrite !zlen_app. change (zlen (lit "://"%str)) with 3. change (zlen [63]) with 1. cbn [uf_off]. lia.
  - destruct (url_fragment x) as [q|]; [|done]. f_equal.
    eapply (piece (s ++ lit "://"%str ++ w ++ url_host x ++ after 58 (url_port_digits x) ++ url_path x ++ after 63 (url_query x) ++ [35]) _ []);
      [by rewrite <- !app_assoc, app_nil_r|].
    rewrite !zlen_app. change (zlen (lit "://"%str)) with 3. change (zlen [35]) with 1. cbn [uf_off]. lia.
  - subst w. destruct (url_userinfo x) as [w|]; [|done]. f_equal.
    eapply (piece (s ++ lit "://"%str)); [by rewrite <- !app_assoc|].
    rewrite !zlen_app. change (zlen (lit "://"%str)) with 3. done.
Qed.

Lemma view_host x u : seven u -> view (url_fields_of x u) UF_HOST = Some (mk_url_field (zlen (url_schema x) + 3) (zlen (server_text x))).
Proof.
  intros Hu. unfold url_fields_of. cbv zeta. rewrite !view_opt, !view_path, !view_part by (sevens || done || lia).
  by destruct (url_query x), (url_fragment x), (url_path x).
Qed.

Lemma view_unset u uf : seven u -> 0 <= uf < 7 -> view u uf = None -> field_set u uf = false.
Proof.
  intros Hu Huf. unfold view. destruct (field_set u uf); [|done]. destruct (get_field_ok u uf Hu Huf) as [f ->]. done.
Qed.

Lemma port_opt u uf p o : u_port (opt_part u uf p o) = u_port u.
Proof. by destruct o. Qed.

Lemma port_kept x u o : u_port (host_fields_of x o (url_fields_of x u)) = u_port u.
Proof.
  unfold host_fields_of, url_fields_of. cbv zeta. rewrite port_opt. cbn. rewrite port_opt. cbn. rewrite !port_opt. by destruct (url_path x).
Qed.

(** The port of a parsed URL. *)
Lemma url_port_text x u :
  url_wf x -> seven u -> u_port u = 0 -> view u UF_PORT = url_place x UF_PORT ->
  exists u', url_port (url_text x) u = Ok (0, u') /\ u_port u' = match url_port_digits x with Some q => number q | None => 0 end /\
    forall uf, view u' uf = view u uf.
Proof.
  intros Hx Hu H0 Hv. pose proof (place_text x UF_PORT ltac:(done)) as Hpt. unfold url_port. pose proof (wf_port x Hx) as Hport. pose proof (wf_number x Hx) as Hnum.
  unfold url_place in Hv. cbv zeta in Hv. cbn [UF_PORT] in Hv. destruct (url_port_digits x) as [q|] eqn:Eq.
  - pose proof (view_set _ _ _ Hv) as [Hs Hg]. rewrite Hs, Hg. cbn [mbind outcome_bind uf_off uf_len].
    set (pre := url_schema x ++ lit "://"%str ++ match url_userinfo x with Some l => l ++ [64] | None => [] end ++ url_host x ++ [58]).
    set (post := url_path x ++ after 63 (url_query x) ++ after 35 (url_fragment x)).
    assert (url_text x = pre ++ q ++ post) as Etext.
    { unfold url_text, server_text, pre, post. rewrite Eq. by rewrite <- !app_assoc. }
    match goal with |- context [c_assert (?a + _ <=? _)] => replace a with (zlen pre) end.
    2: { unfold pre. rewrite !zlen_app. change (zlen (lit "://"%str)) with 3. change (zlen [58]) with 1.
         destruct (url_userinfo x); rewrite ?zlen_app; change (zlen [64]) with 1; rewrite ?zlen_nil; lia. }
    rewrite Etext. rewrite (proj2 (Z.leb_le _ _)) by (rewrite !zlen_app; pose proof (zlen_nonneg post); lia).
    cbn [c_assert mbind outcome_bind]. replace (Z.to_nat (zlen q)) with (length q) by (unfold zlen; lia). destruct Hport as [_ Hq].
    rewrite port_loop_number by (done || exact Hnum). cbn [mbind outcome_bind mret outcome_ret].
    eexists. split; [reflexivity|]. split; [|done]. apply Z.mod_small. pose proof (fold_number_le q 0 Hq). unfold number in *. lia.
  - rewrite view_unset by done. exists u. by split; [|split].
Qed.

(** C35. [http_parser_parse_url] takes a URL apart: for every schema, user, host, port, path, query
    and fragment of the right characters, of which user, port, path, query and fragment may be
    missing, the fields of the text put together from them are set exactly for the parts that are
    there and hold their text, and [port] is the number of the port. *)
Theorem url_roundtrip (x : url) (u : http_parser_url) :
  url_wf x -> length (u_field_data u) = 7%nat ->
  exists u', http_parser_parse_url (url_text x) false u = Ok (0, u') /\
    u_port u' = match url_port_digits x with Some q => number q | None => 0 end /\
    forall uf, 0 <= uf < 7 -> field_text (url_text x) u' uf = url_component x uf.
Proof.
  intros Hx Hl. unfold http_parser_parse_url.
  assert (url_text x = (url_schema x ++ lit "://"%str) ++ server_text x ++ url_path x ++ after 63 (url_query x) ++ after 35 (url_fragment x)) as Etext
    by (unfold url_text; by rewrite <- !app_assoc).
  assert (zlen (url_schema x ++ lit "://"%str) = zlen (url_schema x) + 3) as Epre by (by rewrite zlen_app).
  pose proof (wf_length x Hx) as Hlen. rewrite Etext, (zlen_app (_ ++ _)), (zlen_app (server_text x)) in Hlen.
  pose proof (zlen_nonneg (url_schema x)). pose proof (zlen_nonneg (server_text x)).
  pose proof (zlen_nonneg (url_path x ++ after 63 (url_query x) ++ after 35 (url_fragment x))).
  rewrite (proj2 (Z.eqb_neq _ _)) by (rewrite Etext, zlen_app, Epre, zlen_app; lia).
  set (u0 := upd _ (upd _ u)). assert (seven u0) as Hu0 by done.
  assert (forall i, 0 <= i -> view u0 i = None) as Hv0.
  { intros i Hi. unfold view, field_set. by rewrite Z.land_0_l. }
  rewrite url_text_loop by done. cbn [mbind outcome_bind].
  pose proof (view_host x u0 Hu0) as Hvh. rewrite <- Epre in Hvh. pose proof (view_set _ _ _ Hvh) as [Hset _]. rewrite Hset, andb_false_r.
  rewrite Etext. rewrite http_parse_host_text; [|done|by apply seven_fields|done|lia].
  cbn [mbind outcome_bind Z.eqb negb andb]. rewrite <- Etext, Epre.
  set (u3 := host_fields_of x _ _).
  assert (forall uf, 0 <= uf < 7 -> view u3 uf = url_place x uf) as Hv3 by (intros uf Huf; by apply view_place).
  destruct (url_port_text x u3) as (u' & -> & Hport & Hv'); [done| |by unfold u3; rewrite port_kept|by apply Hv3|].
  { unfold u3, host_fields_of. cbv zeta. apply seven_opt, seven_part, seven_opt, seven_part. by apply seven_fields. }
  exists u'. split; [done|]. split; [done|]. intros uf Huf. unfold field_text. rewrite Hv', Hv3 by done. by apply place_text.
Qed.

Definition demo_url : url :=
  mk_url (lit "mqtt"%str) (Some (lit "me:pw"%str)) (lit "flameboss.com"%str) (Some (lit "8883"%str)) (lit "/a/b"%str) None (Some (lit "x"%str)).

#[export] Instance word_of_dec P l : Decision (word_of P l).
Proof. unfold word_of. apply _. Defined.

#[export] Instance opt_word_dec P o : Decision (opt_word P o).
Proof. destruct o; cbn; apply _. Defined.

Lemma demo_url_wf : url_wf demo_url.
Proof.
  split; try (apply (bool_decide_unpack _); vm_compute; reflexivity).
  right. exists (lit "a/b"%str). split; [reflexivity|]. apply (bool_decide_unpack _). vm_compute. reflexivity.
Qed.

Lemma url_roundtrip_witness :
  exists u', http_parser_parse_url (url_text demo_url) false http_parser_url_init = Ok (0, u') /\
    u_port u' = 8883 /\ forall uf, 0 <= uf < 7 -> field_text (url_text demo_url) u' uf = url_component demo_url uf.
Proof. apply (url_roundtrip demo_url http_parser_url_init); [exact demo_url_wf|reflexivity]. Defined.

(** A URL of more than 65535 bytes: the offset of its host h wraps around, and
    the host that is reported is a byte of the schema. *)
Definition long_url : list Z := replicate (Z.to_nat 65536) 97 ++ lit "://h"%str.

Example long_url_wraps :
  exists u, http_parser_parse_url long_url false http_parser_url_init = Ok (0, u) /\
    get_field u UF_HOST = Ok (mk_url_field 3 1) /\ field_text long_url u UF_HOST = Some (lit "a"%str).
Proof. eexists. split; [vm_compute; reflexivity|]. by split; vm_compute. Qed.
