(* ===== verification/HttpRequest.v ===== *)
(** * http_parser: reading a request (src/http_parser.c)

    What [http_parser_execute] calls back with for a request without a body,
    and what it says about an upgrade: the request line, the classification of
    header names, the options of a Connection header. *)

From S2P Require Import Prelude Text HttpTypes HttpParser HttpNames.

(** ** Positions in the buffer *)

Section position.
Variable data : list Z.

(** The bytes from the index [p] on are [rest]. *)
Definition at_pos (p : Z) (rest : list Z) : Prop := exists pre, data = pre ++ rest /\ zlen pre = p.

Lemma at_pos_nonneg p rest : at_pos p rest -> 0 <= p.
Proof. intros (pre & _ & <-). apply zlen_nonneg. Qed.

Lemma at_pos_len p rest : at_pos p rest -> zlen data = p + zlen rest.
Proof. intros (pre & -> & <-). by autorewrite with fb. Qed.

Lemma at_pos_get p c rest : at_pos p (c :: rest) -> arr_get data p = Ok c.
Proof. intros (pre & -> & <-). rewrite <- (Z.add_0_r (zlen pre)). by apply arr_get_app. Qed.

Lemma at_pos_app p l rest : at_pos p (l ++ rest) -> at_pos (p + zlen l) rest.
Proof. intros (pre & -> & <-). exists (pre ++ l). by rewrite <- app_assoc, zlen_app. Qed.

Lemma at_pos_cons p c rest : at_pos p (c :: rest) -> at_pos (p + 1) rest.
Proof. apply (at_pos_app p [c]). Qed.

Lemma at_pos_span p l rest q : at_pos p (l ++ rest) -> q = p + zlen l -> span data p q = Ok l.
Proof.
  intros (pre & -> & <-) ->. unfold span. pose proof (zlen_nonneg pre). pose proof (zlen_nonneg l).
  pose proof (zlen_nonneg rest). autorewrite with fb.
  rewrite !(proj2 (Z.leb_le _ _)) by lia. cbn [andb]. f_equal.
  unfold zlen. replace (Z.to_nat _) with (length l) by lia.
  rewrite Nat2Z.id, drop_app_length. apply take_app_length.
Qed.

End position.

(** ** Runs of the loop *)

Section run.
Context {W : Type} `{HttpLimit} `{HttpCallbacks W}.
Variable data : list Z.
Variable lenient : bool.

(** The loop ends with the result [r] when it is at [x]. *)
Definition leads (x : exec W) (r : outcome (Z * http_parser * W)) : Prop :=
  forall fuel, zlen data - x_p x <= Z.of_nat fuel -> execute_loop data lenient fuel x = r.

(** The loop comes from [x] to [x']. *)
Definition reach (x x' : exec W) : Prop := forall r, leads x' r -> leads x r.

Lemma reach_refl x : reach x x.
Proof. by intros r. Qed.

Lemma reach_trans x y z : reach x y -> reach y z -> reach x z.
Proof. unfold reach. eauto. Qed.

Lemma loop_step x f fuel :
  x_p x < zlen data -> execute_byte data lenient x = f -> zlen data - x_p x <= Z.of_nat fuel ->
  exists fuel', fuel = S fuel' /\ execute_loop data lenient fuel x
    = (r ← f; match r with Next x => execute_loop data lenient fuel' (x <| x_p := x_p x + 1 |>) | r => result r end).
Proof.
  intros Hp E Hf. destruct fuel as [|fuel]; [lia|]. exists fuel. split; [done|].
  cbn [execute_loop]. rewrite (proj2 (Z.eqb_neq _ _)) by lia. by rewrite E.
Qed.

Lemma reach_next x x' :
  x_p x < zlen data -> x_p x <= x_p x' -> execute_byte data lenient x = Ok (Next x') ->
  reach x (x' <| x_p := x_p x' + 1 |>).
Proof.
  intros Hp Hle E r Hr fuel Hf. destruct (loop_step x _ fuel Hp E Hf) as (fuel' & -> & ->).
  cbn [mbind outcome_bind]. apply Hr. change (zlen data - (x_p x' + 1) <= Z.of_nat fuel'). lia.
Qed.

Lemma leads_done x n q w :
  x_p x < zlen data -> execute_byte data lenient x = Ok (Done n q w) -> leads x (Ok (n, q, w)).
Proof.
  intros Hp E fuel Hf. by destruct (loop_step x _ fuel Hp E Hf) as (fuel' & -> & ->).
Qed.

Lemma leads_undef x k :
  x_p x < zlen data -> execute_byte data lenient x = Undef k -> leads x (Undef k).
Proof.
  intros Hp E fuel Hf. by destruct (loop_step x _ fuel Hp E Hf) as (fuel' & -> & ->).
Qed.

Lemma leads_end x n q w :
  x_p x = zlen data -> execute_end data x = Ok (Done n q w) -> leads x (Ok (n, q, w)).
Proof.
  intros Hp E fuel _. destruct fuel; cbn [execute_loop]; rewrite Hp, Z.eqb_refl, E; done.
Qed.

(** Counting header bytes below the limit. *)
Lemma count_ok v (x : exec W) k :
  0 <= x_nread x -> 0 <= v -> x_nread x + v <= max_header_size ->
  COUNT_HEADER_SIZE v x k = k (x <| x_nread := x_nread x + v |>).
Proof.
  pose proof limit_range. intros Hn Hv Hm. unfold COUNT_HEADER_SIZE. cbv zeta.
  rewrite (u32_small v), u32_small by lia.
  change (x_nread (x <| x_nread := x_nread x + v |>)) with (x_nread x + v).
  rewrite (proj2 (Z.ltb_ge _ _)) by lia. done.
Qed.

Lemma header_byte x c rest :
  at_pos data (x_p x) (c :: rest) -> PARSING_HEADER (x_p_state x) = true ->
  0 <= x_nread x < max_header_size ->
  execute_byte data lenient x = reexecute data lenient 5 (x <| x_ch := c |> <| x_nread := x_nread x + 1 |>).
Proof.
  intros Hat Hst Hn. unfold execute_byte. rewrite (at_pos_get _ _ _ _ Hat). cbn [mbind outcome_bind].
  cbv zeta. change (x_p_state (x <| x_ch := c |>)) with (x_p_state x). rewrite Hst.
  rewrite count_ok; [done|change (0 <= x_nread x); lia|lia|change (x_nread x + 1 <= max_header_size); lia].
Qed.

(** One byte of the headers, dealt with by [exec_switch] and a [break]. *)
Lemma reach_header x x' c rest :
  at_pos data (x_p x) (c :: rest) -> PARSING_HEADER (x_p_state x) = true ->
  0 <= x_nread x < max_header_size -> x_p x <= x_p x' ->
  reexecute data lenient 5 (x <| x_ch := c |> <| x_nread := x_nread x + 1 |>) = Ok (Next x') ->
  reach x (x' <| x_p := x_p x' + 1 |>).
Proof.
  intros Hat Hst Hn Hle E. apply reach_next; [|done|by rewrite (header_byte _ _ _ Hat)].
  pose proof (at_pos_len _ _ _ Hat) as Hl. rewrite zlen_cons in Hl. pose proof (zlen_nonneg rest). lia.
Qed.

Lemma switch_next fuel x x' :
  exec_switch data lenient x = Ok (Next x') -> reexecute data lenient (S fuel) x = Ok (Next x').
Proof. intros E. cbn [reexecute]. by rewrite E. Qed.

Lemma switch_again fuel x x' :
  exec_switch data lenient x = Ok (Again x') -> reexecute data lenient (S fuel) x = reexecute data lenient fuel x'.
Proof. intros E. cbn [reexecute]. by rewrite E. Qed.

Lemma switch_done fuel x n q w :
  exec_switch data lenient x = Ok (Done n q w) -> reexecute data lenient (S fuel) x = Ok (Done n q w).
Proof. intros E. cbn [reexecute]. by rewrite E. Qed.

End run.

(** ** The calls of the parser

    [reacts]: the callbacks that are set, and not those of responses and
    bodies, succeed when [react] does, and leave the parser alone. *)

Inductive http_call :=
  | Http_url (at_ : list Z)
  | Http_header_field (at_ : list Z)
  | Http_header_value (at_ : list Z)
  | Http_message_complete (upgrade : Z).

Fixpoint run_calls {W} (react : W -> http_call -> outcome W) (w : W) (cs : list http_call) : outcome W :=
  match cs with
  | [] => mret w
  | c :: cs => w ← react w c; run_calls react w cs
  end.

Lemma run_calls_app {W} (react : W -> http_call -> outcome W) w cs cs' :
  run_calls react w (cs ++ cs') = (w ← run_calls react w cs; run_calls react w cs').
Proof.
  revert w. induction cs as [|c cs IH]; intros w; [done|]. cbn [app run_calls].
  destruct (react w c); [apply IH|done..].
Qed.

Definition data_call (m : http_mark) (at_ : list Z) : option http_call :=
  match m with
  | M_header_field => Some (Http_header_field at_)
  | M_header_value => Some (Http_header_value at_)
  | M_url => Some (Http_url at_)
  | M_body | M_status => None
  end.

Record reacts {W} `{HttpCallbacks W} (d : Z) (react : W -> http_call -> outcome W) : Prop := {
  no_message_begin : cb_message_begin = None;
  no_headers_complete : cb_headers_complete = None;
  react_data m at_ c : data_call m at_ = Some c -> exists f, data_callback m = Some f /\
    forall w q w', hp_data q = d -> react w c = Ok w' -> f w q at_ = Ok (0, w', Some q);
  react_complete : exists f, cb_message_complete = Some f /\
    forall w q w', hp_data q = d -> react w (Http_message_complete (hp_upgrade q)) = Ok w' -> f w q = Ok (0, w', Some q)
}.

(** ** Requests *)

Definition header_calls (h : header) : list http_call := [Http_header_field h.1; Http_header_value (value_bytes h.2)].

(** The flags of the headers. *)
Definition headers_flags (hs : list header) : Z := foldr (fun h fl => Z.lor (header_flags h) fl) 0 hs.

Definition header_lines (hs : list header) : list Z := concat (header_line <$> hs).

(** What a request asks for: another protocol, in a header of that name and
    among the options of the connection; or to close the connection. *)
Definition has_option (word : list Z) (h : header) : bool :=
  bool_decide (is_connection h.1) &&
  match h.2 with Options els => existsb (fun el => bool_decide (lower_option el = word)) els | Text _ => false end.

Definition wants_upgrade (hs : list header) : bool :=
  existsb (fun h => bool_decide (lower h.1 = UPGRADE)) hs && existsb (has_option UPGRADE) hs.

Definition wants_close (hs : list header) : bool := existsb (has_option CLOSE) hs.

Lemma truthy_lor a b : truthy (Z.lor a b) = truthy a || truthy b.
Proof.
  unfold truthy. destruct (Z.eqb_spec a 0) as [->|Ha]; [by rewrite Z.lor_0_l|].
  destruct (Z.eqb_spec (Z.lor a b) 0) as [E|]; [|done]. by apply Z.lor_eq_0_iff in E as [? _].
Qed.

(** A flag is set when some header, or option, sets it. *)
Lemma headers_flag hs f :
  truthy (Z.land (headers_flags hs) f) = existsb (fun h => truthy (Z.land (header_flags h) f)) hs.
Proof.
  induction hs as [|h hs IH]; [done|]. cbn [existsb]. rewrite <- IH, <- truthy_lor, <- Z.land_lor_distr_l. done.
Qed.

Lemma option_flags_flag els f :
  truthy (Z.land (option_flags els) f) = existsb (fun el => truthy (Z.land (option_flag el) f)) els.
Proof.
  induction els as [|el els IH]; [done|]. cbn [existsb]. rewrite <- IH, <- truthy_lor, <- Z.land_lor_distr_l. done.
Qed.

Lemma option_flag_word word f :
  (word, f) ∈ [(KEEP_ALIVE, F_CONNECTION_KEEP_ALIVE); (CLOSE, F_CONNECTION_CLOSE); (UPGRADE, F_CONNECTION_UPGRADE)] ->
  forall el, truthy (Z.land (option_flag el) f) = bool_decide (lower_option el = word).
Proof.
  intros Hw el. unfold option_flag.
  repeat (apply elem_of_cons in Hw as [[= -> ->]|Hw]); [..|by apply not_elem_of_nil in Hw];
    (destruct (decide (lower_option el = KEEP_ALIVE)) as [->|]; [done|]);
    (destruct (decide (lower_option el = CLOSE)) as [->|]; [done|]);
    (destruct (decide (lower_option el = UPGRADE)) as [->|]; [done|]);
    by rewrite !bool_decide_false.
Qed.

Lemma header_option_flag word f :
  (word, f) ∈ [(KEEP_ALIVE, F_CONNECTION_KEEP_ALIVE); (CLOSE, F_CONNECTION_CLOSE); (UPGRADE, F_CONNECTION_UPGRADE)] ->
  forall h, truthy (Z.land (header_flags h) f) = has_option word h.
Proof.
  intros Hw h. unfold header_flags, has_option. destruct (decide (lower h.1 = UPGRADE)) as [E|E].
  - rewrite bool_decide_true by done. rewrite (bool_decide_false (is_connection h.1)) by (by apply upgrade_not_connection).
    repeat (apply elem_of_cons in Hw as [[= -> ->]|Hw]); [..|by apply not_elem_of_nil in Hw]; done.
  - rewrite (bool_decide_false _ E). destruct (decide (is_connection h.1)) as [Hc|Hc];
      [rewrite !(bool_decide_true _ Hc)|by rewrite !(bool_decide_false _ Hc)]. destruct h.2 as [v|els]; [done|].
    rewrite option_flags_flag. cbn [andb]. induction els as [|el els IH]; [done|]. cbn [existsb].
    by rewrite IH, (option_flag_word _ _ Hw).
Qed.

Lemma existsb_same {A} (f g : A -> bool) l : (forall x, f x = g x) -> existsb f l = existsb g l.
Proof. intros E. induction l as [|x l IH]; [done|]. cbn [existsb]. by rewrite IH, E. Qed.

Lemma header_upgrade_flag h : truthy (Z.land (header_flags h) F_UPGRADE) = bool_decide (lower h.1 = UPGRADE).
Proof.
  unfold header_flags. destruct (decide (lower h.1 = UPGRADE)) as [E|E]; [by rewrite bool_decide_true|].
  rewrite !(bool_decide_false _ E). destruct (bool_decide (is_connection h.1)); [|done]. destruct h.2 as [v|els]; [done|].
  rewrite option_flags_flag. induction els as [|el els IH]; [done|]. cbn [existsb]. rewrite IH. unfold option_flag.
  by repeat destruct (bool_decide _).
Qed.

(** No header of a request without a body sets one of the other flags. *)
Lemma headers_other_flags hs f :
  f ∈ [F_CHUNKED; F_TRAILING; F_SKIPBODY; F_CONTENTLENGTH] -> truthy (Z.land (headers_flags hs) f) = false.
Proof.
  intros Hf. rewrite headers_flag. induction hs as [|h hs IH]; [done|]. cbn [existsb]. rewrite IH, orb_false_r.
  assert (forall el, truthy (Z.land (option_flag el) f) = false) as Hopt.
  { intros el. unfold option_flag.
    repeat (apply elem_of_cons in Hf as [->|Hf]); [..|by apply not_elem_of_nil in Hf]; by repeat destruct (bool_decide _). }
  unfold header_flags. destruct (bool_decide (lower h.1 = UPGRADE)).
  { repeat (apply elem_of_cons in Hf as [->|Hf]); [done..|by apply not_elem_of_nil in Hf]. }
  destruct (bool_decide (is_connection h.1)); [|by rewrite Z.land_0_l]. destruct h.2 as [v|els]; [by rewrite Z.land_0_l|].
  rewrite option_flags_flag. clear IH. induction els as [|el els IH]; [done|]. cbn [existsb]. by rewrite Hopt, IH.
Qed.

(** The version, to the end of the line. *)
Definition version_line : list Z := lit "HTTP/1.1"%str ++ [CR; LF].

(** A request without a body, and the calls for it. *)
Definition request (m : http_method) (url : list Z) (hs : list header) : list Z :=
  method_strings m ++ [32] ++ url ++ [32] ++ version_line ++ header_lines hs ++ [CR; LF].

Definition request_ok (m : http_method) (url : list Z) (hs : list header) : Prop :=
  m <> HTTP_CONNECT /\ url_may_end (url_end url) = true /\ Forall header_ok hs.

Definition request_calls (url : list Z) (hs : list header) : list http_call :=
  Http_url url :: concat (header_calls <$> hs) ++ [Http_message_complete (c_bool (wants_upgrade hs))].

(** A parser at the start of a request. *)
Definition ready (q : http_parser) : Prop :=
  hp_type q = HTTP_REQUEST /\ hp_state q = s_start_req /\ hp_http_errno q = HPE_OK /\ 0 <= hp_nread q.

Section message.
Context {W : Type} `{HttpLimit} `{HttpCallbacks W}.
Variable data : list Z.
Variable lenient : bool.

(** What the lines of a request leave as it is. *)
Variables lz sc d : Z.

#[local] Abbreviation Q st' h i fl xf nr' cl maj min m up :=
  (mk_http_parser HTTP_REQUEST fl st' h i xf lz nr' cl maj min sc m HPE_OK up d).
#[local] Abbreviation X q w st nr p ch fm vm um := (mk_exec q w st nr p ch fm vm um None None).

Lemma method_char st' h i fl xf nr' cl maj min m up w nr p ch0 um m' c rest :
  at_pos data p (c :: rest) -> 0 <= nr < max_header_size -> 0 <= i < 31 -> method_next m i c = Some m' ->
  reach data lenient (X (Q st' h i fl xf nr' cl maj min m up) w s_req_method nr p ch0 None None um)
    (X (Q st' h (i + 1) fl xf nr' cl maj min m' up) w s_req_method (nr + 1) (p + 1) c None None um).
Proof.
  intros Hat Hn Hi Hm. unfold method_next in Hm.
  destruct (Z.ltb_spec (zlen (method_strings m)) i); [done|].
  destruct (Z.eqb_spec c 0) as [|Hc0]; [done|]. destruct (Z.eqb_spec c 32) as [|Hc32]; [done|]. cbn [orb] in Hm.
  eapply (reach_header data lenient _ (X (Q st' h (i + 1) fl xf nr' cl maj min m' up) w s_req_method (nr + 1) p c None None um));
    [exact Hat|done|done|reflexivity|].
  apply switch_next.
  change (exec_req_method (X (Q st' h i fl xf nr' cl maj min m up) w s_req_method (nr + 1) p c None None um)
    = Ok (Next (X (Q st' h (i + 1) fl xf nr' cl maj min m' up) w s_req_method (nr + 1) p c None None um))).
  unfold exec_req_method. cbn -[Z.eqb Z.leb Z.add method_strings arr_get inc_index switch_method].
  rewrite (proj2 (Z.eqb_neq c 0)), (proj2 (Z.eqb_neq c 32)) by done. cbn [andb].
  rewrite arr_get_entry by (rewrite zlen_app; change (zlen [0]) with 1; lia). cbn [mbind outcome_bind].
  assert (forall q, inc_index (X (q <| hp_index := i |>) w s_req_method (nr + 1) p c None None um)
    = X (q <| hp_index := i + 1 |>) w s_req_method (nr + 1) p c None None um) as Hinc.
  { intros q. unfold inc_index. cbn -[Z.add Z.modulo]. by rewrite (Z.mod_small (i + 1) 32) by lia. }
  destruct (c =? entry (method_strings m ++ [0]) i).
  { injection Hm as <-. unfold next. f_equal. f_equal. apply (Hinc (Q st' h i fl xf nr' cl maj min m up)). }
  destruct (((65 <=? c) && (c <=? 90)) || (c =? 45)); [|done]. rewrite Hm.
  unfold next. f_equal. f_equal. apply (Hinc (Q st' h i fl xf nr' cl maj min m' up)).
Qed.

Lemma method_chars st' h fl xf nr' cl maj min up w um l m i m' i' nr p ch rest :
  at_pos data p (l ++ rest) -> 0 <= nr -> nr + zlen l <= max_header_size -> 0 <= i -> i + zlen l < 32 ->
  method_run m i l = Some (m', i') ->
  exists ch', reach data lenient (X (Q st' h i fl xf nr' cl maj min m up) w s_req_method nr p ch None None um)
    (X (Q st' h i' fl xf nr' cl maj min m' up) w s_req_method (nr + zlen l) (p + zlen l) ch' None None um) /\
    i' = i + zlen l.
Proof.
  revert m i nr p ch. induction l as [|c l IH]; intros m i nr p ch Hat Hn Hm Hi Hil Hr; cbn [method_run] in Hr.
  - injection Hr as <- <-. rewrite zlen_nil, !Z.add_0_r. exists ch. split; [apply reach_refl|done].
  - rewrite zlen_cons in *. pose proof (zlen_nonneg l).
    destruct (method_next m i c) as [m1|] eqn:E; [|done].
    destruct (IH m1 (i + 1) (nr + 1) (p + 1) c) as (ch' & Hreach & ->);
      [by eapply at_pos_cons|lia|lia|lia|lia|done|].
    exists ch'. split; [|lia]. eapply reach_trans.
    { eapply method_char; [exact Hat|lia|lia|exact E]. }
    replace (nr + (zlen l + 1)) with (nr + 1 + zlen l) by lia. replace (p + (zlen l + 1)) with (p + 1 + zlen l) by lia.
    exact Hreach.
Qed.

(** ** Callbacks *)

Variable react : W -> http_call -> outcome W.
Hypothesis Hreact : reacts d react.

Lemma callback_data_ok m c at_ mark until er x k w' :
  data_call m at_ = Some c -> get_mark m x = Some mark -> span data mark until = Ok at_ ->
  no_error (x_parser x) = true -> hp_data (x_parser x) = d -> react (x_w x) c = Ok w' ->
  CALLBACK_DATA_ data m until er x k
  = k (set_mark m None (x <| x_parser := (x_parser x) <| hp_state := x_p_state x |> |> <| x_w := w' |>)).
Proof.
  intros Hc Hm Hs He Hd Hr. unfold CALLBACK_DATA_. rewrite He, Hm. cbn [c_assert mbind outcome_bind].
  destruct (react_data _ _ Hreact _ _ _ Hc) as (f & -> & Hf). rewrite Hs. cbn [mbind outcome_bind].
  rewrite (Hf _ _ w') by done. unfold after_callback. cbn [mbind outcome_bind]. cbv zeta.
  change (0 =? 0) with true. cbn match. unfold no_error in *.
  change (hp_http_errno ((x_parser x) <| hp_state := x_p_state x |>)) with (hp_http_errno (x_parser x)).
  rewrite He. by destruct m.
Qed.

(** ** The request line *)

Lemma read_method st' h i fl xf nr' cl maj min m m0 up w nr p ch rest :
  at_pos data p (method_strings m ++ 32 :: rest) -> 0 <= nr -> nr + zlen (method_strings m) + 1 <= max_header_size ->
  exists i', reach data lenient (X (Q st' h i fl xf nr' cl maj min m0 up) w s_start_req nr p ch None None None)
    (X (Q st' h i' 0 0 nr' ULLONG_MAX maj min m up) w s_req_spaces_before_url
       (nr + zlen (method_strings m) + 1) (p + zlen (method_strings m) + 1) 32 None None None).
Proof.
  intros Hat Hn Hm. pose proof (zlen_method m) as Hl.
  destruct (method_recognised m) as (c & l & m1 & E & Ha & Hf & Hrun). rewrite E in Hat.
  cbn [app] in Hat. pose proof (f_equal zlen E) as El. rewrite zlen_cons in El.
  assert (reach data lenient (X (Q st' h i fl xf nr' cl maj min m0 up) w s_start_req nr p ch None None None)
    (X (Q st' h 1 0 0 nr' ULLONG_MAX maj min m1 up) w s_req_method (nr + 1) (p + 1) c None None None)) as Hfirst.
  { eapply (reach_header data lenient _ (X (Q st' h 1 0 0 nr' ULLONG_MAX maj min m1 up) w s_req_method (nr + 1) p c None None None));
      [exact Hat|done|cbn [x_nread]; lia|reflexivity|]. apply switch_next.
    change (exec_start_req (X (Q st' h i fl xf nr' cl maj min m0 up) w s_start_req (nr + 1) p c None None None)
      = Ok (Next (X (Q st' h 1 0 0 nr' ULLONG_MAX maj min m1 up) w s_req_method (nr + 1) p c None None None))).
    unfold exec_start_req. cbv zeta. cbn [x_ch].
    assert (is_eol c = false) as ->. { unfold is_eol, CR, LF. destruct (Z.eqb_spec c 13) as [->|]; [done|]. by destruct (Z.eqb_spec c 10) as [->|]. }
    change (x_ch (start_message _)) with c. rewrite Ha. cbn [negb].
    change (first_method (x_ch _)) with (first_method c). rewrite Hf.
    unfold CALLBACK_NOTIFY, CALLBACK_NOTIFY_. rewrite (no_message_begin _ _ Hreact). reflexivity. }
  destruct (method_chars st' h 0 0 nr' ULLONG_MAX maj min up w None l m1 1 m (zlen (method_strings m)) (nr + 1) (p + 1) c (32 :: rest))
    as (ch' & Hrest & _); [by eapply at_pos_cons|lia..|done|].
  replace (nr + 1 + zlen l) with (nr + zlen (method_strings m)) in Hrest by lia.
  replace (p + 1 + zlen l) with (p + zlen (method_strings m)) in Hrest by lia.
  exists ((zlen (method_strings m) + 1) mod 32). eapply reach_trans; [exact Hfirst|]. eapply reach_trans; [exact Hrest|].
  apply (at_pos_app data p (c :: l)) in Hat. rewrite <- E in Hat.
  eapply (reach_header data lenient _ (X (Q st' h _ 0 0 nr' ULLONG_MAX maj min m up) w s_req_spaces_before_url
    (nr + zlen (method_strings m) + 1) (p + zlen (method_strings m)) 32 None None None));
    [exact Hat|done|cbn [x_nread]; lia|reflexivity|]. apply switch_next.
  change (exec_req_method (X (Q st' h (zlen (method_strings m)) 0 0 nr' ULLONG_MAX maj min m up) w s_req_method
    (nr + zlen (method_strings m) + 1) (p + zlen (method_strings m)) 32 None None None)
    = Ok (Next (X (Q st' h ((zlen (method_strings m) + 1) mod 32) 0 0 nr' ULLONG_MAX maj min m up) w s_req_spaces_before_url
        (nr + zlen (method_strings m) + 1) (p + zlen (method_strings m)) 32 None None None))).
  unfold exec_req_method. cbn [x_ch x_parser hp_method hp_index]. change (32 =? 0) with false. cbv zeta. cbn match.
  pose proof (arr_get_app (method_strings m) [0] 0 0) as Hget. rewrite Z.add_0_r in Hget. by rewrite Hget.
Qed.

Lemma switch_url fuel st q w nr p ch um st' :
  in_url st = true -> parse_url_char st ch = st' -> st' <> s_dead ->
  reexecute data lenient (S fuel) (X q w st nr p ch None None um) = Ok (Next (X q w st' nr p ch None None um)).
Proof.
  intros Hst Hc Hd. apply switch_next. destruct (parse_url_not_blank st ch) as [Hs He]; [by rewrite Hc|].
  transitivity (url_char (X q w st nr p ch None None um)).
  { destruct st; try done; unfold exec_switch, exec_req_url, exec_req_schema; cbn [x_p_state x_ch]; by rewrite Hs, He. }
  unfold url_char. cbn [x_p_state x_ch]. rewrite Hc.
  change (set_state st' (X q w st nr p ch None None um)) with (X q w st' nr p ch None None um).
  cbn [x_p_state]. by rewrite bool_decide_false.
Qed.

Lemma in_url_header st : in_url st = true -> PARSING_HEADER st = true.
Proof. by destruct st. Qed.

Lemma url_chars l : forall st q w nr p ch um st' rest,
  at_pos data p (l ++ rest) -> 0 <= nr -> nr + zlen l <= max_header_size -> in_url st = true ->
  fold_left parse_url_char l st = st' -> st' <> s_dead ->
  exists ch', reach data lenient (X q w st nr p ch None None um)
    (X q w st' (nr + zlen l) (p + zlen l) ch' None None um).
Proof.
  induction l as [|c l IH]; intros st q w nr p ch um st' rest Hat Hn Hm Hst Hf Hd; cbn [fold_left] in Hf.
  - subst st'. rewrite zlen_nil, !Z.add_0_r. exists ch. apply reach_refl.
  - rewrite zlen_cons in *. pose proof (zlen_nonneg l).
    assert (parse_url_char st c <> s_dead) as Hc by (intros E; rewrite E, parse_url_dead in Hf; congruence).
    destruct (IH (parse_url_char st c) q w (nr + 1) (p + 1) c um st' rest) as (ch' & Hr); try done;
      [by eapply at_pos_cons|lia|lia|by apply parse_url_in_url|].
    exists ch'. eapply reach_trans.
    { eapply (reach_header data lenient _ (X q w (parse_url_char st c) (nr + 1) p c None None um));
        [exact Hat|by apply in_url_header|cbn [x_nread]; lia|reflexivity|].
      by apply (switch_url 4 st q w (nr + 1) p c um). }
    replace (nr + (zlen l + 1)) with (nr + 1 + zlen l) by lia. replace (p + (zlen l + 1)) with (p + 1 + zlen l) by lia.
    exact Hr.
Qed.

(** A URL and the space after it. *)
Lemma read_url st' h i fl xf nr' cl maj min m up w w' nr p ch url rest :
  at_pos data p (url ++ 32 :: rest) -> 0 <= nr -> nr + zlen url + 1 <= max_header_size ->
  m <> HTTP_CONNECT -> url_may_end (url_end url) = true -> react w (Http_url url) = Ok w' ->
  reach data lenient (X (Q st' h i fl xf nr' cl maj min m up) w s_req_spaces_before_url nr p ch None None None)
    (X (Q s_req_http_start h i fl xf nr' cl maj min m up) w' s_req_http_start
       (nr + zlen url + 1) (p + zlen url + 1) 32 None None None).
Proof.
  intros Hat Hn Hm Hconn Hend Hr. destruct url as [|c url]; [done|]. rewrite zlen_cons in Hm. pose proof (zlen_nonneg url).
  unfold url_end in Hend. cbn [fold_left] in Hend. set (st := parse_url_char s_req_spaces_before_url c) in *.
  assert (fold_left parse_url_char url st <> s_dead) as Hd by (intros E; by rewrite E in Hend).
  assert (st <> s_dead) as Hst by (intros E; by rewrite E, parse_url_dead in Hd).
  set (q := Q st' h i fl xf nr' cl maj min m up).
  assert (reach data lenient (X q w s_req_spaces_before_url nr p ch None None None)
    (X q w st (nr + 1) (p + 1) c None None (Some p))) as Hfirst.
  { eapply (reach_header data lenient _ (X q w st (nr + 1) p c None None (Some p)));
      [exact Hat|done|cbn [x_nread]; lia|reflexivity|]. apply switch_next.
    destruct (parse_url_not_blank _ _ Hst) as [Hs He].
    change (exec_req_spaces_before_url (X q w s_req_spaces_before_url (nr + 1) p c None None None)
      = Ok (Next (X q w st (nr + 1) p c None None (Some p)))).
    unfold exec_req_spaces_before_url. cbn [x_ch]. rewrite Hs.
    change (hp_method _) with m. rewrite bool_decide_false by done.
    change (MARK M_url _) with (X q w s_req_spaces_before_url (nr + 1) p c None None (Some p)).
    unfold url_char. cbn [x_p_state x_ch]. fold st.
    change (set_state st _) with (X q w st (nr + 1) p c None None (Some p)). cbn [x_p_state].
    by rewrite bool_decide_false. }
  pose proof (at_pos_cons data p c (url ++ 32 :: rest) Hat) as Hat1.
  destruct (url_chars url st q w (nr + 1) (p + 1) c (Some p) (fold_left parse_url_char url st) (32 :: rest) Hat1) as (ch' & Hrest);
    [lia|lia|by apply parse_url_in_url|done|done|].
  eapply reach_trans; [exact Hfirst|]. eapply reach_trans; [exact Hrest|].
  set (se := fold_left parse_url_char url st) in *. rewrite zlen_cons.
  replace (nr + 1 + zlen url) with (nr + (zlen url + 1)) by lia. replace (p + 1 + zlen url) with (p + (zlen url + 1)) by lia.
  pose proof (at_pos_app data p (c :: url) (32 :: rest) Hat) as Hat2. rewrite zlen_cons in Hat2.
  eapply (reach_header data lenient _ (X (Q s_req_http_start h i fl xf nr' cl maj min m up) w' s_req_http_start
     (nr + (zlen url + 1) + 1) (p + (zlen url + 1)) 32 None None None));
    [exact Hat2|by destruct se|cbn [x_nread]; lia|reflexivity|]. apply switch_next.
  transitivity (exec_req_url data (X q w se (nr + (zlen url + 1) + 1) (p + (zlen url + 1)) 32 None None (Some p)));
    [by destruct se|].
  unfold exec_req_url. cbn [x_ch]. change (32 =? 32) with true. cbn match. unfold CALLBACK_DATA.
  erewrite callback_data_ok; [reflexivity|reflexivity|reflexivity| |reflexivity|reflexivity|exact Hr].
  eapply at_pos_span; [exact Hat|]. rewrite zlen_cons. cbn [x_p set_state]. reflexivity.
Qed.

Lemma read_version st' h i fl xf nr' cl maj min m up w nr p ch rest :
  at_pos data p (version_line ++ rest) -> 0 <= nr -> nr + 10 <= max_header_size ->
  reach data lenient (X (Q st' h i fl xf nr' cl maj min m up) w s_req_http_start nr p ch None None None)
    (X (Q st' h i fl xf nr' cl 1 1 m up) w s_header_field_start (nr + 10) (p + 10) LF None None None).
Proof.
  intros Hat Hn Hm. change (version_line ++ rest) with (72 :: 84 :: 84 :: 80 :: 47 :: 49 :: 46 :: 49 :: 13 :: 10 :: rest) in Hat.
  assert (forall q st nr p ch c q' st1 rest, at_pos data p (c :: rest) -> 0 <= nr < max_header_size -> PARSING_HEADER st = true ->
    exec_switch data lenient (X q w st (nr + 1) p c None None None) = Ok (Next (X q' w st1 (nr + 1) p c None None None)) ->
    reach data lenient (X q w st nr p ch None None None) (X q' w st1 (nr + 1) (p + 1) c None None None)) as Hone.
  { clear. intros q st nr p ch c q' st1 rest Hat Hn Hst E.
    eapply (reach_header data lenient _ (X q' w st1 (nr + 1) p c None None None)); [exact Hat|exact Hst|exact Hn|reflexivity|].
    apply switch_next. exact E. }
  replace (nr + 10) with (nr + 1 + 1 + 1 + 1 + 1 + 1 + 1 + 1 + 1 + 1) by lia.
  replace (p + 10) with (p + 1 + 1 + 1 + 1 + 1 + 1 + 1 + 1 + 1 + 1) by lia.
  do 9 (eapply reach_trans; [eapply Hone; [exact Hat|lia|reflexivity|reflexivity]|];
        apply at_pos_cons in Hat).
  eapply Hone; [exact Hat|lia|reflexivity|reflexivity].
Qed.

(** ** A header name *)

Lemma skip_tokens_ok l : forall fuel p pe c rest,
  at_pos data (p + 1) (l ++ c :: rest) -> Forall name_char l -> TOKEN c = 0 ->
  zlen l < Z.of_nat fuel -> p + 1 + zlen l < pe -> skip_tokens data fuel p pe = Ok (p + zlen l).
Proof.
  induction l as [|b l IH]; intros fuel p pe c rest Hat Hl Hc Hf Hpe; (destruct fuel as [|fuel]; [unfold zlen in Hf; cbn [length] in Hf; lia|]);
    cbn [skip_tokens app] in *; rewrite (at_pos_get _ _ _ _ Hat); cbn [mbind outcome_bind].
  - rewrite zlen_nil in *. rewrite (proj2 (Z.ltb_lt _ _)) by lia. by rewrite Hc, Z.add_0_r.
  - rewrite zlen_cons in *. pose proof (zlen_nonneg l). apply Forall_cons in Hl as [Hb Hl].
    rewrite (proj2 (Z.ltb_lt _ _)) by lia. rewrite (proj2 (Z.eqb_neq _ _) Hb).
    rewrite (IH fuel (p + 1) pe c rest); [f_equal; lia|by eapply at_pos_cons|done|done|lia|lia].
Qed.

(** The states in which names are read. *)
Definition name_index (h : header_states) (l : list Z) (i : Z) : Prop := h = h_general \/ i = zlen l - 1.

Lemma field_char_ok st' l i fl xf nr' cl maj min m up (w : W) nr p ch fm c :
  let h := name_state l in let h1 := name_state (l ++ [TOKEN c]) in
  TOKEN c <> 0 -> l <> [] -> h <> h_general -> name_index h l i -> h1 <> h_transfer_encoding ->
  exists i', field_char data (X (Q st' h i fl xf nr' cl maj min m up) w s_header_field nr p ch fm None None) c (TOKEN c)
    = Ok (X (Q st' h1 i' fl xf nr' cl maj min m up) w s_header_field nr p ch fm None None) /\
    name_index h1 (l ++ [TOKEN c]) i'.
Proof.
  intros h h1 Hc Hl Hg Hi Hte. destruct Hi as [?|Hi]; [done|].
  pose proof (name_state_next l c Hl) as Hnext. fold h h1 in Hnext.
  assert (forall l', name_state l' <> h_general -> zlen l' <= 17) as Hshort.
  { intros l' Hl'. destruct (state_in_spec name_states h_general l') as [(e & He & <- & _)|[_ E]]; [|by rewrite <- E in Hl'].
    assert (forallb (fun e => zlen e.1 <=? 17) name_states = true) as Ht by (vm_compute; reflexivity).
    rewrite forallb_forall in Ht. apply list_elem_of_In in He. specialize (Ht e He). lia. }
  specialize (Hshort l Hg). assert ((i + 1) mod 32 = zlen l) as Hmod by (rewrite Hi, Z.mod_small; pose proof (zlen_nonneg l); lia).
  assert (zlen l = zlen (l ++ [TOKEN c]) - 1) as Hlen by (rewrite zlen_app; change (zlen [TOKEN c]) with 1; lia).
  assert (c <> 32) as Hsp by (intros ->; by apply Hc).
  pose proof (name_state_in_name l : in_name h = true) as Hin. clearbody h h1. unfold field_char. cbn [x_parser hp_header_state].
  assert (forall h', set_header_state h' (inc_index (X (Q st' h i fl xf nr' cl maj min m up) w s_header_field nr p ch fm None None))
    = X (Q st' h' (zlen l) fl xf nr' cl maj min m up) w s_header_field nr p ch fm None None) as Hset.
  { intros h'. unfold inc_index. cbn [x_parser hp_index]. by rewrite Hmod. }
  assert (hp_index (x_parser (inc_index (X (Q st' h i fl xf nr' cl maj min m up) w s_header_field nr p ch fm None None))) = zlen l) as Hidx.
  { unfold inc_index. cbn [x_parser hp_index]. exact Hmod. }
  cbv zeta. rewrite Hidx. rewrite <- Hnext in Hte |- *.
  destruct h; try done;
    try (exists (zlen l); cbn [name_next mbind outcome_bind mret outcome_ret] in *; rewrite Hset; split; [reflexivity|by right]);
    try (exists i; rewrite (proj2 (Z.eqb_neq _ _) Hsp); split; [reflexivity|by left]).
  exists (zlen l). cbn [name_next mbind outcome_bind mret outcome_ret] in *. rewrite Hset. cbn [x_parser hp_header_state].
  rewrite bool_decide_false by done. split; [reflexivity|by right].
Qed.

Lemma field_loop_colon fuel q (w : W) nr p ch fm rest :
  at_pos data p (58 :: rest) -> (0 < fuel)%nat ->
  field_loop data fuel (X q w s_header_field nr p ch fm None None) = Ok (X q w s_header_field nr p 58 fm None None).
Proof.
  intros Hat Hf. pose proof (at_pos_len _ _ _ Hat) as Hlen. rewrite zlen_cons in Hlen. pose proof (zlen_nonneg rest).
  destruct fuel as [|fuel]; [lia|]. cbn [field_loop x_p]. rewrite (proj2 (Z.eqb_neq _ _)) by lia.
  rewrite (at_pos_get _ _ _ _ Hat). reflexivity.
Qed.

Lemma name_state_general l k : l <> [] -> name_state l = h_general -> name_state (l ++ lower k) = h_general.
Proof.
  revert l. induction k as [|b k IH]; intros l Hl Eg; [unfold lower; cbn [fmap list_fmap]; by rewrite app_nil_r|].
  replace (l ++ lower (b :: k)) with ((l ++ [TOKEN b]) ++ lower k) by (unfold lower; cbn [fmap list_fmap]; by rewrite <- app_assoc).
  apply IH; [by destruct l|]. rewrite <- name_state_next by done. by rewrite Eg.
Qed.

(** The rest of a name, after the beginning [l]. *)
Lemma field_loop_ok tl : forall fuel st' l i fl xf nr' cl maj min m up (w : W) nr p ch fm rest,
  at_pos data p (tl ++ 58 :: rest) -> Forall name_char tl -> l <> [] -> name_index (name_state l) l i ->
  ~ TRANSFER_ENCODING `prefix_of` l ++ lower tl -> zlen tl < max_header_size -> zlen tl < Z.of_nat fuel ->
  exists i', field_loop data fuel (X (Q st' (name_state l) i fl xf nr' cl maj min m up) w s_header_field nr p ch fm None None)
    = Ok (X (Q st' (name_state (l ++ lower tl)) i' fl xf nr' cl maj min m up) w s_header_field nr (p + zlen tl) 58 fm None None).
Proof.
  induction tl as [|c tl IH]; intros fuel st' l i fl xf nr' cl maj min m up w nr p ch fm rest Hat Hch Hl Hi Hte Hmax Hf.
  - exists i. unfold lower. cbn [fmap list_fmap]. rewrite app_nil_r, zlen_nil, Z.add_0_r.
    eapply field_loop_colon; [exact Hat|rewrite zlen_nil in Hf; lia].
  - destruct fuel as [|fuel]; [pose proof (zlen_nonneg (c :: tl)); lia|]. pose proof (at_pos_len _ _ _ Hat) as Hlen.
    pose proof (zlen_nonneg rest). pose proof (zlen_nonneg tl). pose proof (at_pos_nonneg _ _ _ Hat).
    rewrite zlen_app, !zlen_cons in *. apply Forall_cons in Hch as [Hc Hch]. cbn [app field_loop x_p] in *.
    rewrite (proj2 (Z.eqb_neq _ _)) by lia. rewrite (at_pos_get _ _ _ _ Hat). cbn [mbind outcome_bind].
    rewrite (proj2 (Z.eqb_neq _ _) Hc). cbv zeta.
    set (q := Q st' (name_state l) i fl xf nr' cl maj min m up).
    change ((X q w s_header_field nr p ch fm None None) <| x_ch := c |>) with (X q w s_header_field nr p c fm None None).
    assert (l ++ lower (c :: tl) = (l ++ [TOKEN c]) ++ lower tl) as El by (unfold lower; cbn [fmap list_fmap]; by rewrite <- app_assoc).
    pose proof (at_pos_cons _ _ _ _ Hat) as Hat1.
    destruct (decide (name_state l = h_general)) as [Eg|Hg].
    + exists i. rewrite name_state_general by done. unfold field_char.
      cbn [x_parser hp_header_state x_p]. unfold q at 1. cbn [hp_header_state]. rewrite Eg.
      rewrite (skip_tokens_ok tl (length data) p _ 58 rest); [|exact Hat1|done|done|unfold zlen in *; lia|lia].
      cbn [mbind outcome_bind mret outcome_ret].
      assert (at_pos data (p + zlen tl + 1) (58 :: rest)) as Hat2.
      { replace (p + zlen tl + 1) with (p + 1 + zlen tl) by lia. by eapply at_pos_app. }
      replace (p + (zlen tl + 1)) with (p + zlen tl + 1) by lia. unfold q. rewrite Eg.
      eapply (field_loop_colon fuel); [exact Hat2|lia].
    + rewrite El in Hte |- *.
      assert (name_state (l ++ [TOKEN c]) <> h_transfer_encoding) as Ht.
      { intros E%name_transfer_encoding%list_elem_of_singleton. apply Hte. rewrite E. by exists (lower tl). }
      destruct (field_char_ok st' l i fl xf nr' cl maj min m up w nr p c fm c) as (i1 & E & Hi1); try done.
      unfold q. rewrite E. cbn [mbind outcome_bind].
      destruct (IH fuel st' (l ++ [TOKEN c]) i1 fl xf nr' cl maj min m up w nr (p + 1) c fm rest) as (i' & E'); try done;
        [by destruct l|lia|lia|].
      exists i'. replace (p + (zlen tl + 1)) with (p + 1 + zlen tl) by lia. exact E'.
Qed.

(** The start of a line after the request line or after a header; [fl] are the
    flags once the header before it is finished. *)
Definition line_start (st : http_state) (h : header_states) (fl0 fl : Z) : Prop :=
  (st = s_header_field_start /\ fl0 = fl) \/
  (st = s_header_value_lws /\ h <> h_transfer_encoding_chunked /\ fl = Z.lor fl0 (connection_flag h)).

Lemma line_start_header st h fl0 fl : line_start st h fl0 fl -> PARSING_HEADER st = true.
Proof. by intros [[-> _]|[-> _]]. Qed.

Lemma line_start_switch st st' h i fl0 fl xf nr' cl maj min m up (w : W) nr p c :
  line_start st h fl0 fl -> (c =? 32) || (c =? 9) = false ->
  exists fuel, reexecute data lenient 5 (X (Q st' h i fl0 xf nr' cl maj min m up) w st nr p c None None None)
    = reexecute data lenient (4 + fuel) (X (Q st' h i fl xf nr' cl maj min m up) w s_header_field_start nr p c None None None).
Proof.
  intros [[-> ->]|(-> & Hh & ->)] Hc; [by exists 1%nat|]. exists 0%nat. change (4 + 0)%nat with 4%nat.
  rewrite (switch_again data lenient 4 _ (X (Q st' h i (Z.lor fl0 (connection_flag h)) xf nr' cl maj min m up) w s_header_field_start nr p c None None None));
    [done|].
  unfold exec_switch. cbn [x_p_state]. unfold exec_header_value_lws. cbn [x_ch]. rewrite Hc. unfold again. f_equal. f_equal.
  unfold finish_header. cbn [x_parser hp_header_state]. by destruct h.
Qed.

Lemma name_char_not_blank c : name_char c -> (c =? 32) || (c =? 9) = false /\ (c =? CR) = false /\ (c =? LF) = false.
Proof.
  intros Hc. destruct (Z.eqb_spec c 32) as [->|]; [by exfalso; apply Hc|]. destruct (Z.eqb_spec c 9) as [->|]; [by exfalso; apply Hc|].
  unfold CR, LF. destruct (Z.eqb_spec c 13) as [->|]; [by exfalso; apply Hc|]. by destruct (Z.eqb_spec c 10) as [->|]; [exfalso; apply Hc|].
Qed.

Lemma field_start_switch st' h i fl xf nr' cl maj min m up (w : W) nr p c :
  name_char c ->
  exec_switch data lenient (X (Q st' h i fl xf nr' cl maj min m up) w s_header_field_start nr p c None None None)
    = Ok (Next (X (Q st' (name_state [TOKEN c]) 0 fl xf nr' cl maj min m up) w s_header_field nr p c (Some p) None None)).
Proof.
  intros Hc. destruct (name_char_not_blank c Hc) as (_ & Hcr & Hlf). unfold exec_switch. cbn [x_p_state].
  unfold exec_header_field_start. cbn [x_ch]. rewrite Hcr, Hlf. cbv zeta. rewrite (proj2 (Z.eqb_neq _ _) Hc).
  unfold next. f_equal. f_equal. pose proof (token_byte c) as Hb. change (x_ch _) with c. revert Hb. generalize (TOKEN c). intros t Ht.
  assert (forallb (fun t => bool_decide ((if t =? 99 then h_C else if t =? 112 then h_matching_proxy_connection
    else if t =? 116 then h_matching_transfer_encoding else if t =? 117 then h_matching_upgrade else h_general) = name_state [t]))
    (seqZ 0 256) = true) as Hall by (vm_compute; reflexivity).
  rewrite forallb_forall in Hall. apply list_elem_of_In in Ht. specialize (Hall t Ht). apply bool_decide_eq_true in Hall.
  by rewrite <- Hall.
Qed.

(** A name, and the colon after it. *)
Lemma read_name st st' h i fl0 fl xf nr' cl maj min m up w w' nr p ch name rest :
  at_pos data p (name ++ 58 :: rest) -> 0 <= nr -> nr + zlen name + 1 <= max_header_size -> line_start st h fl0 fl ->
  name <> [] -> Forall name_char name -> ~ TRANSFER_ENCODING `prefix_of` lower name ->
  react w (Http_header_field name) = Ok w' ->
  exists i', reach data lenient (X (Q st' h i fl0 xf nr' cl maj min m up) w st nr p ch None None None)
    (X (Q s_header_value_discard_ws (name_state (lower name)) i' fl xf nr' cl maj min m up) w' s_header_value_discard_ws
       (nr + zlen name + 1) (p + zlen name + 1) 58 None None None).
Proof.
  intros Hat Hn Hm Hst Hne Hch Hte Hr. destruct name as [|c tl]; [done|]. clear Hne.
  pose proof Hch as Hch'. apply Forall_cons in Hch' as [Hc Htl]. pose proof (zlen_nonneg tl). rewrite zlen_cons in Hm |- *.
  assert (reach data lenient (X (Q st' h i fl0 xf nr' cl maj min m up) w st nr p ch None None None)
    (X (Q st' (name_state [TOKEN c]) 0 fl xf nr' cl maj min m up) w s_header_field (nr + 1) (p + 1) c (Some p) None None)) as Hfirst.
  { eapply (reach_header data lenient _ (X (Q st' (name_state [TOKEN c]) 0 fl xf nr' cl maj min m up) w s_header_field (nr + 1) p c (Some p) None None));
      [exact Hat|by eapply line_start_header|cbn [x_nread]; lia|reflexivity|].
    destruct (line_start_switch st st' h i fl0 fl xf nr' cl maj min m up w (nr + 1) p c Hst) as (fuel & E); [by apply name_char_not_blank|].
    etransitivity; [exact E|]. apply switch_next. by apply field_start_switch. }
  pose proof (at_pos_cons data p c (tl ++ 58 :: rest) Hat) as Hat1. pose proof (at_pos_len _ _ _ Hat1) as Hlen.
  rewrite zlen_app, zlen_cons in Hlen. pose proof (zlen_nonneg rest). pose proof (at_pos_nonneg _ _ _ Hat).
  assert (exists c1 r1, at_pos data (p + 1) (c1 :: r1)) as (c1 & r1 & Hc1) by (destruct tl; eauto).
  destruct (field_loop_ok tl (length data) st' [TOKEN c] 0 fl xf nr' cl maj min m up w (nr + 1 + 1) (p + 1) c1 (Some p) rest) as (i' & E);
    [exact Hat1|done|done|by right|exact Hte|lia|unfold zlen in *; lia|].
  exists i'. eapply reach_trans; [exact Hfirst|].
  change ([TOKEN c] ++ lower tl) with (lower (c :: tl)) in E.
  replace (nr + (zlen tl + 1) + 1) with (nr + 1 + 1 + zlen tl) by lia. replace (p + (zlen tl + 1) + 1) with (p + 1 + zlen tl + 1) by lia.
  eapply (reach_header data lenient _ (X (Q s_header_value_discard_ws (name_state (lower (c :: tl))) i' fl xf nr' cl maj min m up)
    w' s_header_value_discard_ws (nr + 1 + 1 + zlen tl) (p + 1 + zlen tl) 58 None None None));
    [exact Hc1|done|cbn [x_nread]; lia|cbn [x_p]; lia|]. apply switch_next.
  change (exec_header_field data (X (Q st' (name_state [TOKEN c]) 0 fl xf nr' cl maj min m up) w s_header_field (nr + 1 + 1) (p + 1) c1 (Some p) None None)
    = Ok (Next (X (Q s_header_value_discard_ws (name_state (lower (c :: tl))) i' fl xf nr' cl maj min m up)
    w' s_header_value_discard_ws (nr + 1 + 1 + zlen tl) (p + 1 + zlen tl) 58 None None None))).
  unfold exec_header_field. rewrite E. cbn [mbind outcome_bind x_p]. rewrite (proj2 (Z.eqb_neq _ _)) by lia.
  rewrite count_ok; [|cbn [x_nread]; lia..].
  match goal with |- context [if ?b then _ else _] => change b with true end. cbn match. unfold CALLBACK_DATA.
  erewrite callback_data_ok; [|reflexivity|reflexivity| |reflexivity|reflexivity|exact Hr].
  - unfold next. f_equal. f_equal.
    change (X (Q s_header_value_discard_ws (name_state (lower (c :: tl))) i' fl xf nr' cl maj min m up) w' s_header_value_discard_ws
      (nr + 1 + 1 + (p + 1 + zlen tl - (p + 1))) (p + 1 + zlen tl) 58 None None None
      = X (Q s_header_value_discard_ws (name_state (lower (c :: tl))) i' fl xf nr' cl maj min m up) w' s_header_value_discard_ws
      (nr + 1 + 1 + zlen tl) (p + 1 + zlen tl) 58 None None None). f_equal. lia.
  - eapply at_pos_span; [exact Hat|]. rewrite zlen_cons. cbn [x_p set_state]. change (p + 1 + zlen tl = p + (zlen tl + 1)). lia.
Qed.

(** ** A header value

    In the loop over a value only the header state, the index, the flags, the
    position and the character change. *)

#[local] Abbreviation V q w nr p ch vm := (X q w s_header_value nr p ch None vm None).

Definition value_leads (start : Z) (x : exec W) (h : header_states) (r : outcome (flow W)) : Prop :=
  forall fuel, zlen data - x_p x <= Z.of_nat fuel -> value_loop data lenient fuel start x h = r.

Definition value_reach (start : Z) (x : exec W) (h : header_states) (x' : exec W) (h' : header_states) : Prop :=
  forall r, value_leads start x' h' r -> value_leads start x h r.

Lemma value_reach_trans start x h x1 h1 x2 h2 :
  value_reach start x h x1 h1 -> value_reach start x1 h1 x2 h2 -> value_reach start x h x2 h2.
Proof. unfold value_reach. eauto. Qed.

Lemma value_text_ok c : value_text c = true -> is_eol c = false /\ bad_char lenient c = false.
Proof.
  unfold value_text, bad_char. intros [He Hc]%andb_true_iff. rewrite Hc. rewrite andb_false_r. split; [|done].
  by apply negb_true_iff.
Qed.

(** One character and the step it makes. *)
Lemma value_reach_step start x h c rest x1 h1 :
  at_pos data (x_p x) (c :: rest) -> value_text c = true -> x_p x <= x_p x1 ->
  value_char data lenient (x <| x_ch := c |>) h c = Ok (Value x1 h1) ->
  value_reach start x h (x1 <| x_p := x_p x1 + 1 |>) h1.
Proof.
  intros Hat Hc Hle E r Hr fuel Hf. pose proof (at_pos_len _ _ _ Hat) as Hlen. rewrite zlen_cons in Hlen.
  pose proof (zlen_nonneg rest). destruct fuel as [|fuel]; [lia|]. cbn [value_loop].
  rewrite (proj2 (Z.eqb_neq _ _)) by lia. rewrite (at_pos_get _ _ _ _ Hat). cbn [mbind outcome_bind]. cbv zeta.
  destruct (value_text_ok c Hc) as [He Hb]. unfold is_eol in He. apply orb_false_iff in He as [-> ->]. rewrite Hb, E.
  cbn [mbind outcome_bind]. apply Hr. change (zlen data - (x_p x1 + 1) <= Z.of_nat fuel). lia.
Qed.

(** Any text, up to the end of the line. *)
Lemma skip_value_ok l : forall fuel q (w : W) nr p ch vm pe rest,
  at_pos data p (l ++ CR :: rest) -> forallb value_text l = true -> p + zlen l < pe -> zlen l < Z.of_nat fuel ->
  skip_value data lenient fuel (V q w nr p ch vm) pe = Ok (Value (V q w nr (p + zlen l - 1) CR vm) h_general).
Proof.
  induction l as [|c l IH]; intros fuel q w nr p ch vm pe rest Hat Ht Hpe Hf;
    (destruct fuel as [|fuel]; [unfold zlen in Hf; cbn [length] in Hf; lia|]); cbn [skip_value x_p app] in *.
  - pose proof (at_pos_len _ _ _ Hat) as Hlen. rewrite zlen_cons in Hlen. rewrite zlen_nil in Hpe |- *. pose proof (zlen_nonneg rest).
    rewrite (proj2 (Z.eqb_neq _ _)) by lia. rewrite (at_pos_get _ _ _ _ Hat). cbn [mbind outcome_bind]. cbv zeta.
    change (is_eol CR) with true. cbn match. match goal with |- context [?a =? zlen data] => change a with (p - 1) end. rewrite (proj2 (Z.eqb_neq _ _)) by lia.
    unfold mret, outcome_ret. f_equal. f_equal. change (V q w nr (p - 1) CR vm = V q w nr (p + 0 - 1) CR vm). f_equal. lia.
  - rewrite zlen_cons in *. pose proof (zlen_nonneg l). cbn [forallb] in Ht. apply andb_true_iff in Ht as [Hc Ht].
    rewrite (proj2 (Z.eqb_neq _ _)) by lia. rewrite (at_pos_get _ _ _ _ Hat). cbn [mbind outcome_bind]. cbv zeta.
    destruct (value_text_ok c Hc) as [-> ->]. pose proof (at_pos_cons _ _ _ _ Hat) as Hat1.
    pose proof (IH fuel q w nr (p + 1) c vm pe rest Hat1 Ht ltac:(lia) ltac:(lia)) as E.
    replace (p + (zlen l + 1) - 1) with (p + 1 + zlen l - 1) by lia. exact E.
Qed.

Lemma value_general start q w nr p ch vm l rest :
  at_pos data p (l ++ CR :: rest) -> forallb value_text l = true -> zlen l < max_header_size ->
  exists ch', value_reach start (V q w nr p ch vm) h_general (V q w nr (p + zlen l) ch' vm) h_general.
Proof.
  intros Hat Ht Hm. destruct l as [|c l].
  - exists ch. rewrite zlen_nil, Z.add_0_r. by intros r.
  - exists CR. replace (p + zlen (c :: l)) with (p + zlen (c :: l) - 1 + 1) by lia.
    pose proof Ht as Hc. cbn [forallb] in Hc. apply andb_true_iff in Hc as [Hc _].
    pose proof (at_pos_len _ _ _ Hat) as Hlen. pose proof (zlen_nonneg rest). pose proof (at_pos_nonneg _ _ _ Hat).
    rewrite zlen_app, (zlen_cons CR) in Hlen. pose proof (zlen_nonneg l).
    eapply (value_reach_step start _ _ c (l ++ CR :: rest) (V q w nr (p + zlen (c :: l) - 1) CR vm)); [exact Hat|done|cbn [x_p]; rewrite zlen_cons; lia|].
    change ((V q w nr p ch vm) <| x_ch := c |>) with (V q w nr p c vm). unfold value_char. cbv zeta. cbn [x_p].
    eapply (skip_value_ok (c :: l)); [exact Hat|done|lia|unfold zlen in *; lia].
Qed.

(** The end of the line, inside the loop. *)
Lemma value_end start st' h i fl xf nr' cl maj min m up w w' nr p ch vm value rest hs :
  at_pos data p (CR :: rest) -> 0 <= nr -> 0 <= p - start -> nr + (p - start) <= max_header_size ->
  span data vm p = Ok value -> react w (Http_header_value value) = Ok w' ->
  value_leads start (V (Q st' hs i fl xf nr' cl maj min m up) w nr p ch (Some vm)) h
    (Ok (Next (X (Q s_header_almost_done h i fl xf nr' cl maj min m up) w' s_header_almost_done (nr + (p - start)) p CR None None None))).
Proof.
  intros Hat Hn Hs Hm Hv Hr fuel Hf. cbn [x_p] in Hf. pose proof (at_pos_len _ _ _ Hat) as Hlen. rewrite zlen_cons in Hlen.
  pose proof (zlen_nonneg rest). destruct fuel as [|fuel]; [lia|]. cbn [value_loop x_p].
  rewrite (proj2 (Z.eqb_neq _ _)) by lia. rewrite (at_pos_get _ _ _ _ Hat). cbn [mbind outcome_bind]. cbv zeta.
  change (CR =? CR) with true. cbn match. unfold CALLBACK_DATA.
  erewrite callback_data_ok; [|reflexivity|reflexivity|exact Hv|reflexivity|reflexivity|exact Hr].
  unfold value_done. cbv zeta. change (x_p (set_header_state _ _)) with p. rewrite (proj2 (Z.eqb_neq _ _)) by lia.
  change (x_p (set_header_state _ _)) with p.
  rewrite count_ok; [reflexivity|change (0 <= nr); lia|lia|change (nr + (p - start) <= max_header_size); lia].
Qed.

(** ** The options of a connection *)

Definition option_index (h : header_states) (l : list Z) (i : Z) : Prop := h = h_matching_connection_token \/ i = zlen l - 1.

Lemma option_char_step st' hs i fl xf nr' cl maj min m up (w : W) nr p vm l c :
  l <> [] -> option_char c = true -> option_index (option_state l) l i ->
  exists i', value_char data lenient (V (Q st' hs i fl xf nr' cl maj min m up) w nr p c vm) (option_state l) c
    = Ok (Value (V (Q st' hs i' fl xf nr' cl maj min m up) w nr p c vm) (option_state (l ++ [LOWER c]))) /\
    option_index (option_state (l ++ [LOWER c])) (l ++ [LOWER c]) i'.
Proof.
  intros Hl Hc Hi. pose proof (option_state_next l c Hl Hc) as Hnext. pose proof (option_state_in_option l) as Hin.
  assert (option_state l <> h_matching_connection_token -> zlen l <= 10) as Hshort by apply option_state_short.
  assert (zlen l = zlen (l ++ [LOWER c]) - 1) as Hlen by (rewrite zlen_app; change (zlen [LOWER c]) with 1; lia).
  assert ((c =? 32) = false /\ (c =? 44) = false) as [Hsp Hcm].
  { pose proof (option_char_forall (fun c => negb (c =? 32) && negb (c =? 44)) c) as H'. cbv beta in H'.
    assert (negb (c =? 32) && negb (c =? 44) = true) as E by (apply H'; [vm_compute; reflexivity|done]). lia. }
  rewrite <- Hnext. clear Hnext.
  assert (option_state l <> h_matching_connection_token -> (i + 1) mod 32 = zlen l) as Hmod.
  { intros Hh. specialize (Hshort Hh). destruct Hi as [?| ->]; [done|]. pose proof (zlen_nonneg l). rewrite Z.mod_small; lia. }
  clear Hshort. unfold value_char. cbv zeta. destruct (option_state l); try done;
    try (exists i; cbn [mret outcome_ret option_next]; rewrite ?Hsp, ?Hcm; unfold value_list; rewrite ?Hcm; split; [reflexivity|by left]).
  all: exists (zlen l); cbn [option_next]; unfold value_word, inc_index; cbn [x_parser hp_index]; rewrite Hmod by done;
    (split; [reflexivity|by right]).
Qed.

Lemma option_chars tl : forall start st' hs i fl xf nr' cl maj min m up (w : W) nr p ch vm l rest,
  at_pos data p (tl ++ rest) -> l <> [] -> forallb option_char tl = true -> option_index (option_state l) l i ->
  exists i' ch', value_reach start (V (Q st' hs i fl xf nr' cl maj min m up) w nr p ch vm) (option_state l)
    (V (Q st' hs i' fl xf nr' cl maj min m up) w nr (p + zlen tl) ch' vm) (option_state (l ++ lower_option tl)).
Proof.
  induction tl as [|c tl IH]; intros start st' hs i fl xf nr' cl maj min m up w nr p ch vm l rest Hat Hl Hc Hi.
  - exists i, ch. unfold lower_option. cbn [fmap list_fmap]. rewrite app_nil_r, zlen_nil, Z.add_0_r. by intros r.
  - cbn [forallb] in Hc. apply andb_true_iff in Hc as [Hc Htl].
    destruct (option_char_step st' hs i fl xf nr' cl maj min m up w nr p vm l c Hl Hc Hi) as (i1 & E & Hi1).
    destruct (IH start st' hs i1 fl xf nr' cl maj min m up w nr (p + 1) c vm (l ++ [LOWER c]) rest) as (i' & ch' & Hr);
      [by eapply at_pos_cons|by destruct l|done|done|].
    exists i', ch'. rewrite zlen_cons. replace (p + (zlen tl + 1)) with (p + 1 + zlen tl) by lia.
    replace (l ++ lower_option (c :: tl)) with ((l ++ [LOWER c]) ++ lower_option tl) by (unfold lower_option; cbn [fmap list_fmap]; by rewrite <- app_assoc).
    eapply value_reach_trans; [|exact Hr].
    assert (value_text c = true) as Ht by (apply (option_char_forall value_text); [vm_compute; reflexivity|done]).
    eapply (value_reach_step start _ _ c (tl ++ rest) (V (Q st' hs i1 fl xf nr' cl maj min m up) w nr p c vm)); [exact Hat|exact Ht|reflexivity|].
    exact E.
Qed.

(** A comma, a space and the first character of the next option. *)
Lemma option_comma start st' hs i fl xf nr' cl maj min m up (w : W) nr p ch vm h c rest :
  at_pos data p (44 :: 32 :: c :: rest) -> settled h = true -> option_char c = true ->
  value_reach start (V (Q st' hs i fl xf nr' cl maj min m up) w nr p ch vm) h
    (V (Q st' hs 0 (Z.lor fl (connection_flag h)) xf nr' cl maj min m up) w nr (p + 3) c vm) (option_state [LOWER c]).
Proof.
  intros Hat Hh Hc. set (fl' := Z.lor fl (connection_flag h)). set (q' := Q st' hs 0 fl' xf nr' cl maj min m up).
  pose proof (at_pos_cons _ _ _ _ Hat) as Hat1. pose proof (at_pos_cons _ _ _ _ Hat1) as Hat2.
  apply (value_reach_trans _ _ _ (V q' w nr (p + 1) 44 vm) h_matching_connection_token_start).
  { eapply (value_reach_step start _ _ 44 _ (V q' w nr p 44 vm)); [exact Hat|done|reflexivity|].
    change ((V ?q w nr p ch vm) <| x_ch := 44 |>) with (V q w nr p 44 vm).
    unfold q', fl'. clear -Hh. destruct h; try done. all: cbn [connection_flag]; rewrite ?Z.lor_0_r; reflexivity. }
  apply (value_reach_trans _ _ _ (V q' w nr (p + 1 + 1) 32 vm) h_matching_connection_token_start).
  { eapply (value_reach_step start _ _ 32 _ (V q' w nr (p + 1) 32 vm)); [exact Hat1|done|reflexivity|reflexivity]. }
  replace (p + 3) with (p + 1 + 1 + 1) by lia.
  assert (value_text c = true) as Ht by (apply (option_char_forall value_text); [vm_compute; reflexivity|done]).
  eapply (value_reach_step start _ _ c _ (V q' w nr (p + 1 + 1) c vm)); [exact Hat2|exact Ht|reflexivity|].
  unfold value_char. cbv zeta. cbn [mret outcome_ret]. rewrite option_first by done. f_equal. f_equal.
  destruct (LOWER c =? 107); [done|]. destruct (LOWER c =? 99); [done|]. destruct (LOWER c =? 117); [done|].
  assert (truthy (STRICT_TOKEN (LOWER c)) = true) as ->; [|done].
  apply (option_char_forall (fun c => truthy (STRICT_TOKEN (LOWER c)))); [vm_compute; reflexivity|done].
Qed.

(** The rest of a list of options, inside the first one. *)
Lemma option_list els : forall start st' hs i fl xf nr' cl maj min m up (w : W) nr p ch vm el0 tl rest,
  let l := lower_option el0 in
  at_pos data p (tl ++ concat ((fun e => [44; 32] ++ e) <$> els) ++ CR :: rest) ->
  el0 <> [] -> option_index (option_state l) l i -> forallb option_char tl = true -> ~ cut_short (el0 ++ tl) -> Forall option_ok els ->
  exists i' fl' ch' h', value_reach start (V (Q st' hs i fl xf nr' cl maj min m up) w nr p ch vm) (option_state l)
    (V (Q st' hs i' fl' xf nr' cl maj min m up) w nr (p + zlen (tl ++ concat ((fun e => [44; 32] ++ e) <$> els))) ch' vm) h' /\
    Z.lor fl' (connection_flag h') = Z.lor fl (option_flags ((el0 ++ tl) :: els)) /\ settled h' = true.
Proof.
  induction els as [|e els IH]; intros start st' hs i fl xf nr' cl maj min m up w nr p ch vm el0 tl rest l Hat Hel0 Hi Htl Hcut Hels.
  - cbn [fmap list_fmap concat] in *. rewrite app_nil_r. cbn [app] in Hat.
    destruct (option_chars tl start st' hs i fl xf nr' cl maj min m up w nr p ch vm l _ Hat) as (i' & ch' & Hr); [by destruct el0|done|done|].
    replace (l ++ lower_option tl) with (lower_option (el0 ++ tl)) in Hr by (unfold l, lower_option; by rewrite fmap_app).
    eexists _, _, _, _. split; [exact Hr|]. split; [|by apply option_settled].
    rewrite option_state_flag. cbn [option_flags foldr]. by rewrite Z.lor_0_r.
  - apply Forall_cons in Hels as [(Hne & Hch & Hce) Hels]. destruct e as [|c e]; [done|]. cbn [forallb] in Hch.
    apply andb_true_iff in Hch as [Hc He]. cbn [fmap list_fmap concat] in Hat |- *. rewrite <- app_assoc in Hat.
    destruct (option_chars tl start st' hs i fl xf nr' cl maj min m up w nr p ch vm l _ Hat) as (i1 & ch1 & Hr1); [by destruct el0|done|done|].
    replace (l ++ lower_option tl) with (lower_option (el0 ++ tl)) in Hr1 by (unfold l, lower_option; by rewrite fmap_app).
    apply at_pos_app in Hat. cbn [app] in Hat.
    pose proof (option_comma start st' hs i1 fl xf nr' cl maj min m up w nr _ ch1 vm (option_state (lower_option (el0 ++ tl))) c _ Hat
      (option_settled _ Hcut) Hc) as Hr2.
    apply (at_pos_app _ _ [44; 32; c]) in Hat. change (zlen [44; 32; c]) with 3 in Hat.
    destruct (IH start st' hs 0 (Z.lor fl (connection_flag (option_state (lower_option (el0 ++ tl))))) xf nr' cl maj min m up w nr
      (p + zlen tl + 3) c vm [c] e rest) as (i' & fl' & ch' & h' & Hr3 & Hfl & Hset); [exact Hat|done|by right|done|exact Hce|done|].
    eexists _, fl', _, h'. split; [|split; [|exact Hset]].
    + eapply value_reach_trans; [exact Hr1|]. eapply value_reach_trans; [exact Hr2|].
      replace (p + zlen (tl ++ ([44; 32] ++ c :: e) ++ concat ((fun e0 => [44; 32] ++ e0) <$> els)))
        with (p + zlen tl + 3 + zlen (e ++ concat ((fun e0 => [44; 32] ++ e0) <$> els))); [exact Hr3|].
      rewrite !zlen_app, !zlen_cons, !zlen_nil. lia.
    + rewrite Hfl, option_state_flag. cbn [option_flags foldr]. by rewrite <- Z.lor_assoc.
Qed.

(** ** A whole header line *)

(** The loop over a value, from its second character to the line feed. *)
Lemma value_line (P : header_states -> Z -> Prop) st' h0 i fl xf nr' cl maj min m up w w' nr p ch vm value pe c1 r1 rest :
  at_pos data p (c1 :: r1) -> at_pos data pe (CR :: LF :: rest) -> p <= pe -> 0 <= nr -> nr + (pe - p) + 2 <= max_header_size ->
  span data vm pe = Ok value -> react w (Http_header_value value) = Ok w' ->
  (forall nr ch, exists i' fl' h' ch', value_reach p (V (Q st' h0 i fl xf nr' cl maj min m up) w nr p ch (Some vm)) h0
      (V (Q st' h0 i' fl' xf nr' cl maj min m up) w nr pe ch' (Some vm)) h' /\ P h' fl') ->
  exists i' fl' h', reach data lenient (V (Q st' h0 i fl xf nr' cl maj min m up) w nr p ch (Some vm))
    (X (Q s_header_almost_done h' i' fl' xf nr' cl maj min m up) w' s_header_value_lws (nr + (pe - p) + 2) (pe + 2) LF None None None) /\ P h' fl'.
Proof.
  intros Hat Hend Hle Hn Hm Hv Hr Hloop. destruct (Hloop (nr + 1) c1) as (i' & fl' & h' & ch' & Hreach & HP).
  exists i', fl', h'. split; [|exact HP]. set (q' := Q s_header_almost_done h' i' fl' xf nr' cl maj min m up).
  pose proof (value_end p st' h' i' fl' xf nr' cl maj min m up w w' (nr + 1) pe ch' vm value (LF :: rest) h0 Hend
    ltac:(lia) ltac:(lia) ltac:(lia) Hv Hr) as Hve. apply Hreach in Hve.
  apply (reach_trans data lenient _ (X q' w' s_header_almost_done (nr + 1 + (pe - p)) (pe + 1) CR None None None)).
  - eapply (reach_header data lenient _ (X q' w' s_header_almost_done (nr + 1 + (pe - p)) pe CR None None None));
      [exact Hat|done|cbn [x_nread]; lia|exact Hle|]. apply switch_next.
    change (value_loop data lenient (length data) p (V (Q st' h0 i fl xf nr' cl maj min m up) w (nr + 1) p c1 (Some vm)) h0
      = Ok (Next (X q' w' s_header_almost_done (nr + 1 + (pe - p)) pe CR None None None))).
    apply Hve. cbn [x_p]. pose proof (at_pos_nonneg _ _ _ Hat). unfold zlen. lia.
  - apply at_pos_cons in Hend. replace (pe + 2) with (pe + 1 + 1) by lia. replace (nr + (pe - p) + 2) with (nr + 1 + (pe - p) + 1) by lia.
    eapply (reach_header data lenient _ (X q' w' s_header_value_lws (nr + 1 + (pe - p) + 1) (pe + 1) LF None None None));
      [exact Hend|done|cbn [x_nread]; lia|reflexivity|]. by apply switch_next.
Qed.

(** The first character of a value. *)
Definition value_first (name : list Z) (c : Z) : header_states :=
  if bool_decide (is_connection name) then
    if LOWER c =? 107 then h_matching_connection_keep_alive
    else if LOWER c =? 99 then h_matching_connection_close
    else if LOWER c =? 117 then h_matching_connection_upgrade
    else h_matching_connection_token
  else h_general.

Definition upgrade_flag (name : list Z) : Z := if bool_decide (lower name = UPGRADE) then F_UPGRADE else 0.

Lemma value_start_switch st' name i fl xf nr' cl maj min m up (w : W) nr p c :
  lower name <> CONTENT_LENGTH -> lower name <> TRANSFER_ENCODING ->
  exec_header_value_start (X (Q st' (name_state (lower name)) i fl xf nr' cl maj min m up) w s_header_value_discard_ws nr p c None None None)
  = Ok (Next (V (Q st' (value_first name c) 0 (Z.lor fl (upgrade_flag name)) xf nr' cl maj min m up) w nr p c (Some p))).
Proof.
  intros Hcl Hte. unfold value_first, upgrade_flag.
  pose proof (name_state_in_name (lower name)) as Hin. pose proof (name_connection (lower name)) as Hc.
  pose proof (name_upgrade (lower name)) as Hu. pose proof (name_content_length (lower name)) as Hl.
  pose proof (name_transfer_encoding (lower name)) as Ht. rewrite !list_elem_of_singleton in *. fold (is_connection name) in Hc.
  assert (~ (is_connection name /\ lower name = UPGRADE)) as Hboth by (intros [A%Hc B%Hu]; congruence).
  unfold exec_header_value_start. cbv zeta.
  match goal with |- match ?h with _ => _ end = _ => change h with (name_state (lower name)) end.
  destruct (name_state (lower name)); try done; try (exfalso; first [by apply Hcl, Hl|by apply Hte, Ht]).
  all: try rewrite (bool_decide_false (is_connection name)) by (by intros A%Hc).
  all: try rewrite (bool_decide_false (lower name = UPGRADE)) by (by intros A%Hu).
  all: try rewrite (bool_decide_true (is_connection name)) by (by apply Hc).
  all: try rewrite (bool_decide_true (lower name = UPGRADE)) by (by apply Hu).
  all: rewrite ?Z.lor_0_r; reflexivity.
Qed.

(** The loop over a value that has begun with [c]. *)
Lemma value_rest st' hd xf nr' cl maj min m up (w : W) p vm fl c t rest :
  at_pos data p (t ++ CR :: rest) -> header_ok hd -> value_bytes hd.2 = c :: t -> zlen t < max_header_size ->
  forall nr ch, exists i' fl' h' ch',
    value_reach p (V (Q st' (value_first hd.1 c) 0 (Z.lor fl (upgrade_flag hd.1)) xf nr' cl maj min m up) w nr p ch vm) (value_first hd.1 c)
      (V (Q st' (value_first hd.1 c) i' fl' xf nr' cl maj min m up) w nr (p + zlen t) ch' vm) h' /\
    line_start s_header_value_lws h' fl' (Z.lor fl (header_flags hd)).
Proof.
  intros Hat (_ & _ & _ & _ & Hv) Hb Hm nr ch. destruct (value_ok_bytes _ _ Hv) as (c' & t' & Hb' & _ & Ht).
  rewrite Hb in Hb'. injection Hb' as <- <-. cbn [forallb] in Ht. apply andb_true_iff in Ht as [_ Ht].
  unfold value_first, upgrade_flag, header_flags. destruct (decide (is_connection hd.1)) as [Hc|Hc].
  - rewrite (bool_decide_true (is_connection hd.1)) by done.
    assert (lower hd.1 <> UPGRADE) as Hu by (intros E; by apply (upgrade_not_connection hd.1)).
    rewrite !(bool_decide_false _ Hu), Z.lor_0_r. destruct hd.2 as [v|els]; [destruct v; [done|]; destruct Hv as (_ & _ & Hv); by destruct (Hv Hc)|].
    destruct Hv as [Hne Hels]. destruct els as [|el els]; [done|]. apply Forall_cons in Hels as [(Hne' & Hch & Hcut) Hels].
    cbn [value_bytes] in Hb. rewrite join_options_cons in Hb. destruct el as [|c0 el]; [done|]. injection Hb as -> <-.
    cbn [forallb] in Hch. apply andb_true_iff in Hch as [Hc0 Hch]. rewrite <- option_first by done.
    rewrite <- app_assoc in Hat.
    destruct (option_list els p st' (option_state [LOWER c]) 0 fl xf nr' cl maj min m up w nr p ch vm [c] el rest) as (i' & fl' & ch' & h' & Hr & Hfl & Hset);
      [exact Hat|done|by right|done|exact Hcut|done|].
    exists i', fl', h', ch'. split; [exact Hr|]. right. split; [done|]. split; [by destruct h'|]. by rewrite Hfl, (bool_decide_true _ Hc).
  - rewrite !(bool_decide_false _ Hc).
    destruct (value_general p (Q st' h_general 0 (Z.lor fl (if bool_decide (lower hd.1 = UPGRADE) then F_UPGRADE else 0)) xf nr' cl maj min m up)
      w nr p ch vm t rest Hat Ht Hm) as (ch' & Hr).
    eexists _, _, h_general, ch'. split; [exact Hr|]. right. split; [done|]. split; [done|]. by rewrite Z.lor_0_r.
Qed.

Lemma read_header st st' h i fl0 fl xf nr' cl maj min m up w w' nr p ch hd rest :
  at_pos data p (header_line hd ++ rest) -> 0 <= nr -> nr + zlen (header_line hd) <= max_header_size ->
  line_start st h fl0 fl -> header_ok hd -> run_calls react w (header_calls hd) = Ok w' ->
  exists h' i' fl0', reach data lenient (X (Q st' h i fl0 xf nr' cl maj min m up) w st nr p ch None None None)
      (X (Q s_header_almost_done h' i' fl0' xf nr' cl maj min m up) w' s_header_value_lws
         (nr + zlen (header_line hd)) (p + zlen (header_line hd)) LF None None None) /\
    line_start s_header_value_lws h' fl0' (Z.lor fl (header_flags hd)).
Proof.
  intros Hat Hn Hm Hst Hok Hr. pose proof Hok as (Hne & Hch & Hcl & Hte & Hv).
  destruct (value_ok_bytes _ _ Hv) as (c & t & Hb & Hblank & Ht). cbn [run_calls header_calls] in Hr.
  apply bind_inv_ok in Hr as (w1 & Hr1 & Hr). apply bind_inv_ok in Hr as (w2 & Hr2 & [= <-]).
  unfold header_line in Hat, Hm |- *. rewrite Hb in Hat, Hm, Hr2 |- *. rewrite !zlen_app, !zlen_cons, !zlen_nil in Hm |- *.
  pose proof (zlen_nonneg t). pose proof (zlen_nonneg hd.1). pose proof (at_pos_nonneg _ _ _ Hat).
  rewrite <- !app_assoc in Hat. cbn [app] in Hat.
  destruct (read_name st st' h i fl0 fl xf nr' cl maj min m up w w1 nr p ch hd.1 _ Hat) as (i1 & Hname); try done; [lia|].
  apply at_pos_app in Hat. apply at_pos_cons in Hat. pose proof (at_pos_cons _ _ _ _ Hat) as Hat2. pose proof (at_pos_cons _ _ _ _ Hat2) as Hat3.
  set (p1 := p + zlen hd.1 + 1) in *. set (n1 := nr + zlen hd.1 + 1) in *.
  set (q1 := Q s_header_value_discard_ws (name_state (lower hd.1)) i1 fl xf nr' cl maj min m up) in *.
  assert (reach data lenient (X q1 w1 s_header_value_discard_ws n1 p1 58 None None None)
    (X q1 w1 s_header_value_discard_ws (n1 + 1) (p1 + 1) 32 None None None)) as Hspace.
  { eapply (reach_header data lenient _ (X q1 w1 s_header_value_discard_ws (n1 + 1) p1 32 None None None));
      [exact Hat|done|cbn [x_nread]; lia|reflexivity|]. by apply switch_next. }
  cbn [forallb] in Ht. apply andb_true_iff in Ht as [Hc Htt].
  set (h0 := value_first hd.1 c). set (fl1 := Z.lor fl (upgrade_flag hd.1)).
  assert (reach data lenient (X q1 w1 s_header_value_discard_ws (n1 + 1) (p1 + 1) 32 None None None)
    (V (Q s_header_value_discard_ws h0 0 fl1 xf nr' cl maj min m up) w1 (n1 + 1 + 1) (p1 + 1 + 1) c (Some (p1 + 1)))) as Hfirst.
  { eapply (reach_header data lenient _ (V (Q s_header_value_discard_ws h0 0 fl1 xf nr' cl maj min m up) w1 (n1 + 1 + 1) (p1 + 1) c (Some (p1 + 1))));
      [exact Hat2|done|cbn [x_nread]; lia|reflexivity|]. apply switch_next.
    change (exec_header_value_discard_ws (X q1 w1 s_header_value_discard_ws (n1 + 1 + 1) (p1 + 1) c None None None)
      = Ok (Next (V (Q s_header_value_discard_ws h0 0 fl1 xf nr' cl maj min m up) w1 (n1 + 1 + 1) (p1 + 1) c (Some (p1 + 1))))).
    unfold exec_header_value_discard_ws. cbn [x_ch]. rewrite Hblank. destruct (value_text_ok c Hc) as [He _].
    unfold is_eol in He. apply orb_false_iff in He as [-> ->]. apply value_start_switch; [done|].
    intros E. apply Hte. rewrite E. done. }
  pose proof (at_pos_app _ _ t (CR :: LF :: rest) Hat3) as Hend.
  assert (exists c1 r1, at_pos data (p1 + 1 + 1) (c1 :: r1)) as (c1 & r1 & Hc1) by (destruct t; eauto).
  destruct (value_line (fun h' fl' => line_start s_header_value_lws h' fl' (Z.lor fl (header_flags hd)))
    s_header_value_discard_ws h0 0 fl1 xf nr' cl maj min m up w1 w2 (n1 + 1 + 1) (p1 + 1 + 1) c (p1 + 1) (c :: t) (p1 + 1 + 1 + zlen t) c1 r1 rest)
    as (i' & fl' & h' & Hrest & HP); [exact Hc1|exact Hend|lia|lia|lia| |exact Hr2| |].
  { eapply (at_pos_span _ _ (c :: t)); [exact Hat2|rewrite zlen_cons; lia]. }
  { eapply (value_rest s_header_value_discard_ws hd); [exact Hat3|done|exact Hb|lia]. }
  exists h', i', fl'. split; [|exact HP].
  eapply reach_trans; [exact Hname|]. eapply reach_trans; [exact Hspace|]. eapply reach_trans; [exact Hfirst|].
  match goal with |- reach _ _ _ (X _ _ _ ?a ?b _ _ _ _) =>
    replace a with (n1 + 1 + 1 + (p1 + 1 + 1 + zlen t - (p1 + 1 + 1)) + 2) by lia;
    replace b with (p1 + 1 + 1 + zlen t + 2) by lia end.
  exact Hrest.
Qed.

Lemma read_headers hs : forall st st' h i fl0 fl xf nr' cl maj min m up w w' nr p ch rest,
  at_pos data p (header_lines hs ++ rest) -> 0 <= nr -> nr + zlen (header_lines hs) <= max_header_size ->
  line_start st h fl0 fl -> Forall header_ok hs -> run_calls react w (concat (header_calls <$> hs)) = Ok w' ->
  exists st1 st1' h' i' fl0' ch', reach data lenient (X (Q st' h i fl0 xf nr' cl maj min m up) w st nr p ch None None None)
      (X (Q st1' h' i' fl0' xf nr' cl maj min m up) w' st1
         (nr + zlen (header_lines hs)) (p + zlen (header_lines hs)) ch' None None None) /\
    line_start st1 h' fl0' (Z.lor fl (headers_flags hs)).
Proof.
  induction hs as [|hd hs IH]; intros st st' h i fl0 fl xf nr' cl maj min m up w w' nr p ch rest Hat Hn Hm Hst Hok Hr.
  - injection Hr as <-. exists st, st', h, i, fl0, ch. unfold header_lines. cbn [fmap list_fmap concat].
    rewrite zlen_nil, !Z.add_0_r. cbn [headers_flags foldr]. rewrite Z.lor_0_r. split; [apply reach_refl|done].
  - apply Forall_cons in Hok as [Hhd Hok]. unfold header_lines in *. cbn [fmap list_fmap concat] in *.
    rewrite <- app_assoc in Hat. rewrite run_calls_app in Hr. apply bind_inv_ok in Hr as (w1 & Hr1 & Hr).
    rewrite zlen_app in Hm. pose proof (zlen_nonneg (header_line hd)). pose proof (zlen_nonneg (concat (header_line <$> hs))).
    destruct (read_header st st' h i fl0 fl xf nr' cl maj min m up w w1 nr p ch hd _ Hat) as (h1 & i1 & fl1 & Hfirst & Hst1);
      [done|lia|done|done|exact Hr1|].
    destruct (IH s_header_value_lws s_header_almost_done h1 i1 fl1 (Z.lor fl (header_flags hd)) xf nr' cl maj min m up w1 w'
      (nr + zlen (header_line hd)) (p + zlen (header_line hd)) LF rest) as (st2 & st2' & h2 & i2 & fl2 & ch2 & Hrest & Hst2);
      [by eapply at_pos_app|lia|lia|done|done|exact Hr|].
    exists st2, st2', h2, i2, fl2, ch2. rewrite zlen_app. split.
    + eapply reach_trans; [exact Hfirst|]. by rewrite !Z.add_assoc.
    + cbn [headers_flags foldr]. by rewrite Z.lor_assoc.
Qed.

(** ** The end of the headers *)

Lemma callback_complete_ok er x k w' :
  no_error (x_parser x) = true -> hp_data (x_parser x) = d ->
  react (x_w x) (Http_message_complete (hp_upgrade (x_parser x))) = Ok w' ->
  CALLBACK_NOTIFY_ cb_message_complete HPE_CB_message_complete er x k
  = k (x <| x_parser := (x_parser x) <| hp_state := x_p_state x |> |> <| x_w := w' |>).
Proof.
  intros He Hd Hr. unfold CALLBACK_NOTIFY_. rewrite He. cbn [c_assert mbind outcome_bind].
  destruct (react_complete _ _ Hreact) as (f & -> & Hf). rewrite (Hf _ _ w') by done.
  unfold after_callback. cbn [mbind outcome_bind]. cbv zeta. change (0 =? 0) with true. cbn match. unfold no_error in *.
  change (hp_http_errno ((x_parser x) <| hp_state := x_p_state x |>)) with (hp_http_errno (x_parser x)). by rewrite He.
Qed.

(** The state for what follows the message. *)
Definition after_message (fl : Z) : http_state :=
  if truthy (Z.land fl F_CONNECTION_CLOSE) then s_dead else s_start_req.

(** The switch at the last line feed. *)
Lemma headers_end st' h i fl nr' m up (w : W) nr p fuel :
  m <> HTTP_CONNECT ->
  (forall f, f ∈ [F_CHUNKED; F_TRAILING; F_SKIPBODY; F_CONTENTLENGTH] -> truthy (Z.land fl f) = false) ->
  let up' := c_bool (truthy (Z.land fl F_UPGRADE) && truthy (Z.land fl F_CONNECTION_UPGRADE)) in
  reexecute data lenient (2 + fuel) (X (Q st' h i fl 0 nr' ULLONG_MAX 1 1 m up) w s_headers_almost_done nr p LF None None None)
  = (r ← CALLBACK_NOTIFY_ cb_message_complete HPE_CB_message_complete (p + 1)
      (X (Q st' h i fl 0 0 ULLONG_MAX 1 1 m up') w (after_message fl) 0 p LF None None None)
      (if truthy up' then fun x => leave (x_p x + 1) x else next);
     match r with Again x => reexecute data lenient fuel x | r => mret r end).
Proof.
  intros Hm Hfl up'.
  assert (truthy (Z.land fl F_TRAILING) = false) as Htr by (apply Hfl; by apply (bool_decide_unpack _)).
  assert (truthy (Z.land fl F_CHUNKED) = false) as Hck by (apply Hfl; by apply (bool_decide_unpack _)).
  assert (truthy (Z.land fl F_SKIPBODY) = false) as Hsk by (apply Hfl; by apply (bool_decide_unpack _)).
  set (q0 := Q st' h i fl 0 nr' ULLONG_MAX 1 1 m up'). set (q1 := Q st' h i fl 0 0 ULLONG_MAX 1 1 m up').
  change (2 + fuel)%nat with (S (S fuel)). rewrite (switch_again data lenient _ _ (X q0 w s_headers_done nr p LF None None None)).
  - cbn [reexecute]. f_equal.
    unfold exec_switch. cbn [x_p_state]. unfold exec_headers_done, STRICT_CHECK. change (negb (x_ch _ =? LF)) with false. cbn match.
    change (reset_nread _) with (X q1 w s_headers_done 0 p LF None None None). cbv zeta. cbn [x_parser].
    change (hp_upgrade q1) with up'. unfold has_body. change (flag q1 ?f) with (truthy (Z.land fl f)). rewrite Hck, Hsk.
    change (hp_content_length q1) with ULLONG_MAX. change (0 <? ULLONG_MAX) with true. change (ULLONG_MAX =? ULLONG_MAX) with true.
    cbn [negb andb orb]. rewrite orb_true_r, andb_true_r. change (ULLONG_MAX =? 0) with false.
    change (transfer_encoding_flag q1) with false. change (http_message_needs_eof q1) with false.
    assert (NEW_MESSAGE q1 = after_message fl) as Hnew.
    { unfold NEW_MESSAGE, http_should_keep_alive, after_message. change (flag q1 ?f) with (truthy (Z.land fl f)).
      change ((0 <? hp_http_major q1) && (0 <? hp_http_minor q1)) with true. cbn match.
      change (http_message_needs_eof q1) with false. by destruct (truthy (Z.land fl F_CONNECTION_CLOSE)). }
    unfold message_complete, CALLBACK_NOTIFY. cbn [x_parser]. rewrite Hnew. by destruct (truthy up').
  - unfold exec_switch. cbn [x_p_state]. unfold exec_headers_almost_done, STRICT_CHECK. change (negb (x_ch _ =? LF)) with false. cbn match.
    cbn [x_parser]. change (flag _ F_TRAILING) with (truthy (Z.land fl F_TRAILING)). rewrite Htr.
    change (transfer_encoding_flag _) with false. cbn [andb]. cbv zeta. unfold headers_complete. rewrite (no_headers_complete _ _ Hreact).
    match goal with |- (if no_error ?q then _ else _) = _ => change (no_error q) with true end. cbn match.
    unfold again. f_equal. f_equal.
    match goal with |- ?l = _ => assert (l = X (Q st' h i fl 0 nr' ULLONG_MAX 1 1 m
      (c_bool (upgrade_of (Q st' h i fl 0 nr' ULLONG_MAX 1 1 m up)))) w s_headers_done nr p LF None None None) as -> by reflexivity end.
    unfold q0. f_equal. f_equal. unfold up', upgrade_of. f_equal. change (flag _ ?f) with (truthy (Z.land fl f)).
    cbn [hp_type hp_method]. rewrite (bool_decide_false (m = HTTP_CONNECT)) by done.
    by destruct (truthy (Z.land fl F_UPGRADE) && truthy (Z.land fl F_CONNECTION_UPGRADE)).
Qed.

(** The blank line, to its line feed. *)
Lemma read_blank_line st st' h i fl0 fl nr' m up w nr p ch rest :
  at_pos data p (CR :: LF :: rest) -> 0 <= nr -> nr + 2 <= max_header_size -> line_start st h fl0 fl ->
  m <> HTTP_CONNECT ->
  (forall f, f ∈ [F_CHUNKED; F_TRAILING; F_SKIPBODY; F_CONTENTLENGTH] -> truthy (Z.land fl f) = false) ->
  let up' := c_bool (truthy (Z.land fl F_UPGRADE) && truthy (Z.land fl F_CONNECTION_UPGRADE)) in
  exists x, reach data lenient (X (Q st' h i fl0 0 nr' ULLONG_MAX 1 1 m up) w st nr p ch None None None) x /\ x_p x = p + 1 /\
    execute_byte data lenient x
    = (r ← CALLBACK_NOTIFY_ cb_message_complete HPE_CB_message_complete (p + 1 + 1)
        (X (Q st' h i fl 0 0 ULLONG_MAX 1 1 m up') w (after_message fl) 0 (p + 1) LF None None None)
        (if truthy up' then fun x => leave (x_p x + 1) x else next);
       match r with Again x => reexecute data lenient 3 x | r => mret r end).
Proof.
  intros Hat Hn Hm Hst Hconn Hfl up'. pose proof (at_pos_cons _ _ _ _ Hat) as Hat1.
  exists (X (Q st' h i fl 0 nr' ULLONG_MAX 1 1 m up) w s_headers_almost_done (nr + 1) (p + 1) CR None None None).
  split; [|split; [done|]].
  - eapply (reach_header data lenient _ (X (Q st' h i fl 0 nr' ULLONG_MAX 1 1 m up) w s_headers_almost_done (nr + 1) p CR None None None));
      [exact Hat|by eapply line_start_header|cbn [x_nread]; lia|reflexivity|].
    destruct (line_start_switch st st' h i fl0 fl 0 nr' ULLONG_MAX 1 1 m up w (nr + 1) p CR Hst eq_refl) as (fuel & E).
    etransitivity; [exact E|]. by apply switch_next.
  - rewrite (header_byte data lenient _ LF rest); [|exact Hat1|done|cbn [x_nread]; lia].
    exact (headers_end st' h i fl nr' m up w (nr + 1 + 1) (p + 1) 3 Hconn Hfl).
Qed.

(** ** The request *)

Lemma read_request st' h i fl xf nr' cl maj min m0 up w w' nr ch m url hs rest :
  data = request m url hs ++ rest -> 0 <= nr -> nr + zlen (request m url hs) <= max_header_size ->
  request_ok m url hs -> run_calls react w (Http_url url :: concat (header_calls <$> hs)) = Ok w' ->
  exists h' i' st'' x, let n := zlen (request m url hs) in
    reach data lenient (X (Q st' h i fl xf nr' cl maj min m0 up) w s_start_req nr 0 ch None None None) x /\ x_p x = n - 1 /\
    execute_byte data lenient x
    = (r ← CALLBACK_NOTIFY_ cb_message_complete HPE_CB_message_complete n
        (X (Q st'' h' i' (headers_flags hs) 0 0 ULLONG_MAX 1 1 m (c_bool (wants_upgrade hs))) w'
           (if wants_close hs then s_dead else s_start_req) 0 (n - 1) LF None None None)
        (if truthy (c_bool (wants_upgrade hs)) then fun x => leave (x_p x + 1) x else next);
       match r with Again x => reexecute data lenient 3 x | r => mret r end).
Proof.
  intros Hdata Hn Hm (Hconn & Hurl & Hhs) Hr.
  assert (at_pos data 0 (request m url hs ++ rest)) as Hat by (by exists []).
  cbn [run_calls] in Hr. apply bind_inv_ok in Hr as (w1 & Hr1 & Hr2).
  unfold request in Hat, Hm |- *. rewrite !zlen_app in Hm |- *. change (zlen [32]) with 1 in *. change (zlen [CR; LF]) with 2 in *.
  change (zlen version_line) with 10 in *. pose proof (zlen_nonneg (method_strings m)). pose proof (zlen_nonneg url).
  pose proof (zlen_nonneg (header_lines hs)). rewrite <- !app_assoc in Hat.
  destruct (read_method st' h i fl xf nr' cl maj min m m0 up w nr 0 ch _ Hat) as (i1 & Hs1); [lia|lia|].
  apply at_pos_app in Hat. apply (at_pos_app _ _ [32]) in Hat. change (zlen [32]) with 1 in Hat.
  pose proof (read_url st' h i1 0 0 nr' ULLONG_MAX maj min m up w w1 (nr + zlen (method_strings m) + 1) _ 32 url _ Hat
    ltac:(lia) ltac:(lia) Hconn Hurl Hr1) as Hs2.
  apply at_pos_app in Hat. apply (at_pos_app _ _ [32]) in Hat. change (zlen [32]) with 1 in Hat.
  pose proof (read_version s_req_http_start h i1 0 0 nr' ULLONG_MAX maj min m up w1 (nr + zlen (method_strings m) + 1 + zlen url + 1) _ 32 _ Hat
    ltac:(lia) ltac:(lia)) as Hs3.
  apply at_pos_app in Hat. change (zlen version_line) with 10 in Hat.
  destruct (read_headers hs s_header_field_start s_req_http_start h i1 0 0 0 nr' ULLONG_MAX 1 1 m up w1 w'
    (nr + zlen (method_strings m) + 1 + zlen url + 1 + 10) _ LF _ Hat) as (st4 & st4' & h4 & i4 & fl4 & ch4 & Hs4 & Hst4);
    [lia|lia|by left|done|done|].
  apply at_pos_app in Hat. rewrite Z.lor_0_l in Hst4. set (fl' := headers_flags hs) in *.
  assert (truthy (Z.land fl' F_UPGRADE) && truthy (Z.land fl' F_CONNECTION_UPGRADE) = wants_upgrade hs) as Hup.
  { unfold fl', wants_upgrade. rewrite !headers_flag. f_equal; apply existsb_same.
    - apply header_upgrade_flag.
    - apply header_option_flag. by apply (bool_decide_unpack _). }
  assert (after_message fl' = if wants_close hs then s_dead else s_start_req) as Hnew.
  { unfold after_message, fl', wants_close. rewrite headers_flag.
    erewrite existsb_same; [reflexivity|]. apply header_option_flag. by apply (bool_decide_unpack _). }
  destruct (read_blank_line st4 st4' h4 i4 fl4 fl' nr' m up w'
    (nr + zlen (method_strings m) + 1 + zlen url + 1 + 10 + zlen (header_lines hs)) _ ch4 rest Hat) as (x & Hs5 & Hx & Hbyte);
    [lia|lia|done|done|apply headers_other_flags|].
  rewrite Hup, Hnew in Hbyte. exists h4, i4, st4', x. cbv zeta.
  replace (zlen (method_strings m) + (1 + (zlen url + (1 + (10 + (zlen (header_lines hs) + 2))))))
    with (0 + zlen (method_strings m) + 1 + zlen url + 1 + 10 + zlen (header_lines hs) + 1 + 1) by lia.
  rewrite Z.add_simpl_r. split; [|by split]. intros r Hx'. by apply Hs1, Hs2, Hs3, Hs4, Hs5.
Qed.

End message.

Lemma request_nonempty m url hs : 0 < zlen (request m url hs).
Proof.
  unfold request. rewrite !zlen_app. change (zlen [32]) with 1. change (zlen [CR; LF]) with 2. change (zlen version_line) with 10.
  pose proof (zlen_nonneg (method_strings m)). pose proof (zlen_nonneg url). pose proof (zlen_nonneg (header_lines hs)). lia.
Qed.

(** The loop does what [http_parser_execute] does for a parser that is [ready]. *)
Lemma execute_ready {W} `{HttpCallbacks W} q (w : W) data r :
  hp_state q = s_start_req -> hp_http_errno q = HPE_OK -> 0 < zlen data ->
  leads data (truthy (hp_lenient_http_headers q)) (mk_exec q w s_start_req (hp_nread q) 0 0 None None None None None) r ->
  http_parser_execute q w data = r.
Proof.
  intros Hs He Hd Hl. unfold http_parser_execute, no_error. rewrite He. cbn [negb bool_decide].
  rewrite bool_decide_true by done. cbn [negb]. rewrite (proj2 (Z.eqb_neq _ _)) by lia.
  unfold initial_exec. rewrite Hs. cbn [starts_in]. apply Hl. cbn [x_p]. unfold zlen. lia.
Qed.

(** C9. A request without a body, whatever its method, URL and headers are, is
    read as it is written: the parser calls back for the URL and for each
    header, then for the end of the message, having taken exactly the bytes of
    the request; it reports an upgrade when there is an Upgrade header and
    upgrade is among the options of the connection, and stops there. *)
Theorem request_parsed {W} `{HttpCallbacks W} (react : W -> http_call -> outcome W) q w w' m url hs rest :
  reacts (hp_data q) react -> ready q -> request_ok m url hs -> hp_nread q + zlen (request m url hs) <= max_header_size ->
  run_calls react w (request_calls url hs) = Ok w' -> wants_upgrade hs = true \/ rest = [] ->
  exists q', http_parser_execute q w (request m url hs ++ rest) = Ok (zlen (request m url hs), q', w') /\
    hp_upgrade q' = c_bool (wants_upgrade hs) /\ hp_method q' = m /\ hp_http_errno q' = HPE_OK /\ hp_data q' = hp_data q /\
    hp_state q' = (if wants_close hs then s_dead else s_start_req).
Proof.
  intros Hreact (Ht & Hs & He & Hn) Hok Hm Hr Hend. unfold request_calls in Hr. rewrite app_comm_cons, run_calls_app in Hr.
  apply bind_inv_ok in Hr as (w2 & Hr & Hc). cbn [run_calls] in Hc. apply bind_inv_ok in Hc as (w3 & Hc & [= ->]).
  pose proof (request_nonempty m url hs) as Hpos. set (data := request m url hs ++ rest).
  assert (zlen data = zlen (request m url hs) + zlen rest) as Hlen by apply zlen_app. pose proof (zlen_nonneg rest).
  destruct q as [t fl st h i xf lz nr cl maj min sc m0 e up d]. cbn [hp_type hp_state hp_http_errno hp_nread hp_data] in *. subst t st e.
  destruct (read_request data (truthy lz) lz sc d react Hreact s_start_req h i fl xf nr cl maj min m0 up w w2 nr 0 m url hs rest)
    as (h' & i' & st' & x & Hreach & Hx & Hbyte); try done. cbv zeta in Hbyte.
  rewrite (callback_complete_ok d react Hreact _ _ _ w') in Hbyte by done. unfold set_mark in Hbyte.
  exists (mk_http_parser HTTP_REQUEST (headers_flags hs) (if wants_close hs then s_dead else s_start_req) h' i' 0 lz 0 ULLONG_MAX 1 1 sc m
    HPE_OK (c_bool (wants_upgrade hs)) d). split.
  - apply execute_ready; [done|done|lia|]. apply Hreach. destruct (wants_upgrade hs).
    + replace (zlen (request m url hs)) with (zlen (request m url hs) - 1 + 1) at 1 by lia.
      apply leads_done; [lia|]. exact Hbyte.
    + destruct Hend as [?| ->]; [done|]. rewrite zlen_nil in Hlen.
      refine (reach_next data (truthy lz) x _ _ _ Hbyte _ _); [lia|cbn [x_p]; rewrite Hx; reflexivity|].
      apply leads_end; [change (zlen (request m url hs) - 1 + 1 = zlen data); lia|].
      unfold execute_end. change (count_marks _ <=? 1) with true. cbn [c_assert mbind outcome_bind].
      unfold CALLBACK_DATA_NOADVANCE, CALLBACK_DATA_. cbn [get_mark]. unfold leave. rewrite Hlen, Z.add_0_r. reflexivity.
  - by repeat split.
Qed.

(** A callback that releases the parser at the end of the message leaves the
    parser with a dangling pointer. *)
Lemma request_released {W} `{HttpCallbacks W} (react : W -> http_call -> outcome W) q w w' m url hs rest f :
  reacts (hp_data q) react -> ready q -> request_ok m url hs -> hp_nread q + zlen (request m url hs) <= max_header_size ->
  run_calls react w (Http_url url :: concat (header_calls <$> hs)) = Ok w' -> cb_message_complete = Some f ->
  (forall q', hp_data q' = hp_data q -> hp_upgrade q' = c_bool (wants_upgrade hs) -> exists rc w'', f w' q' = Ok (rc, w'', None)) ->
  http_parser_execute q w (request m url hs ++ rest) = Undef UseAfterFree.
Proof.
  intros Hreact (Ht & Hs & He & Hn) Hok Hm Hr Hf Hrel.
  pose proof (request_nonempty m url hs) as Hpos. set (data := request m url hs ++ rest).
  assert (zlen data = zlen (request m url hs) + zlen rest) as Hlen by apply zlen_app. pose proof (zlen_nonneg rest).
  destruct q as [t fl st h i xf lz nr cl maj min sc m0 e up d]. cbn [hp_type hp_state hp_http_errno hp_nread hp_data] in *. subst t st e.
  destruct (read_request data (truthy lz) lz sc d react Hreact s_start_req h i fl xf nr cl maj min m0 up w w' nr 0 m url hs rest)
    as (h' & i' & st' & x & Hreach & Hx & Hbyte); try done. cbv zeta in Hbyte.
  apply execute_ready; [done|done|lia|]. apply Hreach. apply leads_undef; [lia|]. rewrite Hbyte.
  unfold CALLBACK_NOTIFY_. cbn [x_parser]. change (no_error _) with true. cbn [c_assert mbind outcome_bind]. rewrite Hf. cbn [x_w x_p_state].
  match goal with |- context [f w' ?q'] => destruct (Hrel q' eq_refl eq_refl) as (rc & w'' & ->) end. reflexivity.
Qed.

(** ** Examples *)

(** Callbacks that record their calls. *)
Definition record_call (w : list http_call) (c : http_call) : outcome (list http_call) := Ok (w ++ [c]).

#[export] Instance recording : HttpCallbacks (list http_call) := {|
  cb_message_begin := None;
  cb_url := Some (fun w q at_ => w ← record_call w (Http_url at_); mret (0, w, Some q));
  cb_status := None;
  cb_header_field := Some (fun w q at_ => w ← record_call w (Http_header_field at_); mret (0, w, Some q));
  cb_header_value := Some (fun w q at_ => w ← record_call w (Http_header_value at_); mret (0, w, Some q));
  cb_headers_complete := None;
  cb_body := None;
  cb_message_complete := Some (fun w q => w ← record_call w (Http_message_complete (hp_upgrade q)); mret (0, w, Some q));
  cb_chunk_header := None;
  cb_chunk_complete := None
|}.

Lemma recording_reacts d : reacts d record_call.
Proof.
  split; [done|done|..].
  - intros m at_ c Hc. destruct m; try done; injection Hc as <-; eexists; (split; [reflexivity|]);
      intros w q w' _ [= <-]; reflexivity.
  - eexists. split; [reflexivity|]. intros w q w' _ [= <-]. reflexivity.
Qed.

Lemma record_calls cs w : run_calls record_call w cs = Ok (w ++ cs).
Proof.
  revert w. induction cs as [|c cs IH]; intros w; cbn [run_calls]; [by rewrite app_nil_r|].
  change (run_calls record_call (w ++ [c]) cs = Ok (w ++ c :: cs)). by rewrite IH, <- app_assoc.
Qed.

Definition fresh_parser : http_parser := http_parser_init 5 HTTP_REQUEST.

Definition demo_headers : list header :=
  [(lit "Host"%str, Text (lit "broker:1884"%str));
   (lit "Upgrade"%str, Text (lit "websocket"%str));
   (lit "Connection"%str, Options [lit "keep-alive"%str; lit "Upgrade"%str]);
   (lit "Sec-WebSocket-Protocol"%str, Text (lit "mqtt"%str))].

Lemma demo_request_ok : request_ok HTTP_GET (lit "/mqtt?a=b"%str) demo_headers.
Proof. split; [done|]. split; [reflexivity|]. apply (bool_decide_unpack _). vm_compute. exact I. Qed.

Example request_parsed_witness :
  exists q', http_parser_execute fresh_parser [] (request HTTP_GET (lit "/mqtt?a=b"%str) demo_headers ++ [130; 0])
      = Ok (zlen (request HTTP_GET (lit "/mqtt?a=b"%str) demo_headers), q', request_calls (lit "/mqtt?a=b"%str) demo_headers) /\
    hp_upgrade q' = 1 /\ hp_method q' = HTTP_GET /\ hp_http_errno q' = HPE_OK /\ hp_data q' = 5 /\ hp_state q' = s_start_req.
Proof.
  refine (request_parsed record_call fresh_parser [] (request_calls (lit "/mqtt?a=b"%str) demo_headers) HTTP_GET
    (lit "/mqtt?a=b"%str) demo_headers [130; 0] (recording_reacts 5) _ demo_request_ok _ _ _).
  - by split.
  - vm_compute. discriminate.
  - apply record_calls.
  - by left.
Defined.

(** A request that the parser takes otherwise than it is meant: the lines, and
    whether it asks for an upgrade. *)
Definition upgrade_after (connection : list Z) : outcome Z :=
  '(_, q, _) ← http_parser_execute fresh_parser []
    (lit "GET / HTTP/1.1"%str ++ [CR; LF] ++ lit "Upgrade: websocket"%str ++ [CR; LF] ++
     lit "Connection: "%str ++ connection ++ [CR; LF; CR; LF]);
  mret (hp_upgrade q).

(** An option that is the beginning of one the parser knows, or a tab or an
    underscore at the start of an option, hides the options after it. *)
Example options_hidden :
  upgrade_after (lit "up, upgrade"%str) = Ok 0 /\
  upgrade_after (lit "x,"%str ++ [9] ++ lit "upgrade"%str) = Ok 0 /\
  upgrade_after (lit "x, _y, upgrade"%str) = Ok 0 /\
  upgrade_after (lit "x, y, upgrade"%str) = Ok 1.
Proof. vm_compute. done. Qed.

(** A header name that only begins with Transfer-Encoding sets the flag of that
    header, and a request with a Content-Length is refused. *)
Example transfer_encoding_prefix :
  exists q w, http_parser_execute fresh_parser []
    (lit "GET / HTTP/1.1"%str ++ [CR; LF] ++ lit "Transfer-Encoding-X: y"%str ++ [CR; LF] ++
     lit "Content-Length: 0"%str ++ [CR; LF; CR; LF]) = Ok (60, q, w) /\ hp_http_errno q = HPE_UNEXPECTED_CONTENT_LENGTH.
Proof. eexists _, _. split; [vm_compute; reflexivity|reflexivity]. Qed.

(** Bytes above 127 are read as the digit 0 of a chunk size. *)
Example chunk_size_high_byte :
  exists q, http_parser_execute fresh_parser []
    (lit "POST / HTTP/1.1"%str ++ [CR; LF] ++ lit "Transfer-Encoding: chunked"%str ++ [CR; LF; CR; LF; 200; CR; LF; CR; LF])
  = Ok (52, q, [Http_url (lit "/"%str); Http_header_field (lit "Transfer-Encoding"%str);
                Http_header_value (lit "chunked"%str); Http_message_complete 0]) /\ hp_http_errno q = HPE_OK.
Proof. eexists _. split; [vm_compute; reflexivity|reflexivity]. Qed.
