(* ===== verification/World.v ===== *)
(** * The state of the broker and the calls it makes to the outside
    (src/worker.h, src/keep_alive.h, src/server.h, src/config.h, src/client_ws.h)

    One record holds what the C program keeps in global variables and on the
    heap: clients, messages, the list nodes and queue items embedded in them,
    the workers and the configuration.  An object that has been freed is no
    longer in its map, so that an access to it is [Undef UseAfterFree]; fresh
    objects get fresh addresses.

    System calls, OpenSSL, MySQL and libconfig are not part of the program:
    [Sys] answers every call as a function of the calls made before it, and
    the record keeps the list of these calls. *)

From S2P Require Import Prelude DList Queue MqttPacket ClientTypes Trie Subscription WsParser HttpTypes.

(** ** Configuration (config.h, server.h) *)

Definition MAX_NUM_SERVERS : Z := 4.
Definition DEFAULT_NUM_WORKERS : Z := 2.

Record server_st := mk_server {
  sv_port : Z;
  sv_is_tls : Z;
  sv_is_ws : Z;
  sv_backlog : Z;
  sv_sd : Z
}.
#[export] Instance eta_server : Eta server_st := fun s =>
  mk_server (sv_port s) (sv_is_tls s) (sv_is_ws s) (sv_backlog s) (sv_sd s).

Record config_st := mk_config {
  cf_allow_anonymous : Z;
  cf_tls_file_key : option (list Z);
  cf_tls_file_crt : option (list Z);
  cf_name : list Z;
  cf_num_workers : Z;
  cf_num_servers : Z;
  cf_servers : list server_st
}.
#[export] Instance eta_config : Eta config_st := fun c =>
  mk_config (cf_allow_anonymous c) (cf_tls_file_key c) (cf_tls_file_crt c) (cf_name c)
    (cf_num_workers c) (cf_num_servers c) (cf_servers c).

(** ** Keep-alive table (keep_alive.h) *)

Record keep_alive_st := mk_keep_alive {
  ka_cnt : Z;
  ka_kick_cnt : Z;
  ka_hash_table : list (option node_addr)
}.
#[export] Instance eta_keep_alive : Eta keep_alive_st := fun k =>
  mk_keep_alive (ka_cnt k) (ka_kick_cnt k) (ka_hash_table k).

(** ** WebSocket part of a client (client_ws.h) *)

Definition MAX_HEADER_NAME_LEN : Z := 100.
Definition MAX_HEADER_VALUE_LEN : Z := 100.

Record client_ws_st := mk_client_ws {
  ws_on_header_value : Z;
  ws_http_header_name_len : Z;
  ws_http_header_name : list Z;
  ws_http_sec_ws_key_len : Z;
  ws_http_sec_ws_key : list Z;
  ws_http_sec_ws_protocol_len : Z;
  ws_http_sec_ws_protocol : list Z;
  ws_http_parser : http_parser;
  ws_ws_parser : ws_parser_t
}.
#[export] Instance eta_client_ws : Eta client_ws_st := fun w =>
  mk_client_ws (ws_on_header_value w) (ws_http_header_name_len w) (ws_http_header_name w)
    (ws_http_sec_ws_key_len w) (ws_http_sec_ws_key w) (ws_http_sec_ws_protocol_len w)
    (ws_http_sec_ws_protocol w) (ws_http_parser w) (ws_ws_parser w).

(** ** Workers (worker.h) *)

(** The queue items embedded in a message. *)
Inductive item_addr :=
  | MsgNode (m worker : Z)
  | GcNode (m : Z).

#[export] Instance item_addr_eq_dec : EqDecision item_addr.
Proof. solve_decision. Defined.

#[export] Instance item_addr_countable : Countable item_addr.
Proof.
  refine (inj_countable'
    (fun a => match a with MsgNode m w => inl (m, w) | GcNode m => inr m end)
    (fun a => match a with inl (m, w) => MsgNode m w | inr m => GcNode m end) _).
  by intros [].
Defined.

Abbreviation item_heap := (gmap item_addr (queue_item_st item_addr Z)).

(** [w_auth_q] is the query buffer of the authentication module. *)
Record worker_st := mk_worker {
  w_index : Z;
  w_auth_q : list Z;
  w_msg_q : queue_st item_addr;
  w_gc_q : queue_st item_addr;
  w_num_clients : Z;
  w_clients_head : option node_addr;
  w_me : Z;
  w_subs : option sub_trie;
  w_keep_alive : keep_alive_st
}.
#[export] Instance eta_worker : Eta worker_st := fun w =>
  mk_worker (w_index w) (w_auth_q w) (w_msg_q w) (w_gc_q w) (w_num_clients w)
    (w_clients_head w) (w_me w) (w_subs w) (w_keep_alive w).

(** ** Calls to the outside *)

Inductive sock_opt := TCP_NODELAY | SO_REUSEADDR.

Inductive call :=
  | Call_send (sd : Z) (data : list Z)
  | Call_recv (sd len : Z)
  | Call_close (sd : Z)
  | Call_errno
  | Call_strerror (rv : Z)
  | Call_inet_ntop
  | Call_socket
  | Call_setsockopt (sd : Z) (name : sock_opt)
  | Call_bind (sd port : Z)
  | Call_listen (sd backlog : Z)
  | Call_fcntl_getfl (sd : Z)
  | Call_fcntl_setfl (sd flags : Z)
  | Call_usleep (usec : Z)
  | Call_pthread_create (worker : Z)
  | Call_mysql_library_init
  | Call_mysql_real_connect (host user password name : option (list Z)) (port : Z) (socket : option (list Z))
  | Call_epoll_create (worker : Z)
  | Call_epoll_add (worker sd : Z)
  | Call_epoll_del (worker fd : Z)
  | Call_epoll_wait (worker : Z)
  | Call_kqueue (worker : Z)
  | Call_kevent_add (worker sd : Z)
  | Call_kevent_delete (worker sd : Z)
  | Call_kevent_wait (worker : Z)
  | Call_sleep (seconds : Z)
  | Call_time
  | Call_accept (sd : Z)
  | Call_BIO_write (client : Z) (data : list Z)
  | Call_BIO_read (client len : Z)
  | Call_SSL_CTX_new
  | Call_SSL_CTX_use_certificate_file (file : option (list Z))
  | Call_SSL_CTX_use_PrivateKey_file (file : option (list Z))
  | Call_BIO_new
  | Call_SSL_new
  | Call_SSL_is_init_finished (client : Z)
  | Call_SSL_accept (client : Z)
  | Call_SSL_read (client len : Z)
  | Call_SSL_write (client : Z) (data : list Z)
  | Call_SSL_get_error (client n : Z)
  | Call_SSL_get_fd (client : Z)
  | Call_SSL_free (client : Z)
  | Call_SSL_CTX_free
  | Call_SHA1 (data : list Z)
  | Call_mysql_query (q : list Z)
  | Call_mysql_store_result
  | Call_mysql_num_fields
  | Call_mysql_free_result
  | Call_mysql_next_result.

(** A number, some bytes, or the rows of a query. *)
Record reply := mk_reply {
  rp_int : Z;
  rp_bytes : list Z;
  rp_rows : list (list (option (list Z)))
}.

(** [loop_fuel] bounds the loops that only an outside call can end; the
    sizes are those of the structures that are allocated. *)
Class Sys := {
  sys_reply : list call -> call -> reply;
  loop_fuel : nat;
  sizeof_client_st : Z;
  sizeof_client_ws_st : Z
}.

(** ** The broker *)

Record broker := mk_broker {
  b_config : config_st;
  b_clients : gmap Z client_st;
  b_ws : gmap Z client_ws_st;
  b_messages : gmap Z message_st;
  b_nodes : node_heap;
  b_items : item_heap;
  b_workers : list worker_st;
  b_num_workers : Z;
  b_rr_index : Z;
  b_last_t : Z;
  b_fresh : Z;
  b_log : list call
}.
#[export] Instance eta_broker : Eta broker := fun b =>
  mk_broker (b_config b) (b_clients b) (b_ws b) (b_messages b) (b_nodes b) (b_items b)
    (b_workers b) (b_num_workers b) (b_rr_index b) (b_last_t b) (b_fresh b) (b_log b).

(** [p->worker] and the like when the pointer is NULL. *)
Definition NULL : Z := -1.

Definition get_client (b : broker) (p : Z) : outcome client_st :=
  match b_clients b !! p with
  | Some c => Ok c
  | None => Undef UseAfterFree
  end.

Definition put_client (b : broker) (p : Z) (c : client_st) : broker :=
  b <| b_clients := <[p := c]> (b_clients b) |>.

Definition get_message (b : broker) (m : Z) : outcome message_st :=
  match b_messages b !! m with
  | Some x => Ok x
  | None => Undef UseAfterFree
  end.

Definition put_message (b : broker) (m : Z) (x : message_st) : broker :=
  b <| b_messages := <[m := x]> (b_messages b) |>.

Definition get_ws (b : broker) (p : Z) : outcome client_ws_st :=
  match b_ws b !! p with
  | Some x => Ok x
  | None => Undef UseAfterFree
  end.

Definition put_ws (b : broker) (p : Z) (x : client_ws_st) : broker :=
  b <| b_ws := <[p := x]> (b_ws b) |>.

(** [&workers[w]]; a NULL worker is not in the array. *)
Definition get_worker (b : broker) (w : Z) : outcome worker_st :=
  if w =? NULL then Undef NullDeref else arr_get (b_workers b) w.

Definition put_worker (b : broker) (w : Z) (x : worker_st) : broker :=
  b <| b_workers := <[Z.to_nat w := x]> (b_workers b) |>.

(** [ASSERT]: the process stops (the build sets CONFIG_ASSERTIONS). *)
Definition ASSERT (cond : bool) : outcome unit := if cond then Ok tt else Halt.

Section sys.
Context `{Sys}.

Definition do_call (b : broker) (c : call) : reply * broker :=
  (sys_reply (b_log b) c, b <| b_log := b_log b ++ [c] |>).
End sys.

(** ** Lemmas *)

Lemma get_client_ok b p c : b_clients b !! p = Some c -> get_client b p = Ok c.
Proof. unfold get_client. by intros ->. Qed.

Lemma get_message_ok b m x : b_messages b !! m = Some x -> get_message b m = Ok x.
Proof. unfold get_message. by intros ->. Qed.

Lemma get_worker_ok b w x :
  0 <= w -> b_workers b !! Z.to_nat w = Some x -> get_worker b w = Ok x.
Proof.
  intros Hw Hx. unfold get_worker, NULL. destruct (Z.eqb_spec w (-1)); [lia|]. by apply arr_get_ok.
Qed.

Lemma ASSERT_ok cond : cond = true -> ASSERT cond = Ok tt.
Proof. by intros ->. Qed.

(** ** Example values *)

Definition example_worker (i me : Z) : worker_st :=
  mk_worker i [] (mk_queue None None []) (mk_queue None None []) 0 None me None
    (mk_keep_alive 0 0 (replicate 101 None)).

Definition example_config : config_st :=
  mk_config 1 None None [98] 2 1 (replicate 4 (mk_server 1883 0 0 100 3)).

(** Two workers with their pseudo clients, and one session on the first worker. *)
Definition example_broker : broker :=
  mk_broker example_config
    {[ 1 := example_client <| c_worker := NULL |>; 2 := example_client <| c_worker := NULL |>;
       5 := example_client <| c_keep_alive := 10 |> ]}
    ∅ ∅ {[ KaNode 5 := mk_dllist_node None None None; ClientsNode 5 := mk_dllist_node (Some (PClient 5)) None None ]}
    ∅ [(example_worker 0 1) <| w_num_clients := 1 |> <| w_clients_head := Some (ClientsNode 5) |>; example_worker 1 2] 2 0 0 6 [].
