(* ===== verification/KeepAlive.v ===== *)
(** * Keep-alive timeouts (src/keep_alive.c, src/keep_alive.h)

    A hash table of 101 lists, indexed by the time a client expires at.
    [ka_rep] says which clients are monitored and in which list each is; the
    operations are described by what they do to that table.  The callback for
    expired clients is a parameter: the broker never sets it. *)

From S2P Require Import Prelude DList Queue MqttPacket ClientTypes Trie Subscription World.

Definition HASH_TABLE_SIZE : Z := 101.
Definition HASH_VALUE (t : Z) : Z := Z.rem t HASH_TABLE_SIZE.

Definition ka_init (ka : keep_alive_st) : keep_alive_st :=
  ka <| ka_cnt := 0 |> <| ka_kick_cnt := 0 |>
     <| ka_hash_table := replicate (Z.to_nat HASH_TABLE_SIZE) None |>.

(** The keep-alive table of the worker [w]. *)
Definition put_ka (b : broker) (w : Z) (h : node_heap) (ka : keep_alive_st) : outcome broker :=
  wp ← get_worker b w;
  mret (put_worker (b <| b_nodes := h |>) w (wp <| w_keep_alive := ka |>)).

(** [dllist_remove_ref(&ka->hash_table[HASH_VALUE(t)], l)] *)
Definition bucket_remove (h : node_heap) (ka : keep_alive_st) (t : Z) (l : node_addr)
  : outcome (node_heap * keep_alive_st) :=
  head ← arr_get (ka_hash_table ka) (HASH_VALUE t);
  '(h, head) ← dllist_remove_ref h head l;
  tbl ← arr_set (ka_hash_table ka) (HASH_VALUE t) head;
  mret (h, ka <| ka_hash_table := tbl |>).

(** [dllist_insert_head(&ka->hash_table[HASH_VALUE(t)], l)] *)
Definition bucket_insert (h : node_heap) (ka : keep_alive_st) (t : Z) (l : node_addr)
  : outcome (node_heap * keep_alive_st) :=
  head ← arr_get (ka_hash_table ka) (HASH_VALUE t);
  '(h, head) ← dllist_insert_head h head l;
  tbl ← arr_set (ka_hash_table ka) (HASH_VALUE t) head;
  mret (h, ka <| ka_hash_table := tbl |>).

(** The node is taken out of its list, or set up and counted. *)
Definition ka_unlink (b : broker) (ka : keep_alive_st) (p : Z) (pc : client_st)
  : outcome (node_heap * keep_alive_st) :=
  n ← node_get (b_nodes b) (KaNode p);
  match nd_p n with
  | Some _ => bucket_remove (b_nodes b) ka (c_expires_at pc) (KaNode p)
  | None =>
      h ← set_p (b_nodes b) (KaNode p) (PClient p);
      cnt ← int_chk (ka_cnt ka + 1);
      mret (h, ka <| ka_cnt := cnt |>)
  end.

Definition ka_update (b : broker) (w p now : Z) : outcome broker :=
  pc ← get_client b p;
  if c_keep_alive pc =? 0 then mret b
  else if c_last_ka_update_at pc =? now then mret b
  else
    wp ← get_worker b w;
    '(h, ka) ← ka_unlink b (w_keep_alive wp) p pc;
    let interval := c_keep_alive pc + (c_keep_alive pc + 1) / 2 in
    let pc := pc <| c_expires_at := now + interval |> in
    '(h, ka) ← bucket_insert h ka (c_expires_at pc) (KaNode p);
    put_ka (put_client b p (pc <| c_last_ka_update_at := now |>)) w h ka.

Definition ka_remove (b : broker) (w p : Z) : outcome broker :=
  pc ← get_client b p;
  if c_keep_alive pc =? 0 then mret b
  else
    n ← node_get (b_nodes b) (KaNode p);
    match nd_p n with
    | None => mret b
    | Some _ =>
        wp ← get_worker b w;
        '(h, ka) ← bucket_remove (b_nodes b) (w_keep_alive wp) (c_expires_at pc) (KaNode p);
        cnt ← int_chk (ka_cnt ka - 1);
        b ← put_ka b w h (ka <| ka_cnt := cnt |>);
        _ ← ASSERT (0 <=? cnt);
        mret b
    end.

Section ka_run.
(** [drop_callback]: [None] until [ka_init] or [ka_set_drop_callback] is called. *)
Context (drop_callback : option (broker -> Z -> outcome broker)).

(** The list of one second. *)
Fixpoint ka_list_loop (fuel : nat) (b : broker) (w t : Z) (lp : option node_addr) : outcome broker :=
  match lp with
  | None => mret b
  | Some l =>
      match fuel with
      | O => Spin
      | S fuel =>
          n ← node_get (b_nodes b) l;
          p ← match nd_p n with Some (PClient p) => mret p | _ => Undef NullDeref end;
          pc ← get_client b p;
          b ← (if c_expires_at pc <=? t then
                 b ← ka_remove b w p;
                 b ← match drop_callback with Some f => f b p | None => mret b end;
                 wp ← get_worker b w;
                 kick ← int_chk (ka_kick_cnt (w_keep_alive wp) + 1);
                 mret (put_worker b w (wp <| w_keep_alive := (w_keep_alive wp) <| ka_kick_cnt := kick |> |>))
               else mret b);
          n ← node_get (b_nodes b) l;
          ka_list_loop fuel b w t (nd_next n)
      end
  end.

(** [while (i <= t)], [n] seconds left. *)
Fixpoint ka_time_loop (n : nat) (b : broker) (w t i : Z) : outcome broker :=
  match n with
  | O => mret b
  | S n =>
      wp ← get_worker b w;
      lp ← arr_get (ka_hash_table (w_keep_alive wp)) (HASH_VALUE i);
      b ← ka_list_loop (size (b_nodes b)) b w t lp;
      ka_time_loop n b w t (i + 1)
  end.

(** [last_t] is a static variable, shared by the workers. *)
Definition ka_run (b : broker) (w t : Z) : outcome broker :=
  _ ← ASSERT (0 <? t);
  if b_last_t b =? t then mret b
  else
    let i := if b_last_t b =? 0 then t else b_last_t b + 1 in
    b ← ka_time_loop (Z.to_nat (t - i + 1)) b w t i;
    mret (b <| b_last_t := t |>).
End ka_run.

(** ** The table *)

(** [bs] lists the monitored clients, list by list; the hash table and the
    fields of the structures agree with it. *)
Definition tbl_rep (h : node_heap) (tbl : list (option node_addr)) (bs : list (list Z)) : Prop :=
  length tbl = Z.to_nat HASH_TABLE_SIZE /\
  Forall2 (fun head xs => dll h head (KaNode <$> xs)) tbl bs.

Definition client_ok (b : broker) (i : nat) (p : Z) : Prop :=
  exists pc n, b_clients b !! p = Some pc /\ c_keep_alive pc <> 0 /\ 0 <= c_expires_at pc /\
    HASH_VALUE (c_expires_at pc) = Z.of_nat i /\
    b_nodes b !! KaNode p = Some n /\ nd_p n = Some (PClient p).

Record ka_rep (b : broker) (w : Z) (bs : list (list Z)) : Prop := {
  kr_worker : exists wp, 0 <= w /\ b_workers b !! Z.to_nat w = Some wp /\
    tbl_rep (b_nodes b) (ka_hash_table (w_keep_alive wp)) bs /\
    ka_cnt (w_keep_alive wp) = zlen (concat bs);
  kr_disjoint : NoDup (concat bs);
  kr_count : zlen (concat bs) <= int_max;
  kr_client i xs p : bs !! i = Some xs -> p ∈ xs -> client_ok b i p
}.

(** The table without a client, and with one more. *)
Definition bs_remove (p : Z) (bs : list (list Z)) : list (list Z) :=
  (filter (fun q => q <> p)) <$> bs.
Definition bs_add (t p : Z) (bs : list (list Z)) : list (list Z) :=
  alter (cons p) (Z.to_nat (HASH_VALUE t)) bs.

Lemma hash_range t : 0 <= t -> 0 <= HASH_VALUE t < HASH_TABLE_SIZE.
Proof. intros. unfold HASH_VALUE, HASH_TABLE_SIZE. apply Z.rem_bound_pos; lia. Qed.

Lemma bucket_NoDup (bs : list (list Z)) i xs : NoDup (concat bs) -> bs !! i = Some xs -> NoDup xs.
Proof. intros Hnd Hi. erewrite concat_take_drop in Hnd by done. by apply NoDup_app in Hnd as (_ & _ & (? & _)%NoDup_app). Qed.

(** Only the list the client is in changes. *)
Lemma bs_remove_at (bs : list (list Z)) i l1 p l2 :
  NoDup (concat bs) -> bs !! i = Some (l1 ++ p :: l2) -> bs_remove p bs = <[i := l1 ++ l2]> bs.
Proof.
  intros Hnd Hi. pose proof (bucket_NoDup _ _ _ Hnd Hi) as Hx. apply list_eq. intros j. unfold bs_remove.
  rewrite list_lookup_fmap. destruct (decide (i = j)) as [<-|Hij].
  - rewrite list_lookup_insert_eq by (by eapply lookup_lt_Some). rewrite Hi. cbn. f_equal.
    apply NoDup_app in Hx as (_ & Hd & (Hp & _)%NoDup_cons). rewrite filter_app, filter_cons_False by naive_solver.
    rewrite !filter_all; [done| |].
    + apply Forall_forall. intros q Hq ->. done.
    + apply Forall_forall. intros q Hq ->. by apply (Hd p Hq), elem_of_cons; left.
  - rewrite list_lookup_insert_ne by done. destruct (bs !! j) as [ys|] eqn:Hj; [|done]. cbn. f_equal.
    apply filter_all, Forall_forall. intros q Hq ->. apply Hij.
    eapply (concat_disjoint bs _ _ _ _ p); [done|exact Hi|exact Hj| |done]. set_solver.
Qed.

Lemma bs_remove_none (bs : list (list Z)) p : p ∉ concat bs -> bs_remove p bs = bs.
Proof.
  intros Hp. apply list_eq. intros j. unfold bs_remove. rewrite list_lookup_fmap.
  destruct (bs !! j) as [ys|] eqn:Hj; [|done]. cbn. f_equal.
  apply filter_all, Forall_forall. intros q Hq ->. apply Hp, concat_lookup. eauto.
Qed.

(** ** One list of the table *)

Lemma tbl_lookup h tbl bs i xs :
  tbl_rep h tbl bs -> bs !! i = Some xs ->
  exists head, tbl !! i = Some head /\ dll h head (KaNode <$> xs).
Proof. intros [_ Hf] Hi. by apply (Forall2_lookup_r _ _ _ _ _ Hf) in Hi. Qed.

Lemma tbl_bucket h tbl bs t : tbl_rep h tbl bs -> 0 <= t -> exists xs, bs !! Z.to_nat (HASH_VALUE t) = Some xs.
Proof.
  intros [Hl Hf] Ht. apply Forall2_length in Hf. pose proof (hash_range t Ht).
  apply lookup_lt_is_Some_2. rewrite <- Hf, Hl. apply Z2Nat.inj_lt; lia.
Qed.

(** A change of the links of one list leaves the others alone. *)
Lemma tbl_update h h' tbl bs i xs ys head' ch :
  tbl_rep h tbl bs -> NoDup (concat bs) -> bs !! i = Some xs ->
  (forall p, KaNode p ∈ ch -> p ∈ xs \/ p ∉ concat bs) ->
  links_changed h h' ch -> dll h' head' (KaNode <$> ys) ->
  tbl_rep h' (<[i := head']> tbl) (<[i := ys]> bs).
Proof.
  intros [Hl Hf] Hnd Hi Hch Hlc Hd. split; [by rewrite length_insert|].
  apply Forall2_lookup. intros j. rewrite Forall2_lookup in Hf. specialize (Hf j).
  destruct (decide (i = j)) as [<-|Hij].
  - rewrite Hi in Hf. inversion Hf as [hd ? ? Hh|]; subst.
    rewrite !list_lookup_insert_eq by (by eapply lookup_lt_Some). by constructor.
  - rewrite !list_lookup_insert_ne by done. inversion Hf as [hd zs Hdz Hh Hj|]; subst; constructor.
    eapply links_changed_dseg; [exact Hlc| |exact Hdz].
    intros l Hl1 Hl2. apply list_elem_of_fmap in Hl1 as (p & -> & Hp). symmetry in Hj.
    apply Hch in Hl2 as [Hx|Hx].
    + apply Hij. by eapply concat_disjoint.
    + apply Hx, concat_lookup. eauto.
Qed.

Lemma bucket_remove_ok h ka bs t l1 p l2 :
  tbl_rep h (ka_hash_table ka) bs -> NoDup (concat bs) -> 0 <= t ->
  bs !! Z.to_nat (HASH_VALUE t) = Some (l1 ++ p :: l2) ->
  exists h' tbl, bucket_remove h ka t (KaNode p) = Ok (h', ka <| ka_hash_table := tbl |>) /\
    tbl_rep h' tbl (bs_remove p bs) /\ links_changed h h' (KaNode <$> l1 ++ l2) /\
    h' !! KaNode p = h !! KaNode p.
Proof.
  intros Ht Hnd Htn Hb. destruct (tbl_lookup _ _ _ _ _ Ht Hb) as (head & Hh & Hd).
  pose proof (hash_range t Htn). unfold bucket_remove. rewrite (arr_get_ok _ _ head) by (done || lia).
  rewrite fmap_app in Hd. cbn [fmap list_fmap] in Hd.
  destruct (remove_ref_ok _ _ _ _ _ Hd) as (h' & head' & Hr & Hd' & Hlc & Hp).
  cbn [mbind outcome_bind]. rewrite Hr. cbn [mbind outcome_bind].
  rewrite arr_set_ok.
  2: { apply lookup_lt_Some in Hh. unfold zlen. lia. }
  exists h', (<[Z.to_nat (HASH_VALUE t) := head']> (ka_hash_table ka)). split; [done|].
  rewrite (bs_remove_at _ _ _ _ _ Hnd Hb). rewrite <- fmap_app in Hd', Hlc. split_and!; [|done|done].
  eapply tbl_update; [done|done|exact Hb| |exact Hlc|exact Hd'].
  intros q Hq. apply list_elem_of_fmap in Hq as (q' & [= ->] & Hq'). left. set_solver.
Qed.

Lemma bucket_insert_ok h ka bs t p :
  tbl_rep h (ka_hash_table ka) bs -> NoDup (concat bs) -> 0 <= t -> p ∉ concat bs -> is_Some (h !! KaNode p) ->
  exists h' tbl xs, bs !! Z.to_nat (HASH_VALUE t) = Some xs /\
    bucket_insert h ka t (KaNode p) = Ok (h', ka <| ka_hash_table := tbl |>) /\
    tbl_rep h' tbl (bs_add t p bs) /\ links_changed h h' (KaNode <$> p :: xs).
Proof.
  intros Ht Hnd Htn Hp Hs. destruct (tbl_bucket _ _ _ t Ht Htn) as [xs Hb].
  destruct (tbl_lookup _ _ _ _ _ Ht Hb) as (head & Hh & Hd).
  pose proof (hash_range t Htn). unfold bucket_insert. rewrite (arr_get_ok _ _ head) by (done || lia).
  destruct (insert_head_ok _ _ _ (KaNode p) Hd) as (h' & Hr & Hd' & Hlc); [|done|].
  { intros Hx. apply list_elem_of_fmap in Hx as (q & [= <-] & Hq). apply Hp, concat_lookup. eauto. }
  cbn [mbind outcome_bind]. rewrite Hr. cbn [mbind outcome_bind].
  rewrite arr_set_ok.
  2: { apply lookup_lt_Some in Hh. unfold zlen. lia. }
  exists h', (<[Z.to_nat (HASH_VALUE t) := Some (KaNode p)]> (ka_hash_table ka)), xs.
  split; [done|]. split; [done|]. split; [|done].
  assert (bs_add t p bs = <[Z.to_nat (HASH_VALUE t) := p :: xs]> bs) as ->.
  { apply list_eq. intros j. unfold bs_add. destruct (decide (Z.to_nat (HASH_VALUE t) = j)) as [<-|Hj].
    - rewrite list_lookup_alter, list_lookup_insert_eq by (by eapply lookup_lt_Some).
      rewrite decide_True by done. by rewrite Hb.
    - rewrite list_lookup_alter, list_lookup_insert_ne by done. by rewrite decide_False. }
  eapply tbl_update; [done|done|exact Hb| |exact Hlc|exact Hd'].
  intros q Hq. change (KaNode q ∈ KaNode <$> p :: xs) in Hq.
  apply list_elem_of_fmap in Hq as (q' & [= ->] & Hq').
  apply elem_of_cons in Hq' as [->|Hq']; [by right|by left].
Qed.

(** *** The clients of the table *)

Lemma concat_bs_remove p bs : concat (bs_remove p bs) = filter (fun q => q <> p) (concat bs).
Proof.
  induction bs as [|xs bs IH]; [done|]. unfold bs_remove in *. cbn [fmap list_fmap concat].
  by rewrite filter_app, IH.
Qed.

Lemma bs_remove_elem p q bs : q ∈ concat (bs_remove p bs) <-> q ∈ concat bs /\ q <> p.
Proof. rewrite concat_bs_remove, list_elem_of_filter. naive_solver. Qed.

Lemma bs_remove_NoDup p bs : NoDup (concat bs) -> NoDup (concat (bs_remove p bs)).
Proof. rewrite concat_bs_remove. apply NoDup_filter. Qed.

Lemma zlen_filter_ne (l : list Z) p : NoDup l -> p ∈ l -> zlen (filter (fun q => q <> p) l) = zlen l - 1.
Proof.
  induction l as [|x l IH]; intros Hnd Hp; [by apply not_elem_of_nil in Hp|].
  apply NoDup_cons in Hnd as [Hx Hnd]. rewrite zlen_cons. rewrite filter_cons.
  destruct (decide (x <> p)) as [Hne|He].
  - rewrite zlen_cons. apply elem_of_cons in Hp as [->|Hp]; [done|]. rewrite IH by done. lia.
  - assert (x = p) as -> by (by apply dec_stable). rewrite filter_all; [lia|].
    apply Forall_forall. by intros q Hq ->.
Qed.

Lemma zlen_bs_remove p bs : NoDup (concat bs) -> p ∈ concat bs -> zlen (concat (bs_remove p bs)) = zlen (concat bs) - 1.
Proof. rewrite concat_bs_remove. apply zlen_filter_ne. Qed.

Lemma bs_remove_lookup p bs i xs :
  bs_remove p bs !! i = Some xs -> exists ys, bs !! i = Some ys /\ xs = filter (fun q => q <> p) ys.
Proof. unfold bs_remove. rewrite list_lookup_fmap. destruct (bs !! i); [|done]. intros [= <-]. eauto. Qed.

Lemma concat_bs_add t p bs xs :
  bs !! Z.to_nat (HASH_VALUE t) = Some xs -> concat (bs_add t p bs) ≡ₚ p :: concat bs.
Proof.
  intros Hb. unfold bs_add. generalize dependent (Z.to_nat (HASH_VALUE t)). intros i Hb.
  revert i Hb. induction bs as [|ys bs IH]; intros [|i] Hb; cbn in Hb; simplify_eq; cbn [alter list_alter concat]; [done|].
  rewrite IH by done. by rewrite Permutation_middle.
Qed.

(** ** The operations on the table *)

Lemma client_ok_same b b' i q :
  client_ok b i q -> b_clients b' !! q = b_clients b !! q ->
  nd_p <$> b_nodes b' !! KaNode q = nd_p <$> b_nodes b !! KaNode q -> client_ok b' i q.
Proof.
  intros (pc & n & Hc & Hk & He & Hh & Hn & Hp) Hcl Hnd. rewrite Hn in Hnd. cbn in Hnd.
  destruct (b_nodes b' !! KaNode q) as [n'|] eqn:Hn'; [|done]. injection Hnd as Hnd.
  exists pc, n'. rewrite Hcl. split_and!; try done. by rewrite Hnd.
Qed.

(** The state after an operation of the worker [w] with the nodes [h] and table [ka]. *)
Definition with_ka (b : broker) (h : node_heap) (w : Z) (wp : worker_st) (ka : keep_alive_st) : broker :=
  put_worker (b <| b_nodes := h |>) w (wp <| w_keep_alive := ka |>).

Lemma put_ka_ok b w wp h ka :
  0 <= w -> b_workers b !! Z.to_nat w = Some wp -> put_ka b w h ka = Ok (with_ka b h w wp ka).
Proof. intros Hw Hwp. unfold put_ka. by rewrite (get_worker_ok b w wp). Qed.

Lemma with_ka_worker b h w wp ka :
  b_workers b !! Z.to_nat w = Some wp ->
  b_workers (with_ka b h w wp ka) !! Z.to_nat w = Some (wp <| w_keep_alive := ka |>).
Proof. intros Hwp. unfold with_ka, put_worker. cbn. rewrite list_lookup_insert_eq by (by eapply lookup_lt_Some). done. Qed.

Lemma ka_rep_worker b w bs wp :
  ka_rep b w bs -> b_workers b !! Z.to_nat w = Some wp ->
  0 <= w /\ tbl_rep (b_nodes b) (ka_hash_table (w_keep_alive wp)) bs /\ ka_cnt (w_keep_alive wp) = zlen (concat bs).
Proof. intros [(wp' & Hw & Hwp & Ht & Hc) _ _ _] H'. by simplify_eq. Qed.

Lemma ka_rep_split b w bs p pc :
  ka_rep b w bs -> p ∈ concat bs -> b_clients b !! p = Some pc ->
  c_keep_alive pc <> 0 /\ 0 <= c_expires_at pc /\
  exists l1 l2, bs !! Z.to_nat (HASH_VALUE (c_expires_at pc)) = Some (l1 ++ p :: l2).
Proof.
  intros Hr Hp Hc. apply concat_lookup in Hp as (i & xs & Hi & Hp).
  destruct (kr_client _ _ _ Hr _ _ _ Hi Hp) as (pc' & n & Hc' & Hk & He & Hh & _). simplify_eq.
  split; [done|]. split; [done|]. rewrite Hh, Nat2Z.id.
  apply list_elem_of_split in Hp as (l1 & l2 & ->). eauto.
Qed.

Lemma only_ka_nodes (h h' : node_heap) (ps : list Z) l :
  links_changed h h' (KaNode <$> ps) -> (forall q, l <> KaNode q) -> h' !! l = h !! l.
Proof. intros [_ Hf] Hl. apply Hf. intros (q & -> & _)%list_elem_of_fmap. by eapply Hl. Qed.

Lemma ka_remove_ok b w wp bs p :
  ka_rep b w bs -> p ∈ concat bs -> b_workers b !! Z.to_nat w = Some wp ->
  exists h tbl, let ka := (w_keep_alive wp) <| ka_hash_table := tbl |> <| ka_cnt := zlen (concat bs) - 1 |> in
    ka_remove b w p = Ok (with_ka b h w wp ka) /\ ka_rep (with_ka b h w wp ka) w (bs_remove p bs) /\
    (forall l, (forall q, l <> KaNode q) -> h !! l = b_nodes b !! l) /\ h !! KaNode p = b_nodes b !! KaNode p /\
    (forall l, nd_p <$> h !! l = nd_p <$> b_nodes b !! l).
Proof.
  intros Hr Hp Hwp. destruct (ka_rep_worker _ _ _ _ Hr Hwp) as (Hw & Ht & Hcnt).
  pose proof Hp as (i & xs & Hi & Hpx)%concat_lookup.
  destruct (kr_client _ _ _ Hr _ _ _ Hi Hpx) as (pc & n & Hc & Hk & He & Hh & Hn & Hnp).
  destruct (ka_rep_split _ _ _ _ _ Hr Hp Hc) as (_ & _ & l1 & l2 & Hb).
  destruct (bucket_remove_ok _ _ _ _ _ _ _ Ht (kr_disjoint _ _ _ Hr) He Hb) as (h & tbl & Hrm & Ht' & Hlc & Hnp').
  exists h, tbl. cbn zeta. pose proof (zlen_bs_remove _ _ (kr_disjoint _ _ _ Hr) Hp) as Hz.
  pose proof (kr_count _ _ _ Hr). pose proof (zlen_nonneg (concat (bs_remove p bs))).
  split_and!.
  - unfold ka_remove. rewrite (get_client_ok b p pc) by done. cbn [mbind outcome_bind].
    destruct (Z.eqb_spec (c_keep_alive pc) 0); [done|].
    rewrite (node_get_ok _ _ n) by done. cbn [mbind outcome_bind]. rewrite Hnp.
    rewrite (get_worker_ok b w wp) by done. cbn [mbind outcome_bind]. rewrite Hrm. cbn [mbind outcome_bind].
    rewrite int_chk_ok by (cbn; rewrite Hcnt; unfold int_min, int_max in *; lia). cbn [mbind outcome_bind].
    rewrite (put_ka_ok b w wp) by done. cbn [mbind outcome_bind].
    rewrite ASSERT_ok by (cbn; rewrite Hcnt; apply Z.leb_le; lia). cbn. by rewrite Hcnt.
  - split.
    + eexists. split; [done|]. split; [by apply with_ka_worker|]. cbn. split; [done|]. by rewrite Hz.
    + apply bs_remove_NoDup, Hr.
    + lia.
    + intros j ys q (zs & Hj & ->)%bs_remove_lookup Hq. apply list_elem_of_filter in Hq as [_ Hq].
      eapply client_ok_same; [by eapply kr_client|done|]. cbn. apply Hlc.
  - intros l Hl. by eapply only_ka_nodes.
  - done.
  - apply Hlc.
Qed.

Lemma tbl_rep_payload h tbl bs p n :
  tbl_rep h tbl bs -> p ∉ concat bs -> tbl_rep (<[KaNode p := n]> h) tbl bs.
Proof.
  intros [Hl Hf] Hp. split; [done|]. rewrite Forall2_lookup in *. intros i. specialize (Hf i).
  destruct (bs !! i) as [xs|] eqn:Hi; inversion Hf as [hd ? Hd|]; subst; constructor.
  eapply dseg_frame; [|exact Hd]. intros l (q & -> & Hq)%list_elem_of_fmap.
  rewrite lookup_insert_ne; [done|]. intros [= <-]. apply Hp, concat_lookup. eauto.
Qed.

Lemma ka_unlink_ok b w wp bs p pc n :
  ka_rep b w bs -> zlen (concat bs) < int_max -> b_workers b !! Z.to_nat w = Some wp ->
  b_clients b !! p = Some pc -> b_nodes b !! KaNode p = Some n -> (p ∉ concat bs -> nd_p n = None) ->
  exists h ka n', ka_unlink b (w_keep_alive wp) p pc = Ok (h, ka) /\ tbl_rep h (ka_hash_table ka) (bs_remove p bs) /\
    ka_cnt ka = zlen (concat (bs_remove p bs)) + 1 /\ h !! KaNode p = Some n' /\ nd_p n' = Some (PClient p) /\
    (forall q, q <> p -> nd_p <$> h !! KaNode q = nd_p <$> b_nodes b !! KaNode q) /\
    (forall l, (forall q, l <> KaNode q) -> h !! l = b_nodes b !! l).
Proof.
  intros Hr Hmax Hwp Hc Hn Hfresh. destruct (ka_rep_worker _ _ _ _ Hr Hwp) as (Hw & Ht & Hcnt).
  pose proof (zlen_nonneg (concat bs)). unfold ka_unlink. rewrite (node_get_ok _ _ n) by done. cbn [mbind outcome_bind].
  destruct (decide (p ∈ concat bs)) as [Hp|Hp].
  - pose proof Hp as (i & xs & Hi & Hpx)%concat_lookup.
    destruct (kr_client _ _ _ Hr _ _ _ Hi Hpx) as (pc' & n' & Hc' & _ & Hex & _ & Hn' & Hnp). simplify_eq.
    destruct (ka_rep_split _ _ _ _ _ Hr Hp Hc) as (_ & _ & l1 & l2 & Hb). rewrite Hnp.
    destruct (bucket_remove_ok _ _ _ _ _ _ _ Ht (kr_disjoint _ _ _ Hr) Hex Hb) as (h & tbl & Hrm & Ht' & Hlc & Hnp').
    exists h, ((w_keep_alive wp) <| ka_hash_table := tbl |>), n. rewrite zlen_bs_remove by (done || apply Hr).
    split_and!; try done; [cbn; lia|by rewrite Hnp'|intros q Hq; apply Hlc|].
    intros l Hl. by eapply only_ka_nodes.
  - rewrite (Hfresh Hp). unfold set_p. rewrite (node_get_ok _ _ n) by done. cbn [mbind outcome_bind].
    rewrite int_chk_ok by (rewrite Hcnt; unfold int_min, int_max in *; lia). cbn [mbind outcome_bind mret outcome_ret].
    do 3 eexists. split; [done|]. rewrite bs_remove_none by done. split_and!.
    + by apply tbl_rep_payload.
    + cbn. lia.
    + by rewrite lookup_insert_eq.
    + done.
    + intros q Hq. rewrite lookup_insert_ne; [done|congruence].
    + intros l Hl. rewrite lookup_insert_ne; [done|]. intros <-. by eapply Hl.
Qed.

(** Refreshing a timeout does what the table promises: the client, new or
    already monitored, ends up monitored exactly once, in the list of the
    second [now] plus one and a half keep-alive intervals (rounded up), its
    expiry time is that second, the counter is the number of monitored
    clients, and no other client, list node or worker is affected. *)
Theorem ka_update_correct b w wp bs p pc n now :
  ka_rep b w bs -> zlen (concat bs) < int_max -> b_workers b !! Z.to_nat w = Some wp ->
  b_clients b !! p = Some pc -> b_nodes b !! KaNode p = Some n ->
  0 < c_keep_alive pc -> 0 <= now -> c_last_ka_update_at pc <> now ->
  (p ∉ concat bs -> nd_p n = None) ->
  let e := now + (c_keep_alive pc + (c_keep_alive pc + 1) / 2) in
  exists h ka, let b' := with_ka (put_client b p (pc <| c_expires_at := e |> <| c_last_ka_update_at := now |>)) h w wp ka in
    ka_update b w p now = Ok b' /\ ka_rep b' w (bs_add e p (bs_remove p bs)) /\
    (forall l, (forall q, l <> KaNode q) -> h !! l = b_nodes b !! l).
Proof.
  intros Hr Hmax Hwp Hc Hn Hk Hnow Hlast Hfresh e. destruct (ka_rep_worker _ _ _ _ Hr Hwp) as (Hw & _ & _).
  assert (0 <= e) as He by (unfold e; Z.div_mod_to_equations; lia).
  destruct (ka_unlink_ok _ _ _ _ _ _ _ Hr Hmax Hwp Hc Hn Hfresh) as (h1 & ka1 & n1 & E1 & Ht1 & Hc1 & Hn1 & Hp1 & Hq1 & Hf1).
  assert (p ∉ concat (bs_remove p bs)) as Hout by (rewrite bs_remove_elem; naive_solver).
  pose proof (bs_remove_NoDup p bs (kr_disjoint _ _ _ Hr)) as Hnd.
  destruct (bucket_insert_ok _ _ _ e p Ht1 Hnd He Hout) as (h2 & tbl & xs & Hb & E2 & Ht2 & Hlc); [by eexists|].
  pose proof (concat_bs_add _ p _ _ Hb) as Hperm.
  exists h2, (ka1 <| ka_hash_table := tbl |>). cbn zeta. split_and!.
  - unfold ka_update. rewrite (get_client_ok b p pc) by done. cbn [mbind outcome_bind].
    destruct (Z.eqb_spec (c_keep_alive pc) 0); [lia|]. destruct (Z.eqb_spec (c_last_ka_update_at pc) now); [done|].
    rewrite (get_worker_ok b w wp) by done. cbn [mbind outcome_bind]. rewrite E1. cbn [mbind outcome_bind].
    change (c_expires_at (pc <| c_expires_at := _ |>)) with e. rewrite E2. cbn [mbind outcome_bind].
    by rewrite (put_ka_ok _ w wp).
  - split.
    + eexists. split; [done|]. split; [by apply with_ka_worker|]. cbn. split; [done|].
      unfold zlen in *. rewrite (Permutation_length Hperm). cbn [length]. lia.
    + rewrite Hperm. by constructor.
    + unfold zlen in *. rewrite (Permutation_length Hperm). cbn [length].
      pose proof (length_filter (fun q => q <> p) (concat bs)) as Hlf. rewrite <- concat_bs_remove in Hlf. lia.
    + intros i ys q Hi Hq. destruct (decide (q = p)) as [->|Hne].
      * assert (i = Z.to_nat (HASH_VALUE e)) as ->.
        { unfold bs_add in Hi. rewrite list_lookup_alter in Hi. case_decide; [done|].
          exfalso. apply Hout, concat_lookup. eauto. }
        destruct (h2 !! KaNode p) as [n2|] eqn:Hn2; last first.
        { pose proof (lc_payload _ _ _ Hlc (KaNode p)) as Hl. by rewrite Hn2, Hn1 in Hl. }
        pose proof (lc_payload _ _ _ Hlc (KaNode p)) as Hl. rewrite Hn1, Hn2 in Hl. injection Hl as Hl.
        eexists _, n2. split; [by cbn; rewrite lookup_insert_eq|]. pose proof (hash_range e He).
        cbn. split_and!; try done; [lia|rewrite Z2Nat.id; lia|congruence].
      * assert (exists zs, bs_remove p bs !! i = Some zs /\ q ∈ zs) as (zs & Hz & Hqz).
        { unfold bs_add in Hi. rewrite list_lookup_alter in Hi. case_decide as Hd; [subst i|eauto].
          destruct (bs_remove p bs !! _) as [zs|]; [|done]. cbn in Hi. simplify_eq. eexists. split; [done|set_solver]. }
        apply bs_remove_lookup in Hz as (us & Hu & ->). apply list_elem_of_filter in Hqz as [_ Hqz].
        eapply client_ok_same; [by eapply kr_client|by cbn; rewrite lookup_insert_ne|].
        cbn. rewrite (lc_payload _ _ _ Hlc). by apply Hq1.
  - intros l Hl. rewrite <- Hf1 by done. by eapply only_ka_nodes.
Qed.

(** ** A round of [ka_run] with no callback set *)

Definition expiry (b : broker) (p : Z) : Z := match b_clients b !! p with Some pc => c_expires_at pc | None => 0 end.

Definition alive (b : broker) (t : Z) (ps : list Z) : list Z := filter (fun p => t < expiry b p) ps.

Lemma with_ka_id b w wp :
  b_workers b !! Z.to_nat w = Some wp -> with_ka b (b_nodes b) w wp (w_keep_alive wp) = b.
Proof.
  intros Hwp. unfold with_ka, put_worker, upd. destruct b, wp; cbn in *. by rewrite list_insert_id.
Qed.

Lemma with_ka_twice b w wp h ka h' ka' :
  with_ka (with_ka b h w wp ka) h' w (wp <| w_keep_alive := ka |>) ka' = with_ka b h' w wp ka'.
Proof. unfold with_ka, put_worker, upd. destruct b, wp; cbn. by rewrite list_insert_insert_eq. Qed.

Lemma ka_rep_with b w wp h ka bs :
  0 <= w -> b_workers b !! Z.to_nat w = Some wp ->
  tbl_rep h (ka_hash_table ka) bs -> ka_cnt ka = zlen (concat bs) -> NoDup (concat bs) -> zlen (concat bs) <= int_max ->
  (forall i xs p, bs !! i = Some xs -> p ∈ xs -> client_ok (with_ka b h w wp ka) i p) ->
  ka_rep (with_ka b h w wp ka) w bs.
Proof. intros Hw Hwp Ht Hc Hnd Hm Hok. split; try done. eexists. split; [done|]. split; [by apply with_ka_worker|]. done. Qed.

(** Only the counter of kicked clients is different. *)
Lemma ka_rep_kick b w wp h ka k bs :
  b_workers b !! Z.to_nat w = Some wp -> ka_rep (with_ka b h w wp ka) w bs ->
  ka_rep (with_ka b h w wp (ka <| ka_kick_cnt := k |>)) w bs.
Proof.
  intros Hwp Hr. pose proof (with_ka_worker b h w wp ka Hwp) as Hwp'.
  destruct (ka_rep_worker _ _ _ _ Hr Hwp') as (Hw & Ht & Hc).
  apply ka_rep_with; try done; apply Hr.
Qed.

Lemma dll_next h head (l1 : list node_addr) x l2 :
  dll (V := node_obj) h head (l1 ++ x :: l2) -> exists n, h !! x = Some n /\ nd_next n = l2 !! 0%nat.
Proof.
  intros (m & _ & Hm & n & Hn & _ & Hs)%dseg_app. exists n. split; [done|]. by apply dll_weaken, dll_head in Hs.
Qed.

Lemma ka_list_loop_ok t i rest b w wp bs kept fuel :
  ka_rep b w bs -> b_workers b !! Z.to_nat w = Some wp -> bs !! i = Some (kept ++ rest) ->
  (length rest <= fuel)%nat -> 0 <= ka_kick_cnt (w_keep_alive wp) ->
  ka_kick_cnt (w_keep_alive wp) + zlen (concat bs) <= int_max ->
  exists h ka, let bs' := <[i := kept ++ alive b t rest]> bs in
    ka_list_loop None fuel b w t ((KaNode <$> rest) !! 0%nat) = Ok (with_ka b h w wp ka) /\
    ka_rep (with_ka b h w wp ka) w bs' /\
    ka_kick_cnt ka = ka_kick_cnt (w_keep_alive wp) + (zlen (concat bs) - zlen (concat bs')) /\
    (forall l, (forall q, l <> KaNode q) -> h !! l = b_nodes b !! l) /\
    (forall l, nd_p <$> h !! l = nd_p <$> b_nodes b !! l).
Proof.
  revert b wp bs kept fuel. induction rest as [|p rest IH]; intros b wp bs kept fuel Hr Hwp Hi Hf Hk0 Hk; cbn zeta.
  { exists (b_nodes b), (w_keep_alive wp). rewrite with_ka_id by done. cbn [alive filter list_filter].
    rewrite list_insert_id by done. split_and!; [by destruct fuel|done|lia|done|done]. }
  destruct fuel as [|fuel]; cbn [length] in Hf; [lia|].
  destruct (ka_rep_worker _ _ _ _ Hr Hwp) as (Hw & Ht & Hcnt).
  destruct (tbl_lookup _ _ _ _ _ Ht Hi) as (head & Hh & Hd). rewrite fmap_app in Hd.
  destruct (dll_next _ _ _ _ _ Hd) as (n & Hn & Hnext).
  destruct (kr_client _ _ _ Hr _ _ p Hi) as (pc & n' & Hc & Hka & He & Hhash & Hn' & Hnp); [set_solver|]. simplify_eq.
  assert (expiry b p = c_expires_at pc) as Hex by (unfold expiry; by rewrite Hc).
  cbn [fmap list_fmap lookup list_lookup ka_list_loop].
  rewrite (node_get_ok _ _ n) by done. cbn [mbind outcome_bind]. rewrite Hnp. cbn [mbind outcome_bind mret outcome_ret].
  rewrite (get_client_ok b p pc) by done. cbn [mbind outcome_bind].
  destruct (Z.leb_spec (c_expires_at pc) t) as [Hle|Hgt].
  - (* expired: taken out of the list *)
    destruct (ka_remove_ok b w wp bs p Hr) as (h1 & tbl & E1 & Hr1 & Hf1 & Hp1 & Hpay1); [|done|].
    { apply concat_lookup. exists i, (kept ++ p :: rest). split; [done|set_solver]. }
    rewrite E1. cbn [mbind outcome_bind].
    assert (p ∈ concat bs) as Hpin by (apply concat_lookup; exists i, (kept ++ p :: rest); split; [done|set_solver]).
    pose proof (zlen_bs_remove _ _ (kr_disjoint _ _ _ Hr) Hpin) as Hz1. pose proof (zlen_nonneg (concat (bs_remove p bs))).
    rewrite (get_worker_ok _ w _ Hw (with_ka_worker b h1 w wp _ Hwp)). cbn [mbind outcome_bind].
    rewrite int_chk_ok by (cbn; unfold int_min, int_max in *; lia). cbn [mbind outcome_bind].
    set (ka1 := (w_keep_alive wp) <| ka_hash_table := tbl |> <| ka_cnt := zlen (concat bs) - 1 |>) in *.
    set (ka2 := ka1 <| ka_kick_cnt := ka_kick_cnt (w_keep_alive wp) + 1 |>).
    change (put_worker (with_ka b h1 w wp ka1) w _) with (with_ka (with_ka b h1 w wp ka1) h1 w (wp <| w_keep_alive := ka1 |>) ka2).
    rewrite with_ka_twice. cbn [mbind outcome_bind mret outcome_ret].
    change (b_nodes (with_ka b h1 w wp ka2)) with h1.
    rewrite (node_get_ok h1 _ n) by congruence. cbn [mbind outcome_bind]. rewrite Hnext.
    apply (ka_rep_kick _ _ _ _ _ (ka_kick_cnt (w_keep_alive wp) + 1) _ Hwp) in Hr1. fold ka2 in Hr1.
    rewrite (bs_remove_at _ _ _ _ _ (kr_disjoint _ _ _ Hr) Hi) in Hr1, Hz1.
    destruct (IH (with_ka b h1 w wp ka2) (wp <| w_keep_alive := ka2 |>) _ kept fuel Hr1) as (h & ka & E & Hr' & Hk' & Hf' & Hpay');
      [by apply with_ka_worker|by rewrite list_lookup_insert_eq by (by eapply lookup_lt_Some)|lia|..];
      change (ka_kick_cnt (w_keep_alive (wp <| w_keep_alive := ka2 |>))) with (ka_kick_cnt (w_keep_alive wp) + 1) in *; [lia|lia|].
    cbn zeta in *. rewrite with_ka_twice, list_insert_insert_eq in *. exists h, ka.
    assert (alive b t (p :: rest) = alive b t rest) as Ha.
    { unfold alive. rewrite filter_cons_False; [done|]. rewrite Hex. lia. }
    change (alive (with_ka b h1 w wp ka2)) with (alive b) in *.
    change (ka_kick_cnt (w_keep_alive (wp <| w_keep_alive := ka2 |>))) with (ka_kick_cnt (w_keep_alive wp) + 1) in Hk'.
    rewrite Ha. split_and!; [exact E|exact Hr'|lia| |].
    + intros l Hl. rewrite Hf' by done. by apply Hf1.
    + intros l. rewrite Hpay'. apply Hpay1.
  - (* not yet *)
    cbn [mbind outcome_bind mret outcome_ret]. rewrite (node_get_ok _ _ n) by done. cbn [mbind outcome_bind]. rewrite Hnext.
    rewrite cons_middle, app_assoc in Hi.
    destruct (IH b wp bs (kept ++ [p]) fuel Hr Hwp Hi) as (h & ka & E & Hr' & Hk' & Hf' & Hpay'); [lia|done|done|].
    cbn zeta in *. assert (alive b t (p :: rest) = p :: alive b t rest) as ->.
    { unfold alive. rewrite filter_cons_True; [done|]. rewrite Hex. lia. }
    rewrite <- app_assoc in *. by exists h, ka.
Qed.

(** The seconds from [i] on, [n] of them. *)
Definition sweep (b : broker) (t i : Z) (n : nat) (bs : list (list Z)) : list (list Z) :=
  foldl (fun bs j => alter (alive b t) (Z.to_nat (HASH_VALUE j)) bs) bs (seqZ i (Z.of_nat n)).

Lemma zlen_insert_alive b t bs i xs :
  bs !! i = Some xs -> zlen (concat (<[i := alive b t xs]> bs)) <= zlen (concat bs).
Proof.
  intros Hb. rewrite (concat_insert _ _ _ _ Hb), (concat_take_drop _ _ _ Hb), !zlen_app.
  assert (length (alive b t xs) <= length xs)%nat by apply length_filter. unfold zlen. lia.
Qed.

Lemma ka_time_loop_ok t n i b w wp bs :
  ka_rep b w bs -> b_workers b !! Z.to_nat w = Some wp -> 0 <= i -> 0 <= ka_kick_cnt (w_keep_alive wp) ->
  ka_kick_cnt (w_keep_alive wp) + zlen (concat bs) <= int_max ->
  exists h ka, let bs' := sweep b t i n bs in
    ka_time_loop None n b w t i = Ok (with_ka b h w wp ka) /\ ka_rep (with_ka b h w wp ka) w bs' /\
    ka_kick_cnt ka = ka_kick_cnt (w_keep_alive wp) + (zlen (concat bs) - zlen (concat bs')) /\
    (forall l, (forall q, l <> KaNode q) -> h !! l = b_nodes b !! l) /\
    (forall l, nd_p <$> h !! l = nd_p <$> b_nodes b !! l).
Proof.
  revert i b wp bs. induction n as [|n IH]; intros i b wp bs Hr Hwp Hi Hk0 Hk; cbn zeta.
  { exists (b_nodes b), (w_keep_alive wp). rewrite with_ka_id by done. split_and!; [done|done|change (sweep b t i 0 bs) with bs; lia|done|done]. }
  destruct (ka_rep_worker _ _ _ _ Hr Hwp) as (Hw & Ht & Hcnt).
  destruct (tbl_bucket _ _ _ i Ht Hi) as [xs Hb]. destruct (tbl_lookup _ _ _ _ _ Ht Hb) as (head & Hh & Hd).
  pose proof (hash_range i Hi).
  cbn [ka_time_loop]. rewrite (get_worker_ok b w wp) by done. cbn [mbind outcome_bind].
  rewrite (arr_get_ok _ _ head) by (done || lia). cbn [mbind outcome_bind].
  rewrite (dll_head _ _ _ Hd).
  destruct (ka_list_loop_ok t _ xs b w wp bs [] (size (b_nodes b)) Hr Hwp Hb) as (h & ka & E & Hr1 & Hk1 & Hf1 & Hp1); [|done|done|].
  { apply dll_size in Hd. by rewrite length_fmap in Hd. }
  cbn zeta in *. rewrite E. cbn [mbind outcome_bind app] in *.
  destruct (IH (i + 1) _ (wp <| w_keep_alive := ka |>) _ Hr1) as (h2 & ka2 & E2 & Hr2 & Hk2 & Hf2 & Hp2);
    [by apply with_ka_worker|lia|..];
    change (ka_kick_cnt (w_keep_alive (wp <| w_keep_alive := ka |>))) with (ka_kick_cnt ka) in *.
  { pose proof (zlen_insert_alive b t _ _ _ Hb). lia. }
  { pose proof (zlen_insert_alive b t _ _ _ Hb). lia. }
  cbn zeta in *. rewrite with_ka_twice in *.
  assert (sweep b t i (S n) bs = sweep b t (i + 1) n (<[Z.to_nat (HASH_VALUE i) := alive b t xs]> bs)) as Hsw.
  { unfold sweep. rewrite (seqZ_cons i) by lia. cbn [foldl]. replace (Z.pred (Z.of_nat (S n))) with (Z.of_nat n) by lia.
    f_equal. apply list_eq. intros j. rewrite list_lookup_alter.
    destruct (decide (Z.to_nat (HASH_VALUE i) = j)) as [<-|Hj].
    - rewrite list_lookup_insert_eq by (by eapply lookup_lt_Some). by rewrite Hb.
    - by rewrite list_lookup_insert_ne. }
  rewrite Hsw. exists h2, ka2. change (sweep (with_ka b h w wp ka)) with (sweep b) in *.
  split_and!; [done|done|lia| |].
  - intros l Hl. rewrite Hf2 by done. by apply Hf1.
  - intros l. rewrite Hp2. apply Hp1.
Qed.

Lemma sweep_elem b t i n bs p :
  (forall j xs q, bs !! j = Some xs -> q ∈ xs -> Z.to_nat (HASH_VALUE (expiry b q)) = j) -> 0 <= expiry b p ->
  p ∈ concat (sweep b t i n bs) <->
  p ∈ concat bs /\ (t < expiry b p \/ forall j, i <= j < i + Z.of_nat n -> Z.to_nat (HASH_VALUE j) <> Z.to_nat (HASH_VALUE (expiry b p))).
Proof.
  intros Hb He. unfold sweep. revert i bs Hb. induction n as [|n IH]; intros i bs Hb.
  { cbn. split; [|by intros []]. intros Hp. split; [done|]. right. lia. }
  rewrite (seqZ_cons i) by lia. cbn [foldl]. replace (Z.pred (Z.of_nat (S n))) with (Z.of_nat n) by lia.
  assert (forall j xs, alter (alive b t) (Z.to_nat (HASH_VALUE i)) bs !! j = Some xs ->
    exists ys, bs !! j = Some ys /\ xs = if decide (Z.to_nat (HASH_VALUE i) = j) then alive b t ys else ys) as Hl.
  { intros j xs. rewrite list_lookup_alter. case_decide as Hj; [|eauto].
    subst j. destruct (bs !! _) as [ys|]; [|done]. intros [= <-]. eauto. }
  rewrite IH.
  - rewrite !concat_lookup. split.
    + intros [(j & xs & Hj & Hp) Hor]. apply Hl in Hj as (ys & Hj & ->). case_decide as Hd.
      * apply list_elem_of_filter in Hp as [Ht Hp]. split; [eauto|by left].
      * split; [eauto|]. destruct Hor as [|Hor]; [by left|]. right. intros k Hk.
        destruct (decide (k = i)) as [->|]; [|apply Hor; lia]. by rewrite (Hb _ _ _ Hj Hp).
    + intros [(j & xs & Hj & Hp) Hor]. split.
      * exists j, (if decide (Z.to_nat (HASH_VALUE i) = j) then alive b t xs else xs). split.
        { rewrite list_lookup_alter. case_decide as Hd; [subst j; by rewrite Hj|done]. }
        case_decide as Hd; [|done]. apply list_elem_of_filter. split; [|done].
        destruct Hor as [|Hor]; [done|]. exfalso. apply (Hor i); [lia|]. by rewrite (Hb _ _ _ Hj Hp).
      * destruct Hor as [|Hor]; [by left|right]. intros k Hk. apply Hor. lia.
  - intros j xs q Hj Hq. apply Hl in Hj as (ys & Hj & ->). case_decide; [|by eapply Hb].
    apply list_elem_of_filter in Hq as [_ Hq]. by eapply Hb.
Qed.

Lemma sweep_sub b t i n bs p : p ∈ concat (sweep b t i n bs) -> p ∈ concat bs.
Proof.
  unfold sweep. generalize (seqZ i (Z.of_nat n)) bs.
  intros js. induction js as [|j js IH]; intros bs0 Hp; [done|]. cbn [foldl] in Hp. apply IH in Hp.
  apply concat_lookup in Hp as (k & xs & Hk & Hp). rewrite list_lookup_alter in Hk.
  case_decide; [subst|apply concat_lookup; eauto].
  destruct (bs0 !! _) as [ys|] eqn:Hy; [|done]. cbn in Hk. simplify_eq.
  apply list_elem_of_filter in Hp as [_ Hp]. apply concat_lookup; eauto.
Qed.

Lemma ka_rep_hash b w bs :
  ka_rep b w bs -> forall j xs q, bs !! j = Some xs -> q ∈ xs -> Z.to_nat (HASH_VALUE (expiry b q)) = j.
Proof.
  intros Hr j xs q Hj Hq. destruct (kr_client _ _ _ Hr _ _ _ Hj Hq) as (pc & n & Hc & _ & _ & Hh & _).
  unfold expiry. rewrite Hc. lia.
Qed.

(** C12. A round of [ka_run] drops exactly the clients whose time has come: if
    the clients monitored since the last round all expire after it, then after
    the round for the time [t], however many seconds and turns of the table
    have passed, a client is monitored exactly if it was and expires after
    [t]; the kick counter has grown by the number of clients dropped, and
    clients and nodes outside the table are untouched. *)
Theorem ka_run_correct b w wp bs t :
  ka_rep b w bs -> b_workers b !! Z.to_nat w = Some wp ->
  0 < b_last_t b < t -> (forall p, p ∈ concat bs -> b_last_t b < expiry b p) ->
  0 <= ka_kick_cnt (w_keep_alive wp) -> ka_kick_cnt (w_keep_alive wp) + zlen (concat bs) <= int_max ->
  exists h ka bs', let b' := (with_ka b h w wp ka) <| b_last_t := t |> in
    ka_run None b w t = Ok b' /\ ka_rep b' w bs' /\
    (forall p, p ∈ concat bs' <-> p ∈ concat bs /\ t < expiry b p) /\
    ka_kick_cnt ka = ka_kick_cnt (w_keep_alive wp) + (zlen (concat bs) - zlen (concat bs')) /\
    (forall l, (forall q, l <> KaNode q) -> h !! l = b_nodes b !! l).
Proof.
  intros Hr Hwp Ht Hlate Hk0 Hk.
  destruct (ka_time_loop_ok t (Z.to_nat (t - b_last_t b)) (b_last_t b + 1) b w wp bs Hr Hwp) as (h & ka & E & Hr' & Hk' & Hf & _);
    [lia|done|done|]. cbn zeta in *.
  exists h, ka, (sweep b t (b_last_t b + 1) (Z.to_nat (t - b_last_t b)) bs). split_and!; [| | |done|done].
  - unfold ka_run. rewrite ASSERT_ok by (apply Z.ltb_lt; lia). cbn [mbind outcome_bind].
    destruct (Z.eqb_spec (b_last_t b) t); [lia|]. destruct (Z.eqb_spec (b_last_t b) 0); [lia|].
    replace (t - (b_last_t b + 1) + 1) with (t - b_last_t b) by lia. by rewrite E.
  - by destruct Hr'.
  - intros p. split.
    + intros Hp. apply sweep_elem in Hp as [Hp Hor]; [|by eapply ka_rep_hash|].
      * split; [done|]. destruct Hor as [|Hor]; [done|]. pose proof (Hlate p Hp).
        destruct (decide (t < expiry b p)); [done|]. exfalso. apply (Hor (expiry b p)); [lia|done].
      * apply sweep_sub in Hp. pose proof (Hlate p Hp). lia.
    + intros [Hp Hlt]. apply sweep_elem; [by eapply ka_rep_hash|pose proof (Hlate p Hp); lia|]. split; [done|by left].
Qed.


(** *** Examples *)

Definition monitored_worker : worker_st :=
  (example_worker 0 1) <| w_keep_alive := mk_keep_alive 1 0 (<[14%nat := Some (KaNode 5)]> (replicate 101 None)) |>.

Definition monitored_broker : broker :=
  (put_client (put_worker example_broker 0 monitored_worker) 5
      (example_client <| c_keep_alive := 10 |> <| c_expires_at := 115 |> <| c_last_ka_update_at := 100 |>))
    <| b_nodes := {[ KaNode 5 := mk_dllist_node (Some (PClient 5)) None None ]} |> <| b_last_t := 110 |>.

Lemma tbl_rep_empty h : tbl_rep h (replicate 101 None) (replicate 101 []).
Proof.
  split; [done|]. apply Forall2_replicate. done.
Qed.

Lemma example_ka_rep : ka_rep example_broker 0 (replicate 101 []).
Proof.
  split.
  - eexists. split; [done|]. split; [done|]. split; [apply tbl_rep_empty|by vm_compute].
  - vm_compute. constructor.
  - by vm_compute.
  - intros i xs p Hi Hp. apply lookup_replicate in Hi as [-> _]. by apply not_elem_of_nil in Hp.
Qed.

Lemma monitored_ka_rep : ka_rep monitored_broker 0 (<[14%nat := [5]]> (replicate 101 [])).
Proof.
  split.
  - eexists. split; [done|]. split; [done|]. split; [|by vm_compute]. split; [by vm_compute|].
    apply Forall2_insert; [apply tbl_rep_empty|]. split; [done|]. eexists. by vm_compute.
  - vm_compute. apply NoDup_singleton.
  - by vm_compute.
  - intros i xs p Hi Hp. apply list_lookup_insert_Some in Hi as [(<- & <- & _)|(_ & Hi)].
    + apply list_elem_of_singleton in Hp as ->. do 2 eexists. by split_and!; vm_compute.
    + apply lookup_replicate in Hi as [-> _]. by apply not_elem_of_nil in Hp.
Qed.

Definition example_monitored : client_st := example_client <| c_keep_alive := 10 |>.

Definition example_w0 : worker_st :=
  (example_worker 0 1) <| w_num_clients := 1 |> <| w_clients_head := Some (ClientsNode 5) |>.

Example ka_update_correct_witness :
  let e := 100 + (c_keep_alive example_monitored + (c_keep_alive example_monitored + 1) / 2) in
  exists h ka, let b' := with_ka (put_client example_broker 5 (example_monitored
      <| c_expires_at := e |> <| c_last_ka_update_at := 100 |>)) h 0 example_w0 ka in
    ka_update example_broker 0 5 100 = Ok b' /\ ka_rep b' 0 (bs_add e 5 (bs_remove 5 (replicate 101 []))) /\
    (forall l, (forall q, l <> KaNode q) -> h !! l = b_nodes example_broker !! l).
Proof.
  apply (ka_update_correct example_broker 0 example_w0 (replicate 101 []) 5 example_monitored
    (mk_dllist_node None None None) 100 example_ka_rep).
  all: by vm_compute.
Defined.

Example ka_run_correct_witness :
  exists h ka bs', let b' := (with_ka monitored_broker h 0
      monitored_worker ka)
      <| b_last_t := 120 |> in
    ka_run None monitored_broker 0 120 = Ok b' /\ ka_rep b' 0 bs' /\
    (forall p, p ∈ concat bs' <-> p ∈ concat (<[14%nat := [5]]> (replicate 101 [])) /\ 120 < expiry monitored_broker p) /\
    ka_kick_cnt ka = ka_kick_cnt (w_keep_alive monitored_worker) + (zlen (concat (<[14%nat := [5]]> (replicate 101 []))) - zlen (concat bs')) /\
    (forall l, (forall q, l <> KaNode q) -> h !! l = b_nodes monitored_broker !! l).
Proof.
  apply (ka_run_correct monitored_broker 0
    monitored_worker (<[14%nat := [5]]> (replicate 101 [])) 120); [apply monitored_ka_rep|done|by vm_compute| |done|by vm_compute].
  intros p Hp. assert (p = 5) as -> by (vm_compute in Hp; by apply list_elem_of_singleton in Hp). by vm_compute.
Defined.

