(* ===== verification/WorkerQueue.v ===== *)
(** * Message queues and garbage collection of the workers (src/worker.c)

    A published message is put on the queue of every worker; each worker
    delivers it to its own clients and clears its [not_done] flag; the worker
    of the publisher then keeps it on its [gc_q] until every flag it looks at
    is clear, and frees it.  The callback that delivers to one subscription
    is a parameter here. *)

From S2P Require Import Prelude DList Queue MqttPacket ClientTypes Trie Subscription World.

(** ** Allocation of messages *)

(** The queue items of a fresh message. *)
Definition message_items (m : Z) : list item_addr :=
  GcNode m :: (MsgNode m <$> seqZ 0 MAX_NUM_WORKERS).

(** A message the parser or [message_create] has built, at a fresh address. *)
Definition alloc_message (b : broker) (x : message_st) : broker * Z :=
  let m := b_fresh b in
  (b <| b_fresh := m + 1 |>
     <| b_messages := <[m := x]> (b_messages b) |>
     <| b_items := foldr (fun i h => <[i := mk_queue_item None None]> h) (b_items b) (message_items m) |>, m).

Definition free_message (b : broker) (m : Z) : broker :=
  b <| b_messages := delete m (b_messages b) |>
    <| b_items := foldr delete (b_items b) (message_items m) |>.

(** [item->p = mp] *)
Definition set_item_p (h : item_heap) (l : item_addr) (m : Z) : outcome item_heap :=
  i ← item_get h l; mret (<[l := i <| qi_p := Some m |>]> h).

(** [mp->not_done[i] = v] *)
Definition set_not_done (b : broker) (m i v : Z) : outcome broker :=
  mp ← get_message b m;
  nd ← arr_set (m_not_done mp) i v;
  mret (put_message b m (mp <| m_not_done := nd |>)).

(** ** Queues *)

Definition w_message_push (b : broker) (w m : Z) : outcome broker :=
  p ← get_worker b w;
  b ← set_not_done b m (w_index p) 1;
  h ← set_item_p (b_items b) (MsgNode m (w_index p)) m;
  '(h, q) ← queue_push h (w_msg_q p) (MsgNode m (w_index p));
  mret (put_worker (b <| b_items := h |>) w (p <| w_msg_q := q |>)).

(** The message taken off the queue, if there is one. *)
Definition w_message_pop (b : broker) (w : Z) : outcome (broker * option Z) :=
  p ← get_worker b w;
  '(item, q) ← queue_pop (b_items b) (w_msg_q p);
  let b := put_worker b w (p <| w_msg_q := q |>) in
  match item with
  | None => mret (b, None)
  | Some l =>
      i ← item_get (b_items b) l;
      match qi_p i with
      | None => Undef NullDeref
      | Some m =>
          mp ← get_message b m;
          _ ← ASSERT (bool_decide (m_state mp = M_STATE_IN_USE));
          mret (b, Some m)
      end
  end.

(** [for (i = 0; i < num_workers; ++i) w_message_push(&workers[i], mp)] *)
Fixpoint push_loop (n : nat) (b : broker) (i m : Z) : outcome broker :=
  match n with
  | O => mret b
  | S n => b ← w_message_push b i m; push_loop n b (i + 1) m
  end.

Definition workers_queue_message (b : broker) (m : Z) : outcome broker :=
  mp ← get_message b m;
  _ ← ASSERT (m_dup mp <=? 1);
  push_loop (Z.to_nat (b_num_workers b)) b 0 m.

(** ** Delivery and garbage collection *)

(** [not_done |= mp->not_done[i]] over the servers. *)
Fixpoint done_loop (n : nat) (nd : list Z) (i not_done : Z) : outcome Z :=
  match n with
  | O => mret not_done
  | S n => x ← arr_get nd i; done_loop n nd (i + 1) (Z.lor not_done x)
  end.

Definition message_done (b : broker) (m : Z) : outcome bool :=
  mp ← get_message b m;
  not_done ← done_loop (Z.to_nat (cf_num_servers (b_config b))) (m_not_done mp) 0 0;
  mret (not_done =? 0).

(** One round of [w_gc]: [true] if a message was freed. *)
Definition gc_one (b : broker) (w : Z) : outcome (broker * bool) :=
  p ← get_worker b w;
  match queue_peek (w_gc_q p) with
  | None => mret (b, false)
  | Some l =>
      i ← item_get (b_items b) l;
      match qi_p i with
      | None => Undef NullDeref
      | Some m =>
          done ← message_done b m;
          if negb (done : bool) then mret (b, false)
          else
            '(_, q) ← queue_pop (b_items b) (w_gc_q p);
            let b := put_worker b w (p <| w_gc_q := q |>) in
            mp ← get_message b m;
            _ ← ASSERT (bool_decide (m_state mp = M_STATE_IN_USE));
            mret (free_message (put_message b m (mp <| m_state := M_STATE_FREE |>)) m, true)
      end
  end.

(** Run a round until it has nothing to do. *)
Fixpoint rounds (one : broker -> outcome (broker * bool)) (fuel : nat) (b : broker) : outcome broker :=
  '(b, more) ← one b;
  if (more : bool) then match fuel with O => Spin | S fuel => rounds one fuel b end else mret b.

Definition w_gc (fuel : nat) (b : broker) (w : Z) : outcome broker := rounds (fun b => gc_one b w) fuel b.

Section deliver.
Context (c_deliver : sub_key -> message_st -> broker -> outcome broker).

(** The end of the loop of [w_deliver]: the flag, and [gc_q] when the
    publisher is one of our clients. *)
Definition w_delivered (b : broker) (w m : Z) : outcome broker :=
  p ← get_worker b w;
  b ← set_not_done b m (w_index p) 0;
  mp ← get_message b m;
  cp ← get_client b (m_client mp);
  if c_worker cp =? w then
    h ← set_item_p (b_items b) (GcNode m) m;
    _ ← ASSERT (bool_decide (m_state mp = M_STATE_IN_USE));
    p ← get_worker b w;
    '(h, q) ← queue_push h (w_gc_q p) (GcNode m);
    mret (put_worker (b <| b_items := h |>) w (p <| w_gc_q := q |>))
  else mret b.

(** One round of [w_deliver]: [true] if there was a message. *)
Definition deliver_one (b : broker) (w : Z) : outcome (broker * bool) :=
  '(b, mm) ← w_message_pop b w;
  match mm with
  | None => mret (b, false)
  | Some m =>
      p ← get_worker b w;
      mp ← get_message b m;
      '(b, _) ← sub_search b_nodes c_deliver (w_subs p) mp b;
      b ← w_delivered b w m;
      mret (b, true)
  end.

Definition w_deliver (fuel : nat) (b : broker) (w : Z) : outcome broker := rounds (fun b => deliver_one b w) fuel b.
End deliver.

(** ** Other parts of worker.c that only touch the workers *)

Fixpoint count_clients (n : nat) (b : broker) (i cnt : Z) : outcome Z :=
  match n with
  | O => mret cnt
  | S n => p ← get_worker b i; count_clients n b (i + 1) (u32 (cnt + w_num_clients p))
  end.

(** The total number of connected clients. *)
Definition workers_num_clients (b : broker) : outcome Z :=
  count_clients (Z.to_nat (b_num_workers b)) b 0 0.

(** The next worker, in turn. *)
Definition w_next (b : broker) : outcome (broker * Z) :=
  if b_num_workers b =? 0 then Undef SignedOverflow
  else mret (b <| b_rr_index := (b_rr_index b + 1) mod b_num_workers b |>, b_rr_index b).

Section poll.
Context `{Sys}.

(** [epoll_ctl(EPOLL_CTL_ADD)]; a failure is only logged. *)
Definition w_poll_reg_client (b : broker) (w p : Z) : outcome broker :=
  cp ← get_client b p; mret (do_call b (Call_epoll_add w (c_sd cp))).2.

(** The descriptor passed to [EPOLL_CTL_DEL] is 0, not that of the client. *)
Definition w_poll_unreg_client (b : broker) (w p : Z) : outcome broker :=
  mret (do_call b (Call_epoll_del w 0)).2.

Definition w_add_client (b : broker) (w p : Z) : outcome broker :=
  wp ← get_worker b w;
  h ← set_p (b_nodes b) (ClientsNode p) (PClient p);
  '(h, head) ← dllist_insert_head h (w_clients_head wp) (ClientsNode p);
  n ← int_chk (w_num_clients wp + 1);
  let b := put_worker (b <| b_nodes := h |>) w (wp <| w_clients_head := head |> <| w_num_clients := n |>) in
  w_poll_reg_client b w p.

(** The subscriptions of a client that goes, taken out of the trie. *)
Fixpoint remove_subs (n : nat) (b : broker) (w p i : Z) : outcome broker :=
  match n with
  | O => mret b
  | S n =>
      cp ← get_client b p;
      sp ← arr_get (c_subscriptions cp) i;
      wp ← get_worker b w;
      '(h, subs) ← sub_remove (b_nodes b) (w_subs wp) p i (sb_filter sp);
      remove_subs n (put_worker (b <| b_nodes := h |>) w (wp <| w_subs := subs |>)) w p (i + 1)
  end.

(** The set of the client is released (src/auth/auth_fb.c). *)
Definition auth_client_destroy (cp : client_st) : client_st := cp <| c_auth_info := None |>.

(** Called by [c_unbind]. *)
Definition worker_rm_client (b : broker) (w p : Z) : outcome broker :=
  b ← w_poll_unreg_client b w p;
  cp ← get_client b p;
  b ← remove_subs (Z.to_nat (c_num_subs cp)) b w p 0;
  cp ← get_client b p;
  let b := put_client b p (auth_client_destroy (cp <| c_num_subs := 0 |>)) in
  wp ← get_worker b w;
  n ← int_chk (w_num_clients wp - 1);
  '(h, head) ← dllist_remove_ref (b_nodes b) (w_clients_head wp) (ClientsNode p);
  mret (put_worker (b <| b_nodes := h |>) w (wp <| w_clients_head := head |> <| w_num_clients := n |>)).
End poll.
