(* ===== verification/ClientSend.v ===== *)
(** * Sending, closing and the $SYS messages of a client
    (src/client.c, src/client_tls.c)

    The part of client.c that both the packet handlers and the workers use:
    publication of connect and disconnect notices, release of a client, and
    the three transports data is sent on.  Each function takes the broker and
    the address of the client; after the client has been freed an access to
    it is [Undef]. *)

From S2P Require Import Prelude DList Queue MqttPacket MqttEncode ClientTypes Trie Subscription World.
From S2P Require Import Text KeepAlive WorkerQueue.

Definition sys_connected (name client_id : list Z) : list Z :=
  lit "$SYS/brokers/"%str ++ name ++ lit "/clients/"%str ++ client_id ++ lit "/connected"%str.
Definition sys_disconnected (name client_id : list Z) : list Z :=
  lit "$SYS/brokers/"%str ++ name ++ lit "/clients/"%str ++ client_id ++ lit "/disconnected"%str.

(** The static lengths, computed once: the format less its two [%s], plus the name. *)
Definition sys_connected_len (name : list Z) : Z := zlen (sys_connected [] []) + zlen name.
Definition sys_disconnected_len (name : list Z) : Z := zlen (sys_disconnected [] []) + zlen name.

(** The size of [payload], [c_send_buf], [c_recv_buf] and the TLS buffers. *)
Definition sizeof_payload : Z := 256.
Definition sizeof_send_buf : Z := 1500.

(** ** Releasing a client *)

Definition client_nodes (p : Z) : list node_addr :=
  ClientsNode p :: KaNode p :: (SubNode p <$> seqZ 0 MAX_SUBS).

(** [free(p->ws); free(p);] *)
Definition free_client (b : broker) (p : Z) (cp : client_st) : broker :=
  b <| b_clients := delete p (b_clients b) |>
    <| b_ws := match c_ws cp with Some _ => delete p (b_ws b) | None => b_ws b end |>
    <| b_nodes := foldr delete (b_nodes b) (client_nodes p) |>.

Section send.
Context `{Libc} `{Sys}.

(** The message a notice is sent in, from the pseudo client of the worker. *)
Definition c_pub_notice (b : broker) (w topic_len : Z) (topic text : list Z) : outcome broker :=
  wp ← get_worker b w;
  let payload := snprintf_buf sizeof_payload text in
  let payload_len := zlen text in
  mp ← message_create (w_me wp) (u16 topic_len) payload_len 0 0 0 0;
  match mp with
  | None => mret b
  | Some mp =>
      t ← arr_blit (m_topic mp) 0 (topic ++ [0]);
      src ← arr_read payload payload_len;
      pl ← arr_blit (m_payload mp) 0 src;
      let '(b, m) := alloc_message b (mp <| m_topic := t |> <| m_payload := pl |>) in
      workers_queue_message b m
  end.

Definition c_pub_connected (b : broker) (p : Z) : outcome broker :=
  cp ← get_client b p;
  let name := cf_name (b_config b) in
  client_id ← c_string (c_client_id cp);
  username ← c_string (c_username cp);
  ip_address ← c_string (c_ip_address cp);
  let text := lit "{"%str ++ json_key "client_id"%str ++ quoted client_id ++
    lit ","%str ++ json_key "username"%str ++ quoted username ++
    lit ","%str ++ json_key "ip_address"%str ++ quoted ip_address ++
    lit ","%str ++ json_key "ts"%str ++ dec (c_recv_at cp) ++ lit "}"%str in
  c_pub_notice b (c_worker cp) (sys_connected_len name + c_client_id_len cp) (sys_connected name client_id) text.

Definition c_pub_disconnected (b : broker) (p : Z) (reason : list Z) : outcome broker :=
  cp ← get_client b p;
  let name := cf_name (b_config b) in
  client_id ← c_string (c_client_id cp);
  let text := lit "{"%str ++ json_key "client_id"%str ++ quoted client_id ++
    lit ","%str ++ json_key "reason"%str ++ quoted reason ++
    lit ","%str ++ json_key "ts"%str ++ dec (c_recv_at cp) ++ lit "}"%str in
  c_pub_notice b (c_worker cp) (sys_disconnected_len name + c_client_id_len cp) (sys_disconnected name client_id) text.

Definition c_unbind (b : broker) (p : Z) (reason : list Z) : outcome broker :=
  cp ← get_client b p;
  b ← (if decide (c_state cp = CLIENT_CONNECTED) then c_pub_disconnected b p reason else mret b);
  cp ← get_client b p;
  _ ← ASSERT (bool_decide (c_state cp <> CLIENT_CLOSING));
  let b := put_client b p (cp <| c_state := CLIENT_CLOSING |>) in
  b ← worker_rm_client b (c_worker cp) p;
  b ← ka_remove b (c_worker cp) p;
  cp ← get_client b p;
  mret (free_client b p cp).

Definition c_disconnect_normal (b : broker) (p : Z) (reason : list Z) : outcome broker :=
  cp ← get_client b p;
  c_unbind (do_call b (Call_close (c_sd cp))).2 p reason.

(** Disconnect if not already. *)
Definition c_disconnect (b : broker) (p : Z) (reason : list Z) : outcome broker :=
  cp ← get_client b p;
  if decide (c_state cp = CLIENT_CLOSING) then mret b
  else c_unbind (do_call b (Call_close (c_sd cp))).2 p reason.

(** ** Sending *)

(** The bytes [off] to [off + len] of a buffer. *)
Definition buf_part (buf : list Z) (off len : Z) : outcome (list Z) :=
  if (0 <=? off) && (off + len <=? zlen buf)
  then Ok (take (Z.to_nat len) (drop (Z.to_nat off) buf)) else Undef OutOfBounds.

(** [snprintf(l_reason, sizeof(l_reason), "... %d, errno %d (%s)", ...)] *)
Definition fail_reason (what : list Z) (rv : Z) (b : broker) : list Z * broker :=
  let '(e, b) := do_call b Call_errno in
  let '(s, b) := do_call b (Call_strerror (rp_int e)) in
  (c_str (snprintf_buf 128 (what ++ dec rv ++ lit ", errno "%str ++ dec (rp_int e) ++ lit " ("%str ++
             c_str (rp_bytes s) ++ lit ")"%str)), b).

(** [while (len)]; a [send] that fails closes the connection. *)
Fixpoint send_loop (fuel : nat) (b : broker) (p : Z) (buf : list Z) (off len : Z)
  : outcome (broker * Z) :=
  if len =? 0 then mret (b, off)
  else
    match fuel with
    | O => Spin
    | S fuel =>
        cp ← get_client b p;
        data ← buf_part buf off len;
        let '(r, b) := do_call b (Call_send (c_sd cp) data) in
        if rp_int r <? 0 then
          let '(reason, b) := fail_reason (lit "send error rv "%str) (rp_int r) b in
          b ← c_disconnect b p reason;
          mret (b, 0)
        else if rp_int r =? 0 then mret (b, off)
        else
          off ← int_chk (off + rp_int r);
          send_loop fuel b p buf off (u32 (len - rp_int r))
    end.

(** Send data on the wire; the number of bytes sent. *)
Definition c_send_data_wire (b : broker) (p : Z) (buf : list Z) (len_in : Z) : outcome (broker * Z) :=
  cp ← get_client b p;
  _ ← ASSERT (bool_decide (c_state cp <> CLIENT_CLOSING));
  send_loop (S (Z.to_nat len_in)) b p buf 0 len_in.

(** The results of the two sends are not looked at. *)
Definition c_send_data_ws (b : broker) (p : Z) (buf : list Z) (len : Z) : outcome (broker * Z) :=
  if len <? 65536 then
    let ws_hdr := if len <? 126 then [130; Z.land len 127]
                  else [130; 126; Z.land (Z.shiftr len 8) 255; Z.land len 255] in
    '(b, _) ← c_send_data_wire b p ws_hdr (zlen ws_hdr);
    '(b, _) ← c_send_data_wire b p buf len;
    mret (b, i32 len)
  else
    b ← c_disconnect b p (lit "c_send_data_ws too big"%str);
    mret (b, 0).

(** The [n] bytes a call has put into a buffer. *)
Definition reply_data (r : reply) (n : Z) : list Z :=
  take (Z.to_nat n) (rp_bytes r ++ replicate (Z.to_nat n) 0).

(** [do { BIO_read; send } while (rv > 0)] *)
Fixpoint tls_flush (fuel : nat) (b : broker) (p : Z) : outcome broker :=
  match fuel with
  | O => Spin
  | S fuel =>
      _ ← get_client b p;
      let '(r, b) := do_call b (Call_BIO_read p sizeof_send_buf) in
      if 0 <? rp_int r then
        '(b, _) ← c_send_data_wire b p (reply_data r (rp_int r)) (rp_int r);
        tls_flush fuel b p
      else mret b
  end.

Definition SSL_ERROR_NONE : Z := 0.
Definition SSL_ERROR_WANT_READ : Z := 2.
Definition SSL_ERROR_WANT_WRITE : Z := 3.

Definition tls_write (b : broker) (p : Z) (buf : list Z) (len : Z) : outcome (broker * Z) :=
  _ ← get_client b p;
  let '(r, b) := do_call b (Call_SSL_is_init_finished p) in
  if rp_int r =? 0 then mret (b, 0)
  else
    data ← buf_part buf 0 len;
    let '(r, b) := do_call b (Call_SSL_write p data) in
    let n := rp_int r in
    let '(e, b) := do_call b (Call_SSL_get_error p n) in
    if 0 <? n then
      b ← tls_flush loop_fuel b p;
      mret (b, n)
    else if negb (rp_int e =? SSL_ERROR_NONE) then
      b ← c_disconnect b p (lit "tls_write SSL_write"%str);
      mret (b, 0)
    else mret (b, 0).

(** [while (len)]: [buf] is not advanced between the rounds. *)
Fixpoint send_data_loop (fuel : nat) (b : broker) (p : Z) (buf : list Z) (len : Z)
  : outcome (broker * Z) :=
  if len =? 0 then mret (b, 0)
  else
    match fuel with
    | O => Spin
    | S fuel =>
        cp ← get_client b p;
        '(b, rv) ← (if truthy (c_is_tls cp) then tls_write b p buf len
                    else if truthy (c_is_ws cp) then c_send_data_ws b p buf len
                    else c_send_data_wire b p buf len);
        if rv <=? 0 then mret (b, 1)
        else send_data_loop fuel b p buf (u32 (len - rv))
    end.

(** Send all the clear text data; 0 on success. *)
Definition c_send_data (b : broker) (p : Z) (buf : list Z) (in_len : Z) : outcome (broker * Z) :=
  cp ← get_client b p;
  _ ← ASSERT (bool_decide (c_state cp <> CLIENT_CLOSING));
  send_data_loop (S (Z.to_nat in_len)) b p buf in_len.

End send.
