(* ===== verification/Auth.v ===== *)
(** * Authentication and access control (src/auth/auth_fb.c, src/set.cpp)

    Users and devices authenticate against a MySQL database, which is outside
    the program: a query and its result are calls of [Sys].  The access checks
    compare topics with patterns made from the name of the device or from the
    devices of the user. *)

From S2P Require Import Prelude MqttPacket ClientTypes World Text.

Definition MAX_QUERY_LEN : Z := 256.
Definition DEVICE_0_PASSWORD : list Z := lit "Icor6ekfmHO1"%str.

Inductive auth_access_et := AUTH_SUB | AUTH_PUB.

#[export] Instance auth_access_eq_dec : EqDecision auth_access_et.
Proof. solve_decision. Defined.

(** ** The set of topics a client may publish to (src/set.cpp)

    Its keys are pointers. *)
Definition set_create : list Z := [].
Definition set_add (m : list Z) (k : Z) : list Z := if decide (k ∈ m) then m else k :: m.
Definition set_exists (m : list Z) (k : Z) : bool := bool_decide (k ∈ m).

(** ** Queries *)

Definition query_user (name : list Z) : list Z :=
  lit "select api_token, admin, id from users where username = '"%str ++ name ++ lit "'"%str.
Definition query_device_0 (ip : list Z) : list Z :=
  lit "SELECT '"%str ++ DEVICE_0_PASSWORD ++ lit "', 0, 0 FROM production_ips WHERE address = '"%str ++ ip ++ lit "'"%str.
Definition query_device (id : list Z) : list Z :=
  lit "SELECT SUBSTR(aes_key, 1, 12), 0, 0 FROM devices WHERE id = '"%str ++ id ++ lit "';"%str.
Definition query_token (id : list Z) : list Z :=
  lit "SELECT api_token, admin, id FROM users WHERE id = "%str ++ id.
Definition query_devices (user_id : list Z) : list Z :=
  lit "SELECT device_id FROM devices_users WHERE user_id = "%str ++ user_id.

(** ** Topics *)

Definition topic_of (before : String.string) (id : list Z) (after : String.string) : list Z :=
  lit before ++ id ++ lit after.

Section auth.
Context `{Sys}.

(** [while (mysql_next_result() == 0) ;] *)
Fixpoint next_results (fuel : nat) (b : broker) : outcome broker :=
  match fuel with
  | O => Spin
  | S fuel =>
      let '(r, b) := do_call b Call_mysql_next_result in
      if rp_int r =? 0 then next_results fuel b else mret b
  end.

(** The label [cleanup]. *)
Definition mysql_cleanup (b : broker) : outcome broker :=
  next_results loop_fuel (do_call b Call_mysql_free_result).2.

(** [row[i]] as an argument of a string function. *)
Definition row_string (row : list (option (list Z))) (i : Z) : outcome (list Z) :=
  v ← arr_get row i;
  match v with Some s => mret s | None => Undef NullDeref end.

(** The query for a user name, left in the buffer of the worker, and whether
    it is that of device 0.  Another first letter leaves the old query. *)
Definition auth_query (b : broker) (w p : Z) : outcome (broker * bool) :=
  cp ← get_client b p;
  wp ← get_worker b w;
  let u := c_username cp in
  u0 ← arr_get u 0;
  let with_q s flag := mret (put_worker b w (wp <| w_auth_q := snprintf_buf MAX_QUERY_LEN s |>), flag) in
  if u0 =? 85 then
    name ← c_string (drop 2 u); with_q (query_user name) false
  else if u0 =? 68 then
    u2 ← arr_get u 2; u3 ← arr_get u 3;
    if (u2 =? 48) && (u3 =? 0) then
      ip ← c_string (c_ip_address cp); with_q (query_device_0 ip) true
    else
      id ← c_string (drop 2 u); with_q (query_device id) false
  else if u0 =? 84 then
    id ← c_string (drop 2 u); with_q (query_token id) false
  else mret (b, false).

(** The row that was found: the password, the flag and the id. *)
Definition auth_row (b : broker) (p : Z) (row : list (option (list Z))) (password : list Z)
  : outcome (broker * Z) :=
  v ← arr_get row 0;
  match v with
  | Some s =>
      pw ← c_string password;
      if bool_decide (s = pw) then
        cp ← get_client b p;
        admin ← row_string row 1;
        id ← row_string row 2;
        u ← arr_blit (c_user_id_str cp) 0 (id ++ [0]);
        mret (put_client b p (cp <| c_is_super := c_bool (bool_decide (admin = lit "1"%str)) |>
                                 <| c_user_id_str := u |>), 0)
      else mret (b, 1)
  | None => mret (b, 1)
  end.

(** 0 if a new connection is authenticated. *)
Definition auth_auth (b : broker) (w p : Z) (password : list Z) : outcome (broker * Z) :=
  cp ← get_client b p;
  let u := c_username cp in
  u0 ← arr_get u 0; u1 ← arr_get u 1; u2 ← arr_get u 2; pw0 ← arr_get password 0;
  if (u0 =? 0) || negb (u1 =? 45) || (u2 =? 0) || (pw0 =? 0) then mret (b, 1)
  else
    '(b, device_0_flag) ← auth_query b w p;
    wp ← get_worker b w;
    q ← c_string (w_auth_q wp);
    let '(r, b) := do_call b (Call_mysql_query q) in
    if truthy (rp_int r) then mret (b, 1)
    else
      let '(result, b) := do_call b Call_mysql_store_result in
      if rp_int result =? 0 then mret (b, 1)
      else
        let '(num_fields, b) := do_call b Call_mysql_num_fields in
        '(b, rv) ← (if rp_int num_fields <? 2 then mret (b, 1)
                    else match rp_rows result with
                         | row :: _ => auth_row b p row password
                         | [] => mret (b, if (device_0_flag : bool) then 0 else 1)
                         end);
        b ← mysql_cleanup b;
        mret (b, rv).

(** 0 if this authenticated user is superuser. *)
Definition auth_super (b : broker) (p : Z) : outcome Z :=
  cp ← get_client b p; mret (c_bool (negb (truthy (c_is_super cp)))).

(** [snprintf(auth->topic, size, ...)] and [mqtt_topic_matches]. *)
Definition topic_allows (size : Z) (topic filter : list Z) (filter_len : Z) : outcome bool :=
  rv ← mqtt_topic_matches (snprintf_buf size topic) filter filter_len;
  mret (truthy rv).

(** The first of the patterns that matches grants access: 0, else 1. *)
Fixpoint first_allowed (size : Z) (topics : list (list Z)) (filter : list Z) (filter_len : Z) : outcome Z :=
  match topics with
  | [] => mret 1
  | t :: topics =>
      ok ← topic_allows size t filter filter_len;
      if (ok : bool) then mret 0 else first_allowed size topics filter filter_len
  end.

(** The patterns tried for one device of a user, in order. *)
Definition device_topics (access : auth_access_et) (id : list Z) : list (list Z) :=
  match access with
  | AUTH_SUB => [topic_of "flameboss/"%str id "/send/+"%str; topic_of "flameboss/relay/"%str id "/recv"%str;
                 topic_of "flameboss/mqttr/"%str id "/send"%str]
  | AUTH_PUB => [topic_of "flameboss/"%str id "/recv"%str; topic_of "flameboss/"%str id "/recv"%str;
                 topic_of "flameboss/mqttr/"%str id "/recv"%str]
  end.

(** [while ((row = mysql_fetch_row(result)))] *)
Fixpoint acl_rows (access : auth_access_et) (rows : list (list (option (list Z)))) (filter : list Z)
    (filter_len : Z) : outcome Z :=
  match rows with
  | [] => mret 1
  | row :: rows =>
      id ← row_string row 0;
      rv ← first_allowed MAX_TOPIC_LEN (device_topics access id) filter filter_len;
      if rv =? 0 then mret 0 else acl_rows access rows filter filter_len
  end.

(** What everybody who has logged in may do. *)
Definition public_topics (access : auth_access_et) : list (list Z) :=
  match access with
  | AUTH_PUB => [lit "flameboss/relay/+"%str]
  | AUTH_SUB => [lit "flameboss/+/send/time"%str; lit "flameboss/+/send/open"%str]
  end.

Definition acl_user (b : broker) (p : Z) (access : auth_access_et) (filter : list Z) (filter_len : Z)
  : outcome (broker * Z) :=
  rv ← first_allowed MAX_QUERY_LEN (public_topics access) filter filter_len;
  if rv =? 0 then mret (b, 0)
  else
    cp ← get_client b p;
    user_id ← c_string (c_user_id_str cp);
    let q := query_devices user_id in
    if MAX_QUERY_LEN <=? zlen q then mret (b, 1)
    else
      let '(r, b) := do_call b (Call_mysql_query q) in
      if truthy (rp_int r) then mret (b, 1)
      else
        let '(result, b) := do_call b Call_mysql_store_result in
        if rp_int result =? 0 then mret (b, 1)
        else
          let '(num_fields, b) := do_call b Call_mysql_num_fields in
          rv ← (if negb (rp_int num_fields =? 1) then mret 1
                else acl_rows access (rp_rows result) filter filter_len);
          b ← mysql_cleanup b;
          mret (b, rv).

(** 0 if a subscription or publish is allowed; [fptr] is the address of [filter]. *)
Definition auth_acl (b : broker) (p : Z) (access : auth_access_et) (fptr : Z) (filter : list Z)
    (filter_len : Z) : outcome (broker * Z) :=
  cp ← get_client b p;
  if truthy (c_is_super cp) then mret (b, 0)
  else
    let '(b, cached) :=
      match access, c_auth_info cp with
      | AUTH_PUB, None => (put_client b p (cp <| c_auth_info := Some set_create |>), false)
      | AUTH_PUB, Some set => (b, set_exists set fptr)
      | AUTH_SUB, _ => (b, false)
      end in
    if (cached : bool) then mret (b, 0)
    else
      u0 ← arr_get (c_username cp) 0;
      if u0 =? 68 then
        id ← c_string (drop 2 (c_username cp));
        let topic := match access with
                     | AUTH_SUB => topic_of "flameboss/"%str id "/recv"%str
                     | AUTH_PUB => topic_of "flameboss/"%str id "/send/+"%str
                     end in
        rv ← first_allowed (MAX_TOPIC_LEN + 1) [topic] filter filter_len;
        mret (b, rv)
      else acl_user b p access filter filter_len.

End auth.
