(* ===== verification/Client.v ===== *)
(** * Client sessions (src/client.c)

    The packet handlers the parser calls, delivery to a subscription, and the
    life of a client.  The handlers are the instance of [MqttCallbacks] the
    broker runs the parser with: the client is put back into the broker before
    a handler runs and taken out again, if it is still there, afterwards. *)

From S2P Require Import Prelude DList Queue MqttPacket MqttEncode ClientTypes MqttParser Trie Subscription WsParser HttpTypes World.
From S2P Require Import Text KeepAlive WorkerQueue ClientSend Auth.

Section client.
Context `{Libc} `{Sys}.

(** The thread-local send buffer: the encoders overwrite what they use of it. *)
Definition c_send_buf : list Z := replicate (Z.to_nat sizeof_send_buf) 0.

(** [ka_update(&p->worker->keep_alive, p, p->recv_at)] *)
Definition ka_refresh (b : broker) (p : Z) : outcome broker :=
  cp ← get_client b p; ka_update b (c_worker cp) p (c_recv_at cp).

(** ** CONNECT *)

Definition on_recv_connect_h (b : broker) (p : Z) (connect_info : connect_st) : outcome (broker * Z) :=
  cp ← get_client b p;
  u0 ← arr_get (c_username cp) 0;
  '(b, ack) ←
    (if truthy (cf_allow_anonymous (b_config b)) && (u0 =? 0) then
       mret (put_client b p (cp <| c_is_super := 0 |>), 0)
     else
       '(b, rv) ← auth_auth b (c_worker cp) p (co_password connect_info);
       cp ← get_client b p;
       if truthy rv then mret (put_client b p (cp <| c_is_super := 0 |>), 5)
       else
         s ← auth_super b p;
         mret (put_client b p (cp <| c_is_super := c_bool (s =? 0) |>), 0));
  '(buf, len) ← encode_conack c_send_buf sizeof_send_buf 0 ack;
  '(b, rv) ← c_send_data b p buf len;
  if truthy rv then mret (b, 1)
  else if ack =? 0 then
    cp ← get_client b p;
    b ← c_pub_connected (put_client b p (cp <| c_state := CLIENT_CONNECTED |>)) p;
    b ← ka_refresh b p;
    mret (b, 0)
  else
    b ← c_disconnect b p (lit "auth failed"%str);
    mret (b, 0).

(** ** SUBSCRIBE and UNSUBSCRIBE *)

(** A filter of the packet; the arrays hold pointers. *)
Definition sub_filter (sub : subscribe_st) (i : Z) : outcome (list Z) :=
  f ← arr_get (su_filters sub) i;
  match f with Some s => mret s | None => Undef NullDeref end.

(** The access check of every filter: [true] when one was refused. *)
Fixpoint sub_acl_loop (n : nat) (b : broker) (p : Z) (sub : subscribe_st) (i : Z)
  : outcome (broker * bool) :=
  match n with
  | O => mret (b, false)
  | S n =>
      cp ← get_client b p;
      if negb (truthy (cf_allow_anonymous (b_config b))) && negb (truthy (c_is_super cp)) then
        f ← sub_filter sub i;
        len ← arr_get (su_filter_lengths sub) i;
        '(b, rv) ← auth_acl b p AUTH_SUB 0 f len;
        if truthy rv then mret (b, true) else sub_acl_loop n b p sub (i + 1)
      else sub_acl_loop n b p sub (i + 1)
  end.

(** [strcmp(p->subscriptions[j].filter, f) == 0] *)
Definition sub_has_filter (cp : client_st) (j : Z) (f : list Z) : outcome bool :=
  sp ← arr_get (c_subscriptions cp) j;
  match sb_filter sp with Some g => strcmp_eq g f | None => Undef NullDeref end.

(** The first subscription from [j] on that has the filter. *)
Fixpoint find_sub (n : nat) (cp : client_st) (f : list Z) (j : Z) : outcome bool :=
  match n with
  | O => mret false
  | S n =>
      eq ← sub_has_filter cp j f;
      if (eq : bool) then mret true else find_sub n cp f (j + 1)
  end.

(** The body of the subscribing loop for the filter number [i]; the granted
    QoS of a filter that is already subscribed goes to the subscription
    number [i]. *)
Definition subscribe_one (b : broker) (p : Z) (sub : subscribe_st) (i : Z) (granted_qos : list Z)
  : outcome (broker * list Z) :=
  cp ← get_client b p;
  f ← sub_filter sub i;
  qos ← arr_get (su_qos sub) i;
  let g := Z.min qos 1 in
  found ← find_sub (Z.to_nat (c_num_subs cp)) cp f 0;
  if (found : bool) then
    granted_qos ← arr_set granted_qos i g;
    sp ← arr_get (c_subscriptions cp) i;
    subs ← arr_set (c_subscriptions cp) i (sp <| sb_qos := u8 g |>);
    mret (put_client b p (cp <| c_subscriptions := subs |>), granted_qos)
  else
    let j := c_num_subs cp in
    granted_qos ← arr_set granted_qos i g;
    subs ← arr_set (c_subscriptions cp) j {| sb_client := p; sb_qos := u8 g; sb_filter := Some f |};
    wp ← get_worker b (c_worker cp);
    '(h, trie) ← sub_insert (b_nodes b) (w_subs wp) p j (Some f);
    n ← int_chk (j + 1);
    let b := put_worker (b <| b_nodes := h |>) (c_worker cp) (wp <| w_subs := trie |>) in
    mret (put_client b p (cp <| c_subscriptions := subs |> <| c_num_subs := n |>), granted_qos).

Fixpoint subscribe_loop (n : nat) (b : broker) (p : Z) (sub : subscribe_st) (i : Z) (granted_qos : list Z)
  : outcome (broker * list Z) :=
  match n with
  | O => mret (b, granted_qos)
  | S n =>
      '(b, granted_qos) ← subscribe_one b p sub i granted_qos;
      subscribe_loop n b p sub (i + 1) granted_qos
  end.

(** The array on the stack, before anything is written to it. *)
Definition stack_qos : list Z := junk_bytes MAX_SUBS.

Definition on_recv_subscribe_h (b : broker) (p : Z) (sub : subscribe_st) : outcome (broker * Z) :=
  _ ← ASSERT (su_num_filters sub <=? MAX_SUBS);
  let n := Z.to_nat (su_num_filters sub) in
  '(b, refused) ← sub_acl_loop n b p sub 0;
  if (refused : bool) then
    b ← c_disconnect b p (lit "auth sub failed"%str);
    mret (b, 1)
  else
    '(b, granted_qos) ← subscribe_loop n b p sub 0 stack_qos;
    '(buf, len) ← encode_suback c_send_buf sizeof_send_buf (su_packet_id sub) (su_num_filters sub) granted_qos;
    if len =? 0 then mret (b, 0)
    else
      '(b, rv) ← c_send_data b p buf len;
      if truthy rv then mret (b, 1)
      else b ← ka_refresh b p; mret (b, 0).

(** [p->subscriptions[k] = p->subscriptions[k+1]] for [k] from [j] on: a copy
    of the structures, list nodes included. *)
Fixpoint shift_subs (n : nat) (b : broker) (p k : Z) : outcome broker :=
  match n with
  | O => mret b
  | S n =>
      cp ← get_client b p;
      next ← arr_get (c_subscriptions cp) (k + 1);
      subs ← arr_set (c_subscriptions cp) k next;
      node ← node_get (b_nodes b) (SubNode p (k + 1));
      shift_subs n (put_client (b <| b_nodes := <[SubNode p k := node]> (b_nodes b) |>) p
                      (cp <| c_subscriptions := subs |>)) p (k + 1)
  end.

(** The loop over the subscriptions of the client; [num_subs] shrinks under it. *)
Fixpoint unsubscribe_one (fuel : nat) (b : broker) (p : Z) (f : list Z) (j : Z) : outcome broker :=
  cp ← get_client b p;
  if c_num_subs cp <=? j then mret b
  else
    match fuel with
    | O => Spin
    | S fuel =>
        eq ← sub_has_filter cp j f;
        if (eq : bool) then
          sp ← arr_get (c_subscriptions cp) j;
          wp ← get_worker b (c_worker cp);
          '(h, trie) ← sub_remove (b_nodes b) (w_subs wp) p j (sb_filter sp);
          let b := put_worker (b <| b_nodes := h |>) (c_worker cp) (wp <| w_subs := trie |>) in
          b ← shift_subs (Z.to_nat (c_num_subs cp - j)) b p j;
          cp ← get_client b p;
          unsubscribe_one fuel (put_client b p (cp <| c_num_subs := c_num_subs cp - 1 |>)) p f (j + 1)
        else unsubscribe_one fuel b p f (j + 1)
    end.

Fixpoint unsubscribe_loop (n : nat) (b : broker) (p : Z) (sub : subscribe_st) (i : Z) : outcome broker :=
  match n with
  | O => mret b
  | S n =>
      cp ← get_client b p;
      f ← sub_filter sub i;
      b ← unsubscribe_one (Z.to_nat (c_num_subs cp)) b p f 0;
      unsubscribe_loop n b p sub (i + 1)
  end.

Definition on_recv_unsubscribe_h (b : broker) (p : Z) (sub : subscribe_st) : outcome (broker * Z) :=
  _ ← ASSERT (su_num_filters sub <=? MAX_SUBS);
  b ← unsubscribe_loop (Z.to_nat (su_num_filters sub)) b p sub 0;
  '(buf, len) ← encode_unsuback c_send_buf sizeof_send_buf (su_packet_id sub);
  if len =? 0 then mret (b, 0)
  else
    '(b, rv) ← c_send_data b p buf len;
    if truthy rv then mret (b, 1)
    else b ← ka_refresh b p; mret (b, 0).

(** ** PUBLISH and PINGREQ *)

(** The acknowledgement for the QoS of the message. *)
Definition send_ack (b : broker) (p type : Z) (mp : message_st) : outcome (broker * Z) :=
  '(buf, len) ← encode_ack c_send_buf sizeof_send_buf type 0 (m_packet_id mp);
  c_send_data b p buf len.

Definition on_recv_publish_h (b : broker) (p : Z) (mp : message_st) : outcome (broker * Z) :=
  let '(b, m) := alloc_message b mp in
  cp ← get_client b p;
  '(b, refused) ←
    (if negb (truthy (cf_allow_anonymous (b_config b))) && negb (truthy (c_is_super cp)) then
       '(b, rv) ← auth_acl b p AUTH_PUB m (m_topic mp) (m_topic_len mp);
       mret (b, truthy rv)
     else mret (b, false));
  if (refused : bool) then mret (b, 0)
  else
    let mp := mp <| m_client := p |> in
    b ← workers_queue_message (put_message b m mp) m;
    '(b, rv) ← (if m_orig_qos mp =? 1 then send_ack b p (msg_type_code PUBACK) mp
                else if m_orig_qos mp =? 2 then send_ack b p (msg_type_code PUBREC) mp
                else mret (b, 0));
    if truthy rv then mret (b, 1)
    else b ← ka_refresh b p; mret (b, 0).

Definition on_recv_ping_h (b : broker) (p : Z) : outcome (broker * Z) :=
  '(b, rv) ← c_send_data b p mqtt_ping_response (zlen mqtt_ping_response);
  if truthy rv then mret (b, 1)
  else b ← ka_refresh b p; mret (b, 0).

(** ** The parser and its callbacks *)

(** Run a handler on the client the parser has in hand. *)
Definition with_client (w : broker) (c : client_st) (f : broker -> Z -> outcome (broker * Z))
  : outcome (Z * broker * option client_st) :=
  '(b, rv) ← f (put_client w (c_addr c) c) (c_addr c);
  mret (rv, b, b_clients b !! c_addr c).

#[export] Instance mqtt_parser_callbacks : MqttCallbacks broker := {|
  on_recv_connect w c co := with_client w c (fun b p => on_recv_connect_h b p co);
  on_recv_subscribe w c su := with_client w c (fun b p => on_recv_subscribe_h b p su);
  on_recv_unsubscribe w c su := with_client w c (fun b p => on_recv_unsubscribe_h b p su);
  on_recv_publish w c mp := with_client w c (fun b p => on_recv_publish_h b p mp);
  on_recv_ping w c := with_client w c on_recv_ping_h;
  MqttParser.c_disconnect_normal w c :=
    '(_, b, oc) ← with_client w c (fun b p =>
       b ← ClientSend.c_disconnect_normal b p (lit "disconnect"%str); mret (b, 0));
    mret (b, oc)
|}.

Definition c_parse (b : broker) (p : Z) (buf : list Z) : outcome broker :=
  cp ← get_client b p;
  '(rv, b, oc) ← mqtt_parser_execute (cf_allow_anonymous (b_config b)) b cp buf;
  let b := match oc with Some cp => put_client b p cp | None => b end in
  if truthy rv then c_disconnect b p (lit "mqtt parse error"%str) else mret b.

(** ** Delivery *)

(** Send a message to the subscription [k]: the client and the number. *)
Definition c_deliver (k : sub_key) (mp : message_st) (b : broker) : outcome broker :=
  cp0 ← get_client b k.1;
  sp ← arr_get (c_subscriptions cp0) k.2;
  let p := sb_client sp in
  cp ← get_client b p;
  if decide (c_state cp <> CLIENT_CONNECTED) then mret b
  else
    let qos := Z.min (m_orig_qos mp) (sb_qos sp) in
    let '(b, msg_id) :=
      if 0 <? qos then (put_client b p (cp <| c_msg_id := u16 (c_msg_id cp + 1) |>), u16 (c_msg_id cp + 1))
      else (b, 0) in
    '(buf, len) ← encode_publish c_send_buf sizeof_send_buf mp qos msg_id;
    '(b, _) ← c_send_data b p buf len;
    mret b.

(** ** A new client *)

(** [memset(cp, 0, sizeof(client_st))] *)
Definition zero_client (p : Z) : client_st :=
  mk_client p CLIENT_OPEN 0 0 None (replicate 128 0) 0 0 None
    (mk_parser (mk_header 0 0 0 0) 0 0 S_HEADER 0 (U_publish (mk_publish 0 0 (replicate 128 0) None)))
    0 0 0 (replicate 20 0) (replicate 20 0) 0 (replicate 128 0) 0
    (replicate (Z.to_nat MAX_SUBS) (mk_subscription NULL 0 None)) (replicate 128 0) None 0 0 NULL 0 0 0.

Definition alloc_client (b : broker) (cp : client_st) (p : Z) : broker :=
  b <| b_fresh := p + 1 |> <| b_clients := <[p := cp]> (b_clients b) |>
    <| b_nodes := foldr (fun l h => <[l := mk_dllist_node None None None]> h) (b_nodes b) (client_nodes p) |>.

(** The three objects of a TLS connection; 0 on success (src/client_tls.c). *)
Definition tls_open (b : broker) : broker * Z :=
  let '(rbio, b) := do_call b Call_BIO_new in
  let '(wbio, b) := do_call b Call_BIO_new in
  let '(ssl, b) := do_call b Call_SSL_new in
  (b, c_bool ((rp_int rbio =? 0) || (rp_int wbio =? 0) || (rp_int ssl =? 0))).

(** The WebSocket part of a client; 0 on success (src/client_ws.c). *)
Definition c_ws_init (b : broker) (p : Z) : outcome (broker * Z) :=
  cp ← get_client b p;
  if malloc_fails sizeof_client_ws_st then mret (b, 1)
  else
    let ws := mk_client_ws 0 0 (replicate (Z.to_nat MAX_HEADER_NAME_LEN) 0) 0
                (replicate (Z.to_nat MAX_HEADER_VALUE_LEN) 0) 0
                (replicate (Z.to_nat MAX_HEADER_VALUE_LEN) 0)
                ((http_parser_init 0 HTTP_REQUEST) <| hp_data := p |>)
                (ws_parser_init (mk_ws_parser 0 [0; 0; 0; 0] 0 0 0 0 0 S_OPCODE)) in
    mret (put_client (put_ws b p ws) p (cp <| c_ws := Some p |>), 0).

(** [inet_ntop] writes the address only if it fits. *)
Definition get_ip_str (ip : reply) (s : list Z) : list Z :=
  let text := c_str (rp_bytes ip) ++ [0] in
  if zlen text <=? zlen s then text ++ drop (length text) s else s.

(** Create a new client on the worker [w] for the server [sp]. *)
Definition c_new (b : broker) (w sp sd : Z) : outcome (broker * option Z) :=
  if malloc_fails sizeof_client_st then mret (b, None)
  else
    let p := b_fresh b in
    server ← arr_get (cf_servers (b_config b)) sp;
    let cp := (zero_client p) <| c_worker := w |> <| c_server := sp |> <| c_sd := sd |>
                <| c_is_tls := sv_is_tls server |> <| c_is_ws := sv_is_ws server |> in
    let '(ip, b) := do_call b Call_inet_ntop in
    let b := alloc_client b (cp <| c_ip_address := get_ip_str ip (c_ip_address cp) |>) p in
    let '(b, failed) := if truthy (c_is_tls cp) then tls_open b else (b, 0) in
    if truthy failed then
      cp ← get_client b p;
      mret (free_client b p cp, None)
    else
      b ← (if truthy (c_is_ws cp) then '(b, _) ← c_ws_init b p; mret b else mret b);
      cp ← get_client b p;
      mret (put_client b p (cp <| c_parser := mqtt_parser_init (c_parser cp) |>), Some p).

End client.
