(* ===== verification/ClientTls.v ===== *)
(** * TLS connections (src/client_tls.c)

    Encrypted data from the socket goes into one end of the OpenSSL object,
    clear text comes out of the other; what OpenSSL wants to send is taken
    from a memory buffer and written to the socket.  OpenSSL is outside the
    program: its functions are calls of [Sys]. *)

From S2P Require Import Prelude MqttPacket ClientTypes World Text ClientSend Client.

Section tls.
Context `{Libc} `{Sys}.

(** [do { BIO_read; send } while (n > 0)] of the handshake: every byte must
    go out.  The result is the last [n], or [None] when the client is gone. *)
Fixpoint handshake_flush (fuel : nat) (b : broker) (p : Z) : outcome (broker * bool) :=
  match fuel with
  | O => Spin
  | S fuel =>
      _ ← get_client b p;
      let '(r, b) := do_call b (Call_BIO_read p sizeof_send_buf) in
      let n := rp_int r in
      if 0 <? n then
        '(b, rv) ← c_send_data_wire b p (reply_data r n) n;
        if negb (rv =? n) then
          b ← c_disconnect b p (lit "tls_recv send error"%str);
          mret (b, false)
        else handshake_flush fuel b p
      else mret (b, true)
  end.

(** The handshake; [false] when [tls_recv] returns from it. *)
Definition tls_accept (b : broker) (p : Z) : outcome (broker * bool) :=
  _ ← get_client b p;
  let '(fin, b) := do_call b (Call_SSL_is_init_finished p) in
  if truthy (rp_int fin) then mret (b, true)
  else
    let '(n, b) := do_call b (Call_SSL_accept p) in
    let '(rv, b) := do_call b (Call_SSL_get_error p (rp_int n)) in
    '(b, go_on) ←
      (if (rp_int rv =? SSL_ERROR_WANT_WRITE) || (rp_int rv =? SSL_ERROR_WANT_READ)
       then handshake_flush loop_fuel b p
       else if negb (rp_int rv =? SSL_ERROR_NONE) then
         b ← c_disconnect b p (lit "tls_recv SSL_accept error"%str);
         mret (b, false)
       else mret (b, true));
    if negb (go_on : bool) then mret (b, false)
    else
      _ ← get_client b p;
      let '(fin, b) := do_call b (Call_SSL_is_init_finished p) in
      mret (b, truthy (rp_int fin)).

(** [do { SSL_read; c_parse } while (n > 0)]: the last result of SSL_read. *)
Fixpoint tls_read_loop (fuel : nat) (b : broker) (p : Z) : outcome (broker * Z) :=
  match fuel with
  | O => Spin
  | S fuel =>
      _ ← get_client b p;
      let '(r, b) := do_call b (Call_SSL_read p sizeof_send_buf) in
      let n := rp_int r in
      if 0 <? n then
        b ← c_parse b p (reply_data r n);
        tls_read_loop fuel b p
      else mret (b, n)
  end.

(** The renegotiation writes: the last result of BIO_read. *)
Fixpoint renegotiate_flush (fuel : nat) (b : broker) (p : Z) : outcome (broker * Z) :=
  match fuel with
  | O => Spin
  | S fuel =>
      _ ← get_client b p;
      let '(r, b) := do_call b (Call_BIO_read p sizeof_send_buf) in
      let n := rp_int r in
      if 0 <? n then
        '(b, _) ← c_send_data_wire b p (reply_data r n) n;
        renegotiate_flush fuel b p
      else mret (b, n)
  end.

Definition ssl_fine (rv : Z) : bool :=
  (rv =? SSL_ERROR_NONE) || (rv =? SSL_ERROR_WANT_WRITE) || (rv =? SSL_ERROR_WANT_READ).

(** What follows the reading; [false] when [tls_recv] returns. *)
Definition tls_after_read (b : broker) (p n : Z) : outcome (broker * bool) :=
  _ ← get_client b p;
  let '(rv, b) := do_call b (Call_SSL_get_error p n) in
  if (rp_int rv =? SSL_ERROR_WANT_WRITE) || (rp_int rv =? SSL_ERROR_WANT_READ) then
    '(b, n) ← renegotiate_flush loop_fuel b p;
    if n <? 0 then
      _ ← get_client b p;
      let '(rv, b) := do_call b (Call_SSL_get_error p n) in
      if negb (ssl_fine (rp_int rv)) then
        b ← c_disconnect b p (lit "tls_recv BIO_read wbio"%str);
        mret (b, false)
      else mret (b, true)
    else mret (b, true)
  else if negb (rp_int rv =? SSL_ERROR_NONE) then
    b ← c_disconnect b p (lit "tls_recv SSL_read"%str);
    mret (b, false)
  else mret (b, true).

(** [while (len > 0)] *)
Fixpoint tls_recv (fuel : nat) (b : broker) (p : Z) (src : list Z) : outcome broker :=
  match src with
  | [] => mret b
  | _ :: _ =>
      match fuel with
      | O => Spin
      | S fuel =>
          _ ← get_client b p;
          let '(r, b) := do_call b (Call_BIO_write p src) in
          let n := rp_int r in
          if n <=? 0 then c_disconnect b p (lit "tls_recv BIO_write rbio"%str)
          else
            '(b, go_on) ← tls_accept b p;
            if negb (go_on : bool) then mret b
            else
              '(b, n') ← tls_read_loop loop_fuel b p;
              '(b, go_on) ← tls_after_read b p n';
              if negb (go_on : bool) then mret b
              else tls_recv fuel b p (drop (Z.to_nat n) src)
      end
  end.

(** Nothing calls it. *)
Definition tls_close (b : broker) (p : Z) : broker :=
  let '(fd, b) := do_call b (Call_SSL_get_fd p) in
  let '(_, b) := do_call b (Call_close (rp_int fd)) in
  let '(_, b) := do_call b (Call_SSL_free p) in
  (do_call b Call_SSL_CTX_free).2.

End tls.
