(* ===== verification/ClientWs.v ===== *)
(** * WebSocket clients (src/client_ws.c, src/client_ws.h)

    The HTTP request that opens a WebSocket is read by http_parser, which
    calls back for the parts of the request.  After the upgrade the stream goes
    through the frame parser to the MQTT parser. *)

From S2P Require Import Prelude Base64 MqttPacket ClientTypes WsParser Text HttpTypes HttpParser World ClientSend Client.

Definition key_suffix : list Z := lit "258EAFA5-E914-47DA-95CA-C5AB0DC85B11"%str.

Definition crlf : list Z := [13; 10].

(** [sprintf(psend, switching_response, protocol)] *)
Definition switching_response (protocol : list Z) : list Z :=
  lit "HTTP/1.1 101 Switching Protocols"%str ++ crlf ++ lit "Connection: Upgrade"%str ++ crlf ++
  lit "Upgrade: websocket"%str ++ crlf ++ lit "Sec-WebSocket-Protocol: "%str ++ protocol ++ crlf ++
  lit "Sec-WebSocket-Accept: "%str.

(** ws_parser.c: the name of an error, or NULL.  Nothing calls it. *)
Definition ws_parser_error (rc : Z) : option String.string :=
  if rc =? WS_OK then Some "WS_OK"%str
  else if rc =? WS_RESERVED_BITS_SET then Some "WS_RESERVED_BITS_SET"%str
  else if rc =? WS_INVALID_OPCODE then Some "WS_INVALID_OPCODE"%str
  else if rc =? WS_INVALID_CONTINUATION then Some "WS_INVALID_CONTINUATION"%str
  else if rc =? WS_CONTROL_TOO_LONG then Some "WS_CONTROL_TOO_LONG"%str
  else if rc =? WS_NON_CANONICAL_LENGTH then Some "WS_NON_CANONICAL_LENGTH"%str
  else if rc =? WS_FRAGMENTED_CONTROL then Some "WS_FRAGMENTED_CONTROL"%str
  else None.

Section ws.
Context `{Libc} `{Sys}.

(** [cp->ws] *)
Definition client_ws (b : broker) (p : Z) : outcome client_ws_st :=
  cp ← get_client b p;
  match c_ws cp with Some _ => get_ws b p | None => Undef NullDeref end.

(** ** HTTP *)

Definition http_on_url (b : broker) (p : Z) (at_ : list Z) : outcome broker := mret b.

(** The NUL goes to the index [length], not to the end of the name. *)
Definition http_on_header_field (b : broker) (p : Z) (at_ : list Z) : outcome broker :=
  ws ← client_ws b p;
  let ws := if truthy (ws_on_header_value ws)
            then ws <| ws_http_header_name_len := 0 |> <| ws_on_header_value := 0 |> else ws in
  let length := Z.min (zlen at_) (u64 (MAX_HEADER_NAME_LEN - ws_http_header_name_len ws)) in
  src ← arr_read at_ length;
  name ← arr_blit (ws_http_header_name ws) (ws_http_header_name_len ws) src;
  name ← arr_set name length 0;
  mret (put_ws b p (ws <| ws_http_header_name := name |>
                       <| ws_http_header_name_len := ws_http_header_name_len ws + length |>)).

(** Append to a value of which [len] bytes are there: the new value and length. *)
Definition append_value (value : list Z) (len : Z) (at_ : list Z) : outcome (list Z * Z) :=
  let length := Z.min (zlen at_) (u64 (MAX_HEADER_VALUE_LEN - len - 1)) in
  src ← arr_read at_ length;
  value ← arr_blit value len src;
  value ← arr_set value (len + length) 0;
  mret (value, len + length).

Definition http_on_header_value (b : broker) (p : Z) (at_ : list Z) : outcome broker :=
  ws ← client_ws b p;
  let ws := ws <| ws_on_header_value := 1 |> in
  name ← c_string (ws_http_header_name ws);
  if bool_decide (name = lit "Sec-WebSocket-Key"%str) then
    '(v, len) ← append_value (ws_http_sec_ws_key ws) (ws_http_sec_ws_key_len ws) at_;
    mret (put_ws b p (ws <| ws_http_sec_ws_key := v |> <| ws_http_sec_ws_key_len := len |>))
  else if bool_decide (name = lit "Sec-WebSocket-Protocol"%str) then
    '(v, len) ← append_value (ws_http_sec_ws_protocol ws) (ws_http_sec_ws_protocol_len ws) at_;
    mret (put_ws b p (ws <| ws_http_sec_ws_protocol := v |> <| ws_http_sec_ws_protocol_len := len |>))
  else mret (put_ws b p ws).

(** The response to an upgrade request, in the send buffer: the buffer and
    the number of bytes to send. *)
Definition ws_response (protocol hash_buf : list Z) : outcome (list Z * Z) :=
  let text := switching_response protocol in
  let b64_hash_len := BASE64_OUTPUT_LEN 20 in
  buf ← arr_blit c_send_buf 0 (text ++ [0]);
  out ← b64_encode hash_buf 20 (drop (length text) buf);
  buf ← arr_blit (take (length text) buf ++ out) (zlen text + b64_hash_len) (crlf ++ crlf);
  mret (buf, zlen text + b64_hash_len + 4).

Definition http_on_message_complete (b : broker) (p upgrade : Z) : outcome broker :=
  if truthy upgrade then
    ws ← client_ws b p;
    protocol ← c_string (ws_http_sec_ws_protocol ws);
    key ← arr_read (ws_http_sec_ws_key ws) (ws_http_sec_ws_key_len ws);
    let '(hash, b) := do_call b (Call_SHA1 (key ++ key_suffix)) in
    '(buf, len) ← ws_response protocol (reply_data hash 20);
    '(b, _) ← c_send_data_wire b p buf len;
    mret b
  else c_disconnect b p (lit "non-upgrade http request"%str).

(** Every callback returns 0.  The parser is part of the client. *)
Definition http_returns (b : broker) (parser : http_parser) : outcome (Z * broker * option http_parser) :=
  mret (0, b, if bool_decide (is_Some (b_ws b !! hp_data parser)) then Some parser else None).

Definition http_settings : HttpCallbacks broker := {|
  cb_message_begin := None;
  cb_url := Some (fun b parser at_ => b ← http_on_url b (hp_data parser) at_; http_returns b parser);
  cb_status := None;
  cb_header_field := Some (fun b parser at_ => b ← http_on_header_field b (hp_data parser) at_; http_returns b parser);
  cb_header_value := Some (fun b parser at_ => b ← http_on_header_value b (hp_data parser) at_; http_returns b parser);
  cb_headers_complete := None;
  cb_body := None;
  cb_message_complete := Some (fun b parser =>
    b ← http_on_message_complete b (hp_data parser) (hp_upgrade parser); http_returns b parser);
  cb_chunk_header := None;
  cb_chunk_complete := None
|}.

(** The call of [http_parser_execute]: the parser it leaves is that of the client. *)
Definition ws_recv_http (b : broker) (p : Z) (data : list Z) : outcome (broker * Z) :=
  ws ← get_ws b p;
  '(n, parser, b) ← @http_parser_execute broker http_settings (ws_http_parser ws) b data;
  ws ← get_ws b p;
  mret (put_ws b p (ws <| ws_http_parser := parser |>), i32 n).

(** ** Frames *)

(** The callbacks for the client [p]; only payload of data frames matters. *)
Definition ws_callbacks (p : Z) : WsCallbacks broker := {|
  on_data_begin b _ := Ok (0, b, true);
  on_data_payload b data :=
    b ← c_parse b p data; mret (0, b, bool_decide (is_Some (b_clients b !! p)));
  on_data_end b := Ok (0, b, true);
  on_control_begin b _ := Ok (0, b, true);
  on_control_payload b _ := Ok (0, b, true);
  on_control_end b := Ok (0, b, true)
|}.

(** The result of [ws_parser_execute] is not looked at. *)
Definition ws_recv_frames (b : broker) (p : Z) (data : list Z) : outcome broker :=
  ws ← get_ws b p;
  '(_, wsp, b) ← @ws_parser_execute broker (ws_callbacks p) (ws_ws_parser ws) b data;
  match wsp with
  | Some wsp => ws ← get_ws b p; mret (put_ws b p (ws <| ws_ws_parser := wsp |>))
  | None => mret b
  end.

Definition c_ws_recv (b : broker) (p : Z) (data : list Z) : outcome broker :=
  ws ← client_ws b p;
  '(b, nparsed) ← (if truthy (hp_upgrade (ws_http_parser ws)) then mret (b, 0)
                   else ws_recv_http b p data);
  ws ← get_ws b p;
  if truthy (hp_upgrade (ws_http_parser ws)) then
    if negb (zlen data - nparsed =? 0) then
      rest ← buf_part data nparsed (zlen data - nparsed);
      ws_recv_frames b p rest
    else mret b
  else if negb (nparsed =? zlen data) then c_disconnect b p (lit "http_parser_execute"%str)
  else mret b.

End ws.
