(* ===== verification/Config.v ===== *)
(** * Configuration (src/config.c, src/main.c)

    The configuration file is read by libconfig, which is outside the
    program: [LibConfig] is what its lookups return.  Every lookup leaves the
    variable it is given alone when the setting is missing, so that a
    variable without an initial value stays uninitialised. *)

From S2P Require Import Prelude MqttPacket ClientTypes World Text.

(** The lookups in the file: by name, and in an element of a list. *)
Class LibConfig := {
  config_read_file : list Z -> bool;
  config_lookup_string : String.string -> option (list Z);
  config_lookup_int : String.string -> option Z;
  config_lookup_bool : String.string -> option Z;
  config_list_length : String.string -> option nat;
  config_elem_int : String.string -> nat -> String.string -> option Z;
  config_elem_bool : String.string -> nat -> String.string -> option Z
}.

(** log.h *)
Inductive log_level_et := LOG_DEBUG | LOG_INFO | LOG_WARN | LOG_ERROR.

#[export] Instance log_level_eq_dec : EqDecision log_level_et.
Proof. solve_decision. Defined.

(** The static object: all zero. *)
Definition config_zero : config_st :=
  mk_config 0 None None [] 0 0 (replicate (Z.to_nat MAX_NUM_SERVERS) (mk_server 0 0 0 0 0)).

Definition set_server (c : config_st) (i : Z) (f : server_st -> server_st) : outcome config_st :=
  sp ← arr_get (cf_servers c) i;
  servers ← arr_set (cf_servers c) i (f sp);
  mret (c <| cf_servers := servers |>).

Definition fb_config_init (c : config_st) : outcome config_st :=
  set_server (c <| cf_name := lit "fb-broker"%str |> <| cf_num_workers := DEFAULT_NUM_WORKERS |>
                <| cf_num_servers := 1 |>) 0
    (fun sp => sp <| sv_port := 1883 |> <| sv_is_tls := 0 |>).

Section file.
Context `{LibConfig}.

(** [log_level]; the variable it is read into has no initial value. *)
Definition config_log_level : outcome log_level_et :=
  match config_lookup_string "log_level"%str with
  | None => Undef Uninitialised
  | Some s =>
      mret (if bool_decide (s = lit "error"%str) then LOG_ERROR
            else if bool_decide (s = lit "warn"%str) then LOG_WARN
            else if bool_decide (s = lit "debug"%str) then LOG_DEBUG
            else LOG_INFO)
  end.

(** The arguments of [log_init]. *)
Definition config_log : outcome (list Z * log_level_et * Z) :=
  level ← config_log_level;
  match config_lookup_string "log_file"%str, config_lookup_bool "log_time"%str with
  | Some log_file_name, Some log_time => mret (log_file_name, level, log_time)
  | _, _ => Undef Uninitialised
  end.

(** The server number [i]: the defaults, then what the file says. *)
Definition config_server (i : nat) (sp : server_st) : server_st :=
  sp <| sv_port := default 1883 (config_elem_int "servers"%str i "port"%str) |>
     <| sv_backlog := default 100 (config_elem_int "servers"%str i "backlog"%str) |>
     <| sv_is_tls := default 0 (config_elem_bool "servers"%str i "tls"%str) |>
     <| sv_is_ws := default 0 (config_elem_bool "servers"%str i "ws"%str) |>.

Fixpoint config_servers (n : nat) (c : config_st) (i : nat) : outcome config_st :=
  match n with
  | O => mret c
  | S n =>
      c ← set_server c (Z.of_nat i) (config_server i);
      config_servers n c (S i)
  end.

(** What is read after [log_init]. *)
Definition config_rest (c : config_st) : outcome config_st :=
  let c := c <| cf_allow_anonymous := default 0 (config_lookup_bool "allow_anonymous"%str) |>
             <| cf_num_workers := default (cf_num_workers c) (config_lookup_int "workers"%str) |> in
  let c := match config_lookup_string "tls_file_key"%str with
           | Some s => c <| cf_tls_file_key := Some s |> <| cf_tls_file_crt := Some s |>
           | None => c
           end in
  match config_list_length "servers"%str with
  | Some n => config_servers n (c <| cf_num_servers := u32 (Z.of_nat n) |>) 0
  | None => mret c
  end.

Definition fb_config_file (c : config_st) (config_file : list Z)
  : outcome (config_st * (list Z * log_level_et * Z)) :=
  if negb (config_read_file config_file) then Halt
  else
    log ← config_log;
    c ← config_rest c;
    mret (c, log).

(** What [main] does with the configuration. *)
Definition main_config (config_file : list Z) : outcome (config_st * (list Z * log_level_et * Z)) :=
  c ← fb_config_init config_zero;
  let c := if cf_num_servers c =? 0 then c <| cf_num_servers := 1 |> else c in
  fb_config_file c config_file.

End file.

(** ** What is configured *)

Section read.
Context `{LibConfig}.

Lemma set_server_ok c i f sp :
  cf_servers c !! i = Some sp -> set_server c (Z.of_nat i) f = Ok (c <| cf_servers := <[i := f sp]> (cf_servers c) |>).
Proof.
  intros Hi. unfold set_server. rewrite (arr_get_ok _ _ sp) by (rewrite ?Nat2Z.id; done || lia). cbn [mbind outcome_bind].
  rewrite arr_set_ok by (apply lookup_lt_Some in Hi; unfold zlen; lia). cbn [mbind outcome_bind mret outcome_ret].
  by rewrite Nat2Z.id.
Qed.

Lemma set_server_none c i f : (length (cf_servers c) <= i)%nat -> set_server c (Z.of_nat i) f = Undef OutOfBounds.
Proof.
  intros Hi. unfold set_server, arr_get. destruct (Z.ltb_spec (Z.of_nat i) 0); [done|].
  rewrite Nat2Z.id, lookup_ge_None_2 by done. done.
Qed.

Lemma config_servers_ok n : forall c i,
  (i + n <= length (cf_servers c))%nat ->
  exists servers, config_servers n c i = Ok (c <| cf_servers := servers |>) /\
    (forall j, servers !! j = if decide (i <= j < i + n)%nat then config_server j <$> cf_servers c !! j else cf_servers c !! j).
Proof.
  induction n as [|n IH]; intros c i Hn; cbn [config_servers].
  - exists (cf_servers c). split; [by destruct c|]. intros j. rewrite decide_False by lia. done.
  - destruct (lookup_lt_is_Some_2 (cf_servers c) i) as [sp Hsp]; [lia|].
    rewrite (set_server_ok _ _ _ sp) by done. cbn [mbind outcome_bind].
    destruct (IH (c <| cf_servers := <[i := config_server i sp]> (cf_servers c) |>) (S i)) as (servers & -> & Hs).
    { change (S i + n <= length (<[i := config_server i sp]> (cf_servers c)))%nat. rewrite length_insert. lia. }
    exists servers. split; [done|]. intros j. rewrite Hs.
    change (cf_servers (c <| cf_servers := <[i := config_server i sp]> (cf_servers c) |>)) with (<[i := config_server i sp]> (cf_servers c)).
    destruct (decide (i = j)) as [<-|Hne].
    + rewrite decide_False, decide_True by lia. rewrite list_lookup_insert_eq by lia. by rewrite Hsp.
    + rewrite list_lookup_insert_ne by done. destruct (decide (S i <= j < S i + n)%nat), (decide (i <= j < i + S n)%nat); done || lia.
Qed.

Lemma config_servers_over n : forall c i,
  (i <= length (cf_servers c) < i + n)%nat -> config_servers n c i = Undef OutOfBounds.
Proof.
  induction n as [|n IH]; intros c i Hn; cbn [config_servers]; [lia|].
  destruct (decide (i = length (cf_servers c))) as [->|Hne]; [by rewrite set_server_none|].
  destruct (lookup_lt_is_Some_2 (cf_servers c) i) as [sp Hsp]; [lia|].
  rewrite (set_server_ok _ _ _ sp) by done. cbn [mbind outcome_bind]. apply IH.
  change (S i <= length (<[i := config_server i sp]> (cf_servers c)) < S i + n)%nat. rewrite length_insert. lia.
Qed.

(** The server [i] of the file. *)
Definition server_read (i : nat) : server_st :=
  mk_server (default 1883 (config_elem_int "servers"%str i "port"%str)) (default 0 (config_elem_bool "servers"%str i "tls"%str))
    (default 0 (config_elem_bool "servers"%str i "ws"%str)) (default 100 (config_elem_int "servers"%str i "backlog"%str)) 0.
End read.

(** C34. With a file that names the log settings and lists servers, the
    configuration is that of the file, with the defaults of the code for what
    it leaves out, as long as there are at most four servers, and the list
    overruns its array when there are more; the certificate file is always the
    key file. *)
Theorem configuration_read `{LibConfig} config_file log n :
  config_read_file config_file = true -> config_log = Ok log -> config_list_length "servers"%str = Some n ->
  ((n <= 4)%nat -> exists c, main_config config_file = Ok (c, log) /\
     cf_num_servers c = Z.of_nat n /\ (forall i, (i < n)%nat -> cf_servers c !! i = Some (server_read i)) /\
     cf_num_workers c = default 2 (config_lookup_int "workers"%str) /\
     cf_allow_anonymous c = default 0 (config_lookup_bool "allow_anonymous"%str) /\
     cf_tls_file_key c = config_lookup_string "tls_file_key"%str /\ cf_tls_file_crt c = cf_tls_file_key c) /\
  ((4 < n)%nat -> main_config config_file = Undef OutOfBounds).
Proof.
  intros Hf Hlog Hn. unfold main_config, fb_config_file. rewrite Hf, Hlog.
  change (fb_config_init config_zero) with (Ok (mk_config 0 None None (lit "fb-broker"%str) 2 1
    (mk_server 1883 0 0 0 0 :: replicate 3 (mk_server 0 0 0 0 0)))).
  cbn [mbind outcome_bind negb]. change (cf_num_servers _ =? 0) with false. cbn iota.
  unfold config_rest. rewrite Hn. set (c := _ <| cf_num_servers := _ |>).
  assert (cf_servers c = mk_server 1883 0 0 0 0 :: replicate 3 (mk_server 0 0 0 0 0)) as Hs
    by (unfold c; by destruct (config_lookup_string "tls_file_key"%str)).
  split; intros Hle.
  - destruct (config_servers_ok n c 0) as (servers & -> & Hservers); [by rewrite Hs|]. cbn [mbind outcome_bind mret outcome_ret].
    eexists. split; [reflexivity|]. split; [change (u32 (Z.of_nat n) = Z.of_nat n); apply u32_small; lia|]. split.
    + intros i Hi. change (servers !! i = Some (server_read i)). rewrite Hservers, decide_True by lia. rewrite Hs.
      destruct i as [|[|[|[|i]]]]; [done..|lia].
    + unfold c. by destruct (config_lookup_string "tls_file_key"%str).
  - rewrite config_servers_over; [done|]. rewrite Hs. cbn [length replicate]. lia.
Qed.

(** *** Example *)

(** The file that is given: two servers, the second a WebSocket server. *)
Definition demo_config : LibConfig := {|
  config_read_file _ := true;
  config_lookup_string s :=
    if decide (s = "log_level"%str) then Some (lit "info"%str)
    else if decide (s = "log_file"%str) then Some (lit "broker.log"%str)
    else if decide (s = "tls_file_key"%str) then Some (lit "key.pem"%str) else None;
  config_lookup_int _ := None;
  config_lookup_bool s := if decide (s = "log_time"%str) then Some 1 else None;
  config_list_length _ := Some 2%nat;
  config_elem_int _ i s := if decide (s = "port"%str) then Some (1883 + Z.of_nat i) else None;
  config_elem_bool _ i s := if decide (s = "ws"%str) then Some (Z.of_nat i) else None
|}.

Example configuration_read_witness :
  exists c, @main_config demo_config (lit "broker.cfg"%str) = Ok (c, (lit "broker.log"%str, LOG_INFO, 1)) /\
    cf_num_servers c = 2 /\ (forall i, (i < 2)%nat -> cf_servers c !! i = Some (@server_read demo_config i)) /\
    cf_num_workers c = 2 /\ cf_allow_anonymous c = 0 /\
    cf_tls_file_key c = Some (lit "key.pem"%str) /\ cf_tls_file_crt c = cf_tls_file_key c.
Proof.
  refine (proj1 (@configuration_read demo_config (lit "broker.cfg"%str) (lit "broker.log"%str, LOG_INFO, 1) 2 eq_refl _ eq_refl) _).
  - reflexivity.
  - lia.
Defined.
