(* ===== verification/Worker.v ===== *)
(** * Workers and servers (src/worker.c, src/worker_epoll.c, src/server.c,
    and the receiving half of src/client.c)

    One round of a worker: the sockets that are ready are read, queued
    messages are delivered, garbage messages freed and idle clients looked
    for.  The server thread accepts connections and hands them to the workers
    in turn.  A client's socket ends in [c_recv], which feeds the TLS, the
    WebSocket or the MQTT layer. *)

From S2P Require Import Prelude DList Queue MqttPacket ClientTypes MqttParser Trie Subscription WsParser World.
From S2P Require Import Text KeepAlive WorkerQueue ClientSend Auth Client ClientTls ClientWs Config.

Definition EAGAIN : Z := 11.
Definition SSL_FILETYPE_PEM : Z := 1.
Definition O_NONBLOCK : Z := 2048.
Definition W_MAX_EVENTS : Z := 4096.

Section worker.
Context `{Libc} `{Sys} `{LibConfig}.

(** ** Receiving (client.c) *)

(** Read from the socket: -1, or the number of bytes and the bytes. *)
Definition c_recv_wire (b : broker) (p len : Z) : outcome (broker * Z * list Z) :=
  cp ← get_client b p;
  let '(r, b) := do_call b (Call_recv (c_sd cp) len) in
  let rv := rp_int r in
  let '(failed, b) :=
    if rv =? 0 then (true, b)
    else if rv <? 0 then
      let '(e, b) := do_call b Call_errno in (negb (rp_int e =? EAGAIN), b)
    else (false, b) in
  if (failed : bool) then
    let '(reason, b) := fail_reason (lit "recv failed rv "%str) rv b in
    b ← c_disconnect b p reason;
    mret (b, -1, [])
  else mret (b, rv, reply_data r rv).

(** Called by the worker when the socket is ready to read. *)
Definition c_recv (b : broker) (p : Z) : outcome broker :=
  cp ← get_client b p;
  if negb (truthy (c_recv_ready cp)) then mret b
  else
    let b := put_client b p (cp <| c_recv_ready := 0 |>) in
    '(b, rv, buf) ← c_recv_wire b p sizeof_send_buf;
    if rv <=? 0 then mret b
    else if truthy (c_is_tls cp) then tls_recv (S (length buf)) b p buf
    else if truthy (c_is_ws cp) then c_ws_recv b p buf
    else c_parse b p buf.

(** ** Polling (worker_epoll.c) *)

(** The events: the clients registered with the sockets that are ready. *)
Fixpoint w_events (b : broker) (events : list Z) : outcome broker :=
  match events with
  | [] => mret b
  | p :: events =>
      cp ← get_client b p;
      b ← c_recv (put_client b p (cp <| c_recv_ready := 1 |>)) p;
      w_events b events
  end.

(** [epoll_wait] returns their number and, as bytes of the reply, which. *)
Definition w_poll (b : broker) (w : Z) : outcome broker :=
  let '(r, b) := do_call b (Call_epoll_wait w) in
  w_events b (take (Z.to_nat (Z.min (rp_int r) W_MAX_EVENTS)) (rp_bytes r)).

(** A failure is only logged. *)
Definition w_poll_init (b : broker) (w : Z) : broker := (do_call b (Call_epoll_create w)).2.

(** ** Starting a worker (worker.c, client_tls.c, auth_fb.c) *)

Definition tls_init (b : broker) : outcome broker :=
  let '(ctx, b) := do_call b Call_SSL_CTX_new in
  if rp_int ctx =? 0 then Halt
  else
    let '(rv, b) := do_call b (Call_SSL_CTX_use_certificate_file (cf_tls_file_crt (b_config b))) in
    if rp_int rv <=? 0 then Halt
    else
      let '(rv, b) := do_call b (Call_SSL_CTX_use_PrivateKey_file (cf_tls_file_key (b_config b))) in
      if rp_int rv <=? 0 then Halt else mret b.

(** Nothing calls it: [tls_init] makes the context. *)
Definition create_context (b : broker) : outcome (broker * Z) :=
  let '(ctx, b) := do_call b Call_SSL_CTX_new in
  if rp_int ctx =? 0 then Halt else mret (b, rp_int ctx).

(** The database connection of the worker; its query buffer is not cleared. *)
Definition auth_thread_init (b : broker) (w : Z) : outcome broker :=
  if malloc_fails MAX_QUERY_LEN then Halt
  else
    let port := default 3306 (config_lookup_int "auth_mysql_port"%str) in
    let '(rv, b) := do_call b
      (Call_mysql_real_connect (config_lookup_string "auth_mysql_host"%str)
         (config_lookup_string "auth_mysql_user"%str) (config_lookup_string "auth_mysql_password"%str)
         (config_lookup_string "auth_mysql_database"%str) port
         (config_lookup_string "auth_mysql_socket"%str)) in
    if rp_int rv =? 0 then Halt
    else
      wp ← get_worker b w;
      mret (put_worker b w (wp <| w_auth_q := junk_bytes MAX_QUERY_LEN |>)).

Definition w_run_init (b : broker) (w : Z) : outcome broker :=
  b ← tls_init b;
  b ← auth_thread_init b w;
  mret (w_poll_init b w).

(** One round of the endless loop. *)
Definition w_run_round (b : broker) (w : Z) : outcome broker :=
  b ← w_poll b w;
  b ← w_deliver c_deliver loop_fuel b w;
  b ← w_gc loop_fuel b w;
  let '(t, b) := do_call b Call_time in
  ka_run None b w (rp_int t).

Fixpoint w_run_rounds (n : nat) (b : broker) (w : Z) : outcome broker :=
  match n with
  | O => mret b
  | S n => b ← w_run_round b w; w_run_rounds n b w
  end.

(** The loop never ends: what it has done after [n] rounds. *)
Definition w_run (n : nat) (b : broker) (w : Z) : outcome broker :=
  b ← w_run_init b w;
  w_run_rounds n b w.

Definition start_in_new_thread := w_run.

(** [sprintf] into a name of 32 bytes. *)
Definition queue_name (i : Z) (suffix : String.string) : outcome (list Z) :=
  name ← arr_blit (replicate 32 0) 0 (lit "worker:"%str ++ dec i ++ lit suffix ++ [0]);
  mret (c_str name).

(** Queues, pseudo client, thread.  The pseudo client has no worker. *)
Definition w_start (b : broker) (w : Z) : outcome broker :=
  wp ← get_worker b w;
  msg_q_name ← queue_name (w_index wp) ":msg_q"%str;
  gc_q_name ← queue_name (w_index wp) ":gc_q"%str;
  if malloc_fails sizeof_client_st then Undef NullDeref
  else
    let me := b_fresh b in
    let client_id := cf_name (b_config b) ++ lit ":worker:"%str ++ dec (w_index wp) in
    id ← arr_blit (c_client_id (zero_client me)) 0 (client_id ++ [0]);
    let b := alloc_client b ((zero_client me) <| c_client_id := id |> <| c_client_id_len := zlen client_id |>) me in
    let b := put_worker b w (wp <| w_msg_q := queue_init msg_q_name |> <| w_gc_q := queue_init gc_q_name |>
                                <| w_me := me |>) in
    let '(rv, b) := do_call b (Call_pthread_create w) in
    if truthy (rp_int rv) then Halt else mret b.

Fixpoint workers_loop (n : nat) (b : broker) (i : Z) : outcome broker :=
  match n with
  | O => mret b
  | S n =>
      wp ← get_worker b i;
      b ← w_start (put_worker b i (wp <| w_index := i |>)) i;
      workers_loop n b (i + 1)
  end.

Definition workers_init (b : broker) (nw : Z) : outcome broker :=
  let b := (do_call b Call_mysql_library_init).2 <| b_num_workers := nw |> in
  workers_loop (Z.to_nat nw) b 0.

(** ** Connections (worker.c, server.c) *)

Definition workers_add_client (b : broker) (sp sd : Z) : outcome broker :=
  '(b, w) ← w_next b;
  '(b, cp) ← c_new b w sp sd;
  match cp with
  | Some p => w_add_client b w p
  | None => mret b
  end.

Definition poll_server_socket (b : broker) (i : Z) : outcome (broker * bool) :=
  sp ← arr_get (cf_servers (b_config b)) i;
  let '(csd, b) := do_call b (Call_accept (sv_sd sp)) in
  if rp_int csd =? -1 then
    let '(e, b) := do_call b Call_errno in
    if rp_int e =? EAGAIN then mret (b, false) else Halt
  else
    b ← workers_add_client b i (rp_int csd);
    mret (b, true).

Fixpoint poll_servers (n : nat) (b : broker) (i : Z) (busy : bool) : outcome (broker * bool) :=
  match n with
  | O => mret (b, busy)
  | S n =>
      '(b, rv) ← poll_server_socket b i;
      poll_servers n b (i + 1) (busy || rv)
  end.

(** One round of [servers_run]. *)
Definition servers_round (b : broker) : outcome broker :=
  '(b, busy) ← poll_servers (Z.to_nat (cf_num_servers (b_config b))) b 0 false;
  mret (if (busy : bool) then b else (do_call b (Call_usleep 100000)).2).

(** [servers_run] after [n] rounds of its endless loop. *)
Fixpoint servers_run (n : nat) (b : broker) : outcome broker :=
  match n with
  | O => mret b
  | S n => b ← servers_round b; servers_run n b
  end.

(** [assert]: a failure stops the process. *)
Definition open_server_socket (b : broker) (sp : server_st) : outcome (broker * Z) :=
  let '(sd, b) := do_call b Call_socket in
  let sd := rp_int sd in
  _ ← ASSERT (0 <=? sd);
  let '(_, b) := do_call b (Call_setsockopt sd TCP_NODELAY) in
  let '(_, b) := do_call b (Call_setsockopt sd SO_REUSEADDR) in
  let '(rv, b) := do_call b (Call_bind sd (u16 (sv_port sp))) in
  if truthy (rp_int rv) then Halt
  else
    let '(rv, b) := do_call b (Call_listen sd (sv_backlog sp)) in
    _ ← ASSERT (rp_int rv =? 0);
    let '(rv, b) := do_call b (Call_fcntl_getfl sd) in
    let '(rv, b) := do_call b (Call_fcntl_setfl sd (Z.lor (rp_int rv) O_NONBLOCK)) in
    _ ← ASSERT (rp_int rv =? 0);
    mret (b, sd).

Fixpoint open_servers (n : nat) (b : broker) (i : Z) : outcome broker :=
  match n with
  | O => mret b
  | S n =>
      sp ← arr_get (cf_servers (b_config b)) i;
      '(b, sd) ← open_server_socket b sp;
      c ← set_server (b_config b) i (fun sp => sp <| sv_sd := sd |>);
      open_servers n (b <| b_config := c |>) (i + 1)
  end.

Definition servers_init (b : broker) : outcome broker :=
  b ← open_servers (Z.to_nat (cf_num_servers (b_config b))) b 0;
  workers_init b (u32 (cf_num_workers (b_config b))).

End worker.
