(* ===== verification/Delivery.v ===== *)
(** * What reaches the network (src/client.c)

    [wire b sd] are the bytes the operating system has accepted on a socket,
    computed from the calls made so far.  When every [send] makes some
    progress, a buffer goes out whole and in order, a message is delivered to
    a subscription as the PUBLISH packet of MQTT 3.1.1, and nothing else of
    the broker changes.  [Closing] shows a connection that fails. *)

From S2P Require Import Prelude DList Queue MqttPacket MqttEncode ClientTypes Trie TrieSearch TrieStore Subscription World.
From S2P Require Import Text KeepAlive WorkerQueue ClientSend Auth Client WsParser WsSpec.

Section wire.
Context `{Libc} `{Sys}.

(** ** The bytes on a socket *)

(** What one call, made after the calls [before], puts on the socket. *)
Definition accepted (before : list call) (c : call) (sd : Z) : list Z :=
  match c with
  | Call_send sd' data => if decide (sd' = sd) then take (Z.to_nat (rp_int (sys_reply before c))) data else []
  | _ => []
  end.

Fixpoint wire_from (before log : list call) (sd : Z) : list Z :=
  match log with
  | [] => []
  | c :: log => accepted before c sd ++ wire_from (before ++ [c]) log sd
  end.

Definition wire (b : broker) (sd : Z) : list Z := wire_from [] (b_log b) sd.

Lemma wire_from_snoc before log c sd :
  wire_from before (log ++ [c]) sd = wire_from before log sd ++ accepted (before ++ log) c sd.
Proof.
  revert before. induction log as [|c' log IH]; intros before; cbn [app wire_from].
  - by rewrite !app_nil_r.
  - rewrite IH, <- (app_assoc before). by rewrite app_assoc.
Qed.

Lemma wire_call b c sd : wire (do_call b c).2 sd = wire b sd ++ accepted (b_log b) c sd.
Proof. unfold wire, do_call. cbn. by rewrite wire_from_snoc. Qed.

(** [b'] is [b] after [out] has been put on the socket [sd]: only the list of
    calls differs. *)
Record sent (b b' : broker) (sd : Z) (out : list Z) : Prop := {
  se_only : exists log, b' = b <| b_log := log |>;
  se_wire : wire b' sd = wire b sd ++ out;
  se_other : forall sd', sd' <> sd -> wire b' sd' = wire b sd'
}.

Lemma sent_refl b sd : sent b b sd [].
Proof.
  split; [|by rewrite app_nil_r|done]. exists (b_log b). by destruct b.
Qed.

Lemma sent_trans b1 b2 b3 sd out1 out2 :
  sent b1 b2 sd out1 -> sent b2 b3 sd out2 -> sent b1 b3 sd (out1 ++ out2).
Proof.
  intros [[l1 ->] Hw1 Ho1] [[l2 ->] Hw2 Ho2]. split.
  - by exists l2.
  - by rewrite Hw2, Hw1, app_assoc.
  - intros sd' Hne. by rewrite Ho2, Ho1.
Qed.

Lemma sent_call b c sd : sent b (do_call b c).2 sd (accepted (b_log b) c sd) <->
  (forall sd', sd' <> sd -> accepted (b_log b) c sd' = []).
Proof.
  split.
  - intros [_ _ Ho] sd' Hne. specialize (Ho sd' Hne). rewrite wire_call in Ho.
    apply (f_equal length) in Ho. rewrite length_app in Ho. apply length_zero_iff_nil. lia.
  - intros Ho. split; [by eexists|by apply wire_call|]. intros sd' Hne. by rewrite wire_call, Ho, app_nil_r.
Qed.

(** ** Plain sockets *)

(** Every [send] of some bytes accepts at least one of them. *)
Definition sends_progress : Prop := forall log sd data,
  data <> [] -> 0 < rp_int (sys_reply log (Call_send sd data)) <= zlen data.

Lemma buf_part_ok buf off len :
  0 <= off -> off + len <= zlen buf -> buf_part buf off len = Ok (take (Z.to_nat len) (drop (Z.to_nat off) buf)).
Proof.
  intros Ho Hl. unfold buf_part. apply Z.leb_le in Ho, Hl. by rewrite Ho, Hl.
Qed.

Lemma take_split {A} (l : list A) n k :
  0 <= n -> 0 <= k -> take (Z.to_nat (n + k)) l = take (Z.to_nat n) l ++ take (Z.to_nat k) (drop (Z.to_nat n) l).
Proof.
  intros Hn Hk. rewrite Z2Nat.inj_add by done. rewrite <- (take_drop (Z.to_nat n) l) at 1.
  rewrite take_app. rewrite length_take. rewrite take_take.
  destruct (decide (length l <= Z.to_nat n)%nat).
  - rewrite !drop_ge by done. rewrite !take_nil, !app_nil_r. f_equal. lia.
  - f_equal; f_equal; lia.
Qed.

Lemma send_loop_ok b p cp buf :
  sends_progress -> b_clients b !! p = Some cp -> zlen buf <= int_max ->
  forall fuel b0 off len, sent b b0 (c_sd cp) (take (Z.to_nat off) buf) ->
  0 <= off -> 0 <= len -> off + len <= zlen buf -> (Z.to_nat len < fuel)%nat ->
  exists b', send_loop fuel b0 p buf off len = Ok (b', off + len) /\
    sent b b' (c_sd cp) (take (Z.to_nat (off + len)) buf).
Proof.
  intros Hs Hp Hm. induction fuel as [|fuel IH]; intros b0 off len Hb0 Ho Hl Hol Hf; [lia|].
  cbn [send_loop]. destruct (Z.eqb_spec len 0) as [->|Hne]; [rewrite Z.add_0_r; eauto|].
  pose proof (se_only _ _ _ _ Hb0) as [log Hlog].
  rewrite (get_client_ok b0 p cp) by (by rewrite Hlog). cbn [mbind outcome_bind].
  rewrite buf_part_ok by done. cbn [mbind outcome_bind].
  set (data := take (Z.to_nat len) (drop (Z.to_nat off) buf)).
  assert (zlen data = len) as Hd.
  { unfold data, zlen in *. rewrite length_take, length_drop. lia. }
  assert (data <> []) as Hdn by (intros E; rewrite E in Hd; unfold zlen in Hd; cbn in Hd; lia).
  pose proof (Hs (b_log b0) (c_sd cp) data Hdn) as Hrv. rewrite Hd in Hrv.
  unfold do_call. cbn zeta beta iota. set (r := sys_reply _ _) in *.
  destruct (Z.ltb_spec (rp_int r) 0); [lia|]. destruct (Z.eqb_spec (rp_int r) 0); [lia|].
  rewrite int_chk_ok by (unfold int_min, int_max in *; lia). cbn [mbind outcome_bind].
  rewrite u32_small by (unfold int_max in *; lia).
  destruct (IH (do_call b0 (Call_send (c_sd cp) data)).2 (off + rp_int r) (len - rp_int r)) as (b' & He & Hb'); [|lia..|].
  - rewrite take_split by lia. eapply sent_trans; [done|].
    assert (take (Z.to_nat (rp_int r)) (drop (Z.to_nat off) buf)
      = accepted (b_log b0) (Call_send (c_sd cp) data) (c_sd cp)) as ->.
    { unfold accepted. rewrite decide_True by done. fold r. unfold data. rewrite take_take. f_equal. lia. }
    apply sent_call. intros sd' Hne'. unfold accepted. by rewrite decide_False.
  - exists b'. replace (off + len) with (off + rp_int r + (len - rp_int r)) by lia. by split.
Qed.

Lemma send_wire_ok b p cp buf len :
  sends_progress -> b_clients b !! p = Some cp -> c_state cp <> CLIENT_CLOSING ->
  0 <= len <= zlen buf -> zlen buf <= int_max ->
  exists b', c_send_data_wire b p buf len = Ok (b', len) /\ sent b b' (c_sd cp) (take (Z.to_nat len) buf).
Proof.
  intros Hs Hp Hst Hl Hm. unfold c_send_data_wire. rewrite (get_client_ok b p cp) by done. cbn [mbind outcome_bind].
  rewrite ASSERT_ok by (by apply bool_decide_eq_true_2). cbn [mbind outcome_bind].
  apply (send_loop_ok b p cp buf Hs Hp Hm); [apply sent_refl|lia..].
Qed.

(** ** The two transports without encryption *)

(** What a client is sent for the bytes [data]: a WebSocket client gets them
    as one unmasked binary frame. *)
Definition transport (cp : client_st) (data : list Z) : list Z :=
  match data with
  | [] => []
  | _ => if truthy (c_is_ws cp) then frame_bytes (mk_ws_frame 1 WS_FRAME_BINARY None data) else data
  end.

(** A client that is not on a TLS socket and not closing. *)
Record plain (cp : client_st) : Prop := {
  pl_tls : c_is_tls cp = 0;
  pl_open : c_state cp <> CLIENT_CLOSING
}.

Lemma ws_hdr_eq len :
  0 <= len < 65536 ->
  (if len <? 126 then [130; Z.land len 127]
   else [130; 126; Z.land (Z.shiftr len 8) 255; Z.land len 255]) = 130 :: ws_length 0 len.
Proof.
  intros Hl. unfold ws_length. destruct (Z.ltb_spec len 126).
  - change 127 with (Z.ones 7). rewrite (Z.land_ones len 7) by lia. by rewrite Z.mod_small by lia.
  - destruct (Z.ltb_spec len 65536); [|lia]. unfold be16. change 255 with (Z.ones 8).
    rewrite (Z.land_ones _ 8), (Z.land_ones _ 8) by lia. rewrite Z.shiftr_div_pow2 by lia.
    rewrite (Z.mod_small (len / 2 ^ 8)) by (split; [apply Z.div_pos; lia|apply Z.div_lt_upper_bound; lia]). done.
Qed.

Lemma take_zlen {A} (l : list A) : take (Z.to_nat (zlen l)) l = l.
Proof. unfold zlen. rewrite Nat2Z.id. by apply firstn_all. Qed.

Lemma zlen_take_app {A} (l k : list A) : take (Z.to_nat (zlen l)) (l ++ k) = l.
Proof. unfold zlen. rewrite Nat2Z.id. by apply take_app_length. Qed.

Lemma sent_client b b' sd out p : sent b b' sd out -> b_clients b' !! p = b_clients b !! p.
Proof. by intros [[log ->] _ _]. Qed.

Lemma send_ws_ok b p cp buf len :
  sends_progress -> b_clients b !! p = Some cp -> c_state cp <> CLIENT_CLOSING ->
  0 < len <= zlen buf -> len < 65536 -> zlen buf <= int_max ->
  exists b', c_send_data_ws b p buf len = Ok (b', len) /\ sent b b' (c_sd cp) (frame_bytes (mk_ws_frame 1 WS_FRAME_BINARY None (take (Z.to_nat len) buf))).
Proof.
  intros Hs Hp Hst Hl Hlen Hm. unfold c_send_data_ws. destruct (Z.ltb_spec len 65536); [|lia].
  rewrite ws_hdr_eq by lia. set (hdr := 130 :: ws_length 0 len).
  assert (zlen hdr <= 4) as Hh.
  { unfold hdr, ws_length. repeat case_match; autorewrite with fb; try lia. }
  pose proof (zlen_nonneg hdr).
  destruct (send_wire_ok b p cp hdr (zlen hdr) Hs Hp Hst) as (b1 & E1 & S1); [lia|unfold int_max; lia|].
  rewrite E1. cbn [mbind outcome_bind].
  destruct (send_wire_ok b1 p cp buf len Hs) as (b2 & E2 & S2); [by erewrite sent_client|done|lia|done|].
  rewrite E2. cbn [mbind outcome_bind mret outcome_ret].
  exists b2. rewrite i32_small by (unfold int_min, int_max in *; lia). split; [done|].
  unfold frame_bytes. cbn [fr_fin fr_opcode fr_mask fr_payload].
  assert (zlen (take (Z.to_nat len) buf) = len) as ->.
  { unfold zlen in *. rewrite length_take. lia. }
  rewrite take_zlen in S1. exact (sent_trans _ _ _ _ _ _ S1 S2).
Qed.

(** All of it goes out, in one round. *)
Lemma send_data_ok b p cp buf len :
  sends_progress -> b_clients b !! p = Some cp -> plain cp ->
  0 <= len <= zlen buf -> len < 65536 -> zlen buf <= int_max ->
  exists b', c_send_data b p buf len = Ok (b', 0) /\ sent b b' (c_sd cp) (transport cp (take (Z.to_nat len) buf)).
Proof.
  intros Hs Hp [Ht Hst] Hl Hlen Hm. unfold c_send_data. rewrite (get_client_ok b p cp) by done. cbn [mbind outcome_bind].
  rewrite ASSERT_ok by (by apply bool_decide_eq_true_2). cbn [mbind outcome_bind send_data_loop].
  destruct (Z.eqb_spec len 0) as [->|Hne]; [exists b; split; [done|apply sent_refl]|].
  rewrite (get_client_ok b p cp) by done. cbn [mbind outcome_bind]. rewrite Ht.
  change (truthy 0) with false. cbn [andb].
  assert (exists b', (if truthy (c_is_ws cp) then c_send_data_ws b p buf len else c_send_data_wire b p buf len) = Ok (b', len) /\
    sent b b' (c_sd cp) (transport cp (take (Z.to_nat len) buf))) as (b' & -> & Hb').
  { unfold transport. destruct (take (Z.to_nat len) buf) eqn:Hd.
    { apply (f_equal length) in Hd. unfold zlen in Hl. rewrite length_take in Hd. cbn in Hd. lia. }
    rewrite <- Hd. destruct (truthy (c_is_ws cp)); [apply send_ws_ok|apply send_wire_ok]; try done; lia. }
  exists b'. split; [|done]. cbn [mbind outcome_bind].
  destruct (Z.leb_spec len 0); [lia|]. rewrite Z.sub_diag.
  destruct (Z.to_nat len); cbn [send_data_loop]; done.
Qed.
(** ** A message for one subscription *)

Definition deliver_qos (mp : message_st) (sp : subscription_st) : Z := Z.min (m_orig_qos mp) (sb_qos sp).

(** The packet identifier, and the client after it has been taken. *)
Definition next_msg_id (qos : Z) (cp : client_st) : Z := if 0 <? qos then u16 (c_msg_id cp + 1) else 0.
Definition bumped (qos : Z) (cp : client_st) : client_st :=
  if 0 <? qos then cp <| c_msg_id := u16 (c_msg_id cp + 1) |> else cp.

(** A packet larger than the send buffer is dropped. *)
Definition delivered (cp : client_st) (mp : message_st) (qos : Z) : list Z :=
  let packet := publish_packet mp qos (next_msg_id qos cp) in
  if zlen packet <=? sizeof_send_buf then transport cp packet else [].

(** A message [encode_publish] takes. *)
Record sendable (mp : message_st) : Prop := {
  sm_wf : message_wf mp;
  sm_len : m_payload_len mp < 2 ^ 27
}.

Lemma put_client_id b p cp : b_clients b !! p = Some cp -> put_client b p cp = b.
Proof. intros Hp. unfold put_client. destruct b. cbn in *. by rewrite insert_id. Qed.

Lemma rem_len_len n : 128 <= n < 16384 -> zlen (rem_len_bytes n) = 2.
Proof. intros Hn. rewrite zlen_rem_len_bytes by lia. repeat case_match; lia. Qed.

(** For the send buffer the length that is computed is the right one. *)
Lemma encode_publish_buf mp qos id :
  sendable mp -> 0 <= id < 65536 ->
  let packet := publish_packet mp qos id in
  encode_publish c_send_buf sizeof_send_buf mp qos id
  = if zlen packet <=? sizeof_send_buf then Ok (packet ++ drop (length packet) c_send_buf, zlen packet)
    else Ok (c_send_buf, 0).
Proof.
  intros [Hm Hl] Hid packet. pose proof (zlen_publish_body mp qos id Hm) as Hb.
  pose proof (mw_topic_len mp Hm). pose proof (mw_payload_len mp Hm).
  set (n := zlen (publish_body mp qos id)) in *.
  assert (0 <= n < 2 ^ 28 - 1) as Hr by (destruct (0 <? qos); lia).
  assert (zlen packet = 1 + zlen (rem_len_bytes n) + n) as Hz.
  { unfold packet, publish_packet. autorewrite with fb. unfold n. lia. }
  destruct (packet_len_ok _ Hr) as (q & Hq & Hqb & _).
  assert ((q <=? sizeof_send_buf) = (zlen packet <=? sizeof_send_buf)) as Hfit.
  { apply eq_true_iff_eq. rewrite !Z.leb_le. unfold sizeof_send_buf.
    pose proof (zlen_nonneg (rem_len_bytes n)). destruct (decide (128 <= n < 16383)) as [Hn|Hn].
    - rewrite rem_len_len in * by lia. unfold packet_len in Hq.
      rewrite int_chk_ok in Hq by (unfold int_min, int_max; lia). cbn [mbind outcome_bind] in Hq.
      destruct (Z.ltb_spec (n + 1) 128); [lia|]. destruct (Z.ltb_spec (n + 1) 16384); [|lia].
      rewrite int_chk_ok in Hq by (unfold int_min, int_max; lia). cbn [mbind outcome_bind mret outcome_ret] in Hq.
      injection Hq as Hq. rewrite u32_small in Hq by lia. lia.
    - assert (n < 128 -> zlen (rem_len_bytes n) = 1) as Hone.
      { intros. rewrite zlen_rem_len_bytes by lia. repeat case_match; lia. }
      lia. }
  rewrite <- Hfit. destruct (Z.leb_spec q sizeof_send_buf) as [Hle|Hgt].
  - destruct (split_len packet c_send_buf) as (out & rest & Hbuf & Ho).
    { assert (zlen packet <= sizeof_send_buf) by (by apply Z.leb_le).
      unfold c_send_buf. rewrite length_replicate. unfold zlen, packet in *. lia. }
    rewrite Hbuf. rewrite <- Ho, drop_app_length. by eapply encode_publish_ok.
  - unfold encode_publish. rewrite (publish_len_ok mp qos id) by done. cbn [mbind outcome_bind].
    rewrite i32_small by (unfold int_min, int_max; lia). fold n. rewrite Hq. cbn [mbind outcome_bind].
    by destruct (Z.ltb_spec sizeof_send_buf q); [|lia].
Qed.

Lemma c_deliver_ok b k mp cp0 sp cp :
  sends_progress -> sendable mp ->
  b_clients b !! k.1 = Some cp0 -> 0 <= k.2 -> c_subscriptions cp0 !! Z.to_nat k.2 = Some sp ->
  b_clients b !! sb_client sp = Some cp -> c_state cp = CLIENT_CONNECTED -> c_is_tls cp = 0 ->
  let qos := deliver_qos mp sp in
  exists b', c_deliver k mp b = Ok b' /\
    sent (put_client b (sb_client sp) (bumped qos cp)) b' (c_sd cp) (delivered cp mp qos).
Proof.
  intros Hs Hm Hc0 Hk Hsp Hp Hst Ht qos. unfold c_deliver. rewrite (get_client_ok b k.1 cp0) by done. cbn [mbind outcome_bind].
  rewrite (arr_get_ok _ _ sp) by done. cbn [mbind outcome_bind]. rewrite (get_client_ok b _ cp) by done. cbn [mbind outcome_bind].
  destruct (decide (c_state cp <> CLIENT_CONNECTED)); [done|]. cbn zeta. fold (deliver_qos mp sp). fold qos.
  assert ((if 0 <? qos then (put_client b (sb_client sp) (cp <| c_msg_id := u16 (c_msg_id cp + 1) |>), u16 (c_msg_id cp + 1))
           else (b, 0)) = (put_client b (sb_client sp) (bumped qos cp), next_msg_id qos cp)) as ->.
  { unfold bumped, next_msg_id. destruct (0 <? qos); [done|]. by rewrite put_client_id. }
  set (b1 := put_client b (sb_client sp) (bumped qos cp)). set (id := next_msg_id qos cp).
  assert (0 <= id < 65536) as Hid.
  { unfold id, next_msg_id. destruct (0 <? qos); [apply u16_range|lia]. }
  rewrite encode_publish_buf by done. cbn zeta. unfold delivered. cbn zeta. fold id.
  set (packet := publish_packet mp qos id).
  assert (b_clients b1 !! sb_client sp = Some (bumped qos cp)) as Hb1 by (cbn; by rewrite lookup_insert_eq).
  assert (c_sd (bumped qos cp) = c_sd cp /\ c_is_ws (bumped qos cp) = c_is_ws cp /\ plain (bumped qos cp)) as (Esd & Ews & Hpl).
  { unfold bumped. destruct (0 <? qos); (split_and!; [done|done|split; cbn; [done|by rewrite Hst]]). }
  pose proof (zlen_nonneg packet).
  destruct (Z.leb_spec (zlen packet) sizeof_send_buf) as [Hfit|Hbig]; cbn [mbind outcome_bind].
  - set (buf := packet ++ drop (length packet) c_send_buf).
    assert (zlen buf = sizeof_send_buf) as Hbuf.
    { unfold buf. rewrite zlen_app. unfold zlen in *. rewrite length_drop. unfold c_send_buf. rewrite length_replicate. unfold sizeof_send_buf in *. lia. }
    unfold sizeof_send_buf in *.
    destruct (send_data_ok b1 (sb_client sp) (bumped qos cp) buf (zlen packet) Hs Hb1 Hpl) as (b' & -> & Hsent);
      [lia..|unfold int_max; lia|].
    exists b'. split; [done|]. rewrite Esd in Hsent. unfold buf in Hsent. rewrite zlen_take_app in Hsent.
    unfold transport in *. by rewrite Ews in Hsent.
  - destruct (send_data_ok b1 (sb_client sp) (bumped qos cp) c_send_buf 0 Hs Hb1 Hpl) as (b' & -> & Hsent);
      [unfold zlen; lia|lia|by vm_compute|].
    exists b'. split; [done|]. by rewrite Esd in Hsent.
Qed.
(** ** A message for all its subscriptions *)

(** The client, the subscription and the client the subscription leads to. *)
Definition sub_target (cs : gmap Z client_st) (k : sub_key) : option (subscription_st * client_st) :=
  cp0 ← cs !! k.1;
  sp ← (if 0 <=? k.2 then c_subscriptions cp0 !! Z.to_nat k.2 else None);
  cp ← cs !! sb_client sp;
  Some (sp, cp).

Lemma sub_target_inv cs k sp cp :
  sub_target cs k = Some (sp, cp) ->
  exists cp0, cs !! k.1 = Some cp0 /\ 0 <= k.2 /\ c_subscriptions cp0 !! Z.to_nat k.2 = Some sp /\
    cs !! sb_client sp = Some cp.
Proof.
  unfold sub_target. intros Hk. destruct (cs !! k.1) as [cp0|] eqn:Hc0; [|done]. cbn in Hk.
  destruct (Z.leb_spec 0 k.2); [|done].
  destruct (c_subscriptions cp0 !! Z.to_nat k.2) as [sp'|] eqn:Hsp; [|done]. cbn in Hk.
  destruct (cs !! sb_client sp') as [cp'|] eqn:Hp; [|done]. cbn in Hk. simplify_eq. eauto.
Qed.

Definition connected (cp : client_st) : bool := bool_decide (c_state cp = CLIENT_CONNECTED).

(** The clients after a delivery to [ks], and what it puts on a socket. *)
Fixpoint deliver_clients (cs : gmap Z client_st) (mp : message_st) (ks : list sub_key) : gmap Z client_st :=
  match ks with
  | [] => cs
  | k :: ks =>
      match sub_target cs k with
      | Some (sp, cp) =>
          deliver_clients (if connected cp then <[sb_client sp := bumped (deliver_qos mp sp) cp]> cs else cs) mp ks
      | None => deliver_clients cs mp ks
      end
  end.

Fixpoint deliver_stream (cs : gmap Z client_st) (mp : message_st) (ks : list sub_key) (sd : Z) : list Z :=
  match ks with
  | [] => []
  | k :: ks =>
      match sub_target cs k with
      | Some (sp, cp) =>
          if connected cp then
            (if decide (c_sd cp = sd) then delivered cp mp (deliver_qos mp sp) else []) ++
            deliver_stream (<[sb_client sp := bumped (deliver_qos mp sp) cp]> cs) mp ks sd
          else deliver_stream cs mp ks sd
      | None => deliver_stream cs mp ks sd
      end
  end.

(** A client but for its packet identifiers. *)
Definition settled (cp : client_st) : client_st := cp <| c_msg_id := 0 |>.

Definition same_clients (cs cs' : gmap Z client_st) : Prop := forall p, settled <$> cs' !! p = settled <$> cs !! p.

Lemma settled_bumped qos cp : settled (bumped qos cp) = settled cp.
Proof. unfold bumped. by destruct (0 <? qos). Qed.

Lemma same_clients_insert cs p cp cp' :
  cs !! p = Some cp -> settled cp' = settled cp -> same_clients cs (<[p := cp']> cs).
Proof.
  intros Hp Hs q. destruct (decide (q = p)) as [->|Hne]; [|by rewrite lookup_insert_ne].
  rewrite lookup_insert_eq, Hp. cbn. by rewrite Hs.
Qed.

Lemma same_clients_trans cs1 cs2 cs3 : same_clients cs1 cs2 -> same_clients cs2 cs3 -> same_clients cs1 cs3.
Proof. intros H1 H2 p. by rewrite H2, H1. Qed.

Lemma same_clients_Some cs cs' p cp' :
  same_clients cs cs' -> cs' !! p = Some cp' -> exists cp, cs !! p = Some cp /\ settled cp = settled cp'.
Proof.
  intros Hs Hp. specialize (Hs p). rewrite Hp in Hs. destruct (cs !! p) as [cp|]; [|done].
  exists cp. split; [done|]. by apply (inj Some) in Hs.
Qed.

Lemma same_clients_lookup cs cs' p cp :
  same_clients cs cs' -> cs !! p = Some cp -> exists cp', cs' !! p = Some cp' /\ settled cp' = settled cp.
Proof.
  intros Hs Hp. specialize (Hs p). rewrite Hp in Hs. destruct (cs' !! p) as [cp'|]; [|done].
  exists cp'. split; [done|]. by apply (inj Some) in Hs.
Qed.

Lemma deliver_clients_same cs mp ks : same_clients cs (deliver_clients cs mp ks).
Proof.
  revert cs. induction ks as [|k ks IH]; intros cs; [done|]. cbn [deliver_clients].
  destruct (sub_target cs k) as [[sp cp]|] eqn:Ht; [|apply IH]. destruct (connected cp); [|apply IH].
  eapply same_clients_trans; [|apply IH]. apply (same_clients_insert _ _ cp); [|apply settled_bumped].
  by apply sub_target_inv in Ht as (? & _ & _ & _ & ?).
Qed.

Lemma sub_target_same cs cs' k :
  same_clients cs cs' -> is_Some (sub_target cs k) -> is_Some (sub_target cs' k).
Proof.
  intros Hs [[sp cp] (cp0 & Hc0 & Hk & Hsp & Hp)%sub_target_inv].
  destruct (same_clients_lookup _ _ _ _ Hs Hc0) as (cp0' & Hc0' & He).
  destruct (same_clients_lookup _ _ _ _ Hs Hp) as (cp' & Hp' & _).
  assert (c_subscriptions cp0' = c_subscriptions cp0) as Hsub by (by apply (f_equal c_subscriptions) in He).
  exists (sp, cp'). unfold sub_target. rewrite Hc0'. cbn. destruct (Z.leb_spec 0 k.2); [|lia].
  rewrite Hsub, Hsp. cbn. by rewrite Hp'.
Qed.

(** No connected client is on a TLS socket. *)
Definition no_tls (cs : gmap Z client_st) : Prop :=
  forall p cp, cs !! p = Some cp -> c_state cp = CLIENT_CONNECTED -> c_is_tls cp = 0.

Lemma no_tls_same cs cs' : same_clients cs cs' -> no_tls cs -> no_tls cs'.
Proof.
  intros Hs Hn p cp Hp Hc. destruct (same_clients_Some _ _ _ _ Hs Hp) as (cp' & Hp' & He).
  assert (c_is_tls cp' = c_is_tls cp) as <- by (by apply (f_equal c_is_tls) in He).
  apply (Hn p cp' Hp'). by apply (f_equal c_state) in He; cbn in He; rewrite He.
Qed.

(** [b'] is [b] with other packet identifiers and more calls made. *)
Definition quiet (b b' : broker) : Prop :=
  exists cs log, b' = b <| b_clients := cs |> <| b_log := log |> /\ same_clients (b_clients b) cs.

Lemma quiet_refl b : quiet b b.
Proof. exists (b_clients b), (b_log b). by destruct b. Qed.

Lemma quiet_trans b1 b2 b3 : quiet b1 b2 -> quiet b2 b3 -> quiet b1 b3.
Proof.
  intros (cs1 & l1 & -> & H1) (cs2 & l2 & -> & H2). exists cs2, l2. split; [done|].
  by eapply same_clients_trans.
Qed.

(** The delivery described: the clients, and the bytes on every socket. *)
Record delivery (b b' : broker) (mp : message_st) (ks : list sub_key) : Prop := {
  dv_only : exists log, b' = b <| b_clients := deliver_clients (b_clients b) mp ks |> <| b_log := log |>;
  dv_wire : forall sd, wire b' sd = wire b sd ++ deliver_stream (b_clients b) mp ks sd
}.

Lemma delivery_quiet b b' mp ks : delivery b b' mp ks -> quiet b b'.
Proof. intros [[log ->] _]. do 2 eexists. split; [done|]. apply deliver_clients_same. Qed.

Lemma sent_stream b b' sd0 out sd :
  sent b b' sd0 out -> wire b' sd = wire b sd ++ (if decide (sd0 = sd) then out else []).
Proof.
  intros [_ Hw Ho]. destruct (decide (sd0 = sd)) as [->|Hne]; [done|]. rewrite app_nil_r. apply Ho. congruence.
Qed.

Lemma deliver_sub_ok b mp k :
  sends_progress -> sendable mp -> no_tls (b_clients b) -> is_Some (sub_target (b_clients b) k) ->
  exists b', c_deliver k mp b = Ok b' /\ delivery b b' mp [k].
Proof.
  intros Hs Hm Hn [[sp cp] Ht]. pose proof (sub_target_inv _ _ _ _ Ht) as (cp0 & Hc0 & Hk & Hsp & Hp).
  destruct (connected cp) eqn:Hcon.
  - apply bool_decide_eq_true_1 in Hcon as Hst.
    destruct (c_deliver_ok b k mp cp0 sp cp) as (b' & E & Hsent); try done; [by eapply Hn|].
    exists b'. split; [done|]. split.
    + cbn [deliver_clients]. rewrite Ht, Hcon. destruct Hsent as [[log ->] _ _]. by eexists.
    + intros sd. cbn [deliver_stream]. rewrite Ht, Hcon, app_nil_r. exact (sent_stream _ _ _ _ sd Hsent).
  - apply bool_decide_eq_false_1 in Hcon as Hst. exists b. unfold c_deliver.
    rewrite (get_client_ok b k.1 cp0) by done. cbn [mbind outcome_bind].
    rewrite (arr_get_ok _ _ sp) by done. cbn [mbind outcome_bind]. rewrite (get_client_ok b _ cp) by done. cbn [mbind outcome_bind].
    rewrite decide_True by done. split; [done|]. split.
    + cbn [deliver_clients]. rewrite Ht, Hcon. exists (b_log b). by destruct b.
    + intros sd. cbn [deliver_stream]. rewrite Ht, Hcon. by rewrite app_nil_r.
Qed.

Lemma deliver_stream_cons b b' mp k ks sd :
  delivery b b' mp [k] ->
  deliver_stream (b_clients b) mp (k :: ks) sd
  = deliver_stream (b_clients b) mp [k] sd ++ deliver_stream (b_clients b') mp ks sd /\
  deliver_clients (b_clients b) mp (k :: ks) = deliver_clients (b_clients b') mp ks.
Proof.
  intros [[log ->] _]. cbn [deliver_clients deliver_stream]. cbn.
  destruct (sub_target (b_clients b) k) as [[sp cp]|]; [|done]. destruct (connected cp); [|done].
  split; [|done]. by rewrite app_nil_r.
Qed.

Lemma deliver_all_ok ks : forall b mp,
  sends_progress -> sendable mp -> no_tls (b_clients b) ->
  Forall (fun k => is_Some (sub_target (b_clients b) k)) ks ->
  exists b', deliver_all c_deliver mp ks b = Ok b' /\ delivery b b' mp ks.
Proof.
  induction ks as [|k ks IH]; intros b mp Hs Hm Hn Hks; cbn [deliver_all].
  { exists b. split; [done|]. split; [exists (b_log b); by destruct b|]. intros sd. by rewrite app_nil_r. }
  apply Forall_cons in Hks as [Hk Hks].
  destruct (deliver_sub_ok b mp k Hs Hm Hn Hk) as (b1 & -> & Hb1). cbn [mbind outcome_bind].
  pose proof (delivery_quiet _ _ _ _ Hb1) as (cs & log & Eb1 & Hsame).
  assert (same_clients (b_clients b) (b_clients b1)) as Hs1 by (by rewrite Eb1).
  destruct (IH b1 mp Hs Hm) as (b' & -> & Hb').
  - by eapply no_tls_same.
  - eapply Forall_impl; [exact Hks|]. intros k'. by apply sub_target_same.
  - exists b'. split; [done|]. destruct Hb' as [[log' ->] Hw]. split.
    + exists log'. rewrite (proj2 (deliver_stream_cons b b1 mp k ks 0 Hb1)). by rewrite Eb1.
    + intros sd. rewrite (proj1 (deliver_stream_cons b b1 mp k ks sd Hb1)), app_assoc.
      rewrite <- (dv_wire _ _ _ _ Hb1). apply Hw.
Qed.
Lemma c_deliver_target b k mp b' : c_deliver k mp b = Ok b' -> is_Some (sub_target (b_clients b) k).
Proof.
  unfold c_deliver, sub_target, get_client, arr_get. intros E.
  destruct (b_clients b !! k.1) as [cp0|]; [|done]. cbn in E |- *.
  destruct (Z.ltb_spec k.2 0), (Z.leb_spec 0 k.2); try lia; [done|].
  destruct (c_subscriptions cp0 !! Z.to_nat k.2) as [sp|]; [|done]. cbn in E |- *.
  destruct (b_clients b !! sb_client sp) as [cp|]; [|done]. by eexists.
Qed.

(** The subscriptions of a worker, and the objects they lead to. *)
Record subscribed (b : broker) (o : option sub_trie) (M : list Z -> list sub_key) : Prop := {
  sd_rep : subs_rep (b_nodes b) o M;
  sd_live s k : k ∈ M s -> is_Some (sub_target (b_clients b) k);
  sd_count : Z.of_nat (size (b_nodes b)) <= int_max
}.

(** A topic without wildcards finds every subscription at most once. *)
Lemma found_subs_count b o M s :
  subscribed b o M -> topic_levels (levels s) -> zlen (found_subs M s) <= int_max.
Proof.
  intros [Hr _ Hc] Hl. etrans; [|exact Hc]. unfold zlen. apply inj_le.
  rewrite <- (size_dom (b_nodes b)), <- (length_fmap (uncurry SubNode)).
  rewrite <- (size_list_to_set (C := gset node_addr)).
  - apply subseteq_size. intros l Hin. apply elem_of_list_to_set, list_elem_of_fmap in Hin as (k & -> & Hk).
    apply elem_of_found_subs in Hk as (f & _ & Hk). apply elem_of_dom.
    pose proof (sr_items _ _ _ Hr f k Hk) as Hi. by destruct (b_nodes b !! uncurry SubNode k).
  - apply NoDup_fmap; [apply _|]. by eapply found_subs_NoDup.
Qed.

Lemma search_deliver_ok b o M mp s junk :
  sends_progress -> sendable mp -> no_tls (b_clients b) -> subscribed b o M ->
  m_topic mp = s ++ 0 :: junk -> text s -> topic_levels (levels s) ->
  exists b', sub_search b_nodes c_deliver o mp b = Ok (b', zlen (found_subs M s)) /\
    delivery b b' mp (found_subs M s).
Proof.
  intros Hs Hm Hn Hsub Ht Htx Hlv. pose proof (found_subs_count _ _ _ _ Hsub Hlv) as Hcnt. destruct Hsub as [Hr Hl _].
  rewrite (sub_search_ok b_nodes c_deliver (fun b => no_tls (b_clients b)) o M mp s junk b); try done.
  - destruct (deliver_all_ok (found_subs M s) b mp Hs Hm Hn) as (b' & -> & Hb').
    { apply Forall_forall. intros k (f & _ & Hk)%elem_of_found_subs. by eapply Hl. }
    by exists b'.
  - intros k st st' Hst E. destruct (deliver_sub_ok st mp k Hs Hm Hst) as (st2 & E2 & Hd).
    { by eapply c_deliver_target. }
    rewrite E in E2. injection E2 as <-. pose proof (delivery_quiet _ _ _ _ Hd) as (cs & log & -> & Hsame).
    split; [done|]. by eapply no_tls_same.
Qed.
End wire.

(** C30. Sending always ends and sends everything: however few bytes each
    [send] takes, as long as it takes some, [c_send_data] returns 0 after
    putting the whole buffer on the socket of the client, in order and
    exactly once, as one binary frame if the client is a WebSocket client, and
    touches nothing else. *)
Theorem send_data_whole `{Libc} `{Sys} b p cp buf len :
  sends_progress -> b_clients b !! p = Some cp -> c_is_tls cp = 0 -> c_state cp <> CLIENT_CLOSING ->
  0 <= len <= zlen buf -> len < 65536 -> zlen buf <= int_max ->
  exists b', c_send_data b p buf len = Ok (b', 0) /\
    sent b b' (c_sd cp) (transport cp (take (Z.to_nat len) buf)).
Proof. intros Hs Hp Ht Ho Hl Hlen Hm. by apply send_data_ok. Qed.

(** C2. A message with a topic without wildcards goes out to every subscriber: searching the subscriptions of
    a worker with [c_deliver] as the callback succeeds, counts the matching
    subscriptions, and puts on every socket exactly the PUBLISH packets of
    the connected clients among them that use the socket, one after the other
    in the order of the search, each with the smaller of the two QoS and a
    fresh packet identifier if that is not 0; packets that do not fit the send
    buffer are dropped.  Only packet identifiers change in the broker. *)
Theorem message_reaches_subscribers `{Libc} `{Sys} b o M mp s junk :
  sends_progress -> sendable mp -> no_tls (b_clients b) -> subscribed b o M ->
  m_topic mp = s ++ 0 :: junk -> text s -> topic_levels (levels s) ->
  exists b', sub_search b_nodes c_deliver o mp b = Ok (b', zlen (found_subs M s)) /\
    (forall sd, wire b' sd = wire b sd ++ deliver_stream (b_clients b) mp (found_subs M s) sd) /\
    (exists log, b' = b <| b_clients := deliver_clients (b_clients b) mp (found_subs M s) |> <| b_log := log |>) /\
    (forall p, settled <$> b_clients b' !! p = settled <$> b_clients b !! p).
Proof.
  intros Hs Hm Hn Hsub Ht Htx Hlv. destruct (search_deliver_ok b o M mp s junk Hs Hm Hn Hsub Ht Htx Hlv) as (b' & E & Hd).
  exists b'. split; [done|]. pose proof Hd as [Ho Hw]. split; [done|]. split; [done|].
  pose proof (delivery_quiet _ _ _ _ Hd) as (cs & log & -> & Hsame). exact Hsame.
Qed.

(** *** Instances *)

(** A system in which a [send] takes three bytes at most. *)
Definition slow_sys : Sys := {|
  sys_reply log c := match c with
    | Call_send _ data => mk_reply (Z.min 3 (zlen data)) [] []
    | _ => mk_reply 0 [] []
    end;
  loop_fuel := 100;
  sizeof_client_st := 4096;
  sizeof_client_ws_st := 512
|}.

Lemma slow_sends : @sends_progress slow_sys.
Proof.
  intros log sd data Hd. cbn. destruct data; [done|]. unfold zlen. cbn [length]. lia.
Qed.

(** One client on the first worker, subscribed to "a/+". *)
Definition demo_client : client_st :=
  example_client <| c_state := CLIENT_CONNECTED |> <| c_num_subs := 1 |>
    <| c_subscriptions := mk_subscription 5 1 (Some [97; 47; 43; 0]) :: replicate 11 (mk_subscription 0 0 None) |>.

Definition demo_nodes : node_heap :=
  foldr (fun l h => <[l := mk_dllist_node None None None]> h) ∅ (client_nodes 5).

Definition demo_subs : node_heap * option sub_trie :=
  match sub_insert demo_nodes None 5 0 (Some ([97; 47; 43] ++ 0 :: [])) with
  | Ok r => r
  | _ => (demo_nodes, None)
  end.

Definition demo_store : list Z -> list sub_key := upd_subs (fun _ => []) [97; 47; 43] [(5, 0)].

Definition demo_broker : broker :=
  example_broker <| b_clients := {[ 1 := example_client <| c_worker := NULL |>;
      2 := example_client <| c_worker := NULL |>; 5 := demo_client ]} |>
    <| b_nodes := demo_subs.1 |>
    <| b_workers := [(example_worker 0 1) <| w_subs := demo_subs.2 |>; example_worker 1 2] |>.

Lemma demo_subs_rep : subs_rep demo_subs.1 demo_subs.2 demo_store.
Proof.
  destruct (sub_insert_rep demo_nodes None (fun _ => []) 5 0 [97; 47; 43] []) as (h & o & Hi & Hr & _).
  { apply subs_rep_empty. }
  { by repeat constructor. }
  { repeat constructor; lia. }
  { by eexists. }
  { intros s'. apply not_elem_of_nil. }
  unfold demo_subs. rewrite Hi. exact Hr.
Qed.

Lemma demo_store_keys s k : k ∈ demo_store s -> s = [97; 47; 43] /\ k = (5, 0).
Proof.
  unfold demo_store, upd_subs. destruct (decide (s = [97; 47; 43])) as [->|].
  - intros ->%list_elem_of_singleton. done.
  - by intros ?%not_elem_of_nil.
Qed.

Lemma demo_subscribed : subscribed demo_broker demo_subs.2 demo_store.
Proof.
  split.
  - apply demo_subs_rep.
  - intros s k [-> ->]%demo_store_keys. by eexists.
  - by vm_compute.
Qed.

Definition demo_message : message_st := (topic_message [97; 47; 98]) <| m_orig_qos := 1 |> <| m_client := 5 |>.

Lemma demo_sendable : sendable demo_message.
Proof. split; [|by vm_compute]. split; by vm_compute. Qed.

Lemma demo_no_tls : no_tls (b_clients demo_broker).
Proof.
  intros p cp Hp. apply elem_of_map_to_list in Hp. vm_compute in Hp.
  repeat (apply elem_of_cons in Hp as [Hp|Hp]; [by injection Hp as -> ->|]). by apply not_elem_of_nil in Hp.
Qed.

Lemma demo_topic : text [97; 47; 98] /\ topic_levels (levels [97; 47; 98]).
Proof.
  split; [by repeat constructor|].
  assert (forall c, 96 < c < 123 -> literal [c]) as Hlit.
  { intros c Hc. repeat constructor; unfold c_slash, c_plus, c_hash; lia. }
  repeat constructor; try (apply Hlit; lia); unfold c_slash, c_plus, c_hash; lia.
Qed.

Example send_data_whole_witness :
  exists b', @c_send_data calm_libc slow_sys demo_broker 5 [1; 2; 3; 4; 5; 6; 7; 8] 7 = Ok (b', 0) /\
    @sent slow_sys demo_broker b' (c_sd demo_client) (transport demo_client (take (Z.to_nat 7) [1; 2; 3; 4; 5; 6; 7; 8])).
Proof.
  apply (@send_data_whole calm_libc slow_sys demo_broker 5 demo_client [1; 2; 3; 4; 5; 6; 7; 8] 7 slow_sends).
  all: by vm_compute.
Defined.

Example message_reaches_subscribers_witness :
  exists b', sub_search b_nodes (@c_deliver calm_libc slow_sys) demo_subs.2 demo_message demo_broker
      = Ok (b', zlen (found_subs demo_store [97; 47; 98])) /\
    (forall sd, @wire slow_sys b' sd = @wire slow_sys demo_broker sd ++
       deliver_stream (b_clients demo_broker) demo_message (found_subs demo_store [97; 47; 98]) sd) /\
    (exists log, b' = demo_broker <| b_clients := deliver_clients (b_clients demo_broker) demo_message
       (found_subs demo_store [97; 47; 98]) |> <| b_log := log |>) /\
    (forall p, settled <$> b_clients b' !! p = settled <$> b_clients demo_broker !! p).
Proof.
  apply (@message_reaches_subscribers calm_libc slow_sys demo_broker demo_subs.2 demo_store demo_message [97; 47; 98] []
    slow_sends demo_sendable demo_no_tls demo_subscribed eq_refl (proj1 demo_topic) (proj2 demo_topic)).
Defined.

(** What that is: the packet with identifier 1 goes to socket 9. *)
Example demo_stream :
  deliver_stream (b_clients demo_broker) demo_message (found_subs demo_store [97; 47; 98]) 9
  = [50; 8; 0; 3; 97; 47; 98; 0; 1; 120].
Proof. reflexivity. Qed.
