(* ===== verification/Messages.v ===== *)
(** * The life of a message (src/worker.c)

    From [workers_queue_message] to [w_gc]: a message is on the queue of every
    worker until that worker has delivered it, then on the garbage queue of
    the worker of its publisher, then freed.  [queues_ok] describes the queues
    by lists of messages, [msg_inv] ties them to the flags in the messages;
    every operation keeps it as long as [message_done] looks at the flags of
    all workers. *)

From S2P Require Import Prelude DList Queue MqttPacket MqttEncode ClientTypes Trie TrieSearch TrieStore Subscription World.
From S2P Require Import Text KeepAlive WorkerQueue ClientSend Auth Client Delivery.

(** ** The queues of the workers *)

Abbreviation msg_node := (fun (i : nat) (m : Z) => MsgNode m (Z.of_nat i)).

(** Worker [i] has the messages [Q !! i] to deliver, [G !! i] to free. *)
Record queues_ok (h : item_heap) (ws : list worker_st) (Q G : list (list Z)) : Prop := {
  qo_len : length Q = length G;
  qo_worker i q g : Q !! i = Some q -> G !! i = Some g ->
    exists wp, ws !! i = Some wp /\ w_index wp = Z.of_nat i /\
      q_rep h (w_msg_q wp) (msg_node i <$> q) /\ q_rep h (w_gc_q wp) (GcNode <$> g);
  qo_msg_p i q m : Q !! i = Some q -> m ∈ q -> qi_p <$> h !! MsgNode m (Z.of_nat i) = Some (Some m);
  qo_gc_p i g m : G !! i = Some g -> m ∈ g -> qi_p <$> h !! GcNode m = Some (Some m);
  qo_gc_one i j g g' m : G !! i = Some g -> G !! j = Some g' -> m ∈ g -> m ∈ g' -> i = j
}.

Lemma q_rep_frame {L V} `{Countable L} (h h' : gmap L (queue_item_st L V)) q xs :
  (forall x, x ∈ xs -> h' !! x = h !! x) -> q_rep h q xs -> q_rep h' q xs.
Proof. intros Hf [Hc Ht]. split; [|done]. by eapply chain_frame. Qed.

Lemma elem_of_insert_lookup {A} (l : list A) i j x y :
  <[i := x]> l !! j = Some y -> (j = i /\ y = x) \/ (j <> i /\ l !! j = Some y).
Proof.
  intros [(-> & -> & _)|[Hne Hl]]%list_lookup_insert_Some; [by left|right]. split; congruence.
Qed.

(** One worker's queues change. *)
Lemma queues_update h h' ws Q G i q g wp wp' q' g' :
  queues_ok h ws Q G -> Q !! i = Some q -> G !! i = Some g -> ws !! i = Some wp -> w_index wp' = w_index wp ->
  q_rep h' (w_msg_q wp') (msg_node i <$> q') -> q_rep h' (w_gc_q wp') (GcNode <$> g') ->
  (forall j qj gj, j <> i -> Q !! j = Some qj -> G !! j = Some gj ->
     (forall m, m ∈ qj -> h' !! MsgNode m (Z.of_nat j) = h !! MsgNode m (Z.of_nat j)) /\
     (forall m, m ∈ gj -> h' !! GcNode m = h !! GcNode m) /\ (forall m, m ∈ gj -> m ∉ g')) ->
  (forall m, m ∈ q' -> qi_p <$> h' !! MsgNode m (Z.of_nat i) = Some (Some m)) ->
  (forall m, m ∈ g' -> qi_p <$> h' !! GcNode m = Some (Some m)) ->
  queues_ok h' (<[i := wp']> ws) (<[i := q']> Q) (<[i := g']> G).
Proof.
  intros [Hlen Hw Hm Hg Hone] HQ HG Hwp Hix Hq' Hg' Hfr Hmp Hgp.
  assert (forall j qj, Q !! j = Some qj -> exists gj, G !! j = Some gj) as HQG.
  { intros j qj Hj. apply lookup_lt_is_Some_2. rewrite <- Hlen. by eapply lookup_lt_Some. }
  assert (forall j gj, G !! j = Some gj -> exists qj, Q !! j = Some qj) as HGQ.
  { intros j gj Hj. apply lookup_lt_is_Some_2. rewrite Hlen. by eapply lookup_lt_Some. }
  split.
  - by rewrite !length_insert.
  - intros j qj gj Hj Hj'. apply elem_of_insert_lookup in Hj as [[-> ->]|[Hne Hj]].
    + apply elem_of_insert_lookup in Hj' as [[_ ->]|[? _]]; [|done].
      exists wp'. rewrite list_lookup_insert_eq by (by eapply lookup_lt_Some).
      destruct (Hw i q g HQ HG) as (wp0 & Hwp0 & Hi & _). simplify_eq. by rewrite Hix.
    + apply elem_of_insert_lookup in Hj' as [[? _]|[_ Hj']]; [done|].
      destruct (Hw j qj gj Hj Hj') as (wpj & Hwpj & Hi & Hqj & Hgj). exists wpj.
      rewrite list_lookup_insert_ne by done. destruct (Hfr j qj gj Hne Hj Hj') as (F1 & F2 & _).
      split_and!; [done|done|eapply q_rep_frame; [|done]..].
      * intros x (m & -> & Hx)%list_elem_of_fmap. by apply F1.
      * intros x (m & -> & Hx)%list_elem_of_fmap. by apply F2.
  - intros j qj m Hj Hin. apply elem_of_insert_lookup in Hj as [[-> ->]|[Hne Hj]]; [by apply Hmp|].
    destruct (HQG _ _ Hj) as [gj Hgj]. destruct (Hfr j qj gj Hne Hj Hgj) as (F1 & _). rewrite F1 by done. by eapply Hm.
  - intros j gj m Hj Hin. apply elem_of_insert_lookup in Hj as [[-> ->]|[Hne Hj]]; [by apply Hgp|].
    destruct (HGQ _ _ Hj) as [qj Hqj]. destruct (Hfr j qj gj Hne Hqj Hj) as (_ & F2 & _). rewrite F2 by done. by eapply Hg.
  - intros j k gj gk m Hj Hk Hin Hin'.
    apply elem_of_insert_lookup in Hj as [[-> ->]|[Hne Hj]], Hk as [[-> ->]|[Hne' Hk]]; [done| | |by eapply Hone].
    + destruct (HGQ _ _ Hk) as [qk Hqk]. destruct (Hfr k qk gk Hne' Hqk Hk) as (_ & _ & F3). by destruct (F3 m Hin').
    + destruct (HGQ _ _ Hj) as [qj Hqj]. destruct (Hfr j qj gj Hne Hqj Hj) as (_ & _ & F3). by destruct (F3 m Hin).
Qed.

(** A message goes to the end of the queue of worker [i]. *)
Lemma queues_push_msg h ws Q G i q g wp m it :
  queues_ok h ws Q G -> Q !! i = Some q -> G !! i = Some g -> ws !! i = Some wp ->
  m ∉ q -> h !! MsgNode m (Z.of_nat i) = Some it ->
  let h1 := <[MsgNode m (Z.of_nat i) := it <| qi_p := Some m |>]> h in
  exists h' q', queue_push h1 (w_msg_q wp) (MsgNode m (Z.of_nat i)) = Ok (h', q') /\
    queues_ok h' (<[i := wp <| w_msg_q := q' |>]> ws) (<[i := q ++ [m]]> Q) G /\
    (forall l, is_Some (h' !! l) <-> is_Some (h !! l)).
Proof.
  intros Hok HQ HG Hwp Hm Hit h1. destruct (qo_worker _ _ _ _ Hok i q g HQ HG) as (wp0 & Hwp0 & Hix & Hq & Hg). simplify_eq.
  assert (MsgNode m (Z.of_nat i) ∉ msg_node i <$> q) as Hnin.
  { intros (m' & [= <-] & Hin)%list_elem_of_fmap. done. }
  destruct (queue_push_rep h1 (w_msg_q wp) (msg_node i <$> q) (MsgNode m (Z.of_nat i))) as (h' & q' & E & Hr & Hp & Hf).
  { eapply q_rep_frame; [|exact Hq]. intros x Hx. unfold h1. rewrite lookup_insert_ne; [done|]. by intros <-. }
  { done. }
  { unfold h1. rewrite lookup_insert_eq. by eexists. }
  assert (forall l, l ∉ msg_node i <$> q ++ [m] -> h' !! l = h !! l) as Hf'.
  { intros l Hl. rewrite fmap_app in Hl. rewrite Hf by done. unfold h1. rewrite lookup_insert_ne; [done|].
    intros <-. apply Hl. apply elem_of_app. right. by apply list_elem_of_singleton. }
  assert (forall l, l <> MsgNode m (Z.of_nat i) -> qi_p <$> h' !! l = qi_p <$> h !! l) as Hp'.
  { intros l Hl. rewrite Hp. unfold h1. by rewrite lookup_insert_ne. }
  exists h', q'. split; [done|]. split.
  - rewrite <- (list_insert_id G i g HG). eapply (queues_update h h' ws Q G i q g wp); try done.
    + cbn. by rewrite fmap_app.
    + cbn. eapply q_rep_frame; [|exact Hg]. intros x (m' & -> & _)%list_elem_of_fmap. apply Hf'.
      by intros (? & [=] & _)%list_elem_of_fmap.
    + intros j qj gj Hne HQj HGj. split_and!.
      * intros m' _. apply Hf'. intros (? & [= _ E'] & _)%list_elem_of_fmap. lia.
      * intros m' _. apply Hf'. by intros (? & [=] & _)%list_elem_of_fmap.
      * intros m' Hin Hin'. apply Hne. by eapply (qo_gc_one _ _ _ _ Hok).
    + intros m' [Hin| ->%list_elem_of_singleton]%elem_of_app.
      * rewrite Hp' by (intros [= ->]; done). by eapply (qo_msg_p _ _ _ _ Hok).
      * rewrite Hp. unfold h1. by rewrite lookup_insert_eq.
    + intros m' Hin. rewrite Hp' by done. by eapply (qo_gc_p _ _ _ _ Hok).
  - intros l. rewrite <- !(fmap_is_Some qi_p), Hp. unfold h1.
    destruct (decide (l = MsgNode m (Z.of_nat i))) as [->|Hne]; [|by rewrite lookup_insert_ne].
    rewrite lookup_insert_eq, Hit. cbn. split; by eexists.
Qed.

(** A message goes to the end of the garbage queue of worker [i]. *)
Lemma queues_push_gc h ws Q G i q g wp m it :
  queues_ok h ws Q G -> Q !! i = Some q -> G !! i = Some g -> ws !! i = Some wp ->
  (forall j gj, G !! j = Some gj -> m ∉ gj) -> h !! GcNode m = Some it ->
  let h1 := <[GcNode m := it <| qi_p := Some m |>]> h in
  exists h' q', queue_push h1 (w_gc_q wp) (GcNode m) = Ok (h', q') /\
    queues_ok h' (<[i := wp <| w_gc_q := q' |>]> ws) Q (<[i := g ++ [m]]> G) /\
    (forall l, is_Some (h' !! l) <-> is_Some (h !! l)).
Proof.
  intros Hok HQ HG Hwp Hm Hit h1. destruct (qo_worker _ _ _ _ Hok i q g HQ HG) as (wp0 & Hwp0 & Hix & Hq & Hg). simplify_eq.
  assert (GcNode m ∉ GcNode <$> g) as Hnin.
  { intros (m' & [= <-] & Hin)%list_elem_of_fmap. by apply (Hm i g). }
  destruct (queue_push_rep h1 (w_gc_q wp) (GcNode <$> g) (GcNode m)) as (h' & q' & E & Hr & Hp & Hf).
  { eapply q_rep_frame; [|exact Hg]. intros x Hx. unfold h1. rewrite lookup_insert_ne; [done|]. by intros <-. }
  { done. }
  { unfold h1. rewrite lookup_insert_eq. by eexists. }
  assert (forall l, l ∉ GcNode <$> g ++ [m] -> h' !! l = h !! l) as Hf'.
  { intros l Hl. rewrite fmap_app in Hl. rewrite Hf by done. unfold h1. rewrite lookup_insert_ne; [done|].
    intros <-. apply Hl. apply elem_of_app. right. by apply list_elem_of_singleton. }
  exists h', q'. split; [done|]. split.
  - rewrite <- (list_insert_id Q i q HQ). eapply (queues_update h h' ws Q G i q g wp); try done.
    + cbn. eapply q_rep_frame; [|exact Hq]. intros x (m' & -> & _)%list_elem_of_fmap. apply Hf'.
      by intros (? & [=] & _)%list_elem_of_fmap.
    + cbn. by rewrite fmap_app.
    + intros j qj gj Hne HQj HGj. split_and!.
      * intros m' _. apply Hf'. by intros (? & [=] & _)%list_elem_of_fmap.
      * intros m' Hin. apply Hf'. intros (m'' & [= <-] & [Hin'| ->%list_elem_of_singleton]%elem_of_app)%list_elem_of_fmap.
        -- apply Hne. by eapply (qo_gc_one _ _ _ _ Hok).
        -- by apply (Hm j gj).
      * intros m' Hin [Hin'| ->%list_elem_of_singleton]%elem_of_app; [|by apply (Hm j gj)].
        apply Hne. by eapply (qo_gc_one _ _ _ _ Hok).
    + intros m' Hin. rewrite Hf' by (by intros (? & [=] & _)%list_elem_of_fmap). by eapply (qo_msg_p _ _ _ _ Hok).
    + intros m' [Hin| ->%list_elem_of_singleton]%elem_of_app.
      * rewrite Hp. unfold h1. rewrite lookup_insert_ne; [by eapply (qo_gc_p _ _ _ _ Hok)|]. intros [= ->]. by apply (Hm i g).
      * rewrite Hp. unfold h1. by rewrite lookup_insert_eq.
  - intros l. rewrite <- !(fmap_is_Some qi_p), Hp. unfold h1.
    destruct (decide (l = GcNode m)) as [->|Hne]; [|by rewrite lookup_insert_ne].
    rewrite lookup_insert_eq, Hit. cbn. split; by eexists.
Qed.

(** The oldest message of worker [i] is taken off. *)
Lemma queues_pop_msg h ws Q G i q g wp m :
  queues_ok h ws Q G -> Q !! i = Some (m :: q) -> G !! i = Some g -> ws !! i = Some wp ->
  exists q', queue_pop h (w_msg_q wp) = Ok (Some (MsgNode m (Z.of_nat i)), q') /\
    queues_ok h (<[i := wp <| w_msg_q := q' |>]> ws) (<[i := q]> Q) G.
Proof.
  intros Hok HQ HG Hwp. destruct (qo_worker _ _ _ _ Hok i _ g HQ HG) as (wp0 & Hwp0 & Hix & Hq & Hg). simplify_eq.
  destruct (queue_pop_rep _ _ _ _ Hq) as (q' & E & Hr). exists q'. split; [done|].
  rewrite <- (list_insert_id G i g HG). eapply (queues_update h h ws Q G i _ g wp); try done.
  - intros j qj gj Hne HQj HGj. split_and!; [done|done|]. intros m' Hin Hin'. apply Hne. by eapply (qo_gc_one _ _ _ _ Hok).
  - intros m' Hin. eapply (qo_msg_p _ _ _ _ Hok); [done|]. by right.
  - intros m' Hin. by eapply (qo_gc_p _ _ _ _ Hok).
Qed.

Lemma queues_pop_gc h ws Q G i q g wp m :
  queues_ok h ws Q G -> Q !! i = Some q -> G !! i = Some (m :: g) -> ws !! i = Some wp ->
  exists q', queue_pop h (w_gc_q wp) = Ok (Some (GcNode m), q') /\
    queues_ok h (<[i := wp <| w_gc_q := q' |>]> ws) Q (<[i := g]> G).
Proof.
  intros Hok HQ HG Hwp. destruct (qo_worker _ _ _ _ Hok i q _ HQ HG) as (wp0 & Hwp0 & Hix & Hq & Hg). simplify_eq.
  destruct (queue_pop_rep _ _ _ _ Hg) as (q' & E & Hr). exists q'. split; [done|].
  rewrite <- (list_insert_id Q i q HQ). eapply (queues_update h h ws Q G i q _ wp); try done.
  - intros j qj gj Hne HQj HGj. split_and!; [done|done|]. intros m' Hin Hin'. apply Hne.
    eapply (qo_gc_one _ _ _ _ Hok j i); [done|done|done|by right].
  - intros m' Hin. by eapply (qo_msg_p _ _ _ _ Hok).
  - intros m' Hin. eapply (qo_gc_p _ _ _ _ Hok); [done|]. by right.
Qed.

(** The queues do not see the items of other messages. *)
Lemma queues_frame h h' ws Q G :
  queues_ok h ws Q G ->
  (forall i q m, Q !! i = Some q -> m ∈ q -> h' !! MsgNode m (Z.of_nat i) = h !! MsgNode m (Z.of_nat i)) ->
  (forall i g m, G !! i = Some g -> m ∈ g -> h' !! GcNode m = h !! GcNode m) ->
  queues_ok h' ws Q G.
Proof.
  intros [Hl Hw Hm Hg Ho] HQ HG. split; [done| | | |done].
  - intros i q g Hq Hg'. destruct (Hw i q g Hq Hg') as (wp & Hwp & Hi & Hr1 & Hr2). exists wp.
    split_and!; [done|done|eapply q_rep_frame; [|done]..].
    + intros x (m & -> & Hx)%list_elem_of_fmap. by eapply HQ.
    + intros x (m & -> & Hx)%list_elem_of_fmap. by eapply HG.
  - intros i q m Hq Hin. rewrite (HQ i q) by done. by eapply Hm.
  - intros i g m Hq Hin. rewrite (HG i g) by done. by eapply Hg.
Qed.

Lemma lookup_foldr_delete {K A} `{Countable K} (h : gmap K A) ls l :
  l ∉ ls -> foldr delete h ls !! l = h !! l.
Proof.
  induction ls as [|k ls IH]; intros Hl; [done|]. apply not_elem_of_cons in Hl as [Hne Hl].
  cbn [foldr]. rewrite lookup_delete_ne by done. by apply IH.
Qed.

Lemma lookup_foldr_insert {K A} `{Countable K} (h : gmap K A) ls v l :
  foldr (fun i h => <[i := v]> h) h ls !! l = if decide (l ∈ ls) then Some v else h !! l.
Proof.
  induction ls as [|k ls IH]; [done|]. cbn [foldr]. destruct (decide (l = k)) as [->|Hne].
  - rewrite lookup_insert_eq, decide_True; [done|by left].
  - rewrite lookup_insert_ne, IH by done. destruct (decide (l ∈ ls)) as [Hin|Hin].
    + rewrite decide_True; [done|by right].
    + rewrite decide_False; [done|]. by intros [?|?]%elem_of_cons.
Qed.

Lemma elem_of_items l m : l ∈ message_items m ->
  l = GcNode m \/ exists i, l = MsgNode m i.
Proof.
  intros [->|(i & -> & _)%list_elem_of_fmap]%elem_of_cons; [by left|right; eauto].
Qed.

(** The message is on some queue. *)
Definition queued (Q G : list (list Z)) (m : Z) : Prop := m ∈ concat Q \/ m ∈ concat G.

Lemma queued_msg (Q G : list (list Z)) i q m : Q !! i = Some q -> m ∈ q -> queued Q G m.
Proof. intros Hi Hm. left. apply concat_lookup. eauto. Qed.

Lemma queued_gc (Q G : list (list Z)) i g m : G !! i = Some g -> m ∈ g -> queued Q G m.
Proof. intros Hi Hm. right. apply concat_lookup. eauto. Qed.

#[export] Hint Resolve queued_msg queued_gc : core.

Lemma queues_other h h' ws Q G m :
  queues_ok h ws Q G -> ~ queued Q G m -> (forall l, l ∉ message_items m -> h' !! l = h !! l) ->
  queues_ok h' ws Q G.
Proof.
  intros Hok Hm Hf. eapply queues_frame; [done| |]; intros i x m' Hx Hin; apply Hf;
    intros [E|[? E]]%elem_of_items; simplify_eq; eauto.
Qed.

(** ** Messages and queues together *)

Record msg_ok (b : broker) (Q G : list (list Z)) (m : Z) (mp : message_st) : Prop := {
  mo_state : m_state mp = M_STATE_IN_USE;
  mo_sendable : sendable mp;
  mo_topic : exists s junk, m_topic mp = s ++ 0 :: junk /\ text s /\ topic_levels (levels s);
  mo_flag i q : Q !! i = Some q -> exists v, m_not_done mp !! i = Some v /\ (v <> 0 <-> m ∈ q);
  mo_client : exists cp, b_clients b !! m_client mp = Some cp /\
    (forall i g, G !! i = Some g -> m ∈ g -> c_worker cp = Z.of_nat i) /\
    (forall i q g, Q !! i = Some q -> G !! i = Some g -> c_worker cp = Z.of_nat i -> m ∈ q \/ m ∈ g);
  mo_gc i q g : Q !! i = Some q -> G !! i = Some g -> m ∈ g -> m ∉ q;
  mo_items l : l ∈ message_items m -> is_Some (b_items b !! l)
}.

(** [Q] and [G] are what the workers have to deliver and to free. *)
Record msg_inv (b : broker) (Q G : list (list Z)) : Prop := {
  mv_queues : queues_ok (b_items b) (b_workers b) Q G;
  mv_num : b_num_workers b = zlen Q /\ zlen Q <= MAX_NUM_WORKERS;
  mv_msgs m mp : b_messages b !! m = Some mp -> msg_ok b Q G m mp;
  mv_known m : queued Q G m -> is_Some (b_messages b !! m);
  mv_fresh m : is_Some (b_messages b !! m) -> m < b_fresh b;
  mv_subs i wp : b_workers b !! i = Some wp -> (i < length Q)%nat -> exists M, subscribed b (w_subs wp) M;
  mv_no_tls : no_tls (b_clients b)
}.

(** The state after the queue items of [m] have been used. *)
Definition with_queues (b : broker) (m : Z) (mp : message_st) (its : item_heap) (ws : list worker_st) : broker :=
  (put_message b m mp) <| b_items := its |> <| b_workers := ws |>.

Definition same_subs (ws ws' : list worker_st) : Prop := w_subs <$> ws' = w_subs <$> ws.

Lemma same_subs_insert ws i wp wp' :
  ws !! i = Some wp -> w_subs wp' = w_subs wp -> same_subs ws (<[i := wp']> ws).
Proof.
  intros Hwp Hs. unfold same_subs. rewrite list_fmap_insert, Hs.
  apply list_insert_id. by rewrite list_lookup_fmap, Hwp.
Qed.

Lemma same_subs_lookup ws ws' i wp' :
  same_subs ws ws' -> ws' !! i = Some wp' -> exists wp, ws !! i = Some wp /\ w_subs wp = w_subs wp'.
Proof.
  unfold same_subs. intros Hs Hi. apply (f_equal (fun l => l !! i)) in Hs. rewrite !list_lookup_fmap, Hi in Hs. cbn in Hs.
  destruct (ws !! i) as [wp|]; [|done]. exists wp. split; [done|]. by injection Hs.
Qed.

Lemma get_worker_at b i wp : b_workers b !! i = Some wp -> get_worker b (Z.of_nat i) = Ok wp.
Proof. intros Hi. apply get_worker_ok; [lia|]. by rewrite Nat2Z.id. Qed.

Lemma put_worker_at b i wp : put_worker b (Z.of_nat i) wp = b <| b_workers := <[i := wp]> (b_workers b) |>.
Proof. unfold put_worker. by rewrite Nat2Z.id. Qed.

Lemma item_get_ok (h : item_heap) l it : h !! l = Some it -> item_get h l = Ok it.
Proof. unfold item_get. by intros ->. Qed.

Lemma set_not_done_ok b m mp i v :
  b_messages b !! m = Some mp -> (i < length (m_not_done mp))%nat ->
  set_not_done b m (Z.of_nat i) v = Ok (put_message b m (mp <| m_not_done := <[i := v]> (m_not_done mp) |>)).
Proof.
  intros Hm Hi. unfold set_not_done. rewrite (get_message_ok b m mp) by done. cbn [mbind outcome_bind].
  rewrite arr_set_ok by (unfold zlen; lia). by rewrite Nat2Z.id.
Qed.

Lemma w_message_push_ok b Q G i q m mp :
  queues_ok (b_items b) (b_workers b) Q G -> Q !! i = Some q -> m ∉ q -> b_messages b !! m = Some mp ->
  (i < length (m_not_done mp))%nat -> is_Some (b_items b !! MsgNode m (Z.of_nat i)) ->
  exists its ws,
    w_message_push b (Z.of_nat i) m = Ok (with_queues b m (mp <| m_not_done := <[i := 1]> (m_not_done mp) |>) its ws) /\
    queues_ok its ws (<[i := q ++ [m]]> Q) G /\ (forall l, is_Some (its !! l) <-> is_Some (b_items b !! l)) /\
    same_subs (b_workers b) ws.
Proof.
  intros Hok HQ Hm Hmp Hi [it Hit]. destruct (lookup_lt_is_Some_2 G i) as [g HG].
  { rewrite <- (qo_len _ _ _ _ Hok). by eapply lookup_lt_Some. }
  destruct (qo_worker _ _ _ _ Hok i q g HQ HG) as (wp & Hwp & Hix & _).
  destruct (queues_push_msg _ _ _ _ i q g wp m it Hok HQ HG Hwp Hm Hit) as (its & q' & E & Hok' & Hdom).
  exists its, (<[i := wp <| w_msg_q := q' |>]> (b_workers b)). split; [|split; [done|split; [done|by eapply same_subs_insert]]].
  unfold w_message_push. rewrite (get_worker_at b i wp) by done. cbn [mbind outcome_bind]. rewrite Hix.
  rewrite (set_not_done_ok _ _ mp) by done. cbn [mbind outcome_bind].
  change (b_items (put_message b m _)) with (b_items b).
  unfold set_item_p. rewrite (item_get_ok _ _ it) by done. cbn [mbind outcome_bind mret outcome_ret].
  rewrite E. cbn [mbind outcome_bind mret outcome_ret]. by rewrite put_worker_at.
Qed.

Lemma push_loop_ok n : forall b Q G i m mp,
  queues_ok (b_items b) (b_workers b) Q G -> (i + n = length Q)%nat ->
  (forall j q, (i <= j)%nat -> Q !! j = Some q -> m ∉ q) -> b_messages b !! m = Some mp ->
  (length Q <= length (m_not_done mp))%nat ->
  (forall j, (j < length Q)%nat -> is_Some (b_items b !! MsgNode m (Z.of_nat j))) ->
  exists its ws nd Q',
    push_loop n b (Z.of_nat i) m = Ok (with_queues b m (mp <| m_not_done := nd |>) its ws) /\
    queues_ok its ws Q' G /\ (forall l, is_Some (its !! l) <-> is_Some (b_items b !! l)) /\
    same_subs (b_workers b) ws /\ length nd = length (m_not_done mp) /\
    (forall j, Q' !! j = if decide (i <= j)%nat then (fun q => q ++ [m]) <$> Q !! j else Q !! j) /\
    (forall j, (j < length Q)%nat -> nd !! j = if decide (i <= j)%nat then Some 1 else m_not_done mp !! j).
Proof.
  induction n as [|n IH]; intros b Q G i m mp Hok Hin Hm Hmp Hnd Hit; cbn [push_loop].
  - exists (b_items b), (b_workers b), (m_not_done mp), Q.
    assert (with_queues b m (mp <| m_not_done := m_not_done mp |>) (b_items b) (b_workers b) = b) as ->.
    { unfold with_queues, put_message. destruct b, mp. unfold upd. cbn in *. by rewrite insert_id. }
    split_and!; try done; intros j; destruct (decide (i <= j)%nat); try done; [|lia].
    by rewrite lookup_ge_None_2 by lia.
  - destruct (lookup_lt_is_Some_2 Q i) as [q HQ]; [lia|].
    destruct (w_message_push_ok b Q G i q m mp) as (its & ws & -> & Hok1 & Hdom1 & Hs1); [done|done|by apply (Hm i)|done|lia|apply Hit; lia|].
    cbn [mbind outcome_bind]. replace (Z.of_nat i + 1) with (Z.of_nat (S i)) by lia.
    set (mp1 := mp <| m_not_done := <[i := 1]> (m_not_done mp) |>). set (b1 := with_queues b m mp1 its ws).
    destruct (IH b1 (<[i := q ++ [m]]> Q) G (S i) m mp1) as (its' & ws' & nd & Q' & -> & Hok' & Hdom' & Hs' & Hl' & HQ' & Hnd').
    + done.
    + rewrite length_insert. lia.
    + intros j qj Hj Hqj. rewrite list_lookup_insert_ne in Hqj by lia. apply (Hm j); [lia|done].
    + cbn. by rewrite lookup_insert_eq.
    + rewrite length_insert. cbn. by rewrite length_insert.
    + rewrite length_insert. intros j Hj. apply Hdom1. by apply Hit.
    + exists its', ws', nd, Q'. split_and!.
      * unfold b1, with_queues, put_message, mp1. destruct b, mp. unfold upd. cbn. by rewrite insert_insert_eq.
      * done.
      * intros l. by rewrite Hdom', <- Hdom1.
      * unfold same_subs in *. by rewrite Hs', <- Hs1.
      * rewrite Hl'. cbn. by rewrite length_insert.
      * intros j. rewrite HQ'. destruct (decide (i = j)) as [<-|Hne].
        -- rewrite decide_False, decide_True, list_lookup_insert_eq, HQ by (lia || by eapply lookup_lt_Some). done.
        -- rewrite list_lookup_insert_ne by done. destruct (decide (S i <= j)%nat), (decide (i <= j)%nat); try done; lia.
      * rewrite length_insert in Hnd'. intros j Hj. rewrite Hnd' by done. cbn. destruct (decide (i = j)) as [<-|Hne].
        -- rewrite decide_False, decide_True, list_lookup_insert_eq by lia. done.
        -- rewrite list_lookup_insert_ne by done. destruct (decide (S i <= j)%nat), (decide (i <= j)%nat); try done; lia.
Qed.

Lemma elem_of_snoc (q : list Z) m m' : m' <> m -> m' ∈ q ++ [m] <-> m' ∈ q.
Proof. intros Hne. rewrite elem_of_app, list_elem_of_singleton. naive_solver. Qed.

(** Two lists of queues have the message [m] in the same places. *)
Definition agree_on (m : Z) (Q Q' : list (list Z)) : Prop :=
  length Q' = length Q /\ forall i q q', Q !! i = Some q -> Q' !! i = Some q' -> m ∈ q' <-> m ∈ q.

Lemma agree_refl m Q : agree_on m Q Q.
Proof. split; [done|]. intros i q q' Hq Hq'. by simplify_eq. Qed.

Lemma agree_insert m Q i q q' : Q !! i = Some q -> (m ∈ q' <-> m ∈ q) -> agree_on m Q (<[i := q']> Q).
Proof.
  intros Hi Hq. split; [by rewrite length_insert|]. intros j qj qj' Hj Hj'.
  apply elem_of_insert_lookup in Hj' as [[-> ->]|[_ Hj']]; by simplify_eq.
Qed.

Lemma agree_fmap m Q f : (forall q, m ∈ f q <-> m ∈ q) -> agree_on m Q (f <$> Q).
Proof.
  intros Hf. split; [by rewrite length_fmap|]. intros i q q' Hq Hq'. rewrite list_lookup_fmap, Hq in Hq'.
  cbn in Hq'. injection Hq' as <-. apply Hf.
Qed.

Lemma agree_back m Q Q' i q' : agree_on m Q Q' -> Q' !! i = Some q' -> exists q, Q !! i = Some q /\ (m ∈ q' <-> m ∈ q).
Proof.
  intros [Hl Ha] Hi. destruct (lookup_lt_is_Some_2 Q i) as [q Hq]; [rewrite <- Hl; by eapply lookup_lt_Some|].
  exists q. split; [done|]. by apply (Ha i).
Qed.

Lemma msg_ok_frame b b' Q Q' G G' m mp :
  msg_ok b Q G m mp -> same_clients (b_clients b) (b_clients b') ->
  (forall l, l ∈ message_items m -> is_Some (b_items b !! l) -> is_Some (b_items b' !! l)) ->
  agree_on m Q Q' -> agree_on m G G' -> msg_ok b' Q' G' m mp.
Proof.
  intros [H1 H2 H3 Hf (cp & Hc & Ho & Hor) Hg Hi] Hcl Hit HQ HG. split; [done|done|done| | | |].
  - intros i q' Hq'. destruct (agree_back _ _ _ _ _ HQ Hq') as (q & Hq & E). destruct (Hf i q Hq) as (v & Hv & Ev). exists v. by rewrite E.
  - destruct (same_clients_lookup _ _ _ _ Hcl Hc) as (cp' & Hc' & He). apply (f_equal c_worker) in He. cbn in He.
    exists cp'. split; [done|]. rewrite He. split.
    + intros i g' Hg' Hin. destruct (agree_back _ _ _ _ _ HG Hg') as (g & Hgg & E). apply E in Hin. by eapply Ho.
    + intros i q' g' Hq' Hg' Hw. destruct (agree_back _ _ _ _ _ HQ Hq') as (q & Hq & ->).
      destruct (agree_back _ _ _ _ _ HG Hg') as (g & Hgg & ->). by eapply Hor.
  - intros i q' g' Hq' Hg'. destruct (agree_back _ _ _ _ _ HQ Hq') as (q & Hq & ->).
    destruct (agree_back _ _ _ _ _ HG Hg') as (g & Hgg & ->). by eapply Hg.
  - intros l Hl. by apply Hit, Hi.
Qed.

Lemma subscribed_frame b b' o M :
  b_nodes b' = b_nodes b -> same_clients (b_clients b) (b_clients b') -> subscribed b o M -> subscribed b' o M.
Proof.
  intros Hn Hc [Hr Hl Hs]. split; rewrite ?Hn; [done| |done]. intros s k Hk. eapply sub_target_same; [done|by eapply Hl].
Qed.

Lemma subs_frame b b' (Q Q' : list (list Z)) :
  (forall i wp, b_workers b !! i = Some wp -> (i < length Q)%nat -> exists M, subscribed b (w_subs wp) M) ->
  same_subs (b_workers b) (b_workers b') -> length Q' = length Q -> b_nodes b' = b_nodes b ->
  same_clients (b_clients b) (b_clients b') ->
  forall i wp, b_workers b' !! i = Some wp -> (i < length Q')%nat -> exists M, subscribed b' (w_subs wp) M.
Proof.
  intros Hs Hss Hl Hn Hc i wp' Hi Hlt. destruct (same_subs_lookup _ _ _ _ Hss Hi) as (wp & Hwp & <-).
  destruct (Hs i wp Hwp) as [M HM]; [lia|]. exists M. by eapply subscribed_frame.
Qed.

(** A message as [on_recv_publish] gets it. *)
Record fresh_message (mp : message_st) : Prop := {
  fm_state : m_state mp = M_STATE_IN_USE;
  fm_sendable : sendable mp;
  fm_dup : m_dup mp <= 1;
  fm_packet_id : 0 <= m_packet_id mp < 65536;
  fm_topic : exists s junk, m_topic mp = s ++ 0 :: junk /\ text s /\ topic_levels (levels s)
}.

(** The broker with a message at a fresh address. *)
Definition with_message (b : broker) (mp0 mp : message_st) : broker :=
  put_message (alloc_message b mp0).1 (b_fresh b) mp.

Lemma with_message_items b mp0 mp l :
  b_items (with_message b mp0 mp) !! l
  = if decide (l ∈ message_items (b_fresh b)) then Some (mk_queue_item None None) else b_items b !! l.
Proof. apply (lookup_foldr_insert (b_items b) (message_items (b_fresh b))). Qed.

Lemma queue_message_ok b Q G mp0 mp cp :
  msg_inv b Q G -> fresh_message mp -> b_clients b !! m_client mp = Some cp ->
  let m := b_fresh b in
  exists its ws nd, let b' := with_queues (with_message b mp0 mp) m (mp <| m_not_done := nd |>) its ws in
    workers_queue_message (with_message b mp0 mp) m = Ok b' /\ msg_inv b' ((fun q => q ++ [m]) <$> Q) G /\
    same_subs (b_workers b) ws.
Proof.
  intros Hinv [Hst Hsend Hdup _ Htop] Hcp m. pose proof Hinv as [Hok [Hn Hmax] Hms Hkn Hfr Hsub Htls].
  set (b1 := with_message b mp0 mp).
  assert (~ queued Q G m) as Hnq.
  { intros Hq. pose proof (Hfr m (Hkn m Hq)). unfold m in *. lia. }
  assert (forall i, (i < length Q)%nat -> MsgNode m (Z.of_nat i) ∈ message_items m) as Hnode.
  { intros i Hi. right. apply list_elem_of_fmap. exists (Z.of_nat i). split; [done|]. apply elem_of_seqZ.
    unfold zlen in Hmax. lia. }
  assert (queues_ok (b_items b1) (b_workers b1) Q G) as Hok1.
  { eapply (queues_other _ _ _ _ _ m Hok Hnq). intros l Hl. unfold b1. rewrite with_message_items. by rewrite decide_False. }
  assert (forall l, is_Some (b_items b !! l) -> is_Some (b_items b1 !! l)) as Hit1.
  { intros l Hl. unfold b1. rewrite with_message_items. by case_decide. }
  pose proof (mw_not_done _ (sm_wf _ Hsend)) as Hndl.
  assert (b_messages b1 !! m = Some mp) as Hb1m by (cbn; by rewrite lookup_insert_eq).
  destruct (push_loop_ok (length Q) b1 Q G 0 m mp Hok1) as (its & ws & nd & Q' & E & Hok' & Hdom & Hss & Hl & HQ' & Hnd); try done.
  { intros j q _ Hq Hin. apply Hnq. eauto. }
  { unfold zlen in *. lia. }
  { intros j Hj. unfold b1. rewrite with_message_items, decide_True by (by apply Hnode). by eexists. }
  assert (Q' = (fun q => q ++ [m]) <$> Q) as ->.
  { apply list_eq. intros j. rewrite HQ', list_lookup_fmap. by rewrite decide_True by lia. }
  exists its, ws, nd. cbn zeta. split.
  { unfold workers_queue_message. rewrite (get_message_ok b1 m mp) by done. cbn [mbind outcome_bind].
    rewrite ASSERT_ok by (apply Z.leb_le; done). cbn [mbind outcome_bind].
    change (b_num_workers b1) with (b_num_workers b). rewrite Hn. unfold zlen. rewrite Nat2Z.id. exact E. }
  assert (forall l, is_Some (b_items b !! l) -> is_Some (its !! l)) as Hits by (intros l Hl'; by apply Hdom, Hit1).
  split; [|exact Hss]. split; cbn.
  - done.
  - unfold zlen in *. rewrite length_fmap. done.
  - intros m' mp' Hm'. rewrite !insert_insert_eq in Hm'. destruct (decide (m' = m)) as [->|Hne].
    + rewrite lookup_insert_eq in Hm'. injection Hm' as <-. destruct Hsend as [[]]. split; try done.
      * split; [split|]; cbn; try done. unfold zlen in *. rewrite Hl. done.
      * intros i q Hq. cbn. rewrite Hnd.
        2: { apply lookup_lt_Some in Hq. by rewrite length_fmap in Hq. }
        rewrite decide_True by lia. exists 1. split; [done|]. rewrite list_lookup_fmap in Hq.
        destruct (Q !! i) as [q0|]; [|done]. cbn in Hq. injection Hq as <-.
        split; [|done]. intros _. apply elem_of_app. right. by apply list_elem_of_singleton.
      * exists cp. split; [done|]. split.
        -- intros i g Hg Hin. exfalso. apply Hnq. eauto.
        -- intros i q g Hq _ _. left. rewrite list_lookup_fmap in Hq. destruct (Q !! i) as [q0|]; [|done].
           injection Hq as <-. apply elem_of_app. right. by apply list_elem_of_singleton.
      * intros i q g _ Hg Hin. exfalso. apply Hnq. eauto.
      * intros l Hin. apply Hdom. unfold b1. rewrite with_message_items, decide_True by done. by eexists.
    + rewrite lookup_insert_ne in Hm' by done. eapply msg_ok_frame; [by apply Hms|done| |apply agree_fmap|apply agree_refl].
      * intros l _. apply Hits.
      * intros q. by apply elem_of_snoc.
  - intros m' [Hin|Hin].
    + apply concat_lookup in Hin as (i & q' & Hq' & Hin). rewrite list_lookup_fmap in Hq'.
      destruct (Q !! i) as [q|] eqn:Hq; [|done]. injection Hq' as <-.
      rewrite !insert_insert_eq. destruct (decide (m' = m)) as [->|Hne]; [rewrite lookup_insert_eq; by eexists|].
      rewrite lookup_insert_ne by done. apply Hkn. eapply queued_msg; [done|]. by eapply elem_of_snoc.
    + rewrite !insert_insert_eq. destruct (decide (m' = m)) as [->|Hne]; [rewrite lookup_insert_eq; by eexists|].
      rewrite lookup_insert_ne by done. apply Hkn. by right.
  - intros m'. rewrite !insert_insert_eq. destruct (decide (m' = m)) as [->|Hne]; [unfold m; lia|].
    rewrite lookup_insert_ne by done. intros Hs. specialize (Hfr _ Hs). lia.
  - apply (subs_frame b (with_queues b1 m (mp <| m_not_done := nd |>) its ws) Q ((fun q => q ++ [m]) <$> Q)); try done.
    by rewrite length_fmap.
  - done.
Qed.

(** ** Delivery *)

Lemma queue_NoDup h ws Q G i q g : queues_ok h ws Q G -> Q !! i = Some q -> G !! i = Some g -> NoDup q /\ NoDup g.
Proof.
  intros Hok HQ HG. destruct (qo_worker _ _ _ _ Hok i q g HQ HG) as (wp & _ & _ & [Hc _] & [Hc' _]).
  apply chain_NoDup, NoDup_fmap_1 in Hc. by apply chain_NoDup, NoDup_fmap_1 in Hc'.
Qed.

Lemma same_queue_length h ws (Q G : list (list Z)) i q :
  queues_ok h ws Q G -> Q !! i = Some q -> exists g, G !! i = Some g.
Proof. intros Hok HQ. apply lookup_lt_is_Some_2. rewrite <- (qo_len _ _ _ _ Hok). by eapply lookup_lt_Some. Qed.

(** Taking a message off the queue. *)
Lemma w_message_pop_ok b Q G i m q mp :
  queues_ok (b_items b) (b_workers b) Q G -> Q !! i = Some (m :: q) -> b_messages b !! m = Some mp ->
  m_state mp = M_STATE_IN_USE ->
  exists ws, w_message_pop b (Z.of_nat i) = Ok (b <| b_workers := ws |>, Some m) /\
    queues_ok (b_items b) ws (<[i := q]> Q) G /\ same_subs (b_workers b) ws.
Proof.
  intros Hok HQ Hm Hst. destruct (same_queue_length _ _ _ _ _ _ Hok HQ) as [g HG].
  destruct (qo_worker _ _ _ _ Hok i _ g HQ HG) as (wp & Hwp & _).
  destruct (queues_pop_msg _ _ _ _ i q g wp m Hok HQ HG Hwp) as (q' & E & Hok').
  exists (<[i := wp <| w_msg_q := q' |>]> (b_workers b)). split; [|split; [done|by eapply same_subs_insert]].
  unfold w_message_pop. rewrite (get_worker_at b i wp) by done. cbn [mbind outcome_bind]. rewrite E. cbn [mbind outcome_bind].
  pose proof (qo_msg_p _ _ _ _ Hok i _ m HQ ltac:(by left)) as Hp.
  destruct (b_items b !! MsgNode m (Z.of_nat i)) as [it|] eqn:Hit; [|done]. injection Hp as Hp.
  rewrite put_worker_at. rewrite (item_get_ok _ _ it) by done. cbn [mbind outcome_bind]. rewrite Hp.
  rewrite (get_message_ok _ m mp) by done. cbn [mbind outcome_bind].
  by rewrite ASSERT_ok by (by apply bool_decide_eq_true_2).
Qed.

Lemma alter_at {A} (f : A -> A) (l : list A) i x : l !! i = Some x -> alter f i l = <[i := f x]> l.
Proof. intros Hi. rewrite list_insert_alter. apply list_alter_ext; [|done]. intros y Hy. by simplify_eq. Qed.

(** The garbage queues after a delivery by worker [i]. *)
Definition after_delivery (G : list (list Z)) (i : nat) (m owner : Z) : list (list Z) :=
  if owner =? Z.of_nat i then alter (fun g => g ++ [m]) i G else G.

Lemma w_delivered_ok b Q G i q m mp cp :
  queues_ok (b_items b) (b_workers b) Q G -> Q !! i = Some q -> b_messages b !! m = Some mp ->
  m_state mp = M_STATE_IN_USE -> (i < length (m_not_done mp))%nat -> b_clients b !! m_client mp = Some cp ->
  is_Some (b_items b !! GcNode m) -> (c_worker cp = Z.of_nat i -> forall j g, G !! j = Some g -> m ∉ g) ->
  exists its ws,
    w_delivered b (Z.of_nat i) m = Ok (with_queues b m (mp <| m_not_done := <[i := 0]> (m_not_done mp) |>) its ws) /\
    queues_ok its ws Q (after_delivery G i m (c_worker cp)) /\
    (forall l, is_Some (its !! l) <-> is_Some (b_items b !! l)) /\ same_subs (b_workers b) ws.
Proof.
  intros Hok HQ Hm Hst Hi Hcp [it Hit] Hfree. destruct (same_queue_length _ _ _ _ _ _ Hok HQ) as [g HG].
  destruct (qo_worker _ _ _ _ Hok i _ g HQ HG) as (wp & Hwp & Hix & _).
  unfold w_delivered. rewrite (get_worker_at b i wp) by done. cbn [mbind outcome_bind]. rewrite Hix.
  rewrite (set_not_done_ok _ _ mp) by done. cbn [mbind outcome_bind].
  set (mp' := mp <| m_not_done := _ |>). set (b1 := put_message b m mp').
  rewrite (get_message_ok b1 m mp') by (cbn; by rewrite lookup_insert_eq). cbn [mbind outcome_bind].
  rewrite (get_client_ok b1 (m_client mp') cp) by done. cbn [mbind outcome_bind]. unfold after_delivery.
  destruct (Z.eqb_spec (c_worker cp) (Z.of_nat i)) as [Hw|Hw].
  - destruct (queues_push_gc _ _ _ _ i q g wp m it Hok HQ HG Hwp (Hfree Hw) Hit) as (its & q' & E & Hok' & Hdom).
    exists its, (<[i := wp <| w_gc_q := q' |>]> (b_workers b)). split_and!; [|by rewrite (alter_at _ _ _ _ HG)|done|by eapply same_subs_insert].
    change (b_items b1) with (b_items b). unfold set_item_p. rewrite (item_get_ok _ _ it) by done. cbn [mbind outcome_bind mret outcome_ret].
    rewrite ASSERT_ok by (by apply bool_decide_eq_true_2). cbn [mbind outcome_bind].
    rewrite (get_worker_at b1 i wp) by done. cbn [mbind outcome_bind]. rewrite E. cbn [mbind outcome_bind mret outcome_ret].
    by rewrite put_worker_at.
  - exists (b_items b), (b_workers b). split_and!; [|done|done|done]. unfold with_queues, b1, put_message. by destruct b.
Qed.

(** The queues with a message gone from worker [i], and the flags to match. *)
Lemma flags_after (Q : list (list Z)) i (q : list Z) m (nd : list Z) :
  Q !! i = Some (m :: q) -> m ∉ q -> (i < length nd)%nat ->
  (forall j qj, Q !! j = Some qj -> exists v, nd !! j = Some v /\ (v <> 0 <-> m ∈ qj)) ->
  forall j qj, <[i := q]> Q !! j = Some qj -> exists v, <[i := 0]> nd !! j = Some v /\ (v <> 0 <-> m ∈ qj).
Proof.
  intros Hi Hm Hl Hf j qj Hj. apply elem_of_insert_lookup in Hj as [[-> ->]|[Hne Hj]].
  - exists 0. by rewrite list_lookup_insert_eq.
  - rewrite list_lookup_insert_ne by done. by apply Hf.
Qed.

Lemma after_delivery_lookup G i m owner j g :
  after_delivery G i m owner !! j = Some g ->
  exists g0, G !! j = Some g0 /\ g = if decide (owner = Z.of_nat i /\ j = i) then g0 ++ [m] else g0.
Proof.
  unfold after_delivery. destruct (Z.eqb_spec owner (Z.of_nat i)) as [Ho|Ho].
  - rewrite list_lookup_alter. destruct (decide (i = j)) as [->|Hne].
    + destruct (G !! j) as [g0|]; [|done]. intros [= <-]. exists g0. by rewrite decide_True.
    + intros Hj. exists g. rewrite decide_False by (intros [_ ->]; done). done.
  - intros Hj. exists g. by rewrite decide_False by (intros [? _]; done).
Qed.

Lemma length_after_delivery G i m owner : length (after_delivery G i m owner) = length G.
Proof. unfold after_delivery. destruct (owner =? Z.of_nat i); [|done]. apply length_alter. Qed.

Section life.
Context `{Libc} `{Sys}.

(** What worker [i] does to the clients and the sockets when it delivers [mp]
    to the subscriptions that match. *)
Definition delivers (b b' : broker) (i : nat) (mp : message_st) : Prop :=
  forall wp M s junk, b_workers b !! i = Some wp -> subscribed b (w_subs wp) M ->
    m_topic mp = s ++ 0 :: junk -> text s -> topic_levels (levels s) ->
    b_clients b' = deliver_clients (b_clients b) mp (found_subs M s) /\
    forall sd, wire b' sd = wire b sd ++ deliver_stream (b_clients b) mp (found_subs M s) sd.

(** One message delivered by worker [i]. *)
Lemma deliver_one_ok b Q G i m q mp cp :
  sends_progress -> msg_inv b Q G -> Q !! i = Some (m :: q) -> b_messages b !! m = Some mp ->
  b_clients b !! m_client mp = Some cp ->
  exists b', deliver_one c_deliver b (Z.of_nat i) = Ok (b', true) /\
    msg_inv b' (<[i := q]> Q) (after_delivery G i m (c_worker cp)) /\
    (exists nd, b_messages b' = <[m := mp <| m_not_done := nd |>]> (b_messages b)) /\ b_config b' = b_config b /\
    b_num_workers b' = b_num_workers b /\ same_clients (b_clients b) (b_clients b') /\
    b_nodes b' = b_nodes b /\ same_subs (b_workers b) (b_workers b') /\ delivers b b' i mp.
Proof.
  intros Hs Hinv HQ Hm Hcp. pose proof Hinv as [Hok [Hn Hmax] Hms Hkn Hfr Hsub Htls].
  pose proof (Hms m mp Hm) as [Hst Hsend (s & junk & Ht & Htx & Hlv) Hf (cp0 & Hcp0 & Hown & Hor) Hg Hit]. simplify_eq.
  destruct (same_queue_length _ _ _ _ _ _ Hok HQ) as [g HG].
  destruct (queue_NoDup _ _ _ _ _ _ _ Hok HQ HG) as [[Hmq _]%NoDup_cons _].
  destruct (qo_worker _ _ _ _ Hok i _ g HQ HG) as (wp & Hwp & Hix & _).
  pose proof (lookup_lt_Some _ _ _ HQ) as Hlt.
  assert (i < length (m_not_done mp))%nat as Hnd.
  { pose proof (mw_not_done _ (sm_wf _ Hsend)). unfold zlen in *. lia. }
  unfold deliver_one. destruct (w_message_pop_ok b Q G i m q mp Hok HQ Hm Hst) as (ws & -> & Hok1 & Hss1).
  cbn [mbind outcome_bind]. set (b1 := b <| b_workers := ws |>).
  destruct (lookup_lt_is_Some_2 ws i) as [wp1 Hwp1].
  { apply (f_equal length) in Hss1. rewrite !length_fmap in Hss1. rewrite Hss1. by eapply lookup_lt_Some. }
  destruct (same_subs_lookup _ _ _ _ Hss1 Hwp1) as (wp0 & Hwp0 & Hsubs). simplify_eq.
  destruct (Hsub i wp Hwp Hlt) as [M HM0].
  assert (subscribed b1 (w_subs wp) M) as HM by (by destruct HM0; split).
  rewrite (get_worker_at b1 i wp1) by done. cbn [mbind outcome_bind].
  rewrite (get_message_ok b1 m mp) by done. cbn [mbind outcome_bind]. rewrite <- Hsubs.
  destruct (search_deliver_ok b1 (w_subs wp) M mp s junk Hs Hsend) as (b2 & E2 & Hd); try done.
  rewrite E2. cbn [mbind outcome_bind].
  assert (delivers b b2 i mp) as Hdv.
  { intros wp' M' s' junk' Hwp' HM' Ht' Htx' Hlv'. rewrite Hwp in Hwp'. injection Hwp' as <-.
    assert (subscribed b1 (w_subs wp) M') as HM1 by (by destruct HM'; split).
    destruct (search_deliver_ok b1 (w_subs wp) M' mp s' junk' Hs Hsend) as (b2' & E2' & [[log' Ho'] Hw']); try done.
    rewrite E2 in E2'. injection E2' as <- _. split; [by rewrite Ho'|exact Hw']. }
  destruct (delivery_quiet _ _ _ _ Hd) as (cs & log & -> & Hsame). clear Hd.
  set (b2 := b1 <| b_clients := cs |> <| b_log := log |>).
  destruct (same_clients_lookup _ _ _ _ Hsame Hcp) as (cp' & Hcp' & He). apply (f_equal c_worker) in He. cbn in He.
  destruct (w_delivered_ok b2 (<[i := q]> Q) G i q m mp cp') as (its & ws2 & -> & Hok2 & Hdom & Hss2); try done.
  { by rewrite list_lookup_insert_eq. }
  { apply Hit. by left. }
  { intros Hw j gj Hj Hin. rewrite He, (Hown j gj Hj Hin) in Hw. assert (j = i) as -> by lia.
    apply (Hg i _ _ HQ Hj Hin). by left. }
  rewrite He in Hok2. cbn [mbind outcome_bind mret outcome_ret]. eexists. split; [done|].
  set (mp2 := mp <| m_not_done := _ |>) in *.
  assert (same_subs (b_workers b) ws2) as Hss by (unfold same_subs in *; cbn in *; congruence).
  split; [|split_and!; [by eexists|done|done|exact Hsame|done|exact Hss|exact Hdv]].
  split.
  - exact Hok2.
  - unfold zlen in *. rewrite length_insert. done.
  - intros m' mp' Hm'. cbn in Hm'. destruct (decide (m' = m)) as [->|Hne].
    + rewrite lookup_insert_eq in Hm'. injection Hm' as <-. pose proof (mo_topic _ _ _ _ _ (Hms m mp Hm)) as Htop.
      destruct Hsend as [[]]. split; try done.
      * split; [split|]; try done. cbn. unfold zlen in *. rewrite length_insert. done.
      * by apply flags_after.
      * exists cp'. split; [done|]. split.
        -- intros j gj Hj Hin. apply after_delivery_lookup in Hj as (g0 & Hg0 & ->). rewrite He.
           destruct (decide _) as [[Hw ->]|_]; [done|by eapply Hown].
        -- intros j qj gj Hqj Hgj Hw. apply after_delivery_lookup in Hgj as (g0 & Hg0 & ->). rewrite He in Hw.
           apply elem_of_insert_lookup in Hqj as [[-> ->]|[Hne Hqj]].
           ++ right. rewrite decide_True by done. apply elem_of_app. right. by apply list_elem_of_singleton.
           ++ destruct (decide _) as [[_ ->]|_]; [done|]. by apply (Hor j).
      * intros j qj gj Hqj Hgj Hin. apply after_delivery_lookup in Hgj as (g0 & Hg0 & ->).
        apply elem_of_insert_lookup in Hqj as [[-> ->]|[Hne Hqj]]; [done|].
        destruct (decide _) as [[_ ->]|_]; [done|]. by eapply Hg.
      * intros l Hl. cbn. by apply Hdom, Hit.
    + rewrite lookup_insert_ne in Hm' by done. eapply msg_ok_frame; [by apply Hms|done| | |].
      * intros l _ Hl. cbn. by apply Hdom.
      * eapply agree_insert; [done|]. split; [by right|]. by intros [?|?]%elem_of_cons.
      * split; [apply length_after_delivery|]. intros j gj gj' Hj Hj'.
        apply after_delivery_lookup in Hj' as (g0 & Hg0 & ->). simplify_eq.
        case_decide; [by apply elem_of_snoc|done].
  - intros m' Hq. cbn. destruct (decide (m' = m)) as [->|Hne]; [rewrite lookup_insert_eq; by eexists|].
    rewrite lookup_insert_ne by done. apply Hkn. destruct Hq as [Hin|Hin]; apply concat_lookup in Hin as (j & x & Hj & Hin).
    + apply elem_of_insert_lookup in Hj as [[-> ->]|[_ Hj]]; [|by eauto]. eapply queued_msg; [done|by right].
    + apply after_delivery_lookup in Hj as (g0 & Hg0 & ->). case_decide; [apply elem_of_snoc in Hin; [|done]|]; eauto.
  - intros m'. cbn. destruct (decide (m' = m)) as [->|Hne]; [intros _; apply Hfr; by eexists|].
    rewrite lookup_insert_ne by done. apply Hfr.
  - apply (subs_frame b (with_queues b2 m mp2 its ws2) Q (<[i := q]> Q)); try done. by rewrite length_insert.
  - by eapply no_tls_same.
Qed.
Lemma deliver_none b Q G i :
  msg_inv b Q G -> Q !! i = Some [] -> deliver_one c_deliver b (Z.of_nat i) = Ok (b, false).
Proof.
  intros [Hok _ _ _ _ _ _] HQ. destruct (same_queue_length _ _ _ _ _ _ Hok HQ) as [g HG].
  destruct (qo_worker _ _ _ _ Hok i _ g HQ HG) as (wp & Hwp & _ & Hq & _).
  unfold deliver_one, w_message_pop. rewrite (get_worker_at b i wp) by done. cbn [mbind outcome_bind].
  rewrite (queue_pop_empty _ _ Hq). cbn [mbind outcome_bind mret outcome_ret]. rewrite put_worker_at.
  assert (wp <| w_msg_q := w_msg_q wp |> = wp) as -> by (by destruct wp).
  rewrite list_insert_id by done. by destruct b.
Qed.

(** ** Garbage collection *)

Lemma done_loop_ok nd n : forall i acc,
  (i + n <= length nd)%nat ->
  exists v, done_loop n nd (Z.of_nat i) acc = Ok v /\
    (v = 0 <-> acc = 0 /\ forall j, (i <= j < i + n)%nat -> nd !! j = Some 0).
Proof.
  induction n as [|n IH]; intros i acc Hl; cbn [done_loop].
  - exists acc. split; [done|]. split; [|by intros [? _]]. intros ->. split; [done|]. lia.
  - destruct (lookup_lt_is_Some_2 nd i) as [x Hx]; [lia|].
    rewrite (arr_get_ok _ _ x) by (lia || by rewrite Nat2Z.id). cbn [mbind outcome_bind].
    replace (Z.of_nat i + 1) with (Z.of_nat (S i)) by lia.
    destruct (IH (S i) (Z.lor acc x)) as (v & -> & Hv); [lia|]. exists v. split; [done|].
    rewrite Hv, Z.lor_eq_0_iff. split.
    + intros [[-> ->] Hj]. split; [done|]. intros j Hij. destruct (decide (j = i)) as [->|]; [done|]. apply Hj. lia.
    + intros [-> Hj]. split; [|intros j Hij; apply Hj; lia]. split; [done|].
      specialize (Hj i ltac:(lia)). congruence.
Qed.

(** The flags [message_done] looks at. *)
Definition flags_clear (ns : nat) (mp : message_st) : Prop := forall j, (j < ns)%nat -> m_not_done mp !! j = Some 0.

Lemma message_done_ok b m mp :
  b_messages b !! m = Some mp -> (Z.to_nat (cf_num_servers (b_config b)) <= length (m_not_done mp))%nat ->
  exists done, message_done b m = Ok done /\
    (done = true <-> flags_clear (Z.to_nat (cf_num_servers (b_config b))) mp).
Proof.
  intros Hm Hl. unfold message_done. rewrite (get_message_ok b m mp) by done. cbn [mbind outcome_bind].
  destruct (done_loop_ok (m_not_done mp) (Z.to_nat (cf_num_servers (b_config b))) 0 0) as (v & E & Hv); [done|].
  change (Z.of_nat 0) with 0 in E. rewrite E. cbn [mbind outcome_bind mret outcome_ret]. exists (v =? 0). split; [done|].
  rewrite Z.eqb_eq, Hv. unfold flags_clear. split.
  - intros [_ Hj] j Hlt. apply Hj. lia.
  - intros Hj. split; [done|]. intros j Hlt. apply Hj. lia.
Qed.

Lemma gc_one_step b Q G i m g mp :
  msg_inv b Q G -> G !! i = Some (m :: g) -> b_messages b !! m = Some mp ->
  0 <= cf_num_servers (b_config b) <= MAX_NUM_WORKERS ->
  (~ flags_clear (Z.to_nat (cf_num_servers (b_config b))) mp /\ gc_one b (Z.of_nat i) = Ok (b, false)) \/
  (flags_clear (Z.to_nat (cf_num_servers (b_config b))) mp /\ exists ws,
    gc_one b (Z.of_nat i) = Ok (free_message (put_message (b <| b_workers := ws |>) m (mp <| m_state := M_STATE_FREE |>)) m, true) /\
    queues_ok (b_items b) ws Q (<[i := g]> G) /\ same_subs (b_workers b) ws).
Proof.
  intros Hinv HG Hm Hns. pose proof Hinv as [Hok _ Hms _ _ _ _]. pose proof (Hms m mp Hm) as [Hst Hsend _ _ _ _ Hit].
  destruct (lookup_lt_is_Some_2 Q i) as [q HQ]; [rewrite (qo_len _ _ _ _ Hok); by eapply lookup_lt_Some|].
  destruct (qo_worker _ _ _ _ Hok i _ _ HQ HG) as (wp & Hwp & _ & _ & Hg).
  unfold gc_one. rewrite (get_worker_at b i wp) by done. cbn [mbind outcome_bind].
  rewrite (queue_peek_rep _ _ _ Hg). cbn [fmap list_fmap head].
  pose proof (qo_gc_p _ _ _ _ Hok i _ m HG ltac:(by left)) as Hp.
  destruct (b_items b !! GcNode m) as [it|] eqn:Hitm; [|done]. injection Hp as Hp.
  rewrite (item_get_ok _ _ it) by done. cbn [mbind outcome_bind]. rewrite Hp.
  destruct (message_done_ok b m mp Hm) as (d & -> & Hd).
  { pose proof (mw_not_done _ (sm_wf _ Hsend)). unfold zlen in *. lia. }
  cbn [mbind outcome_bind]. destruct d; cbn [negb].
  - right. split; [by apply Hd|]. destruct (queues_pop_gc _ _ _ _ i q g wp m Hok HQ HG Hwp) as (q' & -> & Hok').
    cbn [mbind outcome_bind]. rewrite put_worker_at. rewrite (get_message_ok _ m mp) by done. cbn [mbind outcome_bind].
    rewrite ASSERT_ok by (by apply bool_decide_eq_true_2). cbn [mbind outcome_bind mret outcome_ret].
    eexists. split; [done|]. split; [done|by eapply same_subs_insert].
  - left. split; [|done]. intros Hc. apply Hd in Hc. done.
Qed.

Lemma gc_none b Q G i : msg_inv b Q G -> G !! i = Some [] -> gc_one b (Z.of_nat i) = Ok (b, false).
Proof.
  intros [Hok _ _ _ _ _ _] HG.
  destruct (lookup_lt_is_Some_2 Q i) as [q HQ]; [rewrite (qo_len _ _ _ _ Hok); by eapply lookup_lt_Some|].
  destruct (qo_worker _ _ _ _ Hok i q _ HQ HG) as (wp & Hwp & _ & _ & Hg).
  unfold gc_one. rewrite (get_worker_at b i wp) by done. cbn [mbind outcome_bind].
  by rewrite (queue_peek_rep _ _ _ Hg).
Qed.

(** Freeing a message that is on no queue. *)
Lemma free_inv b Q G i m g mp ws :
  msg_inv b Q G -> G !! i = Some (m :: g) -> m ∉ concat Q ->
  queues_ok (b_items b) ws Q (<[i := g]> G) -> same_subs (b_workers b) ws ->
  msg_inv (free_message (put_message (b <| b_workers := ws |>) m mp) m) Q (<[i := g]> G).
Proof.
  intros Hinv HG HmQ Hok' Hss. pose proof Hinv as [Hok [Hn Hmax] Hms Hkn Hfr Hsub Htls].
  destruct (lookup_lt_is_Some_2 Q i) as [q HQ]; [rewrite (qo_len _ _ _ _ Hok); by eapply lookup_lt_Some|].
  destruct (queue_NoDup _ _ _ _ _ _ _ Hok HQ HG) as [_ [Hmg _]%NoDup_cons].
  assert (~ queued Q (<[i := g]> G) m) as Hnq.
  { intros [?|Hin]; [done|]. apply concat_lookup in Hin as (j & gj & Hj & Hin).
    apply elem_of_insert_lookup in Hj as [[-> ->]|[Hne Hj]]; [done|]. apply Hne.
    eapply (qo_gc_one _ _ _ _ Hok j i); [done|done|done|by left]. }
  set (b' := free_message _ m).
  assert (forall m', b_messages b' !! m' = if decide (m' = m) then None else b_messages b !! m') as Hmsg.
  { intros m'. cbn. rewrite delete_insert_eq. case_decide as Hd; [subst; apply lookup_delete_eq|by apply lookup_delete_ne]. }
  assert (forall l, l ∉ message_items m -> b_items b' !! l = b_items b !! l) as Hits.
  { intros l Hl. apply (lookup_foldr_delete (b_items b) (message_items m) l Hl). }
  split.
  - eapply queues_other; [exact Hok'|exact Hnq|exact Hits].
  - done.
  - intros m' mp' Hm'. rewrite Hmsg in Hm'. case_decide as Hd; [done|].
    eapply msg_ok_frame; [by apply Hms|done| |apply agree_refl|].
    + intros l Hl Hs. rewrite Hits; [done|]. intros Hl'.
      apply elem_of_items in Hl as [E1|[? E1]], Hl' as [E2|[? E2]]; congruence.
    + eapply agree_insert; [done|]. split; [by right|]. by intros [?|?]%elem_of_cons.
  - intros m' Hq. rewrite Hmsg. case_decide as Hd; [by subst|]. apply Hkn.
    destruct Hq as [?|Hin]; [by left|]. right. apply concat_lookup in Hin as (j & gj & Hj & Hin).
    apply concat_lookup. apply elem_of_insert_lookup in Hj as [[-> ->]|[_ Hj]]; [|by eauto].
    exists i, (m :: g). split; [done|by right].
  - intros m'. rewrite Hmsg. case_decide; [by intros [? ?]|]. apply Hfr.
  - apply (subs_frame b b' Q Q); done.
  - done.
Qed.

Lemma flags_clear_free b Q G ns m mp :
  msg_ok b Q G m mp -> (length Q <= ns)%nat -> flags_clear ns mp -> m ∉ concat Q.
Proof.
  intros Hm Hns Hc Hin. apply concat_lookup in Hin as (i & q & Hq & Hin).
  destruct (mo_flag _ _ _ _ _ Hm i q Hq) as (v & Hv & Hiff). apply Hiff in Hin. apply Hin.
  pose proof (lookup_lt_Some _ _ _ Hq). rewrite (Hc i) in Hv by lia. congruence.
Qed.
(** ** Publication *)

Lemma msg_inv_quiet b b' Q G : quiet b b' -> msg_inv b Q G -> msg_inv b' Q G.
Proof.
  intros (cs & log & -> & Hsame) [Hok Hn Hms Hkn Hfr Hsub Htls]. split; try done.
  - intros m mp Hm. eapply msg_ok_frame; [by apply Hms|done| |apply agree_refl|apply agree_refl]. done.
  - by apply (subs_frame b (b <| b_clients := cs |> <| b_log := log |>) Q Q).
  - by eapply no_tls_same.
Qed.

Lemma sent_quiet b b' sd out : sent b b' sd out -> quiet b b'.
Proof. intros [[log ->] _ _]. exists (b_clients b), log. split; [by destruct b|done]. Qed.

(** The acknowledgement a publisher gets. *)
Definition ack_packet (mp : message_st) : list Z :=
  let ack type := [type * 16; 2; m_packet_id mp / 256; m_packet_id mp mod 256] in
  if m_orig_qos mp =? 1 then ack 4 else if m_orig_qos mp =? 2 then ack 5 else [].

Lemma c_send_buf_cons : c_send_buf = 0 :: 0 :: 0 :: 0 :: replicate 1496 0.
Proof. reflexivity. Qed.

Lemma send_ack_ok b p cp type mp :
  sends_progress -> b_clients b !! p = Some cp -> plain cp -> 0 <= type < 16 -> type <> 6 -> 0 <= m_packet_id mp < 65536 ->
  exists b', send_ack b p type mp = Ok (b', 0) /\
    sent b b' (c_sd cp) (transport cp [type * 16; 2; m_packet_id mp / 256; m_packet_id mp mod 256]).
Proof.
  intros Hs Hp Hpl Ht H6 Hid. unfold send_ack.
  destruct (encode_fixed_ok c_send_buf sizeof_send_buf type 0 (m_packet_id mp) 0 0 0 0 0 0 _ c_send_buf_cons) as (-> & _); try done; try lia.
  change (sizeof_send_buf <? 4) with false. cbn [mbind outcome_bind]. destruct (Z.eqb_spec type 6); [done|].
  set (buf := _ ++ _). assert (zlen buf = 1500) as Hb.
  { unfold buf. rewrite zlen_app. unfold zlen. rewrite length_replicate. reflexivity. }
  destruct (send_data_ok b p cp buf 4 Hs Hp Hpl) as (b' & E & Hsent); [lia|lia|unfold int_max; lia|].
  exists b'. split; [done|]. unfold buf in Hsent. change (Z.to_nat 4) with 4%nat in Hsent. cbn [app take] in Hsent.
  by rewrite !Z.add_0_r in Hsent.
Qed.

(** The keep-alive table is not touched when the time of the last packet is
    the one it has: [recv_at] is never written. *)
Lemma ka_refresh_same b p cp :
  b_clients b !! p = Some cp -> c_last_ka_update_at cp = c_recv_at cp -> ka_refresh b p = Ok b.
Proof.
  intros Hp Hr. unfold ka_refresh, ka_update. rewrite (get_client_ok b p cp) by done. cbn [mbind outcome_bind].
  destruct (c_keep_alive cp =? 0); [done|].
  by rewrite Hr, Z.eqb_refl.
Qed.

(** A client whose publications are not checked. *)
Record publisher (b : broker) (p : Z) (cp : client_st) : Prop := {
  pb_client : b_clients b !! p = Some cp;
  pb_plain : plain cp;
  pb_allowed : cf_allow_anonymous (b_config b) <> 0 \/ c_is_super cp <> 0;
  pb_recv_at : c_last_ka_update_at cp = c_recv_at cp
}.

Lemma on_recv_publish_ok b Q G p cp mp :
  sends_progress -> msg_inv b Q G -> publisher b p cp -> fresh_message mp ->
  let m := b_fresh b in
  exists its ws nd b', let mp' := mp <| m_client := p |> <| m_not_done := nd |> in
    on_recv_publish_h b p mp = Ok (b', 0) /\ msg_inv b' ((fun q => q ++ [m]) <$> Q) G /\
    sent (with_queues (with_message b mp (mp <| m_client := p |>)) m mp' its ws) b' (c_sd cp) (transport cp (ack_packet mp)) /\
    same_subs (b_workers b) ws.
Proof.
  intros Hs Hinv [Hp Hpl Hallow Hr] [Hst [Hwf Hlen] Hdup Hid Htop] m.
  assert (fresh_message (mp <| m_client := p |>)) as Hfm by (split; try done; split; [by destruct Hwf|done]).
  destruct (queue_message_ok b Q G mp (mp <| m_client := p |>) cp Hinv Hfm Hp) as (its & ws & nd & E & Hinv' & Hss).
  set (b2 := with_queues _ _ _ _ _) in *. fold m in E.
  assert (exists b', (if m_orig_qos mp =? 1 then send_ack b2 p (msg_type_code PUBACK) (mp <| m_client := p |>)
    else if m_orig_qos mp =? 2 then send_ack b2 p (msg_type_code PUBREC) (mp <| m_client := p |>) else mret (b2, 0)) = Ok (b', 0) /\
    sent b2 b' (c_sd cp) (transport cp (ack_packet mp))) as (b' & E' & Hsent).
  { unfold ack_packet. set (mp' := mp <| m_client := p |>).
    destruct (m_orig_qos mp =? 1); [exact (send_ack_ok b2 p cp 4 mp' Hs Hp Hpl ltac:(lia) ltac:(lia) Hid)|].
    destruct (m_orig_qos mp =? 2); [exact (send_ack_ok b2 p cp 5 mp' Hs Hp Hpl ltac:(lia) ltac:(lia) Hid)|]. exists b2. split; [done|apply sent_refl]. }
  exists its, ws, nd, b'. split; [|split; [eapply msg_inv_quiet; [by eapply sent_quiet|done]|by split]].
  unfold on_recv_publish_h. change (alloc_message b mp) with ((alloc_message b mp).1, m). cbn zeta beta iota.
  rewrite (get_client_ok _ p cp) by done. cbn [mbind outcome_bind].
  change (b_config (alloc_message b mp).1) with (b_config b).
  assert (negb (truthy (cf_allow_anonymous (b_config b))) && negb (truthy (c_is_super cp)) = false) as ->.
  { unfold truthy. destruct Hallow as [Hx|Hx]; apply Z.eqb_neq in Hx; rewrite Hx; [done|]. apply andb_false_r. }
  cbn [mbind outcome_bind mret outcome_ret].
  change (put_message (alloc_message b mp).1 m (mp <| m_client := p |>)) with (with_message b mp (mp <| m_client := p |>)).
  cbv beta. rewrite E. cbn [mbind outcome_bind]. change (m_orig_qos (mp <| m_client := p |>)) with (m_orig_qos mp).
  rewrite E'. cbn [mbind outcome_bind]. change (truthy 0) with false. cbn iota.
  by rewrite (ka_refresh_same b' p cp) by (done || by rewrite (sent_client _ _ _ _ _ Hsent)).
Qed.
End life.
