(* ===== verification/Lifecycle.v ===== *)
(** * Every run of the message queues (src/worker.c)

    The operations on messages as steps that may be interleaved in any order
    with each other and with anything that leaves the queues alone, and what
    holds in every state they reach: nothing that is on a queue has been
    freed, and every message whose publisher has a worker is freed in the
    end.  Both need [config.num_servers], which [message_done] uses for the
    number of workers, to be large enough; [gc_too_early] is what happens
    with the default configuration, one server and two workers. *)

From S2P Require Import Prelude DList Queue MqttPacket MqttEncode ClientTypes Trie TrieSearch TrieStore Subscription World.
From S2P Require Import Text KeepAlive WorkerQueue ClientSend Auth Client Delivery Messages.

Section runs.
Context `{Libc} `{Sys}.

(** ** Steps *)

(** A change that leaves the messages, their queues and their publishers alone. *)
Record other_change (b b' : broker) : Prop := {
  oc_messages : b_messages b' = b_messages b;
  oc_items : b_items b' = b_items b;
  oc_num : b_num_workers b' = b_num_workers b;
  oc_servers : cf_num_servers (b_config b') = cf_num_servers (b_config b);
  oc_fresh : b_fresh b <= b_fresh b';
  oc_queues : (fun w => (w_index w, w_msg_q w, w_gc_q w)) <$> b_workers b' = (fun w => (w_index w, w_msg_q w, w_gc_q w)) <$> b_workers b;
  oc_owner m mp cp : b_messages b !! m = Some mp -> b_clients b !! m_client mp = Some cp ->
    exists cp', b_clients b' !! m_client mp = Some cp' /\ c_worker cp' = c_worker cp;
  oc_subs i wp : b_workers b' !! i = Some wp -> Z.of_nat i < b_num_workers b -> exists M, subscribed b' (w_subs wp) M;
  oc_no_tls : no_tls (b_clients b')
}.

Inductive mstep (b : broker) : broker -> Prop :=
  | step_publish p cp mp b' rv :
      publisher b p cp -> fresh_message mp -> on_recv_publish_h b p mp = Ok (b', rv) -> mstep b b'
  | step_deliver w b' more :
      0 <= w < b_num_workers b -> deliver_one c_deliver b w = Ok (b', more) -> mstep b b'
  | step_gc w b' more :
      0 <= w < b_num_workers b -> gc_one b w = Ok (b', more) -> mstep b b'
  | step_other b' : other_change b b' -> mstep b b'.

(** The workers have just been started. *)
Record started (b : broker) : Prop := {
  sa_messages : b_messages b = ∅;
  sa_num : 0 <= b_num_workers b <= MAX_NUM_WORKERS;
  sa_workers i : (Z.of_nat i < b_num_workers b) -> exists wp, b_workers b !! i = Some wp /\ w_index wp = Z.of_nat i /\
    q_head (w_msg_q wp) = None /\ q_tail (w_msg_q wp) = None /\ q_head (w_gc_q wp) = None /\ q_tail (w_gc_q wp) = None;
  sa_subs i wp : b_workers b !! i = Some wp -> Z.of_nat i < b_num_workers b -> exists M, subscribed b (w_subs wp) M;
  sa_no_tls : no_tls (b_clients b)
}.

Lemma not_elem_replicate_nil n (x : Z) : x ∉ concat (replicate n []).
Proof. intros Hx. apply concat_lookup in Hx as (i & xs & Hi & Hx). apply lookup_replicate in Hi as [-> _]. by apply not_elem_of_nil in Hx. Qed.

Lemma started_inv b :
  started b -> let n := Z.to_nat (b_num_workers b) in msg_inv b (replicate n []) (replicate n []).
Proof.
  intros [Hm Hn Hw Hs Ht] n. split.
  - split; [done| | | |].
    + intros i q g [-> Hi]%lookup_replicate [-> _]%lookup_replicate. destruct (Hw i) as (wp & ? & ? & ? & ? & ? & ?); [lia|].
      exists wp. by split_and!.
    + intros i q m [-> _]%lookup_replicate Hin. by apply not_elem_of_nil in Hin.
    + intros i q m [-> _]%lookup_replicate Hin. by apply not_elem_of_nil in Hin.
    + intros i j g g' m [-> _]%lookup_replicate _ Hin. by apply not_elem_of_nil in Hin.
  - unfold zlen. rewrite length_replicate. lia.
  - intros m mp. by rewrite Hm, lookup_empty.
  - intros m [Hq|Hq]; by apply not_elem_replicate_nil in Hq.
  - intros m. rewrite Hm, lookup_empty. by intros [? ?].
  - intros i wp Hwp Hi. rewrite length_replicate in Hi. apply (Hs i wp Hwp). lia.
  - done.
Qed.

Lemma other_inv b b' Q G : other_change b b' -> msg_inv b Q G -> msg_inv b' Q G.
Proof.
  intros [Hm Hi Hnum _ Hf Hq Ho Hs Ht] [Hok [Hn Hmax] Hms Hkn Hfr _ _].
  assert (forall i wp, b_workers b !! i = Some wp -> exists wp', b_workers b' !! i = Some wp' /\
    w_index wp' = w_index wp /\ w_msg_q wp' = w_msg_q wp /\ w_gc_q wp' = w_gc_q wp) as Hw.
  { intros i wp Hwp. apply (f_equal (fun l => l !! i)) in Hq. rewrite !list_lookup_fmap, Hwp in Hq. cbn in Hq.
    destruct (b_workers b' !! i) as [wp'|]; [|done]. cbn in Hq. exists wp'. split; [done|]. naive_solver. }
  split.
  - destruct Hok as [Hl Hwk Hmp Hgp Hone]. split; rewrite ?Hi; try done. intros i q g HQ HG.
    destruct (Hwk i q g HQ HG) as (wp & Hwp & Hix & Hr1 & Hr2). destruct (Hw i wp Hwp) as (wp' & ? & E1 & E2 & E3).
    exists wp'. by rewrite E1, E2, E3.
  - by rewrite Hnum.
  - intros m mp Hmm. rewrite Hm in Hmm. destruct (Hms m mp Hmm) as [H1 H2 H3 H4 (cp & Hcp & H5 & H6) H7 H8].
    destruct (Ho m mp cp Hmm Hcp) as (cp' & Hcp' & E). split; try done.
    + exists cp'. by rewrite E.
    + by rewrite Hi.
  - intros m Hmq. rewrite Hm. by apply Hkn.
  - intros m Hmm. rewrite Hm in Hmm. specialize (Hfr m Hmm). lia.
  - intros i wp Hwp Hlt. apply (Hs i wp Hwp). unfold zlen in *. lia.
  - done.
Qed.

(** ** One step of each kind *)

Lemma worker_queues b Q G w :
  msg_inv b Q G -> 0 <= w < b_num_workers b ->
  exists q g, Q !! Z.to_nat w = Some q /\ G !! Z.to_nat w = Some g /\ w = Z.of_nat (Z.to_nat w).
Proof.
  intros [Hok [Hn _] _ _ _ _ _] Hw. unfold zlen in Hn.
  destruct (lookup_lt_is_Some_2 Q (Z.to_nat w)) as [q HQ]; [lia|].
  destruct (same_queue_length _ _ _ _ _ _ Hok HQ) as [g HG]. exists q, g. split_and!; [done|done|lia].
Qed.

(** What a round of delivery leaves as it is. *)
Definition same_broker (b b' : broker) : Prop :=
  b_config b' = b_config b /\ b_num_workers b' = b_num_workers b /\ dom (b_messages b') = dom (b_messages b).

Lemma deliver_round b Q G i q :
  sends_progress -> msg_inv b Q G -> Q !! i = Some q ->
  exists b', deliver_one c_deliver b (Z.of_nat i) = Ok (b', match q with [] => false | _ => true end) /\
    (exists G', msg_inv b' (<[i := tail q]> Q) G') /\ same_broker b b'.
Proof.
  intros Hs Hinv HQ. destruct q as [|m q].
  - exists b. split; [by eapply deliver_none|]. split; [|done]. exists G. by rewrite list_insert_id.
  - destruct (mv_known _ _ _ Hinv m) as [mp Hm]; [eapply queued_msg; [exact HQ|by left]|].
    pose proof (mv_msgs _ _ _ Hinv m mp Hm) as Hmo. destruct (mo_client _ _ _ _ _ Hmo) as (cp & Hcp & _).
    destruct (deliver_one_ok b Q G i m q mp cp Hs Hinv HQ Hm Hcp) as (b' & E & Hinv' & (mp' & Em) & Ec & En & _).
    exists b'. split; [done|]. split; [by eexists|]. split_and!; [done|done|]. rewrite Em, dom_insert_L.
    apply elem_of_dom_2 in Hm. set_solver.
Qed.

Definition servers_cover (b : broker) : Prop :=
  b_num_workers b <= cf_num_servers (b_config b) <= MAX_NUM_WORKERS.

Lemma gc_round b Q G i g :
  msg_inv b Q G -> servers_cover b -> G !! i = Some g ->
  exists b' more, gc_one b (Z.of_nat i) = Ok (b', more) /\
    b_config b' = b_config b /\ b_num_workers b' = b_num_workers b /\
    ((more = false /\ b' = b) \/
     (more = true /\ exists m, head g = Some m /\ m ∉ concat Q /\ b_messages b' = delete m (b_messages b) /\
        msg_inv b' Q (<[i := tail g]> G))).
Proof.
  intros Hinv Hsv HG. destruct g as [|m g].
  { exists b, false. split; [by eapply gc_none|]. naive_solver. }
  destruct (mv_known _ _ _ Hinv m) as [mp Hm]; [eapply queued_gc; [exact HG|by left]|].
  pose proof (mv_num _ _ _ Hinv) as [Hn _]. pose proof (zlen_nonneg Q).
  destruct (gc_one_step b Q G i m g mp Hinv HG Hm) as [[_ E]|(Hc & ws & E & Hok & Hss)]; [unfold servers_cover in Hsv; lia| |].
  - exists b, false. split; [done|]. naive_solver.
  - do 2 eexists. split; [done|]. split; [done|]. split; [done|]. right. split; [done|]. exists m. split; [done|].
    assert (m ∉ concat Q) as HmQ.
    { eapply flags_clear_free; [by eapply (mv_msgs _ _ _ Hinv)| |done]. unfold servers_cover, zlen in *. lia. }
    split; [done|]. split; [cbn; by rewrite delete_insert_eq|]. by apply free_inv.
Qed.

Lemma mstep_inv b b' Q G :
  sends_progress -> msg_inv b Q G -> servers_cover b -> mstep b b' ->
  (exists Q' G', msg_inv b' Q' G') /\ servers_cover b'.
Proof.
  intros Hs Hinv Hsv [p cp mp b1 rv Hp Hmp E|w b1 more Hw E|w b1 more Hw E|b1 Ho].
  - destruct (on_recv_publish_ok b Q G p cp mp Hs Hinv Hp Hmp) as (its & ws & nd & b2 & E2 & Hinv' & Hsent & _).
    rewrite E in E2. injection E2 as -> ->. destruct (se_only _ _ _ _ Hsent) as [log ->]. split; [by do 2 eexists|done].
  - destruct (worker_queues b Q G w Hinv Hw) as (q & g & HQ & HG & Ew).
    destruct (deliver_round b Q G _ q Hs Hinv HQ) as (b2 & E2 & (G' & Hinv') & Hc & Hn & _). rewrite <- Ew, E in E2. injection E2 as <- _.
    split; [by do 2 eexists|]. unfold servers_cover. by rewrite Hc, Hn.
  - destruct (worker_queues b Q G w Hinv Hw) as (q & g & HQ & HG & Ew).
    destruct (gc_round b Q G _ g Hinv Hsv HG) as (b2 & more' & E2 & Hc & Hn & Hor). rewrite <- Ew, E in E2. injection E2 as <- <-.
    split; [|unfold servers_cover; by rewrite Hc, Hn]. destruct Hor as [[_ ->]|(_ & m & _ & _ & _ & Hinv')]; by do 2 eexists.
  - split; [do 2 eexists; by eapply other_inv|]. destruct Ho. unfold servers_cover in *. congruence.
Qed.

Lemma reach_inv b0 b :
  sends_progress -> started b0 -> servers_cover b0 -> rtc mstep b0 b -> (exists Q G, msg_inv b Q G) /\ servers_cover b.
Proof.
  intros Hs Hst Hsv Hr. assert (exists Q G, msg_inv b0 Q G) as Hinv by (do 2 eexists; by apply started_inv).
  clear Hst. induction Hr as [b|b1 b2 b3 Hstep _ IH]; [done|]. destruct Hinv as (Q & G & Hinv).
  destruct (mstep_inv _ _ _ _ Hs Hinv Hsv Hstep) as [Hinv' Hsv']. by apply IH.
Qed.
(** ** Whole rounds *)

Lemma w_deliver_ok i q : forall fuel b Q G,
  sends_progress -> msg_inv b Q G -> Q !! i = Some q -> (length q <= fuel)%nat ->
  exists b' G', w_deliver c_deliver fuel b (Z.of_nat i) = Ok b' /\ msg_inv b' (<[i := []]> Q) G' /\ same_broker b b'.
Proof.
  unfold w_deliver. induction q as [|m q IH]; intros fuel b Q G Hs Hinv HQ Hf.
  - destruct (deliver_round b Q G i [] Hs Hinv HQ) as (b1 & E & (G1 & Hinv1) & Hsame).
    exists b1, G1. split; [|done]. destruct fuel; cbn [rounds]; by rewrite E.
  - destruct fuel as [|fuel]; cbn in Hf; [lia|].
    destruct (deliver_round b Q G i (m :: q) Hs Hinv HQ) as (b1 & E & (G1 & Hinv1) & Hc1 & Hn1 & Hd1).
    destruct (IH fuel b1 (<[i := q]> Q) G1 Hs Hinv1) as (b2 & G2 & E2 & Hinv2 & Hc2 & Hn2 & Hd2).
    { rewrite list_lookup_insert_eq; [done|by eapply lookup_lt_Some]. } { lia. }
    exists b2, G2. split; [cbn [rounds]; by rewrite E|]. split; [by rewrite list_insert_insert_eq in Hinv2|].
    split_and!; congruence.
Qed.

Lemma gc_round_free b Q G i m g :
  msg_inv b Q G -> cf_num_servers (b_config b) = b_num_workers b -> (forall m, m ∉ concat Q) -> G !! i = Some (m :: g) ->
  exists b', gc_one b (Z.of_nat i) = Ok (b', true) /\ msg_inv b' Q (<[i := g]> G) /\
    b_config b' = b_config b /\ b_num_workers b' = b_num_workers b /\ b_clients b' = b_clients b.
Proof.
  intros Hinv Hns HQ HG. pose proof (mv_num _ _ _ Hinv) as [Hn Hmax].
  destruct (mv_known _ _ _ Hinv m) as [mp Hm]; [eapply queued_gc; [exact HG|by left]|].
  pose proof (mv_msgs _ _ _ Hinv m mp Hm) as Hmo. pose proof (zlen_nonneg Q).
  destruct (gc_one_step b Q G i m g mp Hinv HG Hm) as [[Hnc _]|(Hc & ws & E & Hok & Hss)]; [lia| |].
  - exfalso. apply Hnc. intros j Hj. rewrite Hns, Hn in Hj. unfold zlen in Hj. rewrite Nat2Z.id in Hj.
    destruct (lookup_lt_is_Some_2 Q j Hj) as [q Hq]. destruct (mo_flag _ _ _ _ _ Hmo j q Hq) as (v & Hv & Hiff).
    rewrite Hv. f_equal. destruct (decide (v = 0)) as [|Hne]; [done|]. exfalso. apply (HQ m), concat_lookup.
    exists j, q. split; [done|]. by apply Hiff.
  - eexists. split; [done|]. split; [by apply free_inv|done].
Qed.

Lemma w_gc_ok i g : forall fuel b Q G,
  msg_inv b Q G -> cf_num_servers (b_config b) = b_num_workers b -> (forall m, m ∉ concat Q) ->
  G !! i = Some g -> (length g <= fuel)%nat ->
  exists b', w_gc fuel b (Z.of_nat i) = Ok b' /\ msg_inv b' Q (<[i := []]> G) /\
    b_config b' = b_config b /\ b_num_workers b' = b_num_workers b /\ b_clients b' = b_clients b.
Proof.
  unfold w_gc. induction g as [|m g IH]; intros fuel b Q G Hinv Hns HQ HG Hf.
  - exists b. split; [destruct fuel; cbn [rounds]; by rewrite (gc_none b Q G i Hinv HG)|]. by rewrite list_insert_id.
  - destruct fuel as [|fuel]; cbn in Hf; [lia|].
    destruct (gc_round_free b Q G i m g Hinv Hns HQ HG) as (b1 & E & Hinv1 & Hc1 & Hn1 & Hcl1).
    destruct (IH fuel b1 Q (<[i := g]> G) Hinv1) as (b2 & E2 & Hinv2 & Hc2 & Hn2 & Hcl2); [congruence|done| |lia|].
    { rewrite list_lookup_insert_eq; [done|by eapply lookup_lt_Some]. }
    exists b2. split; [cbn [rounds]; by rewrite E|]. split; [by rewrite list_insert_insert_eq in Hinv2|]. split_and!; congruence.
Qed.

(** No queue is longer than the number of messages. *)
Lemma queue_bound b Q G i q g :
  msg_inv b Q G -> Q !! i = Some q -> G !! i = Some g ->
  (length q <= size (b_messages b))%nat /\ (length g <= size (b_messages b))%nat.
Proof.
  intros Hinv HQ HG. destruct (queue_NoDup _ _ _ _ _ _ _ (mv_queues _ _ _ Hinv) HQ HG) as [Hq Hg].
  rewrite <- (size_dom (b_messages b)).
  split; rewrite <- (size_list_to_set (C := gset Z)) by done; apply subseteq_size; intros m Hm%elem_of_list_to_set;
    apply elem_of_dom, (mv_known _ _ _ Hinv); eauto.
Qed.

(** [for (i = 0; i < n; ++i) f(&workers[i])] *)
Fixpoint all_workers (f : broker -> Z -> outcome broker) (n : nat) (b : broker) (i : Z) : outcome broker :=
  match n with
  | O => mret b
  | S n => b ← f b i; all_workers f n b (i + 1)
  end.

Lemma deliver_all_workers n : forall b Q G i fuel,
  sends_progress -> msg_inv b Q G -> (i + n = length Q)%nat -> (size (b_messages b) <= fuel)%nat ->
  exists b' Q' G', all_workers (w_deliver c_deliver fuel) n b (Z.of_nat i) = Ok b' /\ msg_inv b' Q' G' /\
    same_broker b b' /\ (forall j, (i <= j < length Q)%nat -> Q' !! j = Some []) /\
    (forall j, (j < i)%nat -> Q' !! j = Q !! j) /\ length Q' = length Q.
Proof.
  induction n as [|n IH]; intros b Q G i fuel Hs Hinv Hin Hf; cbn [all_workers].
  - exists b, Q, G. split_and!; try done. lia.
  - destruct (lookup_lt_is_Some_2 Q i) as [q HQ]; [lia|].
    destruct (same_queue_length _ _ _ _ _ _ (mv_queues _ _ _ Hinv) HQ) as [g HG].
    destruct (queue_bound _ _ _ _ _ _ Hinv HQ HG) as [Hq _].
    destruct (w_deliver_ok i q fuel b Q G Hs Hinv HQ) as (b1 & G1 & -> & Hinv1 & Hc1 & Hn1 & Hd1); [lia|].
    cbn [mbind outcome_bind]. replace (Z.of_nat i + 1) with (Z.of_nat (S i)) by lia.
    destruct (IH b1 (<[i := []]> Q) G1 (S i) fuel Hs Hinv1) as (b2 & Q2 & G2 & -> & Hinv2 & (Hc2 & Hn2 & Hd2) & Hz & Hk & Hl).
    { rewrite length_insert. lia. }
    { rewrite <- !(size_dom (D := gset Z)), Hd1 in *. done. }
    rewrite length_insert in *. exists b2, Q2, G2. split_and!; try congruence; [split_and!; congruence| |].
    + intros j Hj. destruct (decide (j = i)) as [->|]; [|apply Hz; lia].
      rewrite Hk by lia. rewrite list_lookup_insert_eq; [done|lia].
    + intros j Hj. rewrite Hk by lia. by rewrite list_lookup_insert_ne by lia.
Qed.

Lemma gc_all_workers n : forall b Q G i fuel,
  msg_inv b Q G -> cf_num_servers (b_config b) = b_num_workers b -> (forall m, m ∉ concat Q) ->
  (i + n = length G)%nat -> (forall j g, G !! j = Some g -> (length g <= fuel)%nat) ->
  exists b' G', all_workers (w_gc fuel) n b (Z.of_nat i) = Ok b' /\ msg_inv b' Q G' /\
    (forall j, (i <= j < length G)%nat -> G' !! j = Some []) /\
    (forall j, (j < i)%nat -> G' !! j = G !! j) /\ b_clients b' = b_clients b /\ b_num_workers b' = b_num_workers b.
Proof.
  induction n as [|n IH]; intros b Q G i fuel Hinv Hns HQ Hin Hf; cbn [all_workers].
  - exists b, G. split_and!; try done. lia.
  - destruct (lookup_lt_is_Some_2 G i) as [g HG]; [lia|].
    destruct (w_gc_ok i g fuel b Q G Hinv Hns HQ HG) as (b1 & -> & Hinv1 & Hc1 & Hn1 & Hcl1); [by eapply Hf|].
    cbn [mbind outcome_bind]. replace (Z.of_nat i + 1) with (Z.of_nat (S i)) by lia.
    destruct (IH b1 Q (<[i := []]> G) (S i) fuel Hinv1) as (b2 & G2 & -> & Hinv2 & Hz & Hk & Hcl2 & Hn2);
      [congruence|done|rewrite length_insert; lia| |].
    { intros j gj [[-> ->]|[_ Hj]]%elem_of_insert_lookup; [cbn; lia|by eapply Hf]. }
    rewrite length_insert in *. exists b2, G2. split_and!; try congruence.
    + intros j Hj. destruct (decide (j = i)) as [->|]; [|apply Hz; lia].
      rewrite Hk by lia. rewrite list_lookup_insert_eq; [done|lia].
    + intros j Hj. rewrite Hk by lia. by rewrite list_lookup_insert_ne by lia.
Qed.

Lemma all_nil_not_in (Q : list (list Z)) m : (forall j, (j < length Q)%nat -> Q !! j = Some []) -> m ∉ concat Q.
Proof.
  intros HQ Hin. apply concat_lookup in Hin as (i & q & Hi & Hin). pose proof (lookup_lt_Some _ _ _ Hi).
  rewrite HQ in Hi by done. injection Hi as <-. by apply not_elem_of_nil in Hin.
Qed.
(** ** Too few servers *)

(** A worker whose next message has been freed. *)
Lemma deliver_freed b h ws Q G j m q wp mp :
  queues_ok h ws Q G -> Q !! j = Some (m :: q) -> ws !! j = Some wp -> MsgNode m (Z.of_nat j) ∈ message_items m ->
  b_items b = h -> b_workers b = ws ->
  deliver_one c_deliver (free_message (put_message b m mp) m) (Z.of_nat j) = Undef UseAfterFree.
Proof.
  intros Hok HQ Hwp Hin Hh Hw. destruct (same_queue_length _ _ _ _ _ _ Hok HQ) as [g HG].
  destruct (qo_worker _ _ _ _ Hok j _ g HQ HG) as (wp' & Hwp' & _ & Hq & _). simplify_eq.
  unfold deliver_one, w_message_pop. rewrite (get_worker_at _ j wp) by done. cbn [mbind outcome_bind].
  destruct Hq as [[Hhd _] _]. unfold queue_pop. rewrite Hhd. unfold item_get.
  assert (b_items (free_message (put_message b m mp) m) !! MsgNode m (Z.of_nat j) = None) as ->; [|done].
  change (foldr delete (b_items b) (message_items m) !! MsgNode m (Z.of_nat j) = None).
  induction (message_items m) as [|l ls IH]; [by apply not_elem_of_nil in Hin|]. cbn [foldr].
  destruct (decide (l = MsgNode m (Z.of_nat j))) as [->|Hne]; [apply lookup_delete_eq|].
  rewrite lookup_delete_ne by done. apply IH. by apply elem_of_cons in Hin as [?|?].
Qed.

Lemma gc_empty b h ws Q G i :
  queues_ok h ws Q G -> G !! i = Some [] -> b_workers b = ws -> gc_one b (Z.of_nat i) = Ok (b, false).
Proof.
  intros Hok HG Hw. destruct (lookup_lt_is_Some_2 Q i) as [q HQ]; [rewrite (qo_len _ _ _ _ Hok); by eapply lookup_lt_Some|].
  destruct (qo_worker _ _ _ _ Hok i q _ HQ HG) as (wp & Hwp & _ & _ & Hg). subst.
  unfold gc_one. rewrite (get_worker_at b i wp) by done. cbn [mbind outcome_bind]. by rewrite (queue_peek_rep _ _ _ Hg).
Qed.

Lemma rounds_once (one : broker -> outcome (broker * bool)) fuel b b' :
  (0 < fuel)%nat -> one b = Ok (b', true) -> one b' = Ok (b', false) -> rounds one fuel b = Ok b'.
Proof.
  intros Hf H1 H2. destruct fuel as [|fuel]; [lia|]. cbn [rounds]. rewrite H1. cbn [mbind outcome_bind].
  destruct fuel; cbn [rounds]; by rewrite H2.
Qed.
End runs.

(** ** Theorems *)



(** C33. With the default configuration a published message is used after it
    has been freed: with one server and two workers or more, a message
    published by a client of the first worker is delivered and freed by that
    worker before the second has looked at its queue, and then the second
    reads it from its queue. *)
Theorem gc_too_early `{Libc} `{Sys} b p cp mp fuel :
  sends_progress -> started b -> cf_num_servers (b_config b) = 1 -> 1 < b_num_workers b ->
  publisher b p cp -> c_worker cp = 0 -> fresh_message mp -> (0 < fuel)%nat ->
  exists b1 b2 b3, on_recv_publish_h b p mp = Ok (b1, 0) /\ w_deliver c_deliver fuel b1 0 = Ok b2 /\
    w_gc fuel b2 0 = Ok b3 /\ w_deliver c_deliver fuel b3 1 = Undef UseAfterFree.
Proof.
  intros Hs Hst Hns Hnw Hp Hcw Hmp Hfuel. pose proof (started_inv b Hst) as Hinv. cbn zeta in Hinv.
  set (n := Z.to_nat (b_num_workers b)) in *. set (m := b_fresh b).
  destruct (on_recv_publish_ok b _ _ p cp mp Hs Hinv Hp Hmp) as (its & ws & nd & b1 & E1 & Hinv1 & Hsent & _).
  destruct (se_only _ _ _ _ Hsent) as [log Eb1]. fold m in Hinv1, Hsent.
  assert (n = S (S (n - 2))) as En by lia. set (Q1 := (fun q => q ++ [m]) <$> replicate n []) in *.
  assert (Q1 !! 0%nat = Some [m] /\ Q1 !! 1%nat = Some [m]) as [HQ0 HQ1].
  { unfold Q1. rewrite !list_lookup_fmap, En. done. }
  set (mp1 := mp <| m_client := p |> <| m_not_done := nd |>).
  assert (b_messages b1 !! m = Some mp1) as Hm1 by (rewrite Eb1; cbn; by rewrite lookup_insert_eq).
  assert (b_clients b1 !! m_client mp1 = Some cp) as Hcp1 by (rewrite Eb1; apply Hp).
  destruct (deliver_one_ok b1 Q1 _ 0 m [] mp1 cp Hs Hinv1 HQ0 Hm1 Hcp1) as (b2 & E2 & Hinv2 & (nd2 & Em2) & Ec2 & _).
  set (mp2 := mp1 <| m_not_done := nd2 |>) in *.
  rewrite Hcw in Hinv2. change (after_delivery _ 0 m 0) with (alter (fun g : list Z => g ++ [m]) 0%nat (replicate n [])) in Hinv2.
  rewrite (alter_at _ _ _ []) in Hinv2 by (by rewrite En). cbn [app] in Hinv2.
  set (Q2 := <[0%nat := []]> Q1) in *. set (G2 := <[0%nat := [m]]> (replicate n [])) in *.
  assert (Q2 !! 0%nat = Some []) as HQ20.
  { unfold Q2. rewrite list_lookup_insert_eq; [done|by eapply lookup_lt_Some]. }
  assert (G2 !! 0%nat = Some [m]) as HG20.
  { unfold G2. rewrite list_lookup_insert_eq; [done|]. rewrite length_replicate. lia. }
  assert (b_messages b2 !! m = Some mp2) as Hm2 by (rewrite Em2; by rewrite lookup_insert_eq).
  assert (cf_num_servers (b_config b2) = 1) as Hns2 by (rewrite Ec2, Eb1; exact Hns).
  destruct (gc_one_step b2 Q2 G2 0 m [] mp2 Hinv2 HG20 Hm2) as [[Hnc _]|(_ & ws3 & E3 & Hok3 & _)].
  { rewrite Hns2. unfold MAX_NUM_WORKERS. lia. }
  { exfalso. apply Hnc. rewrite Hns2. intros j Hj. assert (j = 0%nat) as -> by lia.
    destruct (mo_flag _ _ _ _ _ (mv_msgs _ _ _ Hinv2 m mp2 Hm2) 0 [] HQ20) as (v & Hv & Hiff). rewrite Hv. f_equal.
    destruct (decide (v = 0)) as [|Hne]; [done|]. apply Hiff in Hne. by apply not_elem_of_nil in Hne. }
  set (b3 := free_message _ m) in E3. exists b1, b2, b3. split; [done|].
  assert (Q2 !! 1%nat = Some [m]) as HQ21 by (unfold Q2; by rewrite list_lookup_insert_ne).
  split; [|split].
  - apply rounds_once; [done|exact E2|]. by eapply (deliver_none b2 Q2 G2 0).
  - apply rounds_once; [done|exact E3|]. eapply (gc_empty b3 _ ws3 _ _ 0 Hok3); [|done].
    rewrite list_lookup_insert_eq; [done|by eapply lookup_lt_Some].
  - unfold w_deliver. destruct (qo_worker _ _ _ _ Hok3 1 [m] []) as (wp & Hwp & _); [done| |].
    { unfold G2. rewrite !list_lookup_insert_ne by done. by rewrite En. }
    assert (deliver_one c_deliver b3 1 = Undef UseAfterFree) as E4.
    { eapply (deliver_freed _ _ ws3 Q2 _ 1 m [] wp); [exact Hok3|done|done| |done|done].
      right. apply list_elem_of_fmap. exists 1. split; [done|]. by apply elem_of_seqZ. }
    destruct fuel; cbn [rounds]; by rewrite E4.
Qed.

(** *** Instances *)

(** As many servers as workers. *)
Definition demo_two : broker := demo_broker <| b_config := example_config <| cf_num_servers := 2 |> |>.

Lemma demo_subs_none : subscribed demo_broker None (fun _ => []).
Proof.
  split; [apply subs_rep_empty| |by vm_compute]. intros s k Hk. by apply not_elem_of_nil in Hk.
Qed.

Lemma demo_started c : started (demo_broker <| b_config := c |>).
Proof.
  split; [done|done| | |apply demo_no_tls].
  - intros i Hi. change (Z.of_nat i < 2) in Hi. destruct i as [|[|i]]; [..|lia]; by eexists.
  - intros i wp Hwp Hi. change (Z.of_nat i < 2) in Hi. destruct i as [|[|i]]; [| |lia]; injection Hwp as <-.
    + exists demo_store. destruct demo_subscribed. by split.
    + exists (fun _ => []). destruct demo_subs_none. by split.
Qed.

Lemma demo_publisher c : cf_allow_anonymous c = 1 -> publisher (demo_broker <| b_config := c |>) 5 demo_client.
Proof. intros Hc. split; [done|by split|left; cbn; lia|done]. Qed.

Lemma demo_fresh : fresh_message demo_message.
Proof.
  split; [done|apply demo_sendable|by vm_compute|by vm_compute|]. exists [97; 47; 98], []. split; [done|apply demo_topic].
Qed.

(** After a publication. *)
Definition demo_published : broker :=
  match @on_recv_publish_h calm_libc slow_sys demo_two 5 demo_message with Ok (b, _) => b | _ => demo_two end.

Lemma demo_reached : rtc (@mstep calm_libc slow_sys) demo_two demo_published.
Proof.
  apply rtc_once. eapply (step_publish demo_two 5 demo_client demo_message demo_published 0);
    [by apply demo_publisher|apply demo_fresh|by vm_compute].
Qed.



Example gc_too_early_witness :
  exists b1 b2 b3, @on_recv_publish_h calm_libc slow_sys (demo_broker <| b_config := example_config |>) 5 demo_message = Ok (b1, 0) /\
    w_deliver (@c_deliver calm_libc slow_sys) 10 b1 0 = Ok b2 /\ w_gc 10 b2 0 = Ok b3 /\
    w_deliver (@c_deliver calm_libc slow_sys) 10 b3 1 = Undef UseAfterFree.
Proof.
  apply (@gc_too_early calm_libc slow_sys (demo_broker <| b_config := example_config |>) 5 demo_client demo_message 10 slow_sends (demo_started _));
    [done|by vm_compute|by apply demo_publisher|done|apply demo_fresh|lia].
Defined.
