(* ===== verification/Closing.v ===== *)
(** * Closing a connection (src/client.c, src/worker.c)

    What [c_disconnect] leaves behind: the subscriptions of the client are out
    of the trie of its worker, its node is out of the list of clients, the
    client is freed, and nothing of the other clients has changed. *)

From S2P Require Import Prelude DList Queue MqttPacket ClientTypes Trie TrieSearch TrieStore Subscription World.
From S2P Require Import Text KeepAlive WorkerQueue ClientSend Client Delivery.

(** ** What one worker keeps of its clients *)

(** The worker [w] has the clients [xs] and the subscriptions [M]. *)
Record attached (b : broker) (w : Z) (wp : worker_st) (xs : list Z) (M : list Z -> list sub_key) : Prop := {
  at_index : 0 <= w;
  at_worker : b_workers b !! Z.to_nat w = Some wp;
  at_clients : dll (b_nodes b) (w_clients_head wp) (ClientsNode <$> xs);
  at_count : w_num_clients wp = zlen xs;
  at_bound : zlen xs <= int_max;
  at_subs : subs_rep (b_nodes b) (w_subs wp) M
}.

(** The client's array lists its part of the store. *)
Record owns (cp : client_st) (p : Z) (M : list Z -> list sub_key) : Prop := {
  ow_filter i : 0 <= i < c_num_subs cp -> exists sp s junk,
    arr_get (c_subscriptions cp) i = Ok sp /\ sb_filter sp = Some (s ++ 0 :: junk) /\ text s /\ (p, i) ∈ M (strip_local s);
  ow_only s i : (p, i) ∈ M s -> 0 <= i < c_num_subs cp
}.

(** The store without the subscriptions of a client. *)
Definition without (p : Z) (M : list Z -> list sub_key) : list Z -> list sub_key :=
  fun s => filter (fun k => k.1 <> p) (M s).

(** ** The notice on $SYS *)

(** The parts of a worker that have to do with its clients. *)
Definition session_part (wp : worker_st) : option sub_trie * option node_addr * Z * keep_alive_st :=
  (w_subs wp, w_clients_head wp, w_num_clients wp, w_keep_alive wp).

Record same_sessions (b b' : broker) : Prop := {
  ss_nodes : b_nodes b' = b_nodes b;
  ss_clients : b_clients b' = b_clients b;
  ss_ws : b_ws b' = b_ws b;
  ss_workers : session_part <$> b_workers b' = session_part <$> b_workers b
}.

#[export] Instance same_sessions_po : PreOrder same_sessions.
Proof. split; [by split|]. intros b1 b2 b3 [? ? ? ?] [? ? ? ?]. split; congruence. Qed.

Lemma get_worker_inv b w wp : get_worker b w = Ok wp -> 0 <= w /\ b_workers b !! Z.to_nat w = Some wp.
Proof.
  unfold get_worker, arr_get. destruct (w =? NULL); [done|]. destruct (Z.ltb_spec w 0); [done|].
  destruct (b_workers b !! Z.to_nat w) eqn:E; [|done]. by intros [= <-].
Qed.

Lemma put_worker_same b w wp wp' :
  b_workers b !! Z.to_nat w = Some wp -> session_part wp' = session_part wp -> same_sessions b (put_worker b w wp').
Proof.
  intros Hwp Hs. split; [done..|]. change (b_workers (put_worker b w wp')) with (<[Z.to_nat w := wp']> (b_workers b)).
  rewrite list_fmap_insert, Hs. apply list_insert_id. by rewrite list_lookup_fmap, Hwp.
Qed.

Lemma message_push_same b w m b' : w_message_push b w m = Ok b' -> same_sessions b b'.
Proof.
  unfold w_message_push. intros E. inv_bind. destruct a2 as [h q]. inv_bind.
  unfold set_not_done in Ha0. inv_bind.
  apply get_worker_inv in Ha as [_ Hw]. etransitivity; [|eapply put_worker_same; [exact Hw|done]]. by split.
Qed.

Lemma push_loop_same n : forall b i m b', push_loop n b i m = Ok b' -> same_sessions b b'.
Proof.
  induction n as [|n IH]; cbn [push_loop]; intros b i m b' E; inv_bind; [done|].
  etransitivity; [by eapply message_push_same|by eapply IH].
Qed.

Lemma pub_notice_same `{Libc} b w l topic text b' : c_pub_notice b w l topic text = Ok b' -> same_sessions b b'.
Proof.
  unfold c_pub_notice. intros E. inv_bind. destruct a0 as [mp|]; inv_bind; [|done].
  unfold alloc_message, workers_queue_message in E. inv_bind.
  etransitivity; [|by eapply push_loop_same]. by split.
Qed.

Lemma pub_disconnected_same `{Libc} b p reason b' : c_pub_disconnected b p reason = Ok b' -> same_sessions b b'.
Proof. unfold c_pub_disconnected. intros E. inv_bind. by eapply pub_notice_same. Qed.

(** ** The subscriptions *)

Lemma subs_rep_ext h o M M' : (forall s, M s = M' s) -> subs_rep h o M -> subs_rep h o M'.
Proof.
  intros HM [Hr Hi]. split.
  - eapply trie_rep_ext; [|exact Hr]. intros s. cbn. by rewrite HM.
  - intros s k. rewrite <- HM. apply Hi.
Qed.

(** Taking a subscription out of its list is taking it out of the store. *)
Lemma drop_key h o M s0 k l1 l2 s :
  subs_rep h o M -> M s0 = l1 ++ k :: l2 -> upd_subs M s0 (l1 ++ l2) s = filter (fun k' => k' <> k) (M s).
Proof.
  intros [Hr _] HM. unfold upd_subs. destruct (decide (s = s0)) as [->|Hne].
  - pose proof (dll_NoDup _ _ _ (tr_lists _ _ _ Hr s0)) as Hnd. apply NoDup_fmap_1 in Hnd. rewrite HM in *.
    apply NoDup_app in Hnd as (_ & Hd & (Hk & _)%NoDup_cons). rewrite filter_app, filter_cons_False by naive_solver.
    rewrite !filter_all; [done| |]; apply Forall_forall; intros k' Hk' ->; [done|].
    by apply (Hd k Hk'), elem_of_cons; left.
  - symmetry. apply filter_all, Forall_forall. intros k' Hk' ->. apply Hne.
    apply (tr_disjoint _ _ _ Hr s s0 (uncurry SubNode k)); apply list_elem_of_fmap_2; [done|].
    rewrite HM. apply elem_of_app. right. by left.
Qed.

(** The trie of a worker and the nodes change, nothing else. *)
Definition with_subs (b : broker) (h : node_heap) (w : Z) (wp : worker_st) (o : option sub_trie) : broker :=
  put_worker (b <| b_nodes := h |>) w (wp <| w_subs := o |>).

Lemma with_subs_twice b h o h' o' w wp :
  with_subs (with_subs b h w wp o) h' w (wp <| w_subs := o |>) o' = with_subs b h' w wp o'.
Proof. unfold with_subs, put_worker, upd. cbn. by rewrite list_insert_insert_eq. Qed.

Lemma with_subs_id b w wp : b_workers b !! Z.to_nat w = Some wp -> with_subs b (b_nodes b) w wp (w_subs wp) = b.
Proof.
  intros Hw. unfold with_subs, put_worker, upd. cbn. destruct b, wp. cbn in *. by rewrite list_insert_id.
Qed.

Lemma remove_subs_ok w p n : forall b i wp cp M,
  0 <= w -> 0 <= i -> b_workers b !! Z.to_nat w = Some wp -> b_clients b !! p = Some cp ->
  subs_rep (b_nodes b) (w_subs wp) M ->
  (forall j, i <= j < i + Z.of_nat n -> exists sp s junk,
     arr_get (c_subscriptions cp) j = Ok sp /\ sb_filter sp = Some (s ++ 0 :: junk) /\ text s /\ (p, j) ∈ M (strip_local s)) ->
  (forall s j, (p, j) ∈ M s -> i <= j < i + Z.of_nat n) ->
  exists h o, remove_subs n b w p i = Ok (with_subs b h w wp o) /\ subs_rep h o (without p M) /\
    (forall l, (forall c j, l <> SubNode c j) -> h !! l = b_nodes b !! l) /\
    (forall l, nd_p <$> h !! l = nd_p <$> b_nodes b !! l).
Proof.
  induction n as [|n IH]; intros b i wp cp M Hw Hi Hwp Hcp Hr Hall Honly; cbn [remove_subs].
  - exists (b_nodes b), (w_subs wp). rewrite with_subs_id by done. split; [done|]. split; [|done].
    eapply subs_rep_ext; [|exact Hr]. intros s. symmetry. apply filter_all, Forall_forall.
    intros [c j] Hk. cbn. intros ->. apply Honly in Hk. lia.
  - destruct (Hall i) as (sp & s & junk & Hsp & Hf & Ht & Hin); [lia|].
    rewrite (get_client_ok _ _ _ Hcp). cbn [mbind outcome_bind]. rewrite Hsp. cbn [mbind outcome_bind].
    rewrite (get_worker_ok b w wp) by done. cbn [mbind outcome_bind]. rewrite Hf.
    apply list_elem_of_split in Hin as (l1 & l2 & HM).
    destruct (sub_remove_rep _ _ _ p i s junk l1 l2 Hr Ht HM) as (h & o & -> & Hr1 & Hpp & Hlc). cbn [mbind outcome_bind].
    assert (subs_rep h o (fun s => filter (fun k => k <> (p, i)) (M s))) as Hr1'.
    { eapply subs_rep_ext; [|exact Hr1]. intros s'. by eapply drop_key. }
    change (put_worker _ w _) with (with_subs b h w wp o).
    destruct (IH (with_subs b h w wp o) (i + 1) (wp <| w_subs := o |>) cp (fun s => filter (fun k => k <> (p, i)) (M s)))
      as (h' & o' & -> & Hr2 & Hfr & Hnd); [done|lia| |done|exact Hr1'| | |].
    + unfold with_subs, put_worker. change (<[Z.to_nat w := wp <| w_subs := o |>]> (b_workers b) !! Z.to_nat w = Some (wp <| w_subs := o |>)).
      apply list_lookup_insert_eq. by eapply lookup_lt_Some.
    + intros j Hj. destruct (Hall j) as (sp' & s' & junk' & ? & ? & ? & Hin'); [lia|]. exists sp', s', junk'.
      split_and!; try done. apply list_elem_of_filter. split; [|done]. intros [= ->]. lia.
    + intros s' j [Hne Hj]%list_elem_of_filter. pose proof (Honly s' j Hj). assert (j <> i) by (intros ->; done). lia.
    + exists h', o'. rewrite with_subs_twice. split; [done|]. split; [|split].
      * eapply subs_rep_ext; [|exact Hr2]. intros s'. unfold without. apply list_filter_filter_l.
        intros [c j]. cbn. intros Hc [= ? ?]. done.
      * intros l Hl. rewrite Hfr by done. apply Hlc. intros ([c j] & -> & _)%list_elem_of_fmap. by eapply Hl.
      * intros l. rewrite Hnd. apply Hlc.
Qed.

(** ** The list of clients *)

Lemma subs_rep_frame h h' o M :
  (forall s k, k ∈ M s -> h' !! uncurry SubNode k = h !! uncurry SubNode k) -> subs_rep h o M -> subs_rep h' o M.
Proof.
  intros Hf [Hr Hi]. split.
  - split; try apply Hr. intros s. eapply dseg_frame; [|apply Hr].
    intros x (k & -> & Hk)%list_elem_of_fmap. by eapply Hf.
  - intros s k Hk. rewrite (Hf s k Hk). by eapply Hi.
Qed.

Lemma clients_without p (xs : list Z) : ClientsNode <$> filter (fun q => q <> p) xs = filter (fun l => l <> ClientsNode p) (ClientsNode <$> xs).
Proof.
  induction xs as [|q xs IH]; [done|]. rewrite fmap_cons. destruct (decide (q = p)) as [->|Hne].
  - rewrite !filter_cons_False by naive_solver. exact IH.
  - rewrite !filter_cons_True by congruence. by rewrite fmap_cons, IH.
Qed.

Lemma clients_split (xs : list Z) p :
  NoDup xs -> p ∈ xs -> exists l1 l2, xs = l1 ++ p :: l2 /\ filter (fun q => q <> p) xs = l1 ++ l2.
Proof.
  intros Hnd (l1 & l2 & ->)%list_elem_of_split. exists l1, l2. split; [done|].
  apply NoDup_app in Hnd as (_ & Hd & (Hp & _)%NoDup_cons). rewrite filter_app, filter_cons_False by naive_solver.
  rewrite !filter_all; [done| |]; apply Forall_forall; intros q Hq ->; [done|].
  by apply (Hd p Hq), elem_of_cons; left.
Qed.

Section close.
Context `{Sys}.

(** The broker after [worker_rm_client]: one worker, the nodes, the client
    and the list of calls. *)
Definition after_rm (b : broker) (h : node_heap) (log : list call) (w : Z) (wp : worker_st) (p : Z) (cp : client_st) : broker :=
  put_worker (put_client (b <| b_log := log |> <| b_nodes := h |>) p cp) w wp.

Lemma worker_rm_client_ok b w wp xs M p cp :
  attached b w wp xs M -> b_clients b !! p = Some cp -> owns cp p M -> p ∈ xs ->
  exists h log wp', worker_rm_client b w p
      = Ok (after_rm b h log w wp' p (auth_client_destroy (cp <| c_num_subs := 0 |>))) /\
    attached (after_rm b h log w wp' p (auth_client_destroy (cp <| c_num_subs := 0 |>))) w wp'
      (filter (fun q => q <> p) xs) (without p M) /\
    (forall l, nd_p <$> h !! l = nd_p <$> b_nodes b !! l).
Proof.
  intros [Hw Hwp Hd Hcnt Hb Hr] Hcp [Hall Honly] Hp. unfold worker_rm_client, w_poll_unreg_client. cbn [mbind outcome_bind mret outcome_ret].
  set (b1 := (do_call b (Call_epoll_del w 0)).2).
  rewrite (get_client_ok b1 p cp) by done. cbn [mbind outcome_bind].
  destruct (remove_subs_ok w p (Z.to_nat (c_num_subs cp)) b1 0 wp cp M Hw) as (h & o & -> & Hr' & Hfr & Hnd); try done.
  { intros j Hj. apply Hall. lia. }
  { intros s j Hj. pose proof (Honly s j Hj). lia. }
  cbn [mbind outcome_bind]. rewrite (get_client_ok _ p cp) by done. cbn [mbind outcome_bind].
  set (wp1 := wp <| w_subs := o |>).
  assert (forall c, get_worker (put_client (with_subs b1 h w wp o) p c) w = Ok wp1) as Hgw.
  { intros c. apply get_worker_ok; [done|]. change (<[Z.to_nat w := wp1]> (b_workers b) !! Z.to_nat w = Some wp1).
    apply list_lookup_insert_eq. by eapply lookup_lt_Some. }
  rewrite Hgw. cbn [mbind outcome_bind]. change (w_num_clients wp1) with (w_num_clients wp).
  pose proof (zlen_nonneg xs). rewrite int_chk_ok by (rewrite Hcnt; unfold int_min, int_max in *; lia). cbn [mbind outcome_bind].
  change (w_clients_head wp1) with (w_clients_head wp).
  destruct (clients_split xs p) as (l1 & l2 & E & Ef).
  { apply dll_NoDup in Hd. by apply NoDup_fmap_1 in Hd. }
  { done. }
  change (b_nodes (put_client (with_subs b1 h w wp o) p _)) with h.
  assert (dll h (w_clients_head wp) ((ClientsNode <$> l1) ++ ClientsNode p :: (ClientsNode <$> l2))) as Hd'.
  { rewrite <- fmap_cons, <- fmap_app, <- E. eapply dseg_frame; [|exact Hd].
    intros x (q & -> & _)%list_elem_of_fmap. by rewrite Hfr. }
  destruct (remove_ref_ok _ _ _ _ _ Hd') as (h2 & head & -> & Hd2 & Hlc & _). cbn [mbind outcome_bind mret outcome_ret].
  exists h2, (b_log b1), (wp1 <| w_clients_head := head |> <| w_num_clients := w_num_clients wp - 1 |>). split; [|split].
  - unfold after_rm, with_subs, put_worker, put_client, upd. cbn. by rewrite list_insert_insert_eq.
  - split; [done| | | | |].
    + apply list_lookup_insert_eq. by eapply lookup_lt_Some.
    + rewrite Ef, fmap_app. exact Hd2.
    + change (w_num_clients wp - 1 = zlen (filter (fun q => q <> p) xs)). rewrite Hcnt, Ef, E, !zlen_app, zlen_cons. lia.
    + rewrite Ef. rewrite E, zlen_app, zlen_cons in Hb. rewrite zlen_app. lia.
    + eapply subs_rep_frame; [|exact Hr']. intros s k _. apply Hlc. rewrite <- fmap_app.
      intros (q & Hq & _)%list_elem_of_fmap. by destruct k.
  - intros l. etransitivity; [apply Hlc|]. apply Hnd.
Qed.

(** The client is not in the keep-alive table. *)
Definition unmonitored (b : broker) (p : Z) (cp : client_st) : Prop :=
  c_keep_alive cp = 0 \/ nd_p <$> b_nodes b !! KaNode p = Some None.

Lemma ka_remove_none b w p cp :
  b_clients b !! p = Some cp -> unmonitored b p cp -> ka_remove b w p = Ok b.
Proof.
  intros Hcp Hu. unfold ka_remove. rewrite (get_client_ok _ _ _ Hcp). cbn [mbind outcome_bind].
  destruct (Z.eqb_spec (c_keep_alive cp) 0); [done|]. destruct Hu as [?|Hn]; [done|].
  destruct (b_nodes b !! KaNode p) as [nd|] eqn:E; [|done]. rewrite (node_get_ok _ _ nd) by done. cbn [mbind outcome_bind].
  cbn in Hn. injection Hn as ->. done.
Qed.

Lemma free_attached b w wp xs M p cp :
  attached b w wp xs M -> p ∉ xs -> (forall s k, k ∈ M s -> k.1 <> p) -> attached (free_client b p cp) w wp xs M.
Proof.
  intros [Hw Hwp Hd Hcnt Hb Hr] Hp HM. assert (forall l, l ∉ client_nodes p -> foldr delete (b_nodes b) (client_nodes p) !! l = b_nodes b !! l) as Hn.
  { intros l. induction (client_nodes p) as [|l' ls IH]; [done|]. intros [Hne Hl]%not_elem_of_cons. cbn [foldr].
    rewrite lookup_delete_ne by done. by apply IH. }
  assert (forall l, l ∈ client_nodes p -> l = ClientsNode p \/ l = KaNode p \/ exists i, l = SubNode p i) as Hin.
  { intros l. unfold client_nodes. rewrite !elem_of_cons, list_elem_of_fmap. naive_solver. }
  split; [done..| |done|done|].
  - eapply dseg_frame; [|exact Hd]. intros x (q & -> & Hq)%list_elem_of_fmap. apply Hn.
    intros [[= ->]|[?|[i ?]]]%Hin; done.
  - eapply subs_rep_frame; [|exact Hr]. intros s k Hk. apply Hn. specialize (HM s k Hk). destruct k as [c i].
    intros [?|[?|[j [= -> _]]]]%Hin; done.
Qed.

Lemma same_attached b b' w wp xs M :
  same_sessions b b' -> attached b w wp xs M -> exists wp', attached b' w wp' xs M.
Proof.
  intros [Hn _ _ Hws] [Hw Hwp Hd Hcnt Hb Hr]. apply (f_equal (fun l => l !! Z.to_nat w)) in Hws.
  rewrite !list_lookup_fmap, Hwp in Hws. destruct (b_workers b' !! Z.to_nat w) as [wp'|] eqn:E; [|done].
  cbn in Hws. unfold session_part in Hws. injection Hws as Hs Hh Hc _. exists wp'.
  split; [done|done|by rewrite Hn, Hh|by rewrite Hc|done|by rewrite Hn, Hs].
Qed.

(** Everything that the worker and the broker had of the client is gone. *)
Record gone (b b' : broker) (w p : Z) (xs : list Z) (M : list Z -> list sub_key) : Prop := {
  go_clients : b_clients b' = delete p (b_clients b);
  go_ws cp a : b_clients b !! p = Some cp -> c_ws cp = Some a -> b_ws b' !! p = None;
  go_worker : exists wp', attached b' w wp' (filter (fun q => q <> p) xs) (without p M);
  go_others v : 0 <= v -> v <> w -> session_part <$> b_workers b' !! Z.to_nat v = session_part <$> b_workers b !! Z.to_nat v
}.

Lemma unbind_ok `{Libc} b w wp xs M p cp reason :
  attached b w wp xs M -> b_clients b !! p = Some cp -> c_worker cp = w -> owns cp p M -> p ∈ xs ->
  c_state cp <> CLIENT_CLOSING -> unmonitored b p cp ->
  (c_state cp = CLIENT_CONNECTED -> is_ok (c_pub_disconnected b p reason)) ->
  exists b', c_unbind b p reason = Ok b' /\ gone b b' w p xs M.
Proof.
  intros Hat Hcp Hw Hown Hp Hst Hu Hpub. unfold c_unbind. rewrite (get_client_ok _ _ _ Hcp). cbn [mbind outcome_bind].
  assert (exists b1, (if decide (c_state cp = CLIENT_CONNECTED) then c_pub_disconnected b p reason else mret b) = Ok b1 /\
    same_sessions b b1) as (b1 & -> & Hss).
  { case_decide as Hc; [|by exists b]. destruct (Hpub Hc) as [b1 E]. exists b1. split; [done|]. by eapply pub_disconnected_same. }
  cbn [mbind outcome_bind]. destruct (same_attached _ _ _ _ _ _ Hss Hat) as [wp1 Hat1].
  assert (b_clients b1 !! p = Some cp) as Hcp1 by (by rewrite (ss_clients _ _ Hss)).
  rewrite (get_client_ok _ _ _ Hcp1). cbn [mbind outcome_bind]. rewrite ASSERT_ok by by apply bool_decide_eq_true_2.
  cbn [mbind outcome_bind]. set (cp2 := cp <| c_state := CLIENT_CLOSING |>). set (b2 := put_client b1 p cp2).
  assert (b_clients b2 !! p = Some cp2) as Hcp2 by apply lookup_insert_eq.
  assert (attached b2 w wp1 xs M) as Hat2 by (by destruct Hat1).
  rewrite Hw.
  destruct (worker_rm_client_ok b2 w wp1 xs M p cp2 Hat2 Hcp2) as (h & log & wp3 & -> & Hat3 & Hnd); [by destruct Hown|done|].
  cbn [mbind outcome_bind]. set (cp3 := auth_client_destroy _) in *. set (b3 := after_rm _ _ _ _ _ _ _) in *.
  assert (b_clients b3 !! p = Some cp3) as Hcp3 by apply lookup_insert_eq.
  rewrite (ka_remove_none b3 w p cp3 Hcp3).
  2:{ destruct Hu as [Hu|Hu]; [by left|right]. change (b_nodes b3) with h. rewrite Hnd.
      change (b_nodes b2) with (b_nodes b1). by rewrite (ss_nodes _ _ Hss). }
  cbn [mbind outcome_bind]. rewrite (get_client_ok _ _ _ Hcp3). cbn [mbind outcome_bind mret outcome_ret].
  eexists. split; [reflexivity|]. split.
  - change (b_clients (free_client b3 p cp3)) with (delete p (<[p := cp3]> (<[p := cp2]> (b_clients b1)))).
    rewrite !delete_insert_eq. by rewrite (ss_clients _ _ Hss).
  - intros cp' a Hcp' Ha. rewrite Hcp in Hcp'. injection Hcp' as <-. unfold free_client.
    change (c_ws cp3) with (c_ws cp). rewrite Ha. apply lookup_delete_eq.
  - exists wp3. apply free_attached; [done| |].
    + intros [Hne _]%list_elem_of_filter. done.
    + intros s k [Hne _]%list_elem_of_filter. done.
  - intros v Hv Hne. change (b_workers (free_client b3 p cp3)) with (<[Z.to_nat w := wp3]> (b_workers b1)).
    rewrite list_lookup_insert_ne by (pose proof (at_index _ _ _ _ _ Hat); lia). rewrite <- !list_lookup_fmap.
    by rewrite (ss_workers _ _ Hss).
Qed.

End close.

(** C6. Closing a connection leaves nothing of it behind: the client is freed,
    its worker has neither its node in the list of clients nor any of its
    subscriptions in the trie, and the other clients and workers keep theirs;
    this supposes that the notice of a connected client can be published and,
    as is the case in the program as it stands, that the client is not in the
    keep-alive table. *)
Theorem client_leaves_nothing `{Libc} `{Sys} b w wp xs M p cp reason :
  attached b w wp xs M -> b_clients b !! p = Some cp -> c_worker cp = w -> owns cp p M -> p ∈ xs ->
  c_state cp <> CLIENT_CLOSING -> unmonitored b p cp ->
  (c_state cp = CLIENT_CONNECTED -> is_ok (c_pub_disconnected (do_call b (Call_close (c_sd cp))).2 p reason)) ->
  exists b', c_disconnect b p reason = Ok b' /\ gone b b' w p xs M.
Proof.
  intros Hat Hcp Hw Hown Hp Hst Hu Hpub. unfold c_disconnect. rewrite (get_client_ok _ _ _ Hcp). cbn [mbind outcome_bind].
  rewrite decide_False by done. set (b1 := (do_call b (Call_close (c_sd cp))).2).
  destruct (unbind_ok b1 w wp xs M p cp reason) as (b' & E & [Hc Hws Hwk Ho]); try done; [by destruct Hat|].
  exists b'. split; [exact E|]. by split.
Qed.

(** ** Examples *)

(** The first worker of [demo_broker] with its client in the list. *)
Definition leaving_worker : worker_st :=
  (example_worker 0 1) <| w_subs := demo_subs.2 |> <| w_clients_head := Some (ClientsNode 5) |> <| w_num_clients := 1 |>.
Definition leaving_broker : broker := demo_broker <| b_workers := [leaving_worker; example_worker 1 2] |>.

Example client_leaves_nothing_witness :
  exists b', @c_disconnect calm_libc slow_sys leaving_broker 5 (lit "bye"%str) = Ok b' /\
    gone leaving_broker b' 0 5 [5] demo_store.
Proof.
  refine (@client_leaves_nothing calm_libc slow_sys leaving_broker 0 leaving_worker [5] demo_store 5 demo_client (lit "bye"%str)
    _ eq_refl eq_refl _ _ _ _ _).
  - split; [done|done| |done|done|apply demo_subs_rep]. split; [done|]. by eexists.
  - split.
    + intros i Hi. change (c_num_subs demo_client) with 1 in Hi. assert (i = 0) as -> by lia.
      exists (mk_subscription 5 1 (Some [97; 47; 43; 0])), [97; 47; 43], [].
      split; [done|]. split; [done|]. split; [by repeat constructor|].
      change (strip_local [97; 47; 43]) with [97; 47; 43]. unfold demo_store, upd_subs. rewrite decide_True by done. by left.
    + intros s i [-> [= ->]]%demo_store_keys. done.
  - by left.
  - done.
  - by left.
  - intros _. eexists. vm_compute. reflexivity.
Defined.

(** A subscriber whose socket fails is freed under the search that delivers to it. *)
Definition broken_sys : Sys := {|
  sys_reply log c := match c with
    | Call_send _ _ => mk_reply (-1) [] []
    | _ => mk_reply 0 [] []
    end;
  loop_fuel := 100;
  sizeof_client_st := 4096;
  sizeof_client_ws_st := 512
|}.

Example failed_delivery_uses_freed_node :
  sub_search b_nodes (@c_deliver calm_libc broken_sys) demo_subs.2 demo_message leaving_broker = Undef UseAfterFree.
Proof. vm_compute. reflexivity. Qed.
