(* ===== verification/Sessions.v ===== *)
(** * What the handlers answer (src/client.c)

    A PUBLISH that is accepted, and a CONNECT that is refused, from the packet
    to the bytes on the socket. *)

From S2P Require Import Prelude DList Queue MqttPacket MqttEncode ClientTypes MqttParser Trie Subscription World.
From S2P Require Import Text KeepAlive WorkerQueue ClientSend Auth Client Delivery Messages Lifecycle Closing.

Section sessions.
Context `{Libc} `{Sys}.

(** The CONNACK packet with a return code. *)
Definition connack (code : Z) : list Z := [32; 2; 0; code].

Lemma send_connack_ok b p cp code :
  sends_progress -> b_clients b !! p = Some cp -> plain cp -> is_byte code ->
  exists buf len b', encode_conack c_send_buf sizeof_send_buf 0 code = Ok (buf, len) /\
    c_send_data b p buf len = Ok (b', 0) /\ sent b b' (c_sd cp) (transport cp (connack code)).
Proof.
  intros Hs Hp Hpl Hc.
  destruct (encode_fixed_ok c_send_buf sizeof_send_buf 1 0 0 0 code 0 0 0 0 _ c_send_buf_cons) as (_ & -> & _); try done; try lia.
  set (buf := _ ++ _). assert (zlen buf = 1500) as Hb.
  { unfold buf. rewrite zlen_app. unfold zlen. rewrite length_replicate. reflexivity. }
  destruct (send_data_ok b p cp buf 4 Hs Hp Hpl) as (b' & E & Hsent); [lia|lia|unfold int_max; lia|].
  exists buf, 4, b'. split; [done|]. split; [done|]. unfold buf in Hsent. change (Z.to_nat 4) with 4%nat in Hsent. exact Hsent.
Qed.

(** The credentials of a client are refused, which changes [b] into [b1]. *)
Record refused (b b1 : broker) (p : Z) (cp : client_st) (co : connect_st) : Prop := {
  rf_client : b_clients b !! p = Some cp;
  rf_name : exists u rest, c_username cp = u :: rest /\ (u <> 0 \/ cf_allow_anonymous (b_config b) = 0);
  rf_auth : exists rv, auth_auth b (c_worker cp) p (co_password co) = Ok (b1, rv) /\ rv <> 0;
  rf_kept : b_clients b1 !! p = Some cp;
  rf_open : c_state cp = CLIENT_OPEN;
  rf_plain : plain cp
}.

Lemma sent_attached b b' sd out w wp xs M : sent b b' sd out -> attached b w wp xs M -> attached b' w wp xs M.
Proof. intros [[log ->] _ _] []. by split. Qed.

Lemma refuse_ok b b1 p cp co w wp xs M :
  sends_progress -> refused b b1 p cp co -> attached b1 w wp xs M -> c_worker cp = w -> owns cp p M -> p ∈ xs ->
  unmonitored b1 p cp ->
  exists b2 b', on_recv_connect_h b p co = Ok (b', 0) /\ gone b2 b' w p xs M /\
    sent (put_client b1 p (cp <| c_is_super := 0 |>)) b2 (c_sd cp) (transport cp (connack 5)).
Proof.
  intros Hs [Hcp (u & rest & Hu & Hname) (rv & Hauth & Hrv) Hcp1 Hopen Hpl] Hat Hw Hown Hp Hmon.
  unfold on_recv_connect_h. rewrite (get_client_ok _ _ _ Hcp). cbn [mbind outcome_bind].
  rewrite Hu. change (arr_get (u :: rest) 0) with (Ok u). cbn [mbind outcome_bind].
  assert (truthy (cf_allow_anonymous (b_config b)) && (u =? 0) = false) as ->.
  { destruct Hname as [Hne| ->]; [|done]. apply Z.eqb_neq in Hne. by rewrite Hne, andb_false_r. }
  rewrite Hauth. cbn [mbind outcome_bind]. rewrite (get_client_ok _ _ _ Hcp1). cbn [mbind outcome_bind].
  rewrite (proj2 (negb_true_iff _) (proj2 (Z.eqb_neq _ _) Hrv) : truthy rv = true). cbn [mbind outcome_bind mret outcome_ret].
  set (cp2 := cp <| c_is_super := 0 |>). set (b1' := put_client b1 p cp2).
  assert (b_clients b1' !! p = Some cp2) as Hcp2 by apply lookup_insert_eq.
  destruct (send_connack_ok b1' p cp2 5 Hs Hcp2) as (buf & len & b2 & -> & E & Hsent); [by destruct Hpl|done|].
  cbn [mbind outcome_bind]. rewrite E. cbn [mbind outcome_bind]. cbn [truthy negb Z.eqb].
  pose proof (sent_client _ _ _ _ p Hsent) as Hcp3. rewrite Hcp2 in Hcp3.
  assert (attached b1' w wp xs M) as Hat1 by (by destruct Hat).
  destruct (unbind_ok (do_call b2 (Call_close (c_sd cp2))).2 w wp xs M p cp2 (lit "auth failed"%str)) as (b' & E' & Hgone); try done.
  - pose proof (sent_attached _ _ _ _ _ _ _ _ Hsent Hat1) as [? ? ? ? ? ?]. by split.
  - by destruct Hown.
  - change (c_state cp2) with (c_state cp). by rewrite Hopen.
  - destruct Hsent as [[log ->] _ _]. exact Hmon.
  - change (c_state cp2) with (c_state cp). by rewrite Hopen.
  - exists b2, b'. split; [|split; [|done]].
    + unfold c_disconnect. rewrite (get_client_ok _ _ _ Hcp3). cbn [mbind outcome_bind].
      change (c_state cp2) with (c_state cp). rewrite Hopen. rewrite decide_False by done.
      rewrite E'. done.
    + destruct Hgone as [? ? ? ?]. by split.
Qed.
End sessions.

(** C31. A client whose credentials are refused is sent CONNACK with the return
    code 5 and is closed and freed with all that belongs to it; and the parser
    then uses it: the handler returns 0, and the write of the next state goes
    to freed memory. *)
Theorem refused_client_used_after_free `{Libc} `{Sys} b b1 p cp co w wp xs M :
  sends_progress -> refused b b1 p cp co -> attached b1 w wp xs M -> c_worker cp = w -> owns cp p M -> p ∈ xs ->
  unmonitored b1 p cp -> c_addr cp = p ->
  (exists b2 b', on_recv_connect_h b p co = Ok (b', 0) /\ gone b2 b' w p xs M /\
     sent (put_client b1 p (cp <| c_is_super := 0 |>)) b2 (c_sd cp) (transport cp (connack 5))) /\
  finish (on_recv_connect b cp co) = Undef UseAfterFree.
Proof.
  intros Hs Hr Hat Hw Hown Hp Hmon Ha. destruct (refuse_ok b b1 p cp co w wp xs M) as (b2 & b' & E & Hg & Hsent); try done.
  split; [by exists b2, b'|]. unfold finish, on_recv_connect, mqtt_parser_callbacks, with_client. rewrite Ha.
  assert (put_client b p cp = b) as ->.
  { unfold put_client, upd. cbn. rewrite insert_id by apply Hr. by destruct b. }
  cbv beta. rewrite E. cbn [mbind outcome_bind mret outcome_ret].
  by rewrite (go_clients _ _ _ _ _ _ Hg), lookup_delete_eq.
Qed.

(** A PUBLISH of a client that may publish puts the message at the end of
    the queue of every worker, where it stays alive, and is answered with
    PUBACK or PUBREC on the socket of the client according to its QoS; nothing
    is written to another socket. *)
Theorem publish_queued_and_acknowledged `{Libc} `{Sys} b Q G p cp mp :
  sends_progress -> msg_inv b Q G -> publisher b p cp -> fresh_message mp ->
  exists b', on_recv_publish_h b p mp = Ok (b', 0) /\ msg_inv b' ((fun q => q ++ [b_fresh b]) <$> Q) G /\
    wire b' (c_sd cp) = wire b (c_sd cp) ++ transport cp (ack_packet mp) /\
    (forall sd, sd <> c_sd cp -> wire b' sd = wire b sd).
Proof.
  intros Hs Hinv Hp Hm. destruct (on_recv_publish_ok b Q G p cp mp Hs Hinv Hp Hm) as (its & ws & nd & b' & E & Hinv' & [_ Hw Ho] & _).
  exists b'. split; [done|]. split; [done|]. by split.
Qed.

(** ** Examples *)

Example publish_queued_and_acknowledged_witness :
  exists b', @on_recv_publish_h calm_libc slow_sys demo_two 5 demo_message = Ok (b', 0) /\
    @msg_inv b' ((fun q => q ++ [b_fresh demo_two]) <$> replicate 2 []) (replicate 2 []) /\
    @wire slow_sys b' 9 = @wire slow_sys demo_two 9 ++ [64; 2; 0; 0] /\
    (forall sd, sd <> 9 -> @wire slow_sys b' sd = @wire slow_sys demo_two sd).
Proof.
  refine (@publish_queued_and_acknowledged calm_libc slow_sys demo_two (replicate 2 []) (replicate 2 []) 5 demo_client
    demo_message slow_sends _ _ demo_fresh).
  - exact (started_inv demo_two (demo_started _)).
  - by apply demo_publisher.
Defined.

(** A stranger on the first worker, when anonymous clients are not allowed
    and the database knows nobody. *)
Definition stranger : client_st := example_client <| c_username := lit "U-eve"%str ++ replicate 123 0 |>.
Definition stranger_worker : worker_st := (example_worker 0 1) <| w_clients_head := Some (ClientsNode 5) |> <| w_num_clients := 1 |>.

Definition closed_broker : broker :=
  example_broker <| b_config := example_config <| cf_allow_anonymous := 0 |> |> <| b_clients := {[ 5 := stranger ]} |>
    <| b_workers := [stranger_worker; example_worker 1 2] |>.

Definition guess : connect_st :=
  mk_connect (mk_flags 0 0 0 0 1 1) (replicate 7 0) 0 0 (replicate 128 0) (lit "guess"%str ++ replicate 123 0).

Definition after_guess : broker :=
  match @auth_auth slow_sys closed_broker 0 5 (co_password guess) with Ok (b, _) => b | _ => closed_broker end.

Example refused_client_used_after_free_witness :
  finish (@on_recv_connect _ (@mqtt_parser_callbacks calm_libc slow_sys) closed_broker stranger guess) = Undef UseAfterFree.
Proof.
  refine (proj2 (@refused_client_used_after_free calm_libc slow_sys closed_broker after_guess 5 stranger guess 0
    (stranger_worker <| w_auth_q := w_auth_q (default stranger_worker (b_workers after_guess !! 0%nat)) |>)
    [5] (fun _ => []) slow_sends _ _ eq_refl _ _ _ eq_refl)).
  - split; [done| | |done|done|by split].
    + eexists _, _. split; [reflexivity|]. by left.
    + exists 1. split; [vm_compute; reflexivity|done].
  - split; [done|vm_compute; reflexivity| |done|done|apply subs_rep_empty]. split; [done|]. eexists. by split; [vm_compute; reflexivity|].
  - split; [intros i Hi; cbn in Hi; lia|]. intros s i Hin. by apply not_elem_of_nil in Hin.
  - by left.
  - by left.
Defined.
