(* ===== verification/Broadcast.v ===== *)
(** * From one client to all the others

    What a PUBLISH does in the end: the handler of client.c queues the message
    on every worker, then the workers deliver, in any order of the threads.
    The pieces are those of Messages and Delivery. *)

From S2P Require Import Prelude DList Queue MqttPacket MqttEncode ClientTypes Trie TrieSearch TrieStore Subscription World.
From S2P Require Import Text KeepAlive WorkerQueue ClientSend Auth Client Delivery Messages Lifecycle.

Section broadcast.
Context `{Libc} `{Sys}.
Implicit Types (b : broker) (mp : message_st) (ks : list sub_key).

(** The workers deliver one after the other. *)
Fixpoint deliver_in (order : list nat) (fuel : nat) (b : broker) : outcome broker :=
  match order with
  | [] => mret b
  | i :: order => b ← w_deliver c_deliver fuel b (Z.of_nat i); deliver_in order fuel b
  end.

(** ** What a delivery to two lists of subscriptions is *)

Lemma deliver_clients_app cs mp ks ks' :
  deliver_clients cs mp (ks ++ ks') = deliver_clients (deliver_clients cs mp ks) mp ks'.
Proof.
  revert cs. induction ks as [|k ks IH]; intros cs; [done|]. cbn [app deliver_clients].
  destruct (sub_target cs k) as [[sp cp]|]; [|done]. by destruct (connected cp).
Qed.

Lemma deliver_stream_app cs mp ks ks' sd :
  deliver_stream cs mp (ks ++ ks') sd = deliver_stream cs mp ks sd ++ deliver_stream (deliver_clients cs mp ks) mp ks' sd.
Proof.
  revert cs. induction ks as [|k ks IH]; intros cs; [done|]. cbn [app deliver_stream deliver_clients].
  destruct (sub_target cs k) as [[sp cp]|]; [|done]. destruct (connected cp); [|done]. by rewrite IH, app_assoc.
Qed.

(** Who published a message, and who has not delivered it yet, does not show. *)
Definition same_packet mp mp' : Prop :=
  exists p nd, mp' = mp <| m_client := p |> <| m_not_done := nd |>.

Lemma deliver_stream_packet cs mp mp' ks sd :
  same_packet mp mp' -> deliver_stream cs mp' ks sd = deliver_stream cs mp ks sd /\
    deliver_clients cs mp' ks = deliver_clients cs mp ks.
Proof.
  intros (p & nd & ->). revert cs. induction ks as [|k ks IH]; intros cs; [done|]. cbn [deliver_stream deliver_clients].
  destruct (sub_target cs k) as [[sp cp]|]; [|apply IH]. destruct (connected cp); [|apply IH].
  destruct (IH (<[sb_client sp := bumped (deliver_qos mp sp) cp]> cs)) as [E1 E2].
  change (deliver_qos (mp <| m_client := p |> <| m_not_done := nd |>) sp) with (deliver_qos mp sp).
  rewrite E1, E2. done.
Qed.

(** ** The workers, one after the other *)

(** The workers of [order] have the subscriptions [Ms]. *)
Definition subscriptions_of b (order : list nat) (Ms : list (list Z -> list sub_key)) : Prop :=
  Forall2 (fun i M => exists wp, b_workers b !! i = Some wp /\ subscribed b (w_subs wp) M) order Ms.

Lemma subscriptions_frame b b' order Ms :
  b_nodes b' = b_nodes b -> same_subs (b_workers b) (b_workers b') -> same_clients (b_clients b) (b_clients b') ->
  subscriptions_of b order Ms -> subscriptions_of b' order Ms.
Proof.
  intros Hn Hw Hc Hsubs. eapply Forall2_impl; [exact Hsubs|]. intros i M (wp & Hwp & [Hr Hl Hs]).
  destruct (lookup_lt_is_Some_2 (b_workers b') i) as [wp' Hwp'].
  { apply (f_equal length) in Hw. rewrite !length_fmap in Hw. rewrite Hw. by eapply lookup_lt_Some. }
  destruct (same_subs_lookup _ _ _ _ Hw Hwp') as (wp0 & Hwp0 & E). rewrite Hwp in Hwp0. injection Hwp0 as <-.
  exists wp'. split; [done|]. rewrite <- E. split; rewrite ?Hn; try done.
  intros s k Hk. eapply sub_target_same; [done|]. by eapply Hl.
Qed.

Lemma deliver_in_ok fuel mp0 s junk order : forall Ms b Q G m mp,
  sends_progress -> msg_inv b Q G -> (0 < fuel)%nat -> NoDup order ->
  (forall i, i ∈ order -> Q !! i = Some [m]) -> b_messages b !! m = Some mp -> same_packet mp0 mp ->
  m_topic mp0 = s ++ 0 :: junk -> text s -> topic_levels (levels s) -> subscriptions_of b order Ms ->
  exists b' Q' G', deliver_in order fuel b = Ok b' /\ msg_inv b' Q' G' /\
    (forall i, Q' !! i = if decide (i ∈ order) then Some [] else Q !! i) /\
    (forall sd, wire b' sd = wire b sd ++ deliver_stream (b_clients b) mp0 (concat ((fun M => found_subs M s) <$> Ms)) sd).
Proof.
  induction order as [|i order IH]; intros Ms b Q G m mp Hs Hinv Hf Hnd HQ Hm Hsame Ht Htx Hlv Hsubs.
  { exists b, Q, G. split; [done|]. split; [done|]. apply Forall2_nil_inv_l in Hsubs as ->. split; [done|].
    intros sd. cbn. by rewrite app_nil_r. }
  apply NoDup_cons in Hnd as [Hi Hnd]. pose proof (HQ i ltac:(by left)) as HQi.
  apply Forall2_cons_inv_l in Hsubs as (M & Ms' & (wp & Hwp & HM) & Hsubs & ->).
  destruct (mo_client _ _ _ _ _ (mv_msgs _ _ _ Hinv m mp Hm)) as (cp & Hcp & _).
  destruct (deliver_one_ok b Q G i m [] mp cp Hs Hinv HQi Hm Hcp)
    as (b1 & E1 & Hinv1 & (mp1 & Em1) & _ & _ & Hcl & Hnode & Hws & Hdv).
  destruct Hsame as (p & nd & ->).
  destruct (Hdv wp M s junk Hwp HM Ht Htx Hlv) as [Hc1 Hw1].
  assert (w_deliver c_deliver fuel b (Z.of_nat i) = Ok b1) as Erun.
  { apply (rounds_once _ _ b); [done|done|]. eapply deliver_none; [exact Hinv1|].
    rewrite list_lookup_insert_eq; [done|by eapply lookup_lt_Some]. }
  set (mp := mp0 <| m_client := p |> <| m_not_done := nd |>) in *.
  assert (same_packet mp0 mp) as Hp0 by (by exists p, nd).
  destruct (IH Ms' b1 (<[i := []]> Q) _ m (mp <| m_not_done := mp1 |>) Hs Hinv1 Hf Hnd) as (b' & Q' & G' & Erest & Hinv' & HQ' & Hw').
  - intros j Hj. rewrite list_lookup_insert_ne by (by intros ->). apply HQ. by right.
  - rewrite Em1. apply lookup_insert_eq.
  - by exists p, mp1.
  - done.
  - done.
  - done.
  - by eapply subscriptions_frame.
  - exists b', Q', G'. split; [by cbn [deliver_in]; rewrite Erun, bind_ok|]. split; [done|]. split.
    + intros j. rewrite HQ'. destruct (decide (j = i)) as [->|Hne].
      * rewrite decide_False, decide_True by (done || by left). rewrite list_lookup_insert_eq; [done|by eapply lookup_lt_Some].
      * rewrite list_lookup_insert_ne by done. apply decide_ext. rewrite elem_of_cons. tauto.
    + intros sd. rewrite Hw', Hw1, Hc1. cbn [fmap list_fmap concat]. rewrite deliver_stream_app.
      destruct (deliver_stream_packet (b_clients b) mp0 mp (found_subs M s) sd Hp0) as [-> ->]. by rewrite app_assoc.
Qed.

End broadcast.

(** C1. A published message reaches everybody: a PUBLISH of a client that may
    publish, while the queues of the workers are empty, is acknowledged to its
    client, and when the workers of [order] then deliver, one after the other
    and in any order, exactly the packets for the connected subscribers of
    these workers whose filter matches the topic go out, each on the socket of
    the subscriber and with the lower of the two QoS; nothing else is written. *)
Theorem publish_reaches_everyone `{Libc} `{Sys} b p cp mp n G order Ms s junk fuel :
  sends_progress -> msg_inv b (replicate n []) G -> publisher b p cp -> fresh_message mp ->
  m_topic mp = s ++ 0 :: junk -> text s -> topic_levels (levels s) ->
  NoDup order -> (forall i, i ∈ order -> (i < n)%nat) -> subscriptions_of b order Ms -> (0 < fuel)%nat ->
  exists b1 b2, on_recv_publish_h b p mp = Ok (b1, 0) /\ deliver_in order fuel b1 = Ok b2 /\
    forall sd, wire b2 sd = wire b sd ++
      (if decide (sd = c_sd cp) then transport cp (ack_packet mp) else []) ++
      deliver_stream (b_clients b) mp (concat ((fun M => found_subs M s) <$> Ms)) sd.
Proof.
  intros Hs Hinv Hp Hmp Ht Htx Hlv Hnd Hlt Hsubs Hf.
  destruct (on_recv_publish_ok b _ G p cp mp Hs Hinv Hp Hmp) as (its & ws & nd & b1 & E1 & Hinv1 & [[log ->] Hw Ho] & Hss).
  set (m := b_fresh b) in *. set (mp' := mp <| m_client := p |> <| m_not_done := nd |>) in *. set (b1 := with_queues _ _ _ _ _) in *.
  destruct (deliver_in_ok fuel mp s junk order Ms (b1 <| b_log := log |>) _ G m mp' Hs Hinv1 Hf Hnd) as (b2 & _ & _ & E2 & _ & _ & Hw2);
    try done.
  - intros i Hi. rewrite list_lookup_fmap, lookup_replicate_2 by auto. done.
  - cbn. by rewrite lookup_insert_eq.
  - by exists p, nd.
  - by apply (subscriptions_frame b).
  - exists (b1 <| b_log := log |>), b2. split; [done|]. split; [done|]. intros sd. rewrite Hw2, app_assoc. f_equal.
    destruct (decide (sd = c_sd cp)) as [->|Hne]; [exact Hw|]. rewrite app_nil_r. by apply Ho.
Qed.

(** ** Examples *)

(** The second worker delivers before the first, which has the subscriber. *)
Example publish_reaches_everyone_witness :
  exists b1 b2, @on_recv_publish_h calm_libc slow_sys demo_two 5 demo_message = Ok (b1, 0) /\
    @deliver_in calm_libc slow_sys [1; 0]%nat 10 b1 = Ok b2 /\
    forall sd, @wire slow_sys b2 sd = @wire slow_sys demo_two sd ++
      (if decide (sd = 9) then [64; 2; 0; 0] else []) ++
      deliver_stream (b_clients demo_two) demo_message [(5, 0)] sd.
Proof.
  refine (@publish_reaches_everyone calm_libc slow_sys demo_two 5 demo_client demo_message 2 (replicate 2 []) [1; 0]%nat
    [fun _ => []; demo_store] [97; 47; 98] [] 10 slow_sends (started_inv demo_two (demo_started _)) _ demo_fresh eq_refl
    (proj1 demo_topic) (proj2 demo_topic) _ _ _ _).
  - by apply demo_publisher.
  - apply (bool_decide_unpack _). by vm_compute.
  - intros i Hi. do 2 (apply elem_of_cons in Hi as [->|Hi]; [lia|]). by apply not_elem_of_nil in Hi.
  - constructor; [|constructor; [|constructor]]; eexists; (split; [reflexivity|]).
    + destruct demo_subs_none. by split.
    + destruct demo_subscribed. by split.
  - lia.
Defined.
