(* ===== verification/AuthSpec.v ===== *)
(** * What authentication and access control decide (src/auth/auth_fb.c)

    The outcome of [auth_auth] and [auth_acl] in terms of the rows the
    database answers with, and of topics level by level. *)

From S2P Require Import Prelude MqttPacket ClientTypes World Text Auth.

(** ** Strings *)

Lemma c_string_snprintf size s :
  Forall (fun c => c <> 0) s -> zlen s < size -> c_string (snprintf_buf size s) = Ok s.
Proof.
  intros Hs Hl. unfold snprintf_buf. assert (take (Z.to_nat (size - 1)) s = s) as ->.
  { apply take_ge. unfold zlen in Hl. lia. }
  destruct (Z.to_nat size - length s)%nat as [|k] eqn:E; [unfold zlen in Hl; lia|]. cbn [replicate].
  by apply c_string_text.
Qed.

Lemma text_app (l k : list Z) :
  Forall (fun c => c <> 0) l -> Forall (fun c => c <> 0) k -> Forall (fun c => c <> 0) (l ++ k).
Proof. intros. by apply Forall_app. Qed.

Lemma arr_get_c_string (s junk : list Z) i : (i <= length s)%nat -> arr_get (s ++ 0 :: junk) (Z.of_nat i) = Ok (default 0 (s !! i)).
Proof.
  intros Hi. destruct (decide (i = length s)) as [->|Hne].
  - apply arr_get_ok; [lia|]. rewrite Nat2Z.id, (lookup_ge_None_2 s) by lia. cbn. apply list_lookup_middle. done.
  - destruct (lookup_lt_is_Some_2 s i) as [x Hx]; [lia|]. apply arr_get_ok; [lia|].
    rewrite Nat2Z.id, lookup_app_l by lia. by rewrite Hx.
Qed.

(** ** Access control *)

Definition lvl (s : String.string) : list Z := lit s.

(** The patterns of one device: for its own client, and for its users. *)
Definition own_patterns (access : auth_access_et) (id : list Z) : list (list (list Z)) :=
  match access with
  | AUTH_SUB => [[lvl "flameboss"%str; id; lvl "recv"%str]]
  | AUTH_PUB => [[lvl "flameboss"%str; id; lvl "send"%str; [c_plus]]]
  end.

Definition user_patterns (access : auth_access_et) (id : list Z) : list (list (list Z)) :=
  match access with
  | AUTH_SUB => [[lvl "flameboss"%str; id; lvl "send"%str; [c_plus]];
                 [lvl "flameboss"%str; lvl "relay"%str; id; lvl "recv"%str];
                 [lvl "flameboss"%str; lvl "mqttr"%str; id; lvl "send"%str]]
  | AUTH_PUB => [[lvl "flameboss"%str; id; lvl "recv"%str]; [lvl "flameboss"%str; id; lvl "recv"%str];
                 [lvl "flameboss"%str; lvl "mqttr"%str; id; lvl "recv"%str]]
  end.

Definition everybody_patterns (access : auth_access_et) : list (list (list Z)) :=
  match access with
  | AUTH_PUB => [[lvl "flameboss"%str; lvl "relay"%str; [c_plus]]]
  | AUTH_SUB => [[lvl "flameboss"%str; [c_plus]; lvl "send"%str; lvl "time"%str];
                 [lvl "flameboss"%str; [c_plus]; lvl "send"%str; lvl "open"%str]]
  end.

(** One of the patterns matches the topic or filter [s]. *)
Definition allowed (ps : list (list (list Z))) (s : list Z) : bool :=
  existsb (fun fl => levels_match false fl (levels (strip_local s))) ps.

(** An identifier as the database has it. *)
Definition good_id (id : list Z) : Prop := literal id /\ zlen id <= 100.

Lemma literal_text l : literal l -> Forall (fun c => c <> 0) l.
Proof. intros Hl. eapply Forall_impl; [exact Hl|]. by intros c (? & _). Qed.

Lemma join_text fl : filter_wf fl -> Forall (fun c => c <> 0) (join fl).
Proof.
  assert (forall l, literal l \/ l = [c_plus] \/ l = [c_hash] -> Forall (fun c => c <> 0) l) as Hl.
  { intros l [?|[-> | ->]]; [by apply literal_text|by repeat constructor..]. }
  induction fl as [|f fl IH]; [done|]. intros Hf. destruct fl as [|g fl]; [by apply Hl|].
  destruct Hf as [Hf Hrest]. rewrite join_cons by done. apply text_app; [apply Hl; tauto|]. constructor; [done|]. by apply IH.
Qed.

Lemma topic_allows_ok size fl s junk :
  filter_wf fl -> zlen (join fl) < size ->
  topic_allows size (join fl) (s ++ 0 :: junk) (zlen s) = Ok (levels_match false fl (levels (strip_local s))).
Proof.
  intros Hf Hl. unfold topic_allows. unfold snprintf_buf.
  assert (take (Z.to_nat (size - 1)) (join fl) = join fl) as ->.
  { apply take_ge. unfold zlen in Hl. lia. }
  destruct (Z.to_nat size - length (join fl))%nat as [|k] eqn:E; [unfold zlen in Hl; lia|]. cbn [replicate].
  rewrite topic_matches_ok by done. cbn. by destruct (levels_match _ _ _).
Qed.

Lemma first_allowed_ok size ps s junk :
  Forall (fun fl => filter_wf fl /\ zlen (join fl) < size) ps ->
  first_allowed size (join <$> ps) (s ++ 0 :: junk) (zlen s) = Ok (c_bool (negb (allowed ps s))).
Proof.
  induction 1 as [|fl ps [Hf Hl] _ IH]; [done|]. cbn [fmap list_fmap first_allowed].
  rewrite topic_allows_ok by done. cbn [mbind outcome_bind]. unfold allowed. cbn [existsb].
  destruct (levels_match _ _ _); [done|]. exact IH.
Qed.

Lemma literal_lit (s : String.string) :
  forallb (fun c => negb (c =? 0) && negb (c =? c_slash) && negb (c =? c_plus) && negb (c =? c_hash)) (lit s) = true ->
  literal (lit s).
Proof.
  intros Hs. apply Forall_forall. intros c Hc. rewrite forallb_forall in Hs.
  specialize (Hs c (proj1 (list_elem_of_In _ _) Hc)). rewrite !andb_true_iff, !negb_true_iff, !Z.eqb_neq in Hs. tauto.
Qed.

Ltac pattern_wf :=
  repeat match goal with
  | |- _ /\ _ => split
  | |- filter_wf _ => cbn [filter_wf]
  | |- literal (lvl _) \/ _ => left; apply literal_lit; reflexivity
  | H : literal ?l |- literal ?l \/ _ => left; exact H
  | |- literal _ \/ [c_plus] = [c_plus] => right; reflexivity
  | |- literal _ \/ [c_plus] = [c_plus] \/ _ => right; left; reflexivity
  end.

Ltac pattern_len :=
  repeat (rewrite join_cons by done); cbn [join]; unfold lvl; autorewrite with fb; unfold zlen; cbn; lia.

Ltac patterns_ok :=
  cbn [own_patterns user_patterns everybody_patterns];
  repeat match goal with
  | |- Forall _ (_ :: _) => apply Forall_cons; split
  | |- Forall _ [] => by apply Forall_nil
  end; (split; [pattern_wf|pattern_len]).

Lemma own_patterns_ok access id :
  good_id id -> Forall (fun fl => filter_wf fl /\ zlen (join fl) < MAX_TOPIC_LEN + 1) (own_patterns access id).
Proof.
  intros [Hl Hn]. unfold MAX_TOPIC_LEN. unfold zlen in Hn.
  destruct access; patterns_ok.
Qed.

Lemma user_patterns_ok access id :
  good_id id -> Forall (fun fl => filter_wf fl /\ zlen (join fl) < MAX_TOPIC_LEN) (user_patterns access id).
Proof.
  intros [Hl Hn]. unfold MAX_TOPIC_LEN. unfold zlen in Hn.
  destruct access; patterns_ok.
Qed.

Lemma everybody_patterns_ok access :
  Forall (fun fl => filter_wf fl /\ zlen (join fl) < MAX_QUERY_LEN) (everybody_patterns access).
Proof. unfold MAX_QUERY_LEN. destruct access; patterns_ok. Qed.

(** ** The database

    [answers log q fields rows]: the calls made for a query after [log]
    succeed, with [rows] of [fields] columns, and there is only one result. *)

Section spec.
Context `{Sys}.

Definition answers (log : list call) (q : list Z) (fields : Z) (rows : list (list (option (list Z)))) : Prop :=
  let l1 := log ++ [Call_mysql_query q] in
  let l2 := l1 ++ [Call_mysql_store_result] in
  let l3 := l2 ++ [Call_mysql_num_fields] in
  let l4 := l3 ++ [Call_mysql_free_result] in
  rp_int (sys_reply log (Call_mysql_query q)) = 0 /\
  rp_int (sys_reply l1 Call_mysql_store_result) <> 0 /\
  rp_rows (sys_reply l1 Call_mysql_store_result) = rows /\
  rp_int (sys_reply l2 Call_mysql_num_fields) = fields /\
  rp_int (sys_reply l4 Call_mysql_next_result) <> 0 /\
  (0 < loop_fuel)%nat.

(** The calls of one query. *)
Definition query_log (log : list call) (q : list Z) : list call :=
  log ++ [Call_mysql_query q] ++ [Call_mysql_store_result] ++ [Call_mysql_num_fields] ++
    [Call_mysql_free_result] ++ [Call_mysql_next_result].

Lemma next_results_end fuel b :
  (0 < fuel)%nat -> rp_int (sys_reply (b_log b) Call_mysql_next_result) <> 0 ->
  next_results fuel b = Ok (do_call b Call_mysql_next_result).2.
Proof. destruct fuel; [lia|]. intros _ Hr. cbn [next_results do_call]. by rewrite (proj2 (Z.eqb_neq _ _) Hr). Qed.

(** A client that [b] has with an empty cache. *)
Definition no_cache (b : broker) (p : Z) : Prop :=
  exists cp, b_clients b !! p = Some cp /\ (c_auth_info cp = None \/ c_auth_info cp = Some set_create).

Lemma put_client_log b p c : b_log (put_client b p c) = b_log b.
Proof. done. Qed.

(** The devices of a user, one row each. *)
Definition device_rows (ids : list (list Z)) : list (list (option (list Z))) := (fun id => [Some id]) <$> ids.

Definition devices_patterns (access : auth_access_et) (ids : list (list Z)) : list (list (list Z)) :=
  concat (user_patterns access <$> ids).

Lemma allowed_app ps qs s : allowed (ps ++ qs) s = allowed ps s || allowed qs s.
Proof. apply existsb_app. Qed.

Lemma device_topics_join access id : device_topics access id = join <$> user_patterns access id.
Proof. by destruct access. Qed.

Lemma acl_rows_ok access ids s junk :
  Forall good_id ids ->
  acl_rows access (device_rows ids) (s ++ 0 :: junk) (zlen s)
  = Ok (c_bool (negb (allowed (devices_patterns access ids) s))).
Proof.
  induction 1 as [|id ids Hid _ IH]; [done|]. unfold device_rows. cbn [fmap list_fmap acl_rows].
  unfold row_string.
  change (arr_get [Some id] 0) with (Ok (Some id)). cbn [mbind outcome_bind mret outcome_ret].
  rewrite device_topics_join, first_allowed_ok by by apply user_patterns_ok. cbn [mbind outcome_bind].
  unfold devices_patterns. cbn [fmap list_fmap concat]. rewrite allowed_app.
  destruct (allowed (user_patterns access id) s); [done|]. exact IH.
Qed.

(** The calls of the query and [cleanup], around the use of the rows. *)
Lemma query_cleanup b q fields rows :
  answers (b_log b) q fields rows ->
  exists b1 b2 count b4 result,
    do_call b (Call_mysql_query q) = (sys_reply (b_log b) (Call_mysql_query q), b1) /\
    truthy (rp_int (sys_reply (b_log b) (Call_mysql_query q))) = false /\
    do_call b1 Call_mysql_store_result = (result, b2) /\ (rp_int result =? 0) = false /\ rp_rows result = rows /\
    do_call b2 Call_mysql_num_fields = (count, b4) /\ rp_int count = fields /\
    b4 = b <| b_log := b_log b ++ [Call_mysql_query q] ++ [Call_mysql_store_result] ++ [Call_mysql_num_fields] |> /\
    (forall b5, b_log b5 = b_log b4 -> mysql_cleanup b5 = Ok (b5 <| b_log := query_log (b_log b) q |>)).
Proof.
  intros (Hq & Hs & Hr & Hf & Hn & Hl).
  eexists _, _, _, _, _. split; [reflexivity|]. split; [by rewrite Hq|]. split; [reflexivity|].
  split; [by apply Z.eqb_neq|]. split; [done|]. split; [reflexivity|]. split; [done|].
  split; [unfold upd; cbn; by rewrite <- !app_assoc|].
  intros b5 Hb5. unfold mysql_cleanup. rewrite next_results_end; [|done|].
  - unfold do_call, upd. cbn -[app]. rewrite Hb5. unfold do_call, upd, query_log. cbn -[app].
    by rewrite <- !app_assoc.
  - unfold do_call, upd. cbn -[app]. rewrite Hb5. unfold do_call, upd. cbn -[app]. exact Hn.
Qed.

(** ** Access control *)

(** What an ordinary client may subscribe or publish to. *)
Inductive principal := Device (id : list Z) | User (user_id : list Z) (devices : list (list Z)).

Definition acl_patterns (access : auth_access_et) (who : principal) : list (list (list Z)) :=
  match who with
  | Device id => own_patterns access id
  | User _ ids => everybody_patterns access ++ devices_patterns access ids
  end.

(** The session [cp] of [b] belongs to that principal. *)
Definition belongs (b : broker) (cp : client_st) (who : principal) : Prop :=
  match who with
  | Device id => good_id id /\ exists junk, c_username cp = lit "D-"%str ++ id ++ 0 :: junk
  | User uid ids =>
      Forall good_id ids /\ Forall (fun c => c <> 0) uid /\ zlen (query_devices uid) < MAX_QUERY_LEN /\
      (exists c junk, c_username cp = c :: junk /\ c <> 68) /\
      (exists junk, c_user_id_str cp = uid ++ 0 :: junk) /\
      answers (b_log b) (query_devices uid) 1 (device_rows ids)
  end.

Lemma everybody_topics_join access : public_topics access = join <$> everybody_patterns access.
Proof. by destruct access. Qed.

Lemma own_topic_join access id :
  [match access with
   | AUTH_SUB => topic_of "flameboss/"%str id "/recv"%str
   | AUTH_PUB => topic_of "flameboss/"%str id "/send/+"%str
   end] = join <$> own_patterns access id.
Proof. by destruct access. Qed.

Lemma acl_user_ok b p cp access uid ids s junk :
  b_clients b !! p = Some cp -> belongs b cp (User uid ids) ->
  exists log, acl_user b p access (s ++ 0 :: junk) (zlen s)
    = Ok (b <| b_log := log |>, c_bool (negb (allowed (acl_patterns access (User uid ids)) s))).
Proof.
  intros Hcp (Hids & Huid & Hlen & _ & [junk' Hstr] & Hans).
  unfold acl_user. cbn [acl_patterns]. rewrite allowed_app.
  rewrite everybody_topics_join, first_allowed_ok by apply everybody_patterns_ok. cbn [mbind outcome_bind].
  destruct (allowed (everybody_patterns access) s); [by exists (b_log b); destruct b|].
  cbn [negb c_bool Z.eqb orb]. rewrite (get_client_ok _ _ _ Hcp). cbn [mbind outcome_bind].
  rewrite Hstr, c_string_text by done. cbn [mbind outcome_bind].
  rewrite (proj2 (Z.leb_gt _ _)) by done.
  destruct (query_cleanup _ _ _ _ Hans) as (b1 & b2 & count & b4 & result & -> & -> & -> & -> & Hrows & -> & -> & Hb4 & Hend).
  cbn [Z.eqb negb]. rewrite Hrows, acl_rows_ok by done. cbn [mbind outcome_bind].
  rewrite Hend by done. cbn [mbind outcome_bind mret outcome_ret]. exists (query_log (b_log b) (query_devices uid)).
  by rewrite Hb4.
Qed.

(** C4. [auth_acl] lets an ordinary client subscribe or publish exactly when
    one of its patterns matches the topic, level by level: a device has the
    patterns of its own id, a user those of everybody and of every device the
    database returns for it; and the cache of a client stays empty. *)
Theorem acl_decides b p cp access who fptr s junk :
  b_clients b !! p = Some cp -> c_is_super cp = 0 -> no_cache b p -> belongs b cp who ->
  exists b', auth_acl b p access fptr (s ++ 0 :: junk) (zlen s)
      = Ok (b', c_bool (negb (allowed (acl_patterns access who) s))) /\ no_cache b' p.
Proof.
  intros Hcp Hsuper (cp' & Hcp' & Hcache) Hwho. rewrite Hcp in Hcp'. apply (inj Some) in Hcp'. subst cp'.
  set (b0 := match access, c_auth_info cp with
             | AUTH_PUB, None => put_client b p (cp <| c_auth_info := Some set_create |>)
             | _, _ => b
             end).
  assert (exists cp0, b_clients b0 !! p = Some cp0 /\ belongs b0 cp0 who /\
    (c_auth_info cp0 = None \/ c_auth_info cp0 = Some set_create) /\ c_username cp0 = c_username cp)
    as (cp0 & Hcp0 & Hwho0 & Hcache0 & Hname).
  { subst b0. destruct access; [by exists cp|]. destruct (c_auth_info cp) eqn:E; [exists cp; rewrite E; by auto|].
    exists (cp <| c_auth_info := Some set_create |>). split; [apply lookup_insert_eq|].
    split; [by destruct who; exact Hwho|]. split; [by right|done]. }
  unfold auth_acl. rewrite (get_client_ok _ _ _ Hcp). cbn [mbind outcome_bind]. rewrite Hsuper. cbn [truthy Z.eqb negb].
  assert ((match access, c_auth_info cp with
      | AUTH_PUB, None => (put_client b p (cp <| c_auth_info := Some set_create |>), false)
      | AUTH_PUB, Some set => (b, set_exists set fptr)
      | AUTH_SUB, _ => (b, false)
      end) = (b0, false)) as ->.
  { subst b0. destruct access; [done|]. by destruct Hcache as [-> | ->]. }
  clearbody b0. cbn iota beta. rewrite <- Hname. destruct who as [id|uid ids].
  - destruct Hwho0 as (Hid & junk' & ->). change (lit "D-"%str) with [68; 45]. cbn [app].
    change (arr_get (68 :: 45 :: id ++ 0 :: junk') 0) with (Ok 68). cbn [mbind outcome_bind Z.eqb Pos.eqb].
    change (drop 2 (68 :: 45 :: id ++ 0 :: junk')) with (id ++ 0 :: junk').
    rewrite c_string_text by apply literal_text, Hid. cbn [mbind outcome_bind].
    rewrite own_topic_join, first_allowed_ok by by apply own_patterns_ok. cbn [mbind outcome_bind mret outcome_ret].
    eexists. split; [reflexivity|]. by exists cp0.
  - destruct (acl_user_ok b0 p cp0 access uid ids s junk Hcp0 Hwho0) as [log Hacl].
    destruct Hwho0 as (_ & _ & _ & (c & junk' & -> & Hc) & _).
    change (arr_get (c :: junk') 0) with (Ok c). cbn [mbind outcome_bind].
    rewrite (proj2 (Z.eqb_neq _ _) Hc), Hacl. eexists. split; [reflexivity|]. by exists cp0.
Qed.

(** ** Authentication *)

(** The row the database has for a user name: password, flag, and id. *)
Definition account : Type := list Z * list Z * list Z.

Definition account_rows (row : option account) : list (list (option (list Z))) :=
  match row with Some (secret, admin, id) => [[Some secret; Some admin; Some id]] | None => [] end.

(** The query for a user name of kind [k]; device 0 is looked up by address. *)
Definition query_of (k : Z) (name ip : list Z) : list Z :=
  if k =? 85 then query_user name
  else if k =? 68 then (if bool_decide (name = [48]) then query_device_0 ip else query_device name)
  else query_token name.

Definition device_0 (k : Z) (name : list Z) : bool := (k =? 68) && bool_decide (name = [48]).

(** Whom the broker lets in. *)
Definition let_in (device_0 : bool) (row : option account) (password : list Z) : bool :=
  match row with
  | Some (secret, _, _) => bool_decide (secret = password)
  | None => device_0
  end.

Lemma auth_query_ok b w p cp wp k name rest ip ip_rest :
  b_clients b !! p = Some cp -> get_worker b w = Ok wp ->
  k ∈ [68; 84; 85] -> c_username cp = k :: 45 :: name ++ 0 :: rest -> name <> [] ->
  Forall (fun c => c <> 0) name -> c_ip_address cp = ip ++ 0 :: ip_rest -> Forall (fun c => c <> 0) ip ->
  auth_query b w p = Ok (put_worker b w (wp <| w_auth_q := snprintf_buf MAX_QUERY_LEN (query_of k name ip) |>), device_0 k name).
Proof.
  intros Hcp Hwp Hk Hu Hne Hname Hip Hipt. unfold auth_query. rewrite (get_client_ok _ _ _ Hcp), Hwp. cbn [mbind outcome_bind]. rewrite Hu.
  change (arr_get (k :: 45 :: name ++ 0 :: rest) 0) with (Ok k).
  change (drop 2 (k :: 45 :: name ++ 0 :: rest)) with (name ++ 0 :: rest).
  rewrite c_string_text by done. cbn [mbind outcome_bind].
  rewrite !elem_of_cons in Hk. destruct Hk as [-> |[-> |[-> |Hk]]]; [| |reflexivity|by apply not_elem_of_nil in Hk].
  2:{ reflexivity. }
  cbn [Z.eqb Pos.eqb]. unfold query_of, device_0. cbn [Z.eqb Pos.eqb andb].
  destruct name as [|c name]; [done|].
  change (arr_get (68 :: 45 :: (c :: name) ++ 0 :: rest) 2) with (Ok c). cbn [mbind outcome_bind].
  rewrite Hip, c_string_text by done. destruct name as [|d name].
  - change (arr_get (68 :: 45 :: [c] ++ 0 :: rest) 3) with (Ok 0). cbn [mbind outcome_bind].
    destruct (Z.eqb_spec c 48) as [-> |Hc]; [done|]. cbn [andb]. by rewrite bool_decide_eq_false_2 by congruence.
  - change (arr_get (68 :: 45 :: (c :: d :: name) ++ 0 :: rest) 3) with (Ok d). cbn [mbind outcome_bind].
    apply Forall_cons in Hname as [_ Hname]. apply Forall_cons in Hname as [Hd _].
    rewrite (proj2 (Z.eqb_neq _ _) Hd), andb_false_r. by rewrite bool_decide_eq_false_2.
Qed.

Lemma lit_text s : forallb (fun c => negb (c =? 0)) (lit s) = true -> Forall (fun c => c <> 0) (lit s).
Proof.
  intros Hs. apply Forall_forall. intros c Hc. rewrite forallb_forall in Hs.
  specialize (Hs c (proj1 (list_elem_of_In _ _) Hc)). by rewrite negb_true_iff, Z.eqb_neq in Hs.
Qed.

Lemma query_text k name ip :
  Forall (fun c => c <> 0) name -> Forall (fun c => c <> 0) ip -> Forall (fun c => c <> 0) (query_of k name ip).
Proof.
  intros Hn Hi. unfold query_of.
  repeat case_match; unfold query_user, query_device_0, query_device, query_token;
    repeat apply text_app; try done; by apply lit_text.
Qed.

(** The session after it has been let in. *)
Definition granted (row : option account) (password : list Z) (cp cp' : client_st) : Prop :=
  match row with
  | Some (secret, admin, id) =>
      if bool_decide (secret = password) then
        c_is_super cp' = c_bool (bool_decide (admin = lit "1"%str)) /\ c_string (c_user_id_str cp') = Ok id
      else cp' = cp
  | None => cp' = cp
  end.

Lemma auth_row_ok b p cp secret admin id password junk :
  b_clients b !! p = Some cp -> Forall (fun c => c <> 0) password -> Forall (fun c => c <> 0) id ->
  zlen id < zlen (c_user_id_str cp) ->
  exists cp', auth_row b p [Some secret; Some admin; Some id] (password ++ 0 :: junk)
      = Ok (b <| b_clients := <[p := cp']> (b_clients b) |>, c_bool (negb (bool_decide (secret = password)))) /\
    granted (Some (secret, admin, id)) password cp cp'.
Proof.
  intros Hcp Hpw Hid Hlen. unfold auth_row.
  change (arr_get [Some secret; Some admin; Some id] 0) with (Ok (Some secret)). cbn [mbind outcome_bind].
  rewrite c_string_text by done. cbn [mbind outcome_bind granted].
  destruct (bool_decide (secret = password)).
  - rewrite (get_client_ok _ _ _ Hcp). cbn [mbind outcome_bind]. unfold row_string.
    change (arr_get [Some secret; Some admin; Some id] 1) with (Ok (Some admin)).
    change (arr_get [Some secret; Some admin; Some id] 2) with (Ok (Some id)). cbn [mbind outcome_bind mret outcome_ret].
    rewrite <- (take_drop (length (id ++ [0])) (c_user_id_str cp)).
    set (out := take _ _). set (tl := drop _ _). change (arr_blit (out ++ tl) 0) with (arr_blit ([] ++ out ++ tl) (zlen (@nil Z))).
    rewrite arr_blit_ok.
    2:{ subst out. unfold zlen in *. rewrite length_take, length_app. cbn [length]. lia. }
    cbn [mbind outcome_bind mret outcome_ret app]. eexists. split; [reflexivity|]. split; [done|].
    unfold upd. cbn [c_user_id_str]. rewrite <- app_assoc. by apply c_string_text.
  - exists cp. split; [|done]. rewrite insert_id by done. by destruct b.
Qed.


End spec.

(** ** Examples *)

(** A database that answers every query with [rows]. *)
Definition demo_db (fields : Z) (rows : list (list (option (list Z)))) : Sys := {|
  sys_reply log c := match c with
    | Call_mysql_store_result => mk_reply 1 [] rows
    | Call_mysql_num_fields => mk_reply fields [] []
    | Call_mysql_next_result => mk_reply (-1) [] []
    | _ => mk_reply 0 [] []
    end;
  loop_fuel := 10;
  sizeof_client_st := 4096;
  sizeof_client_ws_st := 512
|}.

(** The user "U-bob", with id 3, before the devices 7 and 8. *)
Definition bob : client_st :=
  example_client <| c_username := lit "U-bob"%str ++ 0 :: replicate 122 0 |>
    <| c_user_id_str := lit "3"%str ++ 0 :: replicate 18 0 |>.

Definition bob_broker : broker := example_broker <| b_clients := {[ 5 := bob ]} |>.
Definition bob_devices : Sys := demo_db 1 (device_rows [lit "7"%str; lit "8"%str]).
Definition bob_secret : account := (lit "secret"%str, lit "1"%str, lit "3"%str).

Lemma good_id_digit n : 48 <= n <= 57 -> good_id [n].
Proof.
  intros Hn. split; [|done]. apply Forall_singleton. unfold c_slash, c_plus, c_hash. lia.
Qed.

Example acl_decides_witness :
  exists b', @auth_acl bob_devices bob_broker 5 AUTH_SUB 0 (lit "flameboss/8/send/data"%str ++ 0 :: [1]) 21 = Ok (b', 0) /\
    no_cache b' 5.
Proof.
  refine (@acl_decides bob_devices bob_broker 5 bob AUTH_SUB (User (lit "3"%str) [lit "7"%str; lit "8"%str]) 0
    (lit "flameboss/8/send/data"%str) [1] eq_refl eq_refl _ _).
  - exists bob. split; [reflexivity|]. left. reflexivity.
  - split; [exact (Forall_cons_2 _ _ _ (good_id_digit 55 ltac:(lia)) (Forall_cons_2 _ _ _ (good_id_digit 56 ltac:(lia)) (Forall_nil_2 _)))|].
    split; [by repeat constructor|]. split; [done|]. split; [by exists 85, (drop 1 (c_username bob))|].
    split; [by exists (replicate 18 0)|]. by repeat split; cbn; lia.
Defined.

(** A device may not listen to another one. *)
Example acl_refuses :
  allowed (acl_patterns AUTH_SUB (Device (lit "7"%str))) (lit "flameboss/8/recv"%str) = false.
Proof. reflexivity. Qed.

