(* ===== verification/Handshake.v ===== *)
(** * Opening a WebSocket (src/client_ws.c)

    The parts of the HTTP request that http_parser hands over, in pieces as
    they arrive, and the response of the broker: the accept key is the base64
    encoding of the digest of the key and the suffix of RFC 6455. *)

From S2P Require Import Prelude Base64 MqttPacket ClientTypes WsParser Text HttpTypes HttpParser HttpRequest World ClientSend Client ClientWs Delivery.

(** ** Buffers *)

(** A buffer of [size] bytes that holds the C string [s]. *)
Definition holds (size : Z) (buf s : list Z) : Prop :=
  zlen buf = size /\ Forall (fun c => c <> 0) s /\ exists junk, buf = s ++ 0 :: junk.

Lemma holds_c_string size buf s : holds size buf s -> c_string buf = Ok s.
Proof. intros (_ & Hs & junk & ->). by apply c_string_text. Qed.

Lemma zlen_take_min {A} (l : list A) n : 0 <= n -> zlen (take (Z.to_nat n) l) = Z.min n (zlen l).
Proof. intros Hn. unfold zlen. rewrite length_take. lia. Qed.

Lemma arr_blit_any {A} (l src : list A) off :
  0 <= off -> off + zlen src <= zlen l ->
  arr_blit l off src = Ok (take (Z.to_nat off) l ++ src ++ drop (Z.to_nat off + length src) l).
Proof. intros Ho Hl. unfold arr_blit. apply Z.leb_le in Ho, Hl. by rewrite Ho, Hl. Qed.

Lemma arr_read_take {A} (l : list A) n : 0 <= n <= zlen l -> arr_read l n = Ok (take (Z.to_nat n) l).
Proof. intros [Ho Hl]. unfold arr_read. apply Z.leb_le in Ho, Hl. by rewrite Ho, Hl. Qed.

(** The bytes [src] after the string [s], and a NUL after some of them. *)
Lemma blit_string (s junk src : list Z) :
  zlen s + zlen src <= zlen (s ++ 0 :: junk) ->
  arr_blit (s ++ 0 :: junk) (zlen s) src = Ok (s ++ src ++ drop (length src) (0 :: junk)).
Proof.
  intros Hl. pose proof (zlen_nonneg s). rewrite arr_blit_any by lia. rewrite zlen_take_app.
  unfold zlen at 1. by rewrite Nat2Z.id, drop_app_add.
Qed.

Lemma set_nul (l rest : list Z) x n :
  zlen l = n -> arr_set (l ++ x :: rest) n 0 = Ok (l ++ 0 :: rest).
Proof. intros <-. apply arr_set_app_mid. Qed.

Section handshake.
Context `{Libc} `{Sys}.

(** The client [p] has the WebSocket part [ws]. *)
Definition on_ws (b : broker) (p : Z) (ws : client_ws_st) : Prop :=
  exists cp a, b_clients b !! p = Some cp /\ c_ws cp = Some a /\ b_ws b !! p = Some ws.

Lemma client_ws_ok b p ws : on_ws b p ws -> client_ws b p = Ok ws.
Proof.
  intros (cp & a & Hcp & Ha & Hws). unfold client_ws. rewrite (get_client_ok _ _ _ Hcp). cbn [mbind outcome_bind].
  rewrite Ha. unfold get_ws. by rewrite Hws.
Qed.

Lemma get_ws_ok b p ws : on_ws b p ws -> get_ws b p = Ok ws.
Proof. intros (cp & a & _ & _ & Hws). unfold get_ws. by rewrite Hws. Qed.

Lemma on_ws_put b p ws ws' : on_ws b p ws -> on_ws (put_ws b p ws') p ws'.
Proof. intros (cp & a & Hcp & Ha & _). exists cp, a. split; [done|]. split; [done|]. apply lookup_insert_eq. Qed.

(** One call of http_parser for the client [p], which must be there afterwards. *)
Definition ws_callback (p : Z) (b : broker) (c : http_call) : outcome broker :=
  match c with
  | Http_url l => http_on_url b p l
  | Http_header_field l => http_on_header_field b p l
  | Http_header_value l => http_on_header_value b p l
  | Http_message_complete up => http_on_message_complete b p up
  end.

Definition ws_call (p : Z) (b : broker) (c : http_call) : outcome broker :=
  b ← ws_callback p b c; _ ← get_ws b p; mret b.

Lemma ws_call_ok p b c b1 ws1 : ws_callback p b c = Ok b1 -> on_ws b1 p ws1 -> ws_call p b c = Ok b1.
Proof. intros E Hws. unfold ws_call. rewrite E. cbn [mbind outcome_bind]. by rewrite (get_ws_ok _ _ _ Hws). Qed.

(** ** Values *)

Lemma append_value_ok v s at_ :
  holds MAX_HEADER_VALUE_LEN v s -> Forall (fun c => c <> 0) at_ ->
  exists v', append_value v (zlen s) at_ = Ok (v', zlen (take 99 (s ++ at_))) /\
    holds MAX_HEADER_VALUE_LEN v' (take 99 (s ++ at_)).
Proof.
  unfold MAX_HEADER_VALUE_LEN. intros (Hl & Hs & junk & ->) Hat. unfold append_value, MAX_HEADER_VALUE_LEN.
  pose proof (zlen_nonneg s) as Hs0. pose proof (zlen_nonneg at_) as Ha0. pose proof (zlen_nonneg junk) as Hj0.
  rewrite zlen_app, zlen_cons in Hl. rewrite u64_small by lia.
  set (n := Z.min (zlen at_) (100 - zlen s - 1)).
  rewrite arr_read_take by lia. cbn [mbind outcome_bind]. set (src := take (Z.to_nat n) at_).
  assert (zlen src = n) as Hn by (unfold src; rewrite zlen_take_min; lia).
  rewrite blit_string by (rewrite zlen_app, zlen_cons; lia). cbn [mbind outcome_bind].
  assert (take 99 (s ++ at_) = s ++ src) as ->.
  { rewrite take_app. rewrite (take_ge s) by (unfold zlen in *; lia). f_equal. unfold src.
    destruct (Z.le_ge_cases (zlen at_) (100 - zlen s - 1)).
    - rewrite !take_ge; unfold zlen in *; [done|lia..].
    - f_equal. unfold zlen in *. lia. }
  destruct (drop (length src) (0 :: junk)) as [|x rest] eqn:E.
  { exfalso. apply (f_equal length) in E. rewrite length_drop in E. cbn [length] in E. unfold zlen in *. lia. }
  rewrite (app_assoc s). rewrite set_nul by (rewrite zlen_app; lia). cbn [mbind outcome_bind mret outcome_ret].
  eexists. rewrite zlen_app, Hn. split; [reflexivity|]. split; [|split].
  - apply (f_equal (fun l => zlen l)) in E. rewrite !zlen_app, zlen_cons, Hn. rewrite zlen_cons in E. unfold zlen in *.
    rewrite length_drop in E. cbn [length] in E. lia.
  - apply Forall_app. split; [done|]. by apply Forall_take.
  - by exists rest.
Qed.

(** A header is being read: its name, and the value kept for it so far. *)
Definition key_name : list Z := lit "Sec-WebSocket-Key"%str.
Definition protocol_name : list Z := lit "Sec-WebSocket-Protocol"%str.

Definition keeps (ws : client_ws_st) (name value : list Z) : Prop :=
  (name = key_name /\ holds MAX_HEADER_VALUE_LEN (ws_http_sec_ws_key ws) value /\
     ws_http_sec_ws_key_len ws = zlen value) \/
  (name = protocol_name /\ holds MAX_HEADER_VALUE_LEN (ws_http_sec_ws_protocol ws) value /\
     ws_http_sec_ws_protocol_len ws = zlen value).

Lemma header_value_step b p ws name s at_ :
  on_ws b p ws -> holds MAX_HEADER_NAME_LEN (ws_http_header_name ws) name -> keeps ws name s ->
  Forall (fun c => c <> 0) at_ ->
  exists b' ws', http_on_header_value b p at_ = Ok b' /\ on_ws b' p ws' /\
    ws_http_header_name ws' = ws_http_header_name ws /\ keeps ws' name (take 99 (s ++ at_)).
Proof.
  intros Hws Hname Hk Hat. unfold http_on_header_value. rewrite (client_ws_ok _ _ _ Hws). cbn [mbind outcome_bind].
  cbv beta. change (ws_http_header_name (ws <| ws_on_header_value := 1 |>)) with (ws_http_header_name ws).
  rewrite (holds_c_string _ _ _ Hname). cbn [mbind outcome_bind].
  destruct Hk as [(-> & Hv & Hl)|(-> & Hv & Hl)].
  - change (bool_decide (key_name = lit "Sec-WebSocket-Key"%str)) with true. cbn match.
    change (ws_http_sec_ws_key (ws <| ws_on_header_value := 1 |>)) with (ws_http_sec_ws_key ws).
    change (ws_http_sec_ws_key_len (ws <| ws_on_header_value := 1 |>)) with (ws_http_sec_ws_key_len ws).
    rewrite Hl. destruct (append_value_ok _ _ _ Hv Hat) as (v' & -> & Hv'). cbn [mbind outcome_bind mret outcome_ret].
    eexists _, _. split; [reflexivity|]. split; [by eapply on_ws_put|]. split; [done|]. left. by split.
  - change (bool_decide (protocol_name = lit "Sec-WebSocket-Key"%str)) with false.
    change (bool_decide (protocol_name = lit "Sec-WebSocket-Protocol"%str)) with true. cbn match.
    change (ws_http_sec_ws_protocol (ws <| ws_on_header_value := 1 |>)) with (ws_http_sec_ws_protocol ws).
    change (ws_http_sec_ws_protocol_len (ws <| ws_on_header_value := 1 |>)) with (ws_http_sec_ws_protocol_len ws).
    rewrite Hl. destruct (append_value_ok _ _ _ Hv Hat) as (v' & -> & Hv'). cbn [mbind outcome_bind mret outcome_ret].
    eexists _, _. split; [reflexivity|]. split; [by eapply on_ws_put|]. split; [done|]. right. by split.
Qed.

Lemma take_take_app {A} n (l k : list A) : take n (take n l ++ k) = take n (l ++ k).
Proof.
  rewrite !take_app, take_take, length_take. f_equal; [f_equal; lia|]. f_equal. lia.
Qed.

(** The value of the key and of the protocol header of an upgrade request,
    in however many pieces it arrives, is kept up to 99 characters, inside its
    buffer and with a NUL after it. *)
Theorem header_value_kept b p ws name s pieces :
  on_ws b p ws -> holds MAX_HEADER_NAME_LEN (ws_http_header_name ws) name -> keeps ws name s ->
  Forall (Forall (fun c => c <> 0)) pieces ->
  exists b' ws', run_calls (ws_call p) b (Http_header_value <$> pieces) = Ok b' /\ on_ws b' p ws' /\
    keeps ws' name (take 99 (s ++ concat pieces)).
Proof.
  intros Hws Hname Hk Hp. revert b ws s Hws Hname Hk.
  induction Hp as [|at_ pieces Hat _ IH]; intros b ws s Hws Hname Hk; cbn [fmap list_fmap run_calls concat].
  - exists b, ws. split; [done|]. split; [done|]. rewrite app_nil_r, take_ge; [done|].
    destruct Hk as [(_ & (Hl & _ & junk & E) & _)|(_ & (Hl & _ & junk & E) & _)]; rewrite E in Hl;
      unfold zlen, MAX_HEADER_VALUE_LEN in Hl; rewrite length_app in Hl; cbn [length] in Hl; lia.
  - destruct (header_value_step b p ws name s at_ Hws Hname Hk Hat) as (b1 & ws1 & E1 & Hws1 & Hn1 & Hk1).
    rewrite (ws_call_ok _ _ (Http_header_value at_) _ _ E1 Hws1). cbn [mbind outcome_bind].
    destruct (IH b1 ws1 (take 99 (s ++ at_)) Hws1) as (b2 & ws2 & E & Hws2 & Hk2); [by rewrite Hn1|exact Hk1|].
    exists b2, ws2. split; [exact E|]. split; [done|]. by rewrite take_take_app, <- app_assoc in Hk2.
Qed.

(** ** Names *)

(** A header name that arrives in one piece of less than 100 characters is
    read as it is; a second piece puts the NUL at its own length, which cuts
    the name; and 100 characters in one piece are written past the buffer. *)
Theorem header_name_read b p ws s at_ :
  on_ws b p ws -> ws_on_header_value ws = 0 -> holds MAX_HEADER_NAME_LEN (ws_http_header_name ws) s ->
  ws_http_header_name_len ws = zlen s -> Forall (fun c => c <> 0) at_ ->
  (zlen s + zlen at_ < MAX_HEADER_NAME_LEN -> exists b' ws', http_on_header_field b p at_ = Ok b' /\ on_ws b' p ws' /\
    ws_http_header_name_len ws' = zlen (s ++ at_) /\
    holds MAX_HEADER_NAME_LEN (ws_http_header_name ws') (take (length at_) (s ++ at_))) /\
  (s = [] -> MAX_HEADER_NAME_LEN <= zlen at_ -> http_on_header_field b p at_ = Undef OutOfBounds).
Proof.
  unfold MAX_HEADER_NAME_LEN. intros Hws Hv (Hl & Hs & junk & Hb) Hn Hat. unfold http_on_header_field.
  rewrite (client_ws_ok _ _ _ Hws). cbn [mbind outcome_bind]. rewrite Hv. cbn [truthy Z.eqb negb]. rewrite Hn, Hb.
  pose proof (zlen_nonneg s) as Hs0. pose proof (zlen_nonneg at_) as Ha0. rewrite Hb in Hl.
  unfold MAX_HEADER_NAME_LEN. assert (zlen s + zlen junk + 1 = 100) as Hj by (rewrite zlen_app, zlen_cons in Hl; lia).
  pose proof (zlen_nonneg junk). rewrite u64_small by lia. split.
  - intros Hfit. rewrite Z.min_l by lia. rewrite arr_read_take by lia. rewrite take_zlen. cbn [mbind outcome_bind].
    rewrite blit_string by (rewrite zlen_app, zlen_cons; lia). cbn [mbind outcome_bind].
    set (rest := drop (length at_) (0 :: junk)). rewrite app_assoc.
    assert (exists mid tl, (s ++ at_) ++ rest = mid ++ tl /\ mid = take (length at_) (s ++ at_) /\
      zlen mid = zlen at_ /\ exists x rest', tl = x :: rest') as (mid & tl & E & Hm & Hml & x & rest' & Htl).
    { exists (take (length at_) (s ++ at_)), (drop (length at_) (s ++ at_) ++ rest).
      split; [by rewrite app_assoc, take_drop|]. split; [done|]. split; [unfold zlen; rewrite length_take, length_app; lia|].
      destruct (drop (length at_) (s ++ at_) ++ rest) as [|x rest'] eqn:E'; [exfalso|by exists x, rest'].
      apply (f_equal length) in E'. unfold rest in E'. rewrite length_app, !length_drop, length_app in E'. cbn [length] in E'.
      unfold zlen in *. lia. }
    rewrite E, Htl, set_nul by done. cbn [mbind outcome_bind mret outcome_ret].
    eexists _, _. split; [reflexivity|]. split; [by eapply on_ws_put|]. split; [by rewrite zlen_app|]. split; [|split].
    + change (zlen (mid ++ 0 :: rest') = 100). transitivity (zlen ((s ++ at_) ++ rest)); [rewrite E, Htl; by rewrite !zlen_app, !zlen_cons|].
      unfold rest, zlen in *. rewrite !length_app, length_drop. cbn [length]. lia.
    + apply Forall_take. by apply Forall_app.
    + exists rest'. by rewrite <- Hm.
  - intros -> Hlong. rewrite Z.min_r by (unfold zlen in *; cbn in *; lia). change (zlen (@nil Z)) with 0.
    change (100 - 0) with 100. rewrite arr_read_take by lia. cbn [mbind outcome_bind app].
    change (arr_blit (0 :: junk) 0) with (arr_blit ([] ++ 0 :: junk) (zlen (@nil Z))).
    assert (zlen (take (Z.to_nat 100) at_) = 100) as Ht by (rewrite zlen_take_min; lia).
    change (zlen (@nil Z)) with 0 in Hj. rewrite blit_string by (cbn [app]; rewrite zlen_nil, zlen_cons; lia). cbn [mbind outcome_bind app].
    rewrite arr_set_undef; [done|]. rewrite zlen_app, Ht. unfold zlen in *. rewrite length_drop. cbn [length]. lia.
Qed.

(** ** The response *)

Definition upgrade_response (protocol hash : list Z) : list Z :=
  switching_response protocol ++ b64 hash ++ crlf ++ crlf.

Lemma zlen_switching protocol : zlen (switching_response protocol) = 123 + zlen protocol.
Proof.
  unfold switching_response, zlen. rewrite !length_app. cbn [length crlf].
  change (length (lit "HTTP/1.1 101 Switching Protocols"%str)) with 32%nat.
  change (length (lit "Connection: Upgrade"%str)) with 19%nat.
  change (length (lit "Upgrade: websocket"%str)) with 18%nat.
  change (length (lit "Sec-WebSocket-Protocol: "%str)) with 24%nat.
  change (length (lit "Sec-WebSocket-Accept: "%str)) with 22%nat. lia.
Qed.

Lemma blit_at {A} (front out rest src : list A) off :
  off = zlen front -> length out = length src -> arr_blit (front ++ out ++ rest) off src = Ok (front ++ src ++ rest).
Proof. intros -> Ho. by apply arr_blit_ok. Qed.

Lemma blit_start {A} (out rest src : list A) : length out = length src -> arr_blit (out ++ rest) 0 src = Ok (src ++ rest).
Proof. exact (arr_blit_ok [] out rest src). Qed.

Lemma split_length {A} (l : list A) n : (n <= length l)%nat -> exists l1 l2, l = l1 ++ l2 /\ length l1 = n.
Proof. intros Hn. exists (take n l), (drop n l). by rewrite take_drop, length_take_le. Qed.

Lemma ws_response_ok protocol hash :
  zlen protocol <= 99 -> bytes hash -> zlen hash = 20 ->
  exists rest, ws_response protocol hash
      = Ok (upgrade_response protocol hash ++ rest, zlen (upgrade_response protocol hash)) /\
    zlen (upgrade_response protocol hash ++ rest) = sizeof_send_buf.
Proof.
  intros Hp Hb Hh. pose proof (zlen_switching protocol) as Ht. pose proof (zlen_nonneg protocol).
  unfold ws_response, upgrade_response. set (text := switching_response protocol) in *.
  pose proof (length_b64_with 61 hash) as Hl. rewrite Hh in Hl. change (4 * ((20 + 2) / 3)) with 28 in Hl. fold (b64 hash) in Hl.
  assert (length text = Z.to_nat (123 + zlen protocol)) as Htn by (unfold zlen in *; lia).
  assert (length (b64 hash) = 28%nat) as Hln by (unfold zlen in *; lia).
  assert (zlen c_send_buf = 1500) as Hbuf by (unfold c_send_buf, zlen; by rewrite length_replicate).
  destruct (split_length c_send_buf (length (text ++ [0]))) as (l1 & l2 & E & Hl1).
  { rewrite length_app. cbn [length]. unfold zlen in *. lia. }
  destruct (split_length l2 28) as (o & l3 & -> & Ho).
  { apply (f_equal length) in E. rewrite length_app, Hl1, length_app in E. cbn [length] in E. unfold zlen in *. lia. }
  destruct (split_length l3 3) as (o2 & l4 & -> & Ho2).
  { apply (f_equal length) in E. rewrite !length_app, Hl1, length_app in E. cbn [length] in E. unfold zlen in *. lia. }
  rewrite E. rewrite blit_start by done. cbn [mbind outcome_bind]. rewrite <- app_assoc.
  rewrite drop_app_length, take_app_length. cbn [app].
  change (0 :: o ++ o2 ++ l4) with ((0 :: o) ++ o2 ++ l4).
  assert (b64_encode hash 20 ((0 :: o) ++ o2 ++ l4) = Ok (b64 hash ++ 0 :: o2 ++ l4)) as ->.
  { rewrite <- Hh. apply b64_encode_ok; [done|lia|cbn [length]; lia]. }
  cbn [mbind outcome_bind].
  change (BASE64_OUTPUT_LEN 20) with 28. rewrite app_assoc.
  change (0 :: o2 ++ l4) with ((0 :: o2) ++ l4). rewrite blit_at; [|rewrite zlen_app; lia|cbn; lia].
  cbn [mbind outcome_bind mret outcome_ret]. exists l4. rewrite <- !app_assoc.
  assert (zlen (text ++ b64 hash ++ crlf ++ crlf) = zlen text + 28 + 4) as Hz.
  { rewrite !zlen_app, Hl. change (zlen crlf) with 2. lia. }
  split; [by rewrite Hz|]. unfold sizeof_send_buf. apply (f_equal zlen) in E.
  rewrite Hbuf, !zlen_app in E. rewrite !zlen_app, Hl. change (zlen crlf) with 2.
  unfold zlen in *. rewrite length_app in Hl1. cbn [length] in Hl1. lia.
Qed.

(** The request to upgrade is answered on the socket with the response of
    RFC 6455: the protocol asked for, and the base64 encoding of the digest of
    the key and the fixed suffix. *)
Lemma upgrade_answered b p ws cp protocol key upgrade :
  sends_progress -> b_clients b !! p = Some cp -> c_state cp <> CLIENT_CLOSING -> on_ws b p ws -> upgrade <> 0 ->
  holds MAX_HEADER_VALUE_LEN (ws_http_sec_ws_protocol ws) protocol ->
  holds MAX_HEADER_VALUE_LEN (ws_http_sec_ws_key ws) key -> ws_http_sec_ws_key_len ws = zlen key ->
  let digest := reply_data (sys_reply (b_log b) (Call_SHA1 (key ++ key_suffix))) 20 in
  bytes digest ->
  exists b', http_on_message_complete b p upgrade = Ok b' /\
    sent b b' (c_sd cp) (upgrade_response protocol digest).
Proof.
  intros Hs Hcp Hst Hws Hup Hproto Hkey Hkl digest Hd. unfold http_on_message_complete.
  rewrite (proj2 (negb_true_iff _) (proj2 (Z.eqb_neq _ _) Hup) : truthy upgrade = true).
  rewrite (client_ws_ok _ _ _ Hws). cbn [mbind outcome_bind]. rewrite (holds_c_string _ _ _ Hproto). cbn [mbind outcome_bind].
  destruct Hkey as (_ & _ & junk & ->). rewrite Hkl, arr_read_ok by done. cbn [mbind outcome_bind].
  unfold do_call. cbv zeta. fold digest.
  assert (zlen digest = 20) as Hl.
  { unfold digest, reply_data, zlen. rewrite length_take, length_app, length_replicate. lia. }
  destruct (ws_response_ok protocol digest) as (rest & -> & Hz); [|done..|].
  { destruct Hproto as (Hpl & _ & junk' & E). rewrite E, zlen_app, zlen_cons in Hpl. unfold MAX_HEADER_VALUE_LEN in Hpl.
    pose proof (zlen_nonneg junk'). lia. }
  cbn [mbind outcome_bind]. set (b1 := b <| b_log := _ |>).
  assert (sent b b1 (c_sd cp) []) as Hb1.
  { pose proof (sent_call b (Call_SHA1 (key ++ key_suffix)) (c_sd cp)) as Hc. by apply Hc. }
  pose proof (zlen_nonneg (upgrade_response protocol digest)). pose proof (zlen_nonneg rest). rewrite zlen_app in Hz. unfold sizeof_send_buf in Hz.
  destruct (send_wire_ok b1 p cp (upgrade_response protocol digest ++ rest) (zlen (upgrade_response protocol digest)) Hs)
    as (b2 & -> & Hb2); [done|done|rewrite zlen_app; lia|rewrite zlen_app; unfold int_max; lia|].
  cbn [mbind outcome_bind mret outcome_ret]. exists b2. split; [done|]. rewrite zlen_take_app in Hb2.
  exact (sent_trans _ _ _ _ _ _ Hb1 Hb2).
Qed.

End handshake.

(** ** Examples *)

(** The digest of the example in RFC 6455, from a socket that takes three bytes at a time. *)
Definition rfc_digest : list Z := [179; 122; 79; 44; 192; 98; 79; 22; 144; 246; 70; 6; 207; 56; 89; 69; 178; 190; 196; 234].

Definition rfc_sys : Sys := {|
  sys_reply log c := match c with
    | Call_SHA1 _ => mk_reply 0 rfc_digest []
    | _ => @sys_reply slow_sys log c
    end;
  loop_fuel := 100;
  sizeof_client_st := 4096;
  sizeof_client_ws_st := 512
|}.

Lemma rfc_sends : @sends_progress rfc_sys.
Proof. intros log sd data Hd. exact (slow_sends log sd data Hd). Qed.

Definition fill (s : list Z) : list Z := s ++ replicate (100 - length s) 0.
Definition rfc_key : list Z := lit "dGhlIHNhbXBsZSBub25jZQ=="%str.

Definition rfc_ws (header : list Z) : client_ws_st :=
  mk_client_ws 0 (zlen header) (fill header) (zlen rfc_key) (fill rfc_key) 4 (fill (lit "mqtt"%str))
    ((http_parser_init 0 HTTP_REQUEST) <| hp_data := 5 |>)
    (ws_parser_init (mk_ws_parser 0 [0; 0; 0; 0] 0 0 0 0 0 S_OPCODE)).

Definition rfc_broker (header : list Z) : broker :=
  demo_broker <| b_clients := {[ 5 := demo_client <| c_ws := Some 5 |> ]} |> <| b_ws := {[ 5 := rfc_ws header ]} |>.

Lemma rfc_on_ws header : on_ws (rfc_broker header) 5 (rfc_ws header).
Proof. exists (demo_client <| c_ws := Some 5 |>), 5. by split. Qed.

Lemma holds_fill s : forallb (fun c => negb (c =? 0)) s = true -> (length s < 100)%nat -> holds 100 (fill s) s.
Proof.
  intros Hs Hl. unfold fill. split; [unfold zlen; rewrite length_app, length_replicate; lia|]. split.
  - apply Forall_forall. intros c Hc. rewrite forallb_forall in Hs.
    specialize (Hs c (proj1 (list_elem_of_In _ _) Hc)). by rewrite negb_true_iff, Z.eqb_neq in Hs.
  - destruct (100 - length s)%nat as [|k] eqn:E; [lia|]. by exists (replicate k 0).
Qed.

Example header_value_kept_witness :
  exists b' ws', run_calls (@ws_call calm_libc slow_sys 5) (rfc_broker key_name) (Http_header_value <$> [[65; 66]; [67]]) = Ok b' /\
    on_ws b' 5 ws' /\ keeps ws' key_name (take 99 (rfc_key ++ [65; 66; 67])).
Proof.
  refine (@header_value_kept calm_libc slow_sys (rfc_broker key_name) 5 (rfc_ws key_name) key_name rfc_key [[65; 66]; [67]]
    (rfc_on_ws _) _ _ _).
  - apply holds_fill; [done|cbn; lia].
  - left. split; [done|]. split; [apply holds_fill; [done|cbn; lia]|done].
  - by repeat constructor.
Defined.

Example header_name_read_witness :
  (zlen (lit "Ho"%str) + zlen (lit "st"%str) < MAX_HEADER_NAME_LEN -> exists b' ws',
     http_on_header_field (rfc_broker (lit "Ho"%str)) 5 (lit "st"%str) = Ok b' /\ on_ws b' 5 ws' /\
     ws_http_header_name_len ws' = 4 /\ holds MAX_HEADER_NAME_LEN (ws_http_header_name ws') (lit "Ho"%str)) /\
  (lit "Ho"%str = [] -> MAX_HEADER_NAME_LEN <= zlen (lit "st"%str) ->
     http_on_header_field (rfc_broker (lit "Ho"%str)) 5 (lit "st"%str) = Undef OutOfBounds).
Proof.
  refine (header_name_read (rfc_broker (lit "Ho"%str)) 5 (rfc_ws (lit "Ho"%str)) (lit "Ho"%str) (lit "st"%str)
    (rfc_on_ws _) eq_refl _ eq_refl _).
  - apply holds_fill; [done|cbn; lia].
  - by repeat constructor.
Defined.

(** The key and the accepted key of RFC 6455, section 1.3. *)
Example rfc_accept : b64 rfc_digest = lit "s3pPLMBiTxaQ9kYGzzhZRbK+xOo="%str.
Proof. reflexivity. Qed.
