(* ===== verification/Upgrade.v ===== *)
(** * From the bytes of a request to an open WebSocket (src/client_ws.c, src/http_parser.c)

    [c_ws_recv] on the bytes of an HTTP request: the parser, the callbacks of
    the broker and the response together. *)

From S2P Require Import Prelude Base64 MqttPacket ClientTypes WsParser Text HttpTypes HttpParser HttpNames HttpRequest World.
From S2P Require Import Trie Subscription TrieStore ClientSend Client ClientWs Delivery Closing Handshake.

Section upgrade.
Context `{Libc} `{Sys}.

(** ** The callbacks of the broker *)

Lemma ws_call_inv p b c b' : ws_call p b c = Ok b' -> ws_callback p b c = Ok b' /\ is_Some (b_ws b' !! p).
Proof.
  unfold ws_call, get_ws. intros E. apply bind_inv_ok in E as (b1 & E1 & E). rewrite E1.
  destruct (b_ws b1 !! p) as [ws|] eqn:Ews; [|done]. cbn in E. injection E as <-. split; [done|]. by exists ws.
Qed.

Lemma settings_react p : @reacts broker http_settings p (ws_call p).
Proof.
  assert (forall b parser, hp_data parser = p -> is_Some (b_ws b !! p) -> http_returns b parser = Ok (0, b, Some parser)) as Hret.
  { intros b parser Hp Hs. unfold http_returns. by rewrite Hp, bool_decide_true. }
  split; [done|done|..].
  - intros m at_ c Hc. destruct m; try done; injection Hc as <-; eexists; (split; [reflexivity|]);
      intros b q b' Hq E; destruct (ws_call_inv _ _ _ _ E) as [E' Hs]; cbn [ws_callback] in E'; rewrite Hq, E';
      cbn [mbind outcome_bind]; by apply Hret.
  - eexists. split; [reflexivity|]. intros b q b' Hq E. destruct (ws_call_inv _ _ _ _ E) as [E' Hs].
    cbn [ws_callback] in E'. rewrite Hq, E'. cbn [mbind outcome_bind]. by apply Hret.
Qed.

(** ** Headers *)

(** What has been read of a request: the two values that are kept. *)
Record reading (ws : client_ws_st) (key protocol : list Z) : Prop := {
  rd_name : zlen (ws_http_header_name ws) = MAX_HEADER_NAME_LEN;
  rd_key : holds MAX_HEADER_VALUE_LEN (ws_http_sec_ws_key ws) key;
  rd_key_len : ws_http_sec_ws_key_len ws = zlen key;
  rd_protocol : holds MAX_HEADER_VALUE_LEN (ws_http_sec_ws_protocol ws) protocol;
  rd_protocol_len : ws_http_sec_ws_protocol_len ws = zlen protocol
}.

(** The next name goes to the front of its buffer. *)
Definition at_name (ws : client_ws_st) : Prop := ws_on_header_value ws <> 0 \/ ws_http_header_name_len ws = 0.

Lemma fresh_name buf at_ :
  zlen buf = MAX_HEADER_NAME_LEN -> zlen at_ < MAX_HEADER_NAME_LEN -> Forall (fun c => c <> 0) at_ ->
  exists name1 name', arr_blit buf 0 at_ = Ok name1 /\ arr_set name1 (zlen at_) 0 = Ok name' /\ holds MAX_HEADER_NAME_LEN name' at_.
Proof.
  intros Hb Ha Hz. destruct (split_length buf (length at_)) as (l1 & l2 & -> & Hl); [unfold zlen in *; lia|].
  destruct l2 as [|x l2]; [unfold zlen in *; rewrite length_app in Hb; cbn [length] in Hb; lia|].
  exists (at_ ++ x :: l2), (at_ ++ 0 :: l2). split; [by apply blit_start|]. split; [by apply set_nul|].
  split; [unfold zlen in *; rewrite length_app in *; cbn [length] in *; lia|]. split; [done|]. by exists l2.
Qed.

(** A name, in one piece. *)
Lemma read_header_field b p ws key protocol name :
  on_ws b p ws -> reading ws key protocol -> at_name ws -> zlen name < MAX_HEADER_NAME_LEN -> Forall (fun c => c <> 0) name ->
  exists ws', ws_call p b (Http_header_field name) = Ok (put_ws b p ws') /\ reading ws' key protocol /\
    holds MAX_HEADER_NAME_LEN (ws_http_header_name ws') name /\ ws_http_parser ws' = ws_http_parser ws.
Proof.
  intros Hws [Hn Hk Hkl Hp Hpl] Hst Hlen Hz. destruct (fresh_name _ _ Hn Hlen Hz) as (name1 & name' & E1 & E2 & Hh).
  pose proof (zlen_nonneg name). unfold MAX_HEADER_NAME_LEN in Hlen.
  assert (exists ws1, (if truthy (ws_on_header_value ws) then ws <| ws_http_header_name_len := 0 |> <| ws_on_header_value := 0 |> else ws) = ws1 /\
    reading ws1 key protocol /\ ws_http_header_name_len ws1 = 0 /\ ws_http_header_name ws1 = ws_http_header_name ws /\
    ws_http_parser ws1 = ws_http_parser ws) as (ws1 & E & [_ Hk1 Hkl1 Hp1 Hpl1] & Hz1 & Hnm & Hpar).
  { eexists. split; [reflexivity|]. unfold truthy. destruct (Z.eqb_spec (ws_on_header_value ws) 0) as [E|E]; cbn [negb].
    - destruct Hst as [?|Hz0]; done.
    - split; [by split|done]. }
  exists (ws1 <| ws_http_header_name := name' |> <| ws_http_header_name_len := 0 + zlen name |>).
  assert (http_on_header_field b p name
    = Ok (put_ws b p (ws1 <| ws_http_header_name := name' |> <| ws_http_header_name_len := 0 + zlen name |>))) as EE.
  { unfold http_on_header_field. rewrite (client_ws_ok _ _ _ Hws). cbn [mbind outcome_bind]. cbv zeta. rewrite E, Hz1.
    unfold MAX_HEADER_NAME_LEN. rewrite u64_small, Z.min_l by lia. rewrite arr_read_take by lia. rewrite take_zlen.
    cbn [mbind outcome_bind]. rewrite Hnm, E1. cbn [mbind outcome_bind]. rewrite E2. done. }
  split; [eapply ws_call_ok; [exact EE|by eapply on_ws_put]|]. split; [|by split].
  split; try done. by destruct Hh.
Qed.

(** What is kept for the name [word] after the header [h]. *)
Definition kept (word s : list Z) (h : header) : list Z :=
  if bool_decide (h.1 = word) then take 99 (s ++ value_bytes h.2) else s.

(** A value, in one piece. *)
Lemma read_header_value b p ws key protocol name v :
  on_ws b p ws -> reading ws key protocol -> holds MAX_HEADER_NAME_LEN (ws_http_header_name ws) name ->
  Forall (fun c => c <> 0) (value_bytes v) ->
  exists ws', ws_call p b (Http_header_value (value_bytes v)) = Ok (put_ws b p ws') /\
    reading ws' (kept key_name key (name, v)) (kept protocol_name protocol (name, v)) /\ at_name ws' /\
    ws_http_parser ws' = ws_http_parser ws.
Proof.
  intros Hws [Hn Hk Hkl Hp Hpl] Hh Hz. unfold kept. cbn [fst snd].
  assert (forall ws', http_on_header_value b p (value_bytes v) = Ok (put_ws b p ws') ->
    ws_call p b (Http_header_value (value_bytes v)) = Ok (put_ws b p ws')) as Hcall.
  { intros ws' E. eapply ws_call_ok; [exact E|by eapply on_ws_put]. }
  set (ws1 := ws <| ws_on_header_value := 1 |>).
  assert (forall k, http_on_header_value b p (value_bytes v) = k <->
    (if bool_decide (name = key_name) then
       '(v', len) ← append_value (ws_http_sec_ws_key ws) (ws_http_sec_ws_key_len ws) (value_bytes v);
       mret (put_ws b p (ws1 <| ws_http_sec_ws_key := v' |> <| ws_http_sec_ws_key_len := len |>))
     else if bool_decide (name = protocol_name) then
       '(v', len) ← append_value (ws_http_sec_ws_protocol ws) (ws_http_sec_ws_protocol_len ws) (value_bytes v);
       mret (put_ws b p (ws1 <| ws_http_sec_ws_protocol := v' |> <| ws_http_sec_ws_protocol_len := len |>))
     else mret (put_ws b p ws1)) = k) as Heq.
  { intros k. unfold http_on_header_value. rewrite (client_ws_ok _ _ _ Hws). cbn [mbind outcome_bind]. cbv beta zeta.
    change (ws_http_header_name (ws <| ws_on_header_value := 1 |>)) with (ws_http_header_name ws).
    rewrite (holds_c_string _ _ _ Hh). done. }
  destruct (decide (name = key_name)) as [->|Hkey].
  - rewrite bool_decide_true, (bool_decide_false (key_name = protocol_name)) by done.
    destruct (append_value_ok _ _ _ Hk Hz) as (v' & E & Hv'). rewrite <- Hkl in E.
    eexists. split; [apply Hcall, Heq; rewrite bool_decide_true by done; rewrite E; reflexivity|].
    split; [by split|]. split; [by left|done].
  - rewrite (bool_decide_false (name = key_name)) by done. destruct (decide (name = protocol_name)) as [->|Hproto].
    + rewrite bool_decide_true by done. destruct (append_value_ok _ _ _ Hp Hz) as (v' & E & Hv'). rewrite <- Hpl in E.
      eexists. split; [apply Hcall, Heq; rewrite bool_decide_false, bool_decide_true by done; rewrite E; reflexivity|].
      split; [by split|]. split; [by left|done].
    + rewrite bool_decide_false by done. exists ws1.
      split; [apply Hcall, Heq; by rewrite !bool_decide_false by done|]. split; [by split|]. split; [by left|done].
Qed.

Lemma value_nonzero name v : value_ok name v -> Forall (fun c => c <> 0) (value_bytes v).
Proof.
  intros Hv. destruct (value_ok_bytes _ _ Hv) as (c & t & -> & _ & Ht). apply Forall_forall. intros x Hx ->.
  rewrite forallb_forall in Ht. apply list_elem_of_In in Hx. by specialize (Ht 0 Hx).
Qed.

Lemma name_nonzero name : Forall name_char name -> Forall (fun c => c <> 0) name.
Proof. intros Hn. eapply Forall_impl; [exact Hn|]. by intros c Hc ->. Qed.

(** All headers of a request. *)
Lemma read_broker_headers hs : forall b p ws key protocol,
  on_ws b p ws -> reading ws key protocol -> at_name ws ->
  Forall (fun h => header_ok h /\ zlen h.1 < MAX_HEADER_NAME_LEN) hs ->
  exists ws', run_calls (ws_call p) b (concat (header_calls <$> hs)) = Ok (put_ws b p ws') /\
    reading ws' (fold_left (kept key_name) hs key) (fold_left (kept protocol_name) hs protocol) /\
    ws_http_parser ws' = ws_http_parser ws.
Proof.
  induction hs as [|[name v] hs IH]; intros b p ws key protocol Hws Hr Hn Hhs.
  - exists ws. split; [|done]. cbn [fmap list_fmap concat run_calls mret outcome_ret]. f_equal.
    destruct Hws as (cp & a & _ & _ & Hws). unfold put_ws, upd. cbn. rewrite insert_id by done. by destruct b.
  - apply Forall_cons in Hhs as [[(_ & Hch & _ & _ & Hv) Hlen] Hhs]. cbn [fst snd] in *.
    destruct (read_header_field b p ws key protocol name Hws Hr Hn Hlen (name_nonzero _ Hch)) as (ws1 & E1 & Hr1 & Hh1 & Hp1).
    pose proof (on_ws_put _ _ _ ws1 Hws) as Hws1.
    destruct (read_header_value (put_ws b p ws1) p ws1 key protocol name v Hws1 Hr1 Hh1 (value_nonzero _ _ Hv)) as (ws2 & E2 & Hr2 & Hn2 & Hp2).
    assert (put_ws (put_ws b p ws1) p ws2 = put_ws b p ws2) as Eput by (unfold put_ws, upd; cbn; by rewrite insert_insert_eq).
    rewrite Eput in E2. pose proof (on_ws_put _ _ _ ws2 Hws) as Hws2.
    destruct (IH (put_ws b p ws2) p ws2 _ _ Hws2 Hr2 Hn2 Hhs) as (ws3 & E3 & Hr3 & Hp3).
    exists ws3. split; [|split; [exact Hr3|congruence]].
    cbn [fmap list_fmap concat]. rewrite run_calls_app. cbn [header_calls run_calls fst snd]. rewrite E1. cbn [mbind outcome_bind].
    rewrite E2. cbn [mbind outcome_bind mret outcome_ret]. rewrite E3. f_equal. unfold put_ws, upd. cbn. by rewrite insert_insert_eq.
Qed.

(** The values of the headers of one name, one after the other, cut to 99 characters. *)
Definition header_value (word : list Z) (hs : list header) : list Z :=
  take 99 (concat (value_bytes <$> (snd <$> filter (fun h => h.1 = word) hs))).

Lemma kept_all word hs : fold_left (kept word) hs [] = header_value word hs.
Proof.
  assert (forall s, take 99 s = s -> fold_left (kept word) hs s
    = take 99 (s ++ concat (value_bytes <$> (snd <$> filter (fun h => h.1 = word) hs)))) as Hall; [|by apply (Hall [])].
  induction hs as [|h hs IH]; intros s Hs; cbn [fold_left].
  - by rewrite app_nil_r.
  - unfold kept at 2. destruct (decide (h.1 = word)) as [E|E].
    + rewrite bool_decide_true, filter_cons_True by done. cbn [fmap list_fmap concat]. rewrite IH by (rewrite take_take; f_equal; lia).
      by rewrite take_take_app, <- app_assoc.
    + rewrite bool_decide_false, filter_cons_False by done. by apply IH.
Qed.

(** ** A client that has sent nothing yet *)

Record opening (b : broker) (p : Z) (ws : client_ws_st) : Prop := {
  op_ws : on_ws b p ws;
  op_reading : reading ws [] [];
  op_name : at_name ws;
  op_ready : ready (ws_http_parser ws);
  op_nread : hp_nread (ws_http_parser ws) = 0;
  op_data : hp_data (ws_http_parser ws) = p;
  op_upgrade : hp_upgrade (ws_http_parser ws) = 0
}.

(** What [c_ws_init] makes. *)
Lemma ws_init_opening b p b' : c_ws_init b p = Ok (b', 0) -> exists ws, opening b' p ws.
Proof.
  unfold c_ws_init. intros E. apply bind_inv_ok in E as (cp & Hcp & E). destruct (malloc_fails _); [done|]. injection E as <-.
  eexists. split.
  - exists (cp <| c_ws := Some p |>), p. split; [apply lookup_insert_eq|]. split; [done|]. apply lookup_insert_eq.
  - split; try done; (split; [done|]; split; [done|]; by exists (replicate 99 0)).
  - by right.
  - by split.
  - done.
  - done.
  - done.
Qed.

(** A request whose names fit into the buffer, and which fits into the header limit. *)
Definition ws_request (m : http_method) (url : list Z) (hs : list header) : Prop :=
  request_ok m url hs /\ Forall (fun h => zlen h.1 < MAX_HEADER_NAME_LEN) hs /\ zlen (request m url hs) <= max_header_size.

(** The broker at the end of the headers. *)
Lemma broker_reads_headers b p ws m url hs :
  opening b p ws -> ws_request m url hs ->
  exists ws2, run_calls (ws_call p) b (Http_url url :: concat (header_calls <$> hs)) = Ok (put_ws b p ws2) /\
    reading ws2 (header_value key_name hs) (header_value protocol_name hs).
Proof.
  intros [Hws Hr Hn _ _ _ _] ((_ & _ & Hhs) & Hlens & _).
  destruct (read_broker_headers hs b p ws [] [] Hws Hr Hn) as (ws2 & E & Hr2 & _); [by apply Forall_and|].
  exists ws2. rewrite !kept_all in Hr2. split; [|done]. cbn [run_calls].
  rewrite (ws_call_ok p b (Http_url url) b ws) by done. exact E.
Qed.

Lemma buf_part_rest l rest : buf_part (l ++ rest) (zlen l) (zlen (l ++ rest) - zlen l) = Ok rest.
Proof.
  pose proof (zlen_nonneg l). pose proof (zlen_nonneg rest). rewrite zlen_app. rewrite buf_part_ok by (rewrite ?zlen_app; lia).
  f_equal. unfold zlen. rewrite Nat2Z.id, drop_app_length. apply take_ge. lia.
Qed.

End upgrade.

(** C7. The bytes of an HTTP request that asks for an upgrade, as the first
    bytes of a WebSocket client, are answered on its socket with the response
    of RFC 6455, made of the protocol and the key in the request; nothing goes
    to another socket; from then on the stream is in frames, beginning with
    what comes after the request in the same buffer. *)
Theorem upgrade_request_answered `{Libc} `{Sys} b p cp ws m url hs rest :
  sends_progress -> b_clients b !! p = Some cp -> c_state cp <> CLIENT_CLOSING -> opening b p ws ->
  ws_request m url hs -> wants_upgrade hs = true -> zlen (request m url hs ++ rest) <= int_max ->
  let digest := reply_data (sys_reply (b_log b) (Call_SHA1 (header_value key_name hs ++ key_suffix))) 20 in
  bytes digest ->
  exists b' ws', wire b' (c_sd cp) = wire b (c_sd cp) ++ upgrade_response (header_value protocol_name hs) digest /\
    (forall sd, sd <> c_sd cp -> wire b' sd = wire b sd) /\
    on_ws b' p ws' /\ hp_upgrade (ws_http_parser ws') = 1 /\
    c_ws_recv b p (request m url hs ++ rest) = match rest with [] => Ok b' | _ => ws_recv_frames b' p rest end.
Proof.
  intros Hs Hcp Hst Hop Hreq Hup Hint digest Hd.
  destruct (broker_reads_headers b p ws m url hs Hop Hreq) as (ws2 & E2 & Hr2). destruct Hreq as (Hok & _ & Hmax).
  destruct Hop as [Hws _ _ Hready Hnread Hdata Hup0]. pose proof (on_ws_put b p ws ws2 Hws) as Hws2.
  destruct (upgrade_answered (put_ws b p ws2) p ws2 cp (header_value protocol_name hs) (header_value key_name hs) 1)
    as (b3 & E3 & [[log Hlog] Hw Ho]); try done; [by destruct Hr2..|]. fold digest in Hw.
  assert (on_ws b3 p ws2) as Hws3 by (by rewrite Hlog).
  destruct (@request_parsed broker http_settings (ws_call p) (ws_http_parser ws) b b3 m url hs rest)
    as (q' & Eq & Hqup & _); [rewrite Hdata; apply settings_react|done|done|lia| |by left|].
  { unfold request_calls. rewrite app_comm_cons, run_calls_app, E2. cbn [mbind outcome_bind run_calls]. rewrite Hup.
    by rewrite (ws_call_ok p _ (Http_message_complete 1) b3 ws2). }
  rewrite Hup in Hqup. set (ws4 := ws2 <| ws_http_parser := q' |>).
  exists (put_ws b3 p ws4), ws4. pose proof (on_ws_put b3 p ws2 ws4 Hws3) as Hws4.
  split; [exact Hw|]. split; [exact Ho|]. split; [done|]. split; [done|].
  pose proof (request_nonempty m url hs). pose proof (zlen_nonneg rest). pose proof Hint as Hint'. rewrite zlen_app in Hint.
  unfold c_ws_recv. rewrite (client_ws_ok _ _ _ Hws). cbn [mbind outcome_bind]. rewrite Hup0. cbn [truthy Z.eqb negb].
  unfold ws_recv_http. rewrite (get_ws_ok _ _ _ Hws). cbn [mbind outcome_bind]. rewrite Eq. cbn [mbind outcome_bind].
  rewrite (get_ws_ok _ _ _ Hws3). cbn [mbind outcome_bind mret outcome_ret]. fold ws4.
  rewrite (get_ws_ok _ _ _ Hws4). cbn [mbind outcome_bind]. change (hp_upgrade (ws_http_parser ws4)) with (hp_upgrade q').
  rewrite Hqup. change (truthy (c_bool true)) with true. cbn match.
  rewrite i32_small by (unfold int_min, int_max in *; lia). rewrite zlen_app at 1. destruct rest as [|c rest].
  - rewrite zlen_nil. by replace (zlen (request m url hs) + 0 - zlen (request m url hs) =? 0) with true by (symmetry; apply Z.eqb_eq; lia).
  - rewrite zlen_cons. pose proof (zlen_nonneg rest). rewrite (proj2 (Z.eqb_neq _ _)) by lia. cbn [negb].
    by rewrite buf_part_rest.
Qed.

(** C32. A complete HTTP request that does not ask for an upgrade makes the
    broker close and free the client inside the callback, and the HTTP parser,
    which is part of the client, goes on with the freed memory. *)
Theorem plain_request_used_after_free `{Libc} `{Sys} b p cp ws m url hs rest w wp xs M :
  b_clients b !! p = Some cp -> c_state cp = CLIENT_OPEN -> opening b p ws ->
  ws_request m url hs -> wants_upgrade hs = false ->
  attached b w wp xs M -> c_worker cp = w -> owns cp p M -> p ∈ xs -> unmonitored b p cp ->
  c_ws_recv b p (request m url hs ++ rest) = Undef UseAfterFree.
Proof.
  intros Hcp Hst Hop Hreq Hup Hat Hw Hown Hp Hmon.
  destruct (broker_reads_headers b p ws m url hs Hop Hreq) as (ws2 & E2 & Hr2). destruct Hreq as (Hok & _ & Hmax).
  destruct Hop as [Hws _ _ Hready Hnread Hdata Hup0].
  unfold c_ws_recv. rewrite (client_ws_ok _ _ _ Hws). cbn [mbind outcome_bind]. rewrite Hup0. cbn [truthy Z.eqb negb].
  unfold ws_recv_http. rewrite (get_ws_ok _ _ _ Hws). cbn [mbind outcome_bind].
  rewrite (@request_released broker http_settings (ws_call p) (ws_http_parser ws) b (put_ws b p ws2) m url hs rest
    (fun b parser => b ← http_on_message_complete b (hp_data parser) (hp_upgrade parser); http_returns b parser));
    [done|rewrite Hdata; apply settings_react|done|done|lia|done|done|].
  intros q' Hqd Hqup. rewrite Hqd, Hqup, Hup, Hdata. unfold http_on_message_complete. cbn [c_bool truthy Z.eqb negb].
  unfold c_disconnect. rewrite (get_client_ok (put_ws b p ws2) p cp) by done. cbn [mbind outcome_bind]. rewrite decide_False by (by rewrite Hst).
  destruct (unbind_ok (do_call (put_ws b p ws2) (Call_close (c_sd cp))).2 w wp xs M p cp (lit "non-upgrade http request"%str))
    as (b' & E & Hg); try done; [by destruct Hat|by rewrite Hst|by rewrite Hst|].
  rewrite E. cbn [mbind outcome_bind]. exists 0, b'. unfold http_returns. rewrite Hqd, Hdata.
  destruct Hws as (cp' & a & Hcp' & Ha & _). rewrite Hcp in Hcp'. injection Hcp' as <-.
  rewrite bool_decide_false; [done|]. rewrite (go_ws _ _ _ _ _ _ Hg cp a) by done. by intros [? ?].
Qed.

(** ** Examples *)

Definition fresh_ws : client_ws_st :=
  mk_client_ws 0 0 (replicate 100 0) 0 (replicate 100 0) 0 (replicate 100 0) ((http_parser_init 0 HTTP_REQUEST) <| hp_data := 5 |>)
    (ws_parser_init (mk_ws_parser 0 [0; 0; 0; 0] 0 0 0 0 0 S_OPCODE)).

(** The request of RFC 6455, section 1.2, for the protocol of MQTT. *)
Definition rfc_headers : list header :=
  [(lit "Host"%str, Text (lit "server.example.com"%str));
   (lit "Upgrade"%str, Text (lit "websocket"%str));
   (lit "Connection"%str, Options [lit "Upgrade"%str]);
   (key_name, Text rfc_key);
   (lit "Origin"%str, Text (lit "http://example.com"%str));
   (protocol_name, Text (lit "mqtt"%str));
   (lit "Sec-WebSocket-Version"%str, Text (lit "13"%str))].

Lemma rfc_request : ws_request HTTP_GET (lit "/chat"%str) rfc_headers.
Proof.
  split; [split; [done|]; split; [reflexivity|]; apply (bool_decide_unpack _); vm_compute; exact I|].
  split; [apply (bool_decide_unpack _); vm_compute; exact I|vm_compute; discriminate].
Qed.

Definition fresh_broker : broker :=
  demo_broker <| b_clients := {[ 5 := demo_client <| c_ws := Some 5 |> ]} |> <| b_ws := {[ 5 := fresh_ws ]} |>.

Lemma fresh_opening b cp :
  b_clients b !! 5 = Some cp -> c_ws cp = Some 5 -> b_ws b !! 5 = Some fresh_ws -> opening b 5 fresh_ws.
Proof.
  intros Hcp Ha Hws. split; try done; [by exists cp, 5| |by right].
  split; try done; (split; [done|]; split; [done|]; by exists (replicate 99 0)).
Qed.

Example upgrade_request_answered_witness :
  exists b' ws', @wire rfc_sys b' 9 = @wire rfc_sys fresh_broker 9 ++ upgrade_response (lit "mqtt"%str) rfc_digest /\
    (forall sd, sd <> 9 -> @wire rfc_sys b' sd = @wire rfc_sys fresh_broker sd) /\
    on_ws b' 5 ws' /\ hp_upgrade (ws_http_parser ws') = 1 /\
    @c_ws_recv calm_libc rfc_sys fresh_broker 5 (request HTTP_GET (lit "/chat"%str) rfc_headers ++ [130; 2; 192; 0])
      = @ws_recv_frames calm_libc rfc_sys b' 5 [130; 2; 192; 0].
Proof.
  refine (@upgrade_request_answered calm_libc rfc_sys fresh_broker 5 (demo_client <| c_ws := Some 5 |>) fresh_ws HTTP_GET (lit "/chat"%str)
    rfc_headers [130; 2; 192; 0] rfc_sends eq_refl _ _ rfc_request _ _ _).
  - done.
  - by apply (fresh_opening fresh_broker (demo_client <| c_ws := Some 5 |>)).
  - reflexivity.
  - vm_compute. discriminate.
  - by repeat constructor.
Defined.

(** The client of [leaving_broker], on a WebSocket port and not connected yet. *)
Definition open_client : client_st := demo_client <| c_ws := Some 5 |> <| c_state := CLIENT_OPEN |>.
Definition open_broker : broker :=
  leaving_broker <| b_clients := {[ 5 := open_client ]} |> <| b_ws := {[ 5 := fresh_ws ]} |>.

Definition plain_headers : list header := [(lit "Host"%str, Text (lit "broker:1884"%str))].

Example plain_request_used_after_free_witness :
  @c_ws_recv calm_libc slow_sys open_broker 5 (request HTTP_GET (lit "/"%str) plain_headers ++ []) = Undef UseAfterFree.
Proof.
  refine (@plain_request_used_after_free calm_libc slow_sys open_broker 5 open_client fresh_ws HTTP_GET (lit "/"%str) plain_headers []
    0 leaving_worker [5] demo_store eq_refl eq_refl _ _ eq_refl _ eq_refl _ _ _).
  - by apply (fresh_opening open_broker open_client).
  - split; [split; [done|]; split; [reflexivity|]; apply (bool_decide_unpack _); vm_compute; exact I|].
    split; [apply (bool_decide_unpack _); vm_compute; exact I|vm_compute; discriminate].
  - split; [done|done| |done|done|apply demo_subs_rep]. split; [done|]. by eexists.
  - split.
    + intros i Hi. change (c_num_subs open_client) with 1 in Hi. assert (i = 0) as -> by lia.
      exists (mk_subscription 5 1 (Some [97; 47; 43; 0])), [97; 47; 43], [].
      split; [done|]. split; [done|]. split; [by repeat constructor|].
      change (strip_local [97; 47; 43]) with [97; 47; 43]. unfold demo_store, upd_subs. rewrite decide_True by done. by left.
    + intros s i [-> [= ->]]%demo_store_keys. done.
  - by left.
  - by left.
Defined.
