(* ===== verification/MqttOverWs.v ===== *)
(** * MQTT over WebSocket (src/client_ws.c, src/ws_parser.c, src/client.c)

    What the frames of a WebSocket client do to the broker.  The calls that
    [ws_parser_execute] makes do not depend on the callbacks, as long as these
    accept them: what is recorded can be replayed with the callbacks of the
    broker, which give the payload of data frames to the MQTT parser. *)

From S2P Require Import Prelude MqttPacket ClientTypes WsParser WsSpec Text HttpTypes HttpParser World ClientSend Client ClientWs Delivery Handshake Upgrade.

(** ** Replay *)

Section replay.
Context {W : Type} `{WsCallbacks W}.

Definition ws_event_call (e : ws_event) (w : W) : outcome (Z * W * bool) :=
  match e with
  | WsDataBegin op => on_data_begin w op
  | WsDataPayload l => on_data_payload w l
  | WsDataEnd => on_data_end w
  | WsControlBegin op => on_control_begin w op
  | WsControlPayload l => on_control_payload w l
  | WsControlEnd => on_control_end w
  end.

(** One call after the other; the parser must be there after each of them. *)
Fixpoint replay (evs : list ws_event) (w : W) : outcome W :=
  match evs with
  | [] => mret w
  | e :: evs => '(_, w, alive) ← ws_event_call e w; if (alive : bool) then replay evs w else Undef UseAfterFree
  end.

(** No callback returns an error. *)
Definition accepting : Prop := forall e w rc w' alive, ws_event_call e w = Ok (rc, w', alive) -> rc = 0.

Hypothesis Hacc : accepting.

Lemma replay_app e1 e2 w : replay (e1 ++ e2) w = (w' ← replay e1 w; replay e2 w').
Proof.
  revert w. induction e1 as [|e e1 IH]; intros w; [done|]. cbn [replay app].
  destruct (ws_event_call e w) as [[[rc w1] alive]| | |]; try done. cbn [mbind outcome_bind]. destruct alive; [apply IH|done].
Qed.

(** What the recorder does and what the callbacks do in a round. *)
Definition sim (evs0 : list ws_event) (r : outcome (ws_res (list ws_event))) (f : W -> outcome (ws_res W)) : Prop :=
  forall p evs1 rest, r = Ok (WsNext p evs1 rest) ->
    exists evs, evs1 = evs0 ++ evs /\ forall w, f w = (w' ← replay evs w; mret (WsNext p w' rest)).

Lemma sim_next evs0 p rest : sim evs0 (mret (WsNext p evs0 rest)) (fun w => mret (WsNext p w rest)).
Proof. intros p1 evs1 rest1 [= <- <- <-]. exists []. split; [by rewrite app_nil_r|done]. Qed.

Lemma sim_return evs0 rc p evs f : sim evs0 (mret (WsReturn rc p evs)) f.
Proof. intros p1 evs1 rest1 E. discriminate. Qed.

Lemma sim_check evs0 e p k1 k2 r f :
  r = check_rc (Ok (0, evs0 ++ [e], true)) p k1 -> (forall w, f w = check_rc (ws_event_call e w) p k2) ->
  sim (evs0 ++ [e]) (k1 (evs0 ++ [e])) k2 -> sim evs0 r f.
Proof.
  intros -> Hf Hk p1 evs1 rest1 E. unfold check_rc in E. cbn [mbind outcome_bind truthy Z.eqb negb] in E.
  destruct (Hk p1 evs1 rest1 E) as (evs & -> & Hw). exists (e :: evs). split; [by rewrite <- app_assoc|]. intros w. rewrite Hf.
  unfold check_rc. cbn [replay]. destruct (ws_event_call e w) as [[[rc w1] alive]| | |] eqn:Ee; try done. cbn [mbind outcome_bind].
  rewrite (Hacc _ _ _ _ _ Ee). cbn [truthy Z.eqb negb]. destruct alive; [apply Hw|done].
Qed.

Lemma sim_end evs0 p rest : sim evs0 (end_of_payload p evs0 rest) (fun w => end_of_payload p w rest).
Proof.
  unfold end_of_payload. destruct (truthy (wp_control p) || truthy (wp_fin p)); [|apply sim_next].
  destruct (truthy (wp_control p)).
  - eapply (sim_check _ WsControlEnd); [reflexivity|reflexivity|]. apply sim_next.
  - eapply (sim_check _ WsDataEnd); [reflexivity|reflexivity|]. apply sim_next.
Qed.

Lemma sim_opcode evs0 p b rest : sim evs0 (step_opcode p evs0 b rest) (fun w => step_opcode p w b rest).
Proof.
  unfold step_opcode. cbv zeta. destruct (truthy _); [apply sim_return|]. destruct (_ =? 0).
  { destruct (negb _); [apply sim_return|apply sim_next]. }
  destruct (truthy _).
  - destruct (_ && _); [apply sim_return|]. destruct (negb _); [apply sim_return|].
    eapply (sim_check _ (WsControlBegin _)); [reflexivity|reflexivity|]. apply sim_next.
  - destruct (_ && _); [apply sim_return|]. eapply (sim_check _ (WsDataBegin _)); [reflexivity|reflexivity|]. apply sim_next.
Qed.

Lemma sim_length evs0 p b rest : sim evs0 (step_length p evs0 b rest) (fun w => step_length p w b rest).
Proof.
  unfold step_length. cbv zeta. destruct (_ && _); [apply sim_return|].
  match goal with |- sim _ (if ?c then _ else _) _ => destruct c end; [apply sim_end|apply sim_next].
Qed.

Lemma sim_last_length evs0 p b least rest : sim evs0 (last_length p evs0 b least rest) (fun w => last_length p w b least rest).
Proof. unfold last_length. cbv zeta. destruct (_ <? _); [apply sim_return|apply sim_next]. Qed.

Lemma sim_long_length evs0 p b rest : sim evs0 (step_long_length p evs0 b rest) (fun w => step_long_length p w b rest).
Proof.
  unfold step_long_length. cbv zeta. destruct (wp_state p); try (apply sim_next); try (apply sim_last_length); intros p1 evs1 rest1 E; discriminate.
Qed.

Lemma sim_mask evs0 p b rest : sim evs0 (step_mask p evs0 b rest) (fun w => step_mask p w b rest).
Proof.
  unfold step_mask. cbv zeta. destruct (wp_state p); try (intros p1 evs1 rest1 E; discriminate);
    destruct (arr_set _ _ _) as [m| | |]; try (intros p1 evs1 rest1 E; discriminate); cbn [mbind outcome_bind mret outcome_ret];
    try apply sim_next.
  match goal with |- sim _ (if ?c then _ else _) _ => destruct c end; [apply sim_end|apply sim_next].
Qed.

Lemma sim_payload evs0 p buff : sim evs0 (step_payload p evs0 buff) (fun w => step_payload p w buff).
Proof.
  unfold step_payload. cbv zeta.
  match goal with |- sim _ (?m ≫= _) _ => destruct m as [[chunk pos]| | |] end; try (intros p1 evs1 rest1 E; discriminate).
  cbn [mbind outcome_bind]. change (wp_control (p <| wp_mask_pos := pos |>)) with (wp_control p).
  destruct (truthy (wp_control p)).
  - eapply (sim_check _ (WsControlPayload chunk)); [reflexivity|reflexivity|]. cbv beta.
    match goal with |- sim _ (if ?c then _ else _) _ => destruct c end; [apply sim_end|apply sim_next].
  - eapply (sim_check _ (WsDataPayload chunk)); [reflexivity|reflexivity|]. cbv beta.
    match goal with |- sim _ (if ?c then _ else _) _ => destruct c end; [apply sim_end|apply sim_next].
Qed.

Lemma sim_step evs0 p b rest : sim evs0 (ws_step p evs0 b rest) (fun w => ws_step p w b rest).
Proof.
  unfold ws_step. destruct (wp_state p);
    first [apply sim_opcode|apply sim_length|apply sim_long_length|apply sim_mask|apply sim_payload].
Qed.

(** A stream that the recorder accepts. *)
Lemma ws_loop_replay fuel : forall p evs0 buff p' evs,
  ws_loop fuel p evs0 buff = Ok (WS_OK, Some p', evs) ->
  exists new, evs = evs0 ++ new /\ forall w : W, ws_loop fuel p w buff = (w' ← replay new w; mret (WS_OK, Some p', w')).
Proof.
  induction fuel as [|fuel IH]; intros p evs0 buff p' evs E; destruct buff as [|b rest]; cbn [ws_loop] in *; try discriminate;
    try (injection E as <- <-; exists []; split; [by rewrite app_nil_r|done]).
  pose proof (sim_step evs0 p b rest) as Hsim. pose proof (ws_step_errors p evs0 b rest) as Herr.
  destruct (ws_step p evs0 b rest) as [[p1 evs1 rest1|rc p1 evs1]| | |]; try discriminate; cbn [mbind outcome_bind mret outcome_ret] in E.
  - destruct (Hsim p1 evs1 rest1 eq_refl) as (e1 & -> & Hw). destruct (IH _ _ _ _ _ E) as (e2 & -> & Hw2).
    exists (e1 ++ e2). split; [by rewrite app_assoc|]. intros w. rewrite Hw, replay_app.
    destruct (replay e1 w) as [w1| | |]; try done. cbn [mbind outcome_bind mret outcome_ret]. apply Hw2.
  - injection E as -> _ _. specialize (Herr _ _ _ eq_refl). discriminate.
Qed.
End replay.

(** ** The frames of a client *)

(** The payloads of the data frames that have one. *)
Definition data_payloads (fs : list ws_frame) : list (list Z) :=
  filter (fun l => l <> []) (fr_payload <$> filter (fun f => is_control (fr_opcode f) = false) fs).

Section frames.
Context `{Libc} `{Sys}.

(** Buffers for the MQTT parser, one after the other, as a client without
    WebSocket receives them; here the client must be there after each. *)
Fixpoint parse_all (b : broker) (p : Z) (bufs : list (list Z)) : outcome broker :=
  match bufs with
  | [] => mret b
  | buf :: bufs =>
      b ← c_parse b p buf;
      if decide (is_Some (b_clients b !! p)) then parse_all b p bufs else Undef UseAfterFree
  end.

(** The payloads among the calls of the parser. *)
Definition event_payload (e : ws_event) : list (list Z) := match e with WsDataPayload l => [l] | _ => [] end.

Lemma ws_callbacks_accept p : @accepting broker (ws_callbacks p).
Proof.
  intros e w rc w' alive E. destruct e; cbn in E; try (by injection E as <- _ _).
  apply bind_inv_ok in E as (b & _ & [= <- _ _]). done.
Qed.

Lemma replay_parse p evs : forall b, @replay broker (ws_callbacks p) evs b = parse_all b p (concat (event_payload <$> evs)).
Proof.
  induction evs as [|e evs IH]; intros b; [done|]. cbn [replay fmap list_fmap concat]. destruct e; try apply IH.
  cbn [ws_event_call on_data_payload ws_callbacks event_payload app parse_all]. destruct (c_parse b p data) as [b1| | |]; try done.
  cbn [mbind outcome_bind mret outcome_ret]. case_bool_decide; [rewrite decide_True by done; apply IH|by rewrite decide_False by done].
Qed.

Lemma frame_payloads f : concat (event_payload <$> frame_events f) = data_payloads [f].
Proof.
  unfold frame_events, data_payloads, begin_events, payload_events, end_events, opt_event.
  destruct (is_control (fr_opcode f)) eqn:Ec.
  - rewrite filter_cons_False by (by rewrite Ec). by destruct (fr_payload f).
  - rewrite filter_cons_True by done. cbn [fmap list_fmap filter list_filter]. destruct (fr_payload f) as [|c l]; cbn [c_bool truthy Z.eqb negb].
    + rewrite decide_False by (intros E; by apply E). by destruct (fr_opcode f =? 0), (truthy (fr_fin f)).
    + rewrite decide_True by done. by destruct (fr_opcode f =? 0), (truthy (fr_fin f)).
Qed.

Lemma frames_payloads fs : concat (event_payload <$> concat (frame_events <$> fs)) = data_payloads fs.
Proof.
  induction fs as [|f fs IH]; [done|]. cbn [fmap list_fmap concat]. rewrite fmap_app, concat_app, frame_payloads, IH.
  unfold data_payloads. rewrite (filter_cons _ f fs), (filter_cons _ f []). destruct (decide (is_control (fr_opcode f) = false)); [|done].
  cbn [fmap list_fmap filter list_filter]. by destruct (decide (fr_payload f <> [])).
Qed.

Lemma recv_frames b p ws frag fs :
  on_ws b p ws -> boundary frag (ws_ws_parser ws) -> frames_ok frag fs ->
  exists wsp, boundary (foldl next_frag frag fs) wsp /\
    ws_recv_frames b p (concat (frame_bytes <$> fs))
    = (b ← parse_all b p (data_payloads fs); ws ← get_ws b p; mret (put_ws b p (ws <| ws_ws_parser := wsp |>))).
Proof.
  intros Hws Hbd Hfs. destruct (ws_frames_run frag (ws_ws_parser ws) [] fs Hbd Hfs) as (wsp & Hbd' & E).
  exists wsp. split; [done|]. unfold ws_recv_frames. rewrite (get_ws_ok _ _ _ Hws). cbn [mbind outcome_bind].
  unfold ws_parser_execute in E |- *.
  destruct (@ws_loop_replay broker (ws_callbacks p) (ws_callbacks_accept p) _ _ _ _ _ _ E) as (evs & Ev & Hw).
  cbn [app] in Ev. subst evs. rewrite Hw, replay_parse, frames_payloads.
  by destruct (parse_all b p (data_payloads fs)).
Qed.

(** C8. MQTT over WebSocket: once the connection is upgraded, a buffer with any
    sequence of well-formed frames (masked or not, fragmented, with control
    frames between them) does to the broker what the payloads of the data
    frames do, given to the MQTT parser of the client one after the other, as
    the buffers of a client without WebSocket are; apart from that only the
    frame parser of the client has moved, to the start of the next frame. *)
Theorem mqtt_over_websocket b p ws frag fs :
  on_ws b p ws -> truthy (hp_upgrade (ws_http_parser ws)) = true -> boundary frag (ws_ws_parser ws) ->
  frames_ok frag fs -> fs <> [] ->
  exists wsp, boundary (foldl next_frag frag fs) wsp /\
    c_ws_recv b p (concat (frame_bytes <$> fs))
    = (b ← parse_all b p (data_payloads fs); ws ← get_ws b p; mret (put_ws b p (ws <| ws_ws_parser := wsp |>))).
Proof.
  intros Hws Hup Hbd Hfs Hne. destruct (recv_frames b p ws frag fs Hws Hbd Hfs) as (wsp & Hbd' & E). exists wsp. split; [done|].
  rewrite <- E. unfold c_ws_recv. rewrite (client_ws_ok _ _ _ Hws). cbn [mbind outcome_bind]. rewrite Hup. cbn [mbind outcome_bind mret outcome_ret].
  rewrite (get_ws_ok _ _ _ Hws). cbn [mbind outcome_bind]. rewrite Hup.
  set (data := concat (frame_bytes <$> fs)). assert (0 < zlen data) as Hlen.
  { unfold data. destruct fs as [|f fs']; [done|]. cbn [fmap list_fmap concat]. rewrite zlen_app.
    assert (0 < zlen (frame_bytes f)) by (unfold frame_bytes; rewrite zlen_cons; match goal with |- 0 < zlen ?l + 1 => pose proof (zlen_nonneg l) end; lia).
    pose proof (zlen_nonneg (concat (frame_bytes <$> fs'))). lia. }
  rewrite Z.sub_0_r, (proj2 (Z.eqb_neq _ _)) by lia. cbn [negb].
  pose proof (buf_part_rest [] data) as Hbp. cbn [app] in Hbp. change (zlen []) with 0 in Hbp. rewrite Z.sub_0_r in Hbp.
  by rewrite Hbp.
Qed.
End frames.

(** PINGREQ in two masked frames, a WebSocket ping between them. *)
Definition ping_frames : list ws_frame :=
  [mk_ws_frame 1 2 (Some [1; 2; 3; 4]) [192]; mk_ws_frame 1 9 None [7]; mk_ws_frame 1 2 (Some [5; 6; 7; 8]) [0]].

Definition upgraded_ws : client_ws_st := fresh_ws <| ws_http_parser := (ws_http_parser fresh_ws) <| hp_upgrade := 1 |> |>.

Definition ws_demo_client : client_st := demo_client <| c_ws := Some 5 |> <| c_is_ws := 1 |>.
Definition upgraded_broker : broker := put_client (put_ws fresh_broker 5 upgraded_ws) 5 ws_demo_client.

Example ping_frames_bytes :
  concat (frame_bytes <$> ping_frames) = [130; 129; 1; 2; 3; 4; 193; 137; 1; 7; 130; 129; 5; 6; 7; 8; 5] /\ data_payloads ping_frames = [[192]; [0]].
Proof. by vm_compute. Qed.

Lemma mqtt_over_websocket_witness :
  exists wsp, boundary (foldl next_frag 0 ping_frames) wsp /\
    @c_ws_recv calm_libc rfc_sys upgraded_broker 5 (concat (frame_bytes <$> ping_frames))
    = (b ← @parse_all calm_libc rfc_sys upgraded_broker 5 (data_payloads ping_frames); ws ← get_ws b 5;
       mret (put_ws b 5 (ws <| ws_ws_parser := wsp |>))).
Proof.
  apply (@mqtt_over_websocket calm_libc rfc_sys upgraded_broker 5 upgraded_ws 0 ping_frames).
  - by exists ws_demo_client, 5.
  - reflexivity.
  - split; [|by repeat constructor|done|done]. by split.
  - split_and!; try done; split; try done; cbn; try lia; try (split; [by repeat constructor|done]);
      first [by repeat constructor | by left | by right; left | by right; right].
  - done.
Defined.

(** The two bytes make a PINGREQ, answered with PINGRESP in a frame. *)
Example ping_answered :
  exists b, @c_ws_recv calm_libc rfc_sys upgraded_broker 5 (concat (frame_bytes <$> ping_frames)) = Ok b /\
    @wire rfc_sys b 9 = @wire rfc_sys upgraded_broker 9 ++ [130; 2; 208; 0].
Proof. eexists. split; [vm_compute; reflexivity|vm_compute; reflexivity]. Qed.
