(* ===== verification/Kqueue.v ===== *)
(** * Polling with kqueue (src/worker_kqueue.c)

    The variant of the poll loop for systems with kqueue.  The events that
    [kevent] returns are, in the reply, the filter and the [udata] of each in
    turn.  What the clients see is what the epoll loop of Worker does. *)

From S2P Require Import Prelude MqttPacket ClientTypes World WorkerQueue ClientSend Auth Client ClientTls ClientWs Config Worker.

Definition EVFILT_READ : Z := -1.

Section kqueue.
Context `{Libc} `{Sys} `{LibConfig}.

(** Unlike with epoll, a failure ends the process. *)
Definition kq_poll_init (b : broker) (w : Z) : outcome broker :=
  let '(kqfd, b) := do_call b (Call_kqueue w) in
  if rp_int kqfd =? -1 then Halt else mret b.

(** A failure is only reported. *)
Definition kq_poll_reg_client (b : broker) (w p : Z) : outcome broker :=
  cp ← get_client b p; mret (do_call b (Call_kevent_add w (c_sd cp))).2.

Definition kq_poll_unreg_client (b : broker) (w p : Z) : outcome broker :=
  cp ← get_client b p; mret (do_call b (Call_kevent_delete w (c_sd cp))).2.

(** [karray]: the filter and the client of each event. *)
Fixpoint karray (l : list Z) : list (Z * Z) :=
  match l with
  | filter :: udata :: l => (filter, udata) :: karray l
  | _ => []
  end.

Fixpoint kq_events (b : broker) (events : list (Z * Z)) : outcome broker :=
  match events with
  | [] => mret b
  | (filter, p) :: events =>
      b ← (if filter =? EVFILT_READ then
             cp ← get_client b p;
             c_recv (put_client b p (cp <| c_recv_ready := 1 |>)) p
           else mret b);
      kq_events b events
  end.

Definition kq_poll (b : broker) (w : Z) : outcome broker :=
  let '(r, b) := do_call b (Call_kevent_wait w) in
  let rv := rp_int r in
  if rv <? 0 then mret (do_call b (Call_sleep 1)).2
  else if rv =? 0 then mret (do_call b (Call_sleep 1)).2
  else kq_events b (take (Z.to_nat (Z.min rv W_MAX_EVENTS)) (karray (rp_bytes r))).

(** ** The same clients are read as with epoll *)

(** The clients whose sockets can be read. *)
Definition readable (events : list (Z * Z)) : list Z :=
  (filter (fun e : Z * Z => e.1 = EVFILT_READ) events).*2.

Lemma kq_events_epoll events b : kq_events b events = w_events b (readable events).
Proof.
  revert b. induction events as [|[f p] events IH]; intros b; [done|]. cbn [kq_events]. unfold readable.
  destruct (Z.eqb_spec f EVFILT_READ) as [->|Hf].
  - rewrite filter_cons_True by done. cbn [fmap list_fmap snd w_events]. rewrite bind_assoc.
    destruct (get_client b p) as [cp| | |]; [|done..]. rewrite !bind_ok.
    destruct (c_recv _ p); [|done..]. apply IH.
  - rewrite filter_cons_False by done. rewrite bind_ok. apply IH.
Qed.

End kqueue.
