(* ===== verification/Log.v ===== *)
(** * Logging (src/log.c, src/log.h)

    A message is formatted into a buffer of the thread, cut to its size, and
    written with its tag and, if asked for, the time.  Of the C library the
    model has what the calls in the program use: the conversions of vsnprintf,
    gmtime and strftime.  The text of a pointer ([%p]) is up to the library. *)

From S2P Require Import Prelude Text Config.

(** ** vsnprintf *)

Inductive log_arg :=
  | AInt (n : Z)
  | AStr (s : list Z)
  | APtr (p : Z).

(** [%x]: digits below ten, then letters. *)
Fixpoint hex_digits (fuel : nat) (n : Z) : list Z :=
  match fuel with
  | O => []
  | S fuel =>
      let d := n mod 16 in
      (if n <? 16 then [] else hex_digits fuel (n / 16)) ++ [if d <? 10 then 48 + d else 87 + d]
  end.

(** [%.*s]: at most [n] characters, and no NUL is needed before the limit. *)
Definition c_string_upto (n : Z) (s : list Z) : outcome (list Z) :=
  if n <? 0 then c_string s
  else
    let k := take (Z.to_nat n) s in
    if has_nul k then mret (c_str k)
    else if zlen k <? n then Undef OutOfBounds
    else mret k.

Section format.
Context (show_ptr : Z -> list Z).

(** One conversion after the percent sign: its text and what is left. *)
Definition conversion (fmt : list Z) (args : list log_arg) : outcome (list Z * list Z * list log_arg) :=
  match fmt, args with
  | c :: fmt', AInt n :: args' =>
      if c =? 100 then mret (dec n, fmt', args')
      else if c =? 120 then mret (hex_digits 8 (u32 n), fmt', args')
      else if c =? 99 then mret ([u8 n], fmt', args')
      else
        match fmt', args' with
        | e :: g :: fmt', AStr s :: args' =>
            if (c =? 46) && (e =? 42) && (g =? 115) then t ← c_string_upto n s; mret (t, fmt', args')
            else Undef BadArgument
        | _, _ => Undef BadArgument
        end
  | c :: fmt', AStr s :: args' => if c =? 115 then t ← c_string s; mret (t, fmt', args') else Undef BadArgument
  | c :: fmt', APtr p :: args' => if c =? 112 then mret (show_ptr p, fmt', args') else Undef BadArgument
  | _, _ => Undef BadArgument
  end.

Fixpoint vformat (fuel : nat) (fmt : list Z) (args : list log_arg) : outcome (list Z) :=
  match fmt, fuel with
  | [], _ => mret []
  | _, O => Spin
  | c :: fmt, S fuel =>
      if c =? 37 then
        '(t, fmt, args) ← conversion fmt args;
        rest ← vformat fuel fmt args;
        mret (t ++ rest)
      else rest ← vformat fuel fmt args; mret (c :: rest)
  end.

Definition vsprintf (fmt : list Z) (args : list log_arg) : outcome (list Z) := vformat (length fmt) fmt args.

(** ** gmtime and strftime *)

(** The year, month and day of a day counted from 1970-01-01. *)
Definition civil (days : Z) : Z * Z * Z :=
  let z := days + 719468 in
  let era := z / 146097 in
  let doe := z mod 146097 in
  let yoe := (doe - doe / 1460 + doe / 36524 - doe / 146096) / 365 in
  let doy := doe - (365 * yoe + yoe / 4 - yoe / 100) in
  let mp := (5 * doy + 2) / 153 in
  let d := doy - (153 * mp + 2) / 5 + 1 in
  let m := if mp <? 10 then mp + 3 else mp - 9 in
  (yoe + era * 400 + (if m <=? 2 then 1 else 0), m, d).

Definition two_digits (n : Z) : list Z := [48 + n / 10; 48 + n mod 10].

(** "%FT%TZ" *)
Definition date_text (now : Z) : list Z :=
  let '(y, m, d) := civil (now / 86400) in
  let s := now mod 86400 in
  dec y ++ [45] ++ two_digits m ++ [45] ++ two_digits d ++ [84] ++
  two_digits (s / 3600) ++ [58] ++ two_digits (s / 60 mod 60) ++ [58] ++ two_digits (s mod 60) ++ [90].

(** ** The log *)

Inductive file := Stdout | Opened (name : list Z).

(** [fp], NULL being [None]; what has been written, and where. *)
Record log_st := mk_log {
  lg_fp : option file;
  lg_level : log_level_et;
  lg_time : Z;
  lg_out : list (file * list Z)
}.
#[export] Instance eta_log : Eta log_st := fun l => mk_log (lg_fp l) (lg_level l) (lg_time l) (lg_out l).

(** The variables as the program starts. *)
Definition log_zero : log_st := mk_log None LOG_INFO 0 [].

(** The values of [log_level_et]. *)
Definition level_code (l : log_level_et) : Z :=
  match l with LOG_DEBUG => 0 | LOG_INFO => 1 | LOG_WARN => 2 | LOG_ERROR => 3 end.

(** [can_open]: whether [fopen(file_name, "w+")] succeeds. *)
Definition log_init (can_open : list Z -> bool) (file_name : option (list Z)) (level : log_level_et)
    (log_time_config : Z) (lg : log_st) : log_st :=
  let fp := match file_name with
            | None => Some Stdout
            | Some name => if can_open name then Some (Opened name) else None
            end in
  lg <| lg_fp := fp |> <| lg_level := level |> <| lg_time := log_time_config |>.

(** [sizeof(_msg)] *)
Definition sizeof_msg : Z := 1024.

Definition log_format (now : Z) (tag : list Z) (message : list Z) (args : list log_arg) (lg : log_st) : outcome log_st :=
  let my_fp := default Stdout (lg_fp lg) in
  text ← vsprintf message args;
  msg ← c_string (snprintf_buf sizeof_msg text);
  let line := [91] ++ tag ++ [93; 32] ++ msg ++ [10] in
  let line := if truthy (lg_time lg) then date_text now ++ [32] ++ line else line in
  mret (lg <| lg_out := lg_out lg ++ [(my_fp, line)] |>).

Definition log_error (now : Z) (message : list Z) (args : list log_arg) (lg : log_st) : outcome log_st :=
  log_format now (lit "error"%str) message args lg.

Definition log_warn (now : Z) (message : list Z) (args : list log_arg) (lg : log_st) : outcome log_st :=
  if level_code (lg_level lg) <=? level_code LOG_WARN then log_format now (lit "warn"%str) message args lg else mret lg.

Definition log_info (now : Z) (message : list Z) (args : list log_arg) (lg : log_st) : outcome log_st :=
  if level_code (lg_level lg) <=? level_code LOG_INFO then log_format now (lit "info"%str) message args lg else mret lg.

Definition log_debug (now : Z) (message : list Z) (args : list log_arg) (lg : log_st) : outcome log_st :=
  if level_code (lg_level lg) =? level_code LOG_DEBUG then log_format now (lit "debug"%str) message args lg else mret lg.

(** debug.c: the message, then the breakpoint instruction. *)
Definition debug_assert_failure (now : Z) (func file : list Z) (line : Z) (cond : list Z) (lg : log_st) : outcome unit :=
  _ ← log_error now (lit "Assertion failed: (%s), function %s, %s:%d"%str) [AStr cond; AStr func; AStr file; AInt line] lg;
  Halt.

End format.

(** ** The calendar *)

Definition leap (y : Z) : bool := (y mod 4 =? 0) && (negb (y mod 100 =? 0) || (y mod 400 =? 0)).
Definition month_days (y m : Z) : Z :=
  if m =? 2 then (if leap y then 29 else 28) else if bool_decide (m ∈ [4; 6; 9; 11]) then 30 else 31.

(** The day after a date. *)
Definition next_day (c : Z * Z * Z) : Z * Z * Z :=
  let '(y, m, d) := c in
  if d <? month_days y m then (y, m, d + 1) else if m <? 12 then (y, m + 1, 1) else (y + 1, 1, 1).

Fixpoint days_agree (n : nat) (day : Z) (c : Z * Z * Z) : bool :=
  match n with
  | O => true
  | S n => bool_decide (civil day = c) && days_agree n (day + 1) (next_day c)
  end.

(** From 1970 to 2100 the dates follow the calendar. *)
Example civil_calendar : days_agree (Z.to_nat 47848) 0 (1970, 1, 1) = true.
Proof. vm_compute. reflexivity. Qed.

Example date_text_1700000000 : date_text 1700000000 = lit "2023-11-14T22:13:20Z"%str.
Proof. vm_compute. reflexivity. Qed.

(** ** What is written *)

(** The parts of a message: text, and the conversions with their arguments.
    Strings are arrays with a NUL, or cut at a length. *)
Inductive part :=
  | PText (s : list Z)
  | PDec (n : Z)
  | PHex (n : Z)
  | PChar (c : Z)
  | PStr (s after : list Z)
  | PCut (s after : list Z)
  | PPtr (p : Z).

Section message.
Context (show_ptr : Z -> list Z).

Definition part_fmt (p : part) : list Z :=
  match p with
  | PText s => s
  | PDec _ => lit "%d"%str
  | PHex _ => lit "%x"%str
  | PChar _ => lit "%c"%str
  | PStr _ _ => lit "%s"%str
  | PCut _ _ => lit "%.*s"%str
  | PPtr _ => lit "%p"%str
  end.

Definition part_args (p : part) : list log_arg :=
  match p with
  | PText _ => []
  | PDec n | PHex n | PChar n => [AInt n]
  | PStr s after => [AStr (s ++ 0 :: after)]
  | PCut s after => [AInt (zlen s); AStr (s ++ after)]
  | PPtr p => [APtr p]
  end.

Definition part_text (p : part) : list Z :=
  match p with
  | PText s => s
  | PDec n => dec n
  | PHex n => hex_digits 8 n
  | PChar c => [c]
  | PStr s _ | PCut s _ => s
  | PPtr p => show_ptr p
  end.

Definition no_nul (s : list Z) : Prop := Forall (fun b => b <> 0) s.

Definition part_ok (p : part) : Prop :=
  match p with
  | PText s => no_nul s /\ Forall (fun b => b <> 37) s
  | PDec n => True
  | PHex n => 0 <= n < 2 ^ 32
  | PChar c => 0 < c < 256
  | PStr s _ | PCut s _ => no_nul s
  | PPtr p => no_nul (show_ptr p)
  end.

Definition message_fmt (ps : list part) : list Z := concat (part_fmt <$> ps).
Definition message_args (ps : list part) : list log_arg := concat (part_args <$> ps).
Definition message_text (ps : list part) : list Z := concat (part_text <$> ps).

Lemma no_nul_digits fuel n : 0 <= n -> no_nul (digits fuel n).
Proof.
  revert n. induction fuel as [|fuel IH]; intros n Hn; cbn; [constructor|].
  destruct (Z.ltb_spec n 10); [constructor; [lia|constructor]|].
  pose proof (Z.mod_pos_bound n 10). pose proof (Z.div_pos n 10).
  apply Forall_app. split; [apply IH; lia|constructor; [lia|constructor]].
Qed.

Lemma no_nul_dec n : no_nul (dec n).
Proof. unfold dec. destruct (Z.ltb_spec n 0); [constructor; [done|]|]; apply no_nul_digits; lia. Qed.

Lemma no_nul_hex fuel n : 0 <= n -> no_nul (hex_digits fuel n).
Proof.
  revert n. induction fuel as [|fuel IH]; intros n Hn; cbn; [constructor|].
  pose proof (Z.mod_pos_bound n 16). pose proof (Z.div_pos n 16). apply Forall_app. split.
  - destruct (n <? 16); [constructor|]. apply IH. lia.
  - constructor; [|constructor]. destruct (n mod 16 <? 10); lia.
Qed.

Lemma message_no_nul ps : Forall part_ok ps -> no_nul (message_text ps).
Proof.
  induction 1 as [|p ps Hp _ IH]; [constructor|]. apply Forall_app. split; [|done].
  destruct p; cbn [part_ok part_text] in *; try tauto; try done.
  - apply no_nul_dec.
  - apply no_nul_hex. lia.
  - constructor; [lia|constructor].
Qed.

Lemma has_nul_none s : no_nul s -> has_nul s = false.
Proof. induction 1 as [|b s Hb _ IH]; [done|]. unfold has_nul in *. cbn. destruct (Z.eqb_spec b 0); done. Qed.

Lemma c_string_cut s after : no_nul s -> c_string_upto (zlen s) (s ++ after) = Ok s.
Proof.
  intros Hs. unfold c_string_upto. pose proof (zlen_nonneg s). destruct (Z.ltb_spec (zlen s) 0); [lia|].
  unfold zlen. rewrite Nat2Z.id, take_app_length, has_nul_none by done. by rewrite Z.ltb_irrefl.
Qed.

Lemma conversion_part p fmt args :
  part_ok p -> (forall s, p <> PText s) ->
  exists f, part_fmt p = 37 :: f /\
    conversion show_ptr (f ++ fmt) (part_args p ++ args) = Ok (part_text p, fmt, args).
Proof.
  intros Hp Ht. destruct p as [s|n|n|c|s after|s after|p]; [by destruct (Ht s)|..]; cbn [part_ok] in Hp;
    (eexists; split; [reflexivity|]); cbn -[hex_digits u8 dec].
  - done.
  - by rewrite u32_small.
  - unfold u8. by rewrite Z.mod_small by lia.
  - by rewrite c_string_text.
  - by rewrite c_string_cut.
  - done.
Qed.

Lemma vformat_text fuel s fmt args :
  Forall (fun b => b <> 37) s ->
  vformat show_ptr (length s + fuel) (s ++ fmt) args = (rest ← vformat show_ptr fuel fmt args; mret (s ++ rest)).
Proof.
  induction 1 as [|b s Hb _ IH]; cbn [app length].
  - change (0 + fuel)%nat with fuel. by destruct (vformat show_ptr fuel fmt args).
  - cbn [vformat Nat.add]. destruct (Z.eqb_spec b 37); [done|]. rewrite IH, bind_assoc.
    by destruct (vformat show_ptr fuel fmt args).
Qed.

Lemma vformat_ok ps fuel :
  Forall part_ok ps -> (length (message_fmt ps) <= fuel)%nat ->
  vformat show_ptr fuel (message_fmt ps) (message_args ps) = Ok (message_text ps).
Proof.
  intros Hps. revert fuel. induction Hps as [|p ps Hp _ IH]; intros fuel Hf; [by destruct fuel|].
  unfold message_fmt, message_args, message_text in *. cbn [fmap list_fmap concat] in *. rewrite length_app in Hf.
  assert ((exists s, p = PText s) \/ (forall s, p <> PText s)) as [[s ->]|Ht] by (destruct p; eauto; right; done).
  - cbn [part_fmt part_args part_text app] in *. destruct Hp as [_ Hs].
    replace fuel with (length s + (fuel - length s))%nat by lia. rewrite vformat_text, IH by (done || lia). done.
  - destruct (conversion_part p (concat (part_fmt <$> ps)) (concat (part_args <$> ps)) Hp Ht) as (f & Hfmt & Hc).
    rewrite Hfmt in Hf |- *. cbn [app length] in Hf |- *. destruct fuel as [|fuel]; [lia|].
    cbn [vformat]. change (37 =? 37) with true. cbv iota. rewrite Hc, bind_ok, IH by lia. done.
Qed.

(** [log_error], [log_warn], [log_info] and [log_debug]. *)
Definition log_at (l : log_level_et) := match l with
  | LOG_ERROR => log_error show_ptr | LOG_WARN => log_warn show_ptr
  | LOG_INFO => log_info show_ptr | LOG_DEBUG => log_debug show_ptr
  end.
Definition level_tag (l : log_level_et) : list Z := match l with
  | LOG_ERROR => lit "error"%str | LOG_WARN => lit "warn"%str
  | LOG_INFO => lit "info"%str | LOG_DEBUG => lit "debug"%str
  end.

Definition log_line (now : Z) (l : log_level_et) (text : list Z) (lg : log_st) : list Z :=
  (if truthy (lg_time lg) then date_text now ++ lit " "%str else []) ++
  lit "["%str ++ level_tag l ++ lit "] "%str ++ take 1023 text ++ [10].

Lemma log_format_ok now tag ps lg :
  Forall part_ok ps ->
  log_format show_ptr now tag (message_fmt ps) (message_args ps) lg =
    Ok (lg <| lg_out := lg_out lg ++ [(default Stdout (lg_fp lg),
      (if truthy (lg_time lg) then date_text now ++ lit " "%str else []) ++
      lit "["%str ++ tag ++ lit "] "%str ++ take 1023 (message_text ps) ++ [10])] |>).
Proof.
  intros Hps. unfold log_format, vsprintf. rewrite vformat_ok by done. rewrite bind_ok.
  pose proof (message_no_nul _ Hps) as Hn. unfold snprintf_buf. change (Z.to_nat (sizeof_msg - 1)) with 1023%nat.
  set (m := take 1023 (message_text ps)). assert (length m <= 1023)%nat as Hm by (subst m; rewrite length_take; lia).
  replace (Z.to_nat sizeof_msg - length m)%nat with (S (1023 - length m)) by (change (Z.to_nat sizeof_msg) with 1024%nat; lia).
  cbn [replicate]. rewrite c_string_text by (by apply Forall_take). rewrite bind_ok.
  by destruct (truthy (lg_time lg)); rewrite <- ?app_assoc.
Qed.
End message.

(** The level decides whether the line is written. *)
Lemma log_at_ok show_ptr now l ps lg :
  Forall (part_ok show_ptr) ps ->
  log_at show_ptr l now (message_fmt ps) (message_args ps) lg =
    Ok (if level_code (lg_level lg) <=? level_code l
        then lg <| lg_out := lg_out lg ++ [(default Stdout (lg_fp lg), log_line now l (message_text show_ptr ps) lg)] |>
        else lg).
Proof.
  intros Hps. pose proof (fun tag => log_format_ok show_ptr now tag ps lg Hps) as Hf.
  destruct l; cbn [log_at]; unfold log_error, log_warn, log_info, log_debug; rewrite Hf; by destruct (lg_level lg).
Qed.

(** C38.  A message of a level is written exactly when the configured level is
    not above it, as one line to the log file, or to stdout without one: its
    tag, and its text with every conversion replaced by its argument, of which
    the first 1023 characters are kept, after the date when that is asked
    for. *)
Theorem log_writes_line show_ptr now l ps lg :
  Forall (part_ok show_ptr) ps ->
  (level_code (lg_level lg) <= level_code l ->
   log_at show_ptr l now (message_fmt ps) (message_args ps) lg =
     Ok (lg <| lg_out := lg_out lg ++
       [(default Stdout (lg_fp lg),
         (if truthy (lg_time lg) then date_text now ++ lit " "%str else []) ++
         lit "["%str ++ level_tag l ++ lit "] "%str ++ take 1023 (message_text show_ptr ps) ++ [10])] |>)) /\
  (level_code l < level_code (lg_level lg) ->
   log_at show_ptr l now (message_fmt ps) (message_args ps) lg = Ok lg).
Proof.
  intros Hps. rewrite log_at_ok by done.
  split; intros Hl; destruct (Z.leb_spec (level_code (lg_level lg)) (level_code l)); done || lia.
Qed.

(** "queue %s failed rv %d". *)
Definition demo_log : log_st :=
  log_init (fun _ => true) (Some (lit "broker.log"%str)) LOG_INFO 1 log_zero.

Lemma log_writes_line_witness :
  log_at dec LOG_WARN 1700000000 (lit "queue %s failed rv %d, id %.*s"%str)
    [AStr (lit "msg"%str ++ 0 :: [7]); AInt (-5); AInt 2; AStr (lit "abc"%str)] demo_log =
  Ok (demo_log <| lg_out := [(Opened (lit "broker.log"%str),
        lit "2023-11-14T22:13:20Z [warn] queue msg failed rv -5, id ab"%str ++ [10])] |>).
Proof.
  apply (log_writes_line dec 1700000000 LOG_WARN
    [PText (lit "queue "%str); PStr (lit "msg"%str) [7]; PText (lit " failed rv "%str); PDec (-5);
     PText (lit ", id "%str); PCut (lit "ab"%str) (lit "c"%str)] demo_log).
  - repeat constructor; cbn; done.
  - cbn. lia.
Defined.
