(* ===== verification/UnitTests.v ===== *)
(** * The unit tests (test/)

    The tests that [main] runs when it is given -t, on the functions of the
    model.  A failed assertion is [Halt]; the log messages are left out. *)

From S2P Require Import Prelude DList Queue MqttPacket ClientTypes Trie Subscription World KeepAlive Text Client.

Definition test_main : outcome unit := mret tt.

(** ** test/queue_test.c *)

(** [static queue_item_st items[100]]; then [items[i].p = i]. *)
Definition test_items : gmap Z (queue_item_st Z Z) :=
  list_to_map ((fun i => (i, mk_queue_item (Some i) None)) <$> seqZ 0 100).

Fixpoint push_all (h : gmap Z (queue_item_st Z Z)) (q : queue_st Z) (l : list Z)
  : outcome (gmap Z (queue_item_st Z Z) * queue_st Z) :=
  match l with
  | [] => mret (h, q)
  | i :: l => '(h, q) ← queue_push h q i; push_all h q l
  end.

(** Each item of [l], then NULL. *)
Fixpoint pop_all (h : gmap Z (queue_item_st Z Z)) (q : queue_st Z) (l : list (option Z)) : outcome (queue_st Z) :=
  match l with
  | [] => mret q
  | i :: l =>
      '(r, q) ← queue_pop h q;
      _ ← ASSERT (bool_decide (r = i));
      pop_all h q l
  end.

Definition test_queue : outcome unit :=
  '(h, q) ← push_all test_items (queue_init (lit "test"%str)) [0];
  q ← pop_all h q [Some 0; None];
  '(h, q) ← push_all h q (seqZ 0 100);
  _ ← pop_all h q ((Some <$> seqZ 0 100) ++ [None]);
  mret tt.

(** ** test/keep_alive_test.c

    [ka] is the table of worker 0 of a broker without anything else.  The
    test gives the index of a client the value of [c_sd]; the static variable of
    the callback is the [c_sd] of a structure of its own. *)

Definition index_var : Z := 1000.

Definition ka_test_broker : broker :=
  let b := mk_broker example_config ∅ ∅ ∅ ∅ ∅ [example_worker 0 1] 1 0 0 0 [] in
  put_client b index_var ((zero_client index_var) <| c_sd := -1 |>).

Definition server_drop_client (b : broker) (p : Z) : outcome broker :=
  cp ← get_client b p;
  var ← get_client b index_var;
  _ ← ASSERT (c_sd var <? c_sd cp);
  mret (put_client b index_var (var <| c_sd := c_sd cp |>)).

(** [time] answers the calls of time(). *)
Fixpoint add_clients (n : nat) (time : Z -> Z) (b : broker) (i : Z) : outcome broker :=
  match n with
  | O => mret b
  | S n =>
      let cp := (zero_client i) <| c_sd := i |> <| c_keep_alive := 10 + i |> in
      b ← ka_update (alloc_client b cp i) 0 i (time i);
      add_clients n time b (i + 1)
  end.

Definition test_table (b : broker) : outcome keep_alive_st := wp ← get_worker b 0; mret (w_keep_alive wp).

(** [do { t = t + 1; ka_run(&ka, t); } while (ka.cnt > 0)] *)
Fixpoint run_until_idle (fuel : nat) (b : broker) (t : Z) : outcome (broker * Z) :=
  match fuel with
  | O => Spin
  | S fuel =>
      b ← ka_run (Some server_drop_client) b 0 (t + 1);
      ka ← test_table b;
      if 0 <? ka_cnt ka then run_until_idle fuel b (t + 1) else mret (b, t + 1)
  end.

Definition test_keep_alive (time : Z -> Z) : outcome unit :=
  wp ← get_worker ka_test_broker 0;
  let b := put_worker ka_test_broker 0 (wp <| w_keep_alive := ka_init (w_keep_alive wp) |>) in
  b ← add_clients 20 time b 0;
  '(b, t) ← run_until_idle 101 b (time 20);
  b ← ka_run (Some server_drop_client) b 0 (t + 1);
  ka ← test_table b;
  _ ← ASSERT (ka_cnt ka + ka_kick_cnt ka =? 20);
  mret tt.

(** ** test/subcriber_test.c *)

Definition test_filters : list (list Z) := lit <$>
  ["#"%str; "+"%str; "flameboss"%str; "flameboss/#"%str; "flameboss/+/recv"%str; "flameboss/+/send/+"%str;
   "flameboss/12345678/send/open"%str; "$local/flameboss/+/send/time"%str; "flameboss/12345678/send/data"%str;
   "flameboss/12345678/send/+"%str; "flameboss/12345678/+"%str].

(** [subs[i]] is the subscription 0 of [clients[i]]. *)
Definition test_nodes : node_heap :=
  list_to_map ((fun i => (SubNode i 0, mk_dllist_node None None None)) <$> seqZ 0 11).

Fixpoint insert_subs (h : node_heap) (head : option sub_trie) (i : Z) (filters : list (list Z))
  : outcome (node_heap * option sub_trie) :=
  match filters with
  | [] => mret (h, head)
  | f :: filters =>
      '(h, head) ← sub_insert h head i 0 (Some (f ++ [0]));
      insert_subs h head (i + 1) filters
  end.

(** The subscriptions found, in the order of the calls of [found]. *)
Definition found (sp : Z * Z) (mp : message_st) (st : node_heap * list Z) : outcome (node_heap * list Z) :=
  mret (st.1, st.2 ++ [sp.1]).

Definition test_search (h : node_heap) (head : option sub_trie) (topic : list Z) : outcome (list Z * Z) :=
  let mp := mk_message M_STATE_UNKNOWN 0 0 0 0 5 0 (topic ++ [0]) [] NULL [] in
  '((_, l), n) ← sub_search fst found head mp (h, []);
  mret (l, n).

Fixpoint expect_counts (h : node_heap) (head : option sub_trie) (l : list (list Z * Z)) : outcome unit :=
  match l with
  | [] => mret tt
  | (topic, n) :: l =>
      '(_, found_count) ← test_search h head topic;
      _ ← ASSERT (found_count =? n);
      expect_counts h head l
  end.

Definition test_subscriber : outcome unit :=
  '(h, head) ← insert_subs test_nodes None 0 test_filters;
  _ ← expect_counts h head [(lit "blah"%str, 2)];
  '(h, head) ← sub_remove h head 0 0 (Some (lit "#"%str ++ [0]));
  expect_counts h head
    [(lit "blah"%str, 1); (lit "flameboss"%str, 2); (lit "flameboss/hut/recv"%str, 2);
     (lit "flameboss/12345678/recv"%str, 3); (lit "flameboss/12345678/send"%str, 2);
     (lit "flameboss/12345678/send/data"%str, 4); (lit "flameboss/12345678/send/time"%str, 4)].

(** ** test/test.c *)

Definition test_run (time : Z -> Z) : outcome Z :=
  _ ← test_main;
  _ ← test_queue;
  _ ← test_keep_alive time;
  _ ← test_subscriber;
  mret 0.

Example test_queue_passes : test_queue = Ok tt.
Proof. vm_compute. reflexivity. Qed.

Example test_subscriber_passes : test_subscriber = Ok tt.
Proof. vm_compute. reflexivity. Qed.

(** They all pass, on a clock that stands still and on one that moves. *)
Example test_run_passes :
  test_run (fun _ => 1700000000) = Ok 0 /\ test_run (fun k => 1700000000 + k / 10) = Ok 0.
Proof. split; vm_compute; reflexivity. Qed.

(** With all eleven filters stored, the topic "flameboss" is found under "#",
    "+" and "flameboss", and not under "flameboss/#", which by section
    4.7.1.2 of MQTT 3.1.1 matches the level above it too. *)
Example hash_misses_parent :
  ('(h, head) ← insert_subs test_nodes None 0 test_filters; test_search h head (lit "flameboss"%str))
  = Ok ([0; 1; 2], 3).
Proof. vm_compute. reflexivity. Qed.
