(* ===== verification/Main.v ===== *)
(** * The process (src/main.c, and the signal handler of src/server.c)

    Options, pid file, signals and the end of the process.  A computation
    returns, ends the process with a status, or is undefined; whichever it
    does, what it has done to the outside stays done, so that the state of the
    process is kept when it exits.  [Os] answers the calls; [getopt] is outside
    the program: [main] gets what its calls return. *)

From S2P Require Import Prelude Queue MqttPacket ClientTypes World Text WorkerQueue Config Worker Log UnitTests.

(** ** Calls and signals *)

Inductive os_call :=
  | Os_open (path : option (list Z))
  | Os_getpid
  | Os_write (fd : Z) (data : list Z)
  | Os_close (fd : Z)
  | Os_unlink (path : list Z)
  | Os_stderr (text : list Z)
  | Os_stdout (text : list Z)
  | Os_backtrace
  | Os_errno.

(** [show_null]: what the library prints for [%s] and a NULL pointer, which
    the C standard leaves undefined; [config_error]: file, line and text of
    the error of libconfig. *)
Class Os := {
  os_reply : list os_call -> os_call -> Z;
  os_time : list os_call -> Z;
  os_can_open : list Z -> bool;
  show_ptr : Z -> list Z;
  show_null : option (list Z);
  config_error : list Z * Z * list Z
}.

(** The signals for which the program has a handler, and SIGKILL, for which
    signal() fails. *)
Inductive sig :=
  | SIGHUP | SIGINT | SIGQUIT | SIGILL | SIGABRT | SIGFPE | SIGKILL | SIGUSR1 | SIGSEGV | SIGUSR2
  | SIGPIPE | SIGALRM | SIGTERM.

#[export] Instance sig_eq_dec : EqDecision sig.
Proof. solve_decision. Defined.

(** The numbers of Linux. *)
Definition sig_number (s : sig) : Z :=
  match s with
  | SIGHUP => 1 | SIGINT => 2 | SIGQUIT => 3 | SIGILL => 4 | SIGABRT => 6 | SIGFPE => 8 | SIGKILL => 9
  | SIGUSR1 => 10 | SIGSEGV => 11 | SIGUSR2 => 12 | SIGPIPE => 13 | SIGALRM => 14 | SIGTERM => 15
  end.

Inductive handler := Default | Exception | Interrupt | Usr1.

(** ** The state of the process *)

Record process := mk_process {
  pr_name : list Z;
  pr_run_unit_tests : Z;
  pr_pid_file : option (list Z);
  pr_handlers : sig -> handler;
  pr_config : config_st;
  pr_log : log_st;
  pr_calls : list os_call
}.
#[export] Instance eta_process : Eta process := fun p =>
  mk_process (pr_name p) (pr_run_unit_tests p) (pr_pid_file p) (pr_handlers p) (pr_config p) (pr_log p) (pr_calls p).

(** [argv[0]] is [name]. *)
Definition process_start (name : list Z) : process :=
  mk_process name 0 None (fun _ => Default) config_zero log_zero [].

(** A computation returns, or the process has ended: by exit or by a signal. *)
Inductive ending (A : Type) :=
  | Returned (a : A)
  | Exited (status : Z)
  | Killed (s : sig).
Arguments Returned {A} a.
Arguments Exited {A} status.
Arguments Killed {A} s.

Definition proc (A : Type) : Type := process -> outcome (ending A * process).

#[export] Instance proc_ret : MRet proc := fun A a p => Ok (Returned a, p).

#[export] Instance proc_bind : MBind proc := fun A B f m p =>
  '(e, p) ← m p;
  match e with
  | Returned a => f a p
  | Exited status => Ok (Exited status, p)
  | Killed s => Ok (Killed s, p)
  end.

Definition get {A} (f : process -> A) : proc A := fun p => Ok (Returned (f p), p).
Definition modify (f : process -> process) : proc unit := fun p => Ok (Returned tt, f p).
Definition lift {A} (m : outcome A) : proc A := fun p => a ← m; Ok (Returned a, p).
Definition exit {A} (status : Z) : proc A := fun p => Ok (Exited status, p).
Definition killed {A} (s : sig) : proc A := fun p => Ok (Killed s, p).

Section main.
Context `{Os}.

Definition os (c : os_call) : proc Z := fun p =>
  Ok (Returned (os_reply (pr_calls p) c), p <| pr_calls := pr_calls p ++ [c] |>).

(** [log_error] and [log_debug] with the time of the call. *)
Definition log (f : (Z -> list Z) -> Z -> list Z -> list log_arg -> log_st -> outcome log_st)
    (message : String.string) (args : list log_arg) : proc unit := fun p =>
  lg ← f show_ptr (os_time (pr_calls p)) (lit message) args (pr_log p);
  Ok (Returned tt, p <| pr_log := lg |>).

(** A [%s] argument that may be NULL. *)
Definition str_arg (s : option (list Z)) : outcome log_arg :=
  match s with
  | Some s => Ok (AStr (s ++ [0]))
  | None => match show_null with Some s => Ok (AStr (s ++ [0])) | None => Undef BadArgument end
  end.

(** ** Functions of main.c *)

Definition die {A} : proc A :=
  pid_file ← get pr_pid_file;
  _ ← match pid_file with
      | Some f =>
          _ ← log log_debug "removing %s"%str [AStr (f ++ [0])];
          rv ← os (Os_unlink f);
          if rv <? 0 then
            errno ← os Os_errno;
            log log_error "could not remove %s, rv %d, errno %d"%str [AStr (f ++ [0]); AInt rv; AInt errno]
          else mret tt
      | None => mret tt
      end;
  _ ← log log_debug "exiting"%str [];
  exit 1.

Definition usage : proc unit :=
  name ← get pr_name;
  _ ← os (Os_stderr (lit "usage: "%str ++ name ++ lit " [-c config-file] [-p pid-file] [-t]"%str ++ [10]));
  die.

(** [sizeof(s)] *)
Definition sizeof_pid : Z := 32.

(** [urv] and [len] are of type [size_t], which [%d] prints as an int. *)
Definition write_pid (pid_file : option (list Z)) : proc unit :=
  fd ← os (Os_open pid_file);
  if fd <? 0 then
    f ← lift (str_arg pid_file);
    log log_error "could not open pid file %s"%str [f]
  else
    pid ← os Os_getpid;
    let s := dec pid ++ [10] in
    let len := zlen s in
    if sizeof_pid - 1 <=? len then log log_error "snprintf buffer overflow"%str []
    else
      urv ← os (Os_write fd s);
      if negb (u64 urv =? len) then
        log log_error "write_pid write failed urv %d, len %d"%str [AInt (i32 (u64 urv)); AInt (i32 len)]
      else
        rv ← os (Os_close fd);
        if rv <? 0 then log log_error "write_pid close failed"%str [] else mret tt.

Definition exception_signal_handler (s : sig) : proc unit :=
  _ ← os Os_backtrace;
  _ ← os (Os_stderr (lit "Error: signal "%str ++ dec (sig_number s) ++ lit ":"%str ++ [10]));
  die.

Definition interrupt_signal_handler (s : sig) : proc unit := die.

(** server.c: [clients] is what workers_num_clients returns. *)
Definition sig_usr1_handler (clients : outcome Z) (s : sig) : proc unit :=
  n ← lift clients;
  _ ← os (Os_stdout (dec (i32 n) ++ lit " clients"%str ++ [10]));
  mret tt.

(** A signal arrives; the default action of all of them ends the process. *)
Definition on_signal (clients : outcome Z) (s : sig) : proc unit :=
  h ← get pr_handlers;
  match h s with
  | Default => killed s
  | Exception => exception_signal_handler s
  | Interrupt => interrupt_signal_handler s
  | Usr1 => sig_usr1_handler clients s
  end.

(** signal(), which SIGKILL does not take. *)
Definition signal (s : sig) (h : handler) : proc unit :=
  if decide (s = SIGKILL) then mret tt
  else modify (fun p => p <| pr_handlers := fun s' => if decide (s' = s) then h else pr_handlers p s' |>).

Fixpoint signals (l : list sig) (h : handler) : proc unit :=
  match l with
  | [] => mret tt
  | s :: l => _ ← signal s h; signals l h
  end.

Definition main_signals : proc unit :=
  _ ← signals [SIGABRT; SIGALRM; SIGFPE; SIGHUP; SIGILL] Exception;
  _ ← signal SIGINT Interrupt;
  signals [SIGKILL; SIGPIPE; SIGQUIT; SIGSEGV; SIGTERM; SIGUSR2] Exception.

(** [opts]: the option and [optarg] of each call of getopt until -1. *)
Fixpoint main_options (opts : list (Z * list Z)) (config_file : list Z) : proc (list Z) :=
  match opts with
  | [] => mret config_file
  | (opt, optarg) :: opts =>
      if opt =? 99 then main_options opts optarg
      else if opt =? 116 then
        _ ← modify (fun p => p <| pr_run_unit_tests := 1 |>);
        main_options opts config_file
      else if opt =? 112 then
        _ ← modify (fun p => p <| pr_pid_file := Some optarg |>);
        main_options opts config_file
      else
        _ ← usage;
        main_options opts config_file
  end.

Context `{LibConfig}.

(** [fb_config_file], with what it does to the log. *)
Definition config_file_log (config_file : list Z) : proc unit :=
  if negb (config_read_file config_file) then
    let '(file, line, text) := config_error in
    _ ← log log_error "%s:%d - %s"%str [AStr (file ++ [0]); AInt line; AStr (text ++ [0])];
    exit 1
  else
    c ← get pr_config;
    '(c, (log_file_name, level, log_time)) ← lift (fb_config_file c config_file);
    modify (fun p => p <| pr_config := c |>
                       <| pr_log := log_init os_can_open (Some log_file_name) level log_time (pr_log p) |>).

(** [main] up to servers_init: the unit tests, or the configuration to start
    the servers with.  [time] answers the tests. *)
Definition main_setup (time : Z -> Z) (opts : list (Z * list Z)) : proc config_st :=
  _ ← main_signals;
  c ← lift (fb_config_init config_zero);
  _ ← modify (fun p => p <| pr_config := c |>);
  config_file ← main_options opts (lit "broker.cfg"%str);
  _ ← modify (fun p => if cf_num_servers (pr_config p) =? 0
                       then p <| pr_config := (pr_config p) <| cf_num_servers := 1 |> |> else p);
  _ ← config_file_log config_file;
  pid_file ← get pr_pid_file;
  _ ← write_pid pid_file;
  tests ← get pr_run_unit_tests;
  if truthy tests then
    rv ← lift (test_run time);
    exit rv
  else get pr_config.

(** The variables of the broker as the program starts. *)
Definition broker_zero (c : config_st) : broker :=
  let worker := mk_worker 0 [] (mk_queue None None []) (mk_queue None None []) 0 None NULL None
                  (mk_keep_alive 0 0 (replicate 101 None)) in
  mk_broker c ∅ ∅ ∅ ∅ ∅ (replicate (Z.to_nat MAX_NUM_WORKERS) worker) 0 0 0 1 [].

Context `{Libc} `{Sys}.

(** [main] after [n] rounds of servers_run. *)
Definition main (time : Z -> Z) (opts : list (Z * list Z)) (n : nat) : proc broker :=
  c ← main_setup time opts;
  b ← lift (servers_init (broker_zero c));
  _ ← signal SIGUSR1 Usr1;
  lift (servers_run n b).

End main.

(** ** What the process does *)

Lemma proc_bind_ok {A B} (m : proc A) (f : A -> proc B) p a p' :
  m p = Ok (Returned a, p') -> (m ≫= f) p = f a p'.
Proof. intros E. unfold mbind, proc_bind. by rewrite E. Qed.

Lemma proc_bind_exit {A B} (m : proc A) (f : A -> proc B) p status p' :
  m p = Ok (Exited status, p') -> (m ≫= f) p = Ok (Exited status, p').
Proof. intros E. unfold mbind, proc_bind. by rewrite E. Qed.

(** The handlers that [main] installs. *)
Definition main_handler (s : sig) : handler :=
  match s with SIGINT => Interrupt | SIGKILL | SIGUSR1 => Default | _ => Exception end.

(** The argument of the last option [o]. *)
Definition last_arg (o : Z) (opts : list (Z * list Z)) : option (list Z) :=
  last ((filter (fun x : Z * list Z => x.1 = o) opts).*2).

Definition known_options (opts : list (Z * list Z)) : Prop :=
  Forall (fun x => x.1 = 99 \/ x.1 = 112 \/ x.1 = 116) opts.

Section facts.
Context `{Os}.

Lemma main_signals_ok p :
  exists hs, main_signals p = Ok (Returned tt, p <| pr_handlers := hs |>) /\
    forall s, s <> SIGUSR1 -> s <> SIGKILL -> hs s = main_handler s.
Proof. eexists. split; [destruct p; reflexivity|]. by intros [] ? ?. Qed.

Lemma last_arg_cons o x opts :
  last_arg o (x :: opts) =
    if decide (x.1 = o) then match last_arg o opts with Some a => Some a | None => Some x.2 end else last_arg o opts.
Proof.
  unfold last_arg. case_decide; [rewrite filter_cons_True by done|by rewrite filter_cons_False].
  cbn [fmap list_fmap]. by rewrite last_cons.
Qed.

(** The options: the last configuration file, the last pid file, the tests. *)
Lemma main_options_ok opts config_file p :
  known_options opts ->
  main_options opts config_file p =
    Ok (Returned (default config_file (last_arg 99 opts)),
        p <| pr_run_unit_tests := if decide (116 ∈ opts.*1) then 1 else pr_run_unit_tests p |>
          <| pr_pid_file := match last_arg 112 opts with Some f => Some f | None => pr_pid_file p end |>).
Proof.
  revert config_file p. induction opts as [|[o a] opts IH]; intros config_file p Ho; [by destruct p|].
  apply Forall_cons in Ho as [Ho Hos]. cbn [main_options]. rewrite !last_arg_cons. cbn [fst snd fmap list_fmap] in Ho |- *.
  destruct Ho as [->|[->| ->]].
  - change (99 =? 99) with true. cbv iota. rewrite IH by done.
    rewrite (decide_True (P:=99 = 99)), (decide_False (P:=99 = 112)) by done.
    assert (116 ∈ 99 :: opts.*1 <-> 116 ∈ opts.*1) as E by (rewrite elem_of_cons; naive_solver).
    rewrite (decide_ext _ _ _ _ E). by destruct (last_arg 99 opts).
  - change (112 =? 99) with false. change (112 =? 116) with false. change (112 =? 112) with true. cbv iota.
    erewrite proc_bind_ok by reflexivity. rewrite IH by done. cbv zeta beta.
    rewrite (decide_False (P:=112 = 99)), (decide_True (P:=112 = 112)) by done.
    assert (116 ∈ 112 :: opts.*1 <-> 116 ∈ opts.*1) as E by (rewrite elem_of_cons; naive_solver).
    rewrite (decide_ext _ _ _ _ E). destruct p. by destruct (last_arg 112 opts).
  - change (116 =? 99) with false. change (116 =? 116) with true. cbv iota.
    erewrite proc_bind_ok by reflexivity. rewrite IH by done. cbv zeta beta.
    rewrite (decide_False (P:=116 = 99)), (decide_False (P:=116 = 112)) by done.
    rewrite (decide_True (P:=116 ∈ 116 :: _)) by (by left). destruct p. by destruct (decide _).
Qed.

(** Writing to the log changes only the log. *)
Lemma log_returns l message args ps p :
  lit message = message_fmt ps -> args = message_args ps -> Forall (part_ok show_ptr) ps ->
  exists lg, log (fun sp => log_at sp l) message args p = Ok (Returned tt, p <| pr_log := lg |>).
Proof. intros Hm -> Hps. unfold log. rewrite Hm, log_at_ok by done. rewrite bind_ok. by eexists. Qed.

(** [die]: the pid file is removed, if there is one, and the status is 1. *)
Lemma die_exits {A} p :
  match pr_pid_file p with Some f => no_nul f | None => True end ->
  exists p' after, die p = Ok (@Exited A 1, p') /\
    pr_calls p' = pr_calls p ++ match pr_pid_file p with Some f => Os_unlink f :: after | None => [] end.
Proof.
  intros Hf. unfold die. erewrite proc_bind_ok by reflexivity.
  assert (forall q, exists q', (_ ← log log_debug "exiting"%str []; exit 1) q = Ok (@Exited A 1, q') /\ pr_calls q' = pr_calls q)
    as Hend.
  { intros q. destruct (log_returns LOG_DEBUG "exiting"%str [] [PText (lit "exiting"%str)] q) as [lg Hlg];
      [reflexivity|reflexivity|by repeat constructor|].
    erewrite proc_bind_ok by exact Hlg. eexists. split; [reflexivity|by destruct q]. }
  destruct (pr_pid_file p) as [f|].
  - destruct (log_returns LOG_DEBUG "removing %s"%str [AStr (f ++ [0])] [PText (lit "removing "%str); PStr f []] p)
      as [lg Hlg]; [reflexivity|reflexivity|repeat constructor; cbn; done|].
    set (p1 := p <| pr_log := lg |>) in *. set (rv := os_reply (pr_calls p1) (Os_unlink f)).
    set (p2 := p1 <| pr_calls := pr_calls p1 ++ [Os_unlink f] |>).
    assert (exists p3 after, (if rv <? 0 then errno ← os Os_errno;
        log log_error "could not remove %s, rv %d, errno %d"%str [AStr (f ++ [0]); AInt rv; AInt errno] else mret tt) p2 =
        Ok (Returned tt, p3) /\ pr_calls p3 = pr_calls p ++ Os_unlink f :: after) as (p3 & after & Hrun & Hcalls).
    { destruct (rv <? 0); [|exists p2, []; by destruct p].
      erewrite proc_bind_ok by reflexivity. set (e := os_reply _ _). set (q := _ <| pr_calls := _ |>).
      destruct (log_returns LOG_ERROR "could not remove %s, rv %d, errno %d"%str [AStr (f ++ [0]); AInt rv; AInt e]
        [PText (lit "could not remove "%str); PStr f []; PText (lit ", rv "%str); PDec rv; PText (lit ", errno "%str); PDec e] q)
        as [lg' Hlg']; [reflexivity|reflexivity|repeat constructor; cbn; done|].
      exists (q <| pr_log := lg' |>), [Os_errno]. split; [exact Hlg'|]. subst q p2 p1. destruct p. cbn. by rewrite <- app_assoc. }
    destruct (Hend p3) as (p4 & Hrun4 & Hcalls4). exists p4, after. split; [|by rewrite Hcalls4].
    erewrite proc_bind_ok; [exact Hrun4|]. erewrite proc_bind_ok by exact Hlg. erewrite proc_bind_ok by reflexivity. exact Hrun.
  - destruct (Hend p) as (p4 & Hrun4 & Hcalls4). exists p4, []. rewrite app_nil_r. split; [|done].
    erewrite proc_bind_ok; [exact Hrun4|reflexivity].
Qed.

(** The handlers that [main] installs end the process. *)
Lemma on_signal_exits clients s p :
  pr_handlers p s = main_handler s -> s <> SIGUSR1 -> s <> SIGKILL ->
  match pr_pid_file p with Some f => no_nul f | None => True end ->
  exists p' before after, on_signal clients s p = Ok (Exited 1, p') /\
    pr_calls p' = pr_calls p ++ before ++ match pr_pid_file p with Some f => Os_unlink f :: after | None => [] end.
Proof.
  intros Hh Hu Hk Hf. unfold on_signal. erewrite proc_bind_ok by reflexivity. cbv beta. rewrite Hh.
  destruct (decide (s = SIGINT)) as [->|Hi].
  - destruct (die_exits (A:=unit) p Hf) as (p' & after & Hrun & Hcalls). by exists p', [], after.
  - assert (main_handler s = Exception) as -> by (by destruct s). unfold exception_signal_handler.
    do 2 (erewrite proc_bind_ok by reflexivity). set (q := _ <| pr_calls := _ |>).
    destruct (die_exits (A:=unit) q) as (p' & after & Hrun & Hcalls); [by destruct p|].
    exists p', [Os_backtrace; Os_stderr (lit "Error: signal "%str ++ dec (sig_number s) ++ lit ":"%str ++ [10])], after.
    split; [exact Hrun|]. rewrite Hcalls. subst q. destruct p. cbn. by rewrite <- !app_assoc.
Qed.
End facts.

Lemma length_digits fuel n : (length (digits fuel n) <= fuel)%nat.
Proof.
  revert n. induction fuel as [|fuel IH]; intros n; cbn; [lia|].
  destruct (n <? 10); cbn; [lia|]. rewrite length_app. cbn. specialize (IH (n / 10)). lia.
Qed.

Lemma zlen_pid_line n : 0 < zlen (dec n ++ [10]) < sizeof_pid - 1.
Proof.
  unfold dec, sizeof_pid, zlen. pose proof (length_digits 20 n). pose proof (length_digits 20 (- n)).
  destruct (n <? 0); cbn [app length]; rewrite length_app; cbn [length]; lia.
Qed.

Section setup.
Context `{Os} `{LibConfig} (f : list Z).

(** The file system lets the pid file be written. *)
Record writable : Prop := {
  wr_open calls : 0 <= os_reply calls (Os_open (Some f));
  wr_write calls fd data : os_reply calls (Os_write fd data) = zlen data;
  wr_close calls fd : 0 <= os_reply calls (Os_close fd)
}.

(** The calls that write the process number to [f]. *)
Definition pid_written (calls : list os_call) : list os_call :=
  let fd := os_reply calls (Os_open (Some f)) in
  let pid := os_reply (calls ++ [Os_open (Some f)]) Os_getpid in
  [Os_open (Some f); Os_getpid; Os_write fd (dec pid ++ [10]); Os_close fd].

Lemma write_pid_ok p :
  writable -> write_pid (Some f) p = Ok (Returned tt, p <| pr_calls := pr_calls p ++ pid_written (pr_calls p) |>).
Proof.
  intros [Ho Hw Hc]. unfold write_pid. erewrite proc_bind_ok by reflexivity. cbv beta.
  pose proof (Ho (pr_calls p)) as Hfd. destruct (Z.ltb_spec (os_reply (pr_calls p) (Os_open (Some f))) 0) as [|_]; [lia|].
  erewrite proc_bind_ok by reflexivity. cbv beta zeta. set (pid := os_reply _ Os_getpid).
  pose proof (zlen_pid_line pid). destruct (Z.leb_spec (sizeof_pid - 1) (zlen (dec pid ++ [10]))) as [|_]; [lia|].
  erewrite proc_bind_ok by reflexivity. cbv beta. rewrite Hw, u64_small by (unfold sizeof_pid in *; lia).
  rewrite Z.eqb_refl. cbn [negb]. erewrite proc_bind_ok by reflexivity. cbv beta.
  match goal with |- context [os_reply ?l (Os_close ?fd) <? 0] =>
    pose proof (Hc l fd); destruct (Z.ltb_spec (os_reply l (Os_close fd)) 0) as [|_]; [lia|] end.
  unfold pid_written. destruct p. cbn. by rewrite <- !app_assoc.
Qed.

Lemma config_file_log_ok config_file p c log_file level log_time :
  config_read_file config_file = true ->
  fb_config_file (pr_config p) config_file = Ok (c, (log_file, level, log_time)) ->
  config_file_log config_file p =
    Ok (Returned tt, p <| pr_config := c |> <| pr_log := log_init os_can_open (Some log_file) level log_time (pr_log p) |>).
Proof.
  intros Hr Hf. unfold config_file_log. rewrite Hr. cbn [negb]. erewrite proc_bind_ok by reflexivity. cbv beta.
  erewrite proc_bind_ok by (unfold lift; rewrite Hf; reflexivity). reflexivity.
Qed.

(** [main_config] is what [main_setup] does with the configuration. *)
Lemma main_config_file config_file c lg :
  main_config config_file = Ok (c, lg) ->
  exists c0, fb_config_init config_zero = Ok c0 /\ cf_num_servers c0 = 1 /\
    config_read_file config_file = true /\ fb_config_file c0 config_file = Ok (c, lg).
Proof.
  intros Hm. unfold main_config in Hm.
  change (fb_config_init config_zero) with (Ok (mk_config 0 None None (lit "fb-broker"%str) 2 1
    (mk_server 1883 0 0 0 0 :: replicate 3 (mk_server 0 0 0 0 0)))) in *.
  rewrite bind_ok in Hm. eexists. split; [reflexivity|]. split; [reflexivity|].
  cbn [cf_num_servers Z.eqb] in Hm. split; [|exact Hm]. unfold fb_config_file in Hm. by destruct (config_read_file _).
Qed.

Lemma main_setup_ok name time opts c log_file level log_time :
  known_options opts -> last_arg 112 opts = Some f -> 116 ∉ opts.*1 -> writable ->
  main_config (default (lit "broker.cfg"%str) (last_arg 99 opts)) = Ok (c, (log_file, level, log_time)) ->
  exists hs, main_setup time opts (process_start name) =
      Ok (Returned c, mk_process name 0 (Some f) hs c (log_init os_can_open (Some log_file) level log_time log_zero)
                        (pid_written [])) /\
    forall s, s <> SIGUSR1 -> s <> SIGKILL -> hs s = main_handler s.
Proof.
  intros Hopts Hf Ht Hw Hc. destruct (main_signals_ok (process_start name)) as (hs & Hsig & Hhs). exists hs. split; [|done].
  destruct (main_config_file _ _ _ Hc) as (c0 & Hi & Hn & Hr & Hcf). unfold main_setup.
  erewrite proc_bind_ok by exact Hsig. erewrite proc_bind_ok by (unfold lift; rewrite Hi; reflexivity).
  erewrite proc_bind_ok by reflexivity. erewrite proc_bind_ok by (by apply main_options_ok). rewrite Hf.
  cbv beta. rewrite decide_False by done.
  erewrite proc_bind_ok by reflexivity. cbn [pr_config upd eta process_start].
  match goal with |- context [if ?b then _ else ?q] => change b with (cf_num_servers c0 =? 0) end.
  rewrite Hn. change (1 =? 0) with false. cbv iota.
  erewrite proc_bind_ok by (apply config_file_log_ok; [done|exact Hcf]). erewrite proc_bind_ok by reflexivity.
  cbv beta. erewrite proc_bind_ok by (by apply write_pid_ok). erewrite proc_bind_ok by reflexivity. reflexivity.
Qed.
End setup.

(** C37.  The life of the process.  With a pid file and a configuration that can
    be read, the last -c and -p counting, [main] writes its number and a
    newline to the pid file and nothing anywhere else, opens the log, and goes
    on with the configuration of the file.  From then on every signal that has
    a handler, SIGPIPE and SIGSEGV among them, ends the process with status 1
    after the pid file has been removed. *)
Theorem pid_file_written_and_removed `{Os} `{LibConfig} name time opts f c log_file level log_time :
  known_options opts -> last_arg 112 opts = Some f -> no_nul f -> 116 ∉ opts.*1 -> writable f ->
  main_config (default (lit "broker.cfg"%str) (last_arg 99 opts)) = Ok (c, (log_file, level, log_time)) ->
  exists p, main_setup time opts (process_start name) = Ok (Returned c, p) /\
    pr_calls p = [Os_open (Some f); Os_getpid;
                  Os_write (os_reply [] (Os_open (Some f))) (dec (os_reply [Os_open (Some f)] Os_getpid) ++ [10]);
                  Os_close (os_reply [] (Os_open (Some f)))] /\
    pr_log p = log_init os_can_open (Some log_file) level log_time log_zero /\
    forall clients s, s <> SIGUSR1 -> s <> SIGKILL ->
      exists p' before after, on_signal clients s p = Ok (Exited 1, p') /\
        pr_calls p' = pr_calls p ++ before ++ Os_unlink f :: after.
Proof.
  intros Hopts Hf Hn Ht Hw Hc. destruct (main_setup_ok f name time opts c log_file level log_time) as (hs & Hrun & Hhs);
    [done..|]. eexists. split; [exact Hrun|]. split; [reflexivity|]. split; [reflexivity|]. intros clients s Hu Hk.
  match type of Hrun with _ = Ok (_, ?q) => destruct (on_signal_exits clients s q) as (p' & before & after & Hs & Hcalls) end;
    [by apply Hhs|done..|]. by exists p', before, after.
Qed.

(** [-c my.cfg -p first -p broker.pid], process 4711. *)
Definition demo_os : Os := {|
  os_reply _ c := match c with Os_open _ => 3 | Os_getpid => 4711 | Os_write _ data => zlen data | _ => 0 end;
  os_time _ := 1700000000;
  os_can_open _ := true;
  show_ptr _ := lit "0x1"%str;
  show_null := None;
  config_error := ([], 0, [])
|}.

Definition demo_opts : list (Z * list Z) :=
  [(99, lit "my.cfg"%str); (112, lit "first"%str); (112, lit "broker.pid"%str)].

Lemma pid_file_written_and_removed_witness :
  exists c p, @main_setup demo_os demo_config (fun _ => 0) demo_opts (process_start (lit "fb-broker"%str)) = Ok (Returned c, p) /\
    pr_calls p = [Os_open (Some (lit "broker.pid"%str)); Os_getpid; Os_write 3 (lit "4711"%str ++ [10]); Os_close 3] /\
    pr_log p = log_init (fun _ => true) (Some (lit "broker.log"%str)) LOG_INFO 1 log_zero /\
    forall clients s, s <> SIGUSR1 -> s <> SIGKILL ->
      exists p' before after, @on_signal demo_os clients s p = Ok (Exited 1, p') /\
        pr_calls p' = pr_calls p ++ before ++ Os_unlink (lit "broker.pid"%str) :: after.
Proof.
  eexists. apply (@pid_file_written_and_removed demo_os demo_config).
  - repeat constructor; cbn; lia.
  - reflexivity.
  - repeat constructor; done.
  - cbn. set_solver.
  - by constructor.
  - reflexivity.
Defined.

(** An option that is not known: the pid file of -p, which may be that of a
    broker that is running, is removed without having been written. *)
Lemma unknown_option_removes_pid_file `{Os} `{LibConfig} name time opts o a rest f :
  known_options opts -> o <> 99 -> o <> 112 -> o <> 116 -> last_arg 112 opts = Some f -> no_nul f ->
  exists p after, main_setup time (opts ++ (o, a) :: rest) (process_start name) = Ok (Exited 1, p) /\
    pr_calls p = Os_stderr (lit "usage: "%str ++ name ++ lit " [-c config-file] [-p pid-file] [-t]"%str ++ [10]) ::
                 Os_unlink f :: after.
Proof.
  intros Hopts H1 H2 H3 Hf Hn. destruct (main_signals_ok (process_start name)) as (hs & Hsig & _).
  assert (forall opts cf p, known_options opts -> main_options (opts ++ (o, a) :: rest) cf p =
    (cf' ← main_options opts cf; _ ← usage; main_options rest cf') p) as Happ.
  { clear -H1 H2 H3. induction opts as [|[o' a'] opts IH]; intros cf p Ho.
    - cbn [app main_options]. destruct (Z.eqb_spec o 99), (Z.eqb_spec o 116), (Z.eqb_spec o 112); done || lia.
    - apply Forall_cons in Ho as [Ho Hos]. cbn [app main_options fst] in Ho |- *.
      destruct Ho as [->|[->| ->]]; cbn [Z.eqb Pos.eqb]; exact (IH _ _ Hos). }
  set (p1 := (process_start name) <| pr_handlers := hs |>) in *.
  set (p2 := p1 <| pr_config := mk_config 0 None None (lit "fb-broker"%str) 2 1
    (mk_server 1883 0 0 0 0 :: replicate 3 (mk_server 0 0 0 0 0)) |>).
  pose proof (main_options_ok opts (lit "broker.cfg"%str) p2 Hopts) as Hrun. rewrite Hf in Hrun.
  match type of Hrun with _ = Ok (_, ?q) => set (p3 := q) in * end.
  set (p4 := p3 <| pr_calls := [Os_stderr (lit "usage: "%str ++ name ++ lit " [-c config-file] [-p pid-file] [-t]"%str ++ [10])] |>).
  destruct (die_exits (A:=unit) p4) as (p & after & Hdie & Hcalls); [done|]. exists p, after. split; [|exact Hcalls].
  unfold main_setup. erewrite proc_bind_ok by exact Hsig. erewrite (proc_bind_ok _ _ _ _ p1) by reflexivity.
  erewrite (proc_bind_ok _ _ _ _ p2) by reflexivity. erewrite proc_bind_exit; [reflexivity|].
  rewrite Happ by done. erewrite proc_bind_ok by exact Hrun. erewrite proc_bind_exit; [reflexivity|].
  unfold usage. erewrite (proc_bind_ok _ _ _ name p3) by reflexivity. erewrite (proc_bind_ok _ _ _ _ p4) by reflexivity.
  exact Hdie.
Qed.

(** Without -p the name of the pid file is NULL: open fails, and the message
    that says so prints a NULL pointer as a string. *)
Lemma no_pid_file_prints_null `{Os} p :
  show_null = None -> os_reply (pr_calls p) (Os_open None) < 0 -> write_pid None p = Undef BadArgument.
Proof.
  intros Hn Ho. unfold write_pid. erewrite proc_bind_ok by reflexivity. cbv beta.
  destruct (Z.ltb_spec (os_reply (pr_calls p) (Os_open None)) 0); [|lia].
  unfold mbind, proc_bind, lift, str_arg. by rewrite Hn.
Qed.
