(* ===== verification/Kavl.v ===== *)
(** * AVL trees (src/kavl.h)

    The macros of kavl.h make, for a structure with an embedded [KAVL_HEAD],
    the functions of a balanced tree whose nodes are linked by pointers.  A
    heap maps the address of a node to its head; the rest of the node is seen
    through the comparison [cmp] only, which the macros never change, so that
    [cmp] is a function of two addresses.  [which], [dir] and the entries of
    [stack] are 0 or 1 in the source, a [bool] here; an entry of a local array
    that has not been written is [None] and reading it is [Undef]. *)

From S2P Require Import Prelude.

Definition KAVL_MAX_DEPTH : Z := 64.

(** Conversion to [signed char]. *)
Definition i8 (z : Z) : Z := (z + 128) mod 256 - 128.

Record kavl_head := mk_head {
  hd_p0 : option Z;
  hd_p1 : option Z;
  hd_balance : Z;
  hd_size : Z
}.
#[export] Instance eta_kavl_head : Eta kavl_head := fun n =>
  mk_head (hd_p0 n) (hd_p1 n) (hd_balance n) (hd_size n).

Abbreviation kavl_heap := (gmap Z kavl_head).

(** ** Access to nodes and to the local arrays *)

Definition hd_p (n : kavl_head) (d : bool) : option Z := if d then hd_p1 n else hd_p0 n.

Definition set_child (d : bool) (v : option Z) (n : kavl_head) : kavl_head :=
  if d then n <| hd_p1 := v |> else n <| hd_p0 := v |>.

Definition head_of (h : kavl_heap) (a : Z) : outcome kavl_head :=
  match h !! a with
  | Some n => Ok n
  | None => Undef UseAfterFree
  end.

Definition deref (p : option Z) : outcome Z :=
  match p with
  | Some a => Ok a
  | None => Undef NullDeref
  end.

Definition change_head (h : kavl_heap) (a : Z) (f : kavl_head -> kavl_head) : outcome kavl_heap :=
  n ← head_of h a; mret (<[a := f n]> h).

Definition store_p (h : kavl_heap) (a : Z) (d : bool) (v : option Z) := change_head h a (set_child d v).
Definition store_balance (h : kavl_heap) (a v : Z) := change_head h a (fun n => n <| hd_balance := i8 v |>).
Definition store_size (h : kavl_heap) (a v : Z) := change_head h a (fun n => n <| hd_size := u32 v |>).

Definition read_local {A} (l : list (option A)) (i : Z) : outcome A :=
  x ← arr_get l i;
  match x with
  | Some v => Ok v
  | None => Undef Uninitialised
  end.

Definition fresh_array {A} : list (option A) := replicate (Z.to_nat KAVL_MAX_DEPTH) None.

Definition kavl_size (h : kavl_heap) (p : option Z) : outcome Z :=
  match p with
  | Some a => n ← head_of h a; mret (hd_size n)
  | None => mret 0
  end.

Definition kavl_size_child (h : kavl_heap) (q : Z) (d : bool) : outcome Z :=
  n ← head_of h q; kavl_size h (hd_p n d).

(** [dir == 0? +1 : -1] *)
Definition dir_sign (d : bool) : Z := if d then -1 else 1.

(** ** Rotations *)

(** One rotation: (a,(b,c)q)p => ((a,b)p,c)q. *)
Definition kavl_rotate1 (h : kavl_heap) (p : Z) (dir : bool) : outcome (kavl_heap * Z) :=
  let opp := negb dir in
  np ← head_of h p;
  q ← deref (hd_p np opp);
  let size_p := hd_size np in
  nq ← head_of h q;
  s ← kavl_size_child h q dir;
  h ← store_size h p (size_p - (hd_size nq - s));
  h ← store_size h q size_p;
  nq ← head_of h q;
  h ← store_p h p opp (hd_p nq dir);
  h ← store_p h q dir (Some p);
  mret (h, q).

(** Two consecutive rotations: (a,((b,c)r,d)q)p => ((a,b)p,(c,d)q)r. *)
Definition kavl_rotate2 (h : kavl_heap) (p : Z) (dir : bool) : outcome (kavl_heap * Z) :=
  let opp := negb dir in
  np ← head_of h p;
  q ← deref (hd_p np opp);
  nq ← head_of h q;
  r ← deref (hd_p nq dir);
  size_x_dir ← kavl_size_child h r dir;
  h ← store_size h r (hd_size np);
  h ← store_size h p (hd_size np - (hd_size nq - size_x_dir));
  h ← store_size h q (hd_size nq - (size_x_dir + 1));
  nr ← head_of h r;
  h ← store_p h p opp (hd_p nr dir);
  h ← store_p h r dir (Some p);
  nr ← head_of h r;
  h ← store_p h q dir (hd_p nr opp);
  h ← store_p h r opp (Some q);
  let b1 := dir_sign dir in
  nr ← head_of h r;
  h ← (if hd_balance nr =? b1 then h ← store_balance h q 0; store_balance h p (- b1)
       else if hd_balance nr =? 0 then h ← store_balance h p 0; store_balance h q 0
       else h ← store_balance h q b1; store_balance h p 0);
  h ← store_balance h r 0;
  mret (h, r).

(** [path[i]->size += delta] for [n] entries of [path], from [i] on. *)
Fixpoint bump_sizes (delta : Z) (n : nat) (h : kavl_heap) (path : list (option Z)) (i : Z) : outcome kavl_heap :=
  match n with
  | O => mret h
  | S n =>
      a ← read_local path i;
      k ← head_of h a;
      h ← store_size h a (hd_size k + delta);
      bump_sizes delta n h path (i + 1)
  end.

(** [for (...; i < ...; ++i) ++path[i]->size], and [--path[i]->size] *)
Definition grow_sizes := bump_sizes 1.
Definition shrink_sizes := bump_sizes (-1).

Section kavl.
(** [__cmp(x, p)] *)
Context (cmp : Z -> Z -> Z).

(** ** Search *)

(** [if (cmp >= 0) cnt += kavl_size_child(p, 0) + 1] *)
Definition add_left (h : kavl_heap) (c : Z) (p : Z) (cnt : Z) : outcome Z :=
  if 0 <=? c then s ← kavl_size_child h p false; mret (u32 (cnt + (s + 1))) else mret cnt.

Fixpoint find_loop (fuel : nat) (h : kavl_heap) (p : option Z) (x cnt : Z) : outcome (option Z * Z) :=
  match p with
  | None => mret (None, cnt)
  | Some a =>
      match fuel with
      | O => Spin
      | S fuel =>
          let c := cmp x a in
          cnt ← add_left h c a cnt;
          n ← head_of h a;
          if c <? 0 then find_loop fuel h (hd_p n false) x cnt
          else if 0 <? c then find_loop fuel h (hd_p n true) x cnt
          else mret (Some a, cnt)
      end
  end.

(** The node found, and what is stored in [*cnt_]. *)
Definition kavl_find (h : kavl_heap) (root : option Z) (x : Z) : outcome (option Z * Z) :=
  find_loop (size h) h root x 0.

(** ** Insertion *)

(** The local variables of [kavl_insert] while it looks for the place. *)
Record ins_state := mk_ins {
  in_bp : option Z;
  in_bq : option Z;
  in_p : option Z;
  in_q : option Z;
  in_which : bool;
  in_top : Z;
  in_stack : list (option bool);
  in_path_len : Z;
  in_path : list (option Z);
  in_cnt : Z
}.

Definition ins_start (root : option Z) : ins_state :=
  mk_ins root None root None false 0 fresh_array 0 fresh_array 0.

(** The state at the end, and the equal node when there is one. *)
Fixpoint ins_search (fuel : nat) (h : kavl_heap) (x : Z) (s : ins_state) : outcome (ins_state * option Z) :=
  match in_p s with
  | None => mret (s, None)
  | Some p =>
      match fuel with
      | O => Spin
      | S fuel =>
          let c := cmp x p in
          cnt ← add_left h c p (in_cnt s);
          if c =? 0 then
            mret (mk_ins (in_bp s) (in_bq s) (Some p) (in_q s) (in_which s) (in_top s) (in_stack s)
                    (in_path_len s) (in_path s) cnt, Some p)
          else
            n ← head_of h p;
            let '(bp, bq, top) :=
              if negb (hd_balance n =? 0) then (Some p, in_q s, 0) else (in_bp s, in_bq s, in_top s) in
            let which := 0 <? c in
            stack ← arr_set (in_stack s) top (Some which);
            path ← arr_set (in_path s) (in_path_len s) (Some p);
            ins_search fuel h x
              (mk_ins bp bq (hd_p n which) (Some p) which (top + 1) stack (in_path_len s + 1) path cnt)
      end
  end.

(** The loop that updates the balance factors from [bp] down to [x]. *)
Fixpoint ins_balance (fuel : nat) (h : kavl_heap) (stack : list (option bool)) (p : option Z) (x top : Z)
  : outcome kavl_heap :=
  if bool_decide (p = Some x) then mret h
  else
    match fuel with
    | O => Spin
    | S fuel =>
        d ← read_local stack top;
        a ← deref p;
        n ← head_of h a;
        h ← store_balance h a (hd_balance n + (if (d : bool) then 1 else -1));
        ins_balance fuel h stack (hd_p n d) x (top + 1)
    end.

(** The rotations at [bp], and the link to the new root of this subtree. *)
Definition ins_rebalance (h : kavl_heap) (root bq : option Z) (bp : Z) : outcome (kavl_heap * option Z) :=
  nb ← head_of h bp;
  let which := hd_balance nb <? 0 in
  let b1 := dir_sign which in
  q ← deref (hd_p nb (negb which));
  nq ← head_of h q;
  '(h, r) ← (if hd_balance nq =? b1 then
               '(h, r) ← kavl_rotate1 h bp which;
               h ← store_balance h bp 0;
               h ← store_balance h q 0;
               mret (h, r)
             else kavl_rotate2 h bp which);
  match bq with
  | None => mret (h, Some r)
  | Some bq =>
      nbq ← head_of h bq;
      h ← store_p h bq (negb (bool_decide (Some bp = hd_p nbq false))) (Some r);
      mret (h, root)
  end.

(** The heap, [*root_], the result and [*cnt_]. *)
Definition kavl_insert (h : kavl_heap) (root : option Z) (x : Z)
  : outcome (kavl_heap * option Z * Z * Z) :=
  '(s, found) ← ins_search (size h) h x (ins_start root);
  match found with
  | Some p => mret (h, root, p, in_cnt s)
  | None =>
      h ← store_balance h x 0;
      h ← store_size h x 1;
      h ← store_p h x true None;
      h ← store_p h x false None;
      '(h, root) ← match in_q s with
                   | None => mret (h, Some x)
                   | Some q => h ← store_p h q (in_which s) (Some x); mret (h, root)
                   end;
      match in_bp s with
      | None => mret (h, root, x, in_cnt s)
      | Some bp =>
          h ← grow_sizes (Z.to_nat (in_path_len s)) h (in_path s) 0;
          h ← ins_balance (size h) h (in_stack s) (Some bp) x 0;
          nb ← head_of h bp;
          if (-2 <? hd_balance nb) && (hd_balance nb <? 2) then mret (h, root, x, in_cnt s)
          else
            '(h, root) ← ins_rebalance h root (in_bq s) bp;
            mret (h, root, x, in_cnt s)
      end
  end.

(** ** Deletion *)

(** [path], [dir] and [d]: the way from [fake] to the node deleted. *)
Record way := mk_way {
  wy_path : list (option Z);
  wy_dir : list (option bool);
  wy_d : Z
}.

(** [dir[d] = which; path[d++] = p] *)
Definition way_push (w : way) (p : Z) (which : bool) : outcome way :=
  dir ← arr_set (wy_dir w) (wy_d w) (Some which);
  path ← arr_set (wy_path w) (wy_d w) (Some p);
  mret (mk_way path dir (wy_d w + 1)).

(** [path[i]->p[dir[i]] = v] *)
Definition store_way (h : kavl_heap) (w : way) (i : Z) (v : option Z) : outcome kavl_heap :=
  a ← read_local (wy_path w) i;
  d ← read_local (wy_dir w) i;
  store_p h a d v.

(** [None] when no node is equal to [x]. *)
Fixpoint erase_find (fuel : nat) (h : kavl_heap) (x p c : Z) (w : way) (cnt : Z)
  : outcome (option (Z * way * Z)) :=
  if c =? 0 then mret (Some (p, w, cnt))
  else
    match fuel with
    | O => Spin
    | S fuel =>
        let which := 0 <? c in
        cnt ← (if 0 <? c then s ← kavl_size_child h p false; mret (u32 (cnt + (s + 1))) else mret cnt);
        w ← way_push w p which;
        n ← head_of h p;
        match hd_p n which with
        | None => mret None
        | Some a => erase_find fuel h x a (cmp x a) w cnt
        end
    end.

(** [for (p = &fake; p; p = p->p[0]) dir[d] = 0, path[d++] = p] *)
Fixpoint way_left (fuel : nat) (h : kavl_heap) (p : option Z) (w : way) : outcome way :=
  match p with
  | None => mret w
  | Some a =>
      match fuel with
      | O => Spin
      | S fuel =>
          w ← way_push w a false;
          n ← head_of h a;
          way_left fuel h (hd_p n false) w
      end
  end.

(** The [for (;;)]: [q] ends as the parent of the leftmost node [r]. *)
Fixpoint erase_succ (fuel : nat) (h : kavl_heap) (q : Z) (w : way) : outcome (Z * Z * way) :=
  match fuel with
  | O => Spin
  | S fuel =>
      w ← way_push w q false;
      n ← head_of h q;
      r ← deref (hd_p n false);
      nr ← head_of h r;
      match hd_p nr false with
      | None => mret (q, r, w)
      | Some _ => erase_succ fuel h r w
      end
  end.

(** Take [p] out of the tree: the new heap, and the way to where the tree
    has become lower. *)
Definition erase_unlink (h : kavl_heap) (p : Z) (w : way) : outcome (kavl_heap * way) :=
  np ← head_of h p;
  match hd_p np true with
  | None =>
      h ← store_way h w (wy_d w - 1) (hd_p np false);
      mret (h, w)
  | Some q =>
      nq ← head_of h q;
      match hd_p nq false with
      | None =>
          h ← store_p h q false (hd_p np false);
          h ← store_balance h q (hd_balance np);
          h ← store_way h w (wy_d w - 1) (Some q);
          w ← way_push w q true;
          h ← store_size h q (hd_size np - 1);
          mret (h, w)
      | Some _ =>
          let e := wy_d w in
          '(q, r, w) ← erase_succ (size h) h q (mk_way (wy_path w) (wy_dir w) (e + 1));
          nr ← head_of h r;
          h ← store_p h r false (hd_p np false);
          h ← store_p h q false (hd_p nr true);
          h ← store_p h r true (hd_p np true);
          h ← store_balance h r (hd_balance np);
          h ← store_way h w (e - 1) (Some r);
          path ← arr_set (wy_path w) e (Some r);
          dir ← arr_set (wy_dir w) e (Some true);
          h ← shrink_sizes (Z.to_nat (wy_d w - (e + 1))) h path (e + 1);
          h ← store_size h r (hd_size np - 1);
          mret (h, mk_way path dir (wy_d w))
      end
  end.

(** [while (--d > 0)]; [d] is its value before the test. *)
Fixpoint erase_rebalance (d : nat) (h : kavl_heap) (w : way) : outcome kavl_heap :=
  match d with
  | O | S O => mret h
  | S d' =>
      let i := Z.of_nat d' in
      q ← read_local (wy_path w) i;
      which ← read_local (wy_dir w) i;
      let b1 := if (which : bool) then -1 else 1 in
      let b2 := if (which : bool) then -2 else 2 in
      nq ← head_of h q;
      h ← store_balance h q (hd_balance nq + b1);
      nq ← head_of h q;
      if hd_balance nq =? b1 then mret h
      else if hd_balance nq =? b2 then
        r ← deref (hd_p nq (negb which));
        nr ← head_of h r;
        if hd_balance nr =? - b1 then
          '(h, t) ← kavl_rotate2 h q which;
          h ← store_way h w (i - 1) (Some t);
          erase_rebalance d' h w
        else
          '(h, t) ← kavl_rotate1 h q which;
          h ← store_way h w (i - 1) (Some t);
          nr ← head_of h r;
          if hd_balance nr =? 0 then
            h ← store_balance h r (- b1);
            store_balance h q b1
          else
            h ← store_balance h q 0;
            h ← store_balance h r 0;
            erase_rebalance d' h w
      else erase_rebalance d' h w
  end.

(** [fake] is the address of the local node, whose [balance], [size] and data
    are never read.  The heap, [*root_], the result and [*cnt_]. *)
Definition kavl_erase (fake : Z) (h : kavl_heap) (root : option Z) (x : option Z)
  : outcome (kavl_heap * option Z * option Z * Z) :=
  let h' := <[fake := mk_head root None 0 0]> h in
  let w := mk_way fresh_array fresh_array 0 in
  found ← match x return outcome (option (Z * way * Z)) with
          | Some x =>
              found ← erase_find (size h') h' x fake (-1) w 0;
              match found with
              | None => mret None
              | Some (p, w, cnt) =>
                  s ← kavl_size_child h' p false;
                  mret (Some (p, w, u32 (cnt + (s + 1))))
              end
          | None =>
              w ← way_left (size h') h' (Some fake) w;
              p ← read_local (wy_path w) (wy_d w - 1);
              mret (Some (p, mk_way (wy_path w) (wy_dir w) (wy_d w - 1), 1))
          end;
  match found with
  | None => mret (h, root, None, 0)
  | Some (p, w, cnt) =>
      h ← shrink_sizes (Z.to_nat (wy_d w - 1)) h' (wy_path w) 1;
      '(h, w) ← erase_unlink h p w;
      h ← erase_rebalance (Z.to_nat (wy_d w)) h w;
      nf ← head_of h fake;
      mret (delete fake h, hd_p nf false, Some p, cnt)
  end.

(** [kavl_erase_first(proot)] *)
Definition kavl_erase_first (fake : Z) (h : kavl_heap) (root : option Z) := kavl_erase fake h root None.

(** ** Freeing a tree *)

(** A node is freed when it is the smallest; else the tree is turned right. *)
Fixpoint free_loop (fuel : nat) (h : kavl_heap) (p : option Z) : outcome kavl_heap :=
  match p with
  | None => mret h
  | Some a =>
      match fuel with
      | O => Spin
      | S fuel =>
          n ← head_of h a;
          match hd_p n false with
          | None => free_loop fuel (delete a h) (hd_p n true)
          | Some q =>
              nq ← head_of h q;
              h ← store_p h a false (hd_p nq true);
              h ← store_p h q true (Some a);
              free_loop fuel h (Some q)
          end
      end
  end.

Definition kavl_free (h : kavl_heap) (root : option Z) : outcome kavl_heap :=
  free_loop (2 * size h) h root.

(** ** Iterators *)

(** [top] is an index into [stack], -1 for [stack - 1]. *)
Record kavl_itr := mk_itr {
  it_stack : list (option Z);
  it_top : Z;
  it_right : option Z
}.

(** [*++itr->top = p] *)
Definition itr_push (it : kavl_itr) (p : Z) : outcome kavl_itr :=
  stack ← arr_set (it_stack it) (it_top it + 1) (Some p);
  mret (mk_itr stack (it_top it + 1) (it_right it)).

(** [for (; p; p = p->p[0]) *++itr->top = p] *)
Fixpoint itr_left (fuel : nat) (h : kavl_heap) (p : option Z) (it : kavl_itr) : outcome kavl_itr :=
  match p with
  | None => mret it
  | Some a =>
      match fuel with
      | O => Spin
      | S fuel =>
          it ← itr_push it a;
          n ← head_of h a;
          itr_left fuel h (hd_p n false) it
      end
  end.

(** [itr->right = ( *itr->top)->p[1]] *)
Definition itr_set_right (h : kavl_heap) (it : kavl_itr) : outcome kavl_itr :=
  a ← read_local (it_stack it) (it_top it);
  n ← head_of h a;
  mret (mk_itr (it_stack it) (it_top it) (hd_p n true)).

Definition kavl_itr_first (h : kavl_heap) (root : option Z) (it : kavl_itr) : outcome kavl_itr :=
  it ← itr_left (size h) h root (mk_itr (it_stack it) (-1) (it_right it));
  itr_set_right h it.

Fixpoint itr_find_loop (fuel : nat) (h : kavl_heap) (p : option Z) (x : Z) (it : kavl_itr)
  : outcome (kavl_itr * option Z) :=
  match p with
  | None => mret (it, None)
  | Some a =>
      match fuel with
      | O => Spin
      | S fuel =>
          let c := cmp x a in
          n ← head_of h a;
          if c <? 0 then
            it ← itr_push it a;
            itr_find_loop fuel h (hd_p n false) x it
          else if 0 <? c then itr_find_loop fuel h (hd_p n true) x it
          else mret (it, Some a)
      end
  end.

Definition kavl_itr_find (h : kavl_heap) (root : option Z) (x : Z) (it : kavl_itr) : outcome (kavl_itr * Z) :=
  '(it, p) ← itr_find_loop (size h) h root x (mk_itr (it_stack it) (-1) (it_right it));
  match p with
  | Some a =>
      it ← itr_push it a;
      n ← head_of h a;
      mret (mk_itr (it_stack it) (it_top it) (hd_p n true), 1)
  | None =>
      if 0 <=? it_top it then it ← itr_set_right h it; mret (it, 0)
      else mret (it, 0)
  end.

Definition kavl_itr_next (h : kavl_heap) (it : kavl_itr) : outcome (kavl_itr * Z) :=
  it ← itr_left (size h) h (it_right it) (mk_itr (it_stack it) (it_top it - 1) (it_right it));
  if it_top it <? 0 then mret (it, 0)
  else it ← itr_set_right h it; mret (it, 1).

Definition kavl_at (it : kavl_itr) : outcome (option Z) :=
  if it_top it <? 0 then mret None
  else a ← read_local (it_stack it) (it_top it); mret (Some a).

End kavl.

(** ** The example of kavl.h: inserting the letters of a string *)

Section example.
Context (keys : list Z).

Definition letter (a : Z) : Z := default 0 (keys !! Z.to_nat a).

(** [my_cmp] *)
Definition my_cmp (p q : Z) : Z := c_bool (letter q <? letter p) - c_bool (letter p <? letter q).

(** [p = malloc(sizeof( *p)); q = kavl_insert(my, &root, p, 0); if (p != q) free(p)] *)
Fixpoint insert_letters (h : kavl_heap) (root : option Z) (todo : list Z) : outcome (kavl_heap * option Z) :=
  match todo with
  | [] => mret (h, root)
  | p :: todo =>
      '(h, root, q, _) ← kavl_insert my_cmp (<[p := mk_head None None 0 0]> h) root p;
      insert_letters (if p =? q then h else delete p h) root todo
  end.

(** [do { p = kavl_at(&itr); putchar(p->key); free(p); } while
    (kavl_itr_next(my, &itr))]: the nodes in the order of the walk. *)
Fixpoint walk_free (fuel : nat) (h : kavl_heap) (it : kavl_itr) : outcome (kavl_heap * list Z) :=
  match fuel with
  | O => Spin
  | S fuel =>
      p ← kavl_at it;
      a ← deref p;
      _ ← head_of h a;
      let h := delete a h in
      '(it, more) ← kavl_itr_next h it;
      if truthy more then '(h, l) ← walk_free fuel h it; mret (h, a :: l) else mret (h, [a])
  end.

(** The heap at the end of [main], and what it has printed. *)
Definition print_sorted : outcome (kavl_heap * list Z) :=
  '(h, root) ← insert_letters ∅ None (seqZ 0 (zlen keys));
  it ← kavl_itr_first h root (mk_itr fresh_array (-1) None);
  '(h, l) ← walk_free (S (length keys)) h it;
  mret (h, map letter l).

Fixpoint erase_letters (n : nat) (h : kavl_heap) (root : option Z) : outcome (list (option Z)) :=
  match n with
  | O => mret []
  | S n =>
      '(h, root, p, _) ← kavl_erase_first my_cmp (-1) h root;
      l ← erase_letters n h root;
      mret (option_map letter p :: l)
  end.

Definition erase_all (n : nat) : outcome (list (option Z)) :=
  '(h, root) ← insert_letters ∅ None (seqZ 0 (zlen keys));
  erase_letters n h root.

End example.

(** "MNOLKQOPHIA" comes out as "AHIKLMNOPQ", and nothing is left. *)
Example letters_sorted :
  print_sorted [77; 78; 79; 76; 75; 81; 79; 80; 72; 73; 65] = Ok (∅, [65; 72; 73; 75; 76; 77; 78; 79; 80; 81]).
Proof. vm_compute. reflexivity. Qed.

Example letters_erased :
  erase_all [77; 78; 79; 76; 75; 81; 79; 80; 72; 73; 65] 10 =
  Ok (Some <$> [65; 72; 73; 75; 76; 77; 78; 79; 80; 81]).
Proof. vm_compute. reflexivity. Qed.
