(* ===== verification/KavlTree.v ===== *)
(** * Trees in the heap of kavl.h, and the rotations

    [tree] is the shape of a tree with what the nodes store; [tree_at h t]:
    the nodes of [t] are in [h].  A way from the root into a tree is a list of
    frames, outermost first ([plug]); [ctx_at] and [ctx_ok] are what remains
    of [tree_at] and [tree_ok] when the tree at the end of the way is left
    out.  [tree_ok]: the stored balance factors and sizes are those of the
    shape, and heights differ by one at most. *)

From S2P Require Import Prelude Kavl.

Inductive tree :=
  | Leaf
  | Node (l : tree) (a b n : Z) (r : tree).

Definition root (t : tree) : option Z :=
  match t with Leaf => None | Node _ a _ _ _ => Some a end.

Fixpoint elems (t : tree) : list Z :=
  match t with Leaf => [] | Node l a _ _ r => elems l ++ a :: elems r end.

Fixpoint height (t : tree) : Z :=
  match t with Leaf => 0 | Node l _ _ _ r => 1 + Z.max (height l) (height r) end.

Definition count (t : tree) : Z := zlen (elems t).

Fixpoint tree_at (h : kavl_heap) (t : tree) : Prop :=
  match t with
  | Leaf => True
  | Node l a b n r => h !! a = Some (mk_head (root l) (root r) b n) /\ tree_at h l /\ tree_at h r
  end.

Fixpoint tree_ok (t : tree) : Prop :=
  match t with
  | Leaf => True
  | Node l a b n r =>
      b = height r - height l /\ -1 <= b <= 1 /\ n = count l + count r + 1 /\ tree_ok l /\ tree_ok r
  end.

(** ** Nodes with a direction: [nd d t ... s] has [t] on the side [d] *)

Definition nd (d : bool) (t : tree) (a b n : Z) (s : tree) : tree :=
  if d then Node s a b n t else Node t a b n s.

Definition nd_head (d : bool) (t s : option Z) (b n : Z) : kavl_head :=
  if d then mk_head s t b n else mk_head t s b n.

(** The balance factor of a node by the heights of its sides. *)
Definition side_balance (d : bool) (ht hs : Z) : Z := if d then ht - hs else hs - ht.

Lemma root_nd d t a b n s : root (nd d t a b n s) = Some a.
Proof. by destruct d. Qed.

Lemma height_nd d t a b n s : height (nd d t a b n s) = 1 + Z.max (height t) (height s).
Proof. destruct d; cbn; lia. Qed.

Lemma count_node l a b n r : count (Node l a b n r) = count l + count r + 1.
Proof. unfold count. cbn. autorewrite with fb. lia. Qed.

Lemma count_nd d t a b n s : count (nd d t a b n s) = count t + count s + 1.
Proof. destruct d; cbn; rewrite count_node; lia. Qed.

Lemma count_leaf : count Leaf = 0.
Proof. done. Qed.

Lemma count_nonneg t : 0 <= count t.
Proof. apply zlen_nonneg. Qed.

Lemma height_nonneg t : 0 <= height t.
Proof. induction t; cbn; lia. Qed.

Lemma elems_nd d t a b n s x : x ∈ elems (nd d t a b n s) <-> x = a \/ x ∈ elems t \/ x ∈ elems s.
Proof. destruct d; cbn; set_solver. Qed.

Lemma NoDup_nd d t a b n s :
  NoDup (elems (nd d t a b n s)) <->
  a ∉ elems t /\ a ∉ elems s /\ NoDup (elems t) /\ NoDup (elems s) /\ (forall x, x ∈ elems t -> x ∉ elems s).
Proof.
  destruct d; cbn; rewrite NoDup_app, NoDup_cons; set_solver.
Qed.

Lemma tree_at_nd h d t a b n s :
  tree_at h (nd d t a b n s) <->
  h !! a = Some (nd_head d (root t) (root s) b n) /\ tree_at h t /\ tree_at h s.
Proof. destruct d; cbn; tauto. Qed.

Lemma tree_ok_nd d t a b n s :
  tree_ok (nd d t a b n s) <->
  b = side_balance d (height t) (height s) /\ -1 <= b <= 1 /\ n = count t + count s + 1 /\ tree_ok t /\ tree_ok s.
Proof. destruct d; cbn; intuition lia. Qed.

Lemma nd_eta d t : t = Leaf \/ exists l a b n r, t = nd d l a b n r.
Proof. destruct t as [|l a b n r]; [by left|right]. destruct d; [by exists r, a, b, n, l|by exists l, a, b, n, r]. Qed.

Lemma hd_p_same d t s b n : hd_p (nd_head d t s b n) d = t.
Proof. by destruct d. Qed.

Lemma hd_p_other d t s b n : hd_p (nd_head d t s b n) (negb d) = s.
Proof. by destruct d. Qed.

Lemma hd_balance_nd d t s b n : hd_balance (nd_head d t s b n) = b.
Proof. by destruct d. Qed.

Lemma hd_size_nd d t s b n : hd_size (nd_head d t s b n) = n.
Proof. by destruct d. Qed.

Lemma set_p_same d t s b n v : set_child d v (nd_head d t s b n) = nd_head d v s b n.
Proof. by destruct d. Qed.

Lemma set_p_other d t s b n v : set_child (negb d) v (nd_head d t s b n) = nd_head d t v b n.
Proof. by destruct d. Qed.

Lemma set_balance_nd d t s b n v : (nd_head d t s b n) <| hd_balance := v |> = nd_head d t s v n.
Proof. by destruct d. Qed.

Lemma set_size_nd d t s b n v : (nd_head d t s b n) <| hd_size := v |> = nd_head d t s b v.
Proof. by destruct d. Qed.

Create Rewrite HintDb kavl.
#[export] Hint Rewrite root_nd height_nd count_nd count_leaf hd_p_same hd_p_other hd_balance_nd hd_size_nd
  set_p_same set_p_other set_balance_nd set_size_nd negb_involutive : kavl.

(** ** One access at a time *)

Lemma head_of_ok (h : kavl_heap) a n : h !! a = Some n -> head_of h a = Ok n.
Proof. unfold head_of. by intros ->. Qed.

Lemma change_head_ok (h : kavl_heap) a n f : h !! a = Some n -> change_head h a f = Ok (<[a := f n]> h).
Proof. unfold change_head. intros Hn. by rewrite (head_of_ok _ _ n). Qed.

Lemma store_p_ok h a n d v : h !! a = Some n -> store_p h a d v = Ok (<[a := set_child d v n]> h).
Proof. apply change_head_ok. Qed.

Lemma store_balance_ok h a n v :
  h !! a = Some n -> -128 <= v < 128 -> store_balance h a v = Ok (<[a := n <| hd_balance := v |>]> h).
Proof.
  intros Hn Hv. unfold store_balance. rewrite (change_head_ok _ _ n) by done.
  unfold i8. rewrite Z.mod_small by lia. by replace (v + 128 - 128) with v by lia.
Qed.

Lemma store_size_ok h a n v :
  h !! a = Some n -> 0 <= v < 2 ^ 32 -> store_size h a v = Ok (<[a := n <| hd_size := v |>]> h).
Proof. intros Hn Hv. unfold store_size. rewrite (change_head_ok _ _ n) by done. by rewrite u32_small. Qed.

(** Run the next access of the code in the goal. *)
Ltac kavl_lookup :=
  first [ eassumption | by simplify_map_eq | (rewrite lookup_insert_ne by congruence); kavl_lookup
        | rewrite lookup_insert_eq; reflexivity ].

Ltac kavl_step :=
  lazymatch goal with
  | |- context [head_of ?h ?a] => erewrite (head_of_ok h a) by kavl_lookup
  | |- context [store_p ?h ?a ?d ?v] => erewrite (store_p_ok h a _ d v) by kavl_lookup
  | |- context [store_balance ?h ?a ?v] => erewrite (store_balance_ok h a _ v) by (first [kavl_lookup | lia])
  | |- context [store_size ?h ?a ?v] => erewrite (store_size_ok h a _ v) by (first [kavl_lookup | lia])
  end; rewrite ?bind_ok; autorewrite with kavl; cbn [deref]; rewrite ?bind_ok.

(** ** Framing *)

Lemma tree_at_frame h h' t : (forall a, a ∈ elems t -> h' !! a = h !! a) -> tree_at h t -> tree_at h' t.
Proof.
  induction t as [|l IHl a b n r IHr]; cbn; [done|]. intros Hf (Ha & Hl & Hr).
  repeat split.
  - by rewrite Hf by set_solver.
  - apply IHl; [set_solver|done].
  - apply IHr; [set_solver|done].
Qed.

Lemma tree_at_insert h t a n : a ∉ elems t -> tree_at h t -> tree_at (<[a := n]> h) t.
Proof. intros Ha. apply tree_at_frame. intros x Hx. apply lookup_insert_ne. set_solver. Qed.

Lemma elems_dom h t : tree_at h t -> forall a, a ∈ elems t -> is_Some (h !! a).
Proof.
  induction t as [|l IHl x b n r IHr]; cbn; [set_solver|]. intros (Hx & Hl & Hr) a Ha.
  apply elem_of_app in Ha as [Ha|Ha]; [by apply IHl|].
  apply elem_of_cons in Ha as [->|Ha]; [by eexists|by apply IHr].
Qed.

Lemma elems_fuel h t : tree_at h t -> NoDup (elems t) -> (length (elems t) <= size h)%nat.
Proof.
  intros Hat Hnd. rewrite <- size_dom. rewrite <- (size_list_to_set (C:=gset Z)) by done.
  apply subseteq_size. intros a Ha%elem_of_list_to_set. apply elem_of_dom. by eapply elems_dom.
Qed.

Lemma kavl_size_ok h t : tree_at h t -> tree_ok t -> kavl_size h (root t) = Ok (count t).
Proof.
  destruct t as [|l a b n r]; cbn; [done|]. intros (Ha & _) (_ & _ & -> & _).
  rewrite (head_of_ok _ _ _ Ha). by rewrite count_node.
Qed.

Lemma kavl_size_child_ok h q d n t :
  h !! q = Some n -> hd_p n d = root t -> tree_at h t -> tree_ok t -> kavl_size_child h q d = Ok (count t).
Proof.
  intros Hq Hd Hat Hok. unfold kavl_size_child. rewrite (head_of_ok _ _ _ Hq), bind_ok, Hd.
  by apply kavl_size_ok.
Qed.

(** ** Rotations *)

(** [h'] is [h] but for the nodes in [l]. *)
Definition same_but (l : list Z) (h h' : kavl_heap) : Prop := forall x, x ∉ l -> h' !! x = h !! x.

Lemma same_but_refl l h : same_but l h h.
Proof. by intros x _. Qed.

Lemma same_but_trans l k h h' h'' : same_but l h h' -> same_but k h' h'' -> same_but (l ++ k) h h''.
Proof. intros H1 H2 x Hx. rewrite H2, H1 by set_solver. done. Qed.

Lemma same_but_weaken l k h h' : l ⊆ k -> same_but l h h' -> same_but k h h'.
Proof. intros Hs H x Hx. apply H. set_solver. Qed.

Lemma same_but_insert l h h' a n : a ∈ l -> same_but l h h' -> same_but l h (<[a := n]> h').
Proof. intros Ha H x Hx. rewrite lookup_insert_ne by set_solver. by apply H. Qed.

Lemma same_but_tree l h h' t : same_but l h h' -> (forall a, a ∈ elems t -> a ∉ l) -> tree_at h t -> tree_at h' t.
Proof. intros Hs Hd. apply tree_at_frame. intros a Ha. apply Hs, Hd, Ha. Qed.

Ltac kavl_same := repeat (apply same_but_insert; [rewrite !elem_of_cons; tauto|]); apply same_but_refl.

(** What is left after running the accesses: nodes are where they were put
    and the subtrees are untouched. *)
Ltac kavl_frame :=
  repeat first [ apply conj | apply tree_at_insert; [assumption|] ];
  try eassumption; try kavl_lookup.

Lemma rotate1_at h d A p b np B q b' nq C :
  let T := nd d A p b np (nd d B q b' nq C) in
  tree_at h T -> NoDup (elems T) -> tree_ok B ->
  np = count T -> nq = count B + count C + 1 -> np < 2 ^ 32 ->
  exists h', kavl_rotate1 h p d = Ok (h', q) /\ same_but [p; q] h h' /\
    tree_at h' (nd d (nd d A p b (count A + count B + 1) B) q b' np C).
Proof.
  cbn zeta. rewrite !tree_at_nd, !NoDup_nd, !count_nd, !root_nd.
  intros (Hp & HA & Hq & HB & HC) (HpA & Hpq & NA & (HqB & HqC & NB & NC & Dq) & Dp) HokB Hnp Hnq Hlt.
  rewrite elems_nd in Hpq. apply Decidable.not_or in Hpq as [Npq [HpB HpC]%Decidable.not_or].
  assert (q ∉ elems A) as HqA by (intros Hx; apply (Dp _ Hx), elems_nd; by left).
  pose proof (count_nonneg A). pose proof (count_nonneg B). pose proof (count_nonneg C).
  unfold kavl_rotate1. repeat kavl_step.
  rewrite (kavl_size_child_ok _ _ _ _ B Hq) by (autorewrite with kavl; done). rewrite bind_ok.
  repeat kavl_step.
  eexists. split; [reflexivity|]. split.
  - kavl_same.
  - rewrite !tree_at_nd. autorewrite with kavl. kavl_frame.
    replace (count A + count B + 1) with (np - (nq - count B)) by lia. kavl_lookup.
Qed.

(** The balance factors of [p] and [q] after two rotations. *)
Definition balances2 (d : bool) (br : Z) : Z * Z :=
  if br =? dir_sign d then (- dir_sign d, 0) else if br =? 0 then (0, 0) else (0, dir_sign d).

Lemma rotate2_at h d A p b np B r br nr C q b' nq D :
  let T := nd d A p b np (nd d (nd d B r br nr C) q b' nq D) in
  tree_at h T -> NoDup (elems T) -> tree_ok B -> tree_ok C ->
  np = count T -> nq = count B + count C + 1 + count D + 1 -> np < 2 ^ 32 ->
  exists h', kavl_rotate2 h p d = Ok (h', r) /\ same_but [p; q; r] h h' /\
    tree_at h' (nd d (nd d A p (balances2 d br).1 (count A + count B + 1) B) r 0 np
                     (nd d C q (balances2 d br).2 (count C + count D + 1) D)).
Proof.
  cbn zeta. rewrite !tree_at_nd, !NoDup_nd, !count_nd, !root_nd.
  intros (Hp & HA & Hq & (Hr & HB & HC) & HD)
    (HpA & Hpq & NA & (Hqr & HqD & (HrB & HrC & NB & NC & Dr) & ND & Dq) & Dp) HokB HokC Hnp Hnq Hlt.
  rewrite !elems_nd in Hpq. apply Decidable.not_or in Hpq as [Npq [[Npr [HpB HpC]%Decidable.not_or]%Decidable.not_or HpD]%Decidable.not_or].
  rewrite elems_nd in Hqr. apply Decidable.not_or in Hqr as [Nqr [HqB HqC]%Decidable.not_or].
  assert (q ∉ elems A) as HqA by (intros Hx; apply (Dp _ Hx), elems_nd; tauto).
  assert (r ∉ elems A) as HrA by (intros Hx; apply (Dp _ Hx); rewrite !elems_nd; tauto).
  assert (r ∉ elems D) as HrD by (apply Dq; rewrite elems_nd; tauto).
  pose proof (count_nonneg A). pose proof (count_nonneg B). pose proof (count_nonneg C). pose proof (count_nonneg D).
  assert (-1 <= dir_sign d <= 1) by (destruct d; cbn; lia).
  unfold kavl_rotate2. do 2 kavl_step.
  rewrite (kavl_size_child_ok _ _ _ _ B Hr) by (autorewrite with kavl; done). rewrite bind_ok.
  repeat kavl_step. unfold balances2.
  replace (count A + count B + 1) with (np - (nq - count B)) by lia.
  replace (count C + count D + 1) with (nq - (count B + 1)) by lia.
  destruct (br =? dir_sign d); [|destruct (br =? 0)]; rewrite ?bind_ok; repeat kavl_step;
    (eexists; split; [reflexivity|]; split;
     [kavl_same|rewrite !tree_at_nd; autorewrite with kavl; kavl_frame]).
Qed.

(** ** Ways into a tree *)

Record frame := mk_frame {
  fr_d : bool;
  fr_a : Z;
  fr_b : Z;
  fr_n : Z;
  fr_s : tree
}.
#[export] Instance eta_frame : Eta frame := fun f => mk_frame (fr_d f) (fr_a f) (fr_b f) (fr_n f) (fr_s f).

Definition plug1 (f : frame) (t : tree) : tree := nd (fr_d f) t (fr_a f) (fr_b f) (fr_n f) (fr_s f).

Fixpoint plug (c : list frame) (t : tree) : tree :=
  match c with [] => t | f :: c => plug1 f (plug c t) end.

Definition ctx_root (c : list frame) (p : option Z) : option Z :=
  match c with [] => p | f :: _ => Some (fr_a f) end.

Definition frame_at (h : kavl_heap) (f : frame) (p : option Z) : Prop :=
  h !! fr_a f = Some (nd_head (fr_d f) p (root (fr_s f)) (fr_b f) (fr_n f)) /\ tree_at h (fr_s f).

Fixpoint ctx_at (h : kavl_heap) (c : list frame) (p : option Z) : Prop :=
  match c with [] => True | f :: c => frame_at h f (ctx_root c p) /\ ctx_at h c p end.

(** What comes before and after the end of the way. *)
Fixpoint ctx_pre (c : list frame) : list Z :=
  match c with
  | [] => []
  | f :: c => if fr_d f then elems (fr_s f) ++ fr_a f :: ctx_pre c else ctx_pre c
  end.

Fixpoint ctx_post (c : list frame) : list Z :=
  match c with
  | [] => []
  | f :: c => if fr_d f then ctx_post c else ctx_post c ++ fr_a f :: elems (fr_s f)
  end.

Definition ctx_elems (c : list frame) : list Z := ctx_pre c ++ ctx_post c.

Fixpoint ctx_height (c : list frame) (k : Z) : Z :=
  match c with [] => k | f :: c => 1 + Z.max (ctx_height c k) (height (fr_s f)) end.

Definition ctx_count (c : list frame) (z : Z) : Z := z + zlen (ctx_elems c).

(** A frame over a tree of height [k] and [z] nodes. *)
Definition frame_ok (f : frame) (k z : Z) : Prop :=
  fr_b f = side_balance (fr_d f) k (height (fr_s f)) /\ -1 <= fr_b f <= 1 /\
  fr_n f = z + count (fr_s f) + 1 /\ tree_ok (fr_s f).

Fixpoint ctx_ok (c : list frame) (k z : Z) : Prop :=
  match c with [] => True | f :: c => frame_ok f (ctx_height c k) (ctx_count c z) /\ ctx_ok c k z end.

Lemma plug_app c k t : plug (c ++ k) t = plug c (plug k t).
Proof. induction c as [|f c IH]; cbn; [done|]. by rewrite IH. Qed.

Lemma root_plug c t : root (plug c t) = ctx_root c (root t).
Proof. destruct c; cbn; [done|]. apply root_nd. Qed.

Lemma elems_plug c t : elems (plug c t) = ctx_pre c ++ elems t ++ ctx_post c.
Proof.
  induction c as [|f c IH]; cbn [plug ctx_pre ctx_post]; [by rewrite app_nil_r|]. unfold plug1, nd.
  destruct (fr_d f); cbn [elems]; rewrite IH; by rewrite <- !app_assoc, ?app_comm_cons.
Qed.

Lemma ctx_pre_app c k : ctx_pre (c ++ k) = ctx_pre c ++ ctx_pre k.
Proof.
  induction c as [|f c IH]; cbn; [done|]. rewrite IH. destruct (fr_d f); [|done]. by rewrite <- app_assoc.
Qed.

Lemma ctx_post_app c k : ctx_post (c ++ k) = ctx_post k ++ ctx_post c.
Proof.
  induction c as [|f c IH]; cbn; [by rewrite app_nil_r|]. rewrite IH. destruct (fr_d f); [done|]. by rewrite <- app_assoc.
Qed.

Lemma count_plug c t : count (plug c t) = ctx_count c (count t).
Proof. unfold count, ctx_count, ctx_elems. rewrite elems_plug. autorewrite with fb. lia. Qed.

Lemma height_plug c t : height (plug c t) = ctx_height c (height t).
Proof. induction c as [|f c IH]; cbn; [done|]. unfold plug1. by rewrite height_nd, IH. Qed.

Lemma ctx_height_app c k x : ctx_height (c ++ k) x = ctx_height c (ctx_height k x).
Proof. induction c as [|f c IH]; cbn; [done|]. by rewrite IH. Qed.

Lemma ctx_count_app c k x : ctx_count (c ++ k) x = ctx_count c (ctx_count k x).
Proof. unfold ctx_count, ctx_elems. rewrite ctx_pre_app, ctx_post_app. autorewrite with fb. lia. Qed.

Lemma ctx_count_cons f c z : ctx_count (f :: c) z = ctx_count c z + count (fr_s f) + 1.
Proof.
  unfold ctx_count, ctx_elems, count. cbn. destruct (fr_d f); autorewrite with fb; lia.
Qed.

Lemma ctx_count_nil z : ctx_count [] z = z.
Proof. unfold ctx_count. change (zlen (ctx_elems [])) with 0. lia. Qed.

Lemma ctx_count_ge c z : z <= ctx_count c z.
Proof. unfold ctx_count. pose proof (zlen_nonneg (ctx_elems c)). lia. Qed.

Lemma ctx_height_ge c k : k + zlen c <= ctx_height c k.
Proof. induction c as [|f c IH]; cbn; autorewrite with fb; lia. Qed.

Lemma ctx_root_app c k p : ctx_root (c ++ k) p = ctx_root c (ctx_root k p).
Proof. by destruct c. Qed.

Lemma ctx_at_app h c k p : ctx_at h (c ++ k) p <-> ctx_at h c (ctx_root k p) /\ ctx_at h k p.
Proof. induction c as [|f c IH]; cbn; [tauto|]. rewrite IH, ctx_root_app. tauto. Qed.

Lemma ctx_ok_app c k x z :
  ctx_ok (c ++ k) x z <-> ctx_ok c (ctx_height k x) (ctx_count k z) /\ ctx_ok k x z.
Proof. induction c as [|f c IH]; cbn; [tauto|]. rewrite IH, ctx_height_app, ctx_count_app. tauto. Qed.

Lemma tree_at_plug h c t : tree_at h (plug c t) <-> ctx_at h c (root t) /\ tree_at h t.
Proof.
  induction c as [|f c IH]; cbn; [tauto|]. unfold plug1, frame_at.
  rewrite tree_at_nd, IH, root_plug. tauto.
Qed.

Lemma tree_ok_plug c t : tree_ok (plug c t) <-> ctx_ok c (height t) (count t) /\ tree_ok t.
Proof.
  induction c as [|f c IH]; cbn; [tauto|]. unfold plug1, frame_ok.
  rewrite tree_ok_nd, IH, height_plug, count_plug. tauto.
Qed.

Lemma ctx_elems_cons f c : ctx_elems (f :: c) ≡ₚ fr_a f :: elems (fr_s f) ++ ctx_elems c.
Proof. unfold ctx_elems. cbn. destruct (fr_d f); solve_Permutation. Qed.

Lemma ctx_elems_app c k : ctx_elems (c ++ k) ≡ₚ ctx_elems c ++ ctx_elems k.
Proof. unfold ctx_elems. rewrite ctx_pre_app, ctx_post_app. solve_Permutation. Qed.

Lemma elems_plug_perm c t : elems (plug c t) ≡ₚ ctx_elems c ++ elems t.
Proof. rewrite elems_plug. unfold ctx_elems. solve_Permutation. Qed.

Lemma elem_of_ctx_cons f c x : x ∈ ctx_elems (f :: c) <-> x = fr_a f \/ x ∈ elems (fr_s f) \/ x ∈ ctx_elems c.
Proof. by rewrite ctx_elems_cons, elem_of_cons, elem_of_app. Qed.

Lemma elem_of_ctx_app c k x : x ∈ ctx_elems (c ++ k) <-> x ∈ ctx_elems c \/ x ∈ ctx_elems k.
Proof. by rewrite ctx_elems_app, elem_of_app. Qed.

Lemma NoDup_plug c t :
  NoDup (elems (plug c t)) <->
  NoDup (ctx_elems c) /\ (forall x, x ∈ ctx_elems c -> x ∉ elems t) /\ NoDup (elems t).
Proof. by rewrite elems_plug_perm, NoDup_app. Qed.

Lemma NoDup_ctx_cons f c :
  NoDup (ctx_elems (f :: c)) <->
  fr_a f ∉ elems (fr_s f) /\ fr_a f ∉ ctx_elems c /\ NoDup (elems (fr_s f)) /\
  (forall x, x ∈ elems (fr_s f) -> x ∉ ctx_elems c) /\ NoDup (ctx_elems c).
Proof. rewrite ctx_elems_cons, NoDup_cons, NoDup_app, elem_of_app. tauto. Qed.

Lemma NoDup_ctx_app c k :
  NoDup (ctx_elems (c ++ k)) <->
  NoDup (ctx_elems c) /\ (forall x, x ∈ ctx_elems c -> x ∉ ctx_elems k) /\ NoDup (ctx_elems k).
Proof. by rewrite ctx_elems_app, NoDup_app. Qed.

Lemma ctx_addr_elems c x : x ∈ fr_a <$> c -> x ∈ ctx_elems c.
Proof.
  induction c as [|f c IH]; [by intros ?%not_elem_of_nil|].
  rewrite elem_of_ctx_cons, fmap_cons, elem_of_cons. tauto.
Qed.

Lemma frame_at_frame h h' f p :
  (forall x, x = fr_a f \/ x ∈ elems (fr_s f) -> h' !! x = h !! x) -> frame_at h f p -> frame_at h' f p.
Proof.
  intros Hf [Ha Hs]. split; [rewrite Hf by tauto; done|].
  eapply tree_at_frame; [|done]. intros x Hx. apply Hf. tauto.
Qed.

Lemma ctx_at_frame h h' c p : (forall x, x ∈ ctx_elems c -> h' !! x = h !! x) -> ctx_at h c p -> ctx_at h' c p.
Proof.
  induction c as [|f c IH]; [done|]. intros Hf [H1 H2]. split.
  - eapply frame_at_frame; [|done]. intros x Hx. apply Hf, elem_of_ctx_cons. tauto.
  - apply IH; [|done]. intros x Hx. apply Hf, elem_of_ctx_cons. tauto.
Qed.

Lemma ctx_at_insert h c p a n : a ∉ ctx_elems c -> ctx_at h c p -> ctx_at (<[a := n]> h) c p.
Proof. intros Ha. apply ctx_at_frame. intros x Hx. apply lookup_insert_ne. by intros ->. Qed.

Lemma same_but_ctx l h h' c p : same_but l h h' -> (forall a, a ∈ ctx_elems c -> a ∉ l) -> ctx_at h c p -> ctx_at h' c p.
Proof. intros Hs Hd. apply ctx_at_frame. intros a Ha. apply Hs, Hd, Ha. Qed.

(** A way without the address of its last node does not know what is below. *)
Lemma ctx_at_snoc_store h h' c f p v :
  ctx_at h (c ++ [f]) p -> NoDup (ctx_elems (c ++ [f])) -> same_but [fr_a f] h h' ->
  h' !! fr_a f = Some (nd_head (fr_d f) v (root (fr_s f)) (fr_b f) (fr_n f)) -> ctx_at h' (c ++ [f]) v.
Proof.
  rewrite !ctx_at_app, NoDup_ctx_app. intros [Hc [[_ Hs] _]] (_ & Hd & Hf) Hb Ha.
  apply NoDup_ctx_cons in Hf as (Hfs & _). split; [|split; [split|done]].
  - cbn in Hc |- *. eapply same_but_ctx; [done| |done]. intros x Hx%Hd. rewrite elem_of_ctx_cons in Hx. set_solver.
  - done.
  - eapply same_but_tree; [done| |done]. set_solver.
Qed.

(** ** The arrays of a way *)

Definition path_of (c : list frame) : list (option Z) := (fun f => Some (fr_a f)) <$> c.
Definition dirs_of (c : list frame) : list (option bool) := (fun f => Some (fr_d f)) <$> c.

Lemma zlen_path_of c : zlen (path_of c) = zlen c.
Proof. unfold zlen, path_of. by rewrite length_fmap. Qed.

Lemma zlen_dirs_of c : zlen (dirs_of c) = zlen c.
Proof. unfold zlen, dirs_of. by rewrite length_fmap. Qed.

Lemma read_local_mid {A} (l : list (option A)) x k i : i = zlen l -> read_local (l ++ Some x :: k) i = Ok x.
Proof.
  intros ->. unfold read_local. rewrite <- (Z.add_0_r (zlen l)).
  by rewrite (arr_get_app l (Some x :: k) 0 (Some x)).
Qed.

Lemma read_path c f k rest i :
  i = zlen c -> read_local (path_of (c ++ f :: k) ++ rest) i = Ok (fr_a f).
Proof.
  intros ->. unfold path_of. rewrite fmap_app, <- app_assoc. apply read_local_mid. symmetry. apply zlen_path_of.
Qed.

Lemma read_dir c f k rest i :
  i = zlen c -> read_local (dirs_of (c ++ f :: k) ++ rest) i = Ok (fr_d f).
Proof.
  intros ->. unfold dirs_of. rewrite fmap_app, <- app_assoc. apply read_local_mid. symmetry. apply zlen_dirs_of.
Qed.

Lemma arr_set_mid {A} (l : list A) x k i v : i = zlen l -> arr_set (l ++ x :: k) i v = Ok (l ++ v :: k).
Proof. intros ->. apply arr_set_app_mid. Qed.

Lemma arr_set_end {A} (l : list A) k i v : i = zlen l -> i < zlen (l ++ k) ->
  exists k', arr_set (l ++ k) i v = Ok ((l ++ [v]) ++ k') /\ S (length k') = length k.
Proof.
  intros -> Hi. rewrite zlen_app in Hi. destruct k as [|x k]; [rewrite zlen_nil in Hi; lia|].
  exists k. rewrite arr_set_app_mid. by rewrite <- app_assoc.
Qed.

(** ** Changing what the frames store *)

Definition add_n (delta : Z) (f : frame) : frame := f <| fr_n := fr_n f + delta |>.

Definition same_place (g : frame -> frame) : Prop :=
  forall f, fr_d (g f) = fr_d f /\ fr_a (g f) = fr_a f /\ fr_s (g f) = fr_s f.

Section same_place.
Context (g : frame -> frame) (Hg : same_place g).

Lemma ctx_pre_map c : ctx_pre (g <$> c) = ctx_pre c.
Proof. induction c as [|f c IH]; cbn; [done|]. destruct (Hg f) as (-> & -> & ->). by rewrite IH. Qed.

Lemma ctx_post_map c : ctx_post (g <$> c) = ctx_post c.
Proof. induction c as [|f c IH]; cbn; [done|]. destruct (Hg f) as (-> & -> & ->). by rewrite IH. Qed.

Lemma ctx_elems_map c : ctx_elems (g <$> c) = ctx_elems c.
Proof. unfold ctx_elems. by rewrite ctx_pre_map, ctx_post_map. Qed.

Lemma ctx_count_map c z : ctx_count (g <$> c) z = ctx_count c z.
Proof. unfold ctx_count. by rewrite ctx_elems_map. Qed.

Lemma ctx_height_map c k : ctx_height (g <$> c) k = ctx_height c k.
Proof. induction c as [|f c IH]; cbn; [done|]. destruct (Hg f) as (_ & _ & ->). by rewrite IH. Qed.

Lemma ctx_root_map c p : ctx_root (g <$> c) p = ctx_root c p.
Proof. destruct c as [|f c]; cbn; [done|]. by destruct (Hg f) as (_ & -> & _). Qed.
End same_place.

Lemma dirs_of_app c k : dirs_of (c ++ k) = dirs_of c ++ dirs_of k.
Proof. apply fmap_app. Qed.

Lemma path_of_app c k : path_of (c ++ k) = path_of c ++ path_of k.
Proof. apply fmap_app. Qed.

Lemma dirs_of_map g (c : list frame) : same_place g -> dirs_of (g <$> c) = dirs_of c.
Proof.
  intros Hg. unfold dirs_of. rewrite <- list_fmap_compose. apply list_fmap_ext. intros _ f _. cbn.
  by destruct (Hg f) as (-> & _).
Qed.

Lemma path_of_map g (c : list frame) : same_place g -> path_of (g <$> c) = path_of c.
Proof.
  intros Hg. unfold path_of. rewrite <- list_fmap_compose. apply list_fmap_ext. intros _ f _. cbn.
  by destruct (Hg f) as (_ & -> & _).
Qed.

Lemma addrs_map g (c : list frame) : same_place g -> fr_a <$> (g <$> c) = fr_a <$> c.
Proof.
  intros Hg. rewrite <- list_fmap_compose. apply list_fmap_ext. intros _ f _. cbn.
  by destruct (Hg f) as (_ & -> & _).
Qed.

Lemma add_n_place delta : same_place (add_n delta).
Proof. done. Qed.

Lemma ctx_count_add c z delta : ctx_count c (z + delta) = ctx_count c z + delta.
Proof. unfold ctx_count. lia. Qed.

Lemma ctx_ok_add delta c k z : ctx_ok c k z -> ctx_ok (add_n delta <$> c) k (z + delta).
Proof.
  induction c as [|f c IH]; [done|]. cbn [fmap list_fmap ctx_ok]. intros [(Hb & Hr & Hn & Hs) H]. split; [|by apply IH].
  rewrite ctx_height_map, ctx_count_map, ctx_count_add by apply add_n_place.
  repeat split; cbn; try done; lia.
Qed.

Lemma bump_sizes_at delta c c0 rest h p i :
  ctx_at h c p -> NoDup (ctx_elems c) -> Forall (fun f => 0 <= fr_n f + delta < 2 ^ 32) c -> i = zlen c0 ->
  exists h', bump_sizes delta (length c) h (path_of (c0 ++ c) ++ rest) i = Ok h' /\
    same_but (fr_a <$> c) h h' /\ ctx_at h' (add_n delta <$> c) p.
Proof.
  revert c0 h i. induction c as [|f c IH]; intros c0 h i Hat Hnd Hn ->.
  - exists h. split; [done|]. split; [by intros x _|done].
  - destruct Hat as [[Ha Hs] Hat]. apply NoDup_ctx_cons in Hnd as (Has & Hac & _ & Hsc & Hnd).
    apply Forall_cons in Hn as [Hf Hn]. cbn [length bump_sizes].
    rewrite (read_path c0) by done. rewrite bind_ok. repeat kavl_step. 
    set (n := nd_head _ _ _ _ (fr_n f + delta)).
    destruct (IH (c0 ++ [f]) _ (zlen c0 + 1) (ctx_at_insert _ _ _ _ n Hac Hat) Hnd Hn) as (h' & Hrun & Hb & Hat').
    { by rewrite zlen_app. }
    rewrite <- app_assoc in Hrun. exists h'. split; [exact Hrun|]. split; [|split; [split|done]].
    + intros x Hx. rewrite Hb by set_solver. apply lookup_insert_ne. set_solver.
    + cbn. rewrite Hb by (intros ?%ctx_addr_elems; done). rewrite lookup_insert_eq, ctx_root_map by apply add_n_place. done.
    + cbn. eapply tree_at_frame, Hs. intros x Hx. rewrite Hb by (intros ?%ctx_addr_elems; by eapply Hsc).
      apply lookup_insert_ne. congruence.
Qed.

(** ** Rotations keep trees balanced *)

Lemma nd_swap d t a b n s : nd d t a b n s = nd (negb d) s a b n t.
Proof. by destruct d. Qed.

Lemma side_balance_sign d ht hs : side_balance d ht hs = dir_sign d * (hs - ht).
Proof. destruct d; cbn; lia. Qed.

Lemma dir_sign_cases d : dir_sign d = 1 \/ dir_sign d = -1.
Proof. destruct d; cbn; auto. Qed.

(** The outer side of [q] is the higher one, or as high as the inner one. *)
Lemma rotate1_ok d A p B q C b b' :
  tree_ok A -> tree_ok B -> tree_ok C ->
  height A = height B \/ height A + 1 = height B -> height C - 1 <= height B <= height C ->
  b = dir_sign d * (height B - height A) -> b' = dir_sign d * (height C - height B - 1) ->
  tree_ok (nd d (nd d A p b (count A + count B + 1) B) q b' (count A + (count B + count C + 1) + 1) C).
Proof.
  intros HA HB HC H1 H2 -> ->. rewrite !tree_ok_nd, !side_balance_sign, !count_nd, !height_nd.
  destruct (dir_sign_cases d) as [-> | ->]; repeat split; try done; lia.
Qed.

Lemma rotate2_ok d A p B r br nr C q D :
  tree_ok A -> tree_ok (nd d B r br nr C) -> tree_ok D ->
  height (nd d B r br nr C) = height A + 1 -> height D = height A ->
  let T := nd d (nd d A p (balances2 d br).1 (count A + count B + 1) B) r 0
    (count A + (count B + count C + 1 + count D + 1) + 1)
    (nd d C q (balances2 d br).2 (count C + count D + 1) D) in
  tree_ok T /\ height T = height A + 2.
Proof.
  intros HA (Hbr & Hb & _ & HB & HC)%tree_ok_nd HD H1 H2. cbn zeta.
  rewrite !tree_ok_nd, !count_nd, !height_nd in *. rewrite !side_balance_sign in *. unfold balances2.
  destruct (dir_sign_cases d) as [E|E]; rewrite E in *;
    (destruct (Z.eqb_spec br 1), (Z.eqb_spec br (-1)), (Z.eqb_spec br 0); try lia; cbn; repeat split; try done; lia).
Qed.

Lemma length_ctx_elems c : (length c <= length (ctx_elems c))%nat.
Proof.
  induction c as [|f c IH]; [cbn; lia|]. rewrite ctx_elems_cons. cbn. rewrite length_app. lia.
Qed.

Lemma tree_ok_nonleaf d t : 0 < height t -> exists l a b n r, t = nd d l a b n r.
Proof. intros Hh. destruct (nd_eta d t) as [->|Ht]; [cbn in Hh; lia|done]. Qed.

Lemma elems_rotate1 d A p b n B q b' n' C b1 n1 b2 n2 :
  elems (nd d (nd d A p b1 n1 B) q b2 n2 C) = elems (nd d A p b n (nd d B q b' n' C)).
Proof. destruct d; cbn; by rewrite <- app_assoc. Qed.

Lemma elems_rotate2 d A p b n B r br nr C q b' n' D b1 n1 b2 n2 b3 n3 :
  elems (nd d (nd d A p b1 n1 B) r b2 n2 (nd d C q b3 n3 D)) =
  elems (nd d A p b n (nd d (nd d B r br nr C) q b' n' D)).
Proof. destruct d; cbn; by rewrite <- !app_assoc, <- ?app_comm_cons, <- ?app_assoc. Qed.

Lemma ctx_ok_sizes c k z : ctx_ok c k z -> 0 <= z -> Forall (fun f => 1 <= fr_n f <= ctx_count c z) c.
Proof.
  intros Hok Hz. induction c as [|f c IH]; [by constructor|]. destruct Hok as [(_ & _ & Hn & _) Hok].
  rewrite ctx_count_cons. pose proof (count_nonneg (fr_s f)).
  assert (0 <= ctx_count c z) by (unfold ctx_count; pose proof (zlen_nonneg (ctx_elems c)); lia).
  constructor; [lia|]. eapply Forall_impl; [by apply IH|]. cbn. lia.
Qed.

Lemma ctx_ok_balances c k z : ctx_ok c k z -> Forall (fun f => -1 <= fr_b f <= 1) c.
Proof.
  induction c as [|f c IH]; [by constructor|]. intros [(_ & Hb & _) Hok]. constructor; [done|by apply IH].
Qed.

Lemma ctx_elems_dom h c p : ctx_at h c p -> forall a, a ∈ ctx_elems c -> is_Some (h !! a).
Proof.
  induction c as [|f c IH]; [by intros _ a ?%not_elem_of_nil|]. intros [[Hf Hs] Hc] a Ha.
  apply elem_of_ctx_cons in Ha as [->|[Ha|Ha]]; [by eexists|by eapply elems_dom|by apply IH].
Qed.

Lemma ctx_fuel h c p : ctx_at h c p -> NoDup (ctx_elems c) -> (length c <= size h)%nat.
Proof.
  intros Hc Hnd. etransitivity; [apply length_ctx_elems|].
  rewrite <- size_dom, <- (size_list_to_set (C:=gset Z)) by done.
  apply subseteq_size. intros a Ha%elem_of_list_to_set. apply elem_of_dom. by eapply ctx_elems_dom.
Qed.
