(* ===== verification/KavlSearch.v ===== *)
(** * kavl.h: trees as sorted lists; search, iterators and freeing

    [kavl cmp h root xs]: at [root] there is a balanced search tree whose
    nodes, in order, are [xs].  The functions that do not change the tree are
    specified by [xs] alone. *)

From S2P Require Import Prelude Kavl KavlTree.
From Stdlib Require Import Sorted.

(** What [__cmp] must be: a total preorder. *)
Class KavlOrder (cmp : Z -> Z -> Z) := {
  cmp_sym : forall a b, Z.sgn (cmp b a) = - Z.sgn (cmp a b);
  cmp_trans : forall a b c, cmp a b <= 0 -> cmp b c <= 0 -> cmp a c <= 0
}.

(** ** Height *)

(** The least number of nodes of a balanced tree of height [k], and of [k + 1]. *)
Fixpoint least_counts (k : nat) : Z * Z :=
  match k with
  | O => (0, 1)
  | S k => let p := least_counts k in (p.2, p.1 + p.2 + 1)
  end.

Lemma least_counts_mono k : 0 <= (least_counts k).1 <= (least_counts k).2.
Proof. induction k; cbn; lia. Qed.

Lemma least_counts_le k t :
  tree_ok t ->
  (Z.of_nat k <= height t -> (least_counts k).1 <= count t) /\
  (Z.of_nat k + 1 <= height t -> (least_counts k).2 <= count t).
Proof.
  revert k. induction t as [|l IHl a b n r IHr]; intros k.
  - intros _. cbn. split; intros; [|lia]. destruct k; cbn; [done|lia].
  - intros (-> & Hb & Hn & Hl & Hr). rewrite count_node. cbn [height].
    assert (forall j, (Z.of_nat j + 1 <= 1 + Z.max (height l) (height r) ->
      (least_counts j).2 <= count l + count r + 1)) as Hs.
    { intros [|j] Hj; cbn.
      - pose proof (count_nonneg l). pose proof (count_nonneg r). lia.
      - destruct (IHl j Hl) as [L1 L2], (IHr j Hr) as [R1 R2].
        pose proof (least_counts_mono j). lia. }
    split; [|apply Hs]. intros Hk. destruct k as [|k]; [cbn; pose proof (count_nonneg l); pose proof (count_nonneg r); lia|].
    cbn. apply Hs. lia.
Qed.

(** A tree whose size fits into [unsigned] is not deeper than the arrays. *)
Lemma height_bound t : tree_ok t -> count t < 2 ^ 32 -> height t <= 45.
Proof.
  intros Hok Hc. destruct (Z.le_gt_cases (height t) 45); [done|].
  destruct (least_counts_le 46 t Hok) as [H1 _].
  assert ((least_counts 46).1 >= 2 ^ 32) as H2 by (vm_compute; discriminate).
  specialize (H1 ltac:(lia)). lia.
Qed.

Lemma filter_none (P : Z -> Prop) `{forall x, Decision (P x)} xs : (forall e, e ∈ xs -> ~ P e) -> filter P xs = [].
Proof.
  induction xs as [|e xs IH]; [done|]. intros Hn. rewrite filter_cons_False by set_solver. apply IH. set_solver.
Qed.

Abbreviation sorted_by cmp := (StronglySorted (fun a b : Z => cmp a b < 0)).

(** ** Sorted lists *)

Section sorted.
Context (cmp : Z -> Z -> Z).

Lemma sorted_app xs ys :
  sorted_by cmp (xs ++ ys) <-> sorted_by cmp xs /\ sorted_by cmp ys /\ forall x y, x ∈ xs -> y ∈ ys -> cmp x y < 0.
Proof.
  induction xs as [|a xs IH]; cbn.
  - split; [intros Hs; repeat split; [constructor|done|by intros ? ? ?%not_elem_of_nil]|tauto].
  - split.
    + intros [(H1 & H2 & H3)%IH Ha]%StronglySorted_inv. rewrite Forall_app in Ha. destruct Ha as [Ha1 Ha2].
      split; [by constructor|]. split; [done|]. intros x y [->|Hx]%elem_of_cons Hy; [|by apply H3].
      rewrite Forall_forall in Ha2. by apply Ha2.
    + intros ([H1 Ha]%StronglySorted_inv & H2 & H3). constructor.
      * apply IH. split; [done|]. split; [done|]. intros x y Hx. apply H3. set_solver.
      * apply Forall_app. split; [done|]. apply Forall_forall. intros y Hy. apply H3; set_solver.
Qed.

Lemma sorted_cons x xs : sorted_by cmp (x :: xs) <-> sorted_by cmp xs /\ forall y, y ∈ xs -> cmp x y < 0.
Proof.
  split.
  - intros [Hs Ha]%StronglySorted_inv. split; [done|]. by apply Forall_forall.
  - intros [Hs Ha]. constructor; [done|]. by apply Forall_forall.
Qed.

Lemma sorted_node l a b n r :
  sorted_by cmp (elems (Node l a b n r)) <->
  sorted_by cmp (elems l) /\ sorted_by cmp (elems r) /\ (forall e, e ∈ elems l -> cmp e a < 0) /\
  (forall e, e ∈ elems r -> cmp a e < 0) /\ (forall e e', e ∈ elems l -> e' ∈ elems r -> cmp e e' < 0).
Proof.
  cbn. rewrite sorted_app, sorted_cons. split.
  - intros (H1 & [H2 H3] & H4). repeat split; try done; intros; apply H4; set_solver.
  - intros (H1 & H2 & H3 & H4 & H5). split; [done|]. split; [done|].
    intros x y Hx [->|Hy]%elem_of_cons; auto.
Qed.

End sorted.

Section order.
Context (cmp : Z -> Z -> Z) `{KavlOrder cmp}.
Implicit Types (h : kavl_heap) (t : tree) (xs : list Z).

Lemma cmp_refl a : cmp a a = 0.
Proof. pose proof (cmp_sym a a). lia. Qed.

Lemma cmp_lt_trans a b c : cmp a b < 0 -> cmp b c < 0 -> cmp a c < 0.
Proof.
  intros H1 H2. assert (cmp a c <= 0) by (apply (cmp_trans a b c); lia).
  destruct (Z.eq_dec (cmp a c) 0) as [E|]; [|lia].
  pose proof (cmp_sym a c). pose proof (cmp_sym a b).
  pose proof (cmp_trans b c a). lia.
Qed.

Lemma cmp_gt_trans a b c : 0 < cmp a b -> cmp c b < 0 -> 0 < cmp a c.
Proof.
  intros H1 H2. pose proof (cmp_sym a b). pose proof (cmp_sym c a).
  pose proof (cmp_lt_trans c b a). lia.
Qed.

Lemma cmp_eq_l a b c : cmp a b = 0 -> Z.sgn (cmp a c) = Z.sgn (cmp b c).
Proof.
  intros E. pose proof (cmp_sym a b). pose proof (cmp_sym a c). pose proof (cmp_sym b c).
  pose proof (cmp_trans a b c). pose proof (cmp_trans b a c).
  pose proof (cmp_trans c b a). pose proof (cmp_trans c a b). lia.
Qed.

(** ** Sorted lists of nodes *)

Abbreviation sorted := (sorted_by cmp).

(** The nodes at most [x], and the node equal to [x]. *)
Definition rank (x : Z) xs : Z := zlen (filter (fun e => 0 <= cmp x e) xs).
Definition equal_node (x : Z) xs : option Z := head (filter (fun e => cmp x e = 0) xs).

Lemma sorted_NoDup xs : sorted xs -> NoDup xs.
Proof.
  induction xs as [|x xs IH]; [constructor|]. intros [Hs Hx]%sorted_cons. constructor; [|by apply IH].
  intros Hin%Hx. rewrite cmp_refl in Hin. lia.
Qed.

(** ** The tree *)

Definition tree_sorted h t : Prop := tree_at h t /\ tree_ok t /\ sorted (elems t) /\ count t < 2 ^ 32.

Definition kavl h (rt : option Z) xs : Prop := exists t, rt = root t /\ elems t = xs /\ tree_sorted h t.

Lemma rank_app x xs ys : rank x (xs ++ ys) = rank x xs + rank x ys.
Proof. unfold rank. by rewrite filter_app, zlen_app. Qed.

Lemma rank_all x xs : (forall e, e ∈ xs -> 0 < cmp x e) -> rank x xs = zlen xs.
Proof. intros Hx. unfold rank. rewrite filter_all; [done|]. apply Forall_forall. intros e He%Hx. lia. Qed.

Lemma rank_none x xs : (forall e, e ∈ xs -> cmp x e < 0) -> rank x xs = 0.
Proof. intros Hx. unfold rank. rewrite filter_none; [done|]. intros e He%Hx. lia. Qed.

Lemma rank_nonneg x xs : 0 <= rank x xs.
Proof. apply zlen_nonneg. Qed.

Lemma equal_node_app x xs ys :
  equal_node x (xs ++ ys) = match equal_node x xs with Some e => Some e | None => equal_node x ys end.
Proof. unfold equal_node. rewrite filter_app. by destruct (filter _ xs). Qed.

Lemma equal_node_none x xs : (forall e, e ∈ xs -> cmp x e <> 0) -> equal_node x xs = None.
Proof. intros Hx. unfold equal_node. by rewrite filter_none. Qed.

Lemma equal_node_cons x a xs : equal_node x (a :: xs) = if decide (cmp x a = 0) then Some a else equal_node x xs.
Proof. unfold equal_node. case_decide; [by rewrite filter_cons_True|by rewrite filter_cons_False]. Qed.

Lemma rank_cons x a xs : rank x (a :: xs) = (if decide (0 <= cmp x a) then 1 else 0) + rank x xs.
Proof.
  unfold rank. case_decide; [rewrite filter_cons_True by done|rewrite filter_cons_False by done];
    autorewrite with fb; lia.
Qed.

(** ** kavl_find *)

Lemma add_left_ok h c l a b n r cnt :
  tree_at h (Node l a b n r) -> tree_ok (Node l a b n r) -> 0 <= cnt -> cnt + count l + 1 < 2 ^ 32 ->
  add_left h c a cnt = Ok (if 0 <=? c then cnt + (count l + 1) else cnt).
Proof.
  intros (Ha & Hl & _) (_ & _ & _ & Okl & _) H1 H2. unfold add_left. destruct (0 <=? c); [|done].
  rewrite (kavl_size_child_ok _ _ _ _ l Ha) by done. cbn. rewrite u32_small; [done|].
  pose proof (count_nonneg l). lia.
Qed.

Lemma equal_node_node x l a b n r :
  sorted (elems (Node l a b n r)) ->
  equal_node x (elems (Node l a b n r)) =
    (if cmp x a <? 0 then equal_node x (elems l) else if 0 <? cmp x a then equal_node x (elems r) else Some a) /\
  rank x (elems (Node l a b n r)) =
    (if cmp x a <? 0 then rank x (elems l) else if 0 <? cmp x a then count l + 1 + rank x (elems r) else count l + 1).
Proof.
  intros (Hsl & Hsr & Hl & Hr & _)%sorted_node. cbn [elems].
  rewrite equal_node_app, equal_node_cons, rank_app, rank_cons.
  assert (0 <= cmp x a -> forall e, e ∈ elems l -> 0 < cmp x e) as Hgt.
  { intros Hx e He%Hl. destruct (Z.eq_dec (cmp x a) 0) as [E|].
    - pose proof (cmp_eq_l x a e E). pose proof (cmp_sym e a). lia.
    - apply (cmp_gt_trans x a e); lia. }
  assert (cmp x a <= 0 -> forall e, e ∈ elems r -> cmp x e < 0) as Hlt.
  { intros Hx e He%Hr. destruct (Z.eq_dec (cmp x a) 0) as [E|].
    - pose proof (cmp_eq_l x a e E). lia.
    - apply (cmp_lt_trans x a e); lia. }
  destruct (Z.ltb_spec (cmp x a) 0) as [L|L].
  - rewrite !decide_False by lia. rewrite (equal_node_none x (elems r)) by (intros e He%Hlt; lia).
    rewrite (rank_none x (elems r)) by auto with lia. split; [|lia]. by destruct (equal_node x (elems l)).
  - rewrite (equal_node_none x (elems l)) by (intros e He%Hgt; lia).
    rewrite (rank_all x (elems l)) by auto. rewrite (decide_True (P := 0 <= _)) by lia. unfold count.
    destruct (Z.ltb_spec 0 (cmp x a)).
    + rewrite decide_False by lia. split; [done|lia].
    + rewrite decide_True by lia. rewrite (rank_none x (elems r)) by (apply Hlt; lia). split; [done|lia].
Qed.

Lemma find_loop_ok t fuel h x cnt :
  tree_at h t -> tree_ok t -> sorted (elems t) -> (length (elems t) <= fuel)%nat ->
  0 <= cnt -> cnt + count t < 2 ^ 32 ->
  find_loop cmp fuel h (root t) x cnt = Ok (equal_node x (elems t), cnt + rank x (elems t)).
Proof.
  revert fuel cnt. induction t as [|l IHl a b n r IHr]; intros fuel cnt Hat Hok Hs Hf H1 H2.
  { rewrite (rank_none x (elems Leaf)), Z.add_0_r by (by intros ? ?%not_elem_of_nil). by destruct fuel. }
  destruct (equal_node_node x _ _ _ _ _ Hs) as [-> ->]. rewrite count_node in H2.
  pose proof (count_nonneg l). pose proof (count_nonneg r). cbn [elems] in Hf. rewrite length_app in Hf. cbn in Hf.
  destruct fuel as [|fuel]; [lia|]. cbn [find_loop root]. rewrite (add_left_ok h _ l a b n r) by (done || lia).
  destruct Hat as (Ha & Hal & Har), Hok as (_ & _ & _ & Okl & Okr), (proj1 (sorted_node cmp _ _ _ _ _) Hs) as (Sl & Sr & _).
  rewrite bind_ok, (head_of_ok _ _ _ Ha), bind_ok. cbn.
  destruct (Z.ltb_spec (cmp x a) 0), (Z.leb_spec 0 (cmp x a)); try lia.
  - rewrite IHl by (done || lia). done.
  - destruct (Z.ltb_spec 0 (cmp x a)).
    + rewrite IHr by (done || lia). do 2 f_equal. lia.
    + done.
Qed.

(** kavl_find finds the node equal to [x] if there is one, and counts the
    nodes that are at most [x]. *)
Lemma kavl_find_ok h rt xs x :
  kavl h rt xs -> kavl_find cmp h rt x = Ok (equal_node x xs, rank x xs).
Proof.
  intros (t & -> & <- & Hat & Hok & Hs & Hc). unfold kavl_find.
  rewrite find_loop_ok; try done; try lia. by apply elems_fuel, sorted_NoDup.
Qed.

(** ** kavl_free *)

Fixpoint right_spine t : nat :=
  match t with Leaf => O | Node _ _ _ _ r => S (right_spine r) end.

Lemma right_spine_le t : (right_spine t <= length (elems t))%nat.
Proof. induction t as [|l _ a b n r IHr]; cbn; [lia|]. rewrite length_app. cbn. lia. Qed.

Lemma free_loop_ok fuel h t :
  tree_at h t -> NoDup (elems t) -> (2 * length (elems t) - right_spine t <= fuel)%nat ->
  exists h', free_loop fuel h (root t) = Ok h' /\
    forall x, h' !! x = if decide (x ∈ elems t) then None else h !! x.
Proof.
  revert h t. induction fuel as [|fuel IH]; intros h [|l p b n r] Hat Hnd Hf.
  1, 3: exists h; split; [done|]; intros x; rewrite decide_False; [done|by apply not_elem_of_nil].
  { exfalso. pose proof (right_spine_le r). cbn in Hf. rewrite length_app in Hf. cbn in Hf. lia. }
  destruct Hat as (Hp & Hl & Hr). cbn [free_loop root]. rewrite (head_of_ok _ _ _ Hp), bind_ok. cbn [hd_p hd_p0].
  destruct l as [|la q b' n' lb]; cbn [root elems] in *.
  - apply NoDup_cons in Hnd as [Hpr Hnd].
    destruct (IH (delete p h) r) as (h' & Hrun & Hh').
    + eapply tree_at_frame, Hr. intros x Hx. apply lookup_delete_ne. by intros ->.
    + done.
    + cbn in Hf. pose proof (right_spine_le r). lia.
    + exists h'. split; [done|]. intros x. rewrite Hh'. repeat case_decide; try set_solver.
      * assert (x = p) as -> by set_solver. apply lookup_delete_eq.
      * apply lookup_delete_ne. set_solver.
  - destruct Hl as (Hq & Ha & Hb). rewrite (head_of_ok _ _ _ Hq), bind_ok. cbn [hd_p1 hd_p].
    set (t' := Node la q b' n' (Node lb p b n r)).
    assert (elems t' = elems (Node (Node la q b' n' lb) p b n r)) as He by (cbn; by rewrite <- app_assoc).
    fold (elems (Node la q b' n' lb)) in Hnd. change (NoDup (elems (Node (Node la q b' n' lb) p b n r))) in Hnd.
    rewrite <- He in Hnd.
    assert (p <> q) as Npq by (intros ->; cbn in Hnd; rewrite NoDup_app, NoDup_cons in Hnd; set_solver).
    rewrite (store_p_ok _ _ _ _ _ Hp), bind_ok, (store_p_ok _ q (mk_head (root la) (root lb) b' n')), bind_ok
      by (by rewrite lookup_insert_ne).
    destruct (IH (<[q := mk_head (root la) (Some p) b' n']> (<[p := mk_head (root lb) (root r) b n]> h)) t')
      as (h' & Hrun & Hh').
    + cbn in Hnd |- *. rewrite NoDup_app, NoDup_cons, NoDup_app, NoDup_cons in Hnd.
      destruct Hnd as (_ & N1 & N2 & _ & N3 & N4 & _).
      rewrite lookup_insert_eq, lookup_insert_ne, lookup_insert_eq by done.
      repeat split; repeat (apply tree_at_insert; [set_solver|]); done.
    + done.
    + rewrite He. cbn in Hf |- *. rewrite !length_app in *. cbn in *. lia.
    + exists h'. split; [exact Hrun|]. intros x. rewrite Hh', He.
      case_decide as Hx; [by rewrite decide_True by done|]. rewrite decide_False by done.
      rewrite !lookup_insert_ne; [done|set_solver..].
Qed.

(** kavl_free frees every node of the tree, once, and nothing else. *)
Lemma kavl_free_ok h rt xs :
  kavl h rt xs -> exists h', kavl_free h rt = Ok h' /\ forall x, h' !! x = if decide (x ∈ xs) then None else h !! x.
Proof.
  intros (t & -> & <- & Hat & _ & Hs & _). apply sorted_NoDup in Hs. apply free_loop_ok; [done..|].
  pose proof (elems_fuel h t Hat Hs). lia.
Qed.

End order.
