(* ===== verification/KavlIter.v ===== *)
(** * Iterators of kavl.h

    [itr_at h it xs]: the iterator stands before the nodes [xs], the first of
    them being the one it is at.  Its stack holds the nodes whose left side is
    done, with the right side still to come. *)

From S2P Require Import Prelude Kavl KavlTree KavlSearch.
From Stdlib Require Import Sorted.

Section itr.
Context (cmp : Z -> Z -> Z) `{KavlOrder cmp}.
Implicit Types (h : kavl_heap) (t r : tree) (xs : list Z) (st : list (Z * tree)).

(** The nodes that the entries of the stack, the deepest first, stand for. *)
Fixpoint rests st : list Z :=
  match st with [] => [] | (a, r) :: st => rests st ++ a :: elems r end.

Definition entry_at h (e : Z * tree) : Prop :=
  exists n, h !! e.1 = Some n /\ hd_p n true = root e.2 /\ tree_at h e.2.

(** There is room in the stack for the left spine of every right side. *)
Fixpoint room (i : Z) st : Prop :=
  match st with [] => True | (_, r) :: st => i + height r <= KAVL_MAX_DEPTH /\ room (i + 1) st end.

Definition stack_of st : list (option Z) := (fun e => Some e.1) <$> st.

(** The iterator with the stack [st]; [itr->right] is not considered. *)
Definition on_stack h (it : kavl_itr) st : Prop :=
  (exists junk, it_stack it = stack_of st ++ junk /\ zlen (it_stack it) = KAVL_MAX_DEPTH) /\
  it_top it = zlen st - 1 /\ Forall (entry_at h) st /\ room 0 st.

Definition itr_at h (it : kavl_itr) xs : Prop :=
  exists st, on_stack h it st /\ rests st = xs /\ NoDup xs /\
    forall a r, last st = Some (a, r) -> it_right it = root r.

(** The entries pushed by going left. *)
Fixpoint left_spine t : list (Z * tree) :=
  match t with Leaf => [] | Node l a _ _ r => (a, r) :: left_spine l end.

Lemma rests_app st st' : rests (st ++ st') = rests st' ++ rests st.
Proof. induction st as [|[a r] st IH]; cbn; [by rewrite app_nil_r|]. by rewrite IH, app_assoc. Qed.

Lemma rests_left_spine t : rests (left_spine t) = elems t.
Proof. induction t as [|l IHl a b n r _]; cbn; [done|]. by rewrite IHl. Qed.

Lemma room_app i st st' : room i (st ++ st') <-> room i st /\ room (i + zlen st) st'.
Proof.
  revert i. induction st as [|[a r] st IH]; intros i; cbn [app room]; autorewrite with fb.
  - rewrite Z.add_0_r. tauto.
  - rewrite IH. replace (i + 1 + zlen st) with (i + (zlen st + 1)) by lia. tauto.
Qed.

Lemma room_left_spine i t : i + height t <= KAVL_MAX_DEPTH -> room i (left_spine t).
Proof.
  revert i. induction t as [|l IHl a b n r _]; intros i Hi; [done|]. cbn in Hi |- *.
  split; [lia|]. apply IHl. lia.
Qed.

Lemma left_spine_at h t : tree_at h t -> Forall (entry_at h) (left_spine t).
Proof.
  induction t as [|l IHl a b n r _]; cbn; [by constructor|]. intros (Ha & Hl & Hr).
  constructor; [by eexists|by apply IHl].
Qed.

Lemma zlen_stack_of st : zlen (stack_of st) = zlen st.
Proof. unfold zlen, stack_of. by rewrite length_fmap. Qed.

Lemma read_top st e junk : read_local (stack_of (st ++ [e]) ++ junk) (zlen (st ++ [e]) - 1) = Ok e.1.
Proof.
  unfold stack_of. rewrite fmap_app, <- app_assoc. apply (read_local_mid (stack_of st)).
  rewrite zlen_stack_of. autorewrite with fb. lia.
Qed.

Lemma itr_push_ok h it st a r :
  on_stack h it st -> entry_at h (a, r) -> zlen st + 1 + height r <= KAVL_MAX_DEPTH + 1 -> zlen st < KAVL_MAX_DEPTH ->
  exists it', itr_push it a = Ok it' /\ on_stack h it' (st ++ [(a, r)]) /\ it_right it' = it_right it.
Proof.
  intros ((junk & Hst & Hlen) & Htop & Hat & Hroom) Ha Hr Hi. unfold itr_push.
  rewrite Htop, Hst. replace (zlen st - 1 + 1) with (zlen (stack_of st)) by (rewrite zlen_stack_of; lia).
  destruct (arr_set_end (stack_of st) junk (zlen (stack_of st)) (Some a)) as (k & -> & Hk).
  { done. } { rewrite <- Hst, Hlen, zlen_stack_of. done. }
  rewrite bind_ok. eexists. split; [reflexivity|]. split; [|done]. split; [|split; [|split]]; cbn.
  - exists k. unfold stack_of. rewrite fmap_app. split; [done|]. rewrite Hst in Hlen.
    unfold zlen, stack_of in Hlen |- *. rewrite !length_app in *. cbn. lia.
  - rewrite zlen_app, zlen_stack_of. cbn. autorewrite with fb. lia.
  - by apply Forall_app_2; [|constructor].
  - apply room_app. split; [done|]. cbn. split; [|done]. lia.
Qed.

Lemma itr_left_ok fuel h t it st :
  on_stack h it st -> tree_at h t -> zlen st + height t <= KAVL_MAX_DEPTH -> (length (elems t) <= fuel)%nat ->
  exists it', itr_left fuel h (root t) it = Ok it' /\ on_stack h it' (st ++ left_spine t) /\ it_right it' = it_right it.
Proof.
  revert it st fuel. induction t as [|l IHl a b n r _]; intros it st fuel Hon Hat Hd Hf.
  { exists it. rewrite app_nil_r. by destruct fuel. }
  destruct Hat as (Ha & Hl & Hr). cbn in Hd, Hf. rewrite length_app in Hf. cbn in Hf.
  pose proof (height_nonneg l). pose proof (height_nonneg r).
  destruct fuel as [|fuel]; [lia|]. cbn [itr_left root].
  destruct (itr_push_ok h it st a r) as (it1 & -> & Hon1 & Hr1); [done|by eexists|lia..|].
  rewrite bind_ok, (head_of_ok _ _ _ Ha), bind_ok. cbn [hd_p hd_p0].
  destruct (IHl it1 (st ++ [(a, r)]) fuel) as (it2 & -> & Hon2 & Hr2); [done|done| |lia|].
  { autorewrite with fb. lia. }
  exists it2. rewrite <- app_assoc in Hon2. split; [done|]. split; [done|]. congruence.
Qed.

Lemma itr_set_right_ok h it st a r :
  on_stack h it (st ++ [(a, r)]) ->
  itr_set_right h it = Ok (mk_itr (it_stack it) (it_top it) (root r)).
Proof.
  intros ((junk & Hst & _) & Htop & Hat & _). unfold itr_set_right.
  rewrite Hst, Htop, read_top at 1.
  apply Forall_app in Hat as [_ (n & Ha & Hn & _)%Forall_singleton]. cbn in Ha, Hn.
  rewrite bind_ok. cbn [fst]. rewrite (head_of_ok _ _ _ Ha), bind_ok. cbn. by rewrite Hn.
Qed.

Lemma on_stack_right h it st x : on_stack h it st -> on_stack h (mk_itr (it_stack it) (it_top it) x) st.
Proof. done. Qed.

Lemma left_spine_last t : t <> Leaf -> exists st e, left_spine t = st ++ [e].
Proof.
  intros Ht. destruct t as [|l a b n r]; [done|]. cbn.
  destruct (left_spine l) as [|e st _] using rev_ind; [by exists [], (a, r)|]. by exists ((a, r) :: st), e.
Qed.

(** ** The operations *)

Definition fresh_itr (it : kavl_itr) : Prop := zlen (it_stack it) = KAVL_MAX_DEPTH.

Lemma on_stack_empty h it : fresh_itr it -> on_stack h (mk_itr (it_stack it) (-1) (it_right it)) [].
Proof. intros Hf. split; [by exists (it_stack it)|]. by repeat split. Qed.

Lemma itr_at_intro h it st a r xs :
  on_stack h it (st ++ [(a, r)]) -> rests (st ++ [(a, r)]) = xs -> NoDup xs ->
  itr_at h (mk_itr (it_stack it) (it_top it) (root r)) xs.
Proof.
  intros Hon Hx Hnd. exists (st ++ [(a, r)]). split; [done|]. split; [done|]. split; [done|].
  intros a' r' Hl. rewrite last_snoc in Hl. by injection Hl as <- <-.
Qed.

Lemma itr_first_ok h rt xs it :
  kavl cmp h rt xs -> xs <> [] -> fresh_itr it -> exists it', kavl_itr_first h rt it = Ok it' /\ itr_at h it' xs.
Proof.
  intros (t & -> & <- & Hat & Hok & Hs & Hc) Hne Hf. unfold kavl_itr_first.
  apply (sorted_NoDup cmp) in Hs. pose proof (height_bound t Hok Hc).
  destruct (itr_left_ok (size h) h t _ [] (on_stack_empty h it Hf) Hat) as (it1 & -> & Hon & _).
  { unfold KAVL_MAX_DEPTH. change (zlen []) with 0. lia. } { by apply elems_fuel. }
  destruct (left_spine_last t) as (st & [a r] & Hsp); [by destruct t|]. cbn [app] in Hon.
  rewrite bind_ok. rewrite Hsp in Hon. erewrite itr_set_right_ok by done. eexists. split; [done|].
  eapply itr_at_intro; [done| |done]. by rewrite <- Hsp, rests_left_spine.
Qed.

Lemma itr_at_head h it xs : itr_at h it xs -> kavl_at it = Ok (head xs).
Proof.
  intros (st & ((junk & Hst & _) & Htop & _) & <- & _). unfold kavl_at. rewrite Htop.
  destruct st as [|[a r] st _] using rev_ind; [done|].
  destruct (Z.ltb_spec (zlen (st ++ [(a, r)]) - 1) 0) as [Hz|_].
  { autorewrite with fb in Hz. pose proof (zlen_nonneg st). lia. }
  by rewrite Hst, read_top, bind_ok, rests_app.
Qed.

Lemma tree_in_rests a t st : (a, t) ∈ st -> forall e, e = a \/ e ∈ elems t -> e ∈ rests st.
Proof.
  intros (l1 & l2 & ->)%list_elem_of_split e He. rewrite rests_app. cbn.
  apply elem_of_app. left. apply elem_of_app. right. by apply elem_of_cons.
Qed.

Lemma entries_frame h h' st :
  (forall e, e ∈ rests st -> h' !! e = h !! e) -> Forall (entry_at h) st -> Forall (entry_at h') st.
Proof.
  intros Hf Hst. apply Forall_forall. intros [a t] Hin. rewrite Forall_forall in Hst.
  destruct (Hst _ Hin) as (n & Ha & Hn & Ht). pose proof (tree_in_rests a t st Hin) as Hsub. exists n. cbn in *.
  rewrite Hf by (apply Hsub; by left). split; [done|]. split; [done|].
  eapply tree_at_frame, Ht. intros e He. apply Hf, Hsub. by right.
Qed.

(** The iterator moves to the next node; the node it leaves may have been
    freed, or changed, before. *)
Lemma itr_next_ok h h' it x xs :
  itr_at h it (x :: xs) -> (forall e, e ∈ xs -> h' !! e = h !! e) ->
  exists it', kavl_itr_next h' it = Ok (it', c_bool (bool_decide (xs <> []))) /\ itr_at h' it' xs.
Proof.
  intros (st & Hon & Hx & Hnd & Hr) Hh. destruct st as [|[a r] st _] using rev_ind; [done|].
  rewrite rests_app in Hx. cbn in Hx. injection Hx as -> Hx. specialize (Hr x r ltac:(apply last_snoc)).
  apply NoDup_cons in Hnd as [_ Hnd].
  destruct Hon as ((junk & Hst & Hlen) & Htop & [Hf (n & Ha & Hn & Hrt)%Forall_singleton]%Forall_app & [Hroom [Hro _]]%room_app).
  cbn in Hn, Hrt, Ha. rewrite zlen_app in Htop. cbn in Htop. rewrite zlen_cons, zlen_nil in Htop.
  assert (tree_at h' r) as Hrt' by (eapply tree_at_frame, Hrt; intros e He; apply Hh; rewrite <- Hx; apply elem_of_app; by left).
  apply (entries_frame _ h') in Hf; [|intros e He; apply Hh; rewrite <- Hx; apply elem_of_app; by right].
  unfold kavl_itr_next. rewrite Hr, Htop.
  destruct (itr_left_ok (size h') h' r (mk_itr (it_stack it) (zlen st + (0 + 1) - 1 - 1) (root r)) st)
    as (it1 & -> & Hon1 & Hr1); [|done|lia| |].
  { split; [|split; [cbn; lia|done]]. exists (Some x :: junk). unfold stack_of in Hst |- *.
    rewrite fmap_app, <- app_assoc in Hst. done. }
  { apply elems_fuel; [done|]. rewrite <- Hx, NoDup_app in Hnd. tauto. }
  rewrite bind_ok. assert (rests (st ++ left_spine r) = xs) as Hxs by (by rewrite rests_app, rests_left_spine).
  destruct (st ++ left_spine r) as [|[a' r'] st' _] using rev_ind.
  - cbn in Hxs. rewrite <- Hxs. pose proof Hon1 as (_ & Ht1 & _). rewrite Ht1. cbn.
    exists it1. split; [done|]. exists []. split; [done|]. split; [done|]. split; [constructor|done].
  - pose proof Hon1 as (_ & Ht1 & _). rewrite Ht1, zlen_app. cbn. rewrite zlen_cons, zlen_nil.
    pose proof (zlen_nonneg st'). destruct (Z.ltb_spec (zlen st' + (0 + 1) - 1) 0); [lia|].
    erewrite itr_set_right_ok by done. rewrite bind_ok. rewrite bool_decide_true.
    + eexists. split; [done|]. by eapply itr_at_intro.
    + intros ->. rewrite rests_app in Hxs. done.
Qed.

(** ** Searching with an iterator *)

(** The nodes that are at least [x]. *)
Definition from (x : Z) xs : list Z := filter (fun e => cmp x e <= 0) xs.

Lemma from_node x l a b n r :
  sorted_by cmp (elems (Node l a b n r)) ->
  from x (elems (Node l a b n r)) =
    if cmp x a <? 0 then from x (elems l) ++ a :: elems r
    else if 0 <? cmp x a then from x (elems r) else a :: elems r.
Proof.
  intros (_ & _ & Hl & Hr & _)%(sorted_node cmp). unfold from. cbn [elems]. rewrite filter_app.
  assert (0 <= cmp x a -> filter (fun e => cmp x e <= 0) (elems l) = []) as Hnone.
  { intros Hx. apply filter_none. intros e He%Hl. pose proof (cmp_sym (cmp:=cmp) e a). pose proof (cmp_sym (cmp:=cmp) x e).
    destruct (Z.eq_dec (cmp x a) 0) as [E|]; [pose proof (cmp_eq_l cmp x a e E); lia|].
    pose proof (cmp_gt_trans cmp x a e). lia. }
  assert (cmp x a <= 0 -> filter (fun e => cmp x e <= 0) (elems r) = elems r) as Hall.
  { intros Hx. apply filter_all, Forall_forall. intros e He%Hr. apply (cmp_trans (cmp:=cmp) x a e); lia. }
  destruct (Z.ltb_spec (cmp x a) 0).
  - by rewrite filter_cons_True, Hall by lia.
  - rewrite Hnone by done. destruct (Z.ltb_spec 0 (cmp x a)).
    + by rewrite filter_cons_False by lia.
    + by rewrite filter_cons_True, Hall by lia.
Qed.

Lemma itr_find_loop_ok fuel h t it st x :
  on_stack h it st -> tree_at h t -> sorted_by cmp (elems t) -> zlen st + height t <= KAVL_MAX_DEPTH ->
  (length (elems t) <= fuel)%nat ->
  exists it' st', itr_find_loop cmp fuel h (root t) x it = Ok (it', equal_node cmp x (elems t)) /\
    on_stack h it' st' /\
    match equal_node cmp x (elems t) with
    | Some a => exists r, entry_at h (a, r) /\ zlen st' + 1 + height r <= KAVL_MAX_DEPTH /\
        a :: elems r ++ rests st' = from x (elems t) ++ rests st
    | None => rests st' = from x (elems t) ++ rests st
    end.
Proof.
  revert it st fuel. induction t as [|l IHl a b n r IHr]; intros it st fuel Hon Hat Hs Hd Hf.
  { exists it, st. by destruct fuel. }
  destruct (equal_node_node cmp x _ _ _ _ _ Hs) as [-> _]. rewrite (from_node x _ _ _ _ _ Hs).
  apply (sorted_node cmp) in Hs as (Sl & Sr & _). destruct Hat as (Ha & Hl & Hr).
  cbn in Hd, Hf. rewrite length_app in Hf. cbn in Hf. pose proof (height_nonneg l). pose proof (height_nonneg r).
  destruct fuel as [|fuel]; [lia|]. cbn [itr_find_loop root]. rewrite (head_of_ok _ _ _ Ha), bind_ok.
  cbn [hd_p hd_p0 hd_p1]. destruct (cmp x a <? 0).
  - destruct (itr_push_ok h it st a r) as (it1 & -> & Hon1 & _); [done|by eexists|lia..|]. rewrite bind_ok.
    destruct (IHl it1 (st ++ [(a, r)]) fuel) as (it2 & st2 & -> & Hon2 & Hp); [done..| |lia|].
    { autorewrite with fb. lia. }
    exists it2, st2. rewrite rests_app in Hp. rewrite <- app_assoc. done.
  - destruct (0 <? cmp x a).
    + destruct (IHr it st fuel) as (it2 & st2 & -> & Hon2 & Hp); [done..|lia|lia|]. by exists it2, st2.
    + exists it, st. split; [done|]. split; [done|]. exists r. split; [by eexists|]. split; [lia|done].
Qed.

(** kavl_itr_find places the iterator at the first node that is not smaller
    than [x], and says whether it is equal. *)
Lemma itr_find_ok h rt xs it x :
  kavl cmp h rt xs -> fresh_itr it ->
  exists it', kavl_itr_find cmp h rt x it = Ok (it', c_bool (bool_decide (is_Some (equal_node cmp x xs)))) /\
    itr_at h it' (from x xs).
Proof.
  intros (t & -> & <- & Hat & Hok & Hs & Hc) Hf. unfold kavl_itr_find.
  pose proof (sorted_NoDup cmp _ Hs) as Hnd. pose proof (height_bound t Hok Hc).
  assert (NoDup (from x (elems t))) as Hnf by (by apply NoDup_filter).
  destruct (itr_find_loop_ok (size h) h t _ [] x (on_stack_empty h it Hf) Hat Hs) as (it1 & st1 & -> & Hon & Hp).
  { unfold KAVL_MAX_DEPTH. change (zlen []) with 0. lia. } { by apply elems_fuel. }
  rewrite bind_ok. cbn [rests] in Hp. rewrite ?app_nil_r in Hp. destruct (equal_node cmp x (elems t)) as [a|].
  - destruct Hp as (r & Ha & Hd & Hx). pose proof (height_nonneg r).
    destruct (itr_push_ok h it1 st1 a r) as (it2 & -> & Hon2 & _); [done|done|lia..|].
    destruct Ha as (n & Ha & Hn & _). cbn [fst snd] in Ha, Hn. rewrite bind_ok, (head_of_ok _ _ _ Ha), bind_ok, Hn.
    eexists. split; [done|]. eapply itr_at_intro; [done| |done]. by rewrite rests_app.
  - destruct st1 as [|[a r] st1 _] using rev_ind.
    + pose proof Hon as (_ & Ht & _). rewrite Ht. cbn. exists it1. split; [done|]. exists [].
      rewrite <- Hp. split; [done|]. split; [done|]. split; [constructor|done].
    + pose proof Hon as (_ & Ht & _). rewrite Ht.
      destruct (Z.leb_spec 0 (zlen (st1 ++ [(a, r)]) - 1)) as [_|Hz];
        [|autorewrite with fb in Hz; pose proof (zlen_nonneg st1); lia].
      erewrite itr_set_right_ok by done. rewrite bind_ok. eexists. split; [done|]. by eapply itr_at_intro.
Qed.
End itr.
