(* ===== verification/KavlInsert.v ===== *)
(** * kavl_insert: a balanced tree with one node more

    The way down is kept as two lists of frames, above and from [bp] on: below
    [bp] all balance factors are zero, so that the new node makes each subtree
    on the way higher by one, and what is above [bp] keeps its height. *)

From S2P Require Import Prelude Kavl KavlTree KavlSearch.
From Stdlib Require Import Sorted.

Section insert.
Context (cmp : Z -> Z -> Z) `{KavlOrder cmp}.
Implicit Types (h : kavl_heap) (t : tree) (c : list frame) (xs : list Z).

Definition insert_node (x : Z) xs : list Z :=
  filter (fun e => 0 <= cmp x e) xs ++ x :: filter (fun e => cmp x e < 0) xs.

(** ** The way down *)

Definition last_addr c : option Z := fr_a <$> last c.

(** [x] belongs at the end of the way. *)
Definition place x c : Prop :=
  (forall e, e ∈ ctx_pre c -> 0 < cmp x e) /\ (forall e, e ∈ ctx_post c -> cmp x e < 0).

(** The local variables at the end of the way [c1 ++ c2], [t] being below. *)
Record ins_at x c1 c2 t (s : ins_state) : Prop := {
  at_bp : in_bp s = ctx_root c2 (root t);
  at_bq : in_bq s = last_addr c1;
  at_p : in_p s = root t;
  at_q : in_q s = last_addr (c1 ++ c2);
  at_which : forall f, last (c1 ++ c2) = Some f -> in_which s = fr_d f;
  at_top : in_top s = zlen c2;
  at_stack : exists k, in_stack s = dirs_of c2 ++ k /\ zlen (in_stack s) = KAVL_MAX_DEPTH;
  at_path_len : in_path_len s = zlen (c1 ++ c2);
  at_path : exists k, in_path s = path_of (c1 ++ c2) ++ k /\ zlen (in_path s) = KAVL_MAX_DEPTH;
  at_zero : Forall (fun f => fr_b f = 0) (tail c2);
  at_start : c2 = [] -> c1 = [];
  at_head : c1 = [] \/ exists f k, c2 = f :: k /\ fr_b f <> 0;
  at_place : place x (c1 ++ c2)
}.

Lemma place_snoc x c f :
  place x c -> (forall e, e ∈ elems (fr_s f) -> if fr_d f then 0 < cmp x e else cmp x e < 0) ->
  (if fr_d f then 0 < cmp x (fr_a f) else cmp x (fr_a f) < 0) -> place x (c ++ [f]).
Proof.
  intros [H1 H2] Hs Ha. unfold place. rewrite ctx_pre_app, ctx_post_app. cbn.
  destruct (fr_d f); cbn; rewrite ?app_nil_r; split; intros e; rewrite ?elem_of_app, ?elem_of_cons, ?elem_of_app; intros He; destruct_or?; subst; try (by apply not_elem_of_nil in He); by eauto.
Qed.

Lemma ins_at_start x t : ins_at x [] [] t (ins_start (root t)).
Proof.
  constructor; try done; try (by eexists); try (by left); try (by constructor).
  split; by intros e ?%not_elem_of_nil.
Qed.

(** One node further down: the frame [f] leads to [t]. *)
Lemma ins_step fuel h x c1 c2 s f t n cnt :
  ins_at x c1 c2 (plug1 f t) s ->
  h !! fr_a f = Some n -> hd_balance n = fr_b f -> hd_p n (fr_d f) = root t ->
  cmp x (fr_a f) <> 0 -> fr_d f = (0 <? cmp x (fr_a f)) ->
  add_left h (cmp x (fr_a f)) (fr_a f) (in_cnt s) = Ok cnt ->
  place x ((c1 ++ c2) ++ [f]) -> zlen (c1 ++ c2) < KAVL_MAX_DEPTH ->
  exists s' c1' c2', ins_search cmp (S fuel) h x s = ins_search cmp fuel h x s' /\ in_cnt s' = cnt /\
    (c1 ++ c2) ++ [f] = c1' ++ c2' /\ ins_at x c1' c2' t s'.
Proof.
  intros [Hbp Hbq Hp Hq Hw Htop (k & Hst & Hsl) Hlen (k' & Hpa & Hpl) Hz Hstart Hhead _] Ha Hab Had Hc0 Hcd Hcnt Hplace Hroom.
  cbn [ins_search]. rewrite Hp. unfold plug1 at 1. rewrite root_nd, Hcnt, bind_ok.
  destruct (Z.eqb_spec (cmp x (fr_a f)) 0); [done|]. rewrite (head_of_ok _ _ _ Ha), bind_ok, Hab, <- Hcd, Had, Hlen, Hpa.
  destruct (arr_set_end (path_of (c1 ++ c2)) k' (zlen (c1 ++ c2)) (Some (fr_a f))) as (j' & -> & Hj');
    [by rewrite zlen_path_of|by rewrite <- Hpa, Hpl|].
  destruct (fr_b f =? 0) eqn:Hb; cbn [negb].
  - apply Z.eqb_eq in Hb. rewrite Htop, Hst.
    destruct (arr_set_end (dirs_of c2) k (zlen c2) (Some (fr_d f))) as (j & -> & Hj);
      [by rewrite zlen_dirs_of|rewrite <- Hst, Hsl; autorewrite with fb in Hroom; pose proof (zlen_nonneg c1); lia|].
    rewrite !bind_ok. eexists _, c1, (c2 ++ [f]). split; [reflexivity|]. split; [done|]. split; [by rewrite app_assoc|].
    constructor; cbn [in_bp in_bq in_p in_q in_which in_top in_stack in_path_len in_path]; try done.
    + rewrite Hbp, ctx_root_app. cbn. destruct c2; [|done]. cbn. unfold plug1. by rewrite root_nd.
    + unfold last_addr. by rewrite app_assoc, last_snoc.
    + intros g. rewrite app_assoc, last_snoc. by intros [= ->].
    + autorewrite with fb. lia.
    + exists j. rewrite dirs_of_app. split; [done|]. unfold zlen in *. rewrite Hst in Hsl. rewrite !length_app in *. cbn. lia.
    + autorewrite with fb. lia.
    + exists j'. rewrite (app_assoc c1), (path_of_app (c1 ++ c2)). split; [done|]. unfold zlen in *. rewrite Hpa in Hpl.
      rewrite !length_app in *. cbn. lia.
    + destruct c2 as [|g c2]; [by constructor|]. cbn in Hz |- *. by apply Forall_app_2; [|constructor].
    + intros ?%(f_equal length). rewrite length_app in *. cbn in *. lia.
    + destruct Hhead as [|(g & j0 & -> & Hg)]; [by left|right]. by exists g, (j0 ++ [f]).
    + by rewrite app_assoc.
  - apply Z.eqb_neq in Hb.
    destruct (arr_set_end [] (in_stack s) 0 (Some (fr_d f))) as (j & Hset & Hj); [done|cbn; rewrite Hsl; done|].
    cbn [app] in Hset. rewrite Hset, !bind_ok.
    eexists _, (c1 ++ c2), [f]. split; [reflexivity|]. split; [done|]. split; [done|].
    constructor; cbn [in_bp in_bq in_p in_q in_which in_top in_stack in_path_len in_path]; try done.
    + unfold last_addr. by rewrite last_snoc.
    + intros g. rewrite last_snoc. by intros [= ->].
    + exists j. split; [done|]. unfold zlen in *. cbn. lia.
    + autorewrite with fb. lia.
    + exists j'. rewrite (path_of_app (c1 ++ c2)). split; [done|]. unfold zlen in *. rewrite Hpa in Hpl.
      rewrite !length_app in *. cbn. lia.
    + right. by exists f, [].
Qed.
Lemma ins_search_ok t fuel h x c1 c2 s :
  ins_at x c1 c2 t s -> tree_at h t -> tree_ok t -> sorted_by cmp (elems t) ->
  (length (elems t) <= fuel)%nat -> zlen (c1 ++ c2) + height t <= 45 ->
  0 <= in_cnt s -> in_cnt s + count t < 2 ^ 32 ->
  exists s', in_cnt s' = in_cnt s + rank cmp x (elems t) /\
    ins_search cmp fuel h x s = Ok (s', equal_node cmp x (elems t)) /\
    (equal_node cmp x (elems t) = None -> exists c1' c2',
       plug (c1 ++ c2) t = plug (c1' ++ c2') Leaf /\ ins_at x c1' c2' Leaf s').
Proof.
  revert fuel c1 c2 s. induction t as [|l IHl a b n r IHr]; intros fuel c1 c2 s Hs Hat Hok Hso Hf Hd Hc0 Hc.
  { exists s. split; [rewrite rank_none by (by intros ? ?%not_elem_of_nil); lia|]. split.
    - destruct fuel; cbn; by rewrite (at_p _ _ _ _ _ Hs).
    - intros _. by exists c1, c2. }
  destruct (equal_node_node cmp x _ _ _ _ _ Hso) as [-> ->].
  pose proof (proj1 (sorted_node cmp _ _ _ _ _) Hso) as (Sl & Sr & Sla & Sar & _).
  rewrite count_node in Hc. pose proof (count_nonneg l). pose proof (count_nonneg r).
  cbn in Hd, Hf. rewrite length_app in Hf. cbn in Hf. pose proof (height_nonneg l). pose proof (height_nonneg r).
  destruct fuel as [|fuel]; [lia|].
  pose proof (add_left_ok h (cmp x a) l a b n r (in_cnt s) Hat Hok Hc0 ltac:(lia)) as Hadd.
  destruct Hat as (Ha & Hl & Hr), Hok as (Eb & Hb & En & Okl & Okr).
  pose proof (at_place _ _ _ _ _ Hs) as Hplace.
  destruct (Z.ltb_spec (cmp x a) 0), (Z.leb_spec 0 (cmp x a)); try lia.
  - edestruct (ins_step fuel h x c1 c2 s (mk_frame false a b n r) l) as (s' & c1' & c2' & -> & Hcs & Hcc & Hs');
      cbn; try done; try lia.
    { apply place_snoc; [done| |done]. cbn. intros e He%Sar. by apply (cmp_lt_trans cmp x a e). }
    { unfold KAVL_MAX_DEPTH. lia. }
    destruct (IHl fuel c1' c2' s') as (s2 & Hc2 & Hrun & Hn); try done; try lia.
    { rewrite <- Hcc, (zlen_app (c1 ++ c2)), zlen_cons, zlen_nil. lia. }
    exists s2. split; [lia|]. split; [done|]. intros (k1 & k2 & Hp & Hk)%Hn. exists k1, k2. split; [|done].
    rewrite <- Hcc, plug_app in Hp. done.
  - destruct (Z.ltb_spec 0 (cmp x a)).
    + edestruct (ins_step fuel h x c1 c2 s (mk_frame true a b n l) r) as (s' & c1' & c2' & -> & Hcs & Hcc & Hs');
        cbn; try done; try lia.
      { apply place_snoc; [done| |done]. cbn. intros e He%Sla. by apply (cmp_gt_trans cmp x a e). }
      { unfold KAVL_MAX_DEPTH. lia. }
      destruct (IHr fuel c1' c2' s') as (s2 & Hc2 & Hrun & Hn); try done; try lia.
      { rewrite <- Hcc, (zlen_app (c1 ++ c2)), zlen_cons, zlen_nil. lia. }
      exists s2. split; [lia|]. split; [done|]. intros (k1 & k2 & Hp & Hk)%Hn. exists k1, k2. split; [|done].
      rewrite <- Hcc, plug_app in Hp. done.
    + eexists. split; [|split; [|done]].
      2: { cbn [ins_search]. rewrite (at_p _ _ _ _ _ Hs). cbn [root]. rewrite Hadd, bind_ok.
           destruct (Z.eqb_spec (cmp x a) 0); [reflexivity|lia]. }
      cbn. lia.
Qed.

(** ** Sizes and balance factors on the way *)

Definition bal (f : frame) : frame := f <| fr_b := fr_b f + (if fr_d f then 1 else -1) |>.

Lemma bal_place : same_place bal.
Proof. done. Qed.

Lemma ins_balance_at fuel h c c0 rest x top :
  ctx_at h c (Some x) -> NoDup (ctx_elems c) -> x ∉ ctx_elems c -> Forall (fun f => -1 <= fr_b f <= 1) c ->
  (length c <= fuel)%nat -> top = zlen c0 ->
  exists h', ins_balance fuel h (dirs_of (c0 ++ c) ++ rest) (ctx_root c (Some x)) x top = Ok h' /\
    same_but (fr_a <$> c) h h' /\ ctx_at h' (bal <$> c) (Some x).
Proof.
  revert c0 h fuel top. induction c as [|f c IH]; intros c0 h fuel top Hat Hnd Hx Hb Hf ->.
  { exists h. cbn. split; [|done]. destruct fuel; cbn; by rewrite bool_decide_true. }
  destruct Hat as [[Ha Hs] Hat]. apply NoDup_ctx_cons in Hnd as (Has & Hac & _ & Hsc & Hnd).
  apply Forall_cons in Hb as [Hbf Hb]. destruct fuel as [|fuel]; cbn in Hf; [lia|].
  rewrite elem_of_ctx_cons in Hx. apply Decidable.not_or in Hx as [Hxa [Hxs Hxc]%Decidable.not_or].
  cbn [ins_balance ctx_root]. rewrite bool_decide_false by congruence.
  rewrite (read_dir c0) by done. rewrite bind_ok. cbn [deref]. rewrite bind_ok.
  assert (-128 <= fr_b f + (if fr_d f then 1 else -1) < 128) by (destruct (fr_d f); lia).
  repeat kavl_step. set (n := nd_head _ _ _ (fr_b f + _) _).
  destruct (IH (c0 ++ [f]) (<[fr_a f := n]> h) fuel (zlen c0 + 1)) as (h' & Hrun & Hsb & Hat'); try done; try lia.
  { by apply ctx_at_insert. } { by autorewrite with fb. }
  rewrite <- app_assoc in Hrun. exists h'. split; [exact Hrun|]. split; [|split; [split|done]].
  - intros y Hy. rewrite Hsb by set_solver. apply lookup_insert_ne. set_solver.
  - rewrite ctx_root_map by apply bal_place. cbn.
    rewrite Hsb by (intros ?%ctx_addr_elems; done). by rewrite lookup_insert_eq.
  - cbn. eapply tree_at_frame, Hs. intros y Hy. rewrite Hsb by (intros ?%ctx_addr_elems; by eapply Hsc).
    apply lookup_insert_ne. congruence.
Qed.

(** Below [bp]: every subtree on the way becomes higher by one. *)
Lemma zero_path c x :
  Forall (fun f => fr_b f = 0) c -> ctx_ok c 0 0 ->
  let t := plug (bal <$> (add_n 1 <$> c)) (Node Leaf x 0 1 Leaf) in
  tree_ok t /\ height t = ctx_height c 0 + 1 /\
  forall l a b n r d, t = nd d l a b n r -> c <> [] -> b <> 0.
Proof.
  induction c as [|f c IH]; intros Hz Hok; cbn zeta.
  - split; [by cbn|]. split; [by cbn|]. by intros.
  - apply Forall_cons in Hz as [Hf Hz]. destruct Hok as [(Hb & Hr & Hn & Hs) Hok].
    destruct (IH Hz Hok) as (IH1 & IH2 & _). clear IH. set (t := plug _ _) in IH1, IH2.
    assert (count t = ctx_count c 0 + 1) as Hct.
    { subst t. rewrite count_plug, !ctx_count_map by done. by rewrite <- ctx_count_add. }
    cbn [fmap list_fmap plug]. unfold plug1. fold t. change (fr_d (bal (add_n 1 f))) with (fr_d f).
    change (fr_s (bal (add_n 1 f))) with (fr_s f). change (fr_a (bal (add_n 1 f))) with (fr_a f).
    change (fr_n (bal (add_n 1 f))) with (fr_n f + 1).
    change (fr_b (bal (add_n 1 f))) with (fr_b f + if fr_d f then 1 else -1).
    rewrite Hf in *. cbn [ctx_height]. rewrite tree_ok_nd, height_nd, IH2, Hct, Hn.
    assert (height (fr_s f) = ctx_height c 0) as Hh by (destruct (fr_d f); cbn in Hb; lia).
    rewrite Hh. split; [|split; [lia|]].
    + destruct (fr_d f); cbn; repeat split; try done; lia.
    + intros l a b n r d Ht _. destruct (fr_d f), d; cbn in Ht; injection Ht as <- <- <- <- <-; lia.
Qed.
(** ** Rotating at [bp] *)

Lemma sub_at h c t : tree_at h (plug c t) -> tree_at h t.
Proof. by intros [_ Hat]%tree_at_plug. Qed.

(** The subtree at [p] is two higher on the side [negb which], where its
    child is not balanced either. *)
Lemma ins_rotate h which A p b n t :
  let T := nd which A p b n t in
  tree_at h T -> NoDup (elems T) -> tree_ok A -> tree_ok t -> height t = height A + 2 ->
  (forall l a b n r d, t = nd d l a b n r -> b <> 0) ->
  n = count A + count t + 1 -> n < 2 ^ 32 ->
  exists q nq h' T', root t = Some q /\ h !! q = Some nq /\
    (if hd_balance nq =? dir_sign which then
       '(h, r) ← kavl_rotate1 h p which; h ← store_balance h p 0; h ← store_balance h q 0; mret (h, r)
     else kavl_rotate2 h p which) = Ok (h', default 0 (root T')) /\
    tree_at h' T' /\ tree_ok T' /\ height T' = height t /\ elems T' = elems T /\ same_but (elems T) h h' /\ T' <> Leaf.
Proof.
  cbn zeta. intros Hat Hnd HA Ht Hh Hb0 Hn Hlt. pose proof (height_nonneg A).
  destruct (tree_ok_nonleaf which t) as (B & q & bq & nq & C & ->); [lia|].
  specialize (Hb0 _ _ _ _ _ _ eq_refl). pose proof Ht as Ht'.
  apply tree_ok_nd in Ht' as (Hbq & Hbr & Hnq & HB & HC). rewrite side_balance_sign in Hbq.
  rewrite height_nd in Hh. rewrite count_nd in Hn.
  exists q, (nd_head which (root B) (root C) bq nq).
  assert (h !! q = Some (nd_head which (root B) (root C) bq nq)) as Hq.
  { apply tree_at_nd in Hat as (_ & _ & Hat). apply tree_at_nd in Hat. tauto. }
  assert (same_but [p; q] h h -> True) as _ by done. rewrite hd_balance_nd.
  destruct (Z.eqb_spec bq (dir_sign which)) as [E|E].
  - destruct (rotate1_at h which A p b n B q bq nq C) as (h1 & -> & Hsb & Hat1); try done.
    { rewrite !count_nd. lia. }
    assert (height C = height A + 1 /\ height B = height A) as [HhC HhB].
    { destruct (dir_sign_cases which) as [D|D]; rewrite D in *; lia. }
    pose proof Hat1 as Hat1'. rewrite !tree_at_nd, root_nd in Hat1'. destruct Hat1' as (Hq1 & (Hp1 & HA1 & HB1) & HC1).
    pose proof Hnd as Hnd'. rewrite !NoDup_nd, !elems_nd in Hnd'.
    destruct Hnd' as (HpA & Hpq & NA & (HqB & HqC & NB & NC & Dq) & Dp).
    assert (p <> q /\ p ∉ elems B /\ p ∉ elems C) as (Npq & HpB & HpC) by tauto.
    assert (q ∉ elems A) as HqA by (intros Hx; apply (Dp _ Hx), elems_nd; by left).
    rewrite bind_ok. repeat kavl_step.
    eexists _, (nd which (nd which A p 0 (count A + count B + 1) B) q 0 n C).
    rewrite root_nd. split; [done|]. split; [done|]. split; [reflexivity|]. split; [|split; [|split; [|split; [|split]]]].
    + rewrite !tree_at_nd. autorewrite with kavl. kavl_frame.
    + replace n with (count A + (count B + count C + 1) + 1) by lia.
      apply rotate1_ok; try done; destruct (dir_sign_cases which) as [D|D]; rewrite D in *; lia.
    + rewrite !height_nd. lia.
    + apply elems_rotate1.
    + intros y Hy. rewrite !elems_nd in Hy. rewrite !lookup_insert_ne by (intros ->; tauto).
      apply Hsb. rewrite !elem_of_cons, elem_of_nil. tauto.
    + by destruct which.
  - destruct (tree_ok_nonleaf which B) as (B1 & r & br & nr & B2 & ->).
    { pose proof (height_nonneg B). destruct (dir_sign_cases which) as [D|D]; rewrite D in *; lia. }
    assert (height (nd which B1 r br nr B2) = height A + 1 /\ height C = height A) as [HhB HhC].
    { destruct (dir_sign_cases which) as [D|D]; rewrite D in *; lia. }
    pose proof (proj1 (tree_ok_nd _ _ _ _ _ _) HB) as (_ & _ & Hnr & HB1 & HB2). rewrite count_nd in Hn, Hnq.
    destruct (rotate2_at h which A p b n B1 r br nr B2 q bq nq C) as (h1 & -> & Hsb & Hat1); try done.
    { rewrite !count_nd. lia. }
    replace n with (count A + (count B1 + count B2 + 1 + count C + 1) + 1) in Hat1 by lia.
    eexists _, _. split; [by rewrite root_nd|]. split; [done|]. split; [|split; [exact Hat1|]]; [by rewrite root_nd|].
    destruct (rotate2_ok which A p B1 r br nr B2 q C) as [R1 R2]; try done.
    split; [done|]. split; [rewrite R2, height_nd; lia|]. split; [by apply elems_rotate2|]. split; [|by destruct which].
    eapply same_but_weaken, Hsb. intros y. rewrite !elem_of_cons, !elems_nd. set_solver.
Qed.
Lemma root_in t a : root t = Some a -> a ∈ elems t.
Proof. destruct t; cbn; [done|]. intros [= ->]. set_solver. Qed.

(** [bp != bq->p[0]] is the side of [bq] that [bp] is on. *)
Lemma bq_side f p : p ∉ elems (fr_s f) ->
  negb (bool_decide (Some p = hd_p (nd_head (fr_d f) (Some p) (root (fr_s f)) (fr_b f) (fr_n f)) false)) = fr_d f.
Proof.
  intros Hp. destruct (fr_d f); cbn; [|by rewrite bool_decide_true]. rewrite bool_decide_false; [done|].
  intros E. by apply Hp, root_in.
Qed.

Lemma ins_rebalance_at h c1 d t1 p b n s :
  let T := plug c1 (nd d t1 p b n s) in
  tree_at h T -> NoDup (elems T) -> tree_ok t1 -> tree_ok s -> height t1 = height s + 2 ->
  b = side_balance d (height t1) (height s) -> (forall l a b n r d, t1 = nd d l a b n r -> b <> 0) ->
  n = count t1 + count s + 1 -> n < 2 ^ 32 ->
  exists h' sub, ins_rebalance h (root T) (last_addr c1) p = Ok (h', root (plug c1 sub)) /\
    tree_at h' (plug c1 sub) /\ tree_ok sub /\ height sub = height t1 /\
    elems sub = elems (nd d t1 p b n s) /\ same_but (elems T) h h'.
Proof.
  cbn zeta. intros Hat Hnd Ht1 Hs Hh Hb Hb0 Hn Hlt. pose proof (sub_at _ _ _ Hat) as Hsub.
  pose proof Hsub as (Hp & _)%tree_at_nd.
  apply tree_at_plug in Hat as [Hc _]. apply NoDup_plug in Hnd as (Nc & Dc & Nsub).
  assert ((hd_balance (nd_head d (root t1) (root s) b n) <? 0) = negb d) as Hw.
  { rewrite hd_balance_nd, Hb, Hh. destruct d; cbn; [apply Z.ltb_ge|apply Z.ltb_lt]; lia. }
  destruct (ins_rotate h (negb d) s p b n t1) as (q & nq & h1 & T' & Hq & Hnq & Hrun & Hat1 & Hok1 & Hh1 & He1 & Hsb1 & Hne);
    rewrite <- ?nd_swap; try done; try lia.
  rewrite <- nd_swap in He1, Hsb1.
  unfold ins_rebalance. rewrite (head_of_ok _ _ _ Hp), bind_ok, Hw, negb_involutive, hd_p_same, Hq.
  cbn [deref]. rewrite bind_ok, (head_of_ok _ _ _ Hnq), bind_ok, Hrun, bind_ok.
  destruct (root T') as [r|] eqn:Hr; [|by destruct T']. cbn [default].
  assert (ctx_at h1 c1 (Some p)) as Hc1.
  { rewrite root_nd in Hc. eapply same_but_ctx; [done| |done]. intros y Hy. by apply Dc. }
  destruct c1 as [|g c0 _] using rev_ind.
  - cbn [last_addr last fmap option_fmap option_map plug]. exists h1, T'. rewrite Hr.
    repeat split; try done.
  - unfold last_addr. rewrite last_snoc. cbn [fmap option_fmap option_map].
    pose proof Hc1 as [_ [[Hg _] _]]%ctx_at_app. cbn [ctx_root] in Hg. rewrite (head_of_ok _ _ _ Hg), bind_ok.
    rewrite bq_side.
    2: { intros Hx. eapply (Dc p); [|apply elems_nd; by left]. apply elem_of_ctx_app. right.
         apply elem_of_ctx_cons. tauto. }
    rewrite (store_p_ok _ _ _ _ _ Hg), bind_ok, set_p_same. set (h2 := <[_ := _]> h1).
    assert (same_but [fr_a g] h1 h2) as Hsb2.
    { apply same_but_insert; [by apply list_elem_of_here|apply same_but_refl]. }
    exists h2, T'. split; [rewrite !root_plug; by destruct c0|]. split; [|repeat split; try done].
    + apply tree_at_plug. rewrite Hr. split.
      * eapply ctx_at_snoc_store; [done..|]. subst h2. by rewrite lookup_insert_eq.
      * eapply same_but_tree; [done| |done]. intros y Hy Hy'%list_elem_of_singleton. subst y. rewrite He1 in Hy.
        eapply (Dc (fr_a g)); [|done]. apply elem_of_ctx_app. right. apply elem_of_ctx_cons. tauto.
    + intros y Hy. rewrite elems_plug_perm, elem_of_app, elem_of_ctx_app, elem_of_ctx_cons in Hy.
      rewrite Hsb2, Hsb1; [done|tauto|]. intros ->%list_elem_of_singleton. tauto.
Qed.
(** ** kavl_insert *)

Abbreviation leaf_node x := (Node Leaf x 0 1 Leaf).

(** The new node is written and linked. *)
Lemma ins_link_at h x n c g p :
  h !! x = Some n -> x ∉ ctx_elems (c ++ [g]) -> NoDup (ctx_elems (c ++ [g])) -> ctx_at h (c ++ [g]) p ->
  exists h', (h ← store_balance h x 0; h ← store_size h x 1; h ← store_p h x true None; h ← store_p h x false None;
              store_p h (fr_a g) (fr_d g) (Some x)) = Ok h' /\
    tree_at h' (leaf_node x) /\ ctx_at h' (c ++ [g]) (Some x) /\ same_but [x; fr_a g] h h'.
Proof.
  intros Hx Hxc Hnd Hc. pose proof Hc as [_ [[Hg _] _]]%ctx_at_app. cbn [ctx_root] in Hg.
  assert (x <> fr_a g) as Nxg by (intros ->; apply Hxc, elem_of_ctx_app; right; apply elem_of_ctx_cons; tauto).
  destruct n as [n0 n1 nb ns]. do 4 kavl_step.
  set (h1 := <[x := _]> (<[x := _]> (<[x := _]> (<[x := _]> h)))).
  assert (h1 !! fr_a g = h !! fr_a g) as Hg1 by (subst h1; by rewrite !lookup_insert_ne by done).
  rewrite (store_p_ok _ _ _ _ _ (eq_trans Hg1 Hg)), set_p_same. eexists. split; [reflexivity|].
  assert (same_but [x] h h1) as Hs1.
  { intros y Hy. subst h1. by rewrite !lookup_insert_ne by (intros ->; by apply Hy, list_elem_of_singleton). }
  split; [|split].
  - split; [|done]. rewrite lookup_insert_ne by done. subst h1. by rewrite lookup_insert_eq.
  - eapply ctx_at_snoc_store; [|done| |by rewrite lookup_insert_eq].
    + eapply same_but_ctx; [done| |done]. intros y Hy ->%list_elem_of_singleton. done.
    + apply same_but_insert; [by apply list_elem_of_here|apply same_but_refl].
  - apply same_but_insert; [rewrite !elem_of_cons; tauto|]. eapply same_but_weaken, Hs1.
    intros y. rewrite !elem_of_cons. tauto.
Qed.

(** The sizes and balance factors are updated. *)
Lemma ins_update_at h x c1 c2 k k' z :
  tree_at h (leaf_node x) -> ctx_at h (c1 ++ c2) (Some x) -> NoDup (ctx_elems (c1 ++ c2)) -> x ∉ ctx_elems (c1 ++ c2) ->
  ctx_ok (c1 ++ c2) 0 0 -> ctx_count (c1 ++ c2) 0 + 1 < 2 ^ 32 -> z = zlen (c1 ++ c2) ->
  exists h', (h ← grow_sizes (Z.to_nat z) h (path_of (c1 ++ c2) ++ k) 0;
              ins_balance (size h) h (dirs_of c2 ++ k') (ctx_root c2 (Some x)) x 0) = Ok h' /\
    tree_at h' (plug ((add_n 1 <$> c1) ++ (bal <$> (add_n 1 <$> c2))) (leaf_node x)) /\
    same_but (ctx_elems (c1 ++ c2)) h h'.
Proof.
  intros Hx Hc Hnd Hxc Hok Hlt ->. unfold zlen. rewrite Nat2Z.id.
  destruct (bump_sizes_at 1 (c1 ++ c2) [] k h (Some x) 0 Hc Hnd) as (h1 & Hrun & Hsb & Hc1); [|done|].
  { eapply Forall_impl; [by eapply ctx_ok_sizes|]. cbn. lia. }
  unfold grow_sizes. cbn [app] in Hrun. rewrite Hrun, bind_ok. rewrite fmap_app, ctx_at_app in Hc1.
  destruct Hc1 as [Hc11 Hc12]. pose proof Hnd as (Nc1 & Dc & Nc2)%NoDup_ctx_app.
  rewrite elem_of_ctx_app in Hxc. apply Decidable.not_or in Hxc as [Hx1 Hx2].
  apply ctx_ok_app in Hok as [_ Hok2%ctx_ok_balances].
  destruct (ins_balance_at (size h1) h1 (add_n 1 <$> c2) [] k' x 0) as (h2 & Hrun2 & Hsb2 & Hc2); try done;
    rewrite ?ctx_elems_map, ?length_fmap by apply add_n_place; try done.
  { rewrite Forall_fmap. eapply Forall_impl; [done|]. done. }
  { rewrite <- (length_fmap (add_n 1)). eapply ctx_fuel; [done|]. by rewrite ctx_elems_map. }
  cbn [app] in Hrun2. rewrite dirs_of_map, ctx_root_map in Hrun2 by apply add_n_place.
  rewrite addrs_map in Hsb2 by apply add_n_place.
  exists h2. split; [done|]. split.
  - apply tree_at_plug. rewrite ctx_at_app. split; [split; [|done]|].
    + rewrite ctx_root_map by apply bal_place. eapply same_but_ctx; [done| |done].
      intros y Hy Hy'%ctx_addr_elems. rewrite ctx_elems_map in Hy by apply add_n_place. by eapply Dc.
    + eapply same_but_tree; [done| |].
      { intros y ->%list_elem_of_singleton Hy%ctx_addr_elems. done. }
      eapply same_but_tree; [done| |done]. intros y ->%list_elem_of_singleton Hy%ctx_addr_elems.
      apply elem_of_ctx_app in Hy. tauto.
  - intros y Hy. rewrite elem_of_ctx_app in Hy. rewrite Hsb2, Hsb; [done| |].
    + intros Hy'%ctx_addr_elems. by rewrite elem_of_ctx_app in Hy'.
    + intros Hy'%ctx_addr_elems. tauto.
Qed.
(** The tree before the rotations: [tree_ok] but for the node [bp]. *)
Lemma ins_grown_ok x c1 f k :
  ctx_ok (c1 ++ f :: k) 0 0 -> Forall (fun g => fr_b g = 0) k -> c1 = [] \/ fr_b f <> 0 ->
  let c1' := add_n 1 <$> c1 in
  let t1 := plug (bal <$> (add_n 1 <$> k)) (leaf_node x) in
  let b := fr_b f + (if fr_d f then 1 else -1) in
  let sub := nd (fr_d f) t1 (fr_a f) b (fr_n f + 1) (fr_s f) in
  tree_ok t1 /\ (forall l a b n r d, t1 = nd d l a b n r -> k <> [] -> b <> 0) /\ tree_ok (fr_s f) /\
  height t1 = ctx_height k 0 + 1 /\ count t1 = ctx_count k 0 + 1 /\
  b = side_balance (fr_d f) (height t1) (height (fr_s f)) /\ fr_n f + 1 = count t1 + count (fr_s f) + 1 /\
  (-1 <= b <= 1 -> tree_ok (plug c1' sub)) /\
  (forall sub', tree_ok sub' -> height sub' = ctx_height (f :: k) 0 -> count sub' = count sub -> tree_ok (plug c1' sub')).
Proof.
  intros [Hc1 [(Hb & Hr & Hn & Hs) Hk]]%ctx_ok_app Hz Hhead. cbn zeta.
  destruct (zero_path k x Hz Hk) as (H1 & H2 & H3). set (t1 := plug _ _) in *.
  assert (count t1 = ctx_count k 0 + 1) as Hct.
  { subst t1. rewrite count_plug, !ctx_count_map by done. by rewrite <- ctx_count_add. }
  split; [done|]. split; [done|]. split; [done|]. split; [done|]. split; [done|].
  assert (fr_b f + (if fr_d f then 1 else -1) = side_balance (fr_d f) (height t1) (height (fr_s f))) as Hb'.
  { rewrite H2, Hb. destruct (fr_d f); cbn; lia. }
  split; [done|]. split; [lia|].
  assert (forall sub', tree_ok sub' -> count sub' = count t1 + count (fr_s f) + 1 ->
    c1 = [] \/ height sub' = ctx_height (f :: k) 0 -> tree_ok (plug (add_n 1 <$> c1) sub')) as Hplug.
  { intros sub' Hok' Hcnt' [-> | Hh']; [done|]. apply tree_ok_plug. split; [|done].
    rewrite Hcnt', Hct, Hh'. replace (ctx_count k 0 + 1 + count (fr_s f) + 1) with (ctx_count (f :: k) 0 + 1)
      by (rewrite ctx_count_cons; lia). by apply ctx_ok_add. }
  split.
  - intros Hb1. apply Hplug; [|by rewrite count_nd|].
    + rewrite tree_ok_nd. repeat split; try done; try lia.
    + destruct Hhead as [|Hf0]; [by left|right]. rewrite height_nd. cbn [ctx_height].
      destruct (fr_d f); cbn in Hb, Hb'; lia.
  - intros sub' Hok' Hh' Hcnt'. rewrite count_nd in Hcnt'. apply Hplug; auto.
Qed.

Lemma equal_node_notin x xs : equal_node cmp x xs = None -> x ∉ xs.
Proof.
  intros He Hx. unfold equal_node in He.
  assert (x ∈ filter (fun e => cmp x e = 0) xs) as Hin by (apply list_elem_of_filter; split; [by apply cmp_refl|done]).
  destruct (filter _ xs); [by apply not_elem_of_nil in Hin|done].
Qed.

Lemma insert_node_place x c : place x c -> insert_node x (ctx_elems c) = ctx_pre c ++ x :: ctx_post c.
Proof.
  intros [H1 H2]. unfold insert_node, ctx_elems. rewrite !filter_app.
  rewrite (filter_all _ (ctx_pre c)) by (apply Forall_forall; intros e He%H1; lia).
  rewrite (filter_none _ (ctx_post c)) by (intros e He%H2; lia). rewrite app_nil_r.
  rewrite (filter_none _ (ctx_pre c)) by (intros e He%H1; lia).
  by rewrite (filter_all _ (ctx_post c)) by (apply Forall_forall; intros e He%H2; lia).
Qed.

Lemma insert_node_sorted x c : place x c -> sorted_by cmp (ctx_elems c) -> sorted_by cmp (ctx_pre c ++ x :: ctx_post c).
Proof.
  intros [H1 H2] (S1 & S2 & S3)%sorted_app. apply sorted_app. split; [done|]. split.
  - apply sorted_cons. by split.
  - intros y z Hy [->|Hz]%elem_of_cons; [|by apply S3]. pose proof (cmp_sym (cmp:=cmp) x y). specialize (H1 y Hy). lia.
Qed.
Lemma kavl_intro h t xs :
  tree_at h t -> tree_ok t -> elems t = xs -> sorted_by cmp xs -> zlen xs < 2 ^ 32 -> kavl cmp h (root t) xs.
Proof. intros Hat Hok <- Hs Hc. exists t. repeat split; done. Qed.

(** What kavl_insert does once the new node is in its place and the sizes and
    balance factors are updated. *)
Definition ins_balanced h (rt bq : option Z) (bp : Z) : outcome (kavl_heap * option Z) :=
  nb ← head_of h bp;
  if (-2 <? hd_balance nb) && (hd_balance nb <? 2) then mret (h, rt) else ins_rebalance h rt bq bp.

Lemma last_addr_map g c : same_place g -> last_addr (g <$> c) = last_addr c.
Proof.
  intros Hg. unfold last_addr. rewrite fmap_last. destruct (last c) as [f|]; [|done]. cbn.
  by destruct (Hg f) as (_ & -> & _).
Qed.

Lemma ins_balanced_at h x c1 f k :
  let T := plug ((add_n 1 <$> c1) ++ (bal <$> (add_n 1 <$> f :: k))) (leaf_node x) in
  ctx_ok (c1 ++ f :: k) 0 0 -> Forall (fun g => fr_b g = 0) k -> c1 = [] \/ fr_b f <> 0 ->
  tree_at h T -> NoDup (elems T) -> ctx_count (c1 ++ f :: k) 0 + 1 < 2 ^ 32 ->
  exists h' T', ins_balanced h (root T) (last_addr c1) (fr_a f) = Ok (h', root T') /\
    tree_at h' T' /\ tree_ok T' /\ elems T' = elems T /\ same_but (elems T) h h'.
Proof.
  cbn zeta. intros Hok Hz Hhead Hat Hnd Hlt.
  destruct (ins_grown_ok x c1 f k Hok Hz Hhead) as (Ht1 & Hb0 & Hs & Hh & Hct & Hb & Hn & Hsmall & Hbig).
  rewrite plug_app in Hat, Hnd |- *.
  set (t1 := plug (bal <$> (add_n 1 <$> k)) (leaf_node x)) in *.
  set (b := fr_b f + _) in *. set (sub := nd (fr_d f) t1 (fr_a f) b (fr_n f + 1) (fr_s f)) in *.
  change (plug (bal <$> (add_n 1 <$> f :: k)) (leaf_node x)) with sub in *.
  pose proof (sub_at _ _ _ Hat) as (Hf & _)%tree_at_nd.
  unfold ins_balanced. rewrite (head_of_ok _ _ _ Hf), bind_ok, hd_balance_nd.
  apply ctx_ok_app in Hok as [_ [(Eb & Rb & En & _) _]].
  destruct ((-2 <? b) && (b <? 2)) eqn:Hsw.
  { exists h. eexists. split; [reflexivity|]. split; [exact Hat|]. split; [|split; [done|by intros y]]. apply Hsmall. lia. }
  assert (height t1 = height (fr_s f) + 2) as Hh2 by (rewrite Hh in *; subst b; destruct (fr_d f); cbn in Eb, Hb; lia).
  destruct (ins_rebalance_at h (add_n 1 <$> c1) (fr_d f) t1 (fr_a f) b (fr_n f + 1) (fr_s f))
    as (h' & sub' & Hrun & Hat' & Hok' & Hh' & He' & Hsb'); try done.
  { intros l a b' n r d Ht. eapply Hb0; [done|]. intros ->. cbn in Hh2. pose proof (height_nonneg (fr_s f)). lia. }
  { rewrite ctx_count_app, ctx_count_cons in Hlt. unfold ctx_count in Hlt at 1.
    pose proof (zlen_nonneg (ctx_elems c1)). lia. }
  rewrite last_addr_map in Hrun by apply add_n_place.
  exists h', (plug (add_n 1 <$> c1) sub'). split; [exact Hrun|]. split; [done|]. split; [|split; [|done]].
  - apply Hbig; [done| |unfold count; by rewrite He'].
    rewrite Hh', Hh2. cbn [ctx_height]. rewrite Hh in Hh2. lia.
  - by rewrite !elems_plug, He'.
Qed.

(** After the search: kavl_insert by its three parts. *)
Lemma kavl_insert_parts h rt x s q f h1 h2 h3 rt3 :
  ins_search cmp (size h) h x (ins_start rt) = Ok (s, None) -> in_q s = Some q -> in_bp s = Some f ->
  (h ← store_balance h x 0; h ← store_size h x 1; h ← store_p h x true None; h ← store_p h x false None;
   store_p h q (in_which s) (Some x)) = Ok h1 ->
  (h ← grow_sizes (Z.to_nat (in_path_len s)) h1 (in_path s) 0;
   ins_balance (size h) h (in_stack s) (Some f) x 0) = Ok h2 ->
  ins_balanced h2 rt (in_bq s) f = Ok (h3, rt3) ->
  kavl_insert cmp h rt x = Ok (h3, rt3, x, in_cnt s).
Proof.
  intros Hs Hq Hf Hlink Hup Hbal. unfold kavl_insert. rewrite Hs, bind_ok, Hq, Hf.
  apply bind_inv_ok in Hlink as (a1 & E1 & Hlink). apply bind_inv_ok in Hlink as (a2 & E2 & Hlink).
  apply bind_inv_ok in Hlink as (a3 & E3 & Hlink). apply bind_inv_ok in Hlink as (a4 & E4 & Hlink).
  apply bind_inv_ok in Hup as (a5 & E5 & Hup).
  rewrite E1, bind_ok, E2, bind_ok, E3, bind_ok, E4, bind_ok, Hlink, bind_ok. cbn [mret outcome_ret]. rewrite bind_ok.
  rewrite E5, bind_ok, Hup, bind_ok. unfold ins_balanced in Hbal.
  apply bind_inv_ok in Hbal as (nb & E6 & Hbal). rewrite E6, bind_ok.
  destruct (_ && _); [by injection Hbal as <- <-|]. by rewrite Hbal.
Qed.

(** The way is not empty: the tree after kavl_insert. *)
Lemma kavl_insert_way h x n0 c1 c2 s :
  let T := plug (c1 ++ c2) Leaf in
  ins_search cmp (size h) h x (ins_start (root T)) = Ok (s, None) -> ins_at x c1 c2 Leaf s -> c2 <> [] ->
  h !! x = Some n0 -> x ∉ ctx_elems (c1 ++ c2) -> NoDup (ctx_elems (c1 ++ c2)) ->
  tree_at h T -> tree_ok T -> ctx_count (c1 ++ c2) 0 + 1 < 2 ^ 32 ->
  exists h' T', kavl_insert cmp h (root T) x = Ok (h', root T', x, in_cnt s) /\
    tree_at h' T' /\ tree_ok T' /\ elems T' = ctx_pre (c1 ++ c2) ++ x :: ctx_post (c1 ++ c2) /\
    same_but (x :: ctx_elems (c1 ++ c2)) h h'.
Proof.
  cbn zeta. intros Hrun Hins Hne Hx Hxc Hnd [Hc _]%tree_at_plug [Hok _]%tree_ok_plug Hlt.
  cbn [height] in Hok. rewrite count_leaf in Hok.
  destruct (exists_last (l := c1 ++ c2)) as (c0 & g & Hg); [by destruct c1|].
  destruct (ins_link_at h x n0 c0 g (root Leaf) Hx) as (h1 & Hl & Hx1 & Hc1 & Hsb1); [by rewrite <- Hg..|].
  rewrite <- Hg in Hc1. destruct (at_stack _ _ _ _ _ Hins) as (ks & Hst & _), (at_path _ _ _ _ _ Hins) as (kp & Hpa & _).
  destruct (ins_update_at h1 x c1 c2 kp ks (zlen (c1 ++ c2))) as (h2 & Hup & Hat2 & Hsb2); try done.
  destruct c2 as [|f k]; [done|]. cbn [ctx_root] in Hup.
  assert (NoDup (elems (plug ((add_n 1 <$> c1) ++ (bal <$> (add_n 1 <$> f :: k))) (leaf_node x))) /\
    elems (plug ((add_n 1 <$> c1) ++ (bal <$> (add_n 1 <$> f :: k))) (leaf_node x)) =
      ctx_pre (c1 ++ f :: k) ++ x :: ctx_post (c1 ++ f :: k)) as [Hnd2 Hel2].
  { rewrite elems_plug, !ctx_pre_app, !ctx_post_app, !ctx_pre_map, !ctx_post_map by done. split; [|done].
    rewrite <- ctx_pre_app, <- ctx_post_app. cbn. rewrite <- Permutation_middle. by constructor. }
  destruct (ins_balanced_at h2 x c1 f k) as (h3 & T' & Hbal & Hat3 & Hok3 & Hel3 & Hsb3); try done.
  { by apply (at_zero _ _ _ _ _ Hins). }
  { destruct (at_head _ _ _ _ _ Hins) as [|(f' & k' & [= <- <-] & Hf')]; auto. }
  assert (root (plug ((add_n 1 <$> c1) ++ (bal <$> (add_n 1 <$> f :: k))) (leaf_node x)) = root (plug (c1 ++ f :: k) Leaf)) as Hr.
  { rewrite !root_plug. by destruct c1. }
  rewrite Hr in Hbal. exists h3, T'. split; [|split; [done|split; [done|split; [by rewrite Hel3|]]]].
  - eapply kavl_insert_parts; [done| | | | |].
    + rewrite (at_q _ _ _ _ _ Hins), Hg. unfold last_addr. by rewrite last_snoc.
    + by rewrite (at_bp _ _ _ _ _ Hins).
    + rewrite (at_which _ _ _ _ _ Hins g); [exact Hl|]. by rewrite Hg, last_snoc.
    + rewrite (at_path_len _ _ _ _ _ Hins), Hpa, Hst. exact Hup.
    + by rewrite (at_bq _ _ _ _ _ Hins).
  - intros y Hy. apply not_elem_of_cons in Hy as [Hyx Hyc]. rewrite Hsb3, Hsb2, Hsb1; [done| |done|].
    + intros [->|Hyg%list_elem_of_singleton]%elem_of_cons; [done|]. apply Hyc. rewrite Hyg, Hg. apply elem_of_ctx_app. right.
      apply elem_of_ctx_cons. tauto.
    + rewrite Hel2, elem_of_app, elem_of_cons. unfold ctx_elems in Hyc. rewrite elem_of_app in Hyc. tauto.
Qed.

(** kavl_insert: if the tree has a node equal to [x] nothing changes and that
    node is returned; otherwise [x] is put in its place. *)
Lemma kavl_insert_ok h rt xs x n0 :
  kavl cmp h rt xs -> h !! x = Some n0 -> zlen xs + 1 < 2 ^ 32 ->
  match equal_node cmp x xs with
  | Some e => kavl_insert cmp h rt x = Ok (h, rt, e, rank cmp x xs)
  | None => exists h' rt', kavl_insert cmp h rt x = Ok (h', rt', x, rank cmp x xs) /\
      kavl cmp h' rt' (insert_node x xs) /\ same_but (x :: xs) h h'
  end.
Proof.
  intros (t & -> & <- & Hat & Hok & Hs & Hc) Hx Hlt. pose proof (sorted_NoDup cmp _ Hs) as Hnd.
  pose proof (height_bound t Hok Hc) as Hh.
  destruct (ins_search_ok t (size h) h x [] [] (ins_start (root t))) as (s & Hcnt & Hrun & Hnone);
    [apply ins_at_start|done..|by apply elems_fuel|change (zlen ([] ++ [])) with 0; lia|done|done|].
  cbn [in_cnt ins_start] in Hcnt. rewrite Z.add_0_l in Hcnt. rewrite <- Hcnt.
  destruct (equal_node cmp x (elems t)) as [e|] eqn:He; [by unfold kavl_insert; rewrite Hrun|].
  destruct (Hnone eq_refl) as (c1 & c2 & Ht & Hins). cbn [app plug] in Ht. subst t. clear Hnone.
  assert (x ∉ ctx_elems (c1 ++ c2)) as Hxc.
  { apply equal_node_notin in He. rewrite elems_plug_perm, elem_of_app in He. tauto. }
  assert (elems (plug (c1 ++ c2) Leaf) = ctx_elems (c1 ++ c2)) as Hel by (by rewrite elems_plug).
  pose proof (at_place _ _ _ _ _ Hins) as Hplace. rewrite Hel, insert_node_place by done.
  rewrite Hel in Hs, Hnd, Hlt. pose proof (insert_node_sorted x _ Hplace Hs) as Hs'.
  assert (zlen (ctx_pre (c1 ++ c2) ++ x :: ctx_post (c1 ++ c2)) < 2 ^ 32) as Hlt'.
  { unfold ctx_elems in Hlt. autorewrite with fb in Hlt |- *. lia. }
  destruct c2 as [|f k].
  - assert (c1 = []) as -> by exact (at_start _ _ _ _ _ Hins eq_refl). unfold kavl_insert. rewrite Hrun, bind_ok.
    destruct n0 as [m0 m1 mb ms]. do 4 kavl_step. rewrite (at_q _ _ _ _ _ Hins), (at_bp _ _ _ _ _ Hins).
    eexists _, _. split; [reflexivity|]. split.
    + apply (kavl_intro _ (leaf_node x)); try done. cbn. by rewrite lookup_insert_eq.
    + intros y Hy. rewrite !lookup_insert_ne by (intros ->; apply Hy; set_solver). done.
  - destruct (kavl_insert_way h x n0 c1 (f :: k) s) as (h' & T' & Hins' & Hat' & Hok' & Hel' & Hsb'); try done.
    exists h', (root T'). split; [done|]. split; [by apply kavl_intro|done].
Qed.

End insert.
