(* ===== verification/KavlErase.v ===== *)
(** * kavl_erase: a balanced tree with one node less

    The local node [fake] is the parent of the root, so that a way has always
    a first frame.  After the node is taken out, [ctx_ok k (height t + 1)]
    says that the tree at the end of the way has become lower by one;
    the last loop moves this place up until the tree is balanced again. *)

From S2P Require Import Prelude Kavl KavlTree KavlSearch.
From Stdlib Require Import Sorted.

(** ** Ways in the arrays *)

(** The arrays begin with these entries. *)
Definition way_has (w : way) (c : list frame) : Prop :=
  (exists k, wy_path w = path_of c ++ k) /\ (exists k, wy_dir w = dirs_of c ++ k).

Definition way_size (w : way) : Prop := zlen (wy_path w) = KAVL_MAX_DEPTH /\ zlen (wy_dir w) = KAVL_MAX_DEPTH.

Definition way_at (w : way) (c : list frame) : Prop := way_has w c /\ way_size w /\ wy_d w = zlen c.

Lemma way_has_app w c k : way_has w (c ++ k) -> way_has w c.
Proof.
  intros [[p Hp] [d Hd]]. unfold path_of, dirs_of in *. rewrite fmap_app, <- app_assoc in Hp. rewrite fmap_app, <- app_assoc in Hd.
  split; by eexists.
Qed.

Lemma way_read w c f k i :
  way_has w (c ++ f :: k) -> i = zlen c ->
  read_local (wy_path w) i = Ok (fr_a f) /\ read_local (wy_dir w) i = Ok (fr_d f).
Proof. intros [[p ->] [d ->]] ->. split; [by apply read_path|by apply read_dir]. Qed.

Lemma store_way_ok h w c f k i v n :
  way_has w (c ++ f :: k) -> i = zlen c -> h !! fr_a f = Some n ->
  store_way h w i v = Ok (<[fr_a f := set_child (fr_d f) v n]> h).
Proof.
  intros Hw Hi Ha. unfold store_way. destruct (way_read w c f k i Hw Hi) as [-> ->].
  rewrite !bind_ok. by apply store_p_ok.
Qed.

(** The link of the last node of a way. *)
Lemma store_way_last h w c g k p v i :
  ctx_at h (c ++ [g]) p -> NoDup (ctx_elems (c ++ [g])) -> way_has w ((c ++ [g]) ++ k) -> i = zlen c ->
  exists h', store_way h w i v = Ok h' /\ same_but [fr_a g] h h' /\ ctx_at h' (c ++ [g]) v.
Proof.
  intros Hc Hnd Hw ->. pose proof Hc as [_ [[Hg _] _]]%ctx_at_app. cbn [ctx_root] in Hg.
  rewrite <- app_assoc in Hw. rewrite (store_way_ok h w c g k _ v _ Hw eq_refl Hg), set_p_same.
  eexists. split; [reflexivity|]. assert (same_but [fr_a g] h (<[fr_a g:=nd_head (fr_d g) v (root (fr_s g)) (fr_b g) (fr_n g)]> h)) as Hs.
  { apply same_but_insert; [by apply list_elem_of_here|apply same_but_refl]. }
  split; [done|]. eapply ctx_at_snoc_store; [done..|]. by rewrite lookup_insert_eq.
Qed.

Lemma way_push_ok w c f :
  way_at w c -> zlen c < KAVL_MAX_DEPTH ->
  exists w', way_push w (fr_a f) (fr_d f) = Ok w' /\ way_at w' (c ++ [f]).
Proof.
  intros ([[p Hp] [d Hd]] & [Hsp Hsd] & Hl) Hroom. unfold way_push. rewrite Hl, Hp, Hd in *.
  destruct (arr_set_end (dirs_of c) d (zlen c) (Some (fr_d f))) as (d' & -> & Hd');
    [by rewrite zlen_dirs_of|by rewrite Hsd|].
  destruct (arr_set_end (path_of c) p (zlen c) (Some (fr_a f))) as (p' & -> & Hp');
    [by rewrite zlen_path_of|by rewrite Hsp|].
  rewrite !bind_ok. eexists. split; [reflexivity|]. unfold way_at, way_has, way_size. cbn [wy_path wy_dir wy_d].
  unfold path_of, dirs_of in *. rewrite !fmap_app. split; [split; by eexists|].
  unfold zlen in *. rewrite !length_app in *. cbn. lia.
Qed.

(** ** Balancing again *)

Section fake.
Context (fake : Z).

Definition top_frame : frame := mk_frame false fake 0 0 Leaf.

(** What erase_rebalance reaches from a tree that has become lower. *)
Definition rebalanced (h : kavl_heap) (xs : list Z) (h' : kavl_heap) : Prop :=
  exists T, h' !! fake = Some (mk_head (root T) None 0 0) /\ tree_at h' T /\ tree_ok T /\ elems T = xs /\
    same_but (fake :: xs) h h'.

(** A tree whose frames are right is the result. *)
Lemma rebalanced_intro h0 h k t :
  ctx_at h (top_frame :: k) (root t) -> tree_at h t -> ctx_ok k (height t) (count t) -> tree_ok t ->
  same_but (fake :: elems (plug k t)) h0 h -> rebalanced h0 (elems (plug k t)) h.
Proof.
  intros [[Hf _] Hk] Ht Hok Htok Hs. exists (plug k t). cbn in Hf. rewrite root_plug.
  split; [done|]. split; [by apply tree_at_plug|]. split; [by apply tree_ok_plug|]. done.
Qed.

Lemma rebalanced_trans h0 h h' xs ys :
  same_but (fake :: xs) h0 h -> rebalanced h xs h' -> ys = xs -> rebalanced h0 ys h'.
Proof.
  intros Hs (T & Hf & Hat & Hok & He & Hs') ->. exists T. do 4 (split; [done|]).
  intros y Hy. by rewrite Hs', Hs.
Qed.

(** The parent is linked to the new root of the subtree. *)
Lemma link_parent h h' w k q sub p l i :
  ctx_at h (top_frame :: k) q -> NoDup (ctx_elems (top_frame :: k)) ->
  (forall x, x ∈ ctx_elems (top_frame :: k) -> x ∉ l) -> same_but l h h' ->
  (forall x, x ∈ elems sub -> x ∈ l) -> tree_at h' sub ->
  way_has w (top_frame :: k) -> i = zlen k ->
  exists h2, store_way h' w i p = Ok h2 /\ ctx_at h2 (top_frame :: k) p /\
    tree_at h2 sub /\ same_but (ctx_elems (top_frame :: k)) h' h2.
Proof.
  intros Hc Hnd Hd Hs He Hat Hw ->.
  assert (ctx_at h' (top_frame :: k) q) as Hc' by (eapply same_but_ctx; done).
  destruct (exists_last (l := top_frame :: k)) as (c & g & Hg); [done|].
  assert (zlen k = zlen c) as ->.
  { apply (f_equal zlen) in Hg. autorewrite with fb in Hg. lia. }
  rewrite Hg in *. rewrite <- (app_nil_r (c ++ [g])) in Hw.
  destruct (store_way_last h' w c g [] _ p (zlen c) Hc' Hnd Hw eq_refl) as (h2 & Hrun & Hs2 & Hc2).
  assert (fr_a g ∈ ctx_elems (c ++ [g])) as Hin by (apply elem_of_ctx_app; right; apply elem_of_ctx_cons; tauto).
  exists h2. split; [done|]. split; [done|]. split.
  - eapply same_but_tree; [done| |done]. intros y Hy ->%list_elem_of_singleton. by eapply Hd, He.
  - eapply same_but_weaken, Hs2. by intros y ->%list_elem_of_singleton.
Qed.

Definition b1 (d : bool) : Z := if d then -1 else 1.

Lemma b1_sign d : b1 d = dir_sign d.
Proof. by destruct d. Qed.

(** The sibling is two higher: one or two rotations.  The result is as high
    as before the deletion, or one lower. *)
Lemma rotate_lower h d t q n s :
  let sub := nd d t q (2 * b1 d) n s in
  tree_at h sub -> NoDup (elems sub) -> tree_ok t -> tree_ok s -> height s = height t + 2 ->
  n = count sub -> n < 2 ^ 32 ->
  exists B r br nr C, s = nd d B r br nr C /\ h !! r = Some (nd_head d (root B) (root C) br nr) /\
    if br =? - b1 d then
      exists h' sub' r', kavl_rotate2 h q d = Ok (h', r') /\ root sub' = Some r' /\ tree_at h' sub' /\ tree_ok sub' /\
        elems sub' = elems sub /\ height sub' = height t + 2 /\ same_but (elems sub) h h'
    else
      exists h', kavl_rotate1 h q d = Ok (h', r) /\ same_but (elems sub) h h' /\
        tree_at h' (nd d (nd d t q (2 * b1 d) (count t + count B + 1) B) r br n C) /\
        tree_ok (nd d (nd d t q (if br =? 0 then b1 d else 0) (count t + count B + 1) B) r
                   (if br =? 0 then - b1 d else 0) n C) /\
        height C = height t + 1 /\
        height B = (if br =? 0 then height t + 1 else height t).
Proof.
  cbn zeta. intros Hat Hnd Ht Hs Hh Hn Hlt. pose proof (height_nonneg t).
  destruct (tree_ok_nonleaf d s) as (B & r & br & nr & C & ->); [lia|].
  exists B, r, br, nr, C. split; [done|].
  split; [apply tree_at_nd in Hat as (_ & _ & Hat); apply tree_at_nd in Hat; tauto|].
  pose proof Hs as (Hbr & Rbr & Hnr & HB & HC)%tree_ok_nd. rewrite side_balance_sign in Hbr.
  rewrite height_nd in Hh. rewrite b1_sign. rewrite !count_nd in Hn.
  destruct (Z.eqb_spec br (- dir_sign d)) as [E|E].
  - destruct (tree_ok_nonleaf d B) as (B1 & x & bx & nx & B2 & ->).
    { pose proof (height_nonneg C). destruct (dir_sign_cases d) as [D|D]; rewrite D in *; lia. }
    assert (height (nd d B1 x bx nx B2) = height t + 1 /\ height C = height t) as [HhB HhC].
    { destruct (dir_sign_cases d) as [D|D]; rewrite D in *; lia. }
    pose proof (proj1 (tree_ok_nd _ _ _ _ _ _) HB) as (_ & _ & _ & HB1 & HB2). rewrite count_nd in Hn, Hnr.
    destruct (rotate2_at h d t q (2 * dir_sign d) n B1 x bx nx B2 r br nr C) as (h1 & Hrun & Hsb & Hat1); try done.
    { rewrite !count_nd. lia. }
    replace n with (count t + (count B1 + count B2 + 1 + count C + 1) + 1) in Hat1 by lia.
    destruct (rotate2_ok d t q B1 x bx nx B2 r C) as [R1 R2]; try done.
    eexists h1, _, x. split; [done|]. split; [|split; [exact Hat1|]]; [by rewrite root_nd|].
    split; [done|]. split; [apply elems_rotate2|]. split; [done|].
    eapply same_but_weaken, Hsb. intros y. rewrite !elem_of_cons, !elems_nd, elem_of_nil. tauto.
  - destruct (rotate1_at h d t q (2 * dir_sign d) n B r br nr C) as (h1 & Hrun & Hsb & Hat1); try done.
    { rewrite !count_nd. lia. }
    exists h1. split; [done|]. split.
    { eapply same_but_weaken, Hsb. intros y. rewrite !elem_of_cons, !elems_nd, elem_of_nil. tauto. }
    split; [done|]. replace n with (count t + (count B + count C + 1) + 1) by lia.
    destruct (Z.eqb_spec br 0) as [E0|E0];
      (split; [apply rotate1_ok; try done; destruct (dir_sign_cases d) as [D|D]; rewrite D in *; lia|
               destruct (dir_sign_cases d) as [D|D]; rewrite D in *; lia]).
Qed.
(** The balance factors of the two nodes at the top, set in either order. *)
Lemma store_pair h d A p b n B q b' n' C x y :
  tree_at h (nd d (nd d A p b n B) q b' n' C) -> NoDup (elems (nd d (nd d A p b n B) q b' n' C)) ->
  -128 <= x < 128 -> -128 <= y < 128 ->
  exists h', (h ← store_balance h q y; store_balance h p x) = Ok h' /\
    (h ← store_balance h p x; store_balance h q y) = Ok h' /\
    tree_at h' (nd d (nd d A p x n B) q y n' C) /\ same_but [p; q] h h'.
Proof.
  rewrite !tree_at_nd, !NoDup_nd, !root_nd, elems_nd. intros (Hq & (Hp & HA & HB) & HC) (Hqp & HqC & (HpA & HpB & _) & _ & Hd) Hx Hy.
  apply Decidable.not_or in Hqp as [Npq [HqA HqB]%Decidable.not_or].
  assert (p ∉ elems C) as HpC by (apply Hd, elems_nd; by left).
  rewrite (store_balance_ok _ _ _ _ Hq), (store_balance_ok _ _ _ _ Hp), !bind_ok by done.
  rewrite (store_balance_ok _ p (nd_head d (root A) (root B) b n)) by (done || by rewrite lookup_insert_ne).
  rewrite (store_balance_ok _ q (nd_head d (Some p) (root C) b' n')) by (done || by rewrite lookup_insert_ne).
  eexists. split; [reflexivity|]. autorewrite with kavl. split; [by rewrite insert_insert_ne|]. split.
  - rewrite !tree_at_nd. autorewrite with kavl. kavl_frame.
  - kavl_same.
Qed.

(** One round of the loop: the way is one frame shorter, or this was the last
    round. *)
Definition one_up h w k f t h' : Prop :=
  (erase_rebalance (S (S (length k))) h w = Ok h' /\ rebalanced h (elems (plug (k ++ [f]) t)) h') \/
  exists sub, erase_rebalance (S (S (length k))) h w = erase_rebalance (S (length k)) h' w /\
    ctx_at h' (top_frame :: k) (root sub) /\ tree_at h' sub /\ tree_ok sub /\ elems sub = elems (plug1 f t) /\
    height sub + 1 = ctx_height [f] (height t + 1) /\ same_but (fake :: elems (plug (k ++ [f]) t)) h h'.

Section round.
Context (h : kavl_heap) (w : way) (k : list frame) (f : frame) (t : tree).
Context (Hc : ctx_at h (top_frame :: k ++ [f]) (root t)) (Ht : tree_at h t) (Htok : tree_ok t).
Context (Hnd : NoDup (fake :: elems (plug (k ++ [f]) t))).
Context (Hok : ctx_ok (k ++ [f]) (height t + 1) (count t)) (Hlt : count (plug (k ++ [f]) t) < 2 ^ 32).
Context (Hw : way_has w ((top_frame :: k) ++ [f])).

(** The subtree of the last frame, its balance factor updated. *)
Definition lower_sub : tree := nd (fr_d f) t (fr_a f) (fr_b f + b1 (fr_d f)) (fr_n f) (fr_s f).

Lemma round_elems : elems lower_sub = elems (plug1 f t).
Proof. unfold lower_sub, plug1. by destruct (fr_d f). Qed.

Lemma round_balance : fr_b f + b1 (fr_d f) = dir_sign (fr_d f) * (height (fr_s f) - height t).
Proof.
  apply ctx_ok_app in Hok as [_ [(Hb & _) _]]. rewrite Hb, b1_sign, side_balance_sign. cbn. lia.
Qed.

Lemma round_start :
  exists h1, h1 = <[fr_a f := nd_head (fr_d f) (root t) (root (fr_s f)) (fr_b f + b1 (fr_d f)) (fr_n f)]> h /\
    ctx_at h1 (top_frame :: k) (Some (fr_a f)) /\ tree_at h1 lower_sub /\
    NoDup (ctx_elems (top_frame :: k)) /\ NoDup (elems lower_sub) /\
    (forall x, x ∈ ctx_elems (top_frame :: k) -> x ∉ elems lower_sub) /\
    (forall x, x ∈ ctx_elems (top_frame :: k) \/ x ∈ elems lower_sub -> x ∈ fake :: elems (plug (k ++ [f]) t)).
Proof.
  change (top_frame :: k ++ [f]) with ((top_frame :: k) ++ [f]) in Hc.
  apply ctx_at_app in Hc as [Hc1 [[Hf Hs] _]]. cbn [ctx_root] in Hc1, Hf.
  assert (NoDup (elems (plug ((top_frame :: k) ++ [f]) t))) as Hnd'.
  { rewrite elems_plug_perm. change ((top_frame :: k) ++ [f]) with (top_frame :: k ++ [f]). rewrite ctx_elems_cons.
    cbn [fr_s fr_a top_frame elems app]. by rewrite <- elems_plug_perm. }
  rewrite plug_app in Hnd'. apply NoDup_plug in Hnd' as (N1 & D1 & N2).
  change (plug [f] t) with (plug1 f t) in *. rewrite <- round_elems in D1, N2.
  eexists. split; [reflexivity|].
  assert (fr_a f ∈ elems lower_sub) as Hin by (apply elems_nd; by left).
  split; [|split; [|split; [done|split; [done|split; [done|]]]]].
  - apply ctx_at_insert; [|done]. intros Hx. by eapply D1.
  - pose proof N2 as (Nt & Ns & _)%NoDup_nd. apply tree_at_nd. rewrite lookup_insert_eq.
    split; [done|]. split; by apply tree_at_insert.
  - intros x Hx. rewrite plug_app, elem_of_cons. rewrite elems_plug_perm, elem_of_app.
    change (plug [f] t) with (plug1 f t). rewrite <- round_elems.
    destruct Hx as [[->|[Hx|Hx]]%elem_of_ctx_cons|Hx]; [by left|by apply not_elem_of_nil in Hx|auto|auto].
Qed.
(** The subtree got a new root. *)
Lemma round_same h1 h2 h3 sub :
  same_but [fr_a f] h h1 -> same_but (elems lower_sub) h1 h2 -> same_but (ctx_elems (top_frame :: k)) h2 h3 ->
  elems sub = elems lower_sub -> same_but (fake :: elems (plug (k ++ [f]) t)) h h3.
Proof.
  destruct round_start as (_ & _ & _ & _ & _ & _ & _ & Hin). intros S1 S2 S3 He y Hy.
  rewrite S3 by (intros ?; apply Hy, Hin; by left). rewrite S2 by (intros ?; apply Hy, Hin; by right).
  apply S1. intros ->%list_elem_of_singleton. apply Hy, Hin. right. apply elems_nd. by left.
Qed.

Lemma round_plug sub : elems sub = elems lower_sub -> elems (plug (k ++ [f]) t) = elems (plug k sub).
Proof. intros He. by rewrite plug_app, (elems_plug k), (elems_plug k sub), He, round_elems. Qed.

Lemma round_done h3 sub :
  ctx_at h3 (top_frame :: k) (root sub) -> tree_at h3 sub -> tree_ok sub -> elems sub = elems lower_sub ->
  height sub = ctx_height [f] (height t + 1) -> same_but (fake :: elems (plug (k ++ [f]) t)) h h3 ->
  rebalanced h (elems (plug (k ++ [f]) t)) h3.
Proof.
  intros Hc3 Hat Hsok He Hh Hs. rewrite (round_plug sub He) in Hs |- *. apply rebalanced_intro; try done.
  apply ctx_ok_app in Hok as [Hk _]. rewrite Hh. replace (count sub) with (ctx_count [f] (count t)); [done|].
  assert (count sub = count lower_sub) as -> by (unfold count; by rewrite He).
  unfold lower_sub. by rewrite count_nd, ctx_count_cons, ctx_count_nil.
Qed.

(** The rotations of a round. *)
Lemma round_rotate h1 :
  h1 = <[fr_a f := nd_head (fr_d f) (root t) (root (fr_s f)) (fr_b f + b1 (fr_d f)) (fr_n f)]> h ->
  fr_b f + b1 (fr_d f) = 2 * b1 (fr_d f) -> height (fr_s f) = height t + 2 ->
  exists h', let d := fr_d f in let q := fr_a f in
  let run := (r ← deref (root (fr_s f));
    nr ← head_of h1 r;
    if hd_balance nr =? - b1 d then
      '(h, t) ← kavl_rotate2 h1 q d;
      h ← store_way h w (Z.of_nat (S (length k)) - 1) (Some t);
      erase_rebalance (S (length k)) h w
    else
      '(h, t) ← kavl_rotate1 h1 q d;
      h ← store_way h w (Z.of_nat (S (length k)) - 1) (Some t);
      nr ← head_of h r;
      if hd_balance nr =? 0 then
        h ← store_balance h r (- b1 d);
        store_balance h q (b1 d)
      else
        h ← store_balance h q 0;
        h ← store_balance h r 0;
        erase_rebalance (S (length k)) h w) in
  (run = Ok h' /\ rebalanced h (elems (plug (k ++ [f]) t)) h') \/
  exists sub, run = erase_rebalance (S (length k)) h' w /\
    ctx_at h' (top_frame :: k) (root sub) /\ tree_at h' sub /\ tree_ok sub /\ elems sub = elems (plug1 f t) /\
    height sub + 1 = ctx_height [f] (height t + 1) /\ same_but (fake :: elems (plug (k ++ [f]) t)) h h'.
Proof.
  intros Eh1 E2 Hhs. destruct round_start as (h1' & Eh1' & Hc1 & Hat1 & N1 & N2 & D1 & Hin). rewrite <- Eh1 in Eh1'. subst h1'.
  pose proof Hok as [_ [(Eb & Rb & En & Hs) _]]%ctx_ok_app. rewrite ctx_count_nil in En.
  assert (fr_n f < 2 ^ 32) as Hn.
  { rewrite count_plug, ctx_count_app in Hlt. pose proof (ctx_count_ge k (ctx_count [f] (count t))).
    rewrite ctx_count_cons, ctx_count_nil in *. lia. }
  assert (same_but [fr_a f] h h1) as Hs1.
  { subst h1. apply same_but_insert; [by apply list_elem_of_here|apply same_but_refl]. }
  assert (zlen k = Z.of_nat (S (length k)) - 1) as Hi by (unfold zlen; lia).
  pose proof (way_has_app _ _ _ Hw) as Hw'. pose proof round_same as Hsame. pose proof round_done as Hdone. pose proof round_elems as Hre.
  unfold lower_sub in *. rewrite E2 in *.
  destruct (rotate_lower h1 (fr_d f) t (fr_a f) (fr_n f) (fr_s f)) as (B & r & br & nr & C & Es & Hr & Hrot); try done.
  { rewrite count_nd. lia. }
  rewrite Es, root_nd. cbn [deref]. cbn zeta. rewrite bind_ok, (head_of_ok _ _ _ Hr), bind_ok, hd_balance_nd.
  destruct (br =? - b1 (fr_d f)).
  - destruct Hrot as (h2 & sub' & r' & -> & Hr' & Hat2 & Hok2 & He2 & Hh2 & Hsb2). rewrite bind_ok.
    destruct (link_parent h1 h2 w k _ sub' (root sub') _ _ Hc1 N1 D1 Hsb2 ltac:(by rewrite He2) Hat2 Hw' (eq_sym Hi)) as (h3 & Hrun & Hc3 & Hat3 & Hsb3).
    rewrite Hr' in Hrun. rewrite Hrun, bind_ok. exists h3. right. exists sub'. split; [done|]. split; [done|].
    split; [done|]. split; [done|]. split; [by rewrite He2|]. split; [cbn [ctx_height]; lia|]. by eapply Hsame.
  - destruct Hrot as (h2 & -> & Hsb2 & Hat2 & Hok2 & HhC & HhB). rewrite bind_ok.
    set (sub2 := nd (fr_d f) (nd _ _ _ _ _ B) r br _ C) in Hat2.
    assert (elems sub2 = elems (nd (fr_d f) t (fr_a f) (2 * b1 (fr_d f)) (fr_n f) (fr_s f))) as He2
      by (rewrite Es; apply elems_rotate1).
    destruct (link_parent h1 h2 w k _ sub2 (root sub2) _ _ Hc1 N1 D1 Hsb2 ltac:(by rewrite He2) Hat2 Hw' (eq_sym Hi)) as (h3 & Hrun & Hc3 & Hat3 & Hsb3).
    unfold sub2 in Hrun at 1. rewrite root_nd in Hrun. rewrite Hrun, bind_ok.
    pose proof Hat3 as [Hr3 _]%tree_at_nd. rewrite (head_of_ok _ _ _ Hr3), bind_ok, hd_balance_nd.
    rewrite <- He2 in N2, D1. set (x := if br =? 0 then b1 (fr_d f) else 0) in Hok2. set (y := if br =? 0 then _ else 0) in Hok2.
    destruct (store_pair h3 _ _ _ _ _ _ _ _ _ _ x y Hat3 N2) as (h4 & Run1 & Run2 & Hat4 & Hsb4).
    { subst x. destruct (fr_d f), (br =? 0); cbn; lia. } { subst y. destruct (fr_d f), (br =? 0); cbn; lia. }
    set (sub4 := nd (fr_d f) (nd _ _ _ x _ B) r y _ C) in Hat4, Hok2.
    assert (elems sub4 = elems sub2) as He4 by (subst sub4 sub2; by destruct (fr_d f)).
    assert (same_but (elems sub2) h3 h4) as Hsb4'.
    { eapply same_but_weaken, Hsb4. intros z. unfold sub2. rewrite !elem_of_cons, !elems_nd, elem_of_nil. tauto. }
    assert (ctx_at h4 (top_frame :: k) (root sub4)) as Hc4.
    { unfold sub4 at 1. rewrite root_nd. unfold sub2 in Hc3 at 1. rewrite root_nd in Hc3. by eapply same_but_ctx. }
    assert (same_but (fake :: elems (plug (k ++ [f]) t)) h h4) as Hs4.
    { intros z Hz. rewrite Hsb4'; [by eapply Hsame|]. rewrite He2. intros Hz'. apply Hz, Hin. by right. }
    assert (height sub4 = 1 + Z.max (1 + Z.max (height t) (height B)) (height C)) as Hh4
      by (subst sub4; by rewrite !height_nd).
    subst x y. exists h4. destruct (br =? 0).
    + left. split; [exact Run1|]. eapply Hdone; [exact Hc4|exact Hat4|exact Hok2|by rewrite He4, He2| |done]. cbn [ctx_height]. lia.
    + right. exists sub4. rewrite <- bind_assoc, Run2, bind_ok. split; [done|]. split; [done|]. split; [done|]. split; [done|].
      split; [by rewrite He4, He2|]. split; [cbn [ctx_height]; lia|done].
Qed.

Lemma round_ok : exists h', one_up h w k f t h'.
Proof.
  destruct round_start as (h1 & Eh1 & Hc1 & Hat1 & N1 & N2 & D1 & Hin).
  change (top_frame :: k ++ [f]) with ((top_frame :: k) ++ [f]) in Hc.
  pose proof Hc as [_ [[Hf _] _]]%ctx_at_app. cbn [ctx_root] in Hf.
  destruct (way_read w (top_frame :: k) f [] (Z.of_nat (S (length k))) Hw) as [Rp Rd]; [done|].
  pose proof Hok as [_ [(Eb & Rb & En & Hs) _]]%ctx_ok_app. cbn [ctx_height] in Eb. rewrite ctx_count_nil in En.
  pose proof round_balance as Hb. rewrite <- (b1_sign (fr_d f)) in Hb.
  assert (b1 (fr_d f) = 1 \/ b1 (fr_d f) = -1) as Hb1 by (destruct (fr_d f); auto).
  assert (fr_n f < 2 ^ 32) as Hn.
  { rewrite count_plug, ctx_count_app in Hlt. pose proof (ctx_count_ge k (ctx_count [f] (count t))).
    rewrite ctx_count_cons, ctx_count_nil in *. lia. }
  assert (same_but [fr_a f] h h1) as Hs1.
  { subst h1. apply same_but_insert; [by apply list_elem_of_here|apply same_but_refl]. }
  assert (h1 !! fr_a f = Some (nd_head (fr_d f) (root t) (root (fr_s f)) (fr_b f + b1 (fr_d f)) (fr_n f))) as Hf1.
  { subst h1. by rewrite lookup_insert_eq. }
  unfold one_up. cbn [erase_rebalance]. rewrite Rp, bind_ok, Rd, bind_ok, (head_of_ok _ _ _ Hf), bind_ok, hd_balance_nd.
  fold (b1 (fr_d f)). rewrite (store_balance_ok _ _ _ _ Hf) by lia. rewrite bind_ok, set_balance_nd, <- Eh1.
  rewrite (head_of_ok _ _ _ Hf1), bind_ok, hd_balance_nd, hd_p_other.
  assert ((if fr_d f then -2 else 2) = 2 * b1 (fr_d f)) as -> by (by destruct (fr_d f)).
  unfold lower_sub in *. set (d := fr_d f) in *. set (s := fr_s f) in *.
  destruct (Z.eqb_spec (fr_b f + b1 d) (b1 d)) as [E1|E1].
  { exists h1. left. split; [done|]. eapply round_done; [rewrite root_nd; exact Hc1|exact Hat1| |done| |].
    - rewrite tree_ok_nd, side_balance_sign, <- (b1_sign d). repeat split; try done; lia.
    - rewrite height_nd. cbn [ctx_height]. fold s. destruct Hb1 as [Hx|Hx]; rewrite Hx in *; lia.
    - intros y Hy. apply Hs1. intros ->%list_elem_of_singleton. apply Hy, Hin. right. apply elems_nd. by left. }
  destruct (Z.eqb_spec (fr_b f + b1 d) (2 * b1 d)) as [E2|E2].
  - assert (height s = height t + 2) as Hhs by (destruct Hb1 as [Hx|Hx]; rewrite Hx in *; lia).
    destruct (round_rotate h1) as (h' & Hr); try done. exists h'. exact Hr.
  - assert (height s = height t /\ fr_b f + b1 d = 0) as [Hhs H0].
    { destruct Hb1 as [Hx|Hx]; rewrite Hx in *; lia. }
    exists h1. right. exists lower_sub. split; [done|]. unfold lower_sub. fold d s.
    split; [by rewrite root_nd|]. split; [done|]. split; [|split; [apply round_elems|split]].
    + rewrite tree_ok_nd, side_balance_sign, <- (b1_sign d). repeat split; try done; lia.
    + rewrite height_nd. cbn [ctx_height]. fold s. lia.
    + intros y Hy. apply Hs1. intros ->%list_elem_of_singleton. apply Hy, Hin. right. apply elems_nd. by left.
Qed.
End round.

(** The loop ends with a balanced tree, from any way. *)
Lemma erase_rebalance_ok k t h w :
  ctx_at h (top_frame :: k) (root t) -> tree_at h t -> tree_ok t -> NoDup (fake :: elems (plug k t)) ->
  ctx_ok k (height t + 1) (count t) -> count (plug k t) < 2 ^ 32 -> way_has w (top_frame :: k) ->
  exists h', erase_rebalance (S (length k)) h w = Ok h' /\ rebalanced h (elems (plug k t)) h'.
Proof.
  revert t h. induction k as [|f k IH] using rev_ind; intros t h Hc Ht Htok Hnd Hok Hlt Hw.
  - exists h. split; [done|]. apply (rebalanced_intro h h [] t); try done.
  - change (top_frame :: k ++ [f]) with ((top_frame :: k) ++ [f]) in Hw. rewrite length_app, Nat.add_1_r.
    destruct (round_ok h w k f t) as (h' & [[Hrun Hre] | (sub & Hrun & Hc' & Hat' & Hok' & He' & Hh' & Hs')]); try done; [by eexists|].
    rewrite Hrun. assert (elems (plug (k ++ [f]) t) = elems (plug k sub)) as Hel
      by (by rewrite plug_app, !(elems_plug k), He').
    assert (count sub = ctx_count [f] (count t)) as Hcs.
    { transitivity (count (plug [f] t)); [unfold count; by rewrite He'|apply count_plug]. }
    destruct (IH sub h') as (h2 & Hrun2 & Hre2); try done.
    + by rewrite <- Hel.
    + apply ctx_ok_app in Hok as [Hk _]. by rewrite Hh', Hcs.
    + unfold count in Hlt |- *. by rewrite <- Hel.
    + by eapply way_has_app.
    + exists h2. split; [done|]. rewrite Hel in *. by eapply rebalanced_trans.
Qed.
End fake.

(** ** The way to the node *)

Section find.
Context (cmp : Z -> Z -> Z) `{KavlOrder cmp}.

Lemma count_left_ok h c l a b n r cnt :
  tree_at h (Node l a b n r) -> tree_ok (Node l a b n r) -> 0 <= cnt -> cnt + count l + 1 < 2 ^ 32 ->
  (if 0 <? c then s ← kavl_size_child h a false; mret (u32 (cnt + (s + 1))) else mret cnt) =
  Ok (if 0 <? c then cnt + (count l + 1) else cnt).
Proof.
  intros (Ha & Hl & _) (_ & _ & _ & Okl & _) H1 H2. destruct (0 <? c); [|done].
  rewrite (kavl_size_child_ok _ _ _ _ l Ha) by done. cbn. rewrite u32_small; [done|].
  pose proof (count_nonneg l). lia.
Qed.

Lemma erase_find_ok t fuel h x w c cnt p0 :
  root t = Some p0 -> tree_at h t -> tree_ok t -> sorted_by cmp (elems t) -> (length (elems t) <= fuel)%nat ->
  way_at w c -> zlen c + height t <= KAVL_MAX_DEPTH -> 0 <= cnt -> cnt + count t < 2 ^ 32 ->
  match equal_node cmp x (elems t) with
  | None => erase_find cmp fuel h x p0 (cmp x p0) w cnt = Ok None
  | Some p => exists k l b n r w' cnt', t = plug k (Node l p b n r) /\
      erase_find cmp fuel h x p0 (cmp x p0) w cnt = Ok (Some (p, w', cnt')) /\
      way_at w' (c ++ k) /\ 0 <= cnt' /\ cnt' + (count l + 1) = cnt + rank cmp x (elems t)
  end.
Proof.
  revert fuel w c cnt p0. induction t as [|l IHl a b n r IHr]; intros fuel w c cnt p0 Hp0 Hat Hok Hs Hf Hw Hd H1 H2; [done|].
  injection Hp0 as <-. destruct (equal_node_node cmp x _ _ _ _ _ Hs) as [-> ->]. rewrite count_node in H2.
  pose proof (count_nonneg l). pose proof (count_nonneg r). pose proof (height_nonneg l). pose proof (height_nonneg r).
  cbn [height] in Hd. cbn [elems] in Hf. rewrite length_app in Hf. cbn [length] in Hf.
  destruct fuel as [|fuel]; [lia|]. cbn [erase_find]. rewrite (count_left_ok h _ l a b n r) by (done || lia).
  apply (sorted_node cmp) in Hs as (Sl & Sr & _). destruct Hat as (Ha & Hl & Hr), Hok as (_ & _ & _ & Okl & Okr).
  assert (forall d s, exists w1, way_push w a d = Ok w1 /\ way_at w1 (c ++ [mk_frame d a b n s])) as Hpush.
  { intros d s. apply (way_push_ok w c (mk_frame d a b n s) Hw). lia. }
  destruct (Z.eqb_spec (cmp x a) 0).
  { destruct (Z.ltb_spec (cmp x a) 0), (Z.ltb_spec 0 (cmp x a)); try lia.
    exists [], l, b, n, r, w, cnt. rewrite app_nil_r. done. }
  destruct (Z.ltb_spec (cmp x a) 0), (Z.ltb_spec 0 (cmp x a)); try lia; rewrite bind_ok.
  - destruct (Hpush false r) as (w1 & -> & Hw1). rewrite bind_ok, (head_of_ok _ _ _ Ha), bind_ok. cbn [hd_p hd_p0].
    destruct (root l) as [q|] eqn:Hq; [|by destruct l].
    specialize (IHl fuel w1 _ cnt q eq_refl Hl Okl Sl ltac:(lia) Hw1 ltac:(autorewrite with fb; lia) H1 ltac:(lia)).
    destruct (equal_node cmp x (elems l)) as [p|]; [|done].
    destruct IHl as (k & l' & b' & n' & r' & w' & cnt' & -> & Hrun & Hw' & Hcnt).
    exists (mk_frame false a b n r :: k), l', b', n', r', w', cnt'. rewrite <- app_assoc in Hw'. done.
  - destruct (Hpush true l) as (w1 & -> & Hw1). rewrite bind_ok, (head_of_ok _ _ _ Ha), bind_ok. cbn [hd_p hd_p1].
    destruct (root r) as [q|] eqn:Hq; [|by destruct r].
    specialize (IHr fuel w1 _ (cnt + (count l + 1)) q eq_refl Hr Okr Sr ltac:(lia) Hw1 ltac:(autorewrite with fb; lia) ltac:(lia) ltac:(lia)).
    destruct (equal_node cmp x (elems r)) as [p|]; [|done].
    destruct IHr as (k & l' & b' & n' & r' & w' & cnt' & -> & Hrun & Hw' & Hc0 & Hcnt).
    exists (mk_frame true a b n l :: k), l', b', n', r', w', cnt'. rewrite <- app_assoc in Hw'.
    split; [done|]. split; [done|]. split; [done|]. split; [done|lia].
Qed.
End find.

(** The way to the smallest node. *)
Lemma way_left_ok t fuel h w c :
  tree_at h t -> (length (elems t) <= fuel)%nat -> way_at w c -> zlen c + height t <= KAVL_MAX_DEPTH ->
  exists k w', t = plug k Leaf /\ way_left fuel h (root t) w = Ok w' /\ way_at w' (c ++ k) /\
    Forall (fun f => fr_d f = false) k.
Proof.
  revert fuel w c. induction t as [|l IHl a b n r _]; intros fuel w c Hat Hf Hw Hd.
  { exists [], w. rewrite app_nil_r. by destruct fuel. }
  destruct Hat as (Ha & Hl & _). cbn [height] in Hd. cbn [elems] in Hf. rewrite length_app in Hf. cbn [length] in Hf.
  pose proof (height_nonneg l). pose proof (height_nonneg r). destruct fuel as [|fuel]; [lia|].
  cbn [way_left root]. destruct (way_push_ok w c (mk_frame false a b n r) Hw) as (w1 & Hpush & Hw1); [lia|].
  cbn in Hpush. rewrite Hpush, bind_ok, (head_of_ok _ _ _ Ha), bind_ok. cbn [hd_p hd_p0].
  destruct (IHl fuel w1 _ Hl ltac:(lia) Hw1 ltac:(autorewrite with fb; lia)) as (k & w2 & -> & -> & Hw2 & Hk).
  exists (mk_frame false a b n r :: k), w2. rewrite <- app_assoc in Hw2. split; [done|]. split; [done|]. split; [done|]. by constructor.
Qed.

(** ** Taking the node out *)

Section unlink.
Context (fake : Z).
Abbreviation tp := (top_frame fake).

(** After [p], the root of [Node l p b n r], is taken out at the end of the
    way [k]: a longer way, with a tree at its end that is one lower. *)
Definition unlinked h (k : list frame) (l : tree) (p b n : Z) (r : tree) (h' : kavl_heap) (w : way) : Prop :=
  exists k' t, way_has w (tp :: k') /\ wy_d w = zlen (tp :: k') /\
    ctx_at h' (tp :: k') (root t) /\ tree_at h' t /\ tree_ok t /\ ctx_ok k' (height t + 1) (count t) /\
    elems (plug k' t) = ctx_pre k ++ elems l ++ elems r ++ ctx_post k /\
    same_but (fake :: elems (plug k (Node l p b n r))) h h'.

Lemma NoDup_top k t :
  NoDup (fake :: elems (plug k t)) <->
  NoDup (ctx_elems (tp :: k)) /\ (forall x, x ∈ ctx_elems (tp :: k) -> x ∉ elems t) /\ NoDup (elems t).
Proof.
  rewrite <- NoDup_plug. change (elems (plug (tp :: k) t)) with (elems (plug k t) ++ [fake]).
  by rewrite <- Permutation_cons_append.
Qed.

Lemma top_elems k t x : x ∈ fake :: elems (plug k t) <-> x ∈ ctx_elems (tp :: k) \/ x ∈ elems t.
Proof.
  rewrite elem_of_cons, elems_plug_perm, elem_of_app, elem_of_ctx_cons. cbn.
  split; [tauto|]. intros [[?|[?%not_elem_of_nil|?]]|?]; tauto.
Qed.

(** [p] has no right child. *)
Lemma unlink_leaf h w k l p b n :
  ctx_at h (tp :: k) (Some p) -> tree_at h (Node l p b n Leaf) -> tree_ok (Node l p b n Leaf) ->
  NoDup (fake :: elems (plug k (Node l p b n Leaf))) -> ctx_ok k (height (Node l p b n Leaf)) (count l) ->
  way_has w (tp :: k) -> wy_d w = zlen (tp :: k) ->
  exists h', erase_unlink h p w = Ok (h', w) /\ unlinked h k l p b n Leaf h' w.
Proof.
  intros Hc (Hp & Hl & _) (Hb & Rb & Hn & Okl & _) (N1 & D1 & N2)%NoDup_top Hok Hw Hd.
  unfold erase_unlink. rewrite (head_of_ok _ _ _ Hp), bind_ok. cbn [hd_p hd_p1 hd_p0 root].
  destruct (link_parent fake h h w k _ l (root l) (elems (Node l p b n Leaf)) (wy_d w - 1) Hc N1 D1)
    as (h2 & Hrun & Hc2 & Hl2 & Hs2); try done.
  { intros x Hx. cbn. apply elem_of_app. by left. } { rewrite Hd. autorewrite with fb. lia. }
  rewrite Hrun, bind_ok. exists h2. split; [done|]. exists k, l. cbn [height] in Hok. pose proof (height_nonneg l).
  rewrite Z.max_l in Hok by lia. rewrite (Z.add_comm 1) in Hok.
  do 6 (split; [done|]). split; [apply elems_plug|].
  intros x Hx. rewrite top_elems in Hx. apply Hs2. tauto.
Qed.

(** The right child of [p] has no left child and takes its place. *)
Lemma unlink_child h w k l p b n q bq nq rr :
  let r := Node Leaf q bq nq rr in
  ctx_at h (tp :: k) (Some p) -> tree_at h (Node l p b n r) -> tree_ok (Node l p b n r) ->
  NoDup (fake :: elems (plug k (Node l p b n r))) -> ctx_ok k (height (Node l p b n r)) (count l + count r) ->
  way_at w (tp :: k) -> zlen (tp :: k) < KAVL_MAX_DEPTH -> n < 2 ^ 32 ->
  exists h' w', erase_unlink h p w = Ok (h', w') /\ unlinked h k l p b n r h' w'.
Proof.
  cbn zeta. intros Hc (Hp & Hl & Hq & _ & Hrr) (Hb & Rb & Hn & Okl & Rq & _ & Hnq & _ & Okrr) (N1 & D1 & N2)%NoDup_top Hok Hw Hroom Hlt.
  unfold erase_unlink. rewrite (head_of_ok _ _ _ Hp), bind_ok. cbn [hd_p hd_p1 hd_p0 root].
  rewrite (head_of_ok _ _ _ Hq), bind_ok. cbn [hd_p hd_p1 hd_p0 root].
  rewrite (store_p_ok _ _ _ _ _ Hq), bind_ok.
  rewrite (store_balance_ok _ q (mk_head (root l) (root rr) bq nq)) by (first [by rewrite lookup_insert_eq|cbn; lia]).
  rewrite bind_ok. cbn [hd_balance]. set (h1 := <[q := _]> (<[q := _]> h)).
  assert (h1 !! q = Some (mk_head (root l) (root rr) b nq)) as Hq1 by (subst h1; by rewrite lookup_insert_eq).
  assert (same_but [q] h h1) as Hs1 by (subst h1; kavl_same).
  set (T := Node l p b n (Node Leaf q bq nq rr)) in *.
  assert (same_but (elems T) h h1) as Hs1'.
  { eapply same_but_weaken, Hs1. intros y ->%list_elem_of_singleton. subst T. cbn. set_solver. }
  assert (NoDup (elems l) /\ q ∉ elems l /\ q ∉ elems rr) as (_ & Hql & Hqr).
  { subst T. cbn in N2. rewrite NoDup_app, !NoDup_cons in N2. set_solver. }
  assert (tree_at h1 l /\ tree_at h1 rr) as [Hl1 Hrr1] by (subst h1; split; by repeat apply tree_at_insert).
  destruct Hw as (Hw & Hsz & Hd).
  destruct (link_parent fake h h1 w k _ (Node l q b nq rr) (Some q) (elems T) (wy_d w - 1) Hc N1 D1 Hs1')
    as (h2 & Hrun & Hc2 & (Hq2 & Hl2 & Hrr2) & Hs2); try done.
  { intros x. subst T. cbn. set_solver. } { rewrite Hd. autorewrite with fb. lia. }
  rewrite Hrun, bind_ok. set (f := mk_frame true q b (n - 1) l).
  destruct (way_push_ok w (tp :: k) f) as (w' & Hpush & Hw'); [done..|]. cbn [fr_a fr_d f] in Hpush.
  rewrite Hpush, bind_ok. cbn [hd_size]. pose proof (count_nonneg l). rewrite count_node, count_leaf in *. pose proof (count_nonneg rr).
  rewrite (store_size_ok _ _ _ _ Hq2), bind_ok by lia.
  eexists _, w'. split; [reflexivity|]. exists (k ++ [f]), rr. destruct Hw' as (Hw' & _ & Hd').
  split; [done|]. split; [done|]. set (h3 := <[q := _]> h2).
  assert (q ∉ ctx_elems (tp :: k)) as Hqk by (intros Hx; eapply D1; [done|]; subst T; cbn; set_solver).
  split.
  { apply (ctx_at_app h3 (tp :: k) [f]). split; [by apply ctx_at_insert|]. split; [|done].
    split; [subst h3; by rewrite lookup_insert_eq|by apply tree_at_insert]. }
  split; [by apply tree_at_insert|]. split; [done|]. split; [|split].
  - apply ctx_ok_app. pose proof (height_nonneg rr). cbn [height] in Hb, Hok.
    assert (height T = 1 + Z.max (height l) (1 + height rr)) as HhT by (subst T; cbn; lia). rewrite HhT in Hok.
    rewrite Z.max_r in Hb by lia.
    split; [|split; [|done]]; [|repeat split; cbn; try done; try rewrite ctx_count_nil; lia].
    rewrite ctx_count_cons, ctx_count_nil. cbn [ctx_height fr_s f].
    replace (1 + Z.max (height rr + 1) (height l)) with (1 + Z.max (height l) (1 + height rr)) by lia.
    by replace (count rr + count l + 1) with (count l + (0 + count rr + 1)) by lia.
  - rewrite elems_plug, ctx_pre_app, ctx_post_app. cbn. by rewrite <- !app_assoc.
  - intros x Hx. rewrite top_elems in Hx. subst h3. rewrite lookup_insert_ne.
    + rewrite Hs2 by tauto. apply Hs1'. tauto.
    + intros ->. apply Hx. right. subst T. cbn. set_solver.
Qed.
(** Entries that need not be those of a way. *)
Definition way_pre (w : way) (P : list (option Z)) (D : list (option bool)) : Prop :=
  (exists k, wy_path w = P ++ k) /\ (exists k, wy_dir w = D ++ k) /\ way_size w /\
  wy_d w = zlen P /\ wy_d w = zlen D.

Lemma way_pre_push w P D a d :
  way_pre w P D -> zlen P < KAVL_MAX_DEPTH ->
  exists w', way_push w a d = Ok w' /\ way_pre w' (P ++ [Some a]) (D ++ [Some d]).
Proof.
  intros ([p Hp] & [q Hq] & [Hsp Hsq] & HlP & HlD) Hroom. unfold way_push. rewrite Hp, Hq in *.
  destruct (arr_set_end D q (wy_d w) (Some d)) as (q' & -> & Hq'); [done|rewrite Hsq; lia|].
  destruct (arr_set_end P p (wy_d w) (Some a)) as (p' & -> & Hp'); [done|rewrite Hsp; lia|].
  rewrite !bind_ok. eexists. split; [reflexivity|]. unfold way_pre, way_size. cbn [wy_path wy_dir wy_d].
  split; [by eexists|]. split; [by eexists|]. unfold zlen in *. rewrite !length_app in *. cbn. lia.
Qed.

Definition all_left (c : list frame) : Prop := Forall (fun f => fr_d f = false) c.

Lemma all_left_pre c : all_left c -> ctx_pre c = [].
Proof. induction 1 as [|f c Hf _ IH]; cbn; [done|]. by rewrite Hf. Qed.

(** The leftmost node of a tree whose root has a left child. *)
Lemma erase_succ_ok l fuel h w P D q b n r :
  l <> Leaf -> tree_at h (Node l q b n r) -> (length (elems l) <= fuel)%nat ->
  way_pre w P D -> zlen P + height l < KAVL_MAX_DEPTH ->
  exists s g rs b' n' sr w', Node l q b n r = plug (s ++ [g]) (Node Leaf rs b' n' sr) /\
    erase_succ fuel h q w = Ok (fr_a g, rs, w') /\ all_left (s ++ [g]) /\
    way_pre w' (P ++ path_of (s ++ [g])) (D ++ dirs_of (s ++ [g])).
Proof.
  revert fuel w P D q b n r. induction l as [|l IHl a b' n' r' _]; intros fuel w P D q b n r Hne Hat Hf Hw Hroom; [done|].
  destruct Hat as (Hq & Hl & Hr). pose proof Hl as (Ha & Hll & _). cbn [height] in Hroom.
  cbn [elems] in Hf. rewrite length_app in Hf. cbn [length] in Hf. pose proof (height_nonneg l). pose proof (height_nonneg r').
  destruct fuel as [|fuel]; [lia|]. cbn [erase_succ].
  destruct (way_pre_push w P D q false Hw) as (w1 & -> & Hw1); [lia|].
  rewrite bind_ok, (head_of_ok _ _ _ Hq), bind_ok. cbn [hd_p hd_p0 root deref]. rewrite bind_ok, (head_of_ok _ _ _ Ha), bind_ok.
  cbn [hd_p hd_p0]. set (f := mk_frame false q b n r).
  destruct l as [|ll la lb ln lr] eqn:El; cbn [root].
  - exists [], f, a, b', n', r', w1. split; [done|]. split; [done|]. split; [by repeat constructor|done].
  - rewrite <- El in *. destruct (IHl fuel w1 _ _ a b' n' r' ltac:(by subst l) Hl ltac:(lia) Hw1) as
      (s & g & rs & b2 & n2 & sr & w2 & Ht & Hrun & Hall & Hw2); [autorewrite with fb; lia|].
    exists (f :: s), g, rs, b2, n2, sr, w2. split; [cbn; by rewrite <- Ht|]. split; [done|]. split; [by constructor|].
    by rewrite <- !app_assoc in Hw2.
Qed.

(** The stores around the successor. *)
Lemma succ_relink h s g rs b b' n' sr lp rp :
  ctx_at h (s ++ [g]) (Some rs) -> NoDup (ctx_elems (s ++ [g])) -> rs ∉ ctx_elems (s ++ [g]) -> fr_d g = false ->
  h !! rs = Some (mk_head None (root sr) b' n') -> -1 <= b <= 1 ->
  exists h', (h ← store_p h rs false lp; h ← store_p h (fr_a g) false (root sr); h ← store_p h rs true rp;
              store_balance h rs b) = Ok h' /\
    h' !! rs = Some (mk_head lp rp b n') /\ ctx_at h' (s ++ [g]) (root sr) /\ same_but [rs; fr_a g] h h'.
Proof.
  intros Hc Hnd Hrs Hg Hr Hb. pose proof Hc as [_ [[Ha _] _]]%ctx_at_app. cbn [ctx_root] in Ha. rewrite Hg in Ha.
  assert (rs <> fr_a g) as Nr by (intros ->; apply Hrs, elem_of_ctx_app; right; apply elem_of_ctx_cons; tauto).
  rewrite (store_p_ok _ _ _ _ _ Hr), bind_ok. cbn [set_child].
  rewrite (store_p_ok _ (fr_a g) (nd_head false (Some rs) (root (fr_s g)) (fr_b g) (fr_n g))), bind_ok by (by rewrite lookup_insert_ne).
  rewrite (store_p_ok _ rs (mk_head lp (root sr) b' n')), bind_ok by (by rewrite lookup_insert_ne, lookup_insert_eq).
  rewrite (store_balance_ok _ rs (mk_head lp rp b' n')) by (first [by rewrite lookup_insert_eq|lia]).
  eexists. split; [reflexivity|]. split; [by rewrite lookup_insert_eq|]. split.
  - apply ctx_at_insert; [done|]. apply ctx_at_insert; [done|].
    eapply (ctx_at_snoc_store (<[rs := mk_head lp (root sr) b' n']> h)); [by apply ctx_at_insert|done| |].
    + apply same_but_insert; [by apply list_elem_of_here|apply same_but_refl].
    + rewrite lookup_insert_eq, set_p_same. by rewrite Hg.
  - kavl_same.
Qed.
(** The entry left free for the successor. *)
Lemma way_hole w c :
  way_at w c -> zlen c < KAVL_MAX_DEPTH ->
  exists jp jd, way_pre (mk_way (wy_path w) (wy_dir w) (wy_d w + 1)) (path_of c ++ [jp]) (dirs_of c ++ [jd]).
Proof.
  intros ([[p Hp] [d Hd]] & [Hsp Hsd] & Hl) Hroom.
  destruct p as [|jp p]; [rewrite Hp, zlen_app, zlen_path_of, zlen_nil in Hsp; lia|].
  destruct d as [|jd d]; [rewrite Hd, zlen_app, zlen_dirs_of, zlen_nil in Hsd; lia|].
  exists jp, jd. unfold way_pre, way_size. cbn [wy_path wy_dir wy_d]. rewrite !zlen_app, zlen_path_of, zlen_dirs_of, Hl.
  split; [exists p; by rewrite Hp, <- app_assoc|]. split; [exists d; by rewrite Hd, <- app_assoc|]. done.
Qed.

Lemma way_fill w c f jp jd k e :
  way_pre w ((path_of c ++ [jp]) ++ path_of k) ((dirs_of c ++ [jd]) ++ dirs_of k) -> e = zlen c ->
  exists path dir, arr_set (wy_path w) e (Some (fr_a f)) = Ok path /\ arr_set (wy_dir w) e (Some (fr_d f)) = Ok dir /\
    way_has (mk_way path dir (wy_d w)) (c ++ f :: k) /\ wy_d w = zlen (c ++ f :: k) /\
    (exists rest, path = path_of (c ++ f :: k) ++ rest) /\ way_has w c.
Proof.
  intros ([p Hp] & [d Hd] & _ & Hl & _) ->. rewrite Hp, Hd, <- !app_assoc. cbn [app].
  rewrite (arr_set_mid (path_of c)), (arr_set_mid (dirs_of c)) by (by rewrite ?zlen_path_of, ?zlen_dirs_of).
  eexists _, _. split; [reflexivity|]. split; [reflexivity|]. split; [|split; [|split]].
  - split; eexists; cbn [wy_path wy_dir]; unfold path_of, dirs_of; rewrite fmap_app, fmap_cons, <- app_assoc; reflexivity.
  - rewrite Hl, !zlen_app, !zlen_path_of, zlen_cons, zlen_cons, zlen_nil. lia.
  - eexists. unfold path_of. rewrite fmap_app, fmap_cons, <- app_assoc. reflexivity.
  - split; eexists; [rewrite Hp|rewrite Hd]; rewrite <- !app_assoc; reflexivity.
Qed.
(** The heap after the successor is in its place. *)
Lemma succ_heap h w k S g rs l p b n q b' n' sr e path rest :
  let c := S ++ [g] in let f := mk_frame true rs b (n - 1) l in
  ctx_at h (tp :: k) (Some p) -> NoDup (ctx_elems (tp :: k)) ->
  ctx_at h c (Some rs) -> NoDup (ctx_elems c) -> fr_d g = false -> ctx_root c (Some rs) = Some q ->
  tree_at h l -> h !! rs = Some (mk_head None (root sr) b' n') -> tree_at h sr ->
  rs ∉ ctx_elems (tp :: k) -> rs ∉ ctx_elems c -> rs ∉ elems l -> rs ∉ elems sr ->
  (forall x, x ∈ ctx_elems c -> x ∉ ctx_elems (tp :: k) /\ x ∉ elems l /\ x ∉ elems sr) ->
  (forall x, x ∈ ctx_elems (tp :: k) -> x ∉ elems l /\ x ∉ elems sr) ->
  -1 <= b <= 1 -> 1 <= n < 2 ^ 32 -> Forall (fun f => 0 <= fr_n f + -1 < 2 ^ 32) c ->
  way_has w (tp :: k) -> e = zlen (tp :: k) -> path = path_of ((tp :: k) ++ f :: c) ++ rest ->
  exists h', (h ← store_p h rs false (root l); h ← store_p h (fr_a g) false (root sr); h ← store_p h rs true (Some q);
              h ← store_balance h rs b; h ← store_way h w (e - 1) (Some rs);
              h ← shrink_sizes (length c) h path (e + 1); store_size h rs (n - 1)) = Ok h' /\
    ctx_at h' ((tp :: k) ++ f :: (add_n (-1) <$> c)) (root sr) /\ tree_at h' sr /\
    same_but (rs :: ctx_elems (tp :: k) ++ ctx_elems c) h h'.
Proof.
  cbn zeta. set (c := S ++ [g]). set (f := mk_frame true rs b (n - 1) l).
  intros Hk N1 Hc Nc Hg Hcr Hl Hr Hsr R1 R2 R3 R4 Dc Dk Hb Hn Hsz Hw -> ->.
  destruct (succ_relink h S g rs b b' n' sr (root l) (Some q) Hc Nc R2 Hg Hr Hb) as (h1 & Hrun & Hr1 & Hc1 & Hs1).
  assert (fr_a g ∈ ctx_elems c) as Hga by (apply elem_of_ctx_app; right; apply elem_of_ctx_cons; tauto).
  apply bind_inv_ok in Hrun as (a1 & E1 & Hrun). apply bind_inv_ok in Hrun as (a2 & E2 & Hrun).
  apply bind_inv_ok in Hrun as (a3 & E3 & E4).
  rewrite E1, bind_ok, E2, bind_ok, E3, bind_ok, E4, bind_ok.
  assert (forall x, x ∈ [rs; fr_a g] -> x = rs \/ x ∈ ctx_elems c) as Hin.
  { intros x [->| ->%list_elem_of_singleton]%elem_of_cons; auto. }
  assert (tree_at h1 l /\ tree_at h1 sr) as [Hl1 Hsr1].
  { split; (eapply same_but_tree; [exact Hs1| |done]); intros x Hx Hx'; destruct (Hin x Hx') as [->|Hx2]; try done;
      by destruct (Dc x Hx2) as (_ & ? & ?). }
  destruct (link_parent fake h h1 w k _ l (Some rs) (rs :: ctx_elems c ++ elems l) (zlen (tp :: k) - 1) Hk N1) as (h2 & -> & Hk2 & Hl2 & Hs2); try done.
  { intros x Hx. rewrite elem_of_cons, elem_of_app. intros [->|[Hx2|Hx2]]; [done|by apply Dc in Hx2 as [? _]|by apply Dk in Hx as [? _]]. }
  { eapply same_but_weaken, Hs1. intros x Hx. rewrite elem_of_cons, elem_of_app. destruct (Hin x Hx); auto. }
  { intros x Hx. rewrite elem_of_cons, elem_of_app. auto. }
  { autorewrite with fb. lia. }
  rewrite bind_ok. assert (ctx_at h2 c (root sr)) as Hc2.
  { eapply same_but_ctx; [done| |done]. intros x Hx. by apply Dc. }
  destruct (bump_sizes_at (-1) c ((tp :: k) ++ [f]) rest h2 (root sr) (zlen (tp :: k) + 1) Hc2 Nc Hsz) as (h3 & Hrun3 & Hs3 & Hc3).
  { by rewrite (zlen_app (tp :: k)). }
  rewrite <- app_assoc in Hrun3. unfold shrink_sizes. cbn [app] in Hrun3 |- *. rewrite Hrun3, bind_ok.
  assert (h3 !! rs = Some (mk_head (root l) (Some q) b n')) as Hr3.
  { rewrite Hs3 by (intros ?%ctx_addr_elems; done). rewrite Hs2 by done. exact Hr1. }
  rewrite (store_size_ok _ _ _ _ Hr3) by lia. eexists. split; [reflexivity|].
  assert (forall x, x ∈ fr_a <$> c -> x ∈ ctx_elems c) as Haddr by apply ctx_addr_elems.
  split; [|split].
  - apply (ctx_at_app _ (tp :: k) (f :: _)). split; [|split; [split|]].
    + apply ctx_at_insert; [done|]. eapply same_but_ctx; [done| |done]. intros x Hx Hx'%Haddr. by apply Dc in Hx' as [? _].
    + cbn [fr_a f fr_d fr_s fr_b fr_n]. rewrite lookup_insert_eq. rewrite ctx_root_map by done.
      replace (ctx_root c (root sr)) with (Some q); [done|]. rewrite <- Hcr. unfold c. by rewrite !ctx_root_app.
    + apply tree_at_insert; [done|]. eapply same_but_tree; [done| |done]. intros x Hx Hx'%Haddr. by apply Dc in Hx' as (_ & ? & _).
    + apply ctx_at_insert; [by rewrite ctx_elems_map|done].
  - apply tree_at_insert; [done|]. eapply same_but_tree; [exact Hs3| |].
    { intros x Hx Hx'%Haddr. by apply Dc in Hx' as (_ & _ & ?). }
    eapply same_but_tree; [exact Hs2| |done]. intros x Hx Hx'. by apply Dk in Hx' as [_ ?].
  - intros x Hx. rewrite elem_of_cons, elem_of_app in Hx. rewrite lookup_insert_ne by (intros ->; tauto).
    rewrite Hs3 by (intros ?%Haddr; tauto). rewrite Hs2 by tauto. apply Hs1. intros Hx'. destruct (Hin x Hx'); tauto.
Qed.

(** What the way of the successor is made of. *)
Lemma succ_facts h S rs b' n' sr r :
  r = plug S (Node Leaf rs b' n' sr) -> tree_at h r -> tree_ok r -> NoDup (elems r) -> count r < 2 ^ 32 ->
  ctx_at h S (Some rs) /\ h !! rs = Some (mk_head None (root sr) b' n') /\ tree_at h sr /\ tree_ok sr /\
  NoDup (ctx_elems S) /\ rs ∉ ctx_elems S /\ rs ∉ elems sr /\ NoDup (elems sr) /\
  (forall x, x ∈ ctx_elems S -> x ∉ elems sr) /\
  (forall x, x ∈ elems r <-> x ∈ ctx_elems S \/ x = rs \/ x ∈ elems sr) /\
  ctx_ok (add_n (-1) <$> S) (height sr + 1) (count sr) /\ height r = ctx_height S (height sr + 1) /\
  count r = ctx_count S (count sr) + 1 /\ Forall (fun f => 0 <= fr_n f + -1 < 2 ^ 32) S.
Proof.
  intros -> [Hc (Hr & _ & Hsr)]%tree_at_plug Hok (Ns & Ds & [Rsr Nsr]%NoDup_cons)%NoDup_plug Hlt.
  assert (height (Node Leaf rs b' n' sr) = height sr + 1) as Hh by (cbn; pose proof (height_nonneg sr); lia).
  assert (count (Node Leaf rs b' n' sr) = count sr + 1) as Hn by (by rewrite count_node, count_leaf).
  apply tree_ok_plug in Hok as [Hok (_ & _ & _ & _ & Oksr)]. rewrite Hh, Hn in Hok.
  rewrite count_plug, Hn in Hlt. rewrite height_plug, count_plug, Hh, Hn, ctx_count_add.
  pose proof (ctx_ok_add (-1) _ _ _ Hok) as Hok'. replace (count sr + 1 + -1) with (count sr) in Hok' by lia.
  pose proof (count_nonneg sr).
  do 3 (split; [done|]). split; [done|]. split; [done|].
  split; [intros Hx; apply (Ds rs Hx); cbn; set_solver|]. split; [done|]. split; [done|].
  split; [intros x Hx Hx'; apply (Ds x Hx); cbn; set_solver|].
  split; [intros x; rewrite elems_plug_perm, elem_of_app; cbn; by rewrite elem_of_cons|].
  split; [done|]. split; [done|]. split; [done|].
  eapply Forall_impl; [apply (ctx_ok_sizes _ _ _ Hok); lia|]. cbn. intros f Hf. lia.
Qed.

(** The leftmost node of the right side takes the place of [p]. *)
Lemma unlink_succ h w k l p b n rl q bq nq rr :
  let r := Node rl q bq nq rr in rl <> Leaf ->
  ctx_at h (tp :: k) (Some p) -> tree_at h (Node l p b n r) -> tree_ok (Node l p b n r) ->
  NoDup (fake :: elems (plug k (Node l p b n r))) -> ctx_ok k (height (Node l p b n r)) (count l + count r) ->
  way_at w (tp :: k) -> zlen (tp :: k) + height (Node l p b n r) <= KAVL_MAX_DEPTH -> n < 2 ^ 32 ->
  exists h' w', erase_unlink h p w = Ok (h', w') /\ unlinked h k l p b n r h' w'.
Proof.
  cbn zeta. intros Hne Hc (Hp & Hl & Hr) (Hb & Rb & Hn & Okl & Okr) (N1 & D1 & N2)%NoDup_top Hok Hw Hroom Hlt.
  set (r := Node rl q bq nq rr) in *. pose proof (height_nonneg l). pose proof (height_nonneg rl). pose proof (height_nonneg rr).
  pose proof N2 as (Pl & Pr & Nl & Nr & Dl)%(NoDup_nd false). pose proof (count_nonneg l). pose proof (count_nonneg r).
  assert (height r = 1 + Z.max (height rl) (height rr)) as Hhr by done. cbn [height] in Hroom, Hok.
  destruct (way_hole w (tp :: k) Hw) as (jp & jd & Hw1); [lia|].
  assert (length (elems rl) <= size h)%nat as Hfuel.
  { pose proof (elems_fuel h r Hr Nr) as Hf. subst r. cbn in Hf. rewrite length_app in Hf. lia. }
  destruct (erase_succ_ok rl (size h) h _ _ _ q bq nq rr Hne Hr Hfuel Hw1) as (s & g & rs & b' & n' & sr & w2 & Ht & Hrun & Hall & Hw2).
  { rewrite zlen_app, zlen_path_of. change (zlen [jp]) with 1. lia. }
  destruct (succ_facts h (s ++ [g]) rs b' n' sr r Ht Hr Okr Nr ltac:(lia))
    as (Hcs & Hrs & Hsr & Oksr & Ns & Rs & Rsr & Nsr & Ds & Er & Oks & Hhr2 & Hcr2 & Hsz).
  destruct Hw as (_ & _ & Hd). set (f := mk_frame true rs b (n - 1) l).
  destruct (way_fill w2 (tp :: k) f jp jd (s ++ [g]) (zlen (tp :: k)) Hw2 eq_refl) as (path & dir & Hp1 & Hp2 & Hw3 & Hd3 & (rest & Hpath) & Hwk).
  assert (forall x, x ∈ ctx_elems (tp :: k) -> x ∉ elems l /\ x ∉ elems r) as Dk.
  { intros x Hx%D1. cbn in Hx. rewrite elem_of_app, elem_of_cons in Hx. tauto. }
  destruct (succ_heap h w2 k s g rs l p b n q b' n' sr (zlen (tp :: k)) path rest Hc N1 Hcs Ns) as (h' & Hheap & Hc' & Hsr' & Hs'); try done.
  { unfold all_left in Hall. rewrite Forall_app, Forall_singleton in Hall. apply Hall. }
  { pose proof (f_equal root Ht) as Hroot. by rewrite root_plug in Hroot. }
  { intros Hx%Dk. destruct Hx as [_ Hx]. apply Hx, Er. tauto. }
  { intros Hx%Dl. apply Hx, Er. tauto. }
  { intros x Hx. split; [|split].
    - intros Hx'%Dk. destruct Hx' as [_ Hx']. apply Hx', Er. tauto.
    - intros Hx'%Dl. apply Hx', Er. tauto.
    - by apply Ds. }
  { intros x Hx%Dk. rewrite Er in Hx. tauto. }
  { lia. }
  exists h', (mk_way path dir (wy_d w2)). split.
  - unfold erase_unlink. rewrite (head_of_ok _ _ _ Hp), bind_ok. cbn [hd_p hd_p1 hd_p0 hd_balance hd_size root r].
    pose proof Hr as [Hq _]. fold r. rewrite (head_of_ok _ _ _ Hq), bind_ok. cbn [hd_p hd_p0].
    destruct (root rl) as [x|] eqn:Hrl; [|by destruct rl]. rewrite Hd in Hrun |- *. rewrite Hrun, bind_ok, (head_of_ok _ _ _ Hrs), bind_ok.
    cbn [hd_p hd_p1]. change (fr_a f) with rs in Hp1. change (fr_d f) with true in Hp2. rewrite Hp1, Hp2.
    replace (Z.to_nat (wy_d w2 - (zlen (tp :: k) + 1))) with (length (s ++ [g])).
    2: { rewrite Hd3. unfold zlen. rewrite (length_app (tp :: k)). cbn [length]. lia. }
    revert Hheap. destruct (store_p h rs false (root l)) as [x1| | |]; [|done..]. rewrite !bind_ok.
    destruct (store_p x1 (fr_a g) false (root sr)) as [x2| | |]; [|done..]. rewrite !bind_ok.
    destruct (store_p x2 rs true (Some q)) as [x3| | |]; [|done..]. rewrite !bind_ok.
    destruct (store_balance x3 rs b) as [x4| | |]; [|done..]. rewrite !bind_ok.
    destruct (store_way x4 w2 (zlen (tp :: k) - 1) (Some rs)) as [x5| | |]; [|done..]. rewrite !bind_ok.
    destruct (shrink_sizes _ x5 path _) as [x6| | |]; [|done..]. rewrite !bind_ok. by intros ->.
  - assert (ctx_elems (add_n (-1) <$> (s ++ [g])) = ctx_elems (s ++ [g])) as Hem by by rewrite ctx_elems_map.
    exists (k ++ f :: (add_n (-1) <$> (s ++ [g]))), sr. split; [|split; [|split; [|split; [|split; [|split; [|split]]]]]]; try done.
    + unfold way_has in Hw3 |- *. change (tp :: k ++ ?c) with ((tp :: k) ++ c).
      rewrite !(path_of_app (tp :: k)), !(dirs_of_app (tp :: k)) in *.
      change (path_of (f :: ?c)) with (Some (fr_a f) :: path_of c) in *. change (dirs_of (f :: ?c)) with (Some (fr_d f) :: dirs_of c) in *.
      by rewrite path_of_map, dirs_of_map.
    + cbn [wy_d]. rewrite Hd3. unfold zlen. cbn [app length]. rewrite !length_app. cbn [length]. by rewrite length_fmap, length_app.
    + apply ctx_ok_app. split; [|split; [|done]].
      * rewrite ctx_count_cons, ctx_count_map by done. cbn [ctx_height fr_s f]. rewrite ctx_height_map, <- Hhr2 by done.
        replace (1 + Z.max (height r) (height l)) with (1 + Z.max (height l) (height r)) by lia.
        by replace (ctx_count (s ++ [g]) (count sr) + count l + 1) with (count l + count r) by lia.
      * rewrite ctx_height_map, ctx_count_map, <- Hhr2 by done. repeat split; cbn; try done; lia.
    + rewrite elems_plug, ctx_pre_app, ctx_post_app. cbn [ctx_pre ctx_post fr_d f fr_s fr_a]. rewrite ctx_pre_map, ctx_post_map by done.
      rewrite (all_left_pre (s ++ [g])) by done. rewrite (f_equal elems Ht : elems r = _), elems_plug, (all_left_pre (s ++ [g])) by done. cbn.
      by rewrite <- !app_assoc.
    + intros x Hx. apply Hs'. rewrite top_elems in Hx. change (elems (Node l p b n r)) with (elems l ++ p :: elems r) in Hx. rewrite elem_of_app, elem_of_cons, Er in Hx.
      rewrite elem_of_cons, elem_of_app. tauto.
Qed.

End unlink.

(** ** kavl_erase *)

Section erase.
Context (fake : Z).
Abbreviation tp := (top_frame fake).

Lemma erase_unlink_ok h w k l p b n r :
  ctx_at h (tp :: k) (Some p) -> tree_at h (Node l p b n r) -> tree_ok (Node l p b n r) ->
  NoDup (fake :: elems (plug k (Node l p b n r))) -> ctx_ok k (height (Node l p b n r)) (count l + count r) ->
  way_at w (tp :: k) -> zlen (tp :: k) + height (Node l p b n r) <= KAVL_MAX_DEPTH -> n < 2 ^ 32 ->
  exists h' w', erase_unlink h p w = Ok (h', w') /\ unlinked fake h k l p b n r h' w'.
Proof.
  intros Hc Ht Htok Hnd Hok Hw Hroom Hlt. destruct r as [|rl q bq nq rr].
  - rewrite count_leaf, Z.add_0_r in Hok. destruct Hw as (Hw & _ & Hd).
    destruct (unlink_leaf fake h w k l p b n) as (h' & Hrun & Hun); try done. by exists h', w.
  - destruct rl as [|rll rla rlb rln rlr].
    + apply unlink_child; try done. pose proof (height_nonneg l). cbn [height] in Hroom. lia.
    + by apply unlink_succ.
Qed.

(** kavl_erase once the node [p] is found. *)
Definition erase_run (h : kavl_heap) (p : Z) (w : way) (cnt : Z) : outcome (kavl_heap * option Z * option Z * Z) :=
  h ← shrink_sizes (Z.to_nat (wy_d w - 1)) h (wy_path w) 1;
  '(h, w) ← erase_unlink h p w;
  h ← erase_rebalance (Z.to_nat (wy_d w)) h w;
  nf ← head_of h fake;
  mret (delete fake h, hd_p nf false, Some p, cnt).

Lemma erase_run_ok h k l p b n r w cnt :
  let t := plug k (Node l p b n r) in
  h !! fake = None -> tree_at h t -> tree_ok t -> NoDup (elems t) -> count t < 2 ^ 32 ->
  way_at w (tp :: k) ->
  exists h' T, erase_run (<[fake := mk_head (root t) None 0 0]> h) p w cnt = Ok (h', root T, Some p, cnt) /\
    tree_at h' T /\ tree_ok T /\ elems T = ctx_pre k ++ elems l ++ elems r ++ ctx_post k /\ same_but (elems t) h h'.
Proof.
  cbn zeta. intros Hf Hat Hok Hnd Hlt Hw. set (X := Node l p b n r) in *. set (t := plug k X) in *.
  pose proof (height_bound t Hok Hlt) as Hh. subst t. set (h0 := <[fake := _]> h).
  assert (fake ∉ elems (plug k X)) as Hft by (intros Hx; destruct (elems_dom _ _ Hat _ Hx); congruence).
  pose proof (NoDup_cons_2 _ _ Hft Hnd) as Hnd0. pose proof (proj1 (NoDup_top fake k X) Hnd0) as (N1 & D1 & N2).
  apply NoDup_ctx_cons in N1 as (_ & Hfk & _ & _ & Nk).
  assert (tree_at h0 (plug k X)) as Hat0 by (by apply tree_at_insert). apply tree_at_plug in Hat0 as [Hk HX].
  rewrite height_plug in Hh. rewrite count_plug in Hlt. apply tree_ok_plug in Hok as [Hok HokX].
  assert (count X = count l + count r + 1) as HcX by apply count_node. pose proof (count_nonneg l). pose proof (count_nonneg r).
  destruct (bump_sizes_at (-1) k [tp] (drop (length (path_of (tp :: k))) (wy_path w)) h0 (Some p) 1 Hk Nk)
    as (h1 & Hrun1 & Hs1 & Hk1); [|done|].
  { eapply Forall_impl; [apply (ctx_ok_sizes _ _ _ Hok); lia|]. cbn. lia. }
  pose proof Hw as (Hwh & Hws & Hwd). destruct Hwh as [[kp Hp] Hdir]. unfold erase_run.
  assert (wy_path w = path_of ([tp] ++ k) ++ drop (length (path_of (tp :: k))) (wy_path w)) as Hp' by (by rewrite Hp, drop_app_length).
  rewrite Hp'. rewrite Hwd, zlen_cons. replace (Z.to_nat (zlen k + 1 - 1)) with (length k) by (unfold zlen; lia).
  unfold shrink_sizes. rewrite Hrun1, bind_ok.
  assert (forall x, x ∈ fr_a <$> k -> x ∈ ctx_elems k) as Haddr by apply ctx_addr_elems.
  assert (tree_at h1 X) as HX1.
  { eapply same_but_tree; [done| |done]. intros x Hx Hx'%Haddr. eapply D1; [|done]. apply elem_of_ctx_cons. tauto. }
  assert (ctx_at h1 (tp :: (add_n (-1) <$> k)) (Some p)) as Hk1'.
  { split; [split; [|done]|done]. rewrite Hs1 by (by intros ?%Haddr). cbn. subst h0. rewrite lookup_insert_eq, root_plug.
    by rewrite ctx_root_map. }
  assert (elems (plug (add_n (-1) <$> k) X) = elems (plug k X)) as Hel by (by rewrite !elems_plug, ctx_pre_map, ctx_post_map).
  destruct (erase_unlink_ok h1 w (add_n (-1) <$> k) l p b n r) as (h2 & w2 & Hrun2 & k' & t & Hw2 & Hd2 & Hk2 & Ht2 & Htok2 & Hok2 & He2 & Hs2); try done.
  { fold X. by rewrite Hel. }
  { apply (ctx_ok_add (-1)) in Hok. by replace (count X + -1) with (count l + count r) in Hok by lia. }
  { destruct Hw as ([[y Hy] [z Hz]] & Hw'). split; [split|by unfold zlen in *; cbn in *; rewrite length_fmap].
    - exists y. rewrite Hy. change (path_of (tp :: ?c)) with (Some fake :: path_of c). by rewrite path_of_map.
    - exists z. rewrite Hz. change (dirs_of (tp :: ?c)) with (Some false :: dirs_of c). by rewrite dirs_of_map. }
  { fold X. pose proof (ctx_height_ge k (height X)). rewrite zlen_cons. unfold zlen in *. rewrite length_fmap. unfold KAVL_MAX_DEPTH. lia. }
  { destruct HokX as (_ & _ & -> & _). pose proof (ctx_count_ge k (count X)). lia. }
  rewrite Hrun2, bind_ok. fold X in Hs2. rewrite Hel in Hs2. rewrite ctx_pre_map, ctx_post_map in He2 by done.
  assert (elems (plug k X) ≡ₚ p :: elems (plug k' t)) as Hperm.
  { rewrite He2, elems_plug. cbn. solve_Permutation. }
  destruct (erase_rebalance_ok fake k' t h2 w2) as (h3 & Hrun3 & T & Hf3 & Hat3 & Hok3 & He3 & Hs3); try done.
  { rewrite Hperm in Hnd0. rewrite !NoDup_cons, elem_of_cons in Hnd0. apply NoDup_cons. tauto. }
  { apply (Permutation_length) in Hperm. rewrite <- count_plug in Hlt. unfold count, zlen in *. cbn in Hperm. lia. }
  replace (Z.to_nat (wy_d w2)) with (S (length k')) by (rewrite Hd2; unfold zlen; cbn; lia).
  rewrite Hrun3, bind_ok, (head_of_ok _ _ _ Hf3), bind_ok. cbn [hd_p hd_p0].
  exists (delete fake h3), T. split; [done|]. rewrite He2 in He3.
  assert (forall x, x ∈ elems T -> x ∈ elems (plug k X)) as Hsub.
  { intros x Hx. rewrite He3, <- He2 in Hx. rewrite Hperm. by apply elem_of_cons; right. }
  split; [|split; [done|split; [done|]]].
  - eapply tree_at_frame, Hat3. intros x Hx. apply lookup_delete_ne. intros ->. by apply Hft, Hsub.
  - intros x Hx. destruct (decide (x = fake)) as [->|Nx]; [by rewrite lookup_delete_eq|].
    rewrite lookup_delete_ne by done. rewrite Hs3.
    2: { rewrite elem_of_cons. intros [|Hx']; [done|]. apply Hx. rewrite Hperm. by apply elem_of_cons; right. }
    rewrite Hs2 by (rewrite elem_of_cons; tauto). rewrite Hs1.
    2: { intros Hx'%Haddr. apply Hx. rewrite elems_plug_perm, elem_of_app. by left. }
    subst h0. by apply lookup_insert_ne.
Qed.
Context (cmp : Z -> Z -> Z) `{KavlOrder cmp}.

Definition erase_node (p : Z) (xs : list Z) : list Z := filter (fun e => e <> p) xs.

Lemma erase_node_middle xs p ys : NoDup (xs ++ p :: ys) -> erase_node p (xs ++ p :: ys) = xs ++ ys.
Proof.
  intros Hnd. assert (p ∉ xs /\ p ∉ ys) as [Hx Hy] by (rewrite NoDup_app, NoDup_cons in Hnd; set_solver).
  unfold erase_node. rewrite filter_app, filter_cons_False by auto.
  rewrite !filter_all; [done| |]; apply Forall_forall; by intros e He ->.
Qed.

Lemma sorted_middle xs p ys : sorted_by cmp (xs ++ p :: ys) -> sorted_by cmp (xs ++ ys).
Proof.
  rewrite !sorted_app, sorted_cons. intros (S1 & [S2 _] & S3). split; [done|]. split; [done|].
  intros x y Hx Hy. apply S3; [done|]. by apply elem_of_cons; right.
Qed.

Lemma way_at_fresh : way_at (mk_way fresh_array fresh_array 0) [].
Proof. split; [split; by eexists|]. split; [|done]. by split. Qed.

(** [erase_run] on a tree that stands for a list. *)
Lemma erase_run_list h k l p b n r w cnt :
  let t := plug k (Node l p b n r) in
  h !! fake = None -> tree_sorted cmp h t -> way_at w (tp :: k) ->
  exists h' rt', erase_run (<[fake := mk_head (root t) None 0 0]> h) p w cnt = Ok (h', rt', Some p, cnt) /\
    kavl cmp h' rt' (erase_node p (elems t)) /\ same_but (elems t) h h'.
Proof.
  cbn zeta. intros Hf (Hat & Hok & Hs & Hlt) Hw. pose proof (sorted_NoDup cmp _ Hs) as Hnd.
  destruct (erase_run_ok h k l p b n r w cnt Hf Hat Hok Hnd Hlt Hw) as (h' & T & Hrun & Hat' & Hok' & He' & Hs').
  assert (elems (plug k (Node l p b n r)) = (ctx_pre k ++ elems l) ++ p :: elems r ++ ctx_post k) as Hel.
  { rewrite elems_plug. cbn. by rewrite <- !app_assoc. }
  exists h', (root T). split; [done|]. split; [|done]. rewrite Hel in Hnd, Hs |- *. rewrite erase_node_middle by done.
  exists T. split; [done|]. rewrite <- app_assoc. split; [done|]. split; [done|]. split; [done|]. split.
  - rewrite He'. apply sorted_middle in Hs. by rewrite <- app_assoc in Hs.
  - unfold count in *. rewrite Hel in Hlt. rewrite He'. autorewrite with fb in *. lia.
Qed.

(** The first frame of every way. *)
Lemma erase_first_frame h t :
  exists w1, way_push (mk_way fresh_array fresh_array 0) fake false = Ok w1 /\ way_at w1 [tp] /\
    head_of (<[fake := mk_head (root t) None 0 0]> h) fake = Ok (mk_head (root t) None 0 0).
Proof.
  destruct (way_push_ok (mk_way fresh_array fresh_array 0) [] tp way_at_fresh) as (w1 & Hpush & Hw1); [done|].
  exists w1. split; [done|]. split; [done|]. apply head_of_ok, lookup_insert_eq.
Qed.

(** kavl_erase with a node to look for: the node equal to [x] is taken out,
    if there is one. *)
Lemma kavl_erase_ok h rt xs x :
  kavl cmp h rt xs -> h !! fake = None ->
  match equal_node cmp x xs with
  | None => kavl_erase cmp fake h rt (Some x) = Ok (h, rt, None, 0)
  | Some p => exists h' rt', kavl_erase cmp fake h rt (Some x) = Ok (h', rt', Some p, rank cmp x xs) /\
      kavl cmp h' rt' (erase_node p xs) /\ same_but xs h h'
  end.
Proof.
  intros (t & -> & <- & Hts) Hf. pose proof Hts as (Hat & Hok & Hs & Hlt). pose proof (sorted_NoDup cmp _ Hs) as Hnd.
  pose proof (height_bound t Hok Hlt) as Hh. destruct (erase_first_frame h t) as (w1 & Hpush & Hw1 & Hhead).
  unfold kavl_erase. rewrite (map_size_insert_None fake _ h Hf). set (h0 := <[fake := _]> h) in *.
  assert (fake ∉ elems t) as Hft by (intros Hx; destruct (elems_dom _ _ Hat _ Hx); congruence).
  assert (tree_at h0 t) as Hat0 by (by apply tree_at_insert).
  cbn [erase_find]. change (-1 =? 0) with false. change (0 <? -1) with false. cbv beta iota zeta.
  cbn [mret outcome_ret]. rewrite bind_ok, Hpush, bind_ok, Hhead, bind_ok. cbn [hd_p hd_p0].
  destruct (root t) as [q|] eqn:Hq; [|by destruct t].
  pose proof (erase_find_ok cmp t (size h) h0 x w1 [tp] 0 q Hq Hat0 Hok Hs (elems_fuel _ _ Hat Hnd) Hw1) as Hfind.
  specialize (Hfind ltac:(unfold KAVL_MAX_DEPTH; change (zlen [tp]) with 1; lia) ltac:(lia) ltac:(lia)).
  destruct (equal_node cmp x (elems t)) as [p|]; [|by rewrite Hfind].
  destruct Hfind as (k & l & b & n & r & w & cnt & -> & Hrun & Hw & Hc0 & Hcnt). rewrite Hrun, bind_ok.
  pose proof Hat0 as [_ (Hp & Hl & _)]%tree_at_plug. apply tree_ok_plug in Hok as [_ (_ & _ & _ & Okl & _)].
  rewrite (kavl_size_child_ok _ _ _ _ l Hp) by done. rewrite !bind_ok.
  assert (u32 (cnt + (count l + 1)) = rank cmp x (elems (plug k (Node l p b n r)))) as ->.
  { rewrite Hcnt, Z.add_0_l. apply u32_small. split; [apply rank_nonneg|]. eapply Z.le_lt_trans, Hlt.
    unfold rank, count, zlen. pose proof (length_filter (fun e => 0 <= cmp x e) (elems (plug k (Node l p b n r)))). lia. }
  subst h0. rewrite <- Hq. by apply erase_run_list.
Qed.

(** kavl_erase_first: the smallest node is taken out. *)
Lemma kavl_erase_first_ok h rt p xs :
  kavl cmp h rt (p :: xs) -> h !! fake = None ->
  exists h' rt', kavl_erase_first cmp fake h rt = Ok (h', rt', Some p, 1) /\ kavl cmp h' rt' xs /\ same_but (p :: xs) h h'.
Proof.
  intros (t & -> & He & Hts) Hf. pose proof Hts as (Hat & Hok & Hs & Hlt). pose proof (sorted_NoDup cmp _ Hs) as Hnd.
  pose proof (height_bound t Hok Hlt) as Hh. destruct (erase_first_frame h t) as (w1 & Hpush & Hw1 & Hhead).
  unfold kavl_erase_first, kavl_erase. rewrite (map_size_insert_None fake _ h Hf). set (h0 := <[fake := _]> h) in *.
  assert (fake ∉ elems t) as Hft by (intros Hx; destruct (elems_dom _ _ Hat _ Hx); congruence).
  assert (tree_at h0 t) as Hat0 by (by apply tree_at_insert).
  cbn [way_left]. rewrite Hpush, bind_ok, Hhead, bind_ok. cbn [hd_p hd_p0].
  destruct (way_left_ok t (size h) h0 w1 [tp] Hat0 (elems_fuel _ _ Hat Hnd) Hw1) as (k & w & -> & -> & Hw & Hk).
  { unfold KAVL_MAX_DEPTH; change (zlen [tp]) with 1; lia. }
  rewrite bind_ok. destruct k as [|f k _] using rev_ind; [done|]. apply Forall_app in Hk as [Hk Hfd]. rewrite Forall_singleton in Hfd.
  assert (plug (k ++ [f]) Leaf = plug k (Node Leaf (fr_a f) (fr_b f) (fr_n f) (fr_s f))) as Hplug.
  { rewrite plug_app. cbn [plug]. unfold plug1. by rewrite Hfd. }
  rewrite Hplug in *.
  destruct Hw as (Hwh & Hws & Hwd). cbn [app] in Hwh, Hwd. rewrite zlen_cons, zlen_app in Hwd. change (zlen [f]) with 1 in Hwd.
  destruct (way_read w (tp :: k) f [] (wy_d w - 1) Hwh) as [-> _]; [rewrite zlen_cons; lia|]. rewrite !bind_ok.
  assert (fr_a f = p) as Hfp.
  { rewrite elems_plug, (all_left_pre k Hk) in He. by injection He as ->. }
  assert (xs = erase_node p (elems (plug k (Node Leaf (fr_a f) (fr_b f) (fr_n f) (fr_s f))))) as ->.
  { rewrite He. rewrite He in Hnd. symmetry. by apply (erase_node_middle [] p xs). }
  rewrite <- He. subst h0. rewrite <- Hfp, Hplug.
  destruct (erase_run_list h k Leaf (fr_a f) (fr_b f) (fr_n f) (fr_s f) (mk_way (wy_path w) (wy_dir w) (wy_d w - 1)) 1 Hf Hts)
    as (h' & rt' & Hrun & Hr'); [|by exists h', rt'].
  split; [by apply (way_has_app w (tp :: k) [f])|]. split; [done|]. cbn [wy_d]. rewrite zlen_cons. lia.
Qed.

(** On an empty tree kavl_erase_first reads [path[-1]]. *)
Lemma kavl_erase_first_empty h : kavl_erase_first cmp fake h None = Undef OutOfBounds.
Proof.
  destruct (erase_first_frame h Leaf) as (w1 & Hpush & Hw1 & Hhead). unfold kavl_erase_first, kavl_erase.
  assert (exists m, size (<[fake := mk_head None None 0 0]> h) = S m) as [m ->].
  { destruct (size _) as [|m] eqn:E; [|by exists m]. apply map_size_empty_inv in E. exfalso.
    apply (f_equal (lookup fake)) in E. by rewrite lookup_insert_eq, lookup_empty in E. }
  cbn [way_left]. cbn [root] in Hhead. rewrite Hpush, bind_ok, Hhead, bind_ok. cbn [hd_p hd_p0].
  assert (way_left m (<[fake := mk_head None None 0 0]> h) None w1 = Ok w1) as -> by (by destruct m).
  rewrite bind_ok. destruct Hw1 as (Hwh & Hws & Hwd). rewrite Hwd. change (zlen [tp]) with 1.
  destruct (way_read w1 [] tp [] (1 - 1) Hwh) as [-> _]; [done|]. rewrite !bind_ok. cbn [wy_d wy_path wy_dir fr_a top_frame].
  change (shrink_sizes (Z.to_nat (1 - 1 - 1)) ?h ?p 1) with (@Ok kavl_heap h). rewrite bind_ok.
  unfold erase_unlink. rewrite Hhead, bind_ok. reflexivity.
Qed.

End erase.
