(* ===== verification/KavlSpec.v ===== *)
(** * What kavl.h promises: a sorted list of nodes

    Sequences of operations on one tree, run on the heap and on the list of
    its nodes.  The program that uses the tree allocates a node before it
    inserts it, and frees the node when it was not taken, or when it has been
    taken out, as the example of kavl.h does. *)

From S2P Require Import Prelude Kavl KavlTree KavlSearch KavlIter KavlInsert KavlErase.
From Stdlib Require Import Sorted.

(** [KFrom x]: place an iterator with kavl_itr_find and walk to the end.
    [junk] is what malloc leaves in a node. *)
Inductive k_op :=
  | KInsert (x : Z) (junk : kavl_head)
  | KErase (x : Z)
  | KEraseFirst
  | KFind (x : Z)
  | KSize
  | KFrom (x : Z).

Inductive k_res :=
  | RNode (p : option Z) (cnt : Z)
  | RNodes (found : Z) (xs : list Z).

(** The local node of kavl_erase is no node of the program. *)
Definition apart (fake : Z) (op : k_op) : Prop :=
  match op with KInsert x _ => x <> fake | _ => True end.

Section spec.
Context (cmp : Z -> Z -> Z) (fake : Z).

(** ** On the heap *)

Fixpoint walk (fuel : nat) (h : kavl_heap) (it : kavl_itr) : outcome (list Z) :=
  match fuel with
  | O => Spin
  | S fuel =>
      p ← kavl_at it;
      match p with
      | None => mret []
      | Some a =>
          '(it, more) ← kavl_itr_next h it;
          if truthy more then l ← walk fuel h it; mret (a :: l) else mret [a]
      end
  end.

Definition tree_run1 (h : kavl_heap) (rt : option Z) (op : k_op) : outcome (kavl_heap * option Z * k_res) :=
  match op with
  | KInsert x junk =>
      '(h, rt, p, cnt) ← kavl_insert cmp (<[x := junk]> h) rt x;
      mret (if p =? x then h else delete x h, rt, RNode (Some p) cnt)
  | KErase x =>
      '(h, rt, p, cnt) ← kavl_erase cmp fake h rt (Some x);
      mret (match p with Some a => delete a h | None => h end, rt, RNode p cnt)
  | KEraseFirst =>
      '(h, rt, p, cnt) ← kavl_erase_first cmp fake h rt;
      mret (match p with Some a => delete a h | None => h end, rt, RNode p cnt)
  | KFind x => '(p, cnt) ← kavl_find cmp h rt x; mret (h, rt, RNode p cnt)
  | KSize => n ← kavl_size h rt; mret (h, rt, RNode None n)
  | KFrom x =>
      '(it, found) ← kavl_itr_find cmp h rt x (mk_itr fresh_array 0 None);
      l ← walk (S (size h)) h it;
      mret (h, rt, RNodes found l)
  end.

Fixpoint tree_run (h : kavl_heap) (rt : option Z) (ops : list k_op) : outcome (kavl_heap * option Z * list k_res) :=
  match ops with
  | [] => mret (h, rt, [])
  | op :: ops =>
      '(h, rt, r) ← tree_run1 h rt op;
      '(h, rt, rs) ← tree_run h rt ops;
      mret (h, rt, r :: rs)
  end.

(** ** On a list: a node is allocated once, there are less than 2^32 of them,
    and taking the first node needs one *)

Definition list_run1 (xs : list Z) (op : k_op) : option (list Z * k_res) :=
  match op with
  | KInsert x _ =>
      if decide (x ∈ xs) then None
      else if 2 ^ 32 <=? zlen xs + 1 then None
      else match equal_node cmp x xs with
           | Some e => Some (xs, RNode (Some e) (rank cmp x xs))
           | None => Some (insert_node cmp x xs, RNode (Some x) (rank cmp x xs))
           end
  | KErase x =>
      match equal_node cmp x xs with
      | Some e => Some (erase_node e xs, RNode (Some e) (rank cmp x xs))
      | None => Some (xs, RNode None 0)
      end
  | KEraseFirst =>
      match xs with
      | [] => None
      | p :: xs => Some (xs, RNode (Some p) 1)
      end
  | KFind x => Some (xs, RNode (equal_node cmp x xs) (rank cmp x xs))
  | KSize => Some (xs, RNode None (zlen xs))
  | KFrom x => Some (xs, RNodes (c_bool (bool_decide (is_Some (equal_node cmp x xs)))) (from cmp x xs))
  end.

Fixpoint list_run (xs : list Z) (ops : list k_op) : option (list Z * list k_res) :=
  match ops with
  | [] => Some (xs, [])
  | op :: ops =>
      '(xs, r) ← list_run1 xs op;
      '(xs, rs) ← list_run xs ops;
      Some (xs, r :: rs)
  end.

(** ** The tree is the list *)

Context `{KavlOrder cmp}.

(** The heap holds the nodes of the tree and nothing else. *)
Definition tree_rep (h : kavl_heap) (rt : option Z) (xs : list Z) : Prop :=
  kavl cmp h rt xs /\ forall a, is_Some (h !! a) <-> a ∈ xs.

Lemma walk_ok fuel h it xs : itr_at h it xs -> (length xs < fuel)%nat -> walk fuel h it = Ok xs.
Proof.
  revert it xs. induction fuel as [|fuel IH]; intros it xs Hit Hf; [lia|].
  cbn [walk]. rewrite (itr_at_head _ _ _ Hit), bind_ok. destruct xs as [|x xs]; [done|]. cbn [head].
  destruct (itr_next_ok h h it x xs Hit) as (it' & -> & Hit'); [done|]. rewrite bind_ok.
  destruct xs as [|y xs]; [done|]. rewrite bool_decide_true by done. cbn [c_bool truthy].
  cbn in Hf. rewrite (IH it' (y :: xs)); [done|done|cbn; lia].
Qed.

Lemma kavl_frame h h' rt xs : (forall a, a ∈ xs -> h' !! a = h !! a) -> kavl cmp h rt xs -> kavl cmp h' rt xs.
Proof.
  intros Hf (t & -> & <- & Hat & Hrest). exists t. split; [done|]. split; [done|]. split; [|done].
  by eapply tree_at_frame.
Qed.

Lemma kavl_fuel h rt xs : kavl cmp h rt xs -> (length xs <= size h)%nat.
Proof. intros (t & -> & <- & Hat & _ & Hs & _). apply elems_fuel; [done|]. by apply (sorted_NoDup cmp). Qed.

Lemma kavl_sorted h rt xs : kavl cmp h rt xs -> sorted_by cmp xs /\ NoDup xs.
Proof. intros (t & -> & <- & _ & _ & Hs & _). split; [done|]. by apply (sorted_NoDup cmp). Qed.

Lemma tree_rep_kept h rt xs h' rt' ys :
  tree_rep h rt xs -> kavl cmp h' rt' ys -> same_but xs h h' -> ys ⊆ xs ->
  forall p, (forall a, a ∈ xs <-> a = p \/ a ∈ ys) -> p ∉ ys -> tree_rep (delete p h') rt' ys.
Proof.
  intros [Hk Hdom] Hk' Hs Hsub p Hp Hpy. split.
  - eapply kavl_frame, Hk'. intros a Ha. apply lookup_delete_ne. by intros ->.
  - intros a. rewrite lookup_delete_is_Some. split.
    + intros [Na Ha]. destruct (decide (a ∈ xs)) as [Hin|Hn]; [apply Hp in Hin as [->|]; done|].
      rewrite Hs in Ha by done. by apply Hdom in Ha.
    + intros Ha. split; [by intros ->|]. destruct Hk' as (t & -> & <- & Hat & _). by eapply elems_dom.
Qed.

Lemma equal_node_in x xs e : equal_node cmp x xs = Some e -> e ∈ xs.
Proof. intros He. apply head_Some_elem_of, list_elem_of_filter in He. tauto. Qed.

Lemma insert_sim h rt xs x junk :
  tree_rep h rt xs -> x ∉ xs -> zlen xs + 1 < 2 ^ 32 ->
  exists h' rt' p, tree_run1 h rt (KInsert x junk) = Ok (h', rt', RNode (Some p) (rank cmp x xs)) /\
    match equal_node cmp x xs with
    | Some e => p = e /\ tree_rep h' rt' xs
    | None => p = x /\ tree_rep h' rt' (insert_node cmp x xs)
    end.
Proof.
  intros [Hk Hdom] Hx Hlt. assert (kavl cmp (<[x := junk]> h) rt xs) as Hk0.
  { eapply kavl_frame, Hk. intros a Ha. apply lookup_insert_ne. by intros ->. }
  pose proof (kavl_insert_ok cmp _ _ _ x junk Hk0 ltac:(apply lookup_insert_eq) Hlt) as Hins. cbn [tree_run1].
  destruct (equal_node cmp x xs) as [e|] eqn:He.
  - rewrite Hins, bind_ok. pose proof (equal_node_in x xs e He) as Hin.
    destruct (Z.eqb_spec e x) as [->|_]; [done|]. eexists _, _, e. split; [done|]. split; [done|].
    split; [eapply kavl_frame, Hk0; intros a Ha; apply lookup_delete_ne; by intros ->|].
    intros a. rewrite lookup_delete_is_Some, lookup_insert_is_Some, Hdom. split; [naive_solver|].
    intros Ha. split; [by intros ->|]. destruct (decide (x = a)); naive_solver.
  - destruct Hins as (h' & rt' & -> & Hk' & Hs). rewrite bind_ok, Z.eqb_refl. eexists _, _, x. split; [done|].
    split; [done|]. split; [done|].
    assert (forall a, a ∈ insert_node cmp x xs <-> a = x \/ a ∈ xs) as Hel.
    { intros a. unfold insert_node. rewrite elem_of_app, elem_of_cons, !list_elem_of_filter.
      destruct (Z.lt_ge_cases (cmp x a) 0); naive_solver lia. }
    intros a. rewrite Hel. destruct (decide (a ∈ x :: xs)) as [Hin|Hn].
    + apply elem_of_cons in Hin. split; [tauto|]. intros _. destruct Hk' as (t & -> & Ht & Hat & _).
      eapply elems_dom; [done|]. rewrite Ht. by apply Hel.
    + rewrite Hs, lookup_insert_ne, Hdom by set_solver. rewrite elem_of_cons in Hn. tauto.
Qed.

Lemma tree_rep_outside h rt xs : tree_rep h rt xs -> fake ∉ xs -> h !! fake = None.
Proof. intros [_ Hdom] Hf. apply eq_None_not_Some. by rewrite Hdom. Qed.

Lemma tree_run1_sim h rt xs op xs' r :
  tree_rep h rt xs -> fake ∉ xs -> apart fake op -> list_run1 xs op = Some (xs', r) ->
  exists h' rt', tree_run1 h rt op = Ok (h', rt', r) /\ tree_rep h' rt' xs' /\ fake ∉ xs'.
Proof.
  intros Hr Hf Hop Hl. pose proof (tree_rep_outside _ _ _ Hr Hf) as Hfh. pose proof Hr as [Hk Hdom].
  destruct (kavl_sorted _ _ _ Hk) as [Hs Hnd]. destruct op as [x junk|x| |x| |x]; cbn [list_run1 apart] in Hl, Hop.
  - case_decide as Hx; [done|]. destruct (Z.leb_spec (2 ^ 32) (zlen xs + 1)) as [|Hlt]; [done|].
    destruct (insert_sim h rt xs x junk Hr Hx Hlt) as (h' & rt' & p & Hrun & Hres).
    destruct (equal_node cmp x xs) as [e|]; destruct Hres as [-> Hr']; injection Hl as <- <-.
    + by exists h', rt'.
    + exists h', rt'. split; [done|]. split; [done|]. unfold insert_node.
      rewrite elem_of_app, elem_of_cons, !list_elem_of_filter. naive_solver.
  - pose proof (kavl_erase_ok fake cmp h rt xs x Hk Hfh) as Her. cbn [tree_run1].
    destruct (equal_node cmp x xs) as [e|] eqn:He; injection Hl as <- <-.
    + destruct Her as (h' & rt' & -> & Hk' & Hsb). apply equal_node_in in He. rewrite bind_ok.
      eexists _, _. split; [done|]. split; [|unfold erase_node; rewrite list_elem_of_filter; tauto].
      eapply tree_rep_kept; try done; unfold erase_node.
      * intros a. rewrite list_elem_of_filter. tauto.
      * intros a. rewrite list_elem_of_filter. destruct (decide (a = e)); naive_solver.
      * rewrite list_elem_of_filter. tauto.
    + rewrite Her, bind_ok. by eexists _, _.
  - destruct xs as [|p xs]; [done|]. injection Hl as <- <-. cbn [tree_run1].
    destruct (kavl_erase_first_ok fake cmp h rt p xs Hk Hfh) as (h' & rt' & -> & Hk' & Hsb). rewrite bind_ok.
    apply NoDup_cons in Hnd as [Hp Hnd]. eexists _, _. split; [done|]. split; [|set_solver].
    eapply tree_rep_kept; try done; [set_solver|]. intros a. by rewrite elem_of_cons.
  - injection Hl as <- <-. cbn [tree_run1]. rewrite (kavl_find_ok cmp h rt xs x Hk), bind_ok. by eexists _, _.
  - injection Hl as <- <-. cbn [tree_run1]. destruct Hk as (t & -> & <- & Hat & Hok & _).
    rewrite (kavl_size_ok h t Hat Hok), bind_ok. by eexists _, _.
  - injection Hl as <- <-. cbn [tree_run1].
    destruct (itr_find_ok cmp h rt xs (mk_itr fresh_array 0 None) x Hk) as (it' & -> & Hit); [done|].
    rewrite bind_ok, (walk_ok _ _ _ (from cmp x xs) Hit); [by eexists _, _|].
    pose proof (kavl_fuel h rt xs Hk). pose proof (length_filter (fun e => cmp x e <= 0) xs).
    unfold from. lia.
Qed.

Lemma tree_run_sim h rt xs ops xs' rs :
  tree_rep h rt xs -> fake ∉ xs -> Forall (apart fake) ops -> list_run xs ops = Some (xs', rs) ->
  exists h' rt', tree_run h rt ops = Ok (h', rt', rs) /\ tree_rep h' rt' xs'.
Proof.
  revert h rt xs rs. induction ops as [|op ops IH]; intros h rt xs rs Hr Hf Ha Hl; cbn in Hl |- *.
  { injection Hl as <- <-. by exists h, rt. }
  apply Forall_cons in Ha as [Hop Ha]. destruct (list_run1 xs op) as [[xs1 r]|] eqn:H1; [|done]. cbn in Hl.
  destruct (tree_run1_sim h rt xs op xs1 r Hr Hf Hop H1) as (h1 & rt1 & -> & Hr1 & Hf1). rewrite bind_ok.
  destruct (list_run xs1 ops) as [[xs2 rs2]|] eqn:H2; [|done]. cbn in Hl. injection Hl as <- <-.
  destruct (IH h1 rt1 xs1 rs2 Hr1 Hf1 Ha H2) as (h2 & rt2 & -> & Hr2). rewrite bind_ok. by exists h2, rt2.
Qed.

Lemma tree_rep_empty : tree_rep ∅ None [].
Proof.
  split; [by exists Leaf; repeat split; constructor|]. intros a. rewrite lookup_empty.
  split; [by intros []|by intros ?%not_elem_of_nil].
Qed.

Lemma tree_rep_free h rt xs : tree_rep h rt xs -> kavl_free h rt = Ok ∅.
Proof.
  intros [Hk Hdom]. destruct (kavl_free_ok cmp h rt xs Hk) as (h' & -> & Hh'). f_equal. apply map_eq. intros a.
  rewrite Hh', lookup_empty. case_decide as Ha; [done|]. apply eq_None_not_Some. by rewrite Hdom.
Qed.

End spec.

(** C14.  The tree of kavl.h is the sorted list of its nodes.  Every sequence
    of insertions, deletions, searches and walks that allocates each node once
    and never takes the first node of an empty tree is defined, so that the
    arrays of [KAVL_MAX_DEPTH] entries are never overrun and no freed node is
    read, and returns what the same sequence returns on the list: the node
    equal to the query, how many nodes are at most the query, the number of
    nodes, and the nodes from the query on, in order.  At the end the tree is
    balanced, has exactly the nodes of the list, and kavl_free leaves none of
    them. *)
Theorem avl_is_sorted_list (cmp : Z -> Z -> Z) `{KavlOrder cmp} fake ops xs rs :
  Forall (apart fake) ops -> list_run cmp [] ops = Some (xs, rs) ->
  exists h rt, tree_run cmp fake ∅ None ops = Ok (h, rt, rs) /\ kavl cmp h rt xs /\
    (forall a, is_Some (h !! a) <-> a ∈ xs) /\ kavl_free h rt = Ok ∅.
Proof.
  intros Ha Hl.
  destruct (tree_run_sim cmp fake ∅ None [] ops xs rs) as (h & rt & Hrun & Hr);
    [apply tree_rep_empty|apply not_elem_of_nil|done..|].
  pose proof (tree_rep_free _ _ _ _ Hr). destruct Hr as [Hk Hdom]. by exists h, rt.
Qed.

(** Nodes 10 to 19 and so on hold their address divided by ten. *)
Definition tens (a b : Z) : Z := a / 10 - b / 10.

#[export] Instance tens_order : KavlOrder tens.
Proof. constructor; unfold tens; intros; lia. Qed.

Definition tens_ops : list k_op :=
  let junk := mk_head (Some 7) None 3 9 in
  [KInsert 10 junk; KInsert 20 junk; KInsert 30 junk; KInsert 40 junk; KInsert 50 junk; KInsert 31 junk;
   KFind 35; KFrom 25; KFrom 60; KErase 20; KErase 29; KEraseFirst; KInsert 20 junk; KSize].

Lemma avl_is_sorted_list_witness :
  exists h rt,
    tree_run tens 0 ∅ None tens_ops =
      Ok (h, rt, [RNode (Some 10) 0; RNode (Some 20) 1; RNode (Some 30) 2; RNode (Some 40) 3; RNode (Some 50) 4;
                  RNode (Some 30) 3; RNode (Some 30) 3; RNodes 1 [20; 30; 40; 50]; RNodes 0 [];
                  RNode (Some 20) 2; RNode None 0; RNode (Some 10) 1; RNode (Some 20) 0; RNode None 4]) /\
    kavl tens h rt [20; 30; 40; 50] /\ (forall a, is_Some (h !! a) <-> a ∈ [20; 30; 40; 50]) /\
    kavl_free h rt = Ok ∅.
Proof.
  apply avl_is_sorted_list.
  - apply tens_order.
  - repeat constructor; cbn; lia.
  - vm_compute. reflexivity.
Defined.

Lemma walk_free_ok fuel h it xs :
  itr_at h it xs -> (forall a, a ∈ xs -> is_Some (h !! a)) -> xs <> [] -> (length xs <= fuel)%nat ->
  exists h', walk_free fuel h it = Ok (h', xs) /\ forall a, h' !! a = if decide (a ∈ xs) then None else h !! a.
Proof.
  revert h it xs. induction fuel as [|fuel IH]; intros h it [|x xs] Hit Hd Hne Hf; cbn in Hf; [done|lia|done|].
  cbn [walk_free]. rewrite (itr_at_head _ _ _ Hit), bind_ok. cbn [head deref].
  destruct (Hd x) as [n Hx]; [by left|]. rewrite bind_ok, (head_of_ok _ _ _ Hx), bind_ok.
  pose proof Hit as (_ & _ & _ & [Hxn _]%NoDup_cons & _).
  destruct (itr_next_ok h (delete x h) it x xs Hit) as (it' & -> & Hit').
  { intros e He. apply lookup_delete_ne. by intros ->. }
  rewrite bind_ok. destruct xs as [|y xs].
  - exists (delete x h). split; [done|]. intros a. case_decide as Ha.
    + apply list_elem_of_singleton in Ha as ->. apply lookup_delete_eq.
    + apply lookup_delete_ne. set_solver.
  - rewrite bool_decide_true by done. cbn [c_bool truthy].
    destruct (IH (delete x h) it' (y :: xs) Hit') as (h' & -> & Hh'); [|done|lia|].
    { intros a Ha. rewrite lookup_delete_ne by (intros ->; done). apply Hd. by right. }
    rewrite bind_ok. exists h'. split; [done|]. intros a. rewrite Hh'. destruct (decide (a = x)) as [->|Nx].
    + rewrite decide_False by done. rewrite decide_True by (by left). apply lookup_delete_eq.
    + rewrite lookup_delete_ne by done. apply decide_ext. rewrite (elem_of_cons (y :: xs)). tauto.
Qed.

(** The loop of the example of kavl.h, which frees each node before it
    asks for the next one: it meets every node of the tree once, in order,
    never reads a node it has freed, frees them all and nothing else. *)
Theorem walk_frees_in_order (cmp : Z -> Z -> Z) `{KavlOrder cmp} h rt xs junk top right fuel :
  kavl cmp h rt xs -> xs <> [] -> zlen junk = KAVL_MAX_DEPTH -> (length xs <= fuel)%nat ->
  exists it h', kavl_itr_first h rt (mk_itr junk top right) = Ok it /\ walk_free fuel h it = Ok (h', xs) /\
    forall a, h' !! a = if decide (a ∈ xs) then None else h !! a.
Proof.
  intros Hk Hne Hj Hf. destruct (itr_first_ok cmp h rt xs (mk_itr junk top right) Hk Hne Hj) as (it & Hfirst & Hit).
  destruct (walk_free_ok fuel h it xs Hit) as (h' & Hrun & Hh'); [|done..|by exists it, h'].
  destruct Hk as (t & -> & <- & Hat & _). by apply elems_dom.
Qed.

Definition small_heap : kavl_heap :=
  <[20 := mk_head (Some 10) (Some 30) 0 3]>
  (<[10 := mk_head None None 0 1]> (<[30 := mk_head None None 0 1]> {[5 := mk_head None None 0 0]})).

Lemma walk_frees_in_order_witness :
  exists it h', kavl_itr_first small_heap (Some 20) (mk_itr fresh_array 3 (Some 5)) = Ok it /\
    walk_free 3 small_heap it = Ok (h', [10; 20; 30]) /\
    forall a, h' !! a = if decide (a ∈ [10; 20; 30]) then None else small_heap !! a.
Proof.
  apply (walk_frees_in_order tens small_heap (Some 20) [10; 20; 30]).
  - exists (Node (Node Leaf 10 0 1 Leaf) 20 0 3 (Node Leaf 30 0 1 Leaf)).
    repeat split; try done; try (cbn; lia). repeat constructor; unfold tens; cbn; lia.
  - done.
  - reflexivity.
  - cbn. lia.
Defined.

(** An empty tree has no first node: the iterator reads in front of its
    stack, and kavl_erase_first in front of its path. *)
Lemma itr_first_empty h it : kavl_itr_first h None it = Undef OutOfBounds.
Proof. unfold kavl_itr_first, itr_set_right. by destruct (size h). Qed.
